(* ===== verification/_CoqProject ===== *)
-Q . S2P
Prelude.v
GoStr.v
NetIP.v
NetIPPrint.v
Model.v
Zone.v
ZoneHolder.v
PolicyName.v
PolicyParse.v
Policy.v
Store.v
StoreNode.v
StoreVersion.v
StoreWf.v
StoreProps.v
StoreNodeProps.v
DnsMsg.v
DnsMetrics.v
DnsCache.v
DnsArpa.v
DnsAuth.v
DnsForward.v
DnsServer.v
PolicyService.v
PolicyServiceProps.v
DhcpAlloc.v
DhcpReserve.v
DhcpServer.v
RegistryValidate.v
Registry.v
Upstream.v
SettingsValidate.v
Settings.v
Ticker.v
Health.v
Discovery.v
ReplicaSync.v
Replica.v
Pairing.v
Role.v
DhcpRunner.v
GoDuration.v
Config.v
Identity.v
Live.v
LiveCache.v
Json.v
AdminDto.v
AdminApi.v
AdminApiProps.v
AdminWire.v
Session.v
SSO.v
WebPages.v
Web.v
WebForms.v
WebProps.v
WebFormProps.v
Backup.v
Drill.v
BackupApi.v
Start.v
Interact.v
GoFlag.v
Cli.v
CliRegistry.v
CliServer.v
CliReplica.v
CliMain.v
CliProps.v
CliConsent.v
CliApi.v
CliSettings.v
StoreOpen.v
DhcpHost.v
