(* ===== verification/Prelude.v ===== *)
(** * KyDNS: a verification development (root file)

    KyDNS is a home-network DNS server with a private zone, filtering, an optional
    DHCP server, health checks and replication to standby nodes.  This library is a
    shallow embedding of its packages under [src/internal] with the theorems that
    make them correct.  Operations keep their Go names.  State is passed and
    returned explicitly, an operation that can fail returns a [result], and each
    critical section of a mutex, or each atomic access, is one step; where the code
    leaves a gap between two of them the gap is modelled (event lists and step
    relations in [ZoneHolder], [Policy], [PolicyServiceProps], [Registry],
    [DnsForward], [Ticker], [Discovery], [DhcpRunner], [Replica], [Live]).

    ** The program's parts and the files that model them

    - Foundations.  [Prelude] (results, loops that stop at the first error, lists),
      [GoStr] (the byte strings and the [strings]/[strconv] functions the code
      calls), [NetIP] and [NetIPPrint] ([net/netip], hardware addresses, and their
      print/parse round trips).
    - The store, [store/]: [Model] (the structs), [Store] (the replicated tables with
      the [config_version] triggers), [StoreNode] (tokens, the admin row, leases,
      peers, replication state), [StoreVersion] (what the counter counts),
      [StoreWf] (the schema's constraints as an invariant of every operation),
      [StoreProps] and [StoreNodeProps] (what the operations do), [StoreOpen] (the
      schema, its migrations and what opening a database does).
    - Names, [zone/]: [Zone] (views and the snapshot of every name) and [ZoneHolder]
      (its live replacement).
    - DNS, [dnsserver/] and [upstream/]: [DnsMsg] (messages and the ACL),
      [DnsMetrics], [DnsCache], [DnsArpa], [DnsAuth] (answers from the snapshot),
      [DnsForward] (failover and the retirement of upstream lists), [Upstream] (the
      upstream parser, DNS over TLS and HTTPS with their connection pool) and
      [DnsServer] (the order of it all for one query).
    - Filtering, [policy/]: [PolicyName], [PolicyParse], [Policy] (precedence, the
      live snapshot), [PolicyService] and [PolicyServiceProps] (lists, rules and
      downloads).
    - The registry, [registry/]: [RegistryValidate] and [Registry] (services,
      records, views and API tokens).
    - Settings, [settings/]: [SettingsValidate] and [Settings] (the single write
      path and the rule against becoming an open resolver by accident).
    - DHCP, [dhcpd/]: [DhcpAlloc] (the allocator), [DhcpReserve] (reservations, names
      and other servers), [DhcpServer] (packets and the lease table), [DhcpRunner]
      ([app/dhcp.go]: when the listener runs and with what) and [DhcpHost] (the
      interface, the ARP table and the probe for other servers over what the kernel
      answers).
    - Monitors, [health/] and [discovery/]: [Ticker] (the loop both run), [Health]
      and [Discovery] (the lease file and what is published from it).
    - Replication, [replica/] and [app/]: [ReplicaSync] (snapshots of the store),
      [Replica] (the pull loop), [Pairing] (codes, the listener and its routes) and
      [Role] (the role of a node and its promotion).
    - The two HTTP servers' doors, [adminapi/] and [web/]: [Json] and [AdminDto] (the
      wire forms), [AdminApi] and [AdminApiProps] (routes, gates and every handler of
      the API), [AdminWire] (what one handler shows and another takes back), [Session] and [SSO] ([auth/]: sessions, backoff, single sign-on),
      [WebPages], [Web] and [WebForms] (pages, guards, forms, and both transports
      behind one server handler), [WebProps] and [WebFormProps].
    - Backups, [backup/]: [Backup] (the service over the recovery library, the audit
      log, the schedule), [Drill] (the restore drill) and [BackupApi] (its handlers).
    - The process: [GoDuration] ([time.ParseDuration]), [Config] (file and
      environment), [Identity] ([replica/identity.go], [transport.go]: the node's key
      and the pinned client) and [Start] (what a start of the process does, and the
      administrator reset).  The pinned client follows redirects, as [net/http] does
      for it.
    - The command line, [cli/] and [cmd/]: [Interact] (programs that interact, and how
      they are reasoned about), [GoFlag] (the [flag] package), [Cli] (the client and the
      backup commands), [CliRegistry], [CliServer], [CliReplica] (the other commands),
      [CliMain] (dispatch and the binary), [CliProps] (requests and exit codes),
      [CliConsent] (what the operator agreed to), [CliApi] (the commands' requests on
      the API's routes) and [CliSettings] (a change of settings from end to end).
    - The running node, [app/]: [Live] ([apply.go] and the wiring of [serve.go]) boots
      a node from its stored settings and runs it: settings saved, documents pulled,
      registry edits, leases and the steps of queries are the events of one history.  A
      query is cut into its look at the cache, the moment it takes the upstream list,
      and the answer with the [Put] behind it, so that a save or a pull can come
      between; [LiveCache] traces what the cache holds back through that history.

    Components meet at interfaces: [DnsServer] asks a policy through a type class
    that [Policy] implements, [DhcpServer] reaches the lease table through
    [LeaseStore], whose laws the tables of [StoreNode] satisfy, and the pull loop
    of [Replica] writes through [ReplicaNode], which the store implements.  [DhcpHost]
    makes the [Host] that [DhcpRunner] takes, and runs the rogue probe of a bound
    listener against the steps of that same listener.  [WebForms]
    routes pages and API requests on one mux over the same [ApiWorld]; [BackupApi]
    supplies the backup handlers that [AdminApi] takes as a parameter; [Start] hands
    the node of [Live] to those servers.

    ** What the theorems show

    - Answers: a query meets the ACL, the local zone, the policy and the upstreams
      in that order; a name resolves by the documented precedence for the view with
      the longest matching prefix; an answer, a denial and a miss are told apart;
      the first usable upstream answers, and an unencrypted one never makes an
      answer authentic; a cached answer is fresh.
    - Configuration: every reachable database satisfies its constraints, the counter
      moves exactly with what replicas copy, a save is all or nothing, stored
      settings boot again, and no save opens the resolver to the internet without
      the confirmation that names it; opening a database of an earlier version loses
      nothing and completes it (the tables and columns each version shipped are listed
      apart from the migrations), and opening it again changes nothing.
    - DHCP: no two clients hold one address, an address comes from the range or a
      reservation, an acknowledged lease survives a restart, published names are
      consistent with leases, the search for a free address ends, the listener runs
      only when and as the settings describe it, on the segment of its own address, and
      its periodic probe reports the other servers and never its own answers.
    - Replication: a snapshot installs what it was read from, a replica that claims
      a version holds the content of that version, one undisturbed poll converges,
      only a document that names the followed primary is ever applied, configuration
      is served only to keys that redeemed an invitation and were not unpaired since,
      and a promotion survives a crash.
    - The node as a whole: after every history the running components, the DHCP
      listener among them, are those the published settings describe and the names
      served are those of the tables; a cached answer is of an upstream they named when
      its query took the list, and outlives the change only if the query was waiting;
      and a pulled document reaches everything that serves.
    - The doors: an HTTP request changes nothing without a session and its CSRF
      token, a bearer token, or one of the routes that sign a user in; a replica
      answers but does not change what it copied; sessions refine their history and
      die with a password change; repeated failures back a login off; an identity
      that single sign-on accepts was verified; a partial update changes what it
      names, a form keeps the settings it does not show, an import checks settings
      before it writes, and what a handler shows another takes back.
    - Backups and starting: a capsule is exported or deposited only with its audit
      record, a passed drill restores, the loaded configuration has usable bounds
      and the documented precedence, a start runs exactly the servers of its role and
      leaves a way in, a restart keeps the node, and a reply reaches the pinned
      client through the key it pinned (it may be sent on to plain http, but only by a
      holder of that key).
    - The command line: a pairing code, a primary's configuration and a replica's role
      are given up only after what the prompts are there to get; the exit code tells
      what happened; every request has a route and carries the configured token only;
      the words typed for settings, read on their own account, are what the server saves.
    - Monitors: a status is a function of the probe history, no timer is lost, and
      a poll publishes what its source holds.

    A theorem about every history of a component quantifies over an operation list
    or a step relation from the initial state.  Theorems with hypotheses have a
    witness that applies them to a concrete run.

    ** Bounds and fuel

    [DhcpAlloc.scan] has one unit of fuel per address of the range and two more,
    [PolicyName.match_walk], [DnsCache.evict], [PolicyParse.discard] and
    [PolicyParse.parse_loop] have the length of what they consume, and the retry
    loop of [Upstream] one unit per idle connection and one more; [GoDuration] has the
    length of its text; each is proved to be enough.  Machine integers wrap where the code's arithmetic can ([u64w],
    [int64], [uint32] counters, durations in nanoseconds).

    ** What stands outside

    The message library, punycode, URL parsing, HTTP, TLS, packet sockets, the host's
    interfaces, argon2, SHA-256, Ed25519 and x509, the OpenID Connect client, the
    recovery library (a record of operations) and random bytes are parameters.
    SQLite's driver does not fail; a transaction commits whole or not at all, a
    snapshot file holds the database it was made from, and the statements of the schema
    run on a catalogue of tables with their rows.  Log lines are left out,
    except where the text is the behaviour (the query log line, skip reasons of the
    lease file).  Error values are constructors or codes without their prose.  JSON,
    YAML and HTML are what they decode to or show: a body, a document and a page are
    data.  Case folding is ASCII but for JSON keys.  [reflect.DeepEqual] does not
    tell a nil list from an empty one.  One HTTP request is one step, and so is one query
    of [DnsServer].

    *** Not modelled

    Templates and usage texts, sockets and their listeners, goroutines and the shutdown
    of the process, and the accessors and constructors that only wire components. *)
From stdpp Require Export prelude gmap strings list list_numbers numbers sorting.
From Stdlib Require Export ZArith Lia Ascii.

Set Default Goal Selector "!".
#[global] Open Scope Z_scope.

(** ** Results

    Go functions that return [(T, error)] are modelled by [result E T]: exactly
    one of the two is meaningful. *)
Inductive result (E A : Type) : Type :=
  | Ok (a : A)
  | Err (e : E).
Arguments Ok {E A} a.
Arguments Err {E A} e.

Declare Scope kydns_scope.
Delimit Scope kydns_scope with kydns.
#[global] Open Scope kydns_scope.

Definition rbind {E A B} (m : result E A) (k : A -> result E B) : result E B :=
  match m with
  | Ok a => k a
  | Err e => Err e
  end.

(** [x <-? m ;; k] is [x, err := m; if err != nil { return err }; k]. *)
Notation "x <-? m ;; k" := (rbind m (fun x => k))
  (at level 100, m at next level, right associativity) : kydns_scope.

Definition is_ok {E A} (m : result E A) : bool :=
  match m with Ok _ => true | Err _ => false end.

Definition ok_opt {E A} (m : result E A) : option A :=
  match m with Ok a => Some a | Err _ => None end.

Lemma rbind_ok {E A B} (m : result E A) (k : A -> result E B) b :
  rbind m k = Ok b <-> exists a, m = Ok a /\ k a = Ok b.
Proof. destruct m; simpl; naive_solver. Qed.

Lemma rbind_err {E A B} (m : result E A) (k : A -> result E B) e :
  rbind m k = Err e <-> m = Err e \/ exists a, m = Ok a /\ k a = Err e.
Proof. destruct m; simpl; naive_solver. Qed.

(** [mapR f l] runs [f] on every element in order and stops at the first error,
    which is the shape of every Go loop that builds a slice and returns early. *)
Fixpoint mapR {E A B} (f : A -> result E B) (l : list A) : result E (list B) :=
  match l with
  | [] => Ok []
  | a :: l' => b <-? f a ;; bs <-? mapR f l' ;; Ok (b :: bs)
  end.

Lemma mapR_ok {E A B} (f : A -> result E B) l bs :
  mapR f l = Ok bs <-> Forall2 (fun a b => f a = Ok b) l bs.
Proof.
  revert bs; induction l as [|a l IH]; intros bs; simpl.
  - split; [intros [= <-]; constructor | inversion 1; done].
  - rewrite rbind_ok; split.
    + intros (b & Hb & H). apply rbind_ok in H as (bs' & H1 & [= <-]).
      constructor; [done | by apply IH].
    + inversion 1 as [|? b ? bs' Hb Hbs]; subst. exists b; split; [done|].
      apply IH in Hbs. rewrite Hbs. done.
Qed.

(** [foldR f acc l] threads an accumulator through [l], stopping at an error. *)
Fixpoint foldR {E A S} (f : S -> A -> result E S) (s : S) (l : list A) : result E S :=
  match l with
  | [] => Ok s
  | a :: l' => s' <-? f s a ;; foldR f s' l'
  end.

Lemma foldR_app {E A S} (f : S -> A -> result E S) s l1 l2 :
  foldR f s (l1 ++ l2) = (s' <-? foldR f s l1 ;; foldR f s' l2).
Proof.
  revert s; induction l1 as [|a l1 IH]; intros s; simpl; [done|].
  destruct (f s a); simpl; [apply IH | done].
Qed.

Lemma foldR_inv {E A S} (P : S -> Prop) (f : S -> A -> result E S) l :
  (forall s a s', P s -> a ∈ l -> f s a = Ok s' -> P s') ->
  forall s s', P s -> foldR f s l = Ok s' -> P s'.
Proof.
  induction l as [|a l IH]; intros Hf s s' Hs; simpl; [by intros [= <-]|].
  rewrite rbind_ok. intros (s1 & H1 & H2).
  eapply IH; [ | | exact H2].
  - intros; eapply Hf; [done| by right | done].
  - eapply Hf; [done | by left | done].
Qed.

Lemma foldl_inv {A S} (P : S -> Prop) (f : S -> A -> S) l :
  (forall s a, P s -> a ∈ l -> P (f s a)) -> forall s, P s -> P (foldl f s l).
Proof.
  induction l as [|a l IH]; intros Hf s Hs; simpl; [done|].
  apply IH; [intros; apply Hf; [done | by right] | apply Hf; [done | by left]].
Qed.

(** ** Machine integers: Z with the wrap-around written out *)
Definition u8 (z : Z) : Z := z mod 2 ^ 8.
Definition u16 (z : Z) : Z := z mod 2 ^ 16.
Definition u32w (z : Z) : Z := z mod 2 ^ 32.
Definition u64w (z : Z) : Z := z mod 2 ^ 64.

Definition int64 (z : Z) : Z := (z + 2 ^ 63) mod 2 ^ 64 - 2 ^ 63.

Definition max_u32 : Z := 2 ^ 32 - 1.

Lemma u32w_bound z : 0 <= u32w z < 2 ^ 32.
Proof. apply Z.mod_pos_bound; lia. Qed.
Lemma u64w_bound z : 0 <= u64w z < 2 ^ 64.
Proof. apply Z.mod_pos_bound; lia. Qed.
Lemma u32w_small z : 0 <= z < 2 ^ 32 -> u32w z = z.
Proof. apply Z.mod_small. Qed.
Lemma u64w_small z : 0 <= z < 2 ^ 64 -> u64w z = z.
Proof. apply Z.mod_small. Qed.

(** ** Time

    [time.Time] is a number of nanoseconds since the Unix epoch and
    [time.Duration] a number of nanoseconds. *)
Definition nanos_per_sec : Z := 1000000000.
Definition seconds (n : Z) : Z := n * nanos_per_sec.
(** [t.Unix()] rounds towards minus infinity. *)
Definition unix (t : Z) : Z := t / nanos_per_sec.
(** [time.Unix(s, 0)]. *)
Definition time_unix (s : Z) : Z := s * nanos_per_sec.

Lemma unix_time_unix s : unix (time_unix s) = s.
Proof. unfold unix, time_unix, nanos_per_sec. apply Z.div_mul. lia. Qed.

(** ** Automation *)
Create HintDb kydns discriminated.
#[export] Hint Constants Opaque : kydns.

(** Case analysis on the scrutinee of the goal or of a hypothesis. *)
Ltac case_if :=
  match goal with
  | |- context [if ?b then _ else _] => destruct b eqn:?
  | H : context [if ?b then _ else _] |- _ => destruct b eqn:?
  end.

Ltac case_res :=
  match goal with
  | |- context [match ?x with Ok _ => _ | Err _ => _ end] => destruct x eqn:?
  | H : context [match ?x with Ok _ => _ | Err _ => _ end] |- _ => destruct x eqn:?
  end.

(** Turns boolean hypotheses and goals into propositions. *)
Ltac bool_to_prop :=
  repeat match goal with
  | H : (_ && _)%bool = true |- _ => apply andb_true_iff in H as [? ?]
  | H : (_ || _)%bool = false |- _ => apply orb_false_iff in H as [? ?]
  | H : negb _ = true |- _ => apply negb_true_iff in H
  | H : negb _ = false |- _ => apply negb_false_iff in H
  | H : bool_decide _ = true |- _ => apply bool_decide_eq_true in H
  | H : bool_decide _ = false |- _ => apply bool_decide_eq_false in H
  | H : (_ =? _)%Z = true |- _ => apply Z.eqb_eq in H
  | H : (_ =? _)%Z = false |- _ => apply Z.eqb_neq in H
  | H : (_ <? _)%Z = true |- _ => apply Z.ltb_lt in H
  | H : (_ <? _)%Z = false |- _ => apply Z.ltb_ge in H
  | H : (_ <=? _)%Z = true |- _ => apply Z.leb_le in H
  | H : (_ <=? _)%Z = false |- _ => apply Z.leb_gt in H
  | H : (_ >? _)%Z = true |- _ => apply Z.gtb_lt in H
  | H : (_ >? _)%Z = false |- _ => apply Z.gtb_ltb in H
  end.

(** ** Lists *)
Lemma existsb_false_forall {A} (f : A -> bool) l :
  existsb f l = false <-> forall x, x ∈ l -> f x = false.
Proof.
  induction l as [|a l IH]; simpl.
  - split; [intros _ x Hx; inversion Hx | done].
  - rewrite orb_false_iff, IH. split.
    + intros [H1 H2] x [->|Hx]%elem_of_cons; auto.
    + intros H; split; [apply H; by left | intros x Hx; apply H; by right].
Qed.

Lemma existsb_true_exists {A} (f : A -> bool) l :
  existsb f l = true <-> exists x, x ∈ l /\ f x = true.
Proof.
  rewrite existsb_exists. split; intros (x & H & ?); exists x; split; auto;
    by apply list_elem_of_In.
Qed.

(** The last element of [l] on which [f] is defined: what a loop leaves behind
    when each iteration may overwrite one key. *)
Definition last_some {A B} (f : A -> option B) (l : list A) : option B := last (omap f l).

Definition or_else {A} (x y : option A) : option A :=
  match x with Some _ => x | None => y end.

Lemma last_some_cons {A B} (f : A -> option B) a l :
  last_some f (a :: l) = or_else (last_some f l) (f a).
Proof.
  unfold last_some. simpl. destruct (f a) as [b|]; simpl.
  - rewrite last_cons. by destruct (last _).
  - by destruct (last _).
Qed.

Lemma foldl_last_some {M A X} (get : M -> option X) (step : M -> A -> M) (f : A -> option X) l :
  (forall m a, get (step m a) = or_else (f a) (get m)) ->
  forall m, get (foldl step m l) = or_else (last_some f l) (get m).
Proof.
  intros Hstep. induction l as [|a l IH]; intros m; simpl; [done|].
  rewrite IH, Hstep, last_some_cons. by destruct (last_some f l), (f a).
Qed.

Lemma last_some_Some {A B} (f : A -> option B) l b :
  last_some f l = Some b <->
  exists l1 a l2, l = l1 ++ a :: l2 /\ f a = Some b /\ forall a', a' ∈ l2 -> f a' = None.
Proof.
  induction l as [|a l IH].
  - split; [done|]. intros (l1 & a & l2 & H & _). by destruct l1.
  - rewrite last_some_cons. split.
    + destruct (last_some f l) as [b'|] eqn:E; simpl.
      * intros [= ->].
        destruct (proj1 IH eq_refl) as (l1 & a' & l2 & -> & H). by exists (a :: l1), a', l2.
      * intros Ha. exists [], a, l. split; [done|]. split; [done|].
        intros a' Ha'. destruct (f a') as [b'|] eqn:F; [|done]. exfalso.
        unfold last_some in E. apply last_None in E.
        assert (b' ∈ omap f l) by (apply list_elem_of_omap; eauto). rewrite E in H.
        by apply not_elem_of_nil in H.
    + intros (l1 & a' & l2 & Hl & Ha' & Hn). destruct l1 as [|a1 l1]; injection Hl as -> ->.
      * assert (last_some f l2 = None) as ->; [|done].
        unfold last_some. apply last_None. destruct (omap f l2) as [|b0 r] eqn:E; [done|].
        assert (Hb : b0 ∈ omap f l2) by (rewrite E; by left).
        apply list_elem_of_omap in Hb as (x & Hx & Hfx). rewrite Hn in Hfx; done.
      * assert (last_some f (l1 ++ a' :: l2) = Some b) as ->; [|done].
        apply IH. by exists l1, a', l2.
Qed.

Lemma omap_cons {A B} (f : A -> option B) a l :
  omap f (a :: l) = match f a with Some b => b :: omap f l | None => omap f l end.
Proof. done. Qed.

Lemma u64w_succ z : u64w (u64w z + 1) = u64w (z + 1).
Proof. unfold u64w. by rewrite Zplus_mod_idemp_l. Qed.
Lemma u32w_succ z : u32w (u32w z + 1) = u32w (z + 1).
Proof. unfold u32w. by rewrite Zplus_mod_idemp_l. Qed.

(** How many elements of a list satisfy a test. *)
Definition countb {A} (p : A -> bool) (l : list A) : Z := Z.of_nat (length (List.filter p l)).
Lemma countb_snoc {A} (p : A -> bool) l x : countb p (l ++ [x]) = countb p l + Z.b2z (p x).
Proof.
  unfold countb. rewrite List.filter_app, length_app. simpl. destruct (p x); simpl; lia.
Qed.
Lemma countb_nonneg {A} (p : A -> bool) l : 0 <= countb p l.
Proof. unfold countb. lia. Qed.

Lemma fmap_id_ext {A} (f : A -> A) (l : list A) : (forall x, x ∈ l -> f x = x) -> f <$> l = l.
Proof.
  intros H. rewrite <- (list_fmap_id l) at 2. apply list_fmap_ext.
  intros i x Hx. apply H. by eapply list_elem_of_lookup_2.
Qed.

Lemma filter_id {A} (P : A -> Prop) `{forall x, Decision (P x)} (l : list A) :
  (forall x, x ∈ l -> P x) -> filter P l = l.
Proof.
  induction l as [|a l IH]; intros Hl; [done|].
  rewrite filter_cons_True by (apply Hl; left). f_equal. apply IH. intros x Hx. apply Hl. by right.
Qed.

Lemma list_filter_ext {A} (P Q : A -> Prop) `{forall x, Decision (P x)} `{forall x, Decision (Q x)} (l : list A) :
  (forall x, x ∈ l -> P x <-> Q x) -> filter P l = filter Q l.
Proof.
  induction l as [|a l IH]; intros Hl; [done|]. rewrite !filter_cons.
  rewrite IH by (intros x Hx; apply Hl; by right).
  pose proof (Hl a ltac:(left)). by destruct (decide (P a)), (decide (Q a)); try tauto.
Qed.

(** Sorting commutes with a map that keeps the order. *)
Section sort_fmap.
Context {A B : Type} (R : relation A) `{forall x y, Decision (R x y)} (S : relation B) `{forall x y, Decision (S x y)}.
Context (f : A -> B) (Hf : forall x y, R x y <-> S (f x) (f y)).
Lemma list_merge_fmap l1 : forall l2, list_merge S (f <$> l1) (f <$> l2) = f <$> list_merge R l1 l2.
Proof.
  induction l1 as [|x l1 IH1]; intros l2; [by destruct l2|].
  induction l2 as [|y l2 IH2]; [done|]. cbn [fmap list_fmap]. rewrite !list_merge_cons.
  pose proof (Hf x y). destruct (decide (R x y)), (decide (S (f x) (f y))); try tauto; cbn [fmap list_fmap]; f_equal.
  - exact (IH1 (y :: l2)).
  - exact IH2.
Qed.
Definition stack_map (st : list (option (list A))) : list (option (list B)) :=
  (fun x : option (list A) => (fun l : list A => f <$> l) <$> x) <$> st.
Lemma merge_list_to_stack_fmap st : forall l : list A,
  merge_list_to_stack S (stack_map st) (f <$> l) = stack_map (merge_list_to_stack R st l).
Proof.
  induction st as [|[l'|] st IH]; intros l; [done| |done].
  cbn [stack_map fmap list_fmap option_fmap option_map merge_list_to_stack]. by rewrite list_merge_fmap, <- IH.
Qed.
Lemma merge_stack_fmap st : merge_stack S (stack_map st) = f <$> merge_stack R st.
Proof.
  induction st as [|[l|] st IH]; [done| |exact IH].
  cbn [stack_map fmap list_fmap option_fmap option_map merge_stack]. by rewrite <- list_merge_fmap, <- IH.
Qed.
Lemma merge_sort_aux_fmap l : forall st,
  merge_sort_aux S (stack_map st) (f <$> l) = f <$> merge_sort_aux R st l.
Proof.
  induction l as [|x l IH]; intros st; simpl; [apply merge_stack_fmap|].
  rewrite <- IH. f_equal. exact (merge_list_to_stack_fmap st [x]).
Qed.
Lemma merge_sort_fmap l : merge_sort S (f <$> l) = f <$> merge_sort R l.
Proof. exact (merge_sort_aux_fmap l []). Qed.
End sort_fmap.

(** A map filled by a loop over rows with distinct keys. *)
Section fill.
Context {K V A : Type} `{Countable K} (key : A -> K) (val : A -> V).
Lemma fill_lookup l : NoDup (key <$> l) -> forall (m : gmap K V) k v,
foldl (fun m x => <[key x := val x]> m) m l !! k = Some v <->
(exists x, x ∈ l /\ key x = k /\ val x = v) \/ ((k ∉ (key <$> l)) /\ m !! k = Some v).
Proof.
induction l as [|x l IH]; intros Hnd m k v; cbn [foldl fmap list_fmap].
- split; [intros Hm; right; split; [apply not_elem_of_nil|done]|].
  intros [(y & Hy & _)|[_ Hm]]; [by apply not_elem_of_nil in Hy|done].
- cbn in Hnd. apply NoDup_cons in Hnd as [Hx Hnd]. rewrite IH by done. split.
  + intros [(y & Hy & Hk & Hv)|[Hn Hm]]; [left; exists y; split; [by right|done]|].
    destruct (decide (key x = k)) as [<-|Hne].
    * rewrite lookup_insert_eq in Hm. injection Hm as <-. left. exists x. split; [left|done].
    * rewrite lookup_insert_ne in Hm by done. right. split; [|done].
      apply not_elem_of_cons. split; [congruence|done].
  + intros [(y & Hy & Hk & Hv)|[Hn Hm]].
    * apply elem_of_cons in Hy as [->|Hy]; [|left; by exists y].
      right. rewrite <- Hk, lookup_insert_eq. by rewrite Hv.
    * apply not_elem_of_cons in Hn as [Hne Hn]. right. split; [done|].
      by rewrite lookup_insert_ne.
Qed.
End fill.

(** ** Counting *)
Lemma countb_cons {A} (p : A -> bool) a l : countb p (a :: l) = Z.b2z (p a) + countb p l.
Proof. unfold countb. cbn [List.filter]. destruct (p a); cbn [length Z.b2z]; lia. Qed.
Lemma countb_fmap {A B} (f : A -> B) (p : B -> bool) l : countb p (f <$> l) = countb (fun x => p (f x)) l.
Proof. induction l as [|a l IH]; [done|]. cbn [fmap list_fmap]. rewrite !countb_cons. by rewrite IH. Qed.
Lemma countb_ext {A} (p q : A -> bool) l : (forall x, x ∈ l -> p x = q x) -> countb p l = countb q l.
Proof.
  induction l as [|a l IH]; intros H; [done|]. rewrite !countb_cons, IH, H; [done|by left|].
  intros x Hx. apply H. by right.
Qed.
Lemma countb_pos {A} (p : A -> bool) l x : x ∈ l -> p x = true -> 1 <= countb p l.
Proof.
  intros Hx Px. induction l as [|a l IH]; [by apply not_elem_of_nil in Hx|]. rewrite countb_cons.
  pose proof (countb_nonneg p l). apply elem_of_cons in Hx as [<-|Hx]; [rewrite Px; cbn; lia|].
  specialize (IH Hx). destruct (p a); cbn; lia.
Qed.
Lemma countb_unique {A} (p : A -> bool) l x y : countb p l <= 1 -> x ∈ l -> y ∈ l -> p x = true -> p y = true -> x = y.
Proof.
  intros Hc Hx Hy Px Py. induction l as [|a l IH]; [by apply not_elem_of_nil in Hx|]. rewrite countb_cons in Hc.
  pose proof (countb_nonneg p l). apply elem_of_cons in Hx as [->|Hx], Hy as [->|Hy]; [done|..].
  - pose proof (countb_pos p l y Hy Py). rewrite Px in Hc. cbn in Hc. lia.
  - pose proof (countb_pos p l x Hx Px). rewrite Py in Hc. cbn in Hc. lia.
  - apply IH; [|done..]. destruct (p a); cbn in Hc; lia.
Qed.
(** Elements that each carry a key no other element has. *)
Lemma NoDup_filter_count {A K} `{EqDecision K} (key : A -> K) (q : A -> bool) l :
  (forall x, x ∈ l -> q x = true -> countb (fun y => bool_decide (key y = key x)) l <= 1) ->
  NoDup (key <$> List.filter q l).
Proof.
  induction l as [|a l IH]; intros H; [constructor|]. cbn [List.filter].
  assert (IH' : NoDup (key <$> List.filter q l)).
  { apply IH. intros x Hx Qx. specialize (H x ltac:(by right) Qx). rewrite countb_cons in H.
    destruct (bool_decide _); cbn in H; lia. }
  destruct (q a) eqn:Qa; [|done]. cbn [fmap list_fmap]. constructor; [|done].
  intros (y & Hk & Hy)%list_elem_of_fmap. apply list_elem_of_In, filter_In in Hy as [Hy _].
  apply list_elem_of_In in Hy. specialize (H a ltac:(left) Qa). rewrite countb_cons, bool_decide_true in H by done.
  pose proof (countb_pos (fun y => bool_decide (key y = key a)) l y Hy (bool_decide_eq_true_2 _ (eq_sym Hk))).
  cbn in H. lia.
Qed.
Lemma countb_same_key {A K} (key : A -> K) (p : A -> bool) k l :
  NoDup (key <$> l) -> (forall x, x ∈ l -> p x = true -> key x = k) -> countb p l <= 1.
Proof.
  induction l as [|a l IH]; intros Hnd H; [done|]. cbn in Hnd. apply NoDup_cons in Hnd as [Ha Hnd].
  rewrite countb_cons. destruct (p a) eqn:Pa; cbn [Z.b2z].
  - assert (countb p l = 0); [|lia]. unfold countb. destruct (List.filter p l) as [|x r] eqn:F; [done|]. exfalso.
    assert (Hx : In x (List.filter p l)) by (rewrite F; by left). apply filter_In in Hx as [Hx Px].
    apply list_elem_of_In in Hx. apply Ha. rewrite (H a), <- (H x); [by apply list_elem_of_fmap_2|by right|done|left|done].
  - apply IH; [done|]. intros x Hx. apply H. by right.
Qed.
(** A loop of [m[key(x)]++]. *)
Definition tally {A K} `{Countable K} (key : A -> K) (l : list A) : gmap K Z :=
  foldl (fun m x => <[key x := default 0 (m !! key x) + 1]> m) ∅ l.
Lemma tally_lookup {A K} `{Countable K} (key : A -> K) l k :
  default 0 (tally key l !! k) = countb (fun x => bool_decide (key x = k)) l.
Proof.
  unfold tally. induction l as [|x l IH] using rev_ind; [cbn; by rewrite lookup_empty|].
  rewrite foldl_app, countb_snoc. cbn [foldl]. destruct (decide (key x = k)) as [<-|Hne].
  - rewrite lookup_insert_eq, bool_decide_true by done. cbn. by rewrite IH.
  - rewrite lookup_insert_ne, bool_decide_false by done. cbn. rewrite IH. lia.
Qed.
