(* ===== verification/GoStr.v ===== *)
(** * Go strings

    A Go string is a byte string ([string] of Stdlib: a list of 8-bit [ascii]).
    This file models the functions of the [strings] and [strconv] packages that
    the program calls, under their Go names.  [ToLower], [ToUpper] and [TrimSpace]
    are the byte-wise functions that Go uses for ASCII text; Go's Unicode case
    folding of bytes above 127 is not modelled (no name, MAC address or list
    format of the program contains such bytes). *)
From S2P Require Import Prelude.
From stdpp Require Export pretty.

#[global] Open Scope Z_scope.

Definition bytes (s : string) : list ascii := String.list_ascii_of_string s.
Definition str (l : list ascii) : string := String.string_of_list_ascii l.

Lemma bytes_str l : bytes (str l) = l.
Proof. apply String.list_ascii_of_string_of_list_ascii. Qed.
Lemma str_bytes s : str (bytes s) = s.
Proof. apply String.string_of_list_ascii_of_string. Qed.

#[export] Instance bytes_inj : Inj (=) (=) bytes.
Proof. intros x y H. by rewrite <- (str_bytes x), H, str_bytes. Qed.
#[export] Instance str_inj : Inj (=) (=) str.
Proof. intros x y H. by rewrite <- (bytes_str x), H, bytes_str. Qed.

Lemma bytes_app s1 s2 : bytes (s1 +:+ s2) = bytes s1 ++ bytes s2.
Proof. unfold bytes. induction s1 as [|c s1 IH]; [done|]. simpl. by rewrite <- IH. Qed.
Lemma str_app l1 l2 : str (l1 ++ l2) = str l1 +:+ str l2.
Proof. apply (inj bytes). by rewrite bytes_app, !bytes_str. Qed.
Lemma bytes_nil : bytes "" = [].
Proof. done. Qed.
Lemma bytes_empty s : bytes s = [] <-> s = "".
Proof. split; [|by intros ->]. intros H. apply (inj bytes). done. Qed.

Definition len (s : string) : Z := Z.of_nat (length (bytes s)).
Lemma len_app s1 s2 : len (s1 +:+ s2) = len s1 + len s2.
Proof. unfold len. rewrite bytes_app, length_app. lia. Qed.
Lemma len_nonneg s : 0 <= len s.
Proof. unfold len. lia. Qed.

(** ** Character classes *)
Definition code (c : ascii) : Z := Z.of_N (N_of_ascii c).
Definition chr (z : Z) : ascii := ascii_of_N (Z.to_N z).
Definition in_range (lo hi c : ascii) : bool := (code lo <=? code c) && (code c <=? code hi).

Definition is_digit (c : ascii) : bool := in_range "0" "9" c.
Definition is_lower (c : ascii) : bool := in_range "a" "z" c.
Definition is_upper (c : ascii) : bool := in_range "A" "Z" c.
(** The ASCII white space of [unicode.IsSpace]. *)
Definition is_space (c : ascii) : bool :=
  ((9 <=? code c) && (code c <=? 13)) || (code c =? 32).

Definition lower_char (c : ascii) : ascii := if is_upper c then chr (code c + 32) else c.
Definition upper_char (c : ascii) : ascii := if is_lower c then chr (code c - 32) else c.

Lemma lower_char_idemp c : lower_char (lower_char c) = lower_char c.
Proof. destruct c as [[][][][][][][][]]; reflexivity. Qed.
Lemma lower_char_not_upper c : is_upper (lower_char c) = false.
Proof. destruct c as [[][][][][][][][]]; reflexivity. Qed.
Lemma is_space_lower c : is_space (lower_char c) = is_space c.
Proof. destruct c as [[][][][][][][][]]; reflexivity. Qed.
Lemma lower_char_dot c : lower_char c = "."%char <-> c = "."%char.
Proof. destruct c as [[][][][][][][][]]; vm_compute; split; congruence. Qed.

(** ** strings.ToLower, ToUpper, TrimSpace *)
Definition ToLower (s : string) : string := str (lower_char <$> bytes s).
Definition ToUpper (s : string) : string := str (upper_char <$> bytes s).

Fixpoint drop_space (l : list ascii) : list ascii :=
  match l with
  | [] => []
  | c :: l' => if is_space c then drop_space l' else l
  end.
Definition trim_space (l : list ascii) : list ascii := rev (drop_space (rev (drop_space l))).
Definition TrimSpace (s : string) : string := str (trim_space (bytes s)).

Lemma bytes_ToLower s : bytes (ToLower s) = lower_char <$> bytes s.
Proof. apply bytes_str. Qed.
Lemma ToLower_app s1 s2 : ToLower (s1 +:+ s2) = ToLower s1 +:+ ToLower s2.
Proof. apply (inj bytes). by rewrite bytes_app, !bytes_ToLower, bytes_app, fmap_app. Qed.
Lemma ToLower_idemp s : ToLower (ToLower s) = ToLower s.
Proof.
  apply (inj bytes). rewrite !bytes_ToLower, <- list_fmap_compose.
  apply list_fmap_ext. intros i c _. apply lower_char_idemp.
Qed.
Lemma len_ToLower s : len (ToLower s) = len s.
Proof. unfold len. by rewrite bytes_ToLower, length_fmap. Qed.
Lemma ToLower_empty s : ToLower s = "" <-> s = "".
Proof.
  rewrite <- !bytes_empty, bytes_ToLower. split; [apply fmap_nil_inv | by intros ->].
Qed.

Lemma drop_space_head l : match drop_space l with c :: _ => is_space c = false | [] => True end.
Proof. induction l as [|c l IH]; simpl; [done|]. destruct (is_space c) eqn:E; done. Qed.
Lemma drop_space_id l :
  match l with c :: _ => is_space c = false | [] => True end -> drop_space l = l.
Proof. destruct l as [|c l]; simpl; [done|]. by intros ->. Qed.
Lemma drop_space_idemp l : drop_space (drop_space l) = drop_space l.
Proof. apply drop_space_id, drop_space_head. Qed.

(** What is left of a trimmed string has no space at either end. *)
Lemma drop_space_suffix l : exists p, l = p ++ drop_space l /\ Forall (fun c => is_space c = true) p.
Proof.
  induction l as [|c l (p & IH & Hp)]; simpl; [by exists []|].
  destruct (is_space c) eqn:E.
  - exists (c :: p). split; [simpl; by rewrite <- IH | by constructor].
  - by exists [].
Qed.

Lemma drop_space_rev_head l :
  match l with c :: _ => is_space c = false | [] => True end ->
  match rev (drop_space (rev l)) with c :: _ => is_space c = false | [] => True end.
Proof.
  intros Hl. destruct (drop_space_suffix (rev l)) as (p & Hp & _).
  apply (f_equal (@rev ascii)) in Hp. rewrite rev_involutive, rev_app_distr in Hp.
  destruct (rev (drop_space (rev l))) as [|c m]; [done|].
  by rewrite Hp in Hl.
Qed.

Lemma trim_space_idemp l : trim_space (trim_space l) = trim_space l.
Proof.
  unfold trim_space.
  rewrite (drop_space_id (rev (drop_space (rev (drop_space l)))))
    by (apply drop_space_rev_head, drop_space_head).
  by rewrite rev_involutive, drop_space_idemp.
Qed.
Lemma TrimSpace_idemp s : TrimSpace (TrimSpace s) = TrimSpace s.
Proof. unfold TrimSpace. by rewrite bytes_str, trim_space_idemp. Qed.

Lemma drop_space_lower l : drop_space (lower_char <$> l) = lower_char <$> drop_space l.
Proof.
  induction l as [|c l IH]; simpl; [done|]. rewrite is_space_lower.
  by destruct (is_space c).
Qed.
Lemma fmap_rev_lower l : lower_char <$> rev l = rev (lower_char <$> l).
Proof. apply map_rev. Qed.
Lemma trim_space_lower l : trim_space (lower_char <$> l) = lower_char <$> trim_space l.
Proof.
  unfold trim_space.
  by rewrite drop_space_lower, <- fmap_rev_lower, drop_space_lower, fmap_rev_lower.
Qed.
Lemma TrimSpace_ToLower s : TrimSpace (ToLower s) = ToLower (TrimSpace s).
Proof. apply (inj bytes). unfold TrimSpace, ToLower. by rewrite !bytes_str, trim_space_lower. Qed.

(** A string without white space is its own trim. *)
Definition no_space (s : string) : Prop := Forall (fun c => is_space c = false) (bytes s).
Lemma trim_space_no_space l : Forall (fun c => is_space c = false) l -> trim_space l = l.
Proof.
  intros H. unfold trim_space.
  rewrite (drop_space_id l) by (destruct H; done).
  rewrite drop_space_id; [apply rev_involutive|].
  apply Forall_rev in H. by destruct H.
Qed.
Lemma TrimSpace_no_space s : no_space s -> TrimSpace s = s.
Proof. intros H. unfold TrimSpace. by rewrite trim_space_no_space, str_bytes. Qed.

(** ** Prefixes and suffixes *)
Fixpoint prefixb (p l : list ascii) : bool :=
  match p, l with
  | [], _ => true
  | a :: p', b :: l' => bool_decide (a = b) && prefixb p' l'
  | _ :: _, [] => false
  end.

Definition HasPrefix (s p : string) : bool := prefixb (bytes p) (bytes s).
Definition HasSuffix (s x : string) : bool := prefixb (rev (bytes x)) (rev (bytes s)).
Definition TrimPrefix (s p : string) : string :=
  if HasPrefix s p then str (drop (length (bytes p)) (bytes s)) else s.
Definition TrimSuffix (s x : string) : string :=
  if HasSuffix s x then str (take (length (bytes s) - length (bytes x)) (bytes s)) else s.

Lemma prefixb_spec p l : prefixb p l = true <-> exists r, l = p ++ r.
Proof.
  revert l; induction p as [|a p IH]; intros l; simpl; [naive_solver|].
  destruct l as [|b l]; simpl; [naive_solver|].
  rewrite andb_true_iff, bool_decide_eq_true, IH. naive_solver.
Qed.

Lemma HasPrefix_spec s p : HasPrefix s p = true <-> exists r, s = p +:+ r.
Proof.
  unfold HasPrefix. rewrite prefixb_spec. split.
  - intros (r & H). exists (str r). apply (inj bytes). by rewrite bytes_app, bytes_str.
  - intros (r & ->). exists (bytes r). apply bytes_app.
Qed.

Lemma HasSuffix_spec s x : HasSuffix s x = true <-> exists r, s = r +:+ x.
Proof.
  unfold HasSuffix. rewrite prefixb_spec. split.
  - intros (r & H). exists (str (rev r)). apply (inj bytes).
    rewrite bytes_app, bytes_str.
    by rewrite <- (rev_involutive (bytes s)), H, rev_app_distr, rev_involutive.
  - intros (r & ->). exists (rev (bytes r)). by rewrite bytes_app, rev_app_distr.
Qed.

Lemma HasSuffix_app s x : HasSuffix (s +:+ x) x = true.
Proof. apply HasSuffix_spec. by exists s. Qed.

Lemma TrimSuffix_app s x : TrimSuffix (s +:+ x) x = s.
Proof.
  unfold TrimSuffix. rewrite HasSuffix_app. apply (inj bytes).
  rewrite bytes_str, bytes_app, length_app.
  replace (length (bytes s) + length (bytes x) - length (bytes x))%nat
    with (length (bytes s)) by lia.
  by rewrite take_app_length.
Qed.
Lemma TrimSuffix_no s x : HasSuffix s x = false -> TrimSuffix s x = s.
Proof. unfold TrimSuffix. by intros ->. Qed.

Lemma app_assoc_str s1 s2 s3 : (s1 +:+ s2) +:+ s3 = s1 +:+ (s2 +:+ s3).
Proof. apply (inj bytes). rewrite !bytes_app. by rewrite app_assoc. Qed.
Lemma app_inj_r_str s1 s2 x : s1 +:+ x = s2 +:+ x -> s1 = s2.
Proof.
  intros H. apply (f_equal bytes) in H. rewrite !bytes_app in H.
  apply (inj bytes). by apply app_inv_tail in H.
Qed.
Lemma app_nil_r_str s : s +:+ "" = s.
Proof. apply (inj bytes). by rewrite bytes_app, app_nil_r. Qed.

(** ** Searching *)
(** [strings.IndexByte(s, c)] as the text before and after the first [c]. *)
Fixpoint cut_byte (c : ascii) (l : list ascii) : option (list ascii * list ascii) :=
  match l with
  | [] => None
  | x :: l' => if bool_decide (x = c) then Some ([], l')
               else match cut_byte c l' with
                    | Some (a, b) => Some (x :: a, b)
                    | None => None
                    end
  end.

Lemma cut_byte_some c l a b :
  cut_byte c l = Some (a, b) <-> l = a ++ c :: b /\ c ∉ a.
Proof.
  revert a b; induction l as [|x l IH]; intros a b; simpl.
  - split; [done|]. intros [H _]. by destruct a.
  - case_bool_decide as E; subst.
    + split; [intros [= <- <-]; split; [done | by apply not_elem_of_nil]|].
      intros [H Ha]. destruct a as [|y a]; [by injection H as ->|].
      injection H as <- H. exfalso. apply Ha. by left.
    + destruct (cut_byte c l) as [[a' b']|].
      * split.
        -- intros [= <- <-]. destruct (proj1 (IH a' b') eq_refl) as [-> Hn].
           split; [done|]. rewrite not_elem_of_cons. naive_solver.
        -- intros [H Ha]. destruct a as [|y a]; [by injection H as -> _|].
           injection H as <- H. rewrite not_elem_of_cons in Ha.
           assert (Some (a', b') = Some (a, b)) as [= -> ->]; [|done].
           apply IH. naive_solver.
      * split; [done|]. intros [H Ha]. destruct a as [|y a]; [by injection H as -> _|].
        injection H as <- H. rewrite not_elem_of_cons in Ha.
        assert (None = Some (a, b)); [|done]. apply IH. naive_solver.
Qed.

Lemma cut_byte_none c l : cut_byte c l = None <-> c ∉ l.
Proof.
  induction l as [|x l IH]; simpl.
  - split; [intros _; apply not_elem_of_nil | done].
  - rewrite not_elem_of_cons. case_bool_decide; subst; [naive_solver|].
    destruct (cut_byte c l) as [[]|]; naive_solver.
Qed.

Definition contains_byte (s : string) (c : ascii) : bool :=
  existsb (fun x => bool_decide (x = c)) (bytes s).
(** [strings.ContainsAny(s, chars)]. *)
Definition ContainsAny (s chars : string) : bool :=
  existsb (fun x => existsb (fun c => bool_decide (x = c)) (bytes chars)) (bytes s).
(** [strings.Contains(s, sub)]. *)
Fixpoint containsb (sub l : list ascii) : bool :=
  prefixb sub l || match l with [] => false | _ :: l' => containsb sub l' end.
Definition Contains (s sub : string) : bool := containsb (bytes sub) (bytes s).

(** ** Splitting and joining *)
Fixpoint split_by (p : ascii -> bool) (l : list ascii) : list (list ascii) :=
  match l with
  | [] => [[]]
  | x :: l' =>
      if p x then [] :: split_by p l'
      else match split_by p l' with
           | h :: t => (x :: h) :: t
           | [] => [[x]]
           end
  end.
Definition is_byte (c x : ascii) : bool := bool_decide (x = c).

(** [strings.Split(s, sep)] for a one-byte separator. *)
Definition Split (s : string) (c : ascii) : list string := str <$> split_by (is_byte c) (bytes s).
(** [strings.Fields(s)]. *)
Definition Fields (s : string) : list string :=
  str <$> filter (fun f => f <> []) (split_by is_space (bytes s)).

(** [strings.Join(l, sep)]. *)
Fixpoint Join (l : list string) (sep : string) : string :=
  match l with
  | [] => ""
  | [s] => s
  | s :: l' => s +:+ sep +:+ Join l' sep
  end.

Lemma split_by_nonempty p l : split_by p l <> [].
Proof. destruct l as [|x l]; simpl; [done|]. destruct (p x); [done|]. by destruct (split_by p l). Qed.

Lemma split_by_none p l :
  Forall (fun c => p c = false) l -> split_by p l = [l].
Proof. induction 1 as [|x l Hx Hl IH]; simpl; [done|]. by rewrite Hx, IH. Qed.

Lemma split_by_app p l1 x l2 :
  p x = true -> split_by p (l1 ++ x :: l2) =
  split_by p l1 ++ split_by p l2.
Proof.
  intros Hx. induction l1 as [|y l1 IH]; simpl; [by rewrite Hx|].
  rewrite IH. destruct (p y); [done|].
  pose proof (split_by_nonempty p l1) as Hne.
  by destruct (split_by p l1).
Qed.

Lemma split_by_pieces p l f c : f ∈ split_by p l -> c ∈ f -> p c = false.
Proof.
  revert f; induction l as [|x l IH]; intros f; simpl.
  - intros ->%list_elem_of_singleton Hc. by apply not_elem_of_nil in Hc.
  - destruct (p x) eqn:Hx.
    + intros [->|Hf]%elem_of_cons Hc; [by apply not_elem_of_nil in Hc | by eapply IH].
    + destruct (split_by p l) as [|h t] eqn:E; [by apply split_by_nonempty in E|].
      intros [->|Hf]%elem_of_cons Hc; [|by eapply IH; [by right | done]].
      apply elem_of_cons in Hc as [->|Hc]; [done|]. eapply IH; [by left | done].
Qed.

(** Joining the pieces of a split with the separator gives the string back. *)
Lemma Join_Split s c : Join (Split s c) (str [c]) = s.
Proof.
  unfold Split. rewrite <- (str_bytes s) at 2. generalize (bytes s) as l. clear s.
  induction l as [|x l IH]; [done|].
  pose proof (split_by_nonempty (is_byte c) l) as Hne.
  cbn [split_by]. unfold is_byte at 1. case_bool_decide as Hx.
  - subst x. rewrite fmap_cons. destruct (split_by (is_byte c) l) as [|h t]; [done|].
    rewrite fmap_cons in *. cbn [Join] in *. rewrite IH.
    apply (inj bytes). by rewrite !bytes_app, !bytes_str.
  - destruct (split_by (is_byte c) l) as [|h t]; [done|].
    rewrite fmap_cons in *.
    replace (str (x :: l)) with (str [x] +:+ str l)
      by (apply (inj bytes); by rewrite bytes_app, !bytes_str).
    rewrite <- IH.
    replace (str (x :: h)) with (str [x] +:+ str h)
      by (apply (inj bytes); by rewrite bytes_app, !bytes_str).
    destruct t as [|h2 t]; cbn [Join fmap list_fmap]; [done|]. by rewrite app_assoc_str.
Qed.

(** Splitting a join of separator-free pieces gives the pieces back. *)
Lemma Split_Join l c :
  l <> [] -> (forall s, s ∈ l -> c ∉ bytes s) -> Split (Join l (str [c])) c = l.
Proof.
  intros Hne Hl.
  assert (Hone : forall s, c ∉ bytes s -> split_by (is_byte c) (bytes s) = [bytes s]).
  { intros s Hs. apply split_by_none, Forall_forall. intros x Hx. unfold is_byte.
    case_bool_decide; [subst; done | done]. }
  induction l as [|s l IH]; [done|]. unfold Split in *.
  destruct l as [|s2 l].
  - simpl. rewrite Hone by (apply Hl; by left). cbn. by rewrite str_bytes.
  - change (Join (s :: s2 :: l) (str [c])) with (s +:+ (str [c] +:+ Join (s2 :: l) (str [c]))).
    specialize (IH ltac:(done) ltac:(intros x Hx; apply Hl; by right)).
    generalize dependent (Join (s2 :: l) (str [c])). intros j IH.
    rewrite !bytes_app, bytes_str. change ([c] ++ bytes j) with (c :: bytes j).
    rewrite split_by_app by (unfold is_byte; by case_bool_decide).
    rewrite Hone by (apply Hl; by left). rewrite fmap_app, IH. simpl. by rewrite str_bytes.
Qed.

(** ** Numbers *)
Definition digit_val (c : ascii) : Z := code c - 48.

(** [strconv]'s base-10 digits, without a range check. *)
Fixpoint dec_digits (acc : Z) (l : list ascii) : option Z :=
  match l with
  | [] => Some acc
  | c :: l' => if is_digit c then dec_digits (acc * 10 + digit_val c) l' else None
  end.

(** [strconv.ParseInt(s, 10, 64)], and [strconv.Atoi] on a 64-bit platform: an
    optional sign, at least one digit, and a value that fits in an int64. *)
Definition ParseInt (s : string) : option Z :=
  let go neg l :=
    match l with
    | [] => None
    | _ => match dec_digits 0 l with
           | None => None
           | Some n => let v := if (neg : bool) then - n else n in
                       if (- 2 ^ 63 <=? v) && (v <? 2 ^ 63) then Some v else None
           end
    end in
  match bytes s with
  | "+"%char :: l => go false l
  | "-"%char :: l => go true l
  | l => go false l
  end.
Definition Atoi (s : string) : option Z := ParseInt s.

(** [fmt.Sprintf("%d", z)]. *)
Definition itoa (z : Z) : string := pretty z.

Definition hex_char (n : Z) : ascii :=
  if n <? 10 then chr (48 + n) else chr (87 + n).
Definition hex_val (c : ascii) : option Z :=
  if is_digit c then Some (code c - 48)
  else if in_range "a" "f" c then Some (code c - 87)
  else if in_range "A" "F" c then Some (code c - 55)
  else None.

(** [hex.EncodeToString]. *)
Fixpoint hex_encode (l : list Z) : list ascii :=
  match l with [] => [] | b :: l => hex_char (b / 16) :: hex_char (b mod 16) :: hex_encode l end.
Definition EncodeToString (l : list Z) : string := str (hex_encode l).

Lemma hex_val_range c n : hex_val c = Some n -> 0 <= n < 16.
Proof. destruct c as [[][][][][][][][]]; vm_compute; intros [= <-]; split; congruence. Qed.

(** ** DNS labels: letters, digits and interior hyphens, 1 to 63 octets *)
Definition label_char (c : ascii) : bool :=
  is_lower c || is_digit c || bool_decide (c = "-"%char).

Definition label_ok (s : string) : bool :=
  match bytes s with
  | [] => false
  | c :: l' =>
      let l := c :: l' in
      (length l <=? 63)%nat
      && negb (bool_decide (c = "-"%char))
      && negb (bool_decide (last l = Some "-"%char))
      && forallb label_char l
  end.

Lemma label_char_lower c : label_char c = true -> lower_char c = c.
Proof. destruct c as [[][][][][][][][]]; vm_compute; congruence. Qed.
Lemma label_char_no_space c : label_char c = true -> is_space c = false.
Proof. destruct c as [[][][][][][][][]]; vm_compute; congruence. Qed.
Lemma label_char_no_dot c : label_char c = true -> c <> "."%char.
Proof. by intros H ->. Qed.

Lemma containsb_single c l : containsb [c] l = true <-> c ∈ l.
Proof.
  induction l as [|x l IH]; simpl.
  - split; [done | by intros ?%not_elem_of_nil].
  - rewrite andb_true_r, elem_of_cons, orb_true_iff, IH. by rewrite bool_decide_eq_true.
Qed.

Lemma Split_two s c : c ∈ bytes s -> (2 <= length (Split s c))%nat.
Proof.
  intros (a & b & E)%list_elem_of_split. unfold Split. rewrite E, split_by_app.
  - rewrite length_fmap, length_app.
    pose proof (split_by_nonempty (is_byte c) a). pose proof (split_by_nonempty (is_byte c) b).
    destruct (split_by _ a), (split_by _ b); simpl; done || lia.
  - unfold is_byte. by rewrite bool_decide_eq_true_2.
Qed.

(** ** The byte order of [sort.Strings] and of SQLite's text columns *)
Definition str_le (a b : string) : Prop := String.leb a b = true.
#[export] Instance str_le_dec : RelDecision str_le.
Proof. intros a b. unfold str_le. apply _. Defined.
#[export] Instance str_le_trans : Transitive str_le.
Proof.
  intros a b c H1 H2. assert (H : (a ≤ b)%string) by (by apply Is_true_true).
  assert (H' : (b ≤ c)%string) by (by apply Is_true_true).
  apply Is_true_true. change (a ≤ c)%string. by etrans.
Qed.
#[export] Instance str_le_total : Total str_le.
Proof. intros a b. unfold str_le. destruct (String.leb_total a b); auto. Qed.
