(* ===== verification/NetIP.v ===== *)
(** * Network addresses

    The parts of Go's standard packages [net/netip] and [net] that the program
    relies on: addresses, prefixes, their parsers and printers, and the parser
    and printer of Ethernet addresses.  An IPv4 address is a 32-bit number and an
    IPv6 address a 128-bit number with a zone. *)
From S2P Require Import Prelude GoStr.

(** ** netip.Addr *)
Inductive Addr : Type :=
  | AddrZero                              (* the zero Addr: not a valid address *)
  | Addr4 (u : Z)
  | Addr6 (u : Z) (zone : string).

#[export] Instance Addr_eq_dec : EqDecision Addr.
Proof. solve_decision. Defined.

Definition Addr_enc (a : Addr) : option (Z + Z * string) :=
  match a with
  | AddrZero => None
  | Addr4 u => Some (inl u)
  | Addr6 u z => Some (inr (u, z))
  end.
Definition Addr_dec (x : option (Z + Z * string)) : Addr :=
  match x with
  | None => AddrZero
  | Some (inl u) => Addr4 u
  | Some (inr (u, z)) => Addr6 u z
  end.
#[export] Instance Addr_countable : Countable Addr.
Proof. apply (inj_countable' Addr_enc Addr_dec). by intros [| |]. Defined.

Definition addr_wf (a : Addr) : Prop :=
  match a with
  | AddrZero => True
  | Addr4 u => 0 <= u < 2 ^ 32
  | Addr6 u _ => 0 <= u < 2 ^ 128
  end.

Module Addr.
Definition IsValid (a : Addr) : bool := match a with AddrZero => false | _ => true end.
Definition Is4 (a : Addr) : bool := match a with Addr4 _ => true | _ => false end.
Definition Is6 (a : Addr) : bool := match a with Addr6 _ _ => true | _ => false end.
Definition Is4In6 (a : Addr) : bool :=
  match a with Addr6 u _ => Z.shiftr u 32 =? 65535 | _ => false end.
Definition BitLen (a : Addr) : Z :=
  match a with AddrZero => 0 | Addr4 _ => 32 | Addr6 _ _ => 128 end.
Definition value (a : Addr) : Z :=
  match a with AddrZero => 0 | Addr4 u => u | Addr6 u _ => u end.
Definition has_zone (a : Addr) : bool :=
  match a with Addr6 _ z => negb (bool_decide (z = "")) | _ => false end.
Definition Unmap (a : Addr) : Addr :=
  match a with
  | Addr6 u _ => if Z.shiftr u 32 =? 65535 then Addr4 (u mod 2 ^ 32) else a
  | _ => a
  end.
Definition WithZone (a : Addr) (zone : string) : Addr :=
  match a with Addr6 u _ => Addr6 u zone | _ => a end.
Definition IsUnspecified (a : Addr) : bool :=
  bool_decide (a = Addr4 0) || bool_decide (a = Addr6 0 "").
(** The address after [a]; the zero Addr after the last one. *)
Definition Next (a : Addr) : Addr :=
  match a with
  | AddrZero => AddrZero
  | Addr4 u => if u + 1 =? 2 ^ 32 then AddrZero else Addr4 (u + 1)
  | Addr6 u z => if u + 1 =? 2 ^ 128 then AddrZero else Addr6 (u + 1) z
  end.
(** [a.Less(b)] for two IPv4 addresses, the only use the program makes. *)
Definition Less4 (a b : Addr) : bool := value a <? value b.
End Addr.

(** ** Parsing

    [v4_fields] is netip's [parseIPv4Fields]: [start] says that the previous byte
    was a dot or that there was none, [val] and [digs] are the value and the
    number of digits of the current field, [pos] counts the finished fields. *)
Fixpoint v4_fields (start : bool) (val digs pos acc : Z) (l : list ascii) : option Z :=
  match l with
  | [] => if pos <? 3 then None else Some (acc * 256 + val)
  | c :: l' =>
      if is_digit c then
        if (digs =? 1) && (val =? 0) then None
        else let val' := val * 10 + digit_val c in
             if 255 <? val' then None
             else v4_fields false val' (digs + 1) pos acc l'
      else if bool_decide (c = "."%char) then
        if start || bool_decide (l' = []) then None
        else if pos =? 3 then None
        else v4_fields true 0 0 (pos + 1) (acc * 256 + val) l'
      else None
  end.
Definition parse_v4 (l : list ascii) : option Z := v4_fields true 0 0 0 0 l.

(** The hex digits of one IPv6 group: value, number of digits, rest. *)
Fixpoint hex_run (off : nat) (acc : Z) (l : list ascii) : option (Z * nat * list ascii) :=
  match l with
  | [] => Some (acc, off, [])
  | c :: l' =>
      match hex_val c with
      | None => Some (acc, off, l)
      | Some d =>
          let acc' := acc * 16 + d in
          if (3 <? off)%nat then None
          else if 65535 <? acc' then None
          else hex_run (S off) acc' l'
      end
  end.

(** The loop of netip's [parseIPv6]; [n] is the number of groups still missing,
    which is also its bound. *)
Fixpoint v6_loop (n : nat) (gs : list Z) (ell : option nat) (s : list ascii)
    : option (list Z * option nat * list ascii) :=
  match n with
  | O => Some (gs, ell, s)
  | S n' =>
      match hex_run 0 0 s with
      | None => None
      | Some (acc, off, rest) =>
          let gs' := gs ++ [acc] in
          if (off =? 0)%nat then None
          else match rest with
          | [] => Some (gs', ell, [])
          | "."%char :: _ =>
              if bool_decide (ell = None) && negb (length gs =? 6)%nat then None
              else if (8 <? length gs + 2)%nat then None
              else match parse_v4 s with
                   | None => None
                   | Some u => Some (gs ++ [Z.shiftr u 16; u mod 65536], ell, [])
                   end
          | ":"%char :: [] => None
          | ":"%char :: ":"%char :: s2 =>
              match ell with
              | Some _ => None
              | None => match s2 with
                        | [] => Some (gs', Some (length gs'), [])
                        | _ => v6_loop n' gs' (Some (length gs')) s2
                        end
              end
          | ":"%char :: s1 => v6_loop n' gs' ell s1
          | _ => None
          end
      end
  end.

Definition groups_value (gs : list Z) : Z := foldl (fun acc g => acc * 65536 + g) 0 gs.

Definition v6_finish (r : list Z * option nat * list ascii) : option Z :=
  let '(gs, ell, s) := r in
  match s with
  | _ :: _ => None
  | [] =>
      if (length gs <? 8)%nat then
        match ell with
        | None => None
        | Some e => Some (groups_value (take e gs ++ replicate (8 - length gs) 0 ++ drop e gs))
        end
      else match ell with Some _ => None | None => Some (groups_value gs) end
  end.

Definition parse_v6 (l : list ascii) : option Addr :=
  let go s zone :=
    match s with
    | [":"%char; ":"%char] => Some (Addr6 0 zone)
    | ":"%char :: ":"%char :: s' =>
        u ← v6_loop 8 [] (Some 0%nat) s' ≫= v6_finish; Some (Addr6 u zone)
    | _ => u ← v6_loop 8 [] None s ≫= v6_finish; Some (Addr6 u zone)
    end in
  match cut_byte "%" l with
  | None => go l ""
  | Some (_, []) => None
  | Some (s, z) => go s (str z)
  end.

(** [netip.ParseAddr]: the first of the three marks decides the family. *)
Fixpoint addr_family (l : list ascii) : option bool :=
  match l with
  | [] => None
  | c :: l' => if bool_decide (c = "."%char) then Some true
               else if bool_decide (c = ":"%char) then Some false
               else if bool_decide (c = "%"%char) then None
               else addr_family l'
  end.
Definition ParseAddr (s : string) : option Addr :=
  match addr_family (bytes s) with
  | None => None
  | Some true => u ← parse_v4 (bytes s); Some (Addr4 u)
  | Some false => parse_v6 (bytes s)
  end.

(** ** Printing *)
Definition octets (u : Z) : list Z :=
  [Z.shiftr u 24 mod 256; Z.shiftr u 16 mod 256; Z.shiftr u 8 mod 256; u mod 256].
Definition string4 (u : Z) : string := Join (itoa <$> octets u) ".".

Definition groups (u : Z) : list Z :=
  (fun i => Z.shiftr u (16 * (7 - i)) mod 65536) <$> [0; 1; 2; 3; 4; 5; 6; 7].
(** [appendHex]: no leading zeros, at least one digit. *)
Definition hex16 (g : Z) : string :=
  let ds := [g / 4096 mod 16; g / 256 mod 16; g / 16 mod 16; g mod 16] in
  let fix strip (l : list Z) := match l with
    | 0 :: l' => match l' with [] => l | _ => strip l' end
    | _ => l end in
  str (hex_char <$> strip ds).
Fixpoint zero_run (gs : list Z) : nat :=
  match gs with 0 :: gs' => S (zero_run gs') | _ => O end.
(** The first longest run of at least two zero groups: start and end. *)
Definition zero_span (gs : list Z) : option (nat * nat) :=
  foldl (fun best i =>
    let l := zero_run (drop i gs) in
    let cur := match best with Some (a, b) => (b - a)%nat | None => O end in
    if (2 <=? l)%nat && (cur <? l)%nat then Some (i, (i + l)%nat) else best)
    None (seq 0 8).
Definition string6 (u : Z) : string :=
  let gs := groups u in
  match zero_span gs with
  | None => Join (hex16 <$> gs) ":"
  | Some (a, b) => Join (hex16 <$> take a gs) ":" +:+ "::" +:+ Join (hex16 <$> drop b gs) ":"
  end.
Definition zone_suffix (z : string) : string := if bool_decide (z = "") then "" else "%" +:+ z.
Definition addr_string (a : Addr) : string :=
  match a with
  | AddrZero => "invalid IP"
  | Addr4 u => string4 u
  | Addr6 u z =>
      (if Addr.Is4In6 a then "::ffff:" +:+ string4 (u mod 2 ^ 32) else string6 u)
      +:+ zone_suffix z
  end.

(** ** netip.Prefix: [p_bits] is [-1] for an invalid prefix *)
Record Prefix : Type := mkPrefix { p_addr : Addr; p_bits : Z }.
#[export] Instance Prefix_eq_dec : EqDecision Prefix.
Proof. solve_decision. Defined.
#[export] Instance Prefix_countable : Countable Prefix.
Proof.
  apply (inj_countable' (fun p => (p_addr p, p_bits p)) (fun x => mkPrefix x.1 x.2)).
  by intros [].
Defined.

Module Pfx.
Definition zero : Prefix := mkPrefix AddrZero (-1).
Definition IsValid (p : Prefix) : bool := 0 <=? p_bits p.
(** [netip.PrefixFrom]: the zone is dropped and bad bits make it invalid. *)
Definition PrefixFrom (a : Addr) (bits : Z) : Prefix :=
  mkPrefix (Addr.WithZone a "")
    (if Addr.IsValid a && (0 <=? bits) && (bits <=? Addr.BitLen a) then bits else -1).
Definition mask (w bits u : Z) : Z := Z.shiftl (Z.shiftr u (w - bits)) (w - bits).
Definition Masked (p : Prefix) : Prefix :=
  if p_bits p <? 0 then zero else
  match p_addr p with
  | AddrZero => zero
  | Addr4 u => if 32 <? p_bits p then zero else mkPrefix (Addr4 (mask 32 (p_bits p) u)) (p_bits p)
  | Addr6 u _ => if 128 <? p_bits p then zero
                 else mkPrefix (Addr6 (mask 128 (p_bits p) u) "") (p_bits p)
  end.
(** An IPv4 address never matches an IPv6 prefix, an IPv4-mapped IPv6 address
    never matches an IPv4 prefix, and an address with a zone matches nothing. *)
Definition Contains (p : Prefix) (a : Addr) : bool :=
  IsValid p && negb (Addr.has_zone a) &&
  match p_addr p, a with
  | Addr4 n, Addr4 u => Z.shiftr (Z.lxor u n) (32 - p_bits p) =? 0
  | Addr6 n _, Addr6 u _ => Z.shiftr (Z.lxor u n) (128 - p_bits p) =? 0
  | _, _ => false
  end.
Definition to_string (p : Prefix) : string :=
  if IsValid p then addr_string (p_addr p) +:+ "/" +:+ itoa (p_bits p) else "invalid Prefix".
End Pfx.

Definition prefix_wf (p : Prefix) : Prop :=
  addr_wf (p_addr p) /\ Addr.has_zone (p_addr p) = false
  /\ Addr.IsValid (p_addr p) = true /\ 0 <= p_bits p <= Addr.BitLen (p_addr p).

(** [netip.ParsePrefix]: split at the last slash, no zone, no sign and no
    leading zero in the length. *)
Definition ParsePrefix (s : string) : option Prefix :=
  '(rb, ra) ← cut_byte "/" (rev (bytes s));
  a ← ParseAddr (str (rev ra));
  if Addr.has_zone a then None else
  let b := rev rb in
  match b with
  | c :: _ :: _ => if in_range "1" "9" c then Some () else None
  | _ => Some ()
  end ≫= fun _ =>
  bits ← Atoi (str b);
  if (bits <? 0) || (Addr.BitLen a <? bits) then None else Some (Pfx.PrefixFrom a bits).

(** ** Ethernet addresses: net.ParseMAC and net.HardwareAddr.String *)
Fixpoint mac_pairs (sep : ascii) (l : list ascii) : option (list Z) :=
  match l with
  | a :: b :: l' =>
      x ← hex_val a; y ← hex_val b;
      match l' with
      | [] => Some [x * 16 + y]
      | s :: l'' => if bool_decide (s = sep)
                    then t ← mac_pairs sep l''; Some (x * 16 + y :: t) else None
      end
  | _ => None
  end.
Fixpoint mac_quads (l : list ascii) : option (list Z) :=
  match l with
  | a :: b :: c :: d :: l' =>
      x ← hex_val a; y ← hex_val b; z ← hex_val c; w ← hex_val d;
      match l' with
      | [] => Some [x * 16 + y; z * 16 + w]
      | s :: l'' => if bool_decide (s = "."%char)
                    then t ← mac_quads l''; Some (x * 16 + y :: z * 16 + w :: t) else None
      end
  | _ => None
  end.
Definition mac_len_ok (n : nat) : bool := (n =? 6)%nat || (n =? 8)%nat || (n =? 20)%nat.

Definition parse_mac (l : list ascii) : option (list Z) :=
  let n := length l in
  if (n <? 14)%nat then None else
  match l !! 2%nat, l !! 4%nat with
  | Some s2, Some s4 =>
      if bool_decide (s2 = ":"%char) || bool_decide (s2 = "-"%char) then
        if ((n + 1) mod 3 =? 0)%nat && mac_len_ok ((n + 1) / 3) then mac_pairs s2 l else None
      else if bool_decide (s4 = "."%char) then
        if ((n + 1) mod 5 =? 0)%nat && mac_len_ok (2 * (n + 1) / 5) then mac_quads l else None
      else None
  | _, _ => None
  end.
Definition ParseMAC (s : string) : option (list Z) := parse_mac (bytes s).

Fixpoint mac_chars (hw : list Z) : list ascii :=
  match hw with
  | [] => []
  | [b] => [hex_char (b / 16); hex_char (b mod 16)]
  | b :: hw' => hex_char (b / 16) :: hex_char (b mod 16) :: ":"%char :: mac_chars hw'
  end.
Definition mac_string (hw : list Z) : string := str (mac_chars hw).

(** ** Lemmas: parsing gives well-formed addresses *)
Lemma digit_val_range c : is_digit c = true -> 0 <= digit_val c <= 9.
Proof. destruct c as [[][][][][][][][]]; vm_compute; try congruence; intros _; split; congruence. Qed.

Lemma v4_fields_bound l : forall start val digs pos acc u,
  0 <= val <= 255 -> 0 <= pos <= 3 -> 0 <= acc < 256 ^ pos ->
  v4_fields start val digs pos acc l = Some u -> 0 <= u < 2 ^ 32.
Proof.
  induction l as [|c l IH]; intros start val digs pos acc u Hval Hpos Hacc; simpl.
  - destruct (pos <? 3) eqn:E; [done|]. intros [= <-]. bool_to_prop.
    assert (pos = 3) as -> by lia. change (256 ^ 3) with 16777216 in Hacc. lia.
  - destruct (is_digit c) eqn:Ed.
    + destruct (_ && _); [done|]. destruct (255 <? _) eqn:E; [done|]. bool_to_prop.
      pose proof (digit_val_range c Ed). apply IH; lia.
    + case_bool_decide; [|done]. destruct (_ || _); [done|].
      destruct (pos =? 3) eqn:E; [done|]. bool_to_prop.
      apply IH; [lia|lia|]. rewrite Z.pow_add_r by lia. lia.
Qed.

Lemma parse_v4_wf l u : parse_v4 l = Some u -> 0 <= u < 2 ^ 32.
Proof. apply v4_fields_bound; lia. Qed.

Definition groups_ok (gs : list Z) : Prop := Forall (fun g => 0 <= g < 65536) gs.

Lemma groups_value_bound gs acc :
  groups_ok gs -> 0 <= acc ->
  0 <= foldl (fun a g => a * 65536 + g) acc gs < (acc + 1) * 65536 ^ Z.of_nat (length gs).
Proof.
  intros H; revert acc; induction H as [|g gs Hg Hgs IH]; intros acc Hacc; simpl.
  - change (65536 ^ 0) with 1. lia.
  - specialize (IH (acc * 65536 + g) ltac:(lia)).
    replace (Z.of_nat (S (length gs))) with (Z.of_nat (length gs) + 1) by lia.
    rewrite Z.pow_add_r by lia. change (65536 ^ 1) with 65536.
    assert (0 < 65536 ^ Z.of_nat (length gs)) by (apply Z.pow_pos_nonneg; lia).
    split; [lia|]. eapply Z.lt_le_trans; [apply IH|]. nia.
Qed.

Lemma hex_run_bound l : forall off acc v n r,
  0 <= acc < 65536 -> hex_run off acc l = Some (v, n, r) -> 0 <= v < 65536.
Proof.
  induction l as [|c l IH]; intros off acc v n r Hacc; cbn [hex_run]; [by intros [= <- <- <-]|].
  destruct (hex_val c) as [d|] eqn:Ed; [|by intros [= <- <- <-]].
  pose proof (hex_val_range c d Ed).
  destruct (_ <? off)%nat; [done|]. destruct (65535 <? _) eqn:E; [done|]. bool_to_prop.
  apply IH. lia.
Qed.

Lemma v6_loop_inv n : forall gs ell s gs' ell' s',
  groups_ok gs -> (length gs + n = 8)%nat ->
  v6_loop n gs ell s = Some (gs', ell', s') -> groups_ok gs' /\ (length gs' <= 8)%nat.
Proof.
  induction n as [|n IH]; intros gs ell s gs' ell' s' Hgs Hlen; cbn [v6_loop].
  - intros [= <- <- <-]. split; [done | lia].
  - destruct (hex_run 0 0 s) as [[[acc off] rest]|] eqn:Er; [|done].
    apply hex_run_bound in Er; [|lia].
    assert (Hgs1 : groups_ok (gs ++ [acc])).
    { apply Forall_app; split; [done|]. by apply Forall_singleton. }
    assert (Hl1 : length (gs ++ [acc]) = S (length gs)) by (rewrite length_app; simpl; lia).
    destruct (off =? 0)%nat; [done|].
    destruct rest as [|c rest]; [intros [= <- <- <-]; split; [done|lia]|].
    assert (Hv4 : forall o, (if bool_decide (ell = None) && negb (length gs =? 6)%nat then None
        else if (8 <? length gs + 2)%nat then None
        else match parse_v4 s with None => None
             | Some u => Some (gs ++ [Z.shiftr u 16; u mod 65536], ell, o) end)
        = Some (gs', ell', s') -> groups_ok gs' /\ (length gs' <= 8)%nat).
    { intros o. destruct (_ && _); [done|]. destruct (8 <? _)%nat eqn:E8; [done|].
      destruct (parse_v4 s) as [u|] eqn:Eu; [|done]. intros [= <- <- <-].
      apply parse_v4_wf in Eu. apply Nat.ltb_ge in E8. rewrite length_app; simpl.
      split; [|lia]. apply Forall_app; split; [done|].
      repeat constructor; try (apply Z.mod_pos_bound; lia).
      - rewrite Z.shiftr_div_pow2 by lia. apply Z.div_pos; lia.
      - rewrite Z.shiftr_div_pow2 by lia. apply Z.div_lt_upper_bound; lia. }
    assert (Hrec : forall e s1, v6_loop n (gs ++ [acc]) e s1 = Some (gs', ell', s') ->
        groups_ok gs' /\ (length gs' <= 8)%nat).
    { intros e s1. apply IH; [done | lia]. }
    clear IH.
    destruct c as [[][][][][][][][]]; try done; [by apply Hv4|].
    destruct rest as [|c2 rest]; [done|].
    destruct c2 as [[][][][][][][][]]; try (apply Hrec).
    destruct ell; [done|]. destruct rest; [intros [= <- <- <-]; split; [done|lia] | apply Hrec].
Qed.

Lemma v6_finish_bound gs ell s u :
  groups_ok gs -> (length gs <= 8)%nat -> v6_finish (gs, ell, s) = Some u -> 0 <= u < 2 ^ 128.
Proof.
  intros Hgs Hl. unfold v6_finish. destruct s; [|done].
  assert (Hb : forall l, groups_ok l -> length l = 8%nat -> 0 <= groups_value l < 2 ^ 128).
  { intros l Hok H8. pose proof (groups_value_bound l 0 Hok ltac:(lia)) as H.
    unfold groups_value. rewrite H8 in H. exact H. }
  destruct (length gs <? 8)%nat eqn:E8.
  - apply Nat.ltb_lt in E8. destruct ell as [e|]; [|done]. intros [= <-].
    apply Hb.
    + repeat apply Forall_app_2; [by apply Forall_take | by apply Forall_replicate; lia | by apply Forall_drop].
    + rewrite !length_app, length_replicate, length_take, length_drop. lia.
  - apply Nat.ltb_ge in E8. destruct ell; [done|]. intros [= <-]. apply Hb; [done|lia].
Qed.

Lemma parse_v6_wf l a : parse_v6 l = Some a -> addr_wf a /\ Addr.Is6 a = true.
Proof.
  assert (Hgo : forall e s zone,
    (u ← v6_loop 8 [] e s ≫= v6_finish; Some (Addr6 u zone)) = Some a ->
    addr_wf a /\ Addr.Is6 a = true).
  { intros e s zone (u & Hu & [= <-])%bind_Some. split; [|done].
    apply bind_Some in Hu as ([[gs el] r] & E & Eu).
    apply v6_loop_inv in E as [? ?]; [|constructor|done]. eapply v6_finish_bound; eauto. }
  unfold parse_v6.
  assert (Hs : forall s zone, match s with
    | [":"%char; ":"%char] => Some (Addr6 0 zone)
    | ":"%char :: ":"%char :: s' =>
        u ← v6_loop 8 [] (Some 0%nat) s' ≫= v6_finish; Some (Addr6 u zone)
    | _ => u ← v6_loop 8 [] None s ≫= v6_finish; Some (Addr6 u zone)
    end = Some a -> addr_wf a /\ Addr.Is6 a = true).
  { intros s zone. destruct s as [|c1 s]; [apply Hgo|].
    destruct c1 as [[][][][][][][][]]; try apply Hgo.
    destruct s as [|c2 s]; [apply Hgo|].
    destruct c2 as [[][][][][][][][]]; try apply Hgo.
    destruct s; [intros [= <-]; split; [vm_compute; split; congruence | done] | apply Hgo]. }
  destruct (cut_byte "%" l) as [[s [|]]|]; [done | apply Hs | apply Hs].
Qed.

Lemma ParseAddr_wf s a : ParseAddr s = Some a -> addr_wf a /\ Addr.IsValid a = true.
Proof.
  unfold ParseAddr. destruct (addr_family (bytes s)) as [[]|]; [|intros H|done].
  - destruct (parse_v4 (bytes s)) as [u|] eqn:E; [|done]. intros [= <-].
    split; [by eapply parse_v4_wf | done].
  - apply parse_v6_wf in H as [H1 H2]. split; [done|]. by destruct a.
Qed.

(** ** Lemmas: prefixes *)
Lemma lxor_shiftr_eq0 u n k : (Z.shiftr (Z.lxor u n) k =? 0) = true <-> Z.shiftr u k = Z.shiftr n k.
Proof. rewrite Z.eqb_eq, Z.shiftr_lxor. apply Z.lxor_eq_0_iff. Qed.

Lemma shiftr_mask w bits u :
  bits <= w -> Z.shiftr (Pfx.mask w bits u) (w - bits) = Z.shiftr u (w - bits).
Proof.
  intros H. unfold Pfx.mask. rewrite Z.shiftr_shiftl_l by lia.
  by rewrite Z.sub_diag, Z.shiftl_0_r.
Qed.

(** Containment as the code's readers think of it: the address has no zone and
    agrees with the prefix on its first [p_bits] bits, in the same family. *)
Lemma Contains_spec p a :
  Pfx.Contains p a = true <->
  0 <= p_bits p /\ Addr.has_zone a = false /\
  ((exists n u, p_addr p = Addr4 n /\ a = Addr4 u
      /\ Z.shiftr u (32 - p_bits p) = Z.shiftr n (32 - p_bits p))
   \/ (exists n z u z', p_addr p = Addr6 n z /\ a = Addr6 u z'
      /\ Z.shiftr u (128 - p_bits p) = Z.shiftr n (128 - p_bits p))).
Proof.
  unfold Pfx.Contains, Pfx.IsValid. rewrite !andb_true_iff, Z.leb_le, negb_true_iff.
  split.
  - intros ((Hb & Hz) & H). split; [done|]. split; [done|].
    destruct (p_addr p) as [|n|n z], a as [|u|u z']; try done;
      apply lxor_shiftr_eq0 in H; naive_solver.
  - intros (Hb & Hz & [(n & u & -> & -> & H)|(n & z & u & z' & -> & -> & H)]);
      (split; [done|]); by apply lxor_shiftr_eq0.
Qed.

Lemma Masked_wf p : prefix_wf p ->
  Pfx.Masked p = mkPrefix (match p_addr p with
    | AddrZero => AddrZero
    | Addr4 u => Addr4 (Pfx.mask 32 (p_bits p) u)
    | Addr6 u _ => Addr6 (Pfx.mask 128 (p_bits p) u) "" end) (p_bits p).
Proof.
  intros (Hw & Hz & Hv & Hb). unfold Pfx.Masked.
  replace (p_bits p <? 0) with false by (symmetry; apply Z.ltb_ge; lia).
  destruct (p_addr p) as [|u|u z]; [done| |]; simpl in Hb.
  - by replace (32 <? p_bits p) with false by (symmetry; apply Z.ltb_ge; lia).
  - by replace (128 <? p_bits p) with false by (symmetry; apply Z.ltb_ge; lia).
Qed.

Lemma Masked_bits p : prefix_wf p -> p_bits (Pfx.Masked p) = p_bits p.
Proof. intros H. by rewrite Masked_wf. Qed.

Lemma mask_bound w bits u : 0 <= bits <= w -> 0 <= u < 2 ^ w -> 0 <= Pfx.mask w bits u < 2 ^ w.
Proof.
  intros Hb Hu. unfold Pfx.mask. rewrite Z.shiftl_mul_pow2, Z.shiftr_div_pow2 by lia.
  pose proof (Z.mul_div_le u (2 ^ (w - bits)) ltac:(apply Z.pow_pos_nonneg; lia)).
  assert (0 <= u / 2 ^ (w - bits)) by (apply Z.div_pos; [lia|apply Z.pow_pos_nonneg; lia]).
  assert (0 < 2 ^ (w - bits)) by (apply Z.pow_pos_nonneg; lia). nia.
Qed.

Lemma Masked_prefix_wf p : prefix_wf p -> prefix_wf (Pfx.Masked p).
Proof.
  intros H. rewrite Masked_wf by done. destruct H as (Hw & Hz & Hv & Hb).
  unfold prefix_wf; destruct (p_addr p) as [|u|u z]; [done| |]; simpl in *;
    (split; [apply mask_bound; lia | split; [done | split; [done | lia]]]).
Qed.

Lemma mask_idemp w bits u : bits <= w -> Pfx.mask w bits (Pfx.mask w bits u) = Pfx.mask w bits u.
Proof. intros H. unfold Pfx.mask at 1. by rewrite shiftr_mask. Qed.

Lemma Masked_idemp p : prefix_wf p -> Pfx.Masked (Pfx.Masked p) = Pfx.Masked p.
Proof.
  intros H. rewrite (Masked_wf (Pfx.Masked p)) by (by apply Masked_prefix_wf).
  rewrite !(Masked_wf p) by done. destruct H as (Hw & Hz & Hv & Hb).
  destruct (p_addr p) as [|u|u z]; [done| |]; simpl in *; by rewrite mask_idemp by lia.
Qed.

(** Masking changes the written form of a prefix, never what it matches. *)
Lemma Contains_Masked p a : prefix_wf p -> Pfx.Contains (Pfx.Masked p) a = Pfx.Contains p a.
Proof.
  intros H. rewrite Masked_wf by done. destruct H as (Hw & Hz & Hv & Hb).
  unfold Pfx.Contains, Pfx.IsValid; simpl.
  destruct (p_addr p) as [|n|n z], a as [|u|u z']; simpl in *; try done; f_equal;
    apply eq_true_iff_eq; rewrite !lxor_shiftr_eq0, shiftr_mask by lia; done.
Qed.

(** Two masked prefixes of one length that share an address are the same. *)
Lemma Masked_unique p q a :
  prefix_wf p -> prefix_wf q -> Pfx.Masked p = p -> Pfx.Masked q = q -> p_bits p = p_bits q ->
  Pfx.Contains p a = true -> Pfx.Contains q a = true -> p = q.
Proof.
  intros Hp Hq Mp Mq Hb Cp Cq. rewrite Masked_wf in Mp, Mq by done.
  apply Contains_spec in Cp as (_ & _ & Cp). apply Contains_spec in Cq as (_ & _ & Cq).
  destruct p as [pa pb], q as [qa qb]; simpl in *; subst qb. f_equal.
  injection Mp as Mp. injection Mq as Mq.
  destruct Cp as [(n & u & -> & -> & E)|(n & z & u & z' & -> & -> & E)];
  destruct Cq as [(n' & u' & -> & E1 & E')|(n' & w & u' & w' & -> & E1 & E')]; try done;
    injection E1 as -> ; simpl in *; injection Mp as Mp; injection Mq as Mq; subst;
    try subst z; try subst w; f_equal; rewrite <- Mp, <- Mq; unfold Pfx.mask; by rewrite <- E, <- E'.
Qed.

Lemma ParsePrefix_wf s p : ParsePrefix s = Some p -> prefix_wf p.
Proof.
  unfold ParsePrefix. intros ([rb ra] & _ & H)%bind_Some.
  apply bind_Some in H as (a & Ha & H). apply ParseAddr_wf in Ha as [Hw Hv].
  destruct (Addr.has_zone a) eqn:Hz; [done|].
  apply bind_Some in H as (_ & _ & H). apply bind_Some in H as (bits & _ & H).
  destruct (_ || _) eqn:E; [done|]. injection H as <-. bool_to_prop.
  unfold Pfx.PrefixFrom. rewrite Hv. simpl.
  replace ((0 <=? bits) && (bits <=? Addr.BitLen a)) with true
    by (symmetry; apply andb_true_iff; rewrite !Z.leb_le; lia).
  unfold prefix_wf; simpl. destruct a as [|u|u z]; simpl in *; try done; repeat split; try lia.
Qed.

(** ** Lemmas: an IPv4 address prints and parses back *)
Fixpoint feed (val digs : Z) (ds : list ascii) : option (Z * Z) :=
  match ds with
  | [] => Some (val, digs)
  | c :: ds' =>
      if is_digit c then
        if (digs =? 1) && (val =? 0) then None
        else let val' := val * 10 + digit_val c in
             if 255 <? val' then None else feed val' (digs + 1) ds'
      else None
  end.

Lemma v4_fields_feed ds : forall start val digs pos acc rest v d,
  feed val digs ds = Some (v, d) ->
  v4_fields start val digs pos acc (ds ++ rest)
  = v4_fields (match ds with [] => start | _ => false end) v d pos acc rest.
Proof.
  induction ds as [|c ds IH]; intros start val digs pos acc rest v d H; simpl in *.
  - by injection H as -> ->.
  - destruct (is_digit c); [|done]. destruct (_ && _); [done|]. destruct (255 <? _); [done|].
    erewrite IH by done. by destruct ds.
Qed.

Definition octet_ok (n : Z) : bool :=
  bool_decide (feed 0 0 (bytes (itoa n)) = Some (n, Z.of_nat (length (bytes (itoa n)))))
  && negb (bool_decide (bytes (itoa n) = [])) && forallb is_digit (bytes (itoa n)).

Lemma octets_ok : forallb octet_ok (seqZ 0 256) = true.
Proof. vm_compute. reflexivity. Qed.

Lemma octet_feed n : 0 <= n < 256 ->
  exists d, feed 0 0 (bytes (itoa n)) = Some (n, d) /\ bytes (itoa n) <> []
    /\ Forall (fun c => is_digit c = true) (bytes (itoa n)).
Proof.
  intros Hn. pose proof octets_ok as H. rewrite forallb_forall in H.
  assert (octet_ok n = true) as Hok.
  { apply H, list_elem_of_In, elem_of_seqZ. lia. }
  unfold octet_ok in Hok. bool_to_prop. eexists. repeat split; [done|done|].
  apply Forall_forall. intros x Hx. rewrite forallb_forall in *.
  match goal with H : forall x, _ -> is_digit x = true |- _ => apply H end. by apply list_elem_of_In.
Qed.

Lemma v4_octet n rest pos acc :
  0 <= n < 256 -> pos < 3 -> rest <> [] ->
  v4_fields true 0 0 pos acc (bytes (itoa n) ++ "."%char :: rest)
  = v4_fields true 0 0 (pos + 1) (acc * 256 + n) rest.
Proof.
  intros Hn Hpos Hrest. destruct (octet_feed n Hn) as (d & Hf & Hne & _).
  erewrite v4_fields_feed by done. destruct (bytes (itoa n)) as [|c l]; [done|].
  simpl. replace (pos =? 3) with false by (symmetry; apply Z.eqb_neq; lia).
  by destruct rest.
Qed.

Lemma v4_octet_last n acc :
  0 <= n < 256 -> v4_fields true 0 0 3 acc (bytes (itoa n)) = Some (acc * 256 + n).
Proof.
  intros Hn. destruct (octet_feed n Hn) as (d & Hf & Hne & _).
  rewrite <- (app_nil_r (bytes (itoa n))). erewrite v4_fields_feed by done. done.
Qed.

Lemma octets_value u : 0 <= u < 2 ^ 32 ->
  exists a b c d, octets u = [a; b; c; d]
    /\ 0 <= a < 256 /\ 0 <= b < 256 /\ 0 <= c < 256 /\ 0 <= d < 256
    /\ ((a * 256 + b) * 256 + c) * 256 + d = u.
Proof.
  intros Hu. unfold octets. do 4 eexists. split; [reflexivity|].
  rewrite !Z.shiftr_div_pow2 by lia.
  change (2 ^ 24) with 16777216; change (2 ^ 16) with 65536; change (2 ^ 8) with 256.
  change (2 ^ 32) with 4294967296 in Hu.
  repeat split; try (apply Z.mod_pos_bound; lia).
  Z.div_mod_to_equations. lia.
Qed.

Lemma bytes_itoa_digit n c : 0 <= n < 256 -> c ∈ bytes (itoa n) -> is_digit c = true.
Proof.
  intros Hn Hc. destruct (octet_feed n Hn) as (_ & _ & _ & H).
  rewrite Forall_forall in H. by apply H.
Qed.

Lemma addr_family_digits l rest :
  Forall (fun c => is_digit c = true) l -> addr_family (l ++ "."%char :: rest) = Some true.
Proof.
  induction 1 as [|c l Hc Hl IH]; simpl; [done|].
  destruct c as [[][][][][][][][]]; try discriminate Hc; apply IH.
Qed.

Theorem ParseAddr_string4 u : 0 <= u < 2 ^ 32 -> ParseAddr (string4 u) = Some (Addr4 u).
Proof.
  intros Hu. destruct (octets_value u Hu) as (a & b & c & d & Ho & Ha & Hb & Hc & Hd & Hval).
  unfold ParseAddr, string4. rewrite Ho. simpl. rewrite !bytes_app.
  change (bytes ".") with ["."%char].
  assert (Hne : forall n, 0 <= n < 256 -> forall r, bytes (itoa n) ++ r <> []).
  { intros n Hn r E. destruct (octet_feed n Hn) as (_ & _ & H & _). by apply app_nil in E as [? _]. }
  destruct (octet_feed a Ha) as (_ & _ & _ & Hdig).
  simpl app. rewrite addr_family_digits by done.
  unfold parse_v4.
  rewrite v4_octet; [|done|lia|by apply Hne].
  rewrite v4_octet; [|done|lia|by apply Hne].
  rewrite v4_octet; [|done|lia|rewrite <- (app_nil_r (bytes (itoa d))); by apply Hne].
  change (0 + 1 + 1 + 1) with 3. rewrite v4_octet_last by done. simpl.
  do 2 f_equal. lia.
Qed.

(** ** Lemmas: an Ethernet address prints and parses back *)
Lemma hex_val_char n : 0 <= n < 16 -> hex_val (hex_char n) = Some n.
Proof.
  intros Hn. assert (forallb (fun n => bool_decide (hex_val (hex_char n) = Some n)) (seqZ 0 16) = true)
    as H by reflexivity.
  rewrite forallb_forall in H. specialize (H n). rewrite bool_decide_eq_true in H.
  apply H, list_elem_of_In, elem_of_seqZ. lia.
Qed.

Definition mac_ok (hw : list Z) : Prop := Forall (fun b => 0 <= b < 256) hw.

Lemma mac_pairs_chars hw : mac_ok hw -> hw <> [] -> mac_pairs ":" (mac_chars hw) = Some hw.
Proof.
  induction 1 as [|b hw Hb Hhw IH]; intros Hne; [done|].
  assert (0 <= b / 16 < 16 /\ 0 <= b mod 16 < 16 /\ b / 16 * 16 + b mod 16 = b) as (H1 & H2 & H3)
    by (Z.div_mod_to_equations; lia).
  destruct hw as [|b2 hw].
  - cbn [mac_chars mac_pairs]. rewrite !hex_val_char by done. simpl. by rewrite H3.
  - change (mac_chars (b :: b2 :: hw)) with
      (hex_char (b / 16) :: hex_char (b mod 16) :: ":"%char :: mac_chars (b2 :: hw)).
    specialize (IH ltac:(done)). generalize dependent (mac_chars (b2 :: hw)). intros l IH.
    cbn [mac_pairs]. rewrite !hex_val_char by done. simpl. rewrite IH. simpl. by rewrite H3.
Qed.

Lemma length_mac_chars hw : hw <> [] -> length (mac_chars hw) = (3 * length hw - 1)%nat.
Proof.
  induction hw as [|b [|b2 hw] IH]; [done|done|]. intros _. simpl in *. rewrite IH by done. lia.
Qed.

Theorem ParseMAC_string hw : mac_ok hw -> length hw = 6%nat -> ParseMAC (mac_string hw) = Some hw.
Proof.
  intros Hok Hlen. unfold ParseMAC, mac_string, parse_mac. rewrite bytes_str.
  assert (Hne : hw <> []) by (by intros ->).
  rewrite length_mac_chars, Hlen by done. simpl.
  rewrite <- (mac_pairs_chars hw) by done.
  by destruct hw as [|b0 [|b1 [|b2 [|b3 [|b4 [|b5 [|b6 hw]]]]]]].
Qed.

Lemma hex_val_lower c : hex_val (lower_char c) = hex_val c.
Proof. destruct c as [[][][][][][][][]]; reflexivity. Qed.

Lemma mac_pairs_lower sep l :
  lower_char sep = sep -> (forall c, lower_char c = sep <-> c = sep) ->
  mac_pairs sep (lower_char <$> l) = mac_pairs sep l.
Proof.
  intros Hs Hc. induction l as [l IH] using (induction_ltof1 _ (@length ascii)); unfold ltof in IH.
  destruct l as [|a [|b l]]; [done|done|]. cbn [mac_pairs fmap list_fmap].
  rewrite !hex_val_lower. destruct (hex_val a); [|done]. destruct (hex_val b); [|done]. simpl.
  destruct l as [|s l]; [done|]. cbn [fmap list_fmap].
  rewrite IH by (simpl; lia).
  destruct (decide (s = sep)) as [->|Hn].
  - by rewrite Hs.
  - rewrite !bool_decide_eq_false_2; [done|done|by rewrite Hc].
Qed.

Lemma mac_quads_lower l : mac_quads (lower_char <$> l) = mac_quads l.
Proof.
  induction l as [l IH] using (induction_ltof1 _ (@length ascii)); unfold ltof in IH.
  destruct l as [|a [|b [|c [|d l]]]]; try done. cbn [mac_quads fmap list_fmap].
  rewrite !hex_val_lower.
  destruct (hex_val a); [|done]. destruct (hex_val b); [|done].
  destruct (hex_val c); [|done]. destruct (hex_val d); [|done]. simpl.
  destruct l as [|s l]; [done|]. cbn [fmap list_fmap]. rewrite IH by (simpl; lia).
  destruct (decide (s = "."%char)) as [->|Hn]; [done|].
  rewrite !bool_decide_eq_false_2; [done|done|by rewrite lower_char_dot].
Qed.

Lemma lower_char_colon c : lower_char c = ":"%char <-> c = ":"%char.
Proof. destruct c as [[][][][][][][][]]; vm_compute; split; congruence. Qed.
Lemma lower_char_dash c : lower_char c = "-"%char <-> c = "-"%char.
Proof. destruct c as [[][][][][][][][]]; vm_compute; split; congruence. Qed.

Lemma bool_decide_lower c x (Hx : forall c, lower_char c = x <-> c = x) :
  bool_decide (lower_char c = x) = bool_decide (c = x).
Proof. apply bool_decide_ext, Hx. Qed.

Lemma ParseMAC_lower s : ParseMAC (ToLower s) = ParseMAC s.
Proof.
  unfold ParseMAC, parse_mac. rewrite bytes_ToLower, length_fmap, !list_lookup_fmap.
  destruct (_ <? 14)%nat; [done|].
  destruct (bytes s !! 2%nat) as [s2|]; [|done]. destruct (bytes s !! 4%nat) as [s4|]; [|done].
  simpl. rewrite (bool_decide_lower s2 ":" lower_char_colon),
    (bool_decide_lower s2 "-" lower_char_dash), (bool_decide_lower s4 "." lower_char_dot).
  rewrite mac_quads_lower.
  destruct (bool_decide (s2 = ":"%char)) eqn:E1; simpl.
  - bool_to_prop; subst. change (lower_char ":") with ":"%char.
    by rewrite mac_pairs_lower by (done || apply lower_char_colon).
  - destruct (bool_decide (s2 = "-"%char)) eqn:E2; simpl; [|done].
    bool_to_prop; subst. change (lower_char "-") with "-"%char.
    by rewrite mac_pairs_lower by (done || apply lower_char_dash).
Qed.
