(* ===== verification/NetIPPrint.v ===== *)
(** * Addresses and prefixes print and parse back

    The text form of [net/netip] is canonical: parsing what [String] prints gives
    the address or the prefix back, with the longest run of zero groups of an IPv6
    address compressed and an IPv4-mapped address printed in dotted form.  The
    normal forms the program stores rest on this. *)
From S2P Require Import Prelude GoStr NetIP.

(** ** Hex digits *)
Lemma hex_run_app l : forall off acc v k x rest,
  hex_run off acc l = Some (v, k, []) -> hex_val x = None -> hex_run off acc (l ++ x :: rest) = Some (v, k, x :: rest).
Proof.
  induction l as [|c l IH]; intros off acc v k x rest; cbn [hex_run app].
  - intros [= <- <-] ->. done.
  - destruct (hex_val c); [|by intros [=]]. destruct (3 <? off)%nat; [done|]. destruct (65535 <? _); [done|]. apply IH.
Qed.
Definition hex_plain (c : ascii) : Prop := c <> ":"%char /\ c <> "%"%char /\ c <> "."%char /\ c <> "/"%char.
Lemma hex_char_hex n : 0 <= n < 16 -> hex_plain (hex_char n).
Proof.
  intros Hn. assert (H : forallb (fun n => bool_decide (hex_char n <> ":"%char /\ hex_char n <> "%"%char /\
    hex_char n <> "."%char /\ hex_char n <> "/"%char)) (seqZ 0 16) = true) by reflexivity.
  rewrite forallb_forall in H. specialize (H n). rewrite bool_decide_eq_true in H. apply H, list_elem_of_In, elem_of_seqZ. lia.
Qed.
Lemma hex16_digits g : 0 <= g < 65536 -> exists ds, bytes (hex16 g) = hex_char <$> ds /\ ds <> [] /\ (length ds <= 4)%nat /\
  Forall (fun d => 0 <= d < 16) ds /\ foldl (fun acc d => acc * 16 + d) 0 ds = g.
Proof.
  intros Hg. unfold hex16. rewrite bytes_str.
  set (a := g / 4096 mod 16). set (b := g / 256 mod 16). set (c := g / 16 mod 16). set (d := g mod 16).
  assert (H : 0 <= a < 16 /\ 0 <= b < 16 /\ 0 <= c < 16 /\ 0 <= d < 16 /\ ((a * 16 + b) * 16 + c) * 16 + d = g).
  { subst a b c d. Z.div_mod_to_equations. lia. }
  destruct H as (Ha & Hb & Hc & Hd & Hv). clearbody a b c d.
  destruct a as [|a|a]; [|exists [Zpos a; b; c; d]|lia]; cbn [length foldl].
  2:{ repeat split; try lia; try done. repeat constructor; lia. }
  destruct b as [|b|b]; [|exists [Zpos b; c; d]|lia]; cbn [length foldl].
  2:{ repeat split; try lia; try done. repeat constructor; lia. }
  destruct c as [|c|c]; [|exists [Zpos c; d]|lia]; cbn [length foldl].
  2:{ repeat split; try lia; try done. repeat constructor; lia. }
  exists [d]. assert (Hs : (match d with 0 => [d] | _ => [d] end) = [d]) by by destruct d.
  split; [by destruct d|]. cbn [length foldl]. repeat split; try lia; try done. repeat constructor; lia.
Qed.
Lemma hex_run_digits ds : forall off acc, Forall (fun d => 0 <= d < 16) ds -> (off + length ds <= 4)%nat ->
  0 <= acc < 16 ^ Z.of_nat off ->
  hex_run off acc (hex_char <$> ds) = Some (foldl (fun acc d => acc * 16 + d) acc ds, (off + length ds)%nat, []).
Proof.
  induction ds as [|d ds IH]; intros off acc Hds Hl Ha; cbn [fmap list_fmap hex_run length foldl] in *.
  - by rewrite Nat.add_0_r.
  - apply Forall_cons in Hds as [Hd Hds]. rewrite hex_val_char by done.
    destruct (Nat.ltb_spec 3 off); [lia|].
    assert (Hacc : acc * 16 + d < 16 ^ Z.of_nat (S off)).
    { rewrite Nat2Z.inj_succ, Z.pow_succ_r by lia. lia. }
    assert (16 ^ Z.of_nat (S off) <= 65536) by (change 65536 with (16 ^ 4); apply Z.pow_le_mono_r; lia).
    destruct (Z.ltb_spec 65535 (acc * 16 + d)); [lia|]. rewrite IH; [|done|lia|lia]. do 3 f_equal. lia.
Qed.
Lemma hex16_run g : 0 <= g < 65536 -> exists k, hex_run 0 0 (bytes (hex16 g)) = Some (g, S k, []) /\ bytes (hex16 g) <> [] /\
  Forall hex_plain (bytes (hex16 g)).
Proof.
  intros Hg. destruct (hex16_digits g Hg) as (ds & -> & Hne & Hl & Hd & Hv). rewrite hex_run_digits; [|done|lia|cbn; lia].
  rewrite Hv. destruct ds as [|d ds]; [done|]. exists (length ds). split; [done|]. split; [done|].
  apply Forall_fmap. eapply Forall_impl; [exact Hd|]. intros x Hx. by apply hex_char_hex.
Qed.

(** ** A list of groups *)
Definition group_chars (l : list Z) : list ascii := bytes (Join (hex16 <$> l) ":").
Lemma group_chars_cons g g2 l : group_chars (g :: g2 :: l) = bytes (hex16 g) ++ ":"%char :: group_chars (g2 :: l).
Proof. unfold group_chars. change (Join (hex16 <$> g :: g2 :: l) ":") with (hex16 g +:+ ":" +:+ Join (hex16 <$> g2 :: l) ":"). by rewrite !bytes_app. Qed.
Lemma group_chars_one g : group_chars [g] = bytes (hex16 g).
Proof. done. Qed.
Definition gs_ok (l : list Z) : Prop := Forall (fun g => 0 <= g < 65536) l.
Lemma group_chars_head l : gs_ok l -> l <> [] -> exists c r, group_chars l = c :: r /\ hex_plain c.
Proof.
  intros Hl Hne. destruct l as [|g l]; [done|]. apply Forall_cons in Hl as [Hg _].
  destruct (hex16_run g Hg) as (_ & _ & Hnil & Hf). destruct l as [|g2 l].
  - rewrite group_chars_one. destruct (bytes (hex16 g)) as [|c r]; [done|]. apply Forall_cons in Hf as [Hc _]. by exists c, r.
  - rewrite group_chars_cons. destruct (bytes (hex16 g)) as [|c r]; [done|]. apply Forall_cons in Hf as [Hc _]. by eexists c, _.
Qed.
Lemma loop_one n gs ell g rest : 0 <= g < 65536 -> rest = [] \/ (exists r, rest = ":"%char :: r) ->
  v6_loop (S n) gs ell (bytes (hex16 g) ++ rest) =
  match rest with
  | [] => Some (gs ++ [g], ell, [])
  | ":"%char :: [] => None
  | ":"%char :: ":"%char :: s2 =>
      match ell with
      | Some _ => None
      | None => match s2 with [] => Some (gs ++ [g], Some (length (gs ++ [g])), []) | _ => v6_loop n (gs ++ [g]) (Some (length (gs ++ [g]))) s2 end
      end
  | ":"%char :: s1 => v6_loop n (gs ++ [g]) ell s1
  | _ => None
  end.
Proof.
  intros Hg Hr. destruct (hex16_run g Hg) as (k & Hk & _). cbn [v6_loop].
  destruct Hr as [->|(r & ->)].
  - rewrite app_nil_r, Hk. done.
  - rewrite (hex_run_app _ _ _ _ _ ":" r Hk) by done. cbn [Nat.eqb]. done.
Qed.
(** Groups up to the end of the text. *)
Lemma loop_groups l : forall n gs ell, gs_ok l -> l <> [] -> (length l <= n)%nat ->
  v6_loop n gs ell (group_chars l) = Some (gs ++ l, ell, []).
Proof.
  induction l as [|g l IH]; intros n gs ell Hl Hne Hn; [done|]. apply Forall_cons in Hl as [Hg Hl].
  destruct n as [|n]; [cbn in Hn; lia|]. destruct l as [|g2 l].
  - rewrite group_chars_one, <- (app_nil_r (bytes (hex16 g))). rewrite loop_one by auto. done.
  - rewrite group_chars_cons, loop_one by eauto.
    destruct (group_chars_head (g2 :: l) Hl ltac:(done)) as (c & r & E & Hc & _). rewrite E.
    destruct c as [[][][][][][][][]]; try done; rewrite <- E, IH by (done || cbn in *; lia); by rewrite <- app_assoc.
Qed.
(** Groups up to the double colon. *)
Lemma loop_groups_ell l : forall n gs r, gs_ok l -> l <> [] -> gs_ok r -> (length l + length r < n)%nat ->
  v6_loop n gs None (group_chars l ++ ":"%char :: ":"%char :: group_chars r) = Some (gs ++ l ++ r, Some (length gs + length l)%nat, []).
Proof.
  induction l as [|g l IH]; intros n gs r Hl Hne Hr Hn; [done|]. apply Forall_cons in Hl as [Hg Hl].
  destruct n as [|n]; [lia|]. destruct l as [|g2 l].
  - rewrite group_chars_one, loop_one by eauto. destruct r as [|g3 r].
    + cbn. rewrite length_app. by cbn.
    + destruct (group_chars_head (g3 :: r) Hr ltac:(done)) as (c & s & E & _). rewrite E. rewrite <- E.
      rewrite loop_groups by (done || cbn in *; lia). rewrite length_app, <- app_assoc. done.
  - rewrite group_chars_cons, <- app_assoc. change ((":"%char :: group_chars (g2 :: l)) ++ ":"%char :: ":"%char :: group_chars r)
      with (":"%char :: (group_chars (g2 :: l) ++ ":"%char :: ":"%char :: group_chars r)).
    rewrite loop_one by eauto. destruct (group_chars_head (g2 :: l) Hl ltac:(done)) as (c & s & E & Hc & _).
    assert (Hn' : (length (g2 :: l) + length r < n)%nat) by (cbn [length] in Hn |- *; lia).
    specialize (IH n (gs ++ [g]) r Hl ltac:(done) Hr Hn'). rewrite E in *. cbn [app] in *.
    destruct c as [[][][][][][][][]]; try done; rewrite IH, length_app, <- app_assoc; cbn [length app];
      replace (length gs + 1 + S (length l))%nat with (length gs + S (S (length l)))%nat by lia; done.
Qed.

(** ** The groups of an address *)
Lemma groups_ok16 u : gs_ok (groups u).
Proof.
  unfold groups. apply Forall_fmap, Forall_forall. intros i _. cbn. apply Z.mod_pos_bound. lia.
Qed.
Lemma length_groups u : length (groups u) = 8%nat.
Proof. done. Qed.
Lemma groups_value_groups u : 0 <= u < 2 ^ 128 -> groups_value (groups u) = u.
Proof.
  intros Hu. unfold groups_value, groups. cbn [fmap list_fmap foldl].
  assert (S : forall k, 0 <= k -> Z.shiftr u (16 * k) = Z.shiftr u (16 * (k + 1)) * 65536 + Z.shiftr u (16 * k) mod 65536).
  { intros k Hk. replace (16 * (k + 1)) with (16 * k + 16) by lia. rewrite <- Z.shiftr_shiftr by lia.
    generalize (Z.shiftr u (16 * k)). intros x. rewrite Z.shiftr_div_pow2 by lia. change (2 ^ 16) with 65536.
    pose proof (Z.div_mod x 65536). lia. }
  assert (H8 : Z.shiftr u (16 * 8) = 0) by (rewrite Z.shiftr_div_pow2 by lia; apply Z.div_small; lia).
  pose proof (S 7 ltac:(lia)) as S7. pose proof (S 6 ltac:(lia)) as S6. pose proof (S 5 ltac:(lia)) as S5.
  pose proof (S 4 ltac:(lia)) as S4. pose proof (S 3 ltac:(lia)) as S3. pose proof (S 2 ltac:(lia)) as S2.
  pose proof (S 1 ltac:(lia)) as S1. pose proof (S 0 ltac:(lia)) as S0.
  change (7 + 1) with 8 in S7. change (6 + 1) with 7 in S6. change (5 + 1) with 6 in S5. change (4 + 1) with 5 in S4.
  change (3 + 1) with 4 in S3. change (2 + 1) with 3 in S2. change (1 + 1) with 2 in S1. change (0 + 1) with 1 in S0.
  change (7 - 0) with 7. change (7 - 1) with 6. change (7 - 2) with 5. change (7 - 3) with 4.
  change (7 - 4) with 3. change (7 - 5) with 2. change (7 - 6) with 1. change (7 - 7) with 0.
  change (16 * 0) with 0 in *. rewrite Z.shiftr_0_r in *. lia.
Qed.
Lemma zero_run_spec gs : (zero_run gs <= length gs)%nat /\ take (zero_run gs) gs = replicate (zero_run gs) 0.
Proof.
  induction gs as [|g gs [IH1 IH2]]; [done|]. destruct g; cbn; [|by split; [lia|]..]. split; [lia|]. by rewrite IH2.
Qed.
Lemma zero_span_spec gs a b : length gs = 8%nat -> zero_span gs = Some (a, b) ->
  (a + 2 <= b <= 8)%nat /\ gs = take a gs ++ replicate (b - a) 0 ++ drop b gs.
Proof.
  intros H8. unfold zero_span.
  set (P := fun best : option (nat * nat) => forall a b, best = Some (a, b) ->
    (a + 2 <= b <= 8)%nat /\ gs = take a gs ++ replicate (b - a) 0 ++ drop b gs).
  enough (HP : P (foldl (fun best i =>
    let l := zero_run (drop i gs) in
    let cur := match best with Some (a, b) => (b - a)%nat | None => O end in
    if (2 <=? l)%nat && (cur <? l)%nat then Some (i, (i + l)%nat) else best) None (seq 0 8))) by apply HP.
  apply (foldl_inv P); [|by intros ? ?]. intros best i Hb Hi. cbv zeta.
  destruct ((2 <=? zero_run (drop i gs))%nat && _) eqn:E; [|done]. apply andb_true_iff in E as [E _]. apply Nat.leb_le in E.
  intros a' b' [= <- <-]. destruct (zero_run_spec (drop i gs)) as [Hl Ht]. rewrite length_drop in Hl. split; [lia|].
  replace (i + zero_run (drop i gs) - i)%nat with (zero_run (drop i gs)) by lia.
  rewrite <- Ht, <- drop_drop, take_drop, take_drop. done.
Qed.
(** Every character of a group is a hex digit, so any property of the hex digits
    and the colon holds of the whole text. *)
Lemma hex16_all (Q : ascii -> Prop) g : (forall n, 0 <= n < 16 -> Q (hex_char n)) -> 0 <= g < 65536 -> Forall Q (bytes (hex16 g)).
Proof.
  intros HQ Hg. destruct (hex16_digits g Hg) as (ds & -> & _ & _ & Hd & _). apply Forall_fmap.
  eapply Forall_impl; [exact Hd|]. intros x Hx. by apply HQ.
Qed.
Lemma group_chars_all (Q : ascii -> Prop) l : (forall n, 0 <= n < 16 -> Q (hex_char n)) -> Q ":"%char -> gs_ok l -> Forall Q (group_chars l).
Proof.
  intros HQ Hc. induction l as [|g l IH]; intros Hl; [constructor|]. apply Forall_cons in Hl as [Hg Hl].
  destruct l as [|g2 l]; [by apply hex16_all|]. rewrite group_chars_cons. apply Forall_app. split; [by apply hex16_all|].
  constructor; [done|]. by apply IH.
Qed.
Lemma string6_chars u : bytes (string6 u) =
  match zero_span (groups u) with
  | None => group_chars (groups u)
  | Some (a, b) => group_chars (take a (groups u)) ++ ":"%char :: ":"%char :: group_chars (drop b (groups u))
  end.
Proof. unfold string6. destruct (zero_span (groups u)) as [[a b]|]; [|done]. by rewrite !bytes_app. Qed.
Lemma string6_all (Q : ascii -> Prop) u : (forall n, 0 <= n < 16 -> Q (hex_char n)) -> Q ":"%char -> Forall Q (bytes (string6 u)).
Proof.
  intros HQ Hc. rewrite string6_chars. pose proof (groups_ok16 u) as Hg.
  destruct (zero_span (groups u)) as [[a b]|]; [|by apply group_chars_all].
  apply Forall_app. split; [by apply group_chars_all, Forall_take|]. do 2 (constructor; [done|]). by apply group_chars_all, Forall_drop.
Qed.
Lemma string6_plain u : Forall (fun c => c <> "%"%char /\ c <> "."%char /\ c <> "/"%char) (bytes (string6 u)).
Proof. apply string6_all; [|done]. intros n Hn. by destruct (hex_char_hex n Hn) as (_ & ? & ? & ?). Qed.

(** The body of the IPv6 parser on a text without a zone. *)
Definition v6_body (s : list ascii) : option Addr :=
  match s with
  | [":"%char; ":"%char] => Some (Addr6 0 "")
  | ":"%char :: ":"%char :: s' => u ← v6_loop 8 [] (Some 0%nat) s' ≫= v6_finish; Some (Addr6 u "")
  | _ => u ← v6_loop 8 [] None s ≫= v6_finish; Some (Addr6 u "")
  end.
Lemma parse_v6_no_zone s : "%"%char ∉ s -> parse_v6 s = v6_body s.
Proof. intros H. unfold parse_v6. rewrite (proj2 (cut_byte_none "%" s) H). done. Qed.
Lemma v6_body_plain c s : c <> ":"%char -> v6_body (c :: s) = (u ← v6_loop 8 [] None (c :: s) ≫= v6_finish; Some (Addr6 u "")).
Proof. intros Hc. unfold v6_body. destruct c as [[][][][][][][][]]; try reflexivity. done. Qed.
Lemma v6_body_groups u : 0 <= u < 2 ^ 128 -> v6_body (bytes (string6 u)) = Some (Addr6 u "").
Proof.
  intros Hu. rewrite string6_chars. pose proof (groups_ok16 u) as Hg. pose proof (groups_value_groups u Hu) as Hv.
  pose proof (length_groups u) as H8. revert Hg Hv H8. generalize (groups u). intros gs Hg Hv H8.
  destruct (zero_span gs) as [[a b]|] eqn:Z.
  - destruct (zero_span_spec gs a b H8 Z) as [Hab Hgs]. set (l := take a gs) in *. set (r := drop b gs) in *.
    assert (Hll : length l = a) by (unfold l; rewrite length_take; lia).
    assert (Hlr : length r = (8 - b)%nat) by (unfold r; rewrite length_drop; lia).
    assert (Hl : gs_ok l) by by apply Forall_take. assert (Hr : gs_ok r) by by apply Forall_drop.
    assert (Hfin : v6_finish (l ++ r, Some a, []) = Some u).
    { unfold v6_finish. rewrite length_app, Hll, Hlr. destruct (Nat.ltb_spec (a + (8 - b)) 8); [|lia].
      rewrite take_app_length' by done. rewrite drop_app_length' by done.
      replace (8 - (a + (8 - b)))%nat with (b - a)%nat by lia. by rewrite <- Hgs, Hv. }
    clearbody l r. destruct l as [|g l].
    + cbn in Hll. subst a. unfold group_chars at 1. cbn [fmap list_fmap Join app]. change (bytes "") with (@nil ascii). cbn [app].
      destruct r as [|g r].
      * vm_compute in Hfin. injection Hfin as Hfin. by rewrite <- Hfin.
      * destruct (group_chars_head (g :: r) Hr ltac:(done)) as (c & s & E & _). unfold v6_body. rewrite E. rewrite <- E.
        cbn [app] in Hfin |- *. rewrite loop_groups by (done || lia). cbn [mbind option_bind app]. by rewrite Hfin.
    + destruct (group_chars_head (g :: l) Hl ltac:(done)) as (c & s & E & Hc & _).
      assert (Hloop : v6_loop 8 [] None (group_chars (g :: l) ++ ":"%char :: ":"%char :: group_chars r) = Some ((g :: l) ++ r, Some a, [])).
      { rewrite loop_groups_ell by (done || lia). by rewrite Hll. }
      rewrite E in *. cbn [app] in *. rewrite v6_body_plain, Hloop by done. cbn [mbind option_bind app] in Hfin |- *. by rewrite Hfin.
  - destruct (group_chars_head gs Hg ltac:(by intros ->)) as (c & s & E & Hc & _). rewrite E, v6_body_plain, <- E by done.
    rewrite loop_groups by (done || lia || by intros ->). cbn [mbind option_bind app].
    unfold v6_finish. rewrite H8. cbn [Nat.ltb Nat.leb]. cbn. by rewrite Hv.
Qed.

(** ** IPv4-mapped addresses *)
Lemma parse_v4_string4 u : 0 <= u < 2 ^ 32 -> parse_v4 (bytes (string4 u)) = Some u.
Proof.
  intros Hu. pose proof (ParseAddr_string4 u Hu) as H. unfold ParseAddr in H.
  destruct (addr_family (bytes (string4 u))) as [[]|]; [|by apply parse_v6_wf in H as [_ H]|done].
  apply bind_Some in H as (v & -> & [= ->]). done.
Qed.
Definition octet_hex_ok (n : Z) : bool :=
  match bytes (itoa n) with
  | c :: _ => is_digit c && match hex_run 0 0 (bytes (itoa n)) with Some (_, S _, []) => true | _ => false end
  | [] => false
  end.
Lemma octet_hex n : 0 <= n < 256 -> exists c l v k, bytes (itoa n) = c :: l /\ is_digit c = true /\
  hex_run 0 0 (bytes (itoa n)) = Some (v, S k, []).
Proof.
  intros Hn. assert (H : forallb octet_hex_ok (seqZ 0 256) = true) by (vm_compute; reflexivity).
  rewrite forallb_forall in H. specialize (H n). unfold octet_hex_ok in H.
  assert (Hin : In n (seqZ 0 256)) by (apply list_elem_of_In, elem_of_seqZ; lia). specialize (H Hin).
  destruct (bytes (itoa n)) as [|c l]; [done|]. apply andb_true_iff in H as [Hc H].
  destruct (hex_run 0 0 (c :: l)) as [[[v [|k]] [|? ?]]|]; try done. by exists c, l, v, k.
Qed.
Lemma string4_head u : 0 <= u < 2 ^ 32 -> exists c r v k s, bytes (string4 u) = c :: r /\ is_digit c = true /\
  hex_run 0 0 (bytes (string4 u)) = Some (v, S k, "."%char :: s).
Proof.
  intros Hu. destruct (octets_value u Hu) as (a & b & c & d & Ho & Ha & _).
  assert (E : exists s, bytes (string4 u) = bytes (itoa a) ++ "."%char :: s).
  { unfold string4. rewrite Ho. eexists. cbn [fmap list_fmap Join]. by rewrite !bytes_app. }
  destruct E as [s E]. destruct (octet_hex a Ha) as (x & l & v & k & El & Hx & Hr). rewrite E.
  rewrite (hex_run_app _ _ _ _ _ "." s Hr) by done. rewrite El. cbn [app]. by exists x, (l ++ "."%char :: s), v, k, s.
Qed.
Lemma v6_body_mapped u : 0 <= u < 2 ^ 128 -> Z.shiftr u 32 = 65535 ->
  v6_body (bytes ("::ffff:" +:+ string4 (u mod 2 ^ 32))) = Some (Addr6 u "").
Proof.
  intros Hu Hm. assert (Hw : 0 <= u mod 2 ^ 32 < 2 ^ 32) by (apply Z.mod_pos_bound; lia).
  assert (Hval : 65535 * 2 ^ 32 + u mod 2 ^ 32 = u).
  { rewrite <- Hm, Z.shiftr_div_pow2 by lia. pose proof (Z.div_mod u (2 ^ 32)). lia. }
  set (w := u mod 2 ^ 32) in *. clearbody w. destruct (string4_head w Hw) as (c & r & v & k & s & E & Hc & Hr).
  rewrite bytes_app. change (bytes "::ffff:") with [":"; ":"; "f"; "f"; "f"; "f"; ":"]%char. cbn [app].
  assert (Hstep : v6_loop 8 [] (Some 0%nat) ("f"%char :: "f"%char :: "f"%char :: "f"%char :: ":"%char :: bytes (string4 w))
    = v6_loop 7 [65535] (Some 0%nat) (bytes (string4 w))).
  { rewrite E. generalize 7%nat. intros n. cbn [v6_loop hex_run hex_val]. cbn.
    destruct c as [[][][][][][][][]]; try discriminate Hc; reflexivity. }
  assert (Hloop : v6_loop 7 [65535] (Some 0%nat) (bytes (string4 w)) = Some ([65535; Z.shiftr w 16; w mod 65536], Some 0%nat, [])).
  { generalize 6%nat. intros n. cbn [v6_loop]. rewrite Hr. cbn [Nat.eqb]. by rewrite parse_v4_string4. }
  unfold v6_body. rewrite Hstep, Hloop. cbn [mbind option_bind]. unfold v6_finish. cbn [length Nat.ltb Nat.leb Nat.sub take drop app replicate].
  cbn [mbind option_bind]. f_equal. f_equal. unfold groups_value. cbn [foldl].
  rewrite Z.shiftr_div_pow2 by lia. change (2 ^ 16) with 65536. pose proof (Z.div_mod w 65536). lia.
Qed.

(** ** Addresses and prefixes *)
Lemma addr_family_colon l r : Forall (fun c => c <> "%"%char /\ c <> "."%char /\ c <> "/"%char) l -> ":"%char ∈ l ->
  addr_family (l ++ r) = Some false.
Proof.
  induction 1 as [|c l (H1 & H2 & _) _ IH]; [by intros ?%elem_of_nil|]. intros Hin. cbn [app addr_family].
  rewrite (bool_decide_eq_false_2 _ H2), (bool_decide_eq_false_2 _ H1). case_bool_decide; [done|].
  apply IH. apply elem_of_cons in Hin as [?|?]; [congruence|done].
Qed.
Lemma string6_colon u : ":"%char ∈ bytes (string6 u).
Proof.
  rewrite string6_chars. destruct (zero_span (groups u)) as [[a b]|].
  - apply elem_of_app. right. by apply elem_of_cons; left.
  - pose proof (length_groups u) as H8. destruct (groups u) as [|g [|g2 l]]; try done.
    rewrite group_chars_cons. apply elem_of_app. right. by apply elem_of_cons; left.
Qed.
(** The characters of a printed address without a zone. *)
Definition addr_char (c : ascii) : bool := is_digit c || in_range "a" "f" c || bool_decide (c = ":"%char) || bool_decide (c = "."%char).
Lemma string4_chars u : 0 <= u < 2 ^ 32 -> Forall (fun c => addr_char c = true) (bytes (string4 u)).
Proof.
  intros Hu. destruct (octets_value u Hu) as (a & b & c & d & Ho & Ha & Hb & Hc & Hd & _).
  assert (H : forall n, 0 <= n < 256 -> Forall (fun c => addr_char c = true) (bytes (itoa n))).
  { intros n Hn. apply Forall_forall. intros x Hx. unfold addr_char. by rewrite (bytes_itoa_digit n x Hn Hx). }
  unfold string4. rewrite Ho. cbn [fmap list_fmap Join]. rewrite !bytes_app. change (bytes ".") with ["."%char].
  repeat (apply Forall_app; split); try (by apply H); by repeat constructor.
Qed.
Lemma addr_string_chars a : addr_wf a -> Addr.has_zone a = false -> Addr.IsValid a = true ->
  Forall (fun c => addr_char c = true) (bytes (addr_string a)).
Proof.
  destruct a as [|u|u z]; intros Hw Hz Hv; [done|by apply string4_chars|]. cbn [addr_string].
  cbn in Hz. apply negb_false_iff, bool_decide_eq_true in Hz as ->. change (zone_suffix "") with "".
  rewrite bytes_app. change (bytes "") with (@nil ascii). rewrite app_nil_r. destruct (Addr.Is4In6 (Addr6 u "")).
  - rewrite bytes_app. apply Forall_app. split; [by repeat constructor|]. apply string4_chars, Z.mod_pos_bound. lia.
  - apply string6_all; [|done]. intros n Hn.
    assert (H : forallb (fun n => addr_char (hex_char n)) (seqZ 0 16) = true) by reflexivity.
    rewrite forallb_forall in H. apply H, list_elem_of_In, elem_of_seqZ. lia.
Qed.
Lemma addr_chars_not (l : list ascii) c : Forall (fun c => addr_char c = true) l -> addr_char c = false -> c ∉ l.
Proof. intros Hl Hc Hin. rewrite Forall_forall in Hl. apply Hl in Hin. congruence. Qed.
Lemma ParseAddr_string a : addr_wf a -> Addr.has_zone a = false -> Addr.IsValid a = true ->
  ParseAddr (addr_string a) = Some a.
Proof.
  destruct a as [|u|u z]; intros Hw Hz Hv; [done|by apply ParseAddr_string4|]. cbn [addr_string].
  cbn in Hz. apply negb_false_iff, bool_decide_eq_true in Hz as ->. change (zone_suffix "") with "".
  replace ((if Addr.Is4In6 (Addr6 u "") then "::ffff:" +:+ string4 (u mod 2 ^ 32) else string6 u) +:+ "")
    with (if Addr.Is4In6 (Addr6 u "") then "::ffff:" +:+ string4 (u mod 2 ^ 32) else string6 u)
    by (apply bytes_inj; rewrite bytes_app; change (bytes "") with (@nil ascii); by rewrite app_nil_r).
  unfold ParseAddr. cbn [Addr.Is4In6]. destruct (Z.eqb_spec (Z.shiftr u 32) 65535) as [Hm|Hm].
  - replace (addr_family (bytes ("::ffff:" +:+ string4 (u mod 2 ^ 32)))) with (Some false) by (rewrite bytes_app; reflexivity).
    rewrite parse_v6_no_zone; [by apply v6_body_mapped|]. rewrite bytes_app. apply not_elem_of_app.
    split; [by vm_compute; repeat (apply not_elem_of_cons; split; [done|]); apply not_elem_of_nil|].
    eapply addr_chars_not; [apply string4_chars, Z.mod_pos_bound; lia|done].
  - rewrite <- (app_nil_r (bytes (string6 u))) at 1. rewrite (addr_family_colon _ [] (string6_plain u) (string6_colon u)).
    rewrite parse_v6_no_zone; [by apply v6_body_groups|]. intros Hin. pose proof (string6_plain u) as H.
    rewrite Forall_forall in H. by apply H in Hin as (? & _).
Qed.
Definition bits_text_ok (n : Z) : bool :=
  bool_decide (Atoi (itoa n) = Some n) && bool_decide ("/"%char ∉ bytes (itoa n)) &&
  match bytes (itoa n) with c :: _ :: _ => in_range "1" "9" c | _ => true end.
Lemma bits_text n : 0 <= n <= 128 -> bits_text_ok n = true.
Proof.
  intros Hn. assert (H : forallb bits_text_ok (seqZ 0 129) = true) by (vm_compute; reflexivity).
  rewrite forallb_forall in H. apply H, list_elem_of_In, elem_of_seqZ. lia.
Qed.
(** A stored prefix reads back as itself, masked or not. *)
Lemma ParsePrefix_string p : prefix_wf p -> ParsePrefix (Pfx.to_string p) = Some p.
Proof.
  intros (Hw & Hz & Hv & Hb). destruct p as [a bits]. cbn [p_addr p_bits] in *.
  assert (HL : Addr.BitLen a <= 128) by (destruct a; cbn; lia).
  pose proof (bits_text bits ltac:(lia)) as Ht. unfold bits_text_ok in Ht.
  apply andb_true_iff in Ht as [Ht Hlead]. apply andb_true_iff in Ht as [Hatoi Hslash].
  rewrite bool_decide_eq_true in Hatoi, Hslash. unfold Pfx.to_string, Pfx.IsValid. cbn [p_addr p_bits].
  destruct (Z.leb_spec 0 bits); [|lia]. unfold ParsePrefix. rewrite !bytes_app. change (bytes "/") with ["/"%char]. cbn [app].
  rewrite rev_app_distr. cbn [rev]. rewrite <- app_assoc. cbn [app].
  rewrite (proj2 (cut_byte_some "/" _ (rev (bytes (itoa bits))) (rev (bytes (addr_string a))))).
  2:{ split; [done|]. by rewrite list_elem_of_In, <- in_rev, <- list_elem_of_In. }
  cbn [mbind option_bind]. rewrite !rev_involutive, !str_bytes, ParseAddr_string by done. cbn [mbind option_bind].
  rewrite Hz, Hatoi.
  assert (El : (match bytes (itoa bits) with c :: _ :: _ => if in_range "1" "9" c then Some () else None | _ => Some () end) = Some ())
    by (destruct (bytes (itoa bits)) as [|c [|? ?]]; try done; by rewrite Hlead).
  rewrite El. cbn [mbind option_bind]. destruct (Z.ltb_spec bits 0); [lia|]. destruct (Z.ltb_spec (Addr.BitLen a) bits); [lia|].
  cbn [orb]. unfold Pfx.PrefixFrom. rewrite Hv. do 2 f_equal.
  - destruct a as [|u|u z]; [done|done|]. cbn in Hz. by apply negb_false_iff, bool_decide_eq_true in Hz as ->.
  - destruct (Z.leb_spec 0 bits); [|lia]. by destruct (Z.leb_spec bits (Addr.BitLen a)); [|lia].
Qed.
