(* ===== verification/Model.v ===== *)
(** * The data model of [internal/store/model.go]

    One record per Go struct, with the struct's fields in order.  Integers are
    Z, lists are Go slices, times are Unix seconds where the struct says so. *)
From S2P Require Import Prelude GoStr.

(** A named match rule; the subnets are CIDR strings. *)
Record View := mkView { v_Name : string; v_Subnets : list string }.

(** One address of a service; an empty view means every view. *)
Record Address := mkAddress { a_ID : Z; a_Address : string; a_View : string }.

Record Service := mkService {
  s_ID : Z;
  s_Name : string;
  s_Addresses : list Address;
  s_Aliases : list string;
  s_CheckURL : string;
  s_CheckInsecure : bool;
  s_ProxyAddress : string;
  s_RouteViaProxy : bool;
  s_MAC : string }.

(** A manually authored record; an empty view means every view. *)
Record DnsRecord := mkRecord {
  r_ID : Z; r_Name : string; r_Type : string; r_Value : string; r_View : string }.

Record Token := mkToken {
  t_ID : Z; t_Label : string; t_Hash : string; t_CreatedAt : Z; t_LastUsedAt : Z }.

Record BlacklistSettings := mkBlSettings { bs_Enabled : bool; bs_BlockTTL : Z }.

Record BlacklistList := mkBlList {
  bl_ID : Z;
  bl_Name : string;
  bl_URL : string;
  bl_Format : string;
  bl_Description : string;
  bl_Enabled : bool;
  bl_Builtin : bool;
  bl_IntervalSeconds : Z;
  bl_LastAttemptAt : Z;
  bl_LastOKAt : Z;
  bl_LastError : string;
  bl_ETag : string;
  bl_LastModified : string;
  bl_EntryCount : Z;
  bl_SkippedCount : Z;
  bl_Snapshot : list string }.

Record BlacklistRule := mkBlRule { br_ID : Z; br_Kind : string; br_Domain : string }.

Record Settings := mkSettings {
  PrivateDomain : string;
  ReverseZones : list string;
  Upstreams : list string;
  AllowQuery : list string;
  AllowTailscale : bool;
  TTL : Z;
  CacheMinTTL : Z;
  CacheMaxTTL : Z;
  NegativeMaxTTL : Z;
  CacheEntries : Z;
  LogQueries : bool;
  LogClientIP : bool;
  DHCPLeaseFile : string;
  DiscoveryInterval : Z;
  HealthInterval : Z;
  HealthTimeout : Z;
  HealthWorkers : Z;
  DHCPEnabled : bool;
  DHCPInterface : string;
  DHCPRangeStart : string;
  DHCPRangeEnd : string;
  DHCPGateway : string;
  DHCPLeaseSeconds : Z;
  DHCPSecondaryDNS : string;
  DHCPAllowForeign : bool }.

(** One address the DHCP server has handed out; times are Unix seconds. *)
Record DHCPLease := mkDHCPLease {
  dl_MAC : string; dl_IP : string; dl_Hostname : string; dl_ExpiresAt : Z; dl_LastSeen : Z }.

#[export] Instance View_eq_dec : EqDecision View.
Proof. solve_decision. Defined.
#[export] Instance Address_eq_dec : EqDecision Address.
Proof. solve_decision. Defined.
#[export] Instance Service_eq_dec : EqDecision Service.
Proof. solve_decision. Defined.
#[export] Instance DnsRecord_eq_dec : EqDecision DnsRecord.
Proof. solve_decision. Defined.
#[export] Instance Token_eq_dec : EqDecision Token.
Proof. solve_decision. Defined.
#[export] Instance BlacklistSettings_eq_dec : EqDecision BlacklistSettings.
Proof. solve_decision. Defined.
#[export] Instance BlacklistList_eq_dec : EqDecision BlacklistList.
Proof. solve_decision. Defined.
#[export] Instance BlacklistRule_eq_dec : EqDecision BlacklistRule.
Proof. solve_decision. Defined.
#[export] Instance Settings_eq_dec : EqDecision Settings.
Proof. solve_decision. Defined.
#[export] Instance DHCPLease_eq_dec : EqDecision DHCPLease.
Proof. solve_decision. Defined.

(** The zero values the code uses. *)
Definition service0 : Service := mkService 0 "" [] [] "" false "" false "".
Definition settings0 : Settings :=
  mkSettings "" [] [] [] false 0 0 0 0 0 false false "" 0 0 0 0 false "" "" "" "" 0 "" false.
