(* ===== verification/Zone.v ===== *)
(** * The zone snapshot: [internal/zone]

    [Matcher] resolves a client address to a view, [Build] computes every view's
    effective records from the registry, the DHCP leases and the settings.
    Warnings that the code only logs are not modelled. *)
From S2P Require Import Prelude GoStr NetIP Model.

(** ** matcher.go *)
Record entry := mkEntry { e_prefix : Prefix; e_view : string }.
Record Matcher := mkMatcher { m_entries : list entry; m_names : list string }.

#[export] Instance entry_eq_dec : EqDecision entry.
Proof. solve_decision. Defined.

Inductive zone_error :=
  | BadCIDR (view cidr : string)
  | ClaimedTwice (p : Prefix) (other view : string)
  | CNAMEConflict (name : string).


(** The order of [sort.Slice] in NewMatcher: longest prefix first, then the
    view's name. *)
Definition entry_le (a b : entry) : Prop :=
  p_bits (e_prefix b) < p_bits (e_prefix a)
  \/ (p_bits (e_prefix a) = p_bits (e_prefix b) /\ str_le (e_view a) (e_view b)).
#[export] Instance entry_le_dec : RelDecision entry_le.
Proof. intros a b. unfold entry_le. apply _. Defined.

(** One subnet: parse, mask, refuse a second claim of the same network. *)
Definition add_subnet (name : string) (st : gmap Prefix string * list entry) (c : string)
    : result zone_error (gmap Prefix string * list entry) :=
  match ParsePrefix c with
  | None => Err (BadCIDR name c)
  | Some p0 =>
      let p := Pfx.Masked p0 in
      match st.1 !! p with
      | Some other => Err (ClaimedTwice p other name)
      | None => Ok (<[p := name]> st.1, st.2 ++ [mkEntry p name])
      end
  end.

Definition NewMatcher (views : list View) : result zone_error Matcher :=
  st <-? foldR (fun st v => foldR (add_subnet (v_Name v)) st (v_Subnets v)) (∅, []) views ;;
  Ok (mkMatcher (merge_sort entry_le st.2) (merge_sort str_le (v_Name <$> views))).

Definition match_entries (es : list entry) (a : Addr) : string :=
  match List.find (fun e => Pfx.Contains (e_prefix e) a) es with
  | Some e => e_view e
  | None => ""
  end.

Definition Match (m : Matcher) (addr : Addr) : string :=
  if Addr.IsValid addr then match_entries (m_entries m) (Addr.Unmap addr) else "".

(** ** snapshot.go *)
Record RR := mkRR { rr_Name : string; rr_Type : string; rr_Value : string }.
#[export] Instance RR_eq_dec : EqDecision RR.
Proof. solve_decision. Defined.

Record Index := mkIndex { Forward : gmap string (list RR); Reverse : gmap string string }.

Record Lease := mkLease { l_Hostname : string; l_Address : string }.

Record Input := mkInput {
  in_Views : list View;
  in_Services : list Service;
  in_Records : list DnsRecord;
  in_Leases : list Lease;
  in_Zone : string;
  in_ReverseZones : list Prefix;
  in_Generation : Z }.

Record Snapshot := mkSnapshot {
  Generation : Z;
  SMatcher : Matcher;
  SViews : gmap string Index;
  SZone : string;
  SReverseZones : list Prefix }.

Definition addrType (s : string) : string :=
  match ParseAddr s with
  | Some a => if Addr.Is4 a then "A" else "AAAA"
  | None => "AAAA"
  end.

Definition qualify (name zone : string) : string :=
  let n := ToLower (TrimSuffix name ".") in
  if HasSuffix (n +:+ ".") zone then n +:+ "." else n +:+ "." +:+ zone.

Definition inZones (a : Addr) (zones : list Prefix) : bool :=
  existsb (fun z => Pfx.Contains z a) zones.

(** The 32 nibbles of an IPv6 address, most significant first. *)
Definition nibbles (u : Z) : list Z :=
  (fun i => Z.shiftr u (4 * (31 - i)) mod 16) <$> seqZ 0 32.
Definition nibble_chars (n : Z) : list ascii := [hex_char n; "."%char].
Definition arpaName (a : Addr) : string :=
  match Addr.Unmap a with
  | Addr4 u => Join (itoa <$> rev (octets u)) "." +:+ ".in-addr.arpa."
  | Addr6 u _ => str (rev (nibbles u) ≫= nibble_chars) +:+ "ip6.arpa."
  | AddrZero => str (rev (nibbles 0) ≫= nibble_chars) +:+ "ip6.arpa."
  end.

(** "Untagged means everywhere": the entries tagged with the view when there are
    any, otherwise the untagged ones. *)
Definition pick {T} (view : string) (tagOf : T -> string) (all : list T) : list T :=
  let tagged := filter (fun v => view <> "" /\ tagOf v = view) all in
  let untagged := filter (fun v => ~ (view <> "" /\ tagOf v = view) /\ tagOf v = "") all in
  match tagged with [] => untagged | _ => tagged end.

(** Layer 1: a lease. *)
Definition lease_step (in_ : Input) (zone : string) (idx : Index) (l : Lease) : Index :=
  let name := qualify (l_Hostname l) zone in
  mkIndex
    (<[name := [mkRR name (addrType (l_Address l)) (l_Address l)]]> (Forward idx))
    (match ParseAddr (l_Address l) with
     | Some addr => if inZones addr (in_ReverseZones in_)
                    then <[arpaName addr := name]> (Reverse idx) else Reverse idx
     | None => Reverse idx
     end).

(** Layer 2: a service.  Forward records answer with the proxy when the service
    is routed; reverse records always name the real host. *)
Definition routed (svc : Service) : bool :=
  s_RouteViaProxy svc && negb (bool_decide (s_ProxyAddress svc = "")).
Definition answer_addrs (view : string) (svc : Service) : list Address :=
  if routed svc then [mkAddress 0 (s_ProxyAddress svc) ""]
  else pick view a_View (s_Addresses svc).
Definition service_names (svc : Service) (zone : string) : list string :=
  qualify (s_Name svc) zone :: ((fun al => qualify al zone) <$> s_Aliases svc).
Definition service_rrs (view : string) (svc : Service) (n : string) : list RR :=
  (fun a => mkRR n (addrType (a_Address a)) (a_Address a)) <$> answer_addrs view svc.
Definition reverse_step (in_ : Input) (primary : string) (rev : gmap string string) (a : Address) :=
  match ParseAddr (a_Address a) with
  | None => rev
  | Some addr => if inZones addr (in_ReverseZones in_) then <[arpaName addr := primary]> rev else rev
  end.
Definition service_step (in_ : Input) (view zone : string) (idx : Index) (svc : Service) : Index :=
  let addrs := pick view a_View (s_Addresses svc) in
  match addrs with
  | [] => idx
  | _ =>
      mkIndex
        (foldl (fun m n => <[n := service_rrs view svc n]> m) (Forward idx) (service_names svc zone))
        (foldl (reverse_step in_ (qualify (s_Name svc) zone)) (Reverse idx) addrs)
  end.

(** Layer 3: a manual record.  The first at a name displaces what the earlier
    layers put there, further ones accumulate. *)
Definition record_step (st : gset string * Index) (r : DnsRecord) : gset string * Index :=
  let '(claimed, idx) := st in
  let name := ToLower (r_Name r) in
  if bool_decide (r_Type r = "PTR") then
    (claimed, mkIndex (Forward idx) (<[name := ToLower (r_Value r)]> (Reverse idx)))
  else
    let rr := mkRR name (r_Type r) (ToLower (r_Value r)) in
    if bool_decide (name ∈ claimed) then
      (claimed, mkIndex (<[name := default [] (Forward idx !! name) ++ [rr]]> (Forward idx)) (Reverse idx))
    else
      ({[name]} ∪ claimed, mkIndex (<[name := [rr]]> (Forward idx)) (Reverse idx)).

Definition is_cname (rr : RR) : bool := bool_decide (rr_Type rr = "CNAME").
(** [hasCNAME && (hasAddr || len(rrs) > 1)]. *)
Definition cname_conflict (rrs : list RR) : bool :=
  existsb is_cname rrs && (existsb (fun rr => negb (is_cname rr)) rrs || (1 <? length rrs)%nat).

Definition layered (in_ : Input) (view zone : string) : Index :=
  let idx := foldl (lease_step in_ zone) (mkIndex ∅ ∅) (in_Leases in_) in
  let idx := foldl (service_step in_ view zone) idx (in_Services in_) in
  (foldl record_step (∅, idx) (pick view r_View (in_Records in_))).2.

(** The name in the error is one of the conflicting names: Go's map iteration
    picks any of them. *)
Definition buildIndex (in_ : Input) (view zone : string) : result zone_error Index :=
  let idx := layered in_ view zone in
  match filter (fun x => cname_conflict x.2 = true) (map_to_list (Forward idx)) with
  | (name, _) :: _ => Err (CNAMEConflict name)
  | [] => Ok idx
  end.

Definition Build (in_ : Input) : result zone_error Snapshot :=
  m <-? NewMatcher (in_Views in_) ;;
  let zone := ToLower (in_Zone in_) in
  vs <-? foldR (fun vs view => idx <-? buildIndex in_ view zone ;; Ok (<[view := idx]> vs))
        ∅ ("" :: m_names m) ;;
  Ok (mkSnapshot (in_Generation in_) m vs zone (in_ReverseZones in_)).

(** The named view's index, or the default view's when it does not exist. *)
Definition view_index (s : Snapshot) (view : string) : option Index :=
  match SViews s !! view with Some idx => Some idx | None => SViews s !! "" end.

Definition Lookup (s : Snapshot) (view name : string) : list RR :=
  match view_index s view with
  | Some idx => default [] (Forward idx !! ToLower name)
  | None => []
  end.
Definition LookupPTR (s : Snapshot) (view arpa : string) : string :=
  match view_index s view with
  | Some idx => default "" (Reverse idx !! ToLower arpa)
  | None => ""
  end.
Definition HasName (s : Snapshot) (view name : string) : bool :=
  (0 <? length (Lookup s view name))%nat.

(** ** Lemmas: the matcher *)
#[export] Instance entry_le_trans : Transitive entry_le.
Proof.
  intros a b c [H1|[E1 L1]] [H2|[E2 L2]]; unfold entry_le; try (left; lia).
  right. split; [lia | by etrans].
Qed.
#[export] Instance entry_le_total : Total entry_le.
Proof.
  intros a b. unfold entry_le.
  destruct (Z.lt_trichotomy (p_bits (e_prefix a)) (p_bits (e_prefix b))) as [H|[H|H]]; auto.
  destruct (str_le_total (e_view a) (e_view b)); auto.
Qed.

(** [claims views p n]: some subnet of the view named [n] is the network [p]. *)
Definition claims (views : list View) (p : Prefix) (n : string) : Prop :=
  exists v c p0, v ∈ views /\ c ∈ v_Subnets v /\ ParsePrefix c = Some p0
    /\ p = Pfx.Masked p0 /\ n = v_Name v.

Section matcher.
Definition claimed_ok (st : gmap Prefix string * list entry) : Prop :=
  forall p n, st.1 !! p = Some n <-> mkEntry p n ∈ st.2.

Lemma add_subnet_ok name st c st' :
  claimed_ok st -> add_subnet name st c = Ok st' ->
  claimed_ok st' /\ exists p0, ParsePrefix c = Some p0
    /\ st'.2 = st.2 ++ [mkEntry (Pfx.Masked p0) name].
Proof.
  intros Hok. unfold add_subnet. destruct (ParsePrefix c) as [p0|]; [|done].
  destruct (st.1 !! Pfx.Masked p0) eqn:E; [done|]. intros [= <-]. simpl.
  split; [|by exists p0]. intros p n. simpl.
  rewrite elem_of_app, list_elem_of_singleton, <- (Hok p n).
  destruct (decide (p = Pfx.Masked p0)) as [->|Hne].
  - rewrite lookup_insert_eq. rewrite E. naive_solver.
  - rewrite lookup_insert_ne by done. naive_solver.
Qed.

Lemma add_subnets_ok name cs : forall st st',
  claimed_ok st -> foldR (add_subnet name) st cs = Ok st' ->
  claimed_ok st' /\ forall e, e ∈ st'.2 <-> e ∈ st.2 \/
    exists c p0, c ∈ cs /\ ParsePrefix c = Some p0 /\ e = mkEntry (Pfx.Masked p0) name.
Proof.
  induction cs as [|c cs IH]; intros st st' Hok; simpl.
  - intros [= <-]. split; [done|]. intros e. split; [auto|].
    intros [?|(c & _ & H%not_elem_of_nil & _)]; done.
  - rewrite rbind_ok. intros (s1 & H1 & H2).
    apply add_subnet_ok in H1 as (Hok1 & p0 & Hp & Hs1); [|done].
    apply IH in H2 as (Hok2 & H2); [|done]. split; [done|].
    intros e. rewrite H2, Hs1, elem_of_app, list_elem_of_singleton.
    setoid_rewrite elem_of_cons. naive_solver.
Qed.

Lemma add_views_ok views : forall st st',
  claimed_ok st ->
  foldR (fun st v => foldR (add_subnet (v_Name v)) st (v_Subnets v)) st views = Ok st' ->
  claimed_ok st' /\ forall e, e ∈ st'.2 <-> e ∈ st.2 \/ claims views (e_prefix e) (e_view e).
Proof.
  induction views as [|v views IH]; intros st st' Hok; simpl.
  - intros [= <-]. split; [done|]. intros e. unfold claims. split; [auto|].
    intros [?|(v & c & p0 & H%not_elem_of_nil & _)]; done.
  - rewrite rbind_ok. intros (s1 & H1 & H2).
    apply add_subnets_ok in H1 as (Hok1 & H1); [|done].
    apply IH in H2 as (Hok2 & H2); [|done]. split; [done|].
    intros [p n]. rewrite H2, H1. unfold claims. setoid_rewrite elem_of_cons. simpl.
    split.
    + intros [[?|(c & p0 & Hc & Hp & [= -> ->])]|(v' & c & p0 & H)]; [auto| |];
        right; naive_solver.
    + intros [?|(v' & c & p0 & [->|Hv] & Hc & Hp & -> & ->)]; [auto| |].
      * left. right. by exists c, p0.
      * right. by exists v', c, p0.
Qed.

Lemma NewMatcher_entries views m :
  NewMatcher views = Ok m ->
  (forall e, e ∈ m_entries m <-> claims views (e_prefix e) (e_view e))
  /\ (forall e e', e ∈ m_entries m -> e' ∈ m_entries m -> e_prefix e = e_prefix e' -> e = e')
  /\ StronglySorted entry_le (m_entries m).
Proof.
  unfold NewMatcher. rewrite rbind_ok. intros (st & Hst & [= <-]). simpl.
  assert (H0 : claimed_ok (∅, [])).
  { intros p n. simpl. rewrite lookup_empty, elem_of_nil. done. }
  apply add_views_ok in Hst as (Hok & Hes); [|done]. simpl in Hes.
  assert (Hp : forall e, e ∈ merge_sort entry_le st.2 <-> e ∈ st.2).
  { intros e. by rewrite (merge_sort_Permutation entry_le st.2). }
  split; [|split].
  - intros e. rewrite Hp, Hes. rewrite elem_of_nil. naive_solver.
  - intros [p n] [p' n'] H1 H2 E. simpl in E; subst p'. rewrite Hp in H1, H2.
    apply Hok in H1. apply Hok in H2. rewrite H1 in H2. by injection H2 as ->.
  - apply (StronglySorted_merge_sort entry_le).
Qed.
End matcher.

Lemma claims_prefix_wf views p n : claims views p n -> prefix_wf p /\ Pfx.Masked p = p.
Proof.
  intros (v & c & p0 & _ & _ & Hp & -> & _). apply ParsePrefix_wf in Hp.
  split; [by apply Masked_prefix_wf | by apply Masked_idemp].
Qed.

Lemma match_entries_spec es a :
  StronglySorted entry_le es ->
  (exists e, e ∈ es /\ match_entries es a = e_view e /\ Pfx.Contains (e_prefix e) a = true
     /\ forall e', e' ∈ es -> Pfx.Contains (e_prefix e') a = true -> entry_le e e' \/ e = e')
  \/ (match_entries es a = "" /\ forall e, e ∈ es -> Pfx.Contains (e_prefix e) a = false).
Proof.
  unfold match_entries. induction 1 as [|e es Hs IH Hall]; simpl.
  - right. split; [done|]. intros e He. by apply not_elem_of_nil in He.
  - destruct (Pfx.Contains (e_prefix e) a) eqn:E.
    + left. exists e. split; [by left|]. split; [done|]. split; [done|].
      intros e' [->|He']%elem_of_cons _; [auto|]. left.
      rewrite Forall_forall in Hall. by apply Hall.
    + destruct IH as [(e2 & H2 & E2 & C2 & Hmax)|[H1 H2]].
      * left. exists e2. split; [by right|]. split; [done|]. split; [done|].
        intros e' [->|He']%elem_of_cons C'; [congruence|]. by apply Hmax.
      * right. split; [done|]. intros e' [->|He']%elem_of_cons; auto.
Qed.

(** a matcher that was built resolves every valid client address to the view
    that owns the longest matching network among all configured subnets, that
    network is unique at its length, and an address no subnet contains gets the
    default view. *)
Theorem match_longest_prefix views m a :
  NewMatcher views = Ok m -> Addr.IsValid a = true ->
  (exists p, claims views p (Match m a) /\ Pfx.Contains p (Addr.Unmap a) = true
     /\ forall q n, claims views q n -> Pfx.Contains q (Addr.Unmap a) = true ->
          p_bits q <= p_bits p /\ (p_bits q = p_bits p -> q = p /\ n = Match m a))
  \/ (Match m a = "" /\ forall q n, claims views q n -> Pfx.Contains q (Addr.Unmap a) = false).
Proof.
  intros Hm Hv. apply NewMatcher_entries in Hm as (Hin & Huniq & Hsort).
  unfold Match. rewrite Hv.
  destruct (match_entries_spec (m_entries m) (Addr.Unmap a) Hsort)
    as [(e & He & -> & Hc & Hmax)|[-> Hnone]].
  - left. exists (e_prefix e). split; [by apply Hin|]. split; [done|].
    intros q n Hq Cq. assert (Hqe : mkEntry q n ∈ m_entries m) by (by apply Hin).
    assert (Hsame : p_bits q = p_bits (e_prefix e) -> q = e_prefix e /\ n = e_view e).
    { intros Hb. pose proof (claims_prefix_wf _ _ _ Hq) as [Wq Mq].
      pose proof (claims_prefix_wf _ _ _ (proj1 (Hin e) He)) as [We Me].
      assert (q = e_prefix e) as -> by (by eapply Masked_unique).
      split; [done|]. by rewrite (Huniq _ _ He Hqe). }
    destruct (Hmax _ Hqe Cq) as [[Hlt|[Heq _]]|Heq]; simpl in *.
    + split; [lia | done].
    + split; [lia | done].
    + rewrite Heq; simpl. split; [lia | done].
  - right. split; [done|]. intros q n Hq. by apply (Hnone (mkEntry q n)), Hin.
Qed.

Definition ex_views : list View :=
  [mkView "lan" ["192.168.0.0/16"; "fd00::/8"]; mkView "lab" ["192.168.7.0/24"]].

Lemma match_longest_prefix_witness :
  exists m, NewMatcher ex_views = Ok m /\ Match m (Addr4 3232237317) = "lab"
    /\ ((exists p, claims ex_views p (Match m (Addr4 3232237317))
           /\ Pfx.Contains p (Addr.Unmap (Addr4 3232237317)) = true
           /\ forall q n, claims ex_views q n ->
                Pfx.Contains q (Addr.Unmap (Addr4 3232237317)) = true ->
                p_bits q <= p_bits p /\ (p_bits q = p_bits p -> q = p /\ n = Match m (Addr4 3232237317)))
        \/ (Match m (Addr4 3232237317) = "" /\ forall q n, claims ex_views q n ->
              Pfx.Contains q (Addr.Unmap (Addr4 3232237317)) = false)).
Proof.
  eexists. split; [vm_compute; reflexivity|]. split; [vm_compute; reflexivity|].
  apply (match_longest_prefix ex_views); [vm_compute; reflexivity | reflexivity].
Defined.

(** ** What a name resolves to: the precedence specification

    The highest layer that has the name wins: manual records first, all of them
    in the order they were authored; then the last service that carries the name
    in this view; then the last lease. *)
Definition record_rr (n : string) (r : DnsRecord) : option RR :=
  if bool_decide (r_Type r = "PTR") then None
  else if bool_decide (ToLower (r_Name r) = n) then Some (mkRR n (r_Type r) (ToLower (r_Value r))) else None.
Definition service_offer (view zone n : string) (svc : Service) : option (list RR) :=
  match pick view a_View (s_Addresses svc) with
  | [] => None
  | _ => if bool_decide (n ∈ service_names svc zone) then Some (service_rrs view svc n) else None
  end.
Definition lease_offer (zone n : string) (l : Lease) : option (list RR) :=
  if bool_decide (qualify (l_Hostname l) zone = n)
  then Some [mkRR n (addrType (l_Address l)) (l_Address l)] else None.
Definition forward_spec (in_ : Input) (view zone n : string) : list RR :=
  match omap (record_rr n) (pick view r_View (in_Records in_)) with
  | (_ :: _) as rrs => rrs
  | [] => default [] (or_else (last_some (service_offer view zone n) (in_Services in_))
                              (last_some (lease_offer zone n) (in_Leases in_)))
  end.

(** A reverse key: the last PTR record authored at it, the primary name of the
    last service owning the address, or the last lease on the address. *)
Definition record_ptr (k : string) (r : DnsRecord) : option string :=
  if bool_decide (r_Type r = "PTR") && bool_decide (ToLower (r_Name r) = k)
  then Some (ToLower (r_Value r)) else None.
Definition owns_key (zs : list Prefix) (k s : string) : bool :=
  match ParseAddr s with
  | Some addr => inZones addr zs && bool_decide (arpaName addr = k)
  | None => false
  end.
Definition service_ptr (in_ : Input) (view zone k : string) (svc : Service) : option string :=
  if existsb (fun a => owns_key (in_ReverseZones in_) k (a_Address a)) (pick view a_View (s_Addresses svc))
  then Some (qualify (s_Name svc) zone) else None.
Definition lease_ptr (in_ : Input) (zone k : string) (l : Lease) : option string :=
  if owns_key (in_ReverseZones in_) k (l_Address l) then Some (qualify (l_Hostname l) zone) else None.
Definition reverse_spec (in_ : Input) (view zone k : string) : string :=
  default "" (or_else (last_some (record_ptr k) (pick view r_View (in_Records in_)))
             (or_else (last_some (service_ptr in_ view zone k) (in_Services in_))
                      (last_some (lease_ptr in_ zone k) (in_Leases in_)))).

Section layers.
Context (in_ : Input) (view zone : string).

Lemma lease_forward n idx l :
  Forward (lease_step in_ zone idx l) !! n = or_else (lease_offer zone n l) (Forward idx !! n).
Proof.
  unfold lease_step, lease_offer. simpl. case_bool_decide as E.
  - by rewrite E, lookup_insert_eq.
  - by rewrite lookup_insert_ne.
Qed.

Lemma owned_insert zs k s v (m : gmap string string) :
  match ParseAddr s with
  | Some addr => if inZones addr zs then <[arpaName addr := v]> m else m
  | None => m
  end !! k = if owns_key zs k s then Some v else m !! k.
Proof.
  unfold owns_key. destruct (ParseAddr s) as [addr|]; [|done].
  destruct (inZones addr zs); simpl; [|done].
  case_bool_decide as E; [by rewrite E, lookup_insert_eq | by rewrite lookup_insert_ne].
Qed.

Lemma lease_reverse k idx l :
  Reverse (lease_step in_ zone idx l) !! k = or_else (lease_ptr in_ zone k l) (Reverse idx !! k).
Proof. unfold lease_step, lease_ptr. simpl. rewrite owned_insert. by case_if. Qed.

Lemma foldl_insert_lookup {A} (f : string -> A) ns n : forall m : gmap string A,
  foldl (fun m n => <[n := f n]> m) m ns !! n = if bool_decide (n ∈ ns) then Some (f n) else m !! n.
Proof.
  induction ns as [|a ns IH]; intros m; simpl; [done|]. rewrite IH.
  destruct (decide (n ∈ ns)) as [Hin|Hin].
  - rewrite !bool_decide_eq_true_2; [done| by right | done].
  - rewrite (bool_decide_eq_false_2 _ Hin). destruct (decide (n = a)) as [->|Hne].
    + rewrite bool_decide_eq_true_2 by left. by rewrite lookup_insert_eq.
    + rewrite bool_decide_eq_false_2, lookup_insert_ne; [done|done|].
      by intros [?|?]%elem_of_cons.
Qed.

Lemma service_forward n idx svc :
  Forward (service_step in_ view zone idx svc) !! n
  = or_else (service_offer view zone n svc) (Forward idx !! n).
Proof.
  unfold service_step, service_offer. destruct (pick _ _ _) eqn:E; [done|].
  cbn [Forward]. rewrite foldl_insert_lookup. by case_bool_decide.
Qed.

Lemma reverse_fold v k addrs : forall m,
  foldl (reverse_step in_ v) m addrs !! k
  = if existsb (fun a => owns_key (in_ReverseZones in_) k (a_Address a)) addrs
    then Some v else m !! k.
Proof.
  induction addrs as [|a addrs IH]; intros m; simpl; [done|]. rewrite IH.
  destruct (existsb _ addrs); [by rewrite orb_true_r|]. rewrite orb_false_r.
  unfold reverse_step. by rewrite owned_insert.
Qed.

Lemma service_reverse k idx svc :
  Reverse (service_step in_ view zone idx svc) !! k
  = or_else (service_ptr in_ view zone k svc) (Reverse idx !! k).
Proof.
  unfold service_step, service_ptr. destruct (pick _ _ _) eqn:E; [done|].
  cbn [Reverse]. rewrite reverse_fold. by case_if.
Qed.

(** The manual layer, with the names already claimed by it. *)
Lemma records_forward n l : forall st,
  Forward (foldl record_step st l).2 !! n =
  match omap (record_rr n) l with
  | [] => Forward st.2 !! n
  | rrs => if bool_decide (n ∈ st.1) then Some (default [] (Forward st.2 !! n) ++ rrs) else Some rrs
  end.
Proof.
  induction l as [|r l IH]; intros [claimed idx]; [done|].
  cbn [foldl]. rewrite IH, omap_cons. clear IH. unfold record_step, record_rr at 2.
  case_bool_decide as Ht; [done|].
  destruct (decide (ToLower (r_Name r) = n)) as [Hn|Hn].
  - rewrite (bool_decide_eq_true_2 _ Hn), Hn.
    case_bool_decide as Hc; cbn [fst snd Forward]; rewrite lookup_insert_eq; cbn [default];
      rewrite ?(bool_decide_eq_true_2 (n ∈ {[n]} ∪ claimed)) by set_solver;
      rewrite ?(bool_decide_eq_true_2 _ Hc), ?(bool_decide_eq_false_2 _ Hc);
      destruct (omap (record_rr n) l); try done; cbn; by rewrite <- ?app_assoc.
  - rewrite (bool_decide_eq_false_2 _ Hn).
    case_bool_decide as Hc; cbn [fst snd Forward]; rewrite !lookup_insert_ne by done; [done|].
    destruct (omap (record_rr n) l); [done|].
    by rewrite (bool_decide_ext (n ∈ {[ToLower (r_Name r)]} ∪ claimed) (n ∈ claimed)) by set_solver.
Qed.

Lemma record_reverse k st r :
  Reverse (record_step st r).2 !! k = or_else (record_ptr k r) (Reverse st.2 !! k).
Proof.
  destruct st as [claimed idx]. unfold record_step, record_ptr.
  case_bool_decide as Ht; simpl.
  - case_bool_decide as E; [by rewrite E, lookup_insert_eq | by rewrite lookup_insert_ne].
  - by case_bool_decide.
Qed.

Lemma layered_forward n :
  default [] (Forward (layered in_ view zone) !! n) = forward_spec in_ view zone n.
Proof.
  unfold layered, forward_spec. rewrite records_forward. cbn [fst snd].
  destruct (omap _ _); [|done].
  rewrite (foldl_last_some (fun idx => Forward idx !! n) _ (service_offer view zone n))
    by (intros; apply service_forward).
  rewrite (foldl_last_some (fun idx => Forward idx !! n) _ (lease_offer zone n))
    by (intros; apply lease_forward).
  simpl. rewrite lookup_empty. by destruct (last_some _ _), (last_some _ _).
Qed.

Lemma layered_forward_cons n rrs :
  Forward (layered in_ view zone) !! n = Some rrs -> rrs = forward_spec in_ view zone n.
Proof. intros H. rewrite <- layered_forward. by rewrite H. Qed.

Lemma layered_reverse k :
  default "" (Reverse (layered in_ view zone) !! k) = reverse_spec in_ view zone k.
Proof.
  unfold layered, reverse_spec.
  rewrite (foldl_last_some (fun st : gset string * Index => Reverse st.2 !! k) _ (record_ptr k))
    by (intros; apply record_reverse).
  cbn [snd].
  rewrite (foldl_last_some (fun idx => Reverse idx !! k) _ (service_ptr in_ view zone k))
    by (intros; apply service_reverse).
  rewrite (foldl_last_some (fun idx => Reverse idx !! k) _ (lease_ptr in_ zone k))
    by (intros; apply lease_reverse).
  cbn [Reverse]. rewrite lookup_empty. by repeat destruct (last_some _ _).
Qed.

Lemma buildIndex_ok idx :
  buildIndex in_ view zone = Ok idx <->
  idx = layered in_ view zone /\ forall n, cname_conflict (forward_spec in_ view zone n) = false.
Proof.
  unfold buildIndex. destruct (filter _ _) as [|[n rrs] r] eqn:E; split.
  - intros [= <-]. split; [done|]. intros n.
    rewrite <- layered_forward. destruct (Forward _ !! n) as [rrs|] eqn:F; [|done]. simpl.
    apply not_true_is_false. intros Hc.
    assert (H : (n, rrs) ∈ filter (fun x => cname_conflict x.2 = true) (map_to_list (Forward (layered in_ view zone)))).
    { apply list_elem_of_filter. split; [done|]. by apply elem_of_map_to_list. }
    rewrite E in H. by apply not_elem_of_nil in H.
  - by intros [-> _].
  - done.
  - intros [_ H]. exfalso.
    assert (H' : (n, rrs) ∈ filter (fun x => cname_conflict x.2 = true) (map_to_list (Forward (layered in_ view zone)))).
    { rewrite E. by left. }
    apply list_elem_of_filter in H' as [Hc F%elem_of_map_to_list]. simpl in Hc.
    specialize (H n). rewrite <- layered_forward, F in H. simpl in H. congruence.
Qed.
End layers.

(** ** Building a snapshot *)
Lemma build_views_ok in_ zone views : forall vs0 vs : gmap string Index,
  foldR (fun vs view => idx <-? buildIndex in_ view zone ;; Ok (<[view := idx]> vs)) vs0 views
    = Ok vs <->
  vs = foldl (fun m n => <[n := layered in_ n zone]> m) vs0 views
  /\ forall v n, v ∈ views -> cname_conflict (forward_spec in_ v zone n) = false.
Proof.
  induction views as [|v views IH]; intros vs0 vs; simpl.
  - split; [intros [= <-]; split; [done|]; intros v n H; by apply not_elem_of_nil in H | by intros [-> _]].
  - rewrite rbind_ok. split.
    + intros (m & (idx & [-> Hi]%buildIndex_ok & [= <-])%rbind_ok & [-> H]%IH).
      split; [done|]. intros v' n [->|Hv]%elem_of_cons; auto.
    + intros [-> H]. exists (<[v := layered in_ v zone]> vs0). split.
      * apply rbind_ok. exists (layered in_ v zone). split; [|done].
        apply buildIndex_ok. split; [done|]. intros n. apply H. by left.
      * apply IH. split; [done|]. intros v' n Hv. apply H. by right.
Qed.

Lemma NewMatcher_names views m v : NewMatcher views = Ok m -> v ∈ m_names m <-> v ∈ v_Name <$> views.
Proof.
  unfold NewMatcher. rewrite rbind_ok. intros (st & _ & [= <-]). simpl.
  by rewrite (merge_sort_Permutation str_le (v_Name <$> views)).
Qed.

Lemma Build_ok in_ s :
  Build in_ = Ok s <->
  exists m, NewMatcher (in_Views in_) = Ok m
    /\ s = mkSnapshot (in_Generation in_) m
         (foldl (fun vs n => <[n := layered in_ n (ToLower (in_Zone in_))]> vs) ∅ ("" :: m_names m))
         (ToLower (in_Zone in_)) (in_ReverseZones in_)
    /\ forall v n, v ∈ "" :: m_names m ->
         cname_conflict (forward_spec in_ v (ToLower (in_Zone in_)) n) = false.
Proof.
  unfold Build. rewrite rbind_ok. split.
  - intros (m & Hm & (vs & [-> Hc]%build_views_ok & [= <-])%rbind_ok). by exists m.
  - intros (m & Hm & -> & Hc). exists m. split; [done|]. apply rbind_ok.
    eexists. split; [apply build_views_ok; split; [reflexivity|done] | done].
Qed.

(** The view whose index answers: the default view stands in for unknown ones. *)
Definition served_view (in_ : Input) (view : string) : string :=
  if bool_decide (view ∈ v_Name <$> in_Views in_) then view else "".

Lemma Build_index in_ s view :
  Build in_ = Ok s ->
  view_index s view = Some (layered in_ (served_view in_ view) (ToLower (in_Zone in_))).
Proof.
  intros (m & Hm & -> & _)%Build_ok. unfold view_index, served_view. cbn [SViews].
  rewrite !foldl_insert_lookup. rewrite (bool_decide_eq_true_2 ("" ∈ _)) by left.
  case_bool_decide as H1; case_bool_decide as H2; try done.
  - apply elem_of_cons in H1 as [->|H1]; [done|]. exfalso. apply H2.
    by apply (NewMatcher_names _ _ _ Hm).
  - exfalso. apply H1. right. by apply (NewMatcher_names _ _ _ Hm).
Qed.

Lemma Build_Lookup in_ s view name :
  Build in_ = Ok s ->
  Lookup s view name = forward_spec in_ (served_view in_ view) (ToLower (in_Zone in_)) (ToLower name).
Proof.
  intros H. unfold Lookup. rewrite (Build_index _ _ view H). apply layered_forward.
Qed.

(** C2: in every snapshot that was built, looking a name up in a view gives
    exactly what the precedence specification computes from the configuration:
    the manual records authored at the name, all of them in order; failing those
    the last service carrying the name in this view, with its proxy address when
    it is routed and its own addresses otherwise; failing that the last lease.
    An unknown view is served the default view's data. *)
Theorem lookup_follows_precedence in_ s view name :
  Build in_ = Ok s ->
  Lookup s view name = forward_spec in_ (served_view in_ view) (ToLower (in_Zone in_)) (ToLower name).
Proof. apply Build_Lookup. Qed.

(** a reverse lookup names the value of the last PTR record authored at the
    key, else the primary name of the last service owning the address in this
    view (its real address, routed or not), else the last lease on it, and
    addresses outside the reverse zones are never answered from services or
    leases. *)
Theorem reverse_follows_precedence in_ s view arpa :
  Build in_ = Ok s ->
  LookupPTR s view arpa = reverse_spec in_ (served_view in_ view) (ToLower (in_Zone in_)) (ToLower arpa).
Proof.
  intros H. unfold LookupPTR. rewrite (Build_index _ _ view H). apply layered_reverse.
Qed.

Lemma cname_conflict_spec rrs :
  cname_conflict rrs = false <-> forall rr, rr ∈ rrs -> rr_Type rr = "CNAME" -> rrs = [rr].
Proof.
  unfold cname_conflict. rewrite andb_false_iff. split.
  - intros [H|H] rr Hin Ht.
    + rewrite existsb_false_forall in H. apply H in Hin. unfold is_cname in Hin. by bool_to_prop.
    + apply orb_false_iff in H as [_ Hl%Nat.ltb_ge].
      destruct rrs as [|x [|y rrs]]; [by apply not_elem_of_nil in Hin| |simpl in Hl; lia].
      by apply list_elem_of_singleton in Hin as ->.
  - intros H. destruct (existsb is_cname rrs) eqn:E; [|auto]. right.
    apply existsb_true_exists in E as (rr & Hin & Hc). unfold is_cname in Hc. bool_to_prop.
    rewrite (H rr Hin Hc). cbn. unfold is_cname. rewrite bool_decide_eq_true_2 by done. done.
Qed.

(** a build succeeds exactly when no network is claimed by two views (and
    every subnet parses) and, in the default view and in every configured one, a
    name that has a CNAME has no other record; so no snapshot a client is served
    from ever mixes a CNAME with other data. *)
Theorem build_iff_unambiguous in_ :
  is_ok (Build in_) = true <->
  is_ok (NewMatcher (in_Views in_)) = true
  /\ forall v n rr, v = "" \/ v ∈ v_Name <$> in_Views in_ ->
       rr ∈ forward_spec in_ v (ToLower (in_Zone in_)) n -> rr_Type rr = "CNAME" ->
       forward_spec in_ v (ToLower (in_Zone in_)) n = [rr].
Proof.
  split.
  - destruct (Build in_) as [s|] eqn:E; [intros _|done].
    apply Build_ok in E as (m & Hm & _ & Hc). rewrite Hm. split; [done|].
    intros v n rr Hv. apply cname_conflict_spec, Hc. rewrite elem_of_cons.
    by rewrite (NewMatcher_names _ _ _ Hm).
  - intros [Hok Hc]. destruct (NewMatcher (in_Views in_)) as [m|] eqn:Hm; [|done].
    assert (Build in_ = Ok (mkSnapshot (in_Generation in_) m
         (foldl (fun vs n => <[n := layered in_ n (ToLower (in_Zone in_))]> vs) ∅ ("" :: m_names m))
         (ToLower (in_Zone in_)) (in_ReverseZones in_))) as ->; [|done].
    apply Build_ok. exists m. split; [done|]. split; [done|].
    intros v n Hv. apply cname_conflict_spec. intros rr. apply Hc.
    rewrite elem_of_cons in Hv. by rewrite (NewMatcher_names _ _ _ Hm) in Hv.
Qed.

(** ** Concrete configurations *)
Definition ex_input : Input :=
  mkInput ex_views
    [mkService 1 "NAS" [mkAddress 1 "192.168.1.10" ""; mkAddress 2 "192.168.7.10" "lab"] ["files"] "" false
       "192.168.1.2" true ""]
    [mkRecord 1 "printer.lan." "A" "192.168.1.20" ""; mkRecord 2 "printer.lan." "A" "192.168.1.21" "";
     mkRecord 3 "tv.lan." "CNAME" "NAS.lan." "lab"]
    [mkLease "printer" "192.168.1.99"; mkLease "phone" "192.168.1.50"]
    "lan." [mkPrefix (Addr4 3232235520) 16] 7.

Lemma lookup_follows_precedence_witness :
  exists s, Build ex_input = Ok s
    /\ Lookup s "lan" "FILES.lan." = [mkRR "files.lan." "A" "192.168.1.2"]
    /\ Lookup s "lan" "printer.lan." = forward_spec ex_input (served_view ex_input "lan") "lan." "printer.lan.".
Proof.
  destruct (Build ex_input) as [s|] eqn:E; [|vm_compute in E; discriminate].
  exists s. split; [reflexivity|]. split; [|apply (lookup_follows_precedence ex_input s "lan" "printer.lan."); exact E].
  rewrite (lookup_follows_precedence ex_input s "lan" "FILES.lan." E). vm_compute. reflexivity.
Defined.

Lemma reverse_follows_precedence_witness :
  exists s, Build ex_input = Ok s
    /\ LookupPTR s "lab" "10.7.168.192.in-addr.arpa." = "nas.lan."
    /\ LookupPTR s "lan" "50.1.168.192.IN-ADDR.arpa." = "phone.lan.".
Proof.
  destruct (Build ex_input) as [s|] eqn:E; [|vm_compute in E; discriminate].
  exists s. split; [reflexivity|].
  split; rewrite (reverse_follows_precedence ex_input s _ _ E); vm_compute; reflexivity.
Defined.

(** ** qualify *)
Lemma HasSuffix_trans a b c : HasSuffix a b = true -> HasSuffix b c = true -> HasSuffix a c = true.
Proof.
  rewrite !HasSuffix_spec. intros (x & ->) (y & ->). exists (x +:+ y). by rewrite app_assoc_str.
Qed.

Lemma qualify_cases name zone :
  let n := ToLower (TrimSuffix name ".") in
  qualify name zone = n +:+ "." /\ HasSuffix (n +:+ ".") zone = true
  \/ qualify name zone = n +:+ "." +:+ zone /\ HasSuffix (n +:+ ".") zone = false.
Proof. unfold qualify. simpl. destruct (HasSuffix _ zone) eqn:E; auto. Qed.

(** qualifying a name always yields a lower-case name that ends in the zone,
    and qualifying the result again changes nothing, for every lower-case fully
    qualified zone. *)
Theorem qualify_in_zone name z :
  let zone := ToLower z +:+ "." in
  HasSuffix (qualify name zone) zone = true
  /\ ToLower (qualify name zone) = qualify name zone
  /\ qualify (qualify name zone) zone = qualify name zone.
Proof.
  intros zone. assert (Hz : ToLower zone = zone) by (unfold zone; by rewrite ToLower_app, ToLower_idemp).
  assert (H : HasSuffix (qualify name zone) zone = true /\ ToLower (qualify name zone) = qualify name zone
              /\ exists p, qualify name zone = p +:+ ".").
  { destruct (qualify_cases name zone) as [[-> E]|[-> E]].
    - split; [done|]. rewrite ToLower_app, ToLower_idemp. split; [done | by eexists].
    - split; [rewrite <- app_assoc_str; apply HasSuffix_app|].
      rewrite !ToLower_app, ToLower_idemp, Hz. split; [done|].
      unfold zone. rewrite <- !app_assoc_str. by eexists. }
  destruct H as (H1 & H2 & p & Hp). split; [done|]. split; [done|].
  unfold qualify at 1. rewrite Hp in H1, H2 |- *. rewrite TrimSuffix_app.
  rewrite ToLower_app in H2. apply app_inj_r_str in H2. by rewrite H2, H1.
Qed.

(** the zone test of [qualify] is on characters, not on labels: a one-label
    name that merely ends in the zone's spelling is taken for a fully qualified
    name, so it is published outside the private zone. *)
Theorem qualify_ignores_label_boundary l z :
  HasSuffix z "." = false -> z <> "" ->
  qualify (l +:+ z) (ToLower z +:+ ".") = ToLower (l +:+ z) +:+ ".".
Proof.
  intros Hz Hne. unfold qualify.
  assert (Ht : TrimSuffix (l +:+ z) "." = l +:+ z).
  { apply TrimSuffix_no. apply not_true_is_false. intros (r & Hr)%HasSuffix_spec.
    apply not_true_iff_false in Hz. apply Hz. apply HasSuffix_spec.
    apply (f_equal (fun s => rev (bytes s))) in Hr. rewrite !bytes_app, !rev_app_distr in Hr.
    destruct (rev (bytes z)) as [|c t] eqn:E.
    - exfalso. apply Hne, bytes_empty. apply (f_equal (@rev ascii)) in E. by rewrite rev_involutive in E.
    - injection Hr as -> _. exists (str (rev t)). apply (inj bytes).
      rewrite bytes_app, bytes_str. apply (f_equal (@rev ascii)) in E.
      by rewrite rev_involutive in E. }
  rewrite Ht, ToLower_app.
  by rewrite (proj2 (HasSuffix_spec _ _) (ex_intro _ (ToLower l) (app_assoc_str _ _ _))).
Qed.

Lemma qualify_ignores_label_boundary_witness :
  qualify ("v" +:+ "lan") (ToLower "lan" +:+ ".") = "vlan."
  /\ exists s, Build (mkInput [] [mkService 1 "vlan" [mkAddress 1 "10.0.0.1" ""] [] "" false "" false ""]
                        [] [] "lan." [] 1) = Ok s /\ Lookup s "" "vlan.lan." = [].
Proof.
  split.
  - apply (qualify_ignores_label_boundary "v" "lan"); [reflexivity | discriminate].
  - eexists. split; [vm_compute; reflexivity | vm_compute; reflexivity].
Defined.
