(* ===== verification/ZoneHolder.v ===== *)
(** * The live snapshot: [internal/zone/holder.go]

    [Rebuild] as one atomic operation, and the same operation cut at its atomic
    steps so that several goroutines can run it at once: the code takes no lock
    around the source read, the counter increment and the pointer store. *)
From S2P Require Import Prelude GoStr NetIP Model Zone.

Record Holder := mkHolder { h_cur : option Snapshot; h_gen : Z }.
Definition holder0 : Holder := mkHolder None 0.

Inductive rebuild_error (E : Type) := SourceFailed (e : E) | BuildFailed (e : zone_error).
Arguments SourceFailed {E} e.
Arguments BuildFailed {E} e.

Definition with_generation (in_ : Input) (g : Z) : Input :=
  mkInput (in_Views in_) (in_Services in_) (in_Records in_) (in_Leases in_) (in_Zone in_)
    (in_ReverseZones in_) g.

(** [src] is what the source returned; the generation is reserved before the
    build and kept even when the build fails. *)
Definition Rebuild {E} (src : result E Input) (h : Holder) : Holder * option (rebuild_error E) :=
  match src with
  | Err e => (h, Some (SourceFailed e))
  | Ok in_ =>
      let g := u32w (h_gen h + 1) in
      match Build (with_generation in_ g) with
      | Err e => (mkHolder (h_cur h) g, Some (BuildFailed e))
      | Ok snap => (mkHolder (Some snap) g, None)
      end
  end.
Definition Current (h : Holder) : option Snapshot := h_cur h.

Definition HolderGeneration (h : Holder) : Z := h_gen h.

(** ** Concurrent rebuilds

    A goroutine inside [Rebuild] has read its input, or has reserved a generation
    as well.  [w_src] is what the source would return now; it changes whenever
    the registry is written. *)
Inductive rb_pc := Fetched (in_ : Input) | Reserved (in_ : Input) (g : Z).

Record World := mkWorld { w_src : Input; w_holder : Holder; w_threads : gmap nat rb_pc }.

Definition rb_store (h : Holder) (in_ : Input) (g : Z) : Holder :=
  match Build (with_generation in_ g) with
  | Ok snap => mkHolder (Some snap) (h_gen h)
  | Err _ => h
  end.

Inductive rb_step : World -> World -> Prop :=
  | rb_write w src' : rb_step w (mkWorld src' (w_holder w) (w_threads w))
  | rb_fetch w t :
      w_threads w !! t = None ->
      rb_step w (mkWorld (w_src w) (w_holder w) (<[t := Fetched (w_src w)]> (w_threads w)))
  | rb_reserve w t in_ :
      w_threads w !! t = Some (Fetched in_) ->
      rb_step w (let g := u32w (h_gen (w_holder w) + 1) in
                 mkWorld (w_src w) (mkHolder (h_cur (w_holder w)) g) (<[t := Reserved in_ g]> (w_threads w)))
  | rb_publish w t in_ g :
      w_threads w !! t = Some (Reserved in_ g) ->
      rb_step w (mkWorld (w_src w) (rb_store (w_holder w) in_ g) (delete t (w_threads w))).

Definition world0 (src : Input) : World := mkWorld src holder0 ∅.
Definition live_generation (w : World) : option Z := Generation <$> h_cur (w_holder w).

Definition live_lookup (w : World) (view name : string) : list RR :=
  match h_cur (w_holder w) with Some s => Lookup s view name | None => [] end.

(** ** Rebuilds one at a time *)
Lemma Build_generation in_ s : Build in_ = Ok s -> Generation s = in_Generation in_.
Proof. by intros (m & _ & -> & _)%Build_ok. Qed.

(** a rebuild either publishes exactly the snapshot built from what the
    source returned, stamped with the next generation, or reports the error and
    leaves the snapshot that is being served untouched. *)
Theorem rebuild_all_or_nothing {E} (src : result E Input) h :
  let '(h', err) := Rebuild src h in
  match err with
  | None => exists in_ s, src = Ok in_ /\ Build (with_generation in_ (u32w (h_gen h + 1))) = Ok s
              /\ h' = mkHolder (Some s) (u32w (h_gen h + 1)) /\ Generation s = HolderGeneration h'
  | Some (SourceFailed e) => src = Err e /\ h' = h
  | Some (BuildFailed e) => exists in_, src = Ok in_
              /\ Build (with_generation in_ (u32w (h_gen h + 1))) = Err e
              /\ Current h' = Current h /\ HolderGeneration h' = u32w (h_gen h + 1)
  end.
Proof.
  unfold Rebuild. destruct src as [in_|e]; [|done].
  destruct (Build _) as [s|e] eqn:E0.
  - exists in_, s. split; [done|]. split; [done|]. split; [done|].
    by rewrite (Build_generation _ _ E0).
  - by exists in_.
Qed.

Definition run_rebuilds {E} (srcs : list (result E Input)) (h : Holder) : Holder :=
  foldl (fun h src => (Rebuild src h).1) h srcs.

Definition live_below (h : Holder) : Prop :=
  0 <= h_gen h /\ forall s, h_cur h = Some s -> Generation s <= h_gen h.

Lemma Rebuild_step {E} (src : result E Input) h :
  live_below h -> h_gen h + 1 < 2 ^ 32 ->
  live_below (Rebuild src h).1 /\ h_gen h <= h_gen (Rebuild src h).1 <= h_gen h + 1
  /\ forall s, h_cur h = Some s -> exists s', h_cur (Rebuild src h).1 = Some s'
       /\ (s' = s \/ Generation s < Generation s').
Proof.
  intros [H0 Hle] Hb. unfold Rebuild. destruct src as [in_|e]; simpl.
  - rewrite u32w_small by lia. destruct (Build _) as [s'|e] eqn:E0; simpl.
    + apply Build_generation in E0. simpl in E0. split; [|split; [lia|]].
      * split; [simpl; lia|]. simpl. intros s [= <-]. lia.
      * intros s Hs. exists s'. split; [done|]. right. specialize (Hle s Hs). lia.
    + split; [|split; [lia|]].
      * split; [simpl; lia|]. simpl. intros s Hs. specialize (Hle s Hs). lia.
      * intros s Hs. exists s. auto.
  - split; [done|]. split; [lia|]. intros s Hs. exists s. auto.
Qed.

(** rebuilds that do not overlap never take the served snapshot away and
    never publish a serial that is not larger than the one it replaces, for the
    2^32 rebuilds before the counter wraps. *)
Theorem live_snapshot_monotone {E} (before after : list (result E Input)) s :
  Z.of_nat (length (before ++ after)) < 2 ^ 32 ->
  Current (run_rebuilds before holder0) = Some s ->
  exists s', Current (run_rebuilds (before ++ after) holder0) = Some s'
    /\ (s' = s \/ Generation s < Generation s').
Proof.
  unfold Current, run_rebuilds. rewrite length_app, foldl_app. intros Hlen.
  assert (Hinv : forall l h, live_below h -> h_gen h + Z.of_nat (length l) < 2 ^ 32 ->
    let h' := foldl (fun h (src : result E Input) => (Rebuild src h).1) h l in
    live_below h' /\ h_gen h' <= h_gen h + Z.of_nat (length l)
    /\ forall s, h_cur h = Some s -> exists s', h_cur h' = Some s' /\ (s' = s \/ Generation s < Generation s')).
  { induction l as [|src l IH]; intros h Hl Hb; cbn [foldl length] in *.
    - split; [done|]. split; [lia|]. intros s' Hs'. exists s'. auto.
    - destruct (Rebuild_step src h) as (H1 & H2 & H3); [done|lia|].
      destruct (IH (Rebuild src h).1) as (H4 & H5 & H6); [done|lia|].
      split; [done|]. split; [lia|]. intros s0 Hs0.
      destruct (H3 s0 Hs0) as (s1 & Hs1 & D1). destruct (H6 s1 Hs1) as (s2 & Hs2 & D2).
      exists s2. split; [done|]. destruct D1 as [->|D1], D2 as [->|D2]; auto; right; lia. }
  destruct (Hinv before holder0) as (I1 & I2 & _); [split; [done|by intros] |simpl; lia|].
  destruct (Hinv after (foldl (fun h src => (Rebuild src h).1) holder0 before)) as (_ & _ & I3);
    [done | simpl in I2; lia |].
  intros Hs. by apply I3.
Qed.

Lemma live_snapshot_monotone_witness :
  exists s s', Current (run_rebuilds [Ok ex_input; Err tt] holder0) = Some s
    /\ Current (run_rebuilds ([Ok ex_input; Err tt] ++ [Ok ex_input]) holder0) = Some s'
    /\ (s' = s \/ Generation s < Generation s').
Proof.
  destruct (Current (run_rebuilds [Ok ex_input; Err tt] holder0)) as [s|] eqn:E;
    [|vm_compute in E; discriminate].
  destruct (live_snapshot_monotone [Ok ex_input; Err tt] [Ok ex_input] s) as (s' & H1 & H2);
    [reflexivity | exact E |].
  exists s, s'. split; [reflexivity|]. split; [exact H1 | exact H2].
Defined.

(** two overlapping rebuilds can publish in the wrong order: a goroutine that
    read the registry first and stores last replaces a newer snapshot with an
    older one, so the serial clients see goes down and the served data is the
    registry's content from before the last write. *)
Theorem overlapping_rebuilds_go_backwards :
  exists src new w1 w2,
    rtc rb_step (world0 src) w1 /\ rb_step w1 w2
    /\ w_src w1 = new /\ live_generation w1 = Some 2 /\ live_generation w2 = Some 1
    /\ live_lookup w1 "" "a.lan." = [mkRR "a.lan." "A" "10.0.0.2"]
    /\ live_lookup w2 "" "a.lan." = [mkRR "a.lan." "A" "10.0.0.1"].
Proof.
  set (inp := fun ip => mkInput [] [] [mkRecord 1 "a.lan." "A" ip ""] [] "lan." [] 0).
  exists (inp "10.0.0.1"), (inp "10.0.0.2"). eexists. eexists. split.
  - eapply rtc_l; [apply (rb_fetch _ 1%nat); reflexivity|].
    eapply rtc_l; [eapply (rb_reserve _ 1%nat); vm_compute; reflexivity|].
    eapply rtc_l; [apply (rb_write _ (inp "10.0.0.2"))|].
    eapply rtc_l; [apply (rb_fetch _ 2%nat); reflexivity|].
    eapply rtc_l; [eapply (rb_reserve _ 2%nat); vm_compute; reflexivity|].
    eapply rtc_l; [eapply (rb_publish _ 2%nat); vm_compute; reflexivity|].
    apply rtc_refl.
  - split; [eapply (rb_publish _ 1%nat); vm_compute; reflexivity|].
    split; [reflexivity|]. vm_compute. auto.
Qed.
