(* ===== verification/PolicyName.v ===== *)
(** * Domain names of the block policy: [internal/policy/normalize.go], [set.go]

    [Normalize] produces the canonical form that rules, lists and queries are
    compared in; [Set.Match] is the suffix match on that form.
    [golang.org/x/net/idna] is a parameter: [toASCII n] is
    [idna.Lookup.ToASCII(n)], [None] being its error. *)
From S2P Require Import Prelude GoStr NetIP.

Definition maxName : Z := 253.
Definition maxLabel : Z := 63.

Definition ldh (c : ascii) : bool := is_lower c || is_digit c || bool_decide (c = "-"%char).
Definition validLabel (s : string) : bool :=
  let l := bytes s in
  negb (bool_decide (s = "") || (maxLabel <? len s))
  && negb (bool_decide (head l = Some "-"%char) || bool_decide (last l = Some "-"%char))
  && forallb ldh l.

Section Normalize.
Context (toASCII : string -> option string).

(** [None] is [errNotADomain], the only error there is. *)
Definition Normalize (name : string) : option string :=
  let n := TrimSuffix (ToLower (TrimSpace name)) "." in
  if bool_decide (n = "") then None
  else match ParseAddr n with
  | Some _ => None
  | None =>
      match toASCII n with
      | None => None
      | Some n =>
          if (maxName <? len n) || negb (Contains n ".") then None
          else if forallb validLabel (Split n ".") then Some n else None
      end
  end.
End Normalize.

(** ** set.go *)
Definition NewSet (domains : list string) : gset string := list_to_set domains.

(** The walk of [Match]: test the name, then cut it after its next dot.  The
    name gets shorter at every turn, so its length is enough fuel. *)
Fixpoint match_walk (m : gset string) (fuel : nat) (l : list ascii) : bool :=
  if bool_decide (str l ∈ m) then true
  else match cut_byte "."%char l with
  | None => false
  | Some (_, rest) => match fuel with O => false | S f => match_walk m f rest end
  end.
Definition SetMatch (m : gset string) (name : string) : bool :=
  if bool_decide (m = ∅) then false else match_walk m (length (bytes name)) (bytes name).
Definition SetLen (m : gset string) : nat := size m.

(** ** The suffix relation *)
(** [sub_of n d]: [n] is [d] or a subdomain of it. *)
Definition sub_of (n d : string) : Prop := n = d \/ exists p, n = p +:+ "." +:+ d.

Lemma sub_of_bytes n d :
  sub_of n d <-> bytes n = bytes d \/ exists p, bytes n = p ++ "."%char :: bytes d.
Proof.
  unfold sub_of. split; (intros [H|[p H]]; [left|right]).
  - by rewrite H.
  - exists (bytes p). by rewrite H, !bytes_app.
  - by apply (inj bytes).
  - exists (str p). apply (inj bytes). by rewrite !bytes_app, bytes_str.
Qed.

Lemma match_walk_spec m fuel : forall l, (length l <= fuel)%nat ->
  match_walk m fuel l = true <-> exists d, d ∈ m /\ (l = bytes d \/ exists p, l = p ++ "."%char :: bytes d).
Proof.
  induction fuel as [|fuel IH]; intros l Hl; simpl;
    (case_bool_decide as Hin; [split; [intros _; exists (str l); rewrite bytes_str; auto | done]|]);
    (assert (Hno : forall d, d ∈ m -> l <> bytes d) by (intros d Hd ->; by rewrite str_bytes in Hin)).
  - destruct l; [|simpl in Hl; lia]. simpl. split; [done|].
    intros (d & Hd & [?|[p H]]); [by edestruct Hno|]. by destruct p.
  - destruct (cut_byte "." l) as [[a b]|] eqn:E.
    + apply cut_byte_some in E as [-> Ha]. rewrite length_app in Hl. simpl in Hl.
      rewrite IH by lia. split; intros (d & Hd & H); exists d; (split; [done|]).
      * right. destruct H as [->|[p ->]]; [by exists a|]. exists (a ++ "."%char :: p).
        by rewrite <- app_assoc.
      * destruct H as [H|[p H]]; [by edestruct Hno|].
        apply app_eq_inv in H as [(k & -> & H)|(k & -> & H)];
          destruct k as [|c k]; simpl in H; injection H as H.
        -- by left.
        -- exfalso. apply Ha. subst c. apply elem_of_app. right. by left.
        -- by left.
        -- right. by exists k.
    + apply cut_byte_none in E. split; [done|]. intros (d & Hd & [?|[p ->]]); [by edestruct Hno|].
      exfalso. apply E. apply elem_of_app. right. by left.
Qed.

(** a set matches a name exactly when the set holds the name itself or a
    domain the name is a subdomain of, cutting only at label boundaries; in
    particular the walk always terminates with the answer. *)
Theorem set_match_label_boundary domains name :
  SetMatch (NewSet domains) name = true <-> exists d, d ∈ domains /\ sub_of name d.
Proof.
  unfold SetMatch, NewSet. case_bool_decide as E.
  - split; [done|]. intros (d & Hd & _). exfalso.
    apply (elem_of_list_to_set (C := gset string)) in Hd. set_solver.
  - rewrite match_walk_spec by done. setoid_rewrite sub_of_bytes.
    by setoid_rewrite elem_of_list_to_set.
Qed.

(** ** Normal forms *)
Definition normal_name (n : string) : Prop :=
  len n <= maxName /\ Contains n "." = true /\ forallb validLabel (Split n ".") = true.

Lemma Normalize_spec toASCII name n :
  Normalize toASCII name = Some n ->
  normal_name n /\ let t := TrimSuffix (ToLower (TrimSpace name)) "." in
    t <> "" /\ ParseAddr t = None /\ toASCII t = Some n.
Proof.
  unfold Normalize. case_bool_decide as Hne; [done|].
  destruct (ParseAddr _) eqn:Ea; [done|]. destruct (toASCII _) as [m|] eqn:Et; [|done].
  destruct (_ || _)%bool eqn:E; [done|]. destruct (forallb _ _) eqn:Ef; [|done].
  intros [= <-]. bool_to_prop. by repeat split.
Qed.

Lemma ldh_char c : ldh c = true -> lower_char c = c /\ is_space c = false /\ c <> "."%char.
Proof. destruct c as [[][][][][][][][]]; vm_compute; try done; intros _; repeat split; congruence. Qed.

Lemma validLabel_chars s c : validLabel s = true -> c ∈ bytes s -> ldh c = true.
Proof.
  unfold validLabel. intros H Hc. bool_to_prop. rewrite forallb_forall in *.
  match goal with H : forall _, _ |- _ => apply H end. by apply list_elem_of_In.
Qed.

Lemma normal_chars n c : normal_name n -> c ∈ bytes n -> ldh c = true \/ c = "."%char.
Proof.
  intros (_ & _ & Hf) Hc. rewrite <- (Join_Split n ".") in Hc.
  revert Hf Hc. generalize (Split n "."). intros ls Hf.
  induction ls as [|s ls IH]; [by intros ?%not_elem_of_nil|].
  simpl in Hf. apply andb_true_iff in Hf as [Hs Hls].
  destruct ls as [|s' ls]; simpl.
  - intros Hc. left. by eapply validLabel_chars.
  - rewrite !bytes_app, !elem_of_app. intros [Hc|[Hc|Hc]].
    + left. by eapply validLabel_chars.
    + right. by apply list_elem_of_singleton in Hc.
    + by apply IH.
Qed.

Lemma normal_lower n : normal_name n -> ToLower n = n.
Proof.
  intros Hn. apply (inj bytes). rewrite bytes_ToLower. apply fmap_id_ext. intros c Hc.
  destruct (normal_chars n c Hn Hc) as [H| ->]; [by apply ldh_char in H as (? & _) | done].
Qed.

Lemma normal_no_dot n : normal_name n -> HasSuffix n "." = false.
Proof.
  intros (_ & _ & Hf). apply not_true_is_false. intros (r & Hr)%HasSuffix_spec.
  rewrite Hr in Hf. unfold Split in Hf. rewrite bytes_app in Hf.
  change (bytes ".") with ("."%char :: []) in Hf.
  rewrite split_by_app, fmap_app, forallb_app in Hf by done.
  by apply andb_true_iff in Hf as [_ ?].
Qed.

Lemma normal_fixed n : normal_name n -> TrimSuffix (ToLower (TrimSpace n)) "." = n.
Proof.
  intros Hn. rewrite TrimSpace_no_space.
  - rewrite normal_lower by done. by apply TrimSuffix_no, normal_no_dot.
  - apply Forall_forall. intros c Hc.
    destruct (normal_chars n c Hn Hc) as [H| ->]; [by apply ldh_char in H as (_ & ? & _) | done].
Qed.

(** whatever the IDNA library answers, a name that [Normalize] accepts has
    at most 253 bytes, at least two labels, each of 1 to 63 lower-case letters,
    digits and inner hyphens, and no trailing dot; and if it is not an IP
    literal and IDNA leaves it alone, normalizing it again gives it back. *)
Theorem normalize_canonical toASCII name n :
  Normalize toASCII name = Some n ->
  len n <= 253
  /\ (2 <= length (Split n "."))%nat
  /\ (forall s, s ∈ Split n "." -> validLabel s = true)
  /\ HasSuffix n "." = false
  /\ ToLower n = n
  /\ (ParseAddr n = None -> toASCII n = Some n -> Normalize toASCII n = Some n).
Proof.
  intros H. apply Normalize_spec in H as [Hn _]. pose proof (normal_fixed n Hn) as Hfix.
  pose proof Hn as (Hlen & Hdot & Hlab). split; [done|].
  split; [|split; [|split; [by apply normal_no_dot|split; [by apply normal_lower|]]]].
  - by apply Split_two, containsb_single.
  - intros s Hs. rewrite forallb_forall in Hlab. by apply Hlab, list_elem_of_In.
  - intros Hip Hid. unfold Normalize. rewrite Hfix, Hip, Hid.
    case_bool_decide as E; [by rewrite E in Hdot|].
    rewrite Hdot, Hlab. simpl. destruct (Z.ltb_spec maxName (len n)); [|done]. unfold maxName in *. lia.
Qed.

(** A concrete IDNA for examples: plain ASCII names are left alone. *)
Definition ascii_idna (s : string) : option string :=
  if forallb (fun c => code c <? 128) (bytes s) then Some s else None.

Lemma normalize_canonical_witness :
  Normalize ascii_idna " Ads.Example.COM. " = Some "ads.example.com"
  /\ HasSuffix "ads.example.com" "." = false
  /\ Normalize ascii_idna "ads.example.com" = Some "ads.example.com".
Proof.
  destruct (normalize_canonical ascii_idna " Ads.Example.COM. " "ads.example.com")
    as (_ & _ & _ & H1 & _ & H2); [vm_compute; reflexivity|].
  split; [vm_compute; reflexivity|]. split; [exact H1|].
  apply H2; vm_compute; reflexivity.
Defined.
