(* ===== verification/PolicyParse.v ===== *)
(** * Block-list bodies: [internal/policy/parse.go]

    The reader is [bufio.Reader] over the downloaded bytes: [ReadSlice] with a
    fixed buffer, so a line longer than the buffer is reported once and
    discarded.  The buffer size is an argument of the definitions; the program
    uses [maxLineBytes].  The in-memory reader fails with nothing but EOF. *)
From S2P Require Import Prelude GoStr NetIP PolicyName.

Definition FormatDomains : string := "domains".
Definition FormatHosts : string := "hosts".
Definition FormatAdblock : string := "adblock".
Definition maxEntries : Z := 2 ^ 21.
Definition maxLineBytes : Z := 4096.

Definition localNames : gset string :=
  list_to_set ["localhost"; "localhost.localdomain"; "local"; "broadcasthost"; "ip6-localhost";
    "ip6-loopback"; "ip6-localnet"; "ip6-mcastprefix"; "ip6-allnodes"; "ip6-allrouters"; "ip6-allhosts"].

Definition ValidFormat (f : string) : bool :=
  bool_decide (f = FormatDomains) || bool_decide (f = FormatHosts) || bool_decide (f = FormatAdblock).

Record ParseResult := mkParseResult { Domains : list string; Skipped : Z }.
Inductive parse_error := UnknownFormat (f : string) | EntryCeiling.

(** [None] is the [false] of the code: the format cannot represent the line. *)
Definition lineDomains (line format : string) : option (list string) :=
  if bool_decide (format = FormatDomains) then
    if ContainsAny line (str [" "%char; chr 9; "/"%char]) then None else Some [line]
  else if bool_decide (format = FormatHosts) then
    let fields := Fields line in
    if (length fields <? 2)%nat then None else Some (tail fields)
  else if bool_decide (format = FormatAdblock) then
    if negb (HasPrefix line "||") || ContainsAny line "$/*#@" then None
    else let rule := TrimSuffix (TrimPrefix line "||") "^" in
      if bool_decide (rule = "") || Contains rule "^" then None else Some [rule]
  else None.

(** ** bufio.Reader.ReadSlice('\n') *)
Inductive rd_status := RdOk | RdFull | RdEOF.
Definition nl : ascii := chr 10.
Definition ReadSlice (lim : nat) (l : list ascii) : list ascii * list ascii * rd_status :=
  match cut_byte nl (take lim l) with
  | Some (a, _) => (a ++ [nl], drop (S (length a)) l, RdOk)
  | None => if (lim <=? length l)%nat then (take lim l, drop lim l, RdFull) else (l, [], RdEOF)
  end.

(** Reading on until the oversized line is over. *)
Fixpoint discard (lim fuel : nat) (l : list ascii) : list ascii * rd_status :=
  match ReadSlice lim l with
  | (_, rest, RdFull) => match fuel with O => (rest, RdFull) | S f => discard lim f rest end
  | (_, rest, st) => (rest, st)
  end.

Section Parse.
Context (toASCII : string -> option string) (lim : nat) (format : string) (max : Z).

Definition keep_name (name : string) : option string :=
  match Normalize toASCII name with
  | Some n => if bool_decide (n ∈ localNames) then None else Some n
  | None => None
  end.

Definition PState : Type := gset string * Z.

Definition add_name (seen : gset string) (n : string) : result parse_error (gset string) :=
  if bool_decide (n ∈ seen) then Ok seen
  else let seen' := {[n]} ∪ seen in
    if max <? Z.of_nat (size seen') then Err EntryCeiling else Ok seen'.

(** One line that fits the buffer. *)
Definition parse_line (st : PState) (raw : list ascii) : result parse_error PState :=
  let line := str (trim_space raw) in
  if bool_decide (line = "") || HasPrefix line "#" || HasPrefix line "!" then Ok st
  else match lineDomains line format with
  | None | Some [] => Ok (st.1, st.2 + 1)
  | Some names =>
      let kept := omap keep_name names in
      seen <-? foldR add_name st.1 kept ;;
      Ok (seen, if bool_decide (kept = []) then st.2 + 1 else st.2)
  end.

(** The read loop; [None] would mean that the fuel ran out. *)
Fixpoint parse_loop (fuel : nat) (st : PState) (l : list ascii) : option (result parse_error PState) :=
  match fuel with
  | O => None
  | S f =>
      match ReadSlice lim l with
      | (_, rest, RdFull) =>
          let st := (st.1, st.2 + 1) in
          match discard lim (length rest) rest with
          | (_, RdEOF) => Some (Ok st)
          | (rest, _) => parse_loop f st rest
          end
      | (raw, rest, s) =>
          match parse_line st raw with
          | Err e => Some (Err e)
          | Ok st => match s with RdEOF => Some (Ok st) | _ => parse_loop f st rest end
          end
      end
  end.

Definition parseLimit (body : list ascii) : option (result parse_error ParseResult) :=
  if negb (ValidFormat format) then Some (Err (UnknownFormat format))
  else match parse_loop (S (length body)) (∅, 0) body with
  | None => None
  | Some (Err e) => Some (Err e)
  | Some (Ok (seen, skipped)) => Some (Ok (mkParseResult (merge_sort str_le (elements seen)) skipped))
  end.
End Parse.

Definition Parse (toASCII : string -> option string) (body : list ascii) (format : string) :=
  parseLimit toASCII (Z.to_nat maxLineBytes) format maxEntries body.

(** ** What a body means: its lines *)
Definition body_lines (body : list ascii) : list (list ascii) := split_by (is_byte nl) body.

(** The names one line contributes. *)
Definition line_names (toASCII : string -> option string) (lim : nat) (format : string) (seg : list ascii)
    : list string :=
  let line := str (trim_space seg) in
  if (lim <=? length seg)%nat then []
  else if bool_decide (line = "") || HasPrefix line "#" || HasPrefix line "!" then []
  else match lineDomains line format with None => [] | Some names => omap (keep_name toASCII) names end.
(** Whether the line is counted as skipped: it is not blank, not a comment, and
    contributes nothing. *)
Definition line_skipped (toASCII : string -> option string) (lim : nat) (format : string) (seg : list ascii)
    : bool :=
  let line := str (trim_space seg) in
  if (lim <=? length seg)%nat then true
  else if bool_decide (line = "") || HasPrefix line "#" || HasPrefix line "!" then false
  else bool_decide (line_names toASCII lim format seg = []).

(** ** The reader follows the lines *)
Lemma cut_byte_take c n l a b :
  cut_byte c l = Some (a, b) ->
  cut_byte c (take n l) = (if (length a <? n)%nat then Some (a, take (n - S (length a)) b) else None).
Proof.
  intros [-> Ha]%cut_byte_some. destruct (Nat.ltb_spec (length a) n) as [H|H].
  - apply cut_byte_some. split; [|done].
    rewrite take_app_ge by lia. replace (n - length a)%nat with (S (n - S (length a)))%nat by lia. done.
  - apply cut_byte_none. rewrite take_app_le by lia. intros Hc. apply Ha.
    rewrite <- (take_drop n a). apply elem_of_app. by left.
Qed.

Lemma cut_byte_drop c n l a b :
  cut_byte c l = Some (a, b) -> (n <= length a)%nat -> cut_byte c (drop n l) = Some (drop n a, b).
Proof.
  intros [-> Ha]%cut_byte_some Hn. apply cut_byte_some. split; [by rewrite drop_app_le|].
  intros Hc. apply Ha. rewrite <- (take_drop n a). apply elem_of_app. by right.
Qed.

Lemma cut_byte_none_sub c l k : cut_byte c l = None -> k `sublist_of` l -> cut_byte c k = None.
Proof.
  rewrite !cut_byte_none. intros Hn Hk Hc. apply Hn. by eapply elem_of_sublist.
Qed.

Lemma split_by_cut l : split_by (is_byte nl) l =
  match cut_byte nl l with Some (a, b) => a :: split_by (is_byte nl) b | None => [l] end.
Proof.
  destruct (cut_byte nl l) as [[a b]|] eqn:E.
  - apply cut_byte_some in E as [-> Ha]. rewrite split_by_app by (unfold is_byte; by rewrite bool_decide_eq_true_2).
    rewrite split_by_none; [done|]. apply Forall_forall. intros c Hc. unfold is_byte.
    apply bool_decide_eq_false_2. by intros ->.
  - apply cut_byte_none in E. apply split_by_none, Forall_forall. intros c Hc. unfold is_byte.
    apply bool_decide_eq_false_2. by intros ->.
Qed.

Lemma ReadSlice_spec lim l : ReadSlice lim l =
  match cut_byte nl l with
  | Some (a, b) => if (length a <? lim)%nat then (a ++ [nl], b, RdOk) else (take lim l, drop lim l, RdFull)
  | None => if (length l <? lim)%nat then (l, [], RdEOF) else (take lim l, drop lim l, RdFull)
  end.
Proof.
  unfold ReadSlice. destruct (cut_byte nl l) as [[a b]|] eqn:E.
  - rewrite (cut_byte_take _ _ _ _ _ E). apply cut_byte_some in E as [-> Ha].
    destruct (Nat.ltb_spec (length a) lim) as [H|H].
    + f_equal. f_equal. rewrite drop_app_ge by lia. by replace (S (length a) - length a)%nat with 1%nat by lia.
    + rewrite (proj2 (Nat.leb_le _ _)); [done|]. rewrite length_app. simpl. lia.
  - rewrite (cut_byte_none_sub _ _ _ E) by apply sublist_take.
    destruct (Nat.leb_spec lim (length l)), (Nat.ltb_spec (length l) lim); done || lia.
Qed.

Lemma discard_spec lim fuel : forall l, (0 < lim)%nat -> (length l <= fuel)%nat ->
  discard lim fuel l =
  match cut_byte nl l with Some (_, b) => (b, RdOk) | None => ([], RdEOF) end.
Proof.
  induction fuel as [|fuel IH]; intros l Hlim Hl; simpl; rewrite ReadSlice_spec.
  - destruct l; [|simpl in Hl; lia]. simpl. by rewrite (proj2 (Nat.ltb_lt _ _)).
  - destruct (cut_byte nl l) as [[a b]|] eqn:E.
    + destruct (Nat.ltb_spec (length a) lim) as [H|H]; [done|].
      rewrite IH; [|done|rewrite length_drop; lia]. by rewrite (cut_byte_drop _ _ _ _ _ E).
    + destruct (Nat.ltb_spec (length l) lim) as [H|H]; [done|].
      rewrite IH; [|done|rewrite length_drop; lia].
      by rewrite (cut_byte_none_sub _ _ _ E) by apply sublist_drop.
Qed.

Lemma drop_space_snoc a x : is_space x = true ->
  drop_space (a ++ [x]) = match drop_space a with [] => [] | d => d ++ [x] end.
Proof.
  intros Hx. induction a as [|c a IH]; simpl; [by rewrite Hx|].
  destruct (is_space c); [apply IH | done].
Qed.

Lemma trim_space_nl a : trim_space (a ++ [nl]) = trim_space a.
Proof.
  unfold trim_space. rewrite drop_space_snoc by done.
  destruct (drop_space a) as [|c d]; [done|]. by rewrite rev_app_distr.
Qed.

Section spec.
Context (toASCII : string -> option string) (lim : nat) (format : string) (max : Z).
Hypothesis lim_pos : (0 < lim)%nat.

Definition parse_seg (st : PState) (seg : list ascii) : result parse_error PState :=
  if (lim <=? length seg)%nat then Ok (st.1, st.2 + 1) else parse_line toASCII format max st seg.

Lemma parse_line_nl st a : parse_line toASCII format max st (a ++ [nl]) = parse_line toASCII format max st a.
Proof. unfold parse_line. by rewrite trim_space_nl. Qed.

Lemma parse_loop_spec fuel : forall st l, (length l < fuel)%nat ->
  parse_loop toASCII lim format max fuel st l = Some (foldR parse_seg st (body_lines l)).
Proof.
  induction fuel as [|fuel IH]; intros st l Hl; [lia|].
  cbn [parse_loop]. rewrite ReadSlice_spec. unfold body_lines. rewrite split_by_cut.
  destruct (cut_byte nl l) as [[a b]|] eqn:E; cbn [foldR]; unfold parse_seg at 1.
  - assert (Hb : (length b < length l)%nat).
    { apply cut_byte_some in E as [-> _]. rewrite length_app. simpl. lia. }
    destruct (Nat.ltb_spec (length a) lim) as [H|H].
    + rewrite (proj2 (Nat.leb_gt _ _)) by done. rewrite parse_line_nl.
      destruct (parse_line _ _ _ st a) as [st'|e]; simpl; [|done]. apply IH. lia.
    + rewrite (proj2 (Nat.leb_le _ _)) by done. simpl.
      rewrite discard_spec by (lia || done). rewrite (cut_byte_drop _ _ _ _ _ E) by done.
      apply IH. lia.
  - destruct (Nat.ltb_spec (length l) lim) as [H|H].
    + rewrite (proj2 (Nat.leb_gt _ _)) by done. by destruct (parse_line _ _ _ st l).
    + rewrite (proj2 (Nat.leb_le _ _)) by done. simpl.
      rewrite discard_spec by (lia || done).
      by rewrite (cut_byte_none_sub _ _ _ E) by apply sublist_drop.
Qed.

Lemma size_add n (s : gset string) : (size s <= size ({[n]} ∪ s))%nat.
Proof. apply subseteq_size. set_solver. Qed.

Lemma add_names_spec ns : forall seen : gset string,
  Z.of_nat (size seen) <= max ->
  foldR (add_name max) seen ns =
  (if max <? Z.of_nat (size (seen ∪ list_to_set ns)) then Err EntryCeiling else Ok (seen ∪ list_to_set ns)).
Proof.
  induction ns as [|n ns IH]; intros seen Hs; simpl.
  - rewrite (right_id_L ∅ (∪)). by rewrite (proj2 (Z.ltb_ge _ _)).
  - unfold add_name at 1. case_bool_decide as Hin; cbn [rbind].
    + rewrite IH by done. by replace (seen ∪ ({[n]} ∪ list_to_set ns)) with (seen ∪ list_to_set ns : gset string) by set_solver.
    + destruct (Z.ltb_spec max (Z.of_nat (size ({[n]} ∪ seen)))) as [H|H]; simpl.
      * rewrite (proj2 (Z.ltb_lt _ _)); [done|]. eapply Z.lt_le_trans; [exact H|].
        apply inj_le, subseteq_size. set_solver.
      * rewrite IH by done.
        by replace (seen ∪ ({[n]} ∪ list_to_set ns)) with ({[n]} ∪ seen ∪ list_to_set ns : gset string) by set_solver.
Qed.

Lemma parse_seg_spec st seg :
  Z.of_nat (size st.1) <= max ->
  let ns := line_names toASCII lim format seg in
  parse_seg st seg =
  (if max <? Z.of_nat (size (st.1 ∪ list_to_set ns)) then Err EntryCeiling
   else Ok (st.1 ∪ list_to_set ns, st.2 + Z.b2z (line_skipped toASCII lim format seg))).
Proof.
  intros Hs. unfold parse_seg, line_skipped, line_names, parse_line. destruct st as [seen k]; simpl in Hs |- *.
  destruct (lim <=? length seg)%nat.
  { simpl. rewrite (right_id_L ∅ (∪)). by rewrite (proj2 (Z.ltb_ge _ _)). }
  destruct (_ || _)%bool; simpl.
  { rewrite (right_id_L ∅ (∪)), Z.add_0_r. by rewrite (proj2 (Z.ltb_ge _ _)). }
  destruct (lineDomains _ _) as [[|n ns]|]; simpl;
    [by rewrite (right_id_L ∅ (∪)), (proj2 (Z.ltb_ge _ _)) by done | |
     by rewrite (right_id_L ∅ (∪)), (proj2 (Z.ltb_ge _ _)) by done].
  rewrite add_names_spec by done. simpl. destruct (_ <? _); simpl; [done|].
  case_bool_decide; simpl; by rewrite ?Z.add_0_r.
Qed.

Definition all_names (segs : list (list ascii)) : gset string :=
  list_to_set (segs ≫= line_names toASCII lim format).
Definition skipped_count (segs : list (list ascii)) : Z :=
  Z.of_nat (length (filter (fun seg => line_skipped toASCII lim format seg = true) segs)).

Lemma parse_segs_spec segs : forall st,
  Z.of_nat (size st.1) <= max ->
  foldR parse_seg st segs =
  (if max <? Z.of_nat (size (st.1 ∪ all_names segs)) then Err EntryCeiling
   else Ok (st.1 ∪ all_names segs, st.2 + skipped_count segs)).
Proof.
  unfold all_names, skipped_count.
  induction segs as [|seg segs IH]; intros [seen k] Hs; cbn [foldR fst snd] in *.
  - simpl. rewrite (right_id_L ∅ (∪)). rewrite (proj2 (Z.ltb_ge _ _)) by done. by rewrite Z.add_0_r.
  - rewrite parse_seg_spec by done. cbn [fst snd].
    rewrite bind_cons, list_to_set_app_L, (assoc_L (∪)).
    destruct (Z.ltb_spec max (Z.of_nat (size (seen ∪ list_to_set (line_names toASCII lim format seg))))) as [H|H]; cbn [rbind].
    + rewrite (proj2 (Z.ltb_lt _ _)); [done|]. eapply Z.lt_le_trans; [exact H|].
      apply inj_le, subseteq_size. set_solver.
    + rewrite IH by done. cbn [fst snd]. destruct (_ <? _); [done|].
      rewrite filter_cons.
      destruct (decide _) as [Es|Es%not_true_is_false]; rewrite Es; cbn [length Z.b2z]; f_equal; f_equal; lia.
Qed.

Lemma parseLimit_spec body :
  0 <= max ->
  parseLimit toASCII lim format max body = Some (
    if negb (ValidFormat format) then Err (UnknownFormat format)
    else if max <? Z.of_nat (size (all_names (body_lines body))) then Err EntryCeiling
    else Ok (mkParseResult (merge_sort str_le (elements (all_names (body_lines body))))
               (skipped_count (body_lines body)))).
Proof.
  intros Hmax. unfold parseLimit. destruct (negb _); [done|].
  rewrite parse_loop_spec by lia. rewrite parse_segs_spec by done. cbn [fst snd].
  rewrite (left_id_L ∅ (∪)). by destruct (_ <? _).
Qed.
End spec.

Lemma merge_sort_str_elements (s : gset string) :
  StronglySorted str_le (merge_sort str_le (elements s)) /\ NoDup (merge_sort str_le (elements s))
  /\ length (merge_sort str_le (elements s)) = size s
  /\ forall n, n ∈ merge_sort str_le (elements s) <-> n ∈ s.
Proof.
  pose proof (merge_sort_Permutation str_le (elements s)) as Hp.
  split; [apply (StronglySorted_merge_sort str_le)|].
  split; [rewrite Hp; apply NoDup_elements|].
  split; [by rewrite Hp|]. intros n. by rewrite Hp, elem_of_elements.
Qed.

(** parsing a list body always ends, and it either fails because the format
    is unknown or because the body names more distinct domains than the ceiling
    allows, or returns exactly the distinct usable domains of its lines, sorted
    and without duplicates, each in normal form and none of them a local host
    name, together with the number of lines that contributed nothing. *)
Theorem parse_body toASCII lim format max body :
  (0 < lim)%nat -> 0 <= max ->
  exists r, parseLimit toASCII lim format max body = Some r
  /\ match r with
     | Err (UnknownFormat f) => f = format /\ ValidFormat format = false
     | Err EntryCeiling => ValidFormat format = true
         /\ max < Z.of_nat (size (all_names toASCII lim format (body_lines body)))
     | Ok res => ValidFormat format = true /\ Z.of_nat (length (Domains res)) <= max
         /\ StronglySorted str_le (Domains res) /\ NoDup (Domains res)
         /\ Skipped res = skipped_count toASCII lim format (body_lines body)
         /\ forall n, n ∈ Domains res <->
              exists seg name, seg ∈ body_lines body /\ (length seg < lim)%nat
                /\ n ∈ line_names toASCII lim format seg /\ Normalize toASCII name = Some n /\ n ∉ localNames
     end.
Proof.
  intros Hlim Hmax. rewrite parseLimit_spec by done. eexists. split; [reflexivity|].
  destruct (ValidFormat format) eqn:Ev; simpl; [|done].
  destruct (Z.ltb_spec max (Z.of_nat (size (all_names toASCII lim format (body_lines body))))) as [H|H]; [done|].
  destruct (merge_sort_str_elements (all_names toASCII lim format (body_lines body))) as (H1 & H2 & H3 & H4).
  simpl. split; [done|]. split; [lia|]. split; [done|]. split; [done|]. split; [done|].
  intros n. rewrite H4. unfold all_names. rewrite elem_of_list_to_set, list_elem_of_bind. split.
  - intros (seg & Hn & Hseg). exists seg.
    pose proof Hn as Hn'. unfold line_names in Hn.
    destruct (Nat.leb_spec lim (length seg)); [by apply not_elem_of_nil in Hn|].
    destruct (_ || _)%bool; [by apply not_elem_of_nil in Hn|].
    destruct (lineDomains _ _) as [names|]; [|by apply not_elem_of_nil in Hn].
    apply list_elem_of_omap in Hn as (name & _ & Hk). exists name. unfold keep_name in Hk.
    destruct (Normalize toASCII name); [|done]. case_bool_decide; [done|]. injection Hk as ->. done.
  - intros (seg & name & Hs & _ & Hn & _). by exists seg.
Qed.

Definition ex_body : list ascii :=
  bytes "# comment" ++ [nl] ++ bytes "0.0.0.0 Ads.example.com localhost" ++ [nl]
  ++ bytes "a-line-that-is-too-long-for-the-small-reader.example" ++ [nl] ++ bytes "0.0.0.0 t.example.com".

Lemma parse_body_witness :
  parseLimit ascii_idna 40 "hosts" 5 ex_body
    = Some (Ok (mkParseResult ["ads.example.com"; "t.example.com"] 1))
  /\ exists r, parseLimit ascii_idna 40 "hosts" 5 ex_body = Some r.
Proof.
  split; [vm_compute; reflexivity|].
  destruct (parse_body ascii_idna 40 "hosts" 5 ex_body) as (r & H & _); [lia|lia|].
  exists r. exact H.
Defined.
