(* ===== verification/Policy.v ===== *)
(** * The block policy: [internal/policy/snapshot.go], [holder.go]

    The immutable policy snapshot with its precedence, the live holder with its
    block counters, and [Rebuild] cut at its atomic steps under [rebuildMu]. *)
From S2P Require Import Prelude GoStr NetIP Model PolicyName.

Definition PolicyForwarded : string := "forwarded".
Definition PolicyAllow : string := "allow".
Definition PolicyDeny : string := "deny".
Definition defaultBlockTTL : Z := 60.

Record Decision := mkDecision { Blocked : bool; d_Policy : string; d_TTL : Z; d_Name : string }.

Record Snapshot := mkSnapshot {
  enabled : bool; ttl : Z; deny : gset string; allow : gset string; lists : list (string * gset string) }.

Definition Build (set : BlacklistSettings) (ls : list BlacklistList) (rules : list BlacklistRule) : Snapshot :=
  let t := if bs_BlockTTL set <=? 0 then defaultBlockTTL else bs_BlockTTL set in
  let of_kind k := br_Domain <$> filter (fun r => br_Kind r = k) rules in
  mkSnapshot (bs_Enabled set) (u32w t) (NewSet (of_kind PolicyDeny)) (NewSet (of_kind PolicyAllow))
    (omap (fun l => if negb (bl_Enabled l) || bool_decide (bl_Snapshot l = []) then None
                    else Some (bl_Name l, NewSet (bl_Snapshot l))) ls).

Section Decide.
Context (toASCII : string -> option string).

Definition Decide (s : option Snapshot) (name : string) : Decision :=
  match s with
  | None => mkDecision false PolicyForwarded 0 ""
  | Some s =>
      if negb (enabled s) then mkDecision false PolicyForwarded 0 ""
      else match Normalize toASCII name with
      | None => mkDecision false PolicyForwarded 0 ""
      | Some n =>
          if SetMatch (deny s) n then mkDecision true PolicyDeny (ttl s) n
          else if SetMatch (allow s) n then mkDecision false PolicyAllow 0 n
          else match List.find (fun l => SetMatch l.2 n) (lists s) with
          | Some l => mkDecision true l.1 (ttl s) n
          | None => mkDecision false PolicyForwarded 0 n
          end
      end
  end.

(** ** holder.go *)
Definition maxTrackedNames : Z := 2000.

Record Holder := mkHolder {
  cur : option Snapshot; blocked : Z; byList : gmap string Z; byName : gmap string Z }.
Definition NewHolder : Holder := mkHolder None 0 ∅ ∅.

Definition incr (m : gmap string Z) (k : string) : gmap string Z :=
  <[k := u64w (default 0 (m !! k) + 1)]> m.

Definition HolderDecide (h : Holder) (name : string) : Holder * (bool * string * Z) :=
  let d := Decide (cur h) name in
  (if Blocked d then
     mkHolder (cur h) (u64w (blocked h + 1)) (incr (byList h) (d_Policy d))
       (if bool_decide (is_Some (byName h !! d_Name d)) || (Z.of_nat (size (byName h)) <? maxTrackedNames)
        then incr (byName h) (d_Name d) else byName h)
   else h,
   (Blocked d, d_Policy d, d_TTL d)).

(** [src] is what the three store reads returned. *)
Definition Rebuild {E} (src : result E (BlacklistSettings * list BlacklistList * list BlacklistRule)) (h : Holder)
    : Holder * option E :=
  match src with
  | Err e => (h, Some e)
  | Ok (set, ls, rules) => (mkHolder (Some (Build set ls rules)) (blocked h) (byList h) (byName h), None)
  end.
Definition Counters (h : Holder) : Z * gmap string Z := (blocked h, byList h).
End Decide.

(** [int(c)] of a [uint64] and the difference the sort compares with. *)
Definition nc_cmp (a b : string * Z) : Z := int64 (int64 b.2 - int64 a.2).
Definition nc_le (a b : string * Z) : Prop :=
  if bool_decide (a.2 = b.2) then String.leb a.1 b.1 = true else nc_cmp a b <= 0.
#[export] Instance nc_le_dec : RelDecision nc_le.
Proof. intros a b. unfold nc_le. case_bool_decide; apply _. Defined.
Definition TopBlocked (h : Holder) (n : nat) : list (string * Z) :=
  take n (merge_sort nc_le (map_to_list (byName h))).

(** ** The precedence of a decision *)
(** Some rule of kind [k] covers [n]. *)
Definition ruled (rules : list BlacklistRule) (k n : string) : Prop :=
  exists r, r ∈ rules /\ br_Kind r = k /\ sub_of n (br_Domain r).
(** The enabled list [l] covers [n]. *)
Definition listed (l : BlacklistList) (n : string) : Prop :=
  bl_Enabled l = true /\ exists d, d ∈ bl_Snapshot l /\ sub_of n d.

Lemma SetMatch_spec ds n : SetMatch (NewSet ds) n = true <-> exists d, d ∈ ds /\ sub_of n d.
Proof.
  unfold SetMatch, NewSet. case_bool_decide as E.
  - split; [done|]. intros (d & Hd & _). exfalso.
    apply (elem_of_list_to_set (C := gset string)) in Hd. set_solver.
  - rewrite match_walk_spec by done. setoid_rewrite sub_of_bytes. by setoid_rewrite elem_of_list_to_set.
Qed.

Lemma SetMatch_kind rules k n :
  SetMatch (NewSet (br_Domain <$> filter (fun r => br_Kind r = k) rules)) n = true <-> ruled rules k n.
Proof.
  rewrite SetMatch_spec. unfold ruled. setoid_rewrite list_elem_of_fmap.
  setoid_rewrite list_elem_of_filter. split; [|naive_solver].
  intros (d & (r & -> & Hk & Hr) & Hs). by exists r.
Qed.

Lemma find_lists (ls : list BlacklistList) n :
  match List.find (fun l => SetMatch l.2 n)
      (omap (fun l => if negb (bl_Enabled l) || bool_decide (bl_Snapshot l = []) then None
                      else Some (bl_Name l, NewSet (bl_Snapshot l))) ls) with
  | Some x => exists ls1 l ls2, ls = ls1 ++ l :: ls2 /\ x.1 = bl_Name l /\ listed l n
                /\ forall l', l' ∈ ls1 -> ~ listed l' n
  | None => forall l, l ∈ ls -> ~ listed l n
  end.
Proof.
  induction ls as [|l ls IH]; [by intros l ?%not_elem_of_nil|]. rewrite omap_cons.
  assert (Hskip : ~ listed l n ->
    match List.find (fun l => SetMatch l.2 n)
      (omap (fun l => if negb (bl_Enabled l) || bool_decide (bl_Snapshot l = []) then None
                      else Some (bl_Name l, NewSet (bl_Snapshot l))) ls) with
    | Some x => exists ls1 l0 ls2, l :: ls = ls1 ++ l0 :: ls2 /\ x.1 = bl_Name l0 /\ listed l0 n
                /\ forall l', l' ∈ ls1 -> ~ listed l' n
    | None => forall l0, l0 ∈ l :: ls -> ~ listed l0 n
    end).
  { intros Hl. destruct (List.find _ _) as [x|].
    - destruct IH as (ls1 & l0 & ls2 & -> & Hx & Hl0 & Hn). exists (l :: ls1), l0, ls2.
      split; [done|]. split; [done|]. split; [done|]. intros l' [->|H]%elem_of_cons; auto.
    - intros l' [->|H]%elem_of_cons; auto. }
  destruct (bl_Enabled l) eqn:Ee; simpl; [|apply Hskip; intros [? _]; congruence].
  case_bool_decide as Es.
  - apply Hskip. intros [_ (d & Hd & _)]. rewrite Es in Hd. by apply not_elem_of_nil in Hd.
  - simpl. destruct (SetMatch (NewSet (bl_Snapshot l)) n) eqn:Em.
    + apply SetMatch_spec in Em. exists [], l, ls. split; [done|]. split; [done|]. split; [by split|].
      by intros l' ?%not_elem_of_nil.
    + apply Hskip. intros [_ H]. apply SetMatch_spec in H. congruence.
Qed.

(** C3: a decision on a live policy follows the fixed precedence: disabled
    filtering and names that cannot be normalized are forwarded; a deny rule
    covering the name blocks it; otherwise an allow rule lets it through even if
    lists block it; otherwise the first enabled list covering it blocks it under
    that list's name; otherwise it is forwarded. *)
Theorem decide_precedence toASCII set ls rules name :
  let d := Decide toASCII (Some (Build set ls rules)) name in
  let forwarded m := mkDecision false PolicyForwarded 0 m in
  let block p n := mkDecision true p (u32w (if bs_BlockTTL set <=? 0 then 60 else bs_BlockTTL set)) n in
  match Normalize toASCII name with
  | None => d = forwarded ""
  | Some n =>
      if bs_Enabled set then
        (ruled rules PolicyDeny n /\ d = block PolicyDeny n)
        \/ (~ ruled rules PolicyDeny n /\ ruled rules PolicyAllow n /\ d = mkDecision false PolicyAllow 0 n)
        \/ (~ ruled rules PolicyDeny n /\ ~ ruled rules PolicyAllow n
            /\ ((exists ls1 l ls2, ls = ls1 ++ l :: ls2 /\ listed l n /\ (forall l', l' ∈ ls1 -> ~ listed l' n)
                  /\ d = block (bl_Name l) n)
                \/ ((forall l, l ∈ ls -> ~ listed l n) /\ d = forwarded n)))
      else d = forwarded ""
  end.
Proof.
  intros d forwarded block. unfold d, Decide. cbn [enabled Build deny allow lists].
  destruct (Normalize toASCII name) as [n|]; [|by destruct (bs_Enabled set)].
  destruct (bs_Enabled set); [|done]. simpl.
  destruct (SetMatch _ n) eqn:Ed; [left; by rewrite SetMatch_kind in Ed|].
  apply not_true_iff_false in Ed. rewrite SetMatch_kind in Ed. right.
  destruct (SetMatch _ n) eqn:Ea; [left; by rewrite SetMatch_kind in Ea|].
  apply not_true_iff_false in Ea. rewrite SetMatch_kind in Ea. right. split; [done|]. split; [done|].
  pose proof (find_lists ls n) as H. destruct (List.find _ _) as [x|]; [|by right].
  left. destruct H as (ls1 & l & ls2 & Hls & Hx & Hl & Hn). exists ls1, l, ls2.
  split; [done|]. split; [done|]. split; [done|]. by rewrite Hx.
Qed.

(** ** The block counters count the decisions *)
Inductive pol_event :=
  | EvQuery (name : string)
  | EvRebuild (src : result string (BlacklistSettings * list BlacklistList * list BlacklistRule)).

Section counters.
Context (toASCII : string -> option string).

(** The holder and the log of every decision it took. *)
Definition pol_step (st : Holder * list Decision) (ev : pol_event) : Holder * list Decision :=
  match ev with
  | EvQuery name => ((HolderDecide toASCII st.1 name).1, st.2 ++ [Decide toASCII (cur st.1) name])
  | EvRebuild src => ((Rebuild src st.1).1, st.2)
  end.
Definition pol_run (evs : list pol_event) : Holder * list Decision := foldl pol_step (NewHolder, []) evs.

Definition n_blocked (log : list Decision) : Z := countb Blocked log.
Definition n_policy (p : string) (log : list Decision) : Z :=
  countb (fun d => Blocked d && bool_decide (d_Policy d = p)) log.
Definition n_name (n : string) (log : list Decision) : Z :=
  countb (fun d => Blocked d && bool_decide (d_Name d = n)) log.

Definition counted (m : gmap string Z) (k : string) (c : Z) : Prop :=
  m !! k = if c =? 0 then None else Some (u64w c).

Lemma incr_counted m k k' c :
  0 <= c -> counted m k' c ->
  counted (incr m k) k' (c + Z.b2z (bool_decide (k = k'))).
Proof.
  intros Hc. unfold counted, incr. case_bool_decide as E; simpl.
  - subst k'. rewrite lookup_insert_eq. intros ->.
    destruct (Z.eqb_spec (c + 1) 0); [lia|].
    destruct (Z.eqb_spec c 0) as [->|]; [done|]. simpl. by rewrite u64w_succ.
  - rewrite lookup_insert_ne by done. by rewrite Z.add_0_r.
Qed.

Definition counters_ok (st : Holder * list Decision) : Prop :=
  let '(h, log) := st in
  blocked h = u64w (n_blocked log)
  /\ (forall p, counted (byList h) p (n_policy p log))
  /\ Z.of_nat (size (byName h)) <= maxTrackedNames
  /\ forall n, counted (byName h) n (n_name n log)
       \/ (byName h !! n = None /\ Z.of_nat (size (byName h)) = maxTrackedNames).

Lemma size_incr_new m k : m !! k = None -> size (incr m k) = S (size m).
Proof. intros H. unfold incr. by apply map_size_insert_None. Qed.
Lemma size_incr_old m k : is_Some (m !! k) -> size (incr m k) = size m.
Proof. intros [v H]. unfold incr. by eapply map_size_insert_Some. Qed.

Lemma decide_counters_ok h log name :
  counters_ok (h, log) ->
  counters_ok ((HolderDecide toASCII h name).1, log ++ [Decide toASCII (cur h) name]).
Proof.
  intros (Hb & Hl & Hs & Hn). unfold HolderDecide. generalize (Decide toASCII (cur h) name) as d. intros d.
  unfold counters_ok, n_blocked, n_policy, n_name in *. rewrite countb_snoc.
  setoid_rewrite countb_snoc. destruct (Blocked d) eqn:Ed; simpl; [|by setoid_rewrite Z.add_0_r].
  split; [by rewrite Hb, u64w_succ|]. split.
  { intros p. apply incr_counted; [apply countb_nonneg | apply Hl]. }
  case_bool_decide as Hk; [|destruct (Z.ltb_spec (Z.of_nat (size (byName h))) maxTrackedNames) as [Hlt|Hge]]; simpl.
  - rewrite size_incr_old by done. split; [done|]. intros n.
    destruct (Hn n) as [H|[H1 H2]]; [left; apply incr_counted; [apply countb_nonneg | done]|].
    right. split; [|done]. unfold incr. rewrite lookup_insert_ne; [done|]. intros Hd.
    rewrite Hd, H1 in Hk. by destruct Hk.
  - rewrite size_incr_new by (by apply eq_None_not_Some).
    split; [lia|]. intros n. left. apply incr_counted; [apply countb_nonneg|].
    destruct (Hn n) as [H|[H1 H2]]; [done|lia].
  - split; [done|]. intros n. assert (Hfull : Z.of_nat (size (byName h)) = maxTrackedNames) by lia.
    destruct (decide (d_Name d = n)) as [<-|Hne].
    + right. split; [by apply eq_None_not_Some | done].
    + rewrite (bool_decide_eq_false_2 _ Hne). simpl. rewrite Z.add_0_r. apply Hn.
Qed.

Lemma pol_run_ok evs : counters_ok (pol_run evs).
Proof.
  unfold pol_run. apply foldl_inv.
  - intros [h log] [name|src] H _; simpl; [by apply decide_counters_ok|].
    destruct src as [[[? ?] ?]|]; exact H.
  - unfold counters_ok, NewHolder. simpl. split; [done|]. split; [done|].
    split; [by rewrite map_size_empty|]. intros n. by left.
Qed.
End counters.

(** over any sequence of queries and rebuilds, the holder's total and its
    per-list counters are exactly the numbers of blocked decisions taken (as
    64-bit counters), at most 2000 names are ever tracked, and a tracked name's
    counter is exact; a name is left out only when the table is full. *)
Theorem counters_match_decisions toASCII evs :
  let '(h, log) := pol_run toASCII evs in
  blocked h = u64w (n_blocked log)
  /\ (forall p, default 0 (byList h !! p) = u64w (n_policy p log))
  /\ Z.of_nat (size (byName h)) <= 2000
  /\ (forall n c, byName h !! n = Some c -> c = u64w (n_name n log) /\ 0 < n_name n log)
  /\ (forall n, byName h !! n = None -> n_name n log = 0 \/ Z.of_nat (size (byName h)) = 2000).
Proof.
  pose proof (pol_run_ok toASCII evs) as H. destruct (pol_run toASCII evs) as [h log].
  destruct H as (Hb & Hl & Hs & Hn). unfold counted in *. repeat split; try done.
  - intros p. rewrite Hl. by destruct (Z.eqb_spec (n_policy p log) 0) as [->|].
  - destruct (Hn n) as [H1|[H1 _]]; [|congruence]. rewrite H in H1. by destruct (_ =? _); [|injection H1].
  - destruct (Hn n) as [H1|[H1 _]]; [|congruence]. rewrite H in H1.
    pose proof (countb_nonneg (fun d => Blocked d && bool_decide (d_Name d = n)) log).
    unfold n_name in *. destruct (Z.eqb_spec (countb (fun d => Blocked d && bool_decide (d_Name d = n)) log) 0); [done|lia].
  - intros n H. destruct (Hn n) as [H1|[_ H1]]; [left|by right]. rewrite H in H1.
    by destruct (Z.eqb_spec (n_name n log) 0).
Qed.

(** ** Serialized rebuilds

    The store's policy content carries a ghost version that every write
    increments; [Rebuild] takes [rebuildMu], reads, builds, stores and unlocks,
    while writers keep writing. *)
Definition Inputs : Type := BlacklistSettings * list BlacklistList * list BlacklistRule.
Inductive pr_pc := Locked | Loaded (v : Z) (src : Inputs).
Record PWorld := mkPWorld {
  w_ver : Z; w_src : Inputs; w_lock : option (nat * pr_pc); w_pub : Z; w_holder : Holder }.

Inductive pr_step : PWorld -> PWorld -> Prop :=
  | pr_write w src : pr_step w (mkPWorld (w_ver w + 1) src (w_lock w) (w_pub w) (w_holder w))
  | pr_acquire w t : w_lock w = None ->
      pr_step w (mkPWorld (w_ver w) (w_src w) (Some (t, Locked)) (w_pub w) (w_holder w))
  | pr_read w t : w_lock w = Some (t, Locked) ->
      pr_step w (mkPWorld (w_ver w) (w_src w) (Some (t, Loaded (w_ver w) (w_src w))) (w_pub w) (w_holder w))
  | pr_read_fails w t : w_lock w = Some (t, Locked) ->
      pr_step w (mkPWorld (w_ver w) (w_src w) None (w_pub w) (w_holder w))
  | pr_store w t v src : w_lock w = Some (t, Loaded v src) ->
      pr_step w (mkPWorld (w_ver w) (w_src w) None v (Rebuild (E := unit) (Ok src) (w_holder w)).1).

Definition pr_inv (w : PWorld) : Prop :=
  w_pub w <= w_ver w /\
  match w_lock w with
  | Some (_, Loaded v src) => w_pub w <= v <= w_ver w /\ (v = w_ver w -> src = w_src w)
  | _ => True
  end
  /\ (w_pub w = w_ver w -> cur (w_holder w) = Some (let '(a, b, c) := w_src w in Build a b c)).

Lemma pr_step_inv w w' : pr_step w w' -> pr_inv w -> pr_inv w' /\ w_pub w <= w_pub w'.
Proof.
  intros Hs (H1 & H2 & H3). unfold pr_inv. destruct Hs as [w src|w t E|w t E|w t E|w t v src E];
    rewrite ?E in H2; simpl.
  - split; [|lia]. split; [lia|]. split; [|lia].
    destruct (w_lock w) as [[t [|v s]]|]; auto. split; [lia|]. lia.
  - auto with lia.
  - split; [|lia]. split; [lia|]. auto with lia.
  - auto with lia.
  - split; [|lia]. split; [lia|]. split; [done|]. intros ->.
    destruct H2 as [_ ->]; [|done]. by destruct (w_src w) as [[? ?] ?].
Qed.

(** with [rebuildMu] held around the whole rebuild, whatever the writers do
    meanwhile, the store version the live policy reflects never goes back, and
    when it is the current version the live policy is exactly the one built from
    the current content. *)
Theorem serialized_rebuild_never_stale w1 w2 :
  pr_inv w1 -> rtc pr_step w1 w2 ->
  w_pub w1 <= w_pub w2 <= w_ver w2
  /\ (w_pub w2 = w_ver w2 -> cur (w_holder w2) = Some (let '(a, b, c) := w_src w2 in Build a b c)).
Proof.
  intros Hi Hs. assert (pr_inv w2 /\ w_pub w1 <= w_pub w2) as [(H1 & _ & H3) H].
  { induction Hs as [w|w w' w'' Hw Hs IH]; [split; [done|lia]|].
    apply pr_step_inv in Hw as [Hi' Hle]; [|done]. destruct (IH Hi') as [? ?]. split; [done|lia]. }
  split; [lia | done].
Qed.

Definition ex_inputs : Inputs :=
  (mkBlSettings true 60, [mkBlList 1 "ads" "https://x" "hosts" "" true false 300 0 0 "" "" "" 1 0 ["ads.example"]], []).
Definition ex_pworld : PWorld := mkPWorld 5 ex_inputs None 3 NewHolder.

Lemma serialized_rebuild_never_stale_witness :
  exists w2, rtc pr_step ex_pworld w2 /\ w_pub w2 = w_ver w2
    /\ cur (w_holder w2) = Some (let '(a, b, c) := w_src w2 in Build a b c).
Proof.
  set (w2 := mkPWorld 5 ex_inputs None 5 (Rebuild (E := unit) (Ok ex_inputs) NewHolder).1).
  assert (Hr : rtc pr_step ex_pworld w2).
  { eapply rtc_l; [eapply (pr_acquire _ 1%nat); reflexivity|].
    eapply rtc_l; [eapply (pr_read _ 1%nat); reflexivity|].
    eapply rtc_l; [eapply (pr_store _ 1%nat); reflexivity|]. apply rtc_refl. }
  exists w2. split; [exact Hr|]. split; [reflexivity|].
  apply (serialized_rebuild_never_stale ex_pworld w2);
    [split; [simpl; lia|split; [exact I | simpl; lia]] | exact Hr | reflexivity].
Defined.
