(* ===== verification/Store.v ===== *)
(** * The store: [internal/store]

    The SQLite database as tables of rows (in rowid order) and every Go method as
    an operation on it.  Each SQL statement of the source is translated by hand:
    unique and foreign-key constraints are the failures it can have, and the
    [config_version] triggers are the [bump]s next to the row changes.  A method
    that opens a transaction returns the database unchanged on error.  A NULL
    [view_name] is the empty string, as [nullable] and [COALESCE] make it.
    Newline-packed text columns are kept as the list they unpack to.  I/O
    failures of the driver are not modelled. *)
From S2P Require Import Prelude GoStr Model.

Inductive store_error :=
  | ErrNotFound | ErrDuplicateCIDR | ErrViewInUse | ErrDuplicateName
  | ErrConstraint  (** a constraint failure passed through without a name of its own *)
  | ErrNoSettings.

#[export] Instance store_error_eq_dec : EqDecision store_error.
Proof. solve_decision. Defined.

Record SvcRow := mkSvcRow {
  sv_ID : Z; sv_Name : string; sv_CheckURL : string; sv_CheckInsecure : bool;
  sv_ProxyAddress : string; sv_RouteViaProxy : bool; sv_MAC : string }.
Record AddrRow := mkAddrRow { ad_ID : Z; ad_Svc : Z; ad_Address : string; ad_View : string }.
Record AliasRow := mkAliasRow { al_ID : Z; al_Svc : Z; al_Name : string }.
Record AdminIdentity := mkAdmin {
  PasswordHash : string; SSOSub : string; SSOUsername : string; SSOEmail : string;
  SSOLinkedAt : Z; UpdatedAt : Z }.
Record SSOSettings := mkSSO { sso_Enabled : bool; IssuerURL : string; ClientID : string; ClientSecret : string }.
Record Peer := mkPeer {
  p_NodeID : string; p_Label : string; p_Address : string; p_PairedAt : Z; p_LastSyncAt : Z; p_LastVersion : Z }.

(** The replicated tables and their version counter. *)
Record Conf := mkConf {
  c_views : list string;
  c_subnets : list (string * string);
  c_services : list SvcRow;
  c_addresses : list AddrRow;
  c_aliases : list AliasRow;
  c_records : list DnsRecord;
  c_blset : BlacklistSettings;
  c_lists : list BlacklistList;
  c_rules : list BlacklistRule;
  c_settings : option Settings;
  c_version : Z }.

(** The node-local tables. *)
Record Node := mkNode {
  n_tokens : list Token;
  n_admin : option AdminIdentity;
  n_sso : SSOSettings;
  n_leases : list DHCPLease;
  n_peers : list Peer;
  n_replica : string * Z;
  n_promotion : option Z;
  n_local : gmap string string }.

Record DB := mkDB { conf : Conf; node : Node }.

(** What [Open] creates on a fresh file. *)
Definition conf0 : Conf := mkConf [] [] [] [] [] [] (mkBlSettings true 60) [] [] None 0.
Definition node0 : Node :=
  mkNode [] None (mkSSO false "https://auth.urlxl.com" "kydns" "") [] [] ("", 0) None ∅.
Definition db0 : DB := mkDB conf0 node0.

(** ** Row updates with their triggers *)
Definition cnt {A} (l : list A) : Z := Z.of_nat (length l).
Definition with_views c x k := mkConf x (c_subnets c) (c_services c) (c_addresses c) (c_aliases c) (c_records c) (c_blset c) (c_lists c) (c_rules c) (c_settings c) (c_version c + k).
Definition with_subnets c x k := mkConf (c_views c) x (c_services c) (c_addresses c) (c_aliases c) (c_records c) (c_blset c) (c_lists c) (c_rules c) (c_settings c) (c_version c + k).
Definition with_services c x k := mkConf (c_views c) (c_subnets c) x (c_addresses c) (c_aliases c) (c_records c) (c_blset c) (c_lists c) (c_rules c) (c_settings c) (c_version c + k).
Definition with_addresses c x k := mkConf (c_views c) (c_subnets c) (c_services c) x (c_aliases c) (c_records c) (c_blset c) (c_lists c) (c_rules c) (c_settings c) (c_version c + k).
Definition with_aliases c x k := mkConf (c_views c) (c_subnets c) (c_services c) (c_addresses c) x (c_records c) (c_blset c) (c_lists c) (c_rules c) (c_settings c) (c_version c + k).
Definition with_records c x k := mkConf (c_views c) (c_subnets c) (c_services c) (c_addresses c) (c_aliases c) x (c_blset c) (c_lists c) (c_rules c) (c_settings c) (c_version c + k).
Definition with_blset c x k := mkConf (c_views c) (c_subnets c) (c_services c) (c_addresses c) (c_aliases c) (c_records c) x (c_lists c) (c_rules c) (c_settings c) (c_version c + k).
Definition with_lists c x k := mkConf (c_views c) (c_subnets c) (c_services c) (c_addresses c) (c_aliases c) (c_records c) (c_blset c) x (c_rules c) (c_settings c) (c_version c + k).
Definition with_rules c x k := mkConf (c_views c) (c_subnets c) (c_services c) (c_addresses c) (c_aliases c) (c_records c) (c_blset c) (c_lists c) x (c_settings c) (c_version c + k).
Definition with_settings c x k := mkConf (c_views c) (c_subnets c) (c_services c) (c_addresses c) (c_aliases c) (c_records c) (c_blset c) (c_lists c) (c_rules c) x (c_version c + k).

(** A transaction on the replicated tables: all of it or nothing. *)
Definition tx {A} (f : Conf -> result store_error (A * Conf)) (db : DB) : DB * result store_error A :=
  match f (conf db) with
  | Ok (a, c) => (mkDB c (node db), Ok a)
  | Err e => (db, Err e)
  end.

(** [INTEGER PRIMARY KEY]: one more than the largest id in the table. *)
Definition next_id (ids : list Z) : Z := 1 + foldr Z.max 0 ids.

(** ** Views *)
Definition insert_view (name : string) (c : Conf) : Conf :=
  if bool_decide (name ∈ c_views c) then c else with_views c (c_views c ++ [name]) 1.
Definition delete_subnets (name : string) (c : Conf) : Conf :=
  let keep := filter (fun x => x.1 <> name) (c_subnets c) in
  with_subnets c keep (cnt (c_subnets c) - cnt keep).
Definition insert_subnet (name : string) (c : Conf) (cidr : string) : result store_error Conf :=
  if bool_decide (cidr ∈ (c_subnets c).*2) then Err ErrDuplicateCIDR
  else Ok (with_subnets c (c_subnets c ++ [(name, cidr)]) 1).
Definition putView (v : View) (c : Conf) : result store_error (unit * Conf) :=
  c <-? foldR (insert_subnet (v_Name v)) (delete_subnets (v_Name v) (insert_view (v_Name v) c)) (v_Subnets v) ;;
  Ok (tt, c).
Definition PutView (v : View) : DB -> DB * result store_error unit := tx (putView v).

Definition Views (db : DB) : list View :=
  (fun n => mkView n (merge_sort str_le
      (filter (fun s => s <> "") (snd <$> filter (fun x => x.1 = n) (c_subnets (conf db))))))
    <$> merge_sort str_le (c_views (conf db)).

Definition view_refs (name : string) (c : Conf) : Z :=
  if bool_decide (name = "") then 0
  else cnt (filter (fun a => ad_View a = name) (c_addresses c)) + cnt (filter (fun r => r_View r = name) (c_records c)).
Definition deleteView (name : string) (c : Conf) : result store_error (unit * Conf) :=
  if 0 <? view_refs name c then Err ErrViewInUse
  else if bool_decide (name ∈ c_views c)
  then Ok (tt, delete_subnets name (with_views c (filter (fun v => v <> name) (c_views c)) 1))
  else Err ErrNotFound.
Definition DeleteView (name : string) : DB -> DB * result store_error unit := tx (deleteView name).

(** ** Services *)
Definition svc_row (id : Z) (s : Service) : SvcRow :=
  mkSvcRow id (s_Name s) (s_CheckURL s) (s_CheckInsecure s) (s_ProxyAddress s) (s_RouteViaProxy s) (s_MAC s).
Definition view_ok (c : Conf) (v : string) : bool := bool_decide (v = "" \/ v ∈ c_views c).
Definition svc_ok (c : Conf) (id : Z) : bool := bool_decide (id ∈ sv_ID <$> c_services c).
Definition insert_address (id : Z) (c : Conf) (a : Address) : result store_error Conf :=
  if svc_ok c id && view_ok c (a_View a)
  then Ok (with_addresses c (c_addresses c
             ++ [mkAddrRow (next_id (ad_ID <$> c_addresses c)) id (a_Address a) (a_View a)]) 1)
  else Err ErrConstraint.
Definition insert_alias (id : Z) (c : Conf) (al : string) : result store_error Conf :=
  if bool_decide (al ∈ al_Name <$> c_aliases c) then Err ErrDuplicateName
  else if svc_ok c id
  then Ok (with_aliases c (c_aliases c ++ [mkAliasRow (next_id (al_ID <$> c_aliases c)) id al]) 1)
  else Err ErrConstraint.
Definition delete_children (id : Z) (c : Conf) : Conf :=
  let ka := filter (fun a => ad_Svc a <> id) (c_addresses c) in
  let c := with_addresses c ka (cnt (c_addresses c) - cnt ka) in
  let kl := filter (fun a => al_Svc a <> id) (c_aliases c) in
  with_aliases c kl (cnt (c_aliases c) - cnt kl).
(** The services row itself; the update of a taken name reports the raw
    constraint failure, only the insert names it a duplicate. *)
Definition put_svc_row (s : Service) (c : Conf) : result store_error (Z * Conf) :=
  if s_ID s =? 0 then
    if bool_decide (s_Name s ∈ sv_Name <$> c_services c) then Err ErrDuplicateName
    else let id := next_id (sv_ID <$> c_services c) in
      Ok (id, with_services c (c_services c ++ [svc_row id s]) 1)
  else if svc_ok c (s_ID s) then
    if existsb (fun r => negb (sv_ID r =? s_ID s) && bool_decide (sv_Name r = s_Name s)) (c_services c)
    then Err ErrConstraint
    else Ok (s_ID s, delete_children (s_ID s)
      (with_services c ((fun r => if sv_ID r =? s_ID s then svc_row (s_ID s) s else r) <$> c_services c) 1))
  else Ok (s_ID s, delete_children (s_ID s) c).
Definition putService (s : Service) (c : Conf) : result store_error (Z * Conf) :=
  ic <-? put_svc_row s c ;;
  c <-? foldR (insert_address ic.1) ic.2 (s_Addresses s) ;;
  c <-? foldR (insert_alias ic.1) c (s_Aliases s) ;;
  Ok (ic.1, c).
Definition PutService (s : Service) : DB -> DB * result store_error Z := tx (putService s).

Definition addresses (db : DB) (id : Z) : list Address :=
  (fun a => mkAddress (ad_ID a) (ad_Address a) (ad_View a)) <$> filter (fun a => ad_Svc a = id) (c_addresses (conf db)).
Definition aliases (db : DB) (id : Z) : list string :=
  merge_sort str_le (al_Name <$> filter (fun a => al_Svc a = id) (c_aliases (conf db))).
Definition load_service (db : DB) (r : SvcRow) : Service :=
  mkService (sv_ID r) (sv_Name r) (addresses db (sv_ID r)) (aliases db (sv_ID r)) (sv_CheckURL r)
    (sv_CheckInsecure r) (sv_ProxyAddress r) (sv_RouteViaProxy r) (sv_MAC r).
Definition Service_ (db : DB) (id : Z) : result store_error Service :=
  match List.find (fun r => sv_ID r =? id) (c_services (conf db)) with
  | Some r => Ok (load_service db r)
  | None => Err ErrNotFound
  end.
Definition row_name_le (a b : SvcRow) : Prop := str_le (sv_Name a) (sv_Name b).
#[export] Instance row_name_le_dec : RelDecision row_name_le.
Proof. intros a b. unfold row_name_le. apply _. Defined.
Definition Services (db : DB) : result store_error (list Service) :=
  mapR (Service_ db) (sv_ID <$> merge_sort row_name_le (c_services (conf db))).
Definition deleteService (id : Z) (c : Conf) : result store_error (unit * Conf) :=
  if svc_ok c id
  then Ok (tt, delete_children id (with_services c (filter (fun r => sv_ID r <> id) (c_services c)) 1))
  else Err ErrNotFound.
Definition DeleteService (id : Z) : DB -> DB * result store_error unit := tx (deleteService id).

(** ** Records *)
Definition putRecord (r : DnsRecord) (c : Conf) : result store_error (Z * Conf) :=
  if view_ok c (r_View r)
  then let id := next_id (r_ID <$> c_records c) in
    Ok (id, with_records c (c_records c ++ [mkRecord id (r_Name r) (r_Type r) (r_Value r) (r_View r)]) 1)
  else Err ErrConstraint.
Definition PutRecord (r : DnsRecord) : DB -> DB * result store_error Z := tx (putRecord r).
(** [ORDER BY name, type], ties in rowid order. *)
Definition rec_le (a b : DnsRecord) : Prop :=
  if bool_decide (r_Name a = r_Name b)
  then if bool_decide (r_Type a = r_Type b) then r_ID a <= r_ID b else str_le (r_Type a) (r_Type b)
  else str_le (r_Name a) (r_Name b).
#[export] Instance rec_le_dec : RelDecision rec_le.
Proof. intros a b. unfold rec_le. repeat case_bool_decide; apply _. Defined.
Definition Records (db : DB) : list DnsRecord := merge_sort rec_le (c_records (conf db)).
Definition deleteRecord (id : Z) (c : Conf) : result store_error (unit * Conf) :=
  if bool_decide (id ∈ r_ID <$> c_records c)
  then Ok (tt, with_records c (filter (fun r => r_ID r <> id) (c_records c)) 1)
  else Err ErrNotFound.
Definition DeleteRecord (id : Z) : DB -> DB * result store_error unit := tx (deleteRecord id).

(** ** Replacing the registry *)
Definition wipe_registry (c : Conf) : Conf :=
  let c := with_records c [] (cnt (c_records c)) in
  let c := with_aliases c [] (cnt (c_aliases c)) in
  let c := with_addresses c [] (cnt (c_addresses c)) in
  let c := with_services c [] (cnt (c_services c)) in
  let c := with_subnets c [] (cnt (c_subnets c)) in
  with_views c [] (cnt (c_views c)).
Definition drop_svc_id (s : Service) : Service :=
  mkService 0 (s_Name s) (s_Addresses s) (s_Aliases s) (s_CheckURL s) (s_CheckInsecure s)
    (s_ProxyAddress s) (s_RouteViaProxy s) (s_MAC s).
Definition replaceAll (views : list View) (services : list Service) (records : list DnsRecord) (c : Conf)
    : result store_error Conf :=
  c <-? foldR (fun c v => r <-? putView v c ;; Ok r.2) (wipe_registry c) views ;;
  c <-? foldR (fun c s => r <-? putService (drop_svc_id s) c ;; Ok r.2) c services ;;
  foldR (fun c x => r <-? putRecord x c ;; Ok r.2) c records.
Definition ReplaceAll (views : list View) (services : list Service) (records : list DnsRecord)
    : DB -> DB * result store_error unit :=
  tx (fun c => c <-? replaceAll views services records c ;; Ok (tt, c)).

(** ** settings.go *)
Definition newline : ascii := chr 10.
Definition packList (v : list string) : string := Join v (str [newline]).
Definition unpackList (s : string) : list string := if bool_decide (s = "") then [] else Split s newline.
Definition repack (v : list string) : list string := unpackList (packList v).

(** The row as the next read returns it: the three packed columns round-trip
    through their text. *)
Definition stored (v : Settings) : Settings :=
  mkSettings (PrivateDomain v) (repack (ReverseZones v)) (repack (Upstreams v)) (repack (AllowQuery v))
    (AllowTailscale v) (TTL v) (CacheMinTTL v) (CacheMaxTTL v) (NegativeMaxTTL v) (CacheEntries v)
    (LogQueries v) (LogClientIP v) (DHCPLeaseFile v) (DiscoveryInterval v) (HealthInterval v)
    (HealthTimeout v) (HealthWorkers v) (DHCPEnabled v) (DHCPInterface v) (DHCPRangeStart v)
    (DHCPRangeEnd v) (DHCPGateway v) (DHCPLeaseSeconds v) (DHCPSecondaryDNS v) (DHCPAllowForeign v).

(** The columns the [cv_settings_u] trigger compares. *)
Definition replicated_settings (v : Settings) :=
  (PrivateDomain v, ReverseZones v, Upstreams v, AllowQuery v, AllowTailscale v, TTL v, CacheMinTTL v,
   CacheMaxTTL v, NegativeMaxTTL v, CacheEntries v, HealthInterval v, HealthTimeout v, HealthWorkers v).

Definition GetSettings (db : DB) : option Settings := c_settings (conf db).
Definition putSettings (v : Settings) (c : Conf) : Conf :=
  with_settings c (Some (stored v))
    (match c_settings c with
     | None => 1
     | Some old => if bool_decide (replicated_settings old = replicated_settings (stored v)) then 0 else 1
     end).
Definition PutSettings (v : Settings) : DB -> DB * result store_error unit :=
  tx (fun c => Ok (tt, putSettings v c)).

(** [old] with the eight dhcp columns of [v]; none of them is replicated. *)
Definition with_dhcp (old v : Settings) : Settings :=
  mkSettings (PrivateDomain old) (ReverseZones old) (Upstreams old) (AllowQuery old)
    (AllowTailscale old) (TTL old) (CacheMinTTL old) (CacheMaxTTL old) (NegativeMaxTTL old) (CacheEntries old)
    (LogQueries old) (LogClientIP old) (DHCPLeaseFile old) (DiscoveryInterval old) (HealthInterval old)
    (HealthTimeout old) (HealthWorkers old) (DHCPEnabled v) (DHCPInterface v) (DHCPRangeStart v)
    (DHCPRangeEnd v) (DHCPGateway v) (DHCPLeaseSeconds v) (DHCPSecondaryDNS v) (DHCPAllowForeign v).
Definition putDHCPSettings (v : Settings) (c : Conf) : result store_error (unit * Conf) :=
  match c_settings c with
  | None => Err ErrNoSettings
  | Some old => Ok (tt, with_settings c (Some (with_dhcp old v)) 0)
  end.
Definition PutDHCPSettings (v : Settings) : DB -> DB * result store_error unit := tx (putDHCPSettings v).

(** [strings.Trim(s, ".")]. *)
Fixpoint drop_dots (l : list ascii) : list ascii :=
  match l with
  | c :: l' => if bool_decide (c = "."%char) then drop_dots l' else l
  | [] => []
  end.
Definition TrimDots (s : string) : string := str (rev (drop_dots (rev (drop_dots (bytes s))))).
Definition ZoneSuffix (domain : string) : string :=
  let d := TrimDots (ToLower (TrimSpace domain)) in
  if bool_decide (d = "") then "" else d +:+ ".".

(** The boolean of the code is whether the result is [Some]. *)
Definition RenameInZone (name from to : string) : option string :=
  if bool_decide (from = "") || bool_decide (to = "") || bool_decide (from = to) then None
  else
    let n := ToLower (TrimSpace name) in
    if bool_decide (n = "") then None
    else
      let n := if HasSuffix n "." then n else n +:+ "." in
      if bool_decide (n = from) then Some to
      else if HasSuffix n ("." +:+ from) then Some (TrimSuffix n from +:+ to)
      else None.

Definition rename_record (from to : string) (r : DnsRecord) : option DnsRecord :=
  let name := RenameInZone (r_Name r) from to in
  let value := if bool_decide (r_Type r = "CNAME" \/ r_Type r = "PTR")
               then RenameInZone (r_Value r) from to else None in
  match name, value with
  | None, None => None
  | _, _ => Some (mkRecord (r_ID r) (default (r_Name r) name) (r_Type r) (default (r_Value r) value) (r_View r))
  end.
Definition renameRecords (from to : string) (c : Conf) : Z * Conf :=
  let moved := cnt (omap (rename_record from to) (c_records c)) in
  (moved, with_records c ((fun r => default r (rename_record from to r)) <$> c_records c) moved).
Definition PutSettingsRenamingZone (v : Settings) (from to : string) : DB -> DB * result store_error Z :=
  tx (fun c => Ok (renameRecords (ZoneSuffix from) (ZoneSuffix to) (putSettings v c))).

(** ** blacklist.go *)
Definition GetBlacklistSettings (db : DB) : BlacklistSettings := c_blset (conf db).
(** The seeded row always exists, so the upsert is an update and its trigger
    fires every time. *)
Definition setBlSettings (b : BlacklistSettings) (c : Conf) : Conf := with_blset c b 1.
Definition SetBlacklistSettings (b : BlacklistSettings) : DB -> DB * result store_error unit :=
  tx (fun c => Ok (tt, setBlSettings b c)).

(** [ORDER BY builtin DESC, name]. *)
Definition list_le (a b : BlacklistList) : Prop :=
  if Bool.eqb (bl_Builtin a) (bl_Builtin b) then str_le (bl_Name a) (bl_Name b)
  else bl_Builtin a = true.
#[export] Instance list_le_dec : RelDecision list_le.
Proof. intros a b. unfold list_le. destruct (Bool.eqb _ _); apply _. Defined.
Definition BlacklistLists (db : DB) : list BlacklistList := merge_sort list_le (c_lists (conf db)).
Definition without_body (l : BlacklistList) : BlacklistList :=
  mkBlList (bl_ID l) (bl_Name l) (bl_URL l) (bl_Format l) (bl_Description l) (bl_Enabled l) (bl_Builtin l)
    (bl_IntervalSeconds l) (bl_LastAttemptAt l) (bl_LastOKAt l) (bl_LastError l) (bl_ETag l)
    (bl_LastModified l) (bl_EntryCount l) (bl_SkippedCount l) [].
Definition BlacklistListMetas (db : DB) : list BlacklistList := without_body <$> BlacklistLists db.
Definition BlacklistListByID (db : DB) (id : Z) : result store_error BlacklistList :=
  match List.find (fun l => bl_ID l =? id) (c_lists (conf db)) with
  | Some l => Ok l
  | None => Err ErrNotFound
  end.

(** A fresh row: definition columns and the defaults of the rest. *)
Definition list_row (id : Z) (l : BlacklistList) : BlacklistList :=
  mkBlList id (bl_Name l) (bl_URL l) (bl_Format l) (bl_Description l) (bl_Enabled l) (bl_Builtin l)
    (bl_IntervalSeconds l) 0 0 "" "" "" 0 0 [].
(** The definition columns of [l] over the refresh columns of [old]. *)
Definition redefine (old l : BlacklistList) (name : string) (builtin : bool) : BlacklistList :=
  mkBlList (bl_ID old) name (bl_URL l) (bl_Format l) (bl_Description l) (bl_Enabled l) builtin
    (bl_IntervalSeconds l) (bl_LastAttemptAt old) (bl_LastOKAt old) (bl_LastError old) (bl_ETag old)
    (bl_LastModified old) (bl_EntryCount old) (bl_SkippedCount old) (bl_Snapshot old).
Definition list_definition (l : BlacklistList) :=
  (bl_Name l, bl_URL l, bl_Format l, bl_Description l, bl_Enabled l, bl_Builtin l, bl_IntervalSeconds l).
(** An UPDATE that maps the rows with [f]; the trigger compares definitions. *)
Definition update_lists (f : BlacklistList -> BlacklistList) (c : Conf) : Conf :=
  with_lists c (f <$> c_lists c)
    (cnt (filter (fun l => list_definition l <> list_definition (f l)) (c_lists c))).
Definition insert_list (l : BlacklistList) (c : Conf) : result store_error (Z * Conf) :=
  if bool_decide (bl_Name l ∈ bl_Name <$> c_lists c) then Err ErrDuplicateName
  else let id := next_id (bl_ID <$> c_lists c) in
    Ok (id, with_lists c (c_lists c ++ [list_row id l]) 1).
Definition putBlacklistList (l : BlacklistList) (c : Conf) : result store_error (Z * Conf) :=
  if bl_ID l =? 0 then insert_list l c
  else if existsb (fun o => negb (bl_ID o =? bl_ID l) && bool_decide (bl_Name o = bl_Name l)) (c_lists c)
          && bool_decide (bl_ID l ∈ bl_ID <$> c_lists c)
  then Err ErrDuplicateName
  else if bool_decide (bl_ID l ∈ bl_ID <$> c_lists c)
  then Ok (bl_ID l, update_lists (fun o => if bl_ID o =? bl_ID l then redefine o l (bl_Name l) (bl_Builtin o) else o) c)
  else Err ErrNotFound.
Definition PutBlacklistList (l : BlacklistList) : DB -> DB * result store_error Z := tx (putBlacklistList l).

Definition with_body (o : BlacklistList) (domains : list string) (skipped : Z) (etag lm : string) (at_ : Z) :=
  mkBlList (bl_ID o) (bl_Name o) (bl_URL o) (bl_Format o) (bl_Description o) (bl_Enabled o) (bl_Builtin o)
    (bl_IntervalSeconds o) at_ at_ "" etag lm (cnt domains) skipped (repack domains).
Definition SetBlacklistSnapshot (id : Z) (domains : list string) (skipped : Z) (etag lm : string) (at_ : Z)
    : DB -> DB * result store_error unit :=
  tx (fun c =>
    if bool_decide (id ∈ bl_ID <$> c_lists c)
    then Ok (tt, update_lists (fun o => if bl_ID o =? id then with_body o domains skipped etag lm at_ else o) c)
    else Err ErrNotFound).
Definition with_attempt (o : BlacklistList) (at_ ok : Z) (err : string) : BlacklistList :=
  mkBlList (bl_ID o) (bl_Name o) (bl_URL o) (bl_Format o) (bl_Description o) (bl_Enabled o) (bl_Builtin o)
    (bl_IntervalSeconds o) at_ ok err (bl_ETag o) (bl_LastModified o) (bl_EntryCount o) (bl_SkippedCount o)
    (bl_Snapshot o).
Definition SetBlacklistError (id : Z) (msg : string) (at_ : Z) : DB -> DB * result store_error unit :=
  tx (fun c => Ok (tt, update_lists (fun o => if bl_ID o =? id then with_attempt o at_ (bl_LastOKAt o) msg else o) c)).
Definition TouchBlacklistAttempt (id at_ : Z) : DB -> DB * result store_error unit :=
  tx (fun c => Ok (tt, update_lists (fun o => if bl_ID o =? id then with_attempt o at_ at_ "" else o) c)).
Definition deleteList (id : Z) (c : Conf) : result store_error (unit * Conf) :=
  if bool_decide (id ∈ bl_ID <$> c_lists c)
  then Ok (tt, with_lists c (filter (fun l => bl_ID l <> id) (c_lists c)) 1)
  else Err ErrNotFound.
Definition DeleteBlacklistList (id : Z) : DB -> DB * result store_error unit := tx (deleteList id).

(** [ORDER BY kind, domain]. *)
Definition rule_le (a b : BlacklistRule) : Prop :=
  if bool_decide (br_Kind a = br_Kind b) then str_le (br_Domain a) (br_Domain b)
  else str_le (br_Kind a) (br_Kind b).
#[export] Instance rule_le_dec : RelDecision rule_le.
Proof. intros a b. unfold rule_le. case_bool_decide; apply _. Defined.
Definition BlacklistRules (db : DB) : list BlacklistRule := merge_sort rule_le (c_rules (conf db)).
Definition putRule (r : BlacklistRule) (c : Conf) : result store_error (Z * Conf) :=
  if bool_decide (br_Domain r ∈ br_Domain <$> c_rules c) then Err ErrDuplicateName
  else let id := next_id (br_ID <$> c_rules c) in
    Ok (id, with_rules c (c_rules c ++ [mkBlRule id (br_Kind r) (br_Domain r)]) 1).
Definition PutBlacklistRule (r : BlacklistRule) : DB -> DB * result store_error Z := tx (putRule r).
Definition deleteRule (id : Z) (c : Conf) : result store_error (unit * Conf) :=
  if bool_decide (id ∈ br_ID <$> c_rules c)
  then Ok (tt, with_rules c (filter (fun r => br_ID r <> id) (c_rules c)) 1)
  else Err ErrNotFound.
Definition DeleteBlacklistRule (id : Z) : DB -> DB * result store_error unit := tx (deleteRule id).

Definition replace_rules (rules : list BlacklistRule) (c : Conf) : result store_error Conf :=
  foldR (fun c r => x <-? putRule r c ;; Ok x.2) (with_rules c [] (cnt (c_rules c))) rules.

(** One incoming definition against the row of that name, if there was one
    before the replacement started. *)
Definition replace_list (existing : list (string * string)) (c : Conf) (l : BlacklistList) : result store_error Conf :=
  match List.find (fun x => bool_decide (x.1 = bl_Name l)) existing with
  | Some (_, oldURL) =>
      if bool_decide (oldURL <> bl_URL l) then
        Ok (update_lists (fun o => if bool_decide (bl_Name o = bl_Name l)
                                   then mkBlList (bl_ID o) (bl_Name o) (bl_URL l) (bl_Format l) (bl_Description l)
                                          (bl_Enabled l) (bl_Builtin l) (bl_IntervalSeconds l) 0 0 "" "" "" 0 0 []
                                   else o) c)
      else Ok (update_lists (fun o => if bool_decide (bl_Name o = bl_Name l)
                                      then redefine o l (bl_Name o) (bl_Builtin l) else o) c)
  | None =>
      (* no name of its own for a duplicate here *)
      match insert_list l c with Ok x => Ok x.2 | Err _ => Err ErrConstraint end
  end.
Definition replaceBlacklistDefinitions (set : BlacklistSettings) (ls : list BlacklistList)
    (rules : list BlacklistRule) (c : Conf) : result store_error Conf :=
  let c := setBlSettings set c in
  let existing := (fun l => (bl_Name l, bl_URL l)) <$> c_lists c in
  c <-? foldR (replace_list existing) c ls ;;
  let gone := filter (fun n => n ∉ bl_Name <$> ls) existing.*1 in
  let keep := filter (fun l => bl_Name l ∉ gone) (c_lists c) in
  replace_rules rules (with_lists c keep (cnt (c_lists c) - cnt keep)).

(** An imported list keeps the body downloaded from its URL: the last row with
    that URL, none when there is no such row. *)
Definition kept_body (rows : list BlacklistList) (l : BlacklistList) (id : Z) : BlacklistList :=
  match last (filter (fun o => bl_URL o = bl_URL l) rows) with
  | Some o => mkBlList id (bl_Name l) (bl_URL l) (bl_Format l) (bl_Description l) (bl_Enabled l) (bl_Builtin l)
      (bl_IntervalSeconds l) (bl_LastAttemptAt o) (bl_LastOKAt o) "" (bl_ETag o) (bl_LastModified o)
      (bl_EntryCount o) (bl_SkippedCount o) (bl_Snapshot o)
  | None => list_row id l
  end.
Definition import_list (rows : list BlacklistList) (c : Conf) (l : BlacklistList) : result store_error Conf :=
  if bool_decide (bl_Name l ∈ bl_Name <$> c_lists c) then Err ErrDuplicateName
  else Ok (with_lists c (c_lists c ++ [kept_body rows l (next_id (bl_ID <$> c_lists c))]) 1).
Definition ReplaceBlacklist (set : BlacklistSettings) (ls : list BlacklistList) (rules : list BlacklistRule)
    : DB -> DB * result store_error unit :=
  tx (fun c =>
    let rows := c_lists c in
    let c := with_rules c [] (cnt (c_rules c)) in
    let c := setBlSettings set (with_lists c [] (cnt (c_lists c))) in
    c <-? foldR (import_list rows) c ls ;;
    c <-? foldR (fun c r => x <-? putRule r c ;; Ok x.2) c rules ;;
    Ok (tt, c)).

(** ** Applying a primary's snapshot *)
Record SnapshotInput := mkSnapshotInput {
  sn_Views : list View; sn_Services : list Service; sn_Records : list DnsRecord; sn_Settings : Settings;
  sn_Blacklist : BlacklistSettings; sn_Lists : list BlacklistList; sn_Rules : list BlacklistRule }.

(** The incoming settings with every node-local column of the existing row. *)
Definition keep_local (old v : Settings) : Settings :=
  mkSettings (PrivateDomain v) (ReverseZones v) (Upstreams v) (AllowQuery v)
    (AllowTailscale v) (TTL v) (CacheMinTTL v) (CacheMaxTTL v) (NegativeMaxTTL v) (CacheEntries v)
    (LogQueries old) (LogClientIP old) (DHCPLeaseFile old) (DiscoveryInterval old) (HealthInterval v)
    (HealthTimeout v) (HealthWorkers v) (DHCPEnabled old) (DHCPInterface old) (DHCPRangeStart old)
    (DHCPRangeEnd old) (DHCPGateway old) (DHCPLeaseSeconds old) (DHCPSecondaryDNS old) (DHCPAllowForeign old).
Definition applySnapshot (s : SnapshotInput) (c : Conf) : result store_error (unit * Conf) :=
  c <-? replaceAll (sn_Views s) (sn_Services s) (sn_Records s) c ;;
  let v := match c_settings c with Some old => keep_local old (sn_Settings s) | None => sn_Settings s end in
  c <-? replaceBlacklistDefinitions (sn_Blacklist s) (sn_Lists s) (sn_Rules s) (putSettings v c) ;;
  Ok (tt, c).
Definition ApplySnapshot (s : SnapshotInput) : DB -> DB * result store_error unit := tx (applySnapshot s).
Definition ConfigVersion (db : DB) : Z := c_version (conf db).
