(* ===== verification/StoreNode.v ===== *)
(** * The node-local tables: tokens, the admin row, DHCP leases, peers

    The part of [internal/store] that never reaches a replica: no statement here
    touches a table with a [config_version] trigger.  [now] is what
    [unixepoch()] returns. *)
From S2P Require Import Prelude GoStr Model Store.

Definition set_tokens n x := mkNode x (n_admin n) (n_sso n) (n_leases n) (n_peers n) (n_replica n) (n_promotion n) (n_local n).
Definition set_admin n x := mkNode (n_tokens n) x (n_sso n) (n_leases n) (n_peers n) (n_replica n) (n_promotion n) (n_local n).
Definition set_sso n x := mkNode (n_tokens n) (n_admin n) x (n_leases n) (n_peers n) (n_replica n) (n_promotion n) (n_local n).
Definition set_leases n x := mkNode (n_tokens n) (n_admin n) (n_sso n) x (n_peers n) (n_replica n) (n_promotion n) (n_local n).
Definition set_peers n x := mkNode (n_tokens n) (n_admin n) (n_sso n) (n_leases n) x (n_replica n) (n_promotion n) (n_local n).
Definition set_replica n x := mkNode (n_tokens n) (n_admin n) (n_sso n) (n_leases n) (n_peers n) x (n_promotion n) (n_local n).
Definition set_promotion n x := mkNode (n_tokens n) (n_admin n) (n_sso n) (n_leases n) (n_peers n) (n_replica n) x (n_local n).
Definition set_local n x := mkNode (n_tokens n) (n_admin n) (n_sso n) (n_leases n) (n_peers n) (n_replica n) (n_promotion n) x.

(** A statement on the node-local tables. *)
Definition local {A} (f : Node -> result store_error (A * Node)) (db : DB) : DB * result store_error A :=
  match f (node db) with
  | Ok (a, n) => (mkDB (conf db) n, Ok a)
  | Err e => (db, Err e)
  end.

(** ** Tokens *)
Definition PutToken (now : Z) (t : Token) : DB -> DB * result store_error Z :=
  local (fun n =>
    if bool_decide (t_Hash t ∈ t_Hash <$> n_tokens n) then Err ErrConstraint
    else let id := next_id (t_ID <$> n_tokens n) in
      Ok (id, set_tokens n (n_tokens n ++ [mkToken id (t_Label t) (t_Hash t) now 0]))).
Definition Tokens (db : DB) : list Token := n_tokens (node db).
Definition TouchToken (now id : Z) : DB -> DB * result store_error unit :=
  local (fun n => Ok (tt, set_tokens n ((fun t => if t_ID t =? id
    then mkToken (t_ID t) (t_Label t) (t_Hash t) (t_CreatedAt t) now else t) <$> n_tokens n))).
Definition DeleteToken (id : Z) : DB -> DB * result store_error unit :=
  local (fun n => if bool_decide (id ∈ t_ID <$> n_tokens n)
    then Ok (tt, set_tokens n (filter (fun t => t_ID t <> id) (n_tokens n))) else Err ErrNotFound).

(** ** The admin account and single sign-on *)
Definition SetAdminPassword (now : Z) (hash : string) : DB -> DB * result store_error unit :=
  local (fun n => Ok (tt, set_admin n (Some match n_admin n with
    | None => mkAdmin hash "" "" "" 0 now
    | Some a => mkAdmin hash (SSOSub a) (SSOUsername a) (SSOEmail a) (SSOLinkedAt a) now
    end))).
Definition AdminHash (db : DB) : result store_error string :=
  match n_admin (node db) with Some a => Ok (PasswordHash a) | None => Err ErrNotFound end.
Definition GetAdminIdentity (db : DB) : result store_error AdminIdentity :=
  match n_admin (node db) with Some a => Ok a | None => Err ErrNotFound end.
Definition LinkAdminSSO (now : Z) (sub username email : string) : DB -> DB * result store_error unit :=
  local (fun n => match n_admin n with
    | None => Err ErrNotFound
    | Some a => Ok (tt, set_admin n (Some (mkAdmin (PasswordHash a) sub username email now now)))
    end).
Definition UnlinkAdminSSO (now : Z) : DB -> DB * result store_error unit :=
  local (fun n => match n_admin n with
    | None => Err ErrNotFound
    | Some a => Ok (tt, set_admin n (Some (mkAdmin (PasswordHash a) "" "" "" 0 now)))
    end).
Definition GetSSOSettings (db : DB) : SSOSettings := n_sso (node db).
Definition SetSSOSettings (s : SSOSettings) : DB -> DB * result store_error unit :=
  local (fun n => Ok (tt, set_sso n s)).
Definition HasAdmin (db : DB) : bool := bool_decide (is_Some (n_admin (node db))).

(** ** dhcplease.go *)
Definition lease_ip_le (a b : DHCPLease) : Prop := str_le (dl_IP a) (dl_IP b).
#[export] Instance lease_ip_le_dec : RelDecision lease_ip_le.
Proof. intros a b. unfold lease_ip_le. apply _. Defined.
Definition DHCPLeases (db : DB) : list DHCPLease := merge_sort lease_ip_le (n_leases (node db)).
Definition put_lease (l : DHCPLease) (ls : list DHCPLease) : list DHCPLease :=
  let ls := filter (fun x => ~ (dl_IP x = dl_IP l /\ dl_MAC x <> dl_MAC l)) ls in
  if bool_decide (dl_MAC l ∈ dl_MAC <$> ls)
  then (fun x => if bool_decide (dl_MAC x = dl_MAC l) then l else x) <$> ls
  else ls ++ [l].
Definition PutDHCPLease (l : DHCPLease) : DB -> DB * result store_error unit :=
  local (fun n => Ok (tt, set_leases n (put_lease l (n_leases n)))).
Definition DeleteDHCPLease (mac : string) : DB -> DB * result store_error unit :=
  local (fun n => Ok (tt, set_leases n (filter (fun x => dl_MAC x <> mac) (n_leases n)))).
Definition DeleteExpiredDHCPLeases (now : Z) : DB -> DB * result store_error Z :=
  local (fun n =>
    let keep := filter (fun x => ~ dl_ExpiresAt x <= now) (n_leases n) in
    Ok (cnt (n_leases n) - cnt keep, set_leases n keep)).

(** ** peer.go *)
Definition PairPeer (p : Peer) : DB -> DB * result store_error unit :=
  local (fun n => Ok (tt, set_peers n
    (if bool_decide (p_NodeID p ∈ p_NodeID <$> n_peers n)
     then (fun o => if bool_decide (p_NodeID o = p_NodeID p)
                    then mkPeer (p_NodeID o) (p_Label o) (p_Address p) (p_PairedAt p) (p_LastSyncAt o) (p_LastVersion o)
                    else o) <$> n_peers n
     else n_peers n ++ [p]))).
Definition peer_le (a b : Peer) : Prop :=
  if bool_decide (p_Label a = p_Label b) then str_le (p_NodeID a) (p_NodeID b)
  else str_le (p_Label a) (p_Label b).
#[export] Instance peer_le_dec : RelDecision peer_le.
Proof. intros a b. unfold peer_le. case_bool_decide; apply _. Defined.
Definition Peers (db : DB) : list Peer := merge_sort peer_le (n_peers (node db)).
Definition GetPeer (db : DB) (id : string) : result store_error Peer :=
  match List.find (fun p => bool_decide (p_NodeID p = id)) (n_peers (node db)) with
  | Some p => Ok p | None => Err ErrNotFound end.
Definition DeletePeer (id : string) : DB -> DB * result store_error unit :=
  local (fun n => if bool_decide (id ∈ p_NodeID <$> n_peers n)
    then Ok (tt, set_peers n (filter (fun p => p_NodeID p <> id) (n_peers n))) else Err ErrNotFound).
Definition TouchPeer (id : string) (at_ : Z) (version : option Z) : DB -> DB * result store_error unit :=
  local (fun n => if bool_decide (id ∈ p_NodeID <$> n_peers n)
    then Ok (tt, set_peers n ((fun o => if bool_decide (p_NodeID o = id)
           then mkPeer (p_NodeID o) (p_Label o) (p_Address o) (p_PairedAt o) at_ (default (p_LastVersion o) version)
           else o) <$> n_peers n))
    else Err ErrNotFound).
Definition ReplicaState (db : DB) : string * Z := n_replica (node db).
Definition SetReplicaState (id : string) (version : Z) : DB -> DB * result store_error unit :=
  local (fun n => Ok (tt, set_replica n (id, version))).
Definition Promotion (db : DB) : Z := default 0 (n_promotion (node db)).
Definition RecordPromotion (at_ : Z) : DB -> DB * result store_error unit :=
  local (fun n => Ok (tt, set_promotion n (Some at_))).
Definition FollowPrimary (id : string) (version : Z) : DB -> DB * result store_error unit :=
  local (fun n => Ok (tt, set_promotion (set_replica n (id, version)) None)).

(** ** backup.go: local settings *)
Definition GetLocalSetting (db : DB) (k : string) : result store_error string :=
  match n_local (node db) !! k with Some v => Ok v | None => Err ErrNotFound end.
Definition SetLocalSetting (k v : string) : DB -> DB * result store_error unit :=
  local (fun n => Ok (tt, set_local n (<[k := v]> (n_local n)))).
Definition DeleteLocalSetting (k : string) : DB -> DB * result store_error unit :=
  local (fun n => Ok (tt, set_local n (delete k (n_local n)))).

(** ** The whole interface of the store as one operation type *)
Inductive store_op :=
  | OpPutView (v : View) | OpDeleteView (n : string)
  | OpPutService (s : Service) | OpDeleteService (id : Z)
  | OpPutRecord (r : DnsRecord) | OpDeleteRecord (id : Z)
  | OpReplaceAll (v : list View) (s : list Service) (r : list DnsRecord)
  | OpPutSettings (v : Settings) | OpPutDHCPSettings (v : Settings)
  | OpRenameZone (v : Settings) (from to : string)
  | OpSetBlSettings (b : BlacklistSettings) | OpPutList (l : BlacklistList)
  | OpSnapshotList (id : Z) (ds : list string) (sk : Z) (etag lm : string) (at_ : Z)
  | OpListError (id : Z) (msg : string) (at_ : Z) | OpTouchList (id at_ : Z) | OpDeleteList (id : Z)
  | OpPutRule (r : BlacklistRule) | OpDeleteRule (id : Z)
  | OpReplaceBlacklist (b : BlacklistSettings) (ls : list BlacklistList) (rs : list BlacklistRule)
  | OpApplySnapshot (s : SnapshotInput)
  | OpPutToken (now : Z) (t : Token) | OpTouchToken (now id : Z) | OpDeleteToken (id : Z)
  | OpSetPassword (now : Z) (h : string) | OpLinkSSO (now : Z) (a b c : string) | OpUnlinkSSO (now : Z)
  | OpSetSSO (s : SSOSettings)
  | OpPutLease (l : DHCPLease) | OpDeleteLease (mac : string) | OpDeleteExpired (now : Z)
  | OpPairPeer (p : Peer) | OpDeletePeer (id : string) | OpTouchPeer (id : string) (at_ : Z) (v : option Z)
  | OpSetReplica (id : string) (v : Z) | OpRecordPromotion (at_ : Z) | OpFollowPrimary (id : string) (v : Z)
  | OpSetLocal (k v : string) | OpDeleteLocal (k : string).

Definition exec (op : store_op) (db : DB) : DB :=
  match op with
  | OpPutView v => (PutView v db).1 | OpDeleteView n => (DeleteView n db).1
  | OpPutService s => (PutService s db).1 | OpDeleteService id => (DeleteService id db).1
  | OpPutRecord r => (PutRecord r db).1 | OpDeleteRecord id => (DeleteRecord id db).1
  | OpReplaceAll v s r => (ReplaceAll v s r db).1
  | OpPutSettings v => (PutSettings v db).1 | OpPutDHCPSettings v => (PutDHCPSettings v db).1
  | OpRenameZone v f t => (PutSettingsRenamingZone v f t db).1
  | OpSetBlSettings b => (SetBlacklistSettings b db).1 | OpPutList l => (PutBlacklistList l db).1
  | OpSnapshotList id ds sk e lm a => (SetBlacklistSnapshot id ds sk e lm a db).1
  | OpListError id m a => (SetBlacklistError id m a db).1 | OpTouchList id a => (TouchBlacklistAttempt id a db).1
  | OpDeleteList id => (DeleteBlacklistList id db).1
  | OpPutRule r => (PutBlacklistRule r db).1 | OpDeleteRule id => (DeleteBlacklistRule id db).1
  | OpReplaceBlacklist b ls rs => (ReplaceBlacklist b ls rs db).1
  | OpApplySnapshot s => (ApplySnapshot s db).1
  | OpPutToken n t => (PutToken n t db).1 | OpTouchToken n id => (TouchToken n id db).1
  | OpDeleteToken id => (DeleteToken id db).1
  | OpSetPassword n h => (SetAdminPassword n h db).1 | OpLinkSSO n a b c => (LinkAdminSSO n a b c db).1
  | OpUnlinkSSO n => (UnlinkAdminSSO n db).1 | OpSetSSO s => (SetSSOSettings s db).1
  | OpPutLease l => (PutDHCPLease l db).1 | OpDeleteLease m => (DeleteDHCPLease m db).1
  | OpDeleteExpired n => (DeleteExpiredDHCPLeases n db).1
  | OpPairPeer p => (PairPeer p db).1 | OpDeletePeer id => (DeletePeer id db).1
  | OpTouchPeer id a v => (TouchPeer id a v db).1
  | OpSetReplica id v => (SetReplicaState id v db).1 | OpRecordPromotion a => (RecordPromotion a db).1
  | OpFollowPrimary id v => (FollowPrimary id v db).1
  | OpSetLocal k v => (SetLocalSetting k v db).1 | OpDeleteLocal k => (DeleteLocalSetting k db).1
  end.
