(* ===== verification/StoreVersion.v ===== *)
(** * The version counter: what replicas poll

    [config_version] moves for every write that changes something a replica
    copies.  [steps c c'] is the relation every statement on the replicated
    tables keeps; it composes, so each method is proved from its statements. *)
From S2P Require Import Prelude GoStr Model Store StoreNode.

#[local] Arguments replicated_settings : simpl never.
#[local] Arguments list_definition : simpl never.

(** Everything a replica copies: the definition columns of lists, the replicated
    columns of settings, and the other replicated tables whole. *)
Definition replicated (c : Conf) :=
  (c_views c, c_subnets c, c_services c, c_addresses c, c_aliases c, c_records c, c_blset c,
   list_definition <$> c_lists c, c_rules c, replicated_settings <$> c_settings c).

Definition steps (c c' : Conf) : Prop :=
  c_version c <= c_version c' /\ (c_version c' = c_version c -> replicated c' = replicated c).

#[export] Instance steps_refl : Reflexive steps.
Proof. intros c. split; [lia | done]. Qed.
#[export] Instance steps_trans : Transitive steps.
Proof.
  intros a b c [H1 H2] [H3 H4]. split; [lia|]. intros H. rewrite H4, H2; [done|lia|lia].
Qed.

Create HintDb store discriminated.
#[export] Hint Constants Opaque : store.
#[export] Hint Resolve steps_refl : store.

(** A statement that fires one trigger at least. *)
Lemma steps_bump c c' : c_version c < c_version c' -> steps c c'.
Proof. split; lia. Qed.
(** A statement that changes no replicated column. *)
Lemma steps_same c c' : c_version c' = c_version c -> replicated c' = replicated c -> steps c c'.
Proof. intros H1 H2. split; [lia|done]. Qed.

Lemma filter_same {A} (P : A -> Prop) `{forall x, Decision (P x)} (l : list A) :
  cnt l - cnt (filter P l) = 0 -> filter P l = l.
Proof.
  unfold cnt. intros Hc. assert (Hl : length (filter P l) = length l) by lia. clear Hc.
  induction l as [|a l IH]; [done|]. rewrite filter_cons in Hl |- *.
  pose proof (length_filter P l). destruct (decide (P a)); simpl in *; [f_equal; apply IH; lia | lia].
Qed.
Lemma filter_cnt_le {A} (P : A -> Prop) `{forall x, Decision (P x)} (l : list A) : cnt (filter P l) <= cnt l.
Proof. unfold cnt. pose proof (length_filter P l). lia. Qed.

(** A deletion through a field update: the rows that stay and the rows that went. *)
Ltac deletion :=
  cbv zeta; match goal with
  | |- steps ?c (?w ?c (filter ?P ?l) (cnt ?l - cnt (filter ?P ?l))) =>
      let H := fresh in let E := fresh in
      pose proof (filter_cnt_le P l) as H; unfold w in *; simpl in *;
      split; simpl; [lia|]; intros E; unfold replicated; simpl;
      assert (cnt l - cnt (filter P l) = 0) as ?%filter_same by (simpl; lia); simpl in *; congruence
  end.

Lemma steps_foldR {A} (f : Conf -> A -> result store_error Conf) l :
  (forall c a c', f c a = Ok c' -> steps c c') -> forall c c', foldR f c l = Ok c' -> steps c c'.
Proof.
  intros Hf c c' H. revert c' H.
  enough (forall s', foldR f c l = Ok s' -> steps c s') by done.
  intros s'. apply (foldR_inv (steps c) f l); [|done].
  intros s a s1 H1 _ H2. etrans; [exact H1 | by eapply Hf].
Qed.

Lemma delete_subnets_steps n c : steps c (delete_subnets n c).
Proof. unfold delete_subnets. deletion. Qed.
Lemma delete_children_steps id c : steps c (delete_children id c).
Proof.
  unfold delete_children. cbv zeta.
  match goal with |- steps _ (with_aliases ?d _ _) => trans d end; deletion.
Qed.
Lemma insert_view_steps n c : steps c (insert_view n c).
Proof. unfold insert_view. case_bool_decide; [done | apply steps_bump; simpl; lia]. Qed.
Lemma insert_subnet_steps n c x c' : insert_subnet n c x = Ok c' -> steps c c'.
Proof. unfold insert_subnet. case_if; [done|]. intros [= <-]. apply steps_bump. simpl. lia. Qed.
Lemma putView_steps v c x : putView v c = Ok x -> steps c x.2.
Proof.
  unfold putView. rewrite rbind_ok. intros (c' & H & [= <-]). simpl.
  etrans; [apply (insert_view_steps (v_Name v))|]. etrans; [apply (delete_subnets_steps (v_Name v))|].
  eapply steps_foldR; [|exact H]. intros *; apply insert_subnet_steps.
Qed.
Lemma insert_address_steps id c a c' : insert_address id c a = Ok c' -> steps c c'.
Proof. unfold insert_address. case_if; [|done]. intros [= <-]. apply steps_bump. simpl. lia. Qed.
Lemma insert_alias_steps id c a c' : insert_alias id c a = Ok c' -> steps c c'.
Proof.
  unfold insert_alias. case_if; [done|]. case_if; [|done]. intros [= <-]. apply steps_bump. simpl. lia.
Qed.
Lemma put_svc_row_steps s c x : put_svc_row s c = Ok x -> steps c x.2.
Proof.
  unfold put_svc_row. repeat case_if; intros H; try done; injection H as <-; simpl.
  - apply steps_bump. simpl. lia.
  - etrans; [|apply delete_children_steps]. apply steps_bump. simpl. lia.
  - apply delete_children_steps.
Qed.
Lemma putService_steps s c x : putService s c = Ok x -> steps c x.2.
Proof.
  unfold putService. rewrite rbind_ok. intros ([id c0] & H0 & H1%rbind_ok).
  destruct H1 as (c1 & H1 & (c2 & H2 & [= <-])%rbind_ok). simpl in *.
  etrans; [exact (put_svc_row_steps _ _ _ H0)|].
  etrans; [eapply steps_foldR; [|exact H1]; intros *; apply insert_address_steps|].
  eapply steps_foldR; [|exact H2]. intros *; apply insert_alias_steps.
Qed.
Lemma putRecord_steps r c x : putRecord r c = Ok x -> steps c x.2.
Proof. unfold putRecord. case_if; [|done]. intros [= <-]. apply steps_bump. simpl. lia. Qed.

Lemma wipe_one_steps {A} (w : Conf -> list A -> Z -> Conf) c (l : list A) :
  c_version (w c [] (cnt l)) = c_version c + cnt l ->
  (l = [] -> replicated (w c [] (cnt l)) = replicated c) -> steps c (w c [] (cnt l)).
Proof.
  intros H1 H2. destruct l as [|a l]; [apply steps_same; [rewrite H1; unfold cnt; simpl; lia | by apply H2]|].
  apply steps_bump. rewrite H1. unfold cnt. simpl. lia.
Qed.
Lemma wipe_registry_steps c : steps c (wipe_registry c).
Proof.
  unfold wipe_registry.
  repeat (etrans; [|apply wipe_one_steps; [done|]; unfold replicated; simpl; by intros ->]). done.
Qed.
Lemma replaceAll_steps v s r c c' : replaceAll v s r c = Ok c' -> steps c c'.
Proof.
  unfold replaceAll. rewrite rbind_ok. intros (c1 & H1 & (c2 & H2 & H3)%rbind_ok).
  etrans; [apply wipe_registry_steps|].
  etrans; [eapply steps_foldR; [|exact H1]; intros c0 a c0' (x & Hx & [= <-])%rbind_ok; by eapply putView_steps|].
  etrans; [eapply steps_foldR; [|exact H2]; intros c0 a c0' (x & Hx & [= <-])%rbind_ok; by eapply putService_steps|].
  eapply steps_foldR; [|exact H3]; intros c0 a c0' (x & Hx & [= <-])%rbind_ok; by eapply putRecord_steps.
Qed.

Lemma putSettings_steps v c : steps c (putSettings v c).
Proof.
  unfold putSettings. destruct (c_settings c) as [old|] eqn:E.
  - case_bool_decide as Hr.
    + apply steps_same; [simpl; lia|]. unfold replicated. simpl. rewrite E. simpl. by rewrite Hr.
    + apply steps_bump. simpl. lia.
  - apply steps_bump. simpl. lia.
Qed.
Lemma renameRecords_steps f t c : steps c (renameRecords f t c).2.
Proof.
  unfold renameRecords. simpl. split; [simpl; unfold cnt; lia|]. simpl. intros H.
  assert (Ho : omap (rename_record f t) (c_records c) = []).
  { apply length_zero_iff_nil. unfold cnt in H. lia. }
  unfold replicated. simpl. rewrite fmap_id_ext; [done|]. intros r Hr.
  destruct (rename_record f t r) as [r'|] eqn:E; [|done]. exfalso.
  assert (r' ∈ omap (rename_record f t) (c_records c)) as Hin by (apply list_elem_of_omap; eauto).
  rewrite Ho in Hin. by apply not_elem_of_nil in Hin.
Qed.

Lemma update_lists_steps f c : steps c (update_lists f c).
Proof.
  unfold update_lists. split; [simpl; unfold cnt; lia|]. simpl. intros H.
  assert (Hf : filter (fun l => list_definition l <> list_definition (f l)) (c_lists c) = []).
  { apply length_zero_iff_nil. unfold cnt in H. lia. }
  unfold replicated. simpl. rewrite <- list_fmap_compose.
  rewrite (list_fmap_ext (list_definition ∘ f) list_definition (c_lists c)); [done|].
  intros i l Hl. simpl. destruct (decide (list_definition l = list_definition (f l))) as [E|E]; [done|].
  exfalso. assert (Hin : l ∈ filter (fun l => list_definition l <> list_definition (f l)) (c_lists c)).
  { apply list_elem_of_filter. split; [done|]. by eapply list_elem_of_lookup_2. }
  rewrite Hf in Hin. by apply not_elem_of_nil in Hin.
Qed.

Lemma update_if_steps id f c :
  steps c (update_lists (fun o => if bl_ID o =? id then f o else o) c).
Proof. apply update_lists_steps. Qed.
Lemma insert_list_steps l c x : insert_list l c = Ok x -> steps c x.2.
Proof. unfold insert_list. case_if; [done|]. intros [= <-]. apply steps_bump. simpl. lia. Qed.
Lemma putRule_steps r c x : putRule r c = Ok x -> steps c x.2.
Proof. unfold putRule. case_if; [done|]. intros [= <-]. apply steps_bump. simpl. lia. Qed.
Lemma putRules_steps rs c c' :
  foldR (fun c r => x <-? putRule r c ;; Ok x.2) c rs = Ok c' -> steps c c'.
Proof.
  apply steps_foldR. intros c0 r c1 (x & Hx & [= <-])%rbind_ok. by eapply putRule_steps.
Qed.
Lemma replace_rules_steps rs c c' : replace_rules rs c = Ok c' -> steps c c'.
Proof.
  unfold replace_rules. intros H%putRules_steps. etrans; [|exact H].
  apply wipe_one_steps; [done|]. unfold replicated; simpl; by intros ->.
Qed.
Lemma replace_list_steps ex c l c' : replace_list ex c l = Ok c' -> steps c c'.
Proof.
  unfold replace_list. destruct (List.find _ ex) as [[n u]|].
  - case_if; intros [= <-]; apply update_lists_steps.
  - destruct (insert_list l c) eqn:E; [|done]. intros [= <-]. by eapply insert_list_steps.
Qed.
Lemma replaceBlacklistDefinitions_steps set ls rs c c' :
  replaceBlacklistDefinitions set ls rs c = Ok c' -> steps c c'.
Proof.
  unfold replaceBlacklistDefinitions. cbv zeta. rewrite rbind_ok. intros (c1 & H1 & H2).
  etrans; [apply (steps_bump c (setBlSettings set c)); simpl; lia|].
  etrans; [eapply steps_foldR; [|exact H1]; intros *; apply replace_list_steps|].
  etrans; [|by eapply replace_rules_steps]. deletion.
Qed.
Lemma import_list_steps rows c l c' : import_list rows c l = Ok c' -> steps c c'.
Proof. unfold import_list. case_if; [done|]. intros [= <-]. apply steps_bump. simpl. lia. Qed.

Lemma tx_steps {A} (f : Conf -> result store_error (A * Conf)) db :
  (forall x, f (conf db) = Ok x -> steps (conf db) x.2) ->
  steps (conf db) (conf (tx f db).1).
Proof. intros Hf. unfold tx. destruct (f (conf db)) as [[a c]|] eqn:E; simpl; [apply (Hf _ eq_refl) | done]. Qed.

Lemma local_conf {A} (f : Node -> result store_error (A * Node)) db : conf (local f db).1 = conf db.
Proof. unfold local. by destruct (f (node db)) as [[a n]|]. Qed.
Lemma local_steps {A} (f : Node -> result store_error (A * Node)) db : steps (conf db) (conf (local f db).1).
Proof. by rewrite local_conf. Qed.
Lemma tx_node {A} (f : Conf -> result store_error (A * Conf)) db : node (tx f db).1 = node db.
Proof. unfold tx. by destruct (f (conf db)) as [[a c]|]. Qed.

Ltac one_row := intros [= <-]; apply steps_bump; simpl; lia.

Lemma exec_steps op db : steps (conf db) (conf (exec op db)).
Proof.
  destruct op; cbn [exec]; try apply local_steps; apply tx_steps; intros x.
  - apply putView_steps.
  - unfold deleteView. case_if; [done|]. case_bool_decide; [|done]. intros [= <-].
    etrans; [|apply delete_subnets_steps]. apply steps_bump; simpl; lia.
  - apply putService_steps.
  - unfold deleteService. case_if; [|done]. intros [= <-].
    etrans; [|apply delete_children_steps]. apply steps_bump; simpl; lia.
  - apply putRecord_steps.
  - unfold deleteRecord. case_if; [one_row | done].
  - intros (c & H & [= <-])%rbind_ok. by eapply replaceAll_steps.
  - intros [= <-]. apply putSettings_steps.
  - unfold putDHCPSettings. destruct (c_settings (conf db)) eqn:E; [|done]. intros [= <-].
    apply steps_same; [simpl; lia|]. unfold replicated. simpl. by rewrite E.
  - intros [= <-]. etrans; [apply putSettings_steps | apply renameRecords_steps].
  - one_row.
  - unfold putBlacklistList. case_if; [apply insert_list_steps|]. repeat case_if; try done.
    intros [= <-]. apply update_if_steps.
  - case_if; [|done]. intros [= <-]. apply update_if_steps.
  - intros [= <-]. apply update_if_steps.
  - intros [= <-]. apply update_if_steps.
  - unfold deleteList. case_if; [one_row | done].
  - apply putRule_steps.
  - unfold deleteRule. case_if; [one_row | done].
  - cbv zeta. intros (c & H & (c' & H' & [= <-])%rbind_ok)%rbind_ok. simpl.
    etrans; [|by eapply putRules_steps].
    etrans; [|eapply steps_foldR; [|exact H]; intros *; apply import_list_steps].
    etrans; [apply (wipe_one_steps with_rules (conf db) (c_rules (conf db))); [done|];
      unfold replicated; simpl; by intros ->|].
    apply steps_bump. simpl. unfold cnt. lia.
  - unfold applySnapshot. intros (c & H & H1)%rbind_ok. cbv zeta in H1.
    apply rbind_ok in H1 as (c' & H' & [= <-]). simpl.
    etrans; [by eapply replaceAll_steps|].
    etrans; [|by eapply replaceBlacklistDefinitions_steps]. apply putSettings_steps.
Qed.

(** C7: whatever sequence of store operations runs, failing ones included, the
    configuration version never decreases, and if it is unchanged then
    everything a replica copies is unchanged: no write path can change
    replicated data without moving the counter replicas poll. *)
Theorem version_tracks_replicated ops db :
  let db' := foldl (fun db op => exec op db) db ops in
  ConfigVersion db <= ConfigVersion db'
  /\ (ConfigVersion db' = ConfigVersion db -> replicated (conf db') = replicated (conf db)).
Proof.
  intros db'. change (steps (conf db) (conf db')). unfold db'.
  apply (foldl_inv (fun d => steps (conf db) (conf d))); [|done].
  intros d op Hd _. etrans; [exact Hd | apply exec_steps].
Qed.
