(* ===== verification/StoreWf.v ===== *)
(** * Integrity of the replicated tables

    The unique and foreign-key constraints of the schema as one invariant, kept
    by every operation of the store. *)
From S2P Require Import Prelude GoStr Model Store StoreNode StoreVersion.

Record wf_conf (c : Conf) : Prop := {
  wf_views : NoDup (c_views c);
  wf_cidrs : NoDup (c_subnets c).*2;
  wf_subnet_view : forall x, x ∈ c_subnets c -> x.1 ∈ c_views c;
  wf_svc_ids : NoDup (sv_ID <$> c_services c);
  wf_svc_names : NoDup (sv_Name <$> c_services c);
  wf_addr_ids : NoDup (ad_ID <$> c_addresses c);
  wf_addr_svc : forall a, a ∈ c_addresses c -> ad_Svc a ∈ sv_ID <$> c_services c;
  wf_addr_view : forall a, a ∈ c_addresses c -> view_ok c (ad_View a) = true;
  wf_alias_ids : NoDup (al_ID <$> c_aliases c);
  wf_alias_names : NoDup (al_Name <$> c_aliases c);
  wf_alias_svc : forall a, a ∈ c_aliases c -> al_Svc a ∈ sv_ID <$> c_services c;
  wf_rec_ids : NoDup (r_ID <$> c_records c);
  wf_rec_view : forall r, r ∈ c_records c -> view_ok c (r_View r) = true;
  wf_list_ids : NoDup (bl_ID <$> c_lists c);
  wf_list_names : NoDup (bl_Name <$> c_lists c);
  wf_rule_ids : NoDup (br_ID <$> c_rules c);
  wf_rule_domains : NoDup (br_Domain <$> c_rules c) }.

(** ** Lists with a unique column *)
Lemma NoDup_snoc {A} (l : list A) x : NoDup l -> x ∉ l -> NoDup (l ++ [x]).
Proof.
  intros Hl Hx. apply NoDup_app. split; [done|]. split; [|apply NoDup_singleton].
  intros y Hy Hy'%list_elem_of_singleton. by subst.
Qed.
Lemma NoDup_fmap_snoc {A B} (f : A -> B) (l : list A) x : NoDup (f <$> l) -> f x ∉ f <$> l -> NoDup (f <$> (l ++ [x])).
Proof. intros. rewrite fmap_app. by apply NoDup_snoc. Qed.
Lemma NoDup_fmap_filter' {A B} (f : A -> B) (P : A -> Prop) `{forall x, Decision (P x)} (l : list A) :
  NoDup (f <$> l) -> NoDup (f <$> filter P l).
Proof. intros H'. eapply sublist_NoDup; [exact H'|]. apply fmap_sublist, sublist_filter. Qed.
Lemma next_id_fresh ids : next_id ids ∉ ids.
Proof.
  unfold next_id. assert (forall x, x ∈ ids -> x <= foldr Z.max 0 ids) as H.
  { induction ids as [|i ids IH]; intros x; [by intros ?%not_elem_of_nil|].
    intros [->|Hx]%elem_of_cons; simpl; [lia|]. specialize (IH x Hx). lia. }
  intros Hin. apply H in Hin. lia.
Qed.
Lemma next_id_pos ids : 0 < next_id ids.
Proof. unfold next_id. assert (0 <= foldr Z.max 0 ids); [|lia]. induction ids; simpl; lia. Qed.

(** Rewriting the rows with one key keeps the key column, and keeps another
    column unique when no other row has the new value. *)
Lemma update_key {A} (key : A -> Z) (g : A -> A) k (l : list A) :
  (forall x, key x = k -> key (g x) = k) ->
  key <$> ((fun x => if key x =? k then g x else x) <$> l) = key <$> l.
Proof.
  intros Hg. rewrite <- list_fmap_compose. apply list_fmap_ext. intros i x _. simpl.
  destruct (Z.eqb_spec (key x) k); [rewrite Hg by done; congruence | done].
Qed.
Lemma update_unique {A B K} (key : A -> K) (col : A -> B) (t : A -> bool) (g : A -> A) k n (l : list A) :
  (forall x, t x = true <-> key x = k) ->
  NoDup (key <$> l) -> NoDup (col <$> l) ->
  (forall x, x ∈ l -> key x = k -> col (g x) = n) ->
  (forall x, x ∈ l -> key x <> k -> col x <> n) ->
  NoDup (col <$> ((fun x => if t x then g x else x) <$> l)).
Proof.
  intros Ht. induction l as [|a l IH]; intros Hk Hc Hg Hn; [constructor|].
  rewrite !fmap_cons in *. apply NoDup_cons in Hk as [Hk1 Hk2]. apply NoDup_cons in Hc as [Hc1 Hc2].
  specialize (IH Hk2 Hc2 ltac:(intros; apply Hg; [by right|done]) ltac:(intros; apply Hn; [by right|done])).
  constructor; [|done]. rewrite !list_elem_of_fmap. intros (y & Hy & (x & -> & Hx)%list_elem_of_fmap).
  destruct (t a) eqn:Ea, (t x) eqn:Ex; rewrite ?Ht, <- ?not_true_iff_false, ?Ht in *.
  - apply Hk1. rewrite Ea, <- Ex. by apply list_elem_of_fmap_2.
  - rewrite (Hg a) in Hy by (done || left). symmetry in Hy. revert Hy. apply Hn; [by right|done].
  - rewrite (Hg x) in Hy by (by right || done). revert Hy. apply Hn; [left|done].
  - apply Hc1. rewrite Hy. by apply list_elem_of_fmap_2.
Qed.

#[local] Arguments view_ok : simpl never.

Lemma view_ok_spec c v : view_ok c v = true <-> v = "" \/ v ∈ c_views c.
Proof. unfold view_ok. by rewrite bool_decide_eq_true. Qed.
Lemma svc_ok_spec c id : svc_ok c id = true <-> id ∈ sv_ID <$> c_services c.
Proof. unfold svc_ok. by rewrite bool_decide_eq_true. Qed.

(** Breaks the invariant into its clauses, closing those the statement does not
    touch. *)
Ltac wf H := destruct H; constructor; simpl; try done.

Lemma insert_view_wf n c : wf_conf c -> wf_conf (insert_view n c).
Proof.
  unfold insert_view. intros H. case_bool_decide; [done|]. wf H.
  - by apply NoDup_snoc.
  - intros x Hx. apply elem_of_app. auto.
  - intros a Ha. apply wf_addr_view0 in Ha. rewrite view_ok_spec in *. simpl. rewrite elem_of_app. tauto.
  - intros a Ha. apply wf_rec_view0 in Ha. rewrite view_ok_spec in *. simpl. rewrite elem_of_app. tauto.
Qed.
Lemma delete_subnets_wf n c : wf_conf c -> wf_conf (delete_subnets n c).
Proof.
  intros H. wf H.
  - by apply NoDup_fmap_filter'.
  - intros x [_ Hx]%list_elem_of_filter. auto.
Qed.
Lemma insert_subnet_wf n c x c' :
  wf_conf c -> n ∈ c_views c -> insert_subnet n c x = Ok c' -> wf_conf c' /\ c_views c' = c_views c.
Proof.
  intros H Hn. unfold insert_subnet. case_bool_decide; [done|]. intros [= <-]. split; [|done]. wf H.
  - rewrite fmap_app. by apply NoDup_snoc.
  - intros y [Hy|Hy%list_elem_of_singleton]%elem_of_app; [auto|by subst].
Qed.
Lemma putView_wf v c x : wf_conf c -> putView v c = Ok x -> wf_conf x.2.
Proof.
  intros H. unfold putView. rewrite rbind_ok. intros (c1 & H1 & [= <-]). simpl.
  enough (wf_conf c1 /\ v_Name v ∈ c_views c1) by tauto.
  eapply (foldR_inv (fun c => wf_conf c /\ v_Name v ∈ c_views c)); [| |exact H1].
  - intros s a s' [Hs Hv] _ Hi. apply insert_subnet_wf in Hi as [? ->]; done.
  - split; [by apply delete_subnets_wf, insert_view_wf|]. simpl. unfold insert_view.
    case_bool_decide; [done|]. simpl. apply elem_of_app. right. by left.
Qed.

Lemma delete_children_wf id c : wf_conf c -> wf_conf (delete_children id c).
Proof.
  intros H. wf H.
  - by apply NoDup_fmap_filter'.
  - intros a [_ Ha]%list_elem_of_filter. auto.
  - intros a [_ Ha]%list_elem_of_filter. by apply wf_addr_view0.
  - by apply NoDup_fmap_filter'.
  - by apply NoDup_fmap_filter'.
  - intros a [_ Ha]%list_elem_of_filter. auto.
Qed.
Lemma insert_address_wf id c a c' : wf_conf c -> insert_address id c a = Ok c' -> wf_conf c'.
Proof.
  intros H. unfold insert_address. case_if; [|done]. intros [= <-].
  apply andb_true_iff in Heqb as [H1%svc_ok_spec H2]. wf H.
  - apply NoDup_fmap_snoc; [done|apply next_id_fresh].
  - intros x [Hx|Hx%list_elem_of_singleton]%elem_of_app; [auto|by subst].
  - intros x [Hx|Hx%list_elem_of_singleton]%elem_of_app; [by apply wf_addr_view0|by subst].
Qed.
Lemma insert_alias_wf id c a c' : wf_conf c -> insert_alias id c a = Ok c' -> wf_conf c'.
Proof.
  intros H. unfold insert_alias. case_bool_decide; [done|]. case_if; [|done]. intros [= <-].
  apply svc_ok_spec in Heqb. wf H.
  - apply NoDup_fmap_snoc; [done|apply next_id_fresh].
  - by apply NoDup_fmap_snoc.
  - intros x [Hx|Hx%list_elem_of_singleton]%elem_of_app; [auto|by subst].
Qed.
Lemma put_svc_row_wf s c x : wf_conf c -> put_svc_row s c = Ok x -> wf_conf x.2.
Proof.
  intros H. unfold put_svc_row. case_if.
  - case_bool_decide; [done|]. intros [= <-]. wf H.
    + apply NoDup_fmap_snoc; [done|]. apply next_id_fresh.
    + by apply NoDup_fmap_snoc.
    + intros a Ha. rewrite fmap_app, elem_of_app. auto.
    + intros a Ha. rewrite fmap_app, elem_of_app. auto.
  - case_if; [|intros [= <-]; by apply delete_children_wf].
    case_if; [done|]. intros [= <-]. apply delete_children_wf.
    assert (Hid : sv_ID <$> ((fun r => if sv_ID r =? s_ID s then svc_row (s_ID s) s else r) <$> c_services c)
                  = sv_ID <$> c_services c) by (by apply update_key).
    wf H; rewrite ?Hid; try done.
    apply (update_unique sv_ID sv_Name _ _ (s_ID s) (s_Name s)); [intros; apply Z.eqb_eq|done|done|done|].
    intros r Hr Hne Hn. rewrite existsb_false_forall in Heqb1. specialize (Heqb1 r Hr).
    rewrite (bool_decide_eq_true_2 _ Hn), andb_true_r in Heqb1. bool_to_prop. done.
Qed.
Lemma putService_wf s c x : wf_conf c -> putService s c = Ok x -> wf_conf x.2.
Proof.
  intros H. unfold putService. rewrite rbind_ok. intros ([id c0] & H0 & H1%rbind_ok).
  destruct H1 as (c1 & H1 & (c2 & H2 & [= <-])%rbind_ok). simpl in *.
  apply put_svc_row_wf in H0; [|done].
  eapply (foldR_inv wf_conf); [intros; eapply insert_alias_wf; eauto| |exact H2].
  eapply (foldR_inv wf_conf); [|exact H0|exact H1]. intros; eapply insert_address_wf; eauto.
Qed.

Lemma cnt_zero {A} (l : list A) : ~ 0 < cnt l -> l = [].
Proof. destruct l; [done|]. unfold cnt. simpl. lia. Qed.
Lemma filter_nil {A} (P : A -> Prop) `{forall x, Decision (P x)} (l : list A) x :
  filter P l = [] -> x ∈ l -> ~ P x.
Proof.
  intros Hf Hx Hp. assert (x ∈ filter P l) as Hin by (by apply list_elem_of_filter).
  rewrite Hf in Hin. by apply not_elem_of_nil in Hin.
Qed.

Lemma view_refs_zero n c : view_refs n c <= 0 -> n <> "" ->
  (forall a, a ∈ c_addresses c -> ad_View a <> n) /\ (forall r, r ∈ c_records c -> r_View r <> n).
Proof.
  unfold view_refs. intros H Hn. rewrite bool_decide_eq_false_2 in H by done.
  assert (H1 : ~ 0 < cnt (filter (fun a => ad_View a = n) (c_addresses c))) by (unfold cnt in *; lia).
  assert (H2 : ~ 0 < cnt (filter (fun r => r_View r = n) (c_records c))) by (unfold cnt in *; lia).
  apply cnt_zero in H1, H2. split; intros x Hx; [exact (filter_nil _ _ _ H1 Hx) | exact (filter_nil _ _ _ H2 Hx)].
Qed.

Lemma deleteView_wf n c x : wf_conf c -> deleteView n c = Ok x -> wf_conf x.2.
Proof.
  intros H. unfold deleteView. case_if; [done|]. case_bool_decide as Hin; [|done]. intros [= <-].
  assert (Hv : forall v, v <> n \/ v = "" -> view_ok c v = true ->
    view_ok (with_views c (filter (fun v => v <> n) (c_views c)) 1) v = true).
  { intros v Hne. rewrite !view_ok_spec. simpl. rewrite list_elem_of_filter. tauto. }
  assert (Hr : n <> "" -> (forall a, a ∈ c_addresses c -> ad_View a <> n) /\ (forall r, r ∈ c_records c -> r_View r <> n)).
  { intros Hn. apply view_refs_zero; [bool_to_prop; lia | done]. }
  wf H.
  - by apply NoDup_filter.
  - by apply NoDup_fmap_filter'.
  - intros y [Hy1 Hy]%list_elem_of_filter. apply list_elem_of_filter. auto.
  - intros a Ha. apply Hv; [|by apply wf_addr_view0].
    destruct (decide (n = "")) as [->|Hn]; [destruct (decide (ad_View a = "")); auto|left; by apply Hr].
  - intros r Hrc. apply Hv; [|by apply wf_rec_view0].
    destruct (decide (n = "")) as [->|Hn]; [destruct (decide (r_View r = "")); auto|left; by apply Hr].
Qed.
Lemma deleteService_wf id c x : wf_conf c -> deleteService id c = Ok x -> wf_conf x.2.
Proof.
  intros H. unfold deleteService. case_if; [|done]. intros [= <-].
  assert (Hs : forall k, k <> id -> k ∈ sv_ID <$> c_services c ->
    k ∈ sv_ID <$> filter (fun r => sv_ID r <> id) (c_services c)).
  { intros k Hk (r & -> & Hr)%list_elem_of_fmap. apply list_elem_of_fmap_2, list_elem_of_filter. done. }
  wf H.
  - by apply NoDup_fmap_filter'.
  - by apply NoDup_fmap_filter'.
  - by apply NoDup_fmap_filter'.
  - intros a [Ha1 Ha]%list_elem_of_filter. auto.
  - intros a [_ Ha]%list_elem_of_filter. by apply wf_addr_view0.
  - by apply NoDup_fmap_filter'.
  - by apply NoDup_fmap_filter'.
  - intros a [Ha1 Ha]%list_elem_of_filter. auto.
Qed.
Lemma putRecord_wf r c x : wf_conf c -> putRecord r c = Ok x -> wf_conf x.2.
Proof.
  intros H. unfold putRecord. case_if; [|done]. intros [= <-]. wf H.
  - apply NoDup_fmap_snoc; [done|apply next_id_fresh].
  - intros y [Hy|Hy%list_elem_of_singleton]%elem_of_app; [by apply wf_rec_view0|by subst].
Qed.
Lemma deleteRecord_wf id c x : wf_conf c -> deleteRecord id c = Ok x -> wf_conf x.2.
Proof.
  intros H. unfold deleteRecord. case_if; [|done]. intros [= <-]. wf H.
  - by apply NoDup_fmap_filter'.
  - intros r [_ Hr]%list_elem_of_filter. by apply wf_rec_view0.
Qed.
Lemma wipe_registry_wf c : wf_conf c -> wf_conf (wipe_registry c).
Proof. intros H. wf H; first [by intros ? ?%not_elem_of_nil | by constructor]. Qed.

Lemma foldR_step_wf {A B} (f : A -> Conf -> result store_error (B * Conf)) l c c' :
  (forall a c x, wf_conf c -> f a c = Ok x -> wf_conf x.2) ->
  wf_conf c -> foldR (fun c a => r <-? f a c ;; Ok r.2) c l = Ok c' -> wf_conf c'.
Proof.
  intros Hf Hc. apply (foldR_inv wf_conf); [|done].
  intros s a s' Hs _ (x & Hx & [= <-])%rbind_ok. by eapply Hf.
Qed.
Lemma replaceAll_wf v s r c c' : wf_conf c -> replaceAll v s r c = Ok c' -> wf_conf c'.
Proof.
  intros H. unfold replaceAll. rewrite rbind_ok. intros (c1 & H1 & (c2 & H2 & H3)%rbind_ok).
  apply (foldR_step_wf putView) in H1; [|apply putView_wf|by apply wipe_registry_wf].
  apply (foldR_step_wf (fun s => putService (drop_svc_id s))) in H2; [|intros *; apply putService_wf|done].
  by apply (foldR_step_wf putRecord) in H3; [|apply putRecord_wf|].
Qed.

Lemma putSettings_wf v c : wf_conf c -> wf_conf (putSettings v c).
Proof. intros H. by wf H. Qed.
Lemma setBlSettings_wf b c : wf_conf c -> wf_conf (setBlSettings b c).
Proof. intros H. by wf H. Qed.
Lemma rename_record_id f t r r' : rename_record f t r = Some r' -> r_ID r' = r_ID r /\ r_View r' = r_View r.
Proof. unfold rename_record. intros H. by repeat case_match; simplify_eq. Qed.
Lemma renameRecords_wf f t c : wf_conf c -> wf_conf (renameRecords f t c).2.
Proof.
  intros H.
  assert (Hd : forall r, r_ID (default r (rename_record f t r)) = r_ID r
                     /\ r_View (default r (rename_record f t r)) = r_View r).
  { intros r. destruct (rename_record f t r) eqn:E; [by eapply rename_record_id|done]. }
  wf H.
  - rewrite <- list_fmap_compose. erewrite list_fmap_ext; [exact wf_rec_ids0|]. intros i r _. apply Hd.
  - intros r (r' & -> & Hr)%list_elem_of_fmap. rewrite (proj2 (Hd r')). by apply wf_rec_view0.
Qed.

Lemma update_lists_wf f c :
  (forall l, bl_ID (f l) = bl_ID l) -> (forall l, bl_Name (f l) = bl_Name l) ->
  wf_conf c -> wf_conf (update_lists f c).
Proof.
  intros Hi Hn H. wf H; rewrite <- list_fmap_compose;
    (erewrite list_fmap_ext; [eassumption|]; intros i l _; simpl; auto).
Qed.
Lemma update_list_wf id f c :
  (forall l, bl_ID (f l) = bl_ID l) -> (forall l, bl_Name (f l) = bl_Name l) ->
  wf_conf c -> wf_conf (update_lists (fun o => if bl_ID o =? id then f o else o) c).
Proof. intros Hi Hn. apply update_lists_wf; intros l; by destruct (_ =? _). Qed.
Lemma insert_list_wf l c x : wf_conf c -> insert_list l c = Ok x -> wf_conf x.2.
Proof.
  intros H. unfold insert_list. case_bool_decide; [done|]. intros [= <-]. wf H.
  - apply NoDup_fmap_snoc; [done|apply next_id_fresh].
  - by apply NoDup_fmap_snoc.
Qed.
Lemma putBlacklistList_wf l c x : wf_conf c -> putBlacklistList l c = Ok x -> wf_conf x.2.
Proof.
  intros H. unfold putBlacklistList. case_if; [by apply insert_list_wf|].
  case_bool_decide as Hin; [rewrite andb_true_r|rewrite andb_false_r; simpl; discriminate].
  destruct (existsb _ _) eqn:E; [done|]. intros [= <-]. wf H.
  - by rewrite update_key.
  - apply (update_unique bl_ID bl_Name _ _ (bl_ID l) (bl_Name l)); [intros; apply Z.eqb_eq|done|done|done|].
    intros o Ho Hne Hn. rewrite existsb_false_forall in E. specialize (E o Ho).
    rewrite (bool_decide_eq_true_2 _ Hn), andb_true_r in E. bool_to_prop. done.
Qed.
Lemma filter_lists_wf (P : BlacklistList -> Prop) `{forall x, Decision (P x)} k c :
  wf_conf c -> wf_conf (with_lists c (filter P (c_lists c)) k).
Proof. intros Hc. wf Hc; by apply NoDup_fmap_filter'. Qed.
Lemma putRule_wf r c x : wf_conf c -> putRule r c = Ok x -> wf_conf x.2.
Proof.
  intros H. unfold putRule. case_bool_decide; [done|]. intros [= <-]. wf H.
  - apply NoDup_fmap_snoc; [done|apply next_id_fresh].
  - by apply NoDup_fmap_snoc.
Qed.
Lemma no_rules_wf k c : wf_conf c -> wf_conf (with_rules c [] k).
Proof. intros H. wf H; constructor. Qed.
Lemma replace_list_wf ex l c c' : wf_conf c -> replace_list ex c l = Ok c' -> wf_conf c'.
Proof.
  intros H. unfold replace_list. destruct (List.find _ ex) as [[n u]|].
  - case_if; intros [= <-]; (apply update_lists_wf; [intros o|intros o|done]); by destruct (bool_decide (bl_Name o = bl_Name l)).
  - destruct (insert_list l c) eqn:E; [|done]. intros [= <-]. by eapply insert_list_wf.
Qed.
Lemma replaceBlacklistDefinitions_wf set ls rs c c' :
  wf_conf c -> replaceBlacklistDefinitions set ls rs c = Ok c' -> wf_conf c'.
Proof.
  intros H. unfold replaceBlacklistDefinitions, replace_rules. cbv zeta.
  rewrite rbind_ok. intros (c1 & H1 & H2).
  eapply (foldR_inv wf_conf) in H1; [|intros; by eapply replace_list_wf|by apply setBlSettings_wf].
  eapply foldR_step_wf in H2; [done|apply putRule_wf|]. by apply no_rules_wf, filter_lists_wf.
Qed.
Lemma import_list_wf rows l c c' : wf_conf c -> import_list rows c l = Ok c' -> wf_conf c'.
Proof.
  intros H. unfold import_list. case_bool_decide; [done|]. intros [= <-].
  assert (Hi : forall id, bl_ID (kept_body rows l id) = id) by (intros; unfold kept_body; by destruct (last _)).
  assert (Hn : forall id, bl_Name (kept_body rows l id) = bl_Name l) by (intros; unfold kept_body; by destruct (last _)).
  wf H.
  - apply NoDup_fmap_snoc; [done|]. rewrite Hi. apply next_id_fresh.
  - apply NoDup_fmap_snoc; [done|]. by rewrite Hn.
Qed.

Lemma tx_wf {A} (f : Conf -> result store_error (A * Conf)) db :
  (forall x, f (conf db) = Ok x -> wf_conf x.2) -> wf_conf (conf db) -> wf_conf (conf (tx f db).1).
Proof. intros Hf H. unfold tx. destruct (f (conf db)) as [[a c]|] eqn:E; simpl; [apply (Hf _ eq_refl) | done]. Qed.
Lemma local_wf {A} (f : Node -> result store_error (A * Node)) db :
  wf_conf (conf db) -> wf_conf (conf (local f db).1).
Proof. by rewrite local_conf. Qed.

Lemma exec_wf op db : wf_conf (conf db) -> wf_conf (conf (exec op db)).
Proof.
  intros Hw. destruct op; cbn [exec]; try (by apply local_wf); apply tx_wf; try done; intros x.
  - by apply putView_wf.
  - by apply deleteView_wf.
  - by apply putService_wf.
  - by apply deleteService_wf.
  - by apply putRecord_wf.
  - by apply deleteRecord_wf.
  - intros (c & H & [= <-])%rbind_ok. by eapply replaceAll_wf.
  - intros [= <-]. by apply putSettings_wf.
  - unfold putDHCPSettings. destruct (c_settings (conf db)); [|done]. intros [= <-]. by wf Hw.
  - intros [= <-]. by apply renameRecords_wf, putSettings_wf.
  - intros [= <-]. by apply setBlSettings_wf.
  - by apply putBlacklistList_wf.
  - case_if; [|done]. intros [= <-]. by apply update_list_wf.
  - intros [= <-]. by apply update_list_wf.
  - intros [= <-]. by apply update_list_wf.
  - unfold deleteList. case_if; [|done]. intros [= <-]. by apply filter_lists_wf.
  - by apply putRule_wf.
  - unfold deleteRule. case_if; [|done]. intros [= <-]. wf Hw; by apply NoDup_fmap_filter'.
  - cbv zeta. intros (c & H & (c' & H' & [= <-])%rbind_ok)%rbind_ok. simpl.
    eapply foldR_step_wf in H'; [done|apply putRule_wf|].
    eapply (foldR_inv wf_conf) in H; [done|intros; by eapply import_list_wf|].
    apply setBlSettings_wf. destruct Hw; constructor; simpl; try done; constructor.
  - unfold applySnapshot. intros (c & H & H1)%rbind_ok. cbv zeta in H1.
    apply rbind_ok in H1 as (c' & H' & [= <-]). simpl.
    eapply replaceBlacklistDefinitions_wf; [|exact H']. apply putSettings_wf. by eapply replaceAll_wf.
Qed.

(** ** dhcp_leases *)
Definition leases_ok (ls : list DHCPLease) : Prop := NoDup (dl_MAC <$> ls) /\ NoDup (dl_IP <$> ls).

Lemma put_lease_spec l ls x :
  x ∈ put_lease l ls <-> x = l \/ (x ∈ ls /\ dl_MAC x <> dl_MAC l /\ dl_IP x <> dl_IP l).
Proof.
  unfold put_lease. set (ls' := filter _ ls).
  assert (Hf : forall y, y ∈ ls' <-> y ∈ ls /\ ~ (dl_IP y = dl_IP l /\ dl_MAC y <> dl_MAC l)).
  { intros y. unfold ls'. rewrite list_elem_of_filter. tauto. }
  case_bool_decide as Hin.
  - rewrite list_elem_of_fmap. apply list_elem_of_fmap in Hin as (m & Hm & Hml). split.
    + intros (y & -> & Hy). case_bool_decide as E; [by left|]. apply Hf in Hy. right. tauto.
    + intros [->|(Hx & Hne & Hip)].
      * exists m. split; [by rewrite bool_decide_eq_true_2 by congruence|done].
      * exists x. split; [by rewrite bool_decide_eq_false_2 by congruence|]. apply Hf. tauto.
  - rewrite elem_of_app, list_elem_of_singleton, Hf. split.
    + intros [[H1 H2]| ->]; [|by left]. right. split; [done|].
      assert (dl_MAC x <> dl_MAC l) as Hne; [|tauto].
      intros E. apply Hin. rewrite <- E. apply list_elem_of_fmap_2, Hf. tauto.
    + tauto.
Qed.

Lemma put_lease_ok l ls : leases_ok ls -> leases_ok (put_lease l ls).
Proof.
  intros [Hm Hi]. unfold put_lease. set (ls' := filter _ ls).
  assert (Hm' : NoDup (dl_MAC <$> ls')) by (by apply NoDup_fmap_filter').
  assert (Hi' : NoDup (dl_IP <$> ls')) by (by apply NoDup_fmap_filter').
  assert (Hf : forall x, x ∈ ls' -> dl_MAC x <> dl_MAC l -> dl_IP x <> dl_IP l).
  { intros x [Hx _]%list_elem_of_filter ? ?. tauto. }
  case_bool_decide as Hin; split.
  - rewrite <- list_fmap_compose. rewrite (list_fmap_ext _ dl_MAC ls'); [done|].
    intros i x _. simpl. by case_bool_decide.
  - apply (update_unique dl_MAC dl_IP _ (fun _ => l) (dl_MAC l) (dl_IP l)); try done.
    intros x. by rewrite bool_decide_eq_true.
  - by apply NoDup_fmap_snoc.
  - apply NoDup_fmap_snoc; [done|]. intros (x & Hx & Hxl)%list_elem_of_fmap.
    apply (Hf x); [done| |done]. intros E. apply Hin. rewrite <- E. by apply list_elem_of_fmap_2.
Qed.

(** ** The node-local tables *)
Record wf_node (n : Node) : Prop := {
  wf_token_ids : NoDup (t_ID <$> n_tokens n);
  wf_token_hashes : NoDup (t_Hash <$> n_tokens n);
  wf_leases : leases_ok (n_leases n);
  wf_peer_ids : NoDup (p_NodeID <$> n_peers n) }.
(** An UPDATE that leaves the key column alone. *)
Lemma map_keeps {A K} (key : A -> K) (h : A -> A) (l : list A) : (forall x, key (h x) = key x) -> NoDup (key <$> l) -> NoDup (key <$> (h <$> l)).
Proof. intros Hh H. rewrite <- list_fmap_compose. by rewrite (list_fmap_ext _ key l) by (intros i x _; apply Hh). Qed.
Lemma filter_leases_ok (P : DHCPLease -> Prop) `{forall x, Decision (P x)} ls : leases_ok ls -> leases_ok (filter P ls).
Proof. intros [? ?]. split; by apply NoDup_fmap_filter'. Qed.
Lemma local_wf_node {A} (f : Node -> result store_error (A * Node)) db :
  (forall x, f (node db) = Ok x -> wf_node x.2) -> wf_node (node db) -> wf_node (node (local f db).1).
Proof. intros Hf H. unfold local. destruct (f (node db)) as [[a n]|] eqn:E; simpl; [apply (Hf _ eq_refl)|done]. Qed.
Lemma tx_wf_node {A} (f : Conf -> result store_error (A * Conf)) db : wf_node (node db) -> wf_node (node (tx f db).1).
Proof. by rewrite tx_node. Qed.

Lemma exec_wf_node op db : wf_node (node db) -> wf_node (node (exec op db)).
Proof.
  intros Hw. destruct op; cbn [exec]; try (by apply tx_wf_node); apply local_wf_node; try done; intros x Hx; cbv zeta in Hx;
    repeat case_match; simplify_eq; destruct Hw; constructor; simpl; try done.
  all: first [by apply filter_leases_ok | by apply put_lease_ok | by apply NoDup_fmap_filter' | idtac].
  - apply NoDup_fmap_snoc; [done|apply next_id_fresh].
  - apply NoDup_fmap_snoc; [done|]. by eapply bool_decide_eq_false_1.
  - apply map_keeps; [|done]. intros t. by destruct (_ =? _).
  - apply map_keeps; [|done]. intros t. by destruct (_ =? _).
  - apply map_keeps; [|done]. intros o. cbv beta. by case_match.
  - apply NoDup_fmap_snoc; [done|]. by eapply bool_decide_eq_false_1.
  - apply map_keeps; [|done]. intros o. cbv beta. by case_match.
Qed.
Record wf_db (d : DB) : Prop := { db_conf : wf_conf (conf d); db_node : wf_node (node d) }.

(** C8: every database reachable from a fresh one by any sequence of store
    operations meets every key and reference of the schema: the ids of services,
    addresses, aliases, records, lists, rules and tokens, the names of views,
    services, aliases and lists, the subnets, the domains of rules, the hashes of
    tokens, the hardware and IP addresses of leases and the node ids of peers are each
    unique; addresses and aliases belong to an existing service, and every view that a
    subnet, an address or a record names exists. *)
Theorem reachable_db_consistent ops :
  let db := foldl (fun db op => exec op db) db0 ops in
  wf_db db.
Proof.
  apply (foldl_inv wf_db); [intros d op [? ?]; split; [by apply exec_wf|by apply exec_wf_node]|].
  repeat constructor; simpl; first [by intros ? ?%not_elem_of_nil | by constructor].
Qed.
