(* ===== verification/StoreProps.v ===== *)
(** * What the store's operations do

    Reading back a service, applying a primary's snapshot, the two unique keys of
    a lease, and moving records between zones. *)
From S2P Require Import Prelude GoStr Model Store StoreNode StoreVersion StoreWf.

(** ** A service reads back as it was written *)
Section readback.
Context (id : Z).

Lemma insert_addresses_spec ads : forall c c',
  foldR (insert_address id) c ads = Ok c' ->
  c_services c' = c_services c /\ c_aliases c' = c_aliases c
  /\ (fun a => (ad_Address a, ad_View a)) <$> filter (fun a => ad_Svc a = id) (c_addresses c')
     = ((fun a => (ad_Address a, ad_View a)) <$> filter (fun a => ad_Svc a = id) (c_addresses c))
       ++ ((fun a => (a_Address a, a_View a)) <$> ads).
Proof.
  induction ads as [|a ads IH]; intros c c'; simpl.
  - intros [= <-]. by rewrite app_nil_r.
  - rewrite rbind_ok. intros (c1 & H1 & H2). unfold insert_address in H1. case_if; [|done].
    injection H1 as <-. apply IH in H2 as (-> & -> & ->). simpl. split; [done|]. split; [done|].
    rewrite filter_app, filter_cons_True by done. by rewrite fmap_app, <- app_assoc.
Qed.
Lemma insert_aliases_spec als : forall c c',
  foldR (insert_alias id) c als = Ok c' ->
  c_services c' = c_services c /\ c_addresses c' = c_addresses c
  /\ al_Name <$> filter (fun a => al_Svc a = id) (c_aliases c')
     = (al_Name <$> filter (fun a => al_Svc a = id) (c_aliases c)) ++ als.
Proof.
  induction als as [|a als IH]; intros c c'; simpl.
  - intros [= <-]. by rewrite app_nil_r.
  - rewrite rbind_ok. intros (c1 & H1 & H2). unfold insert_alias in H1.
    case_if; [done|]. case_if; [|done].
    injection H1 as <-. apply IH in H2 as (-> & -> & ->). simpl. split; [done|]. split; [done|].
    rewrite filter_app, filter_cons_True by done. by rewrite fmap_app, <- app_assoc.
Qed.
Lemma filter_out {A} (key : A -> Z) l : filter (fun x => key x = id) (filter (fun x => key x <> id) l) = [].
Proof.
  induction l as [|x l IH]; [done|]. rewrite filter_cons.
  destruct (decide (key x <> id)); [rewrite filter_cons_False by done|]; done.
Qed.
End readback.

Lemma find_fresh (l : list SvcRow) r :
  sv_ID r ∉ sv_ID <$> l -> List.find (fun x => sv_ID x =? sv_ID r) (l ++ [r]) = Some r.
Proof.
  induction l as [|x l IH]; simpl; [by rewrite Z.eqb_refl|].
  intros Hn. destruct (Z.eqb_spec (sv_ID x) (sv_ID r)) as [E|E].
  - exfalso. apply Hn. rewrite <- E. by left.
  - apply IH. intros Hin. apply Hn. by right.
Qed.
Lemma find_updated (l : list SvcRow) s :
  s_ID s ∈ sv_ID <$> l ->
  List.find (fun x => sv_ID x =? s_ID s) ((fun r => if sv_ID r =? s_ID s then svc_row (s_ID s) s else r) <$> l)
  = Some (svc_row (s_ID s) s).
Proof.
  induction l as [|x l IH]; simpl; [by intros ?%not_elem_of_nil|].
  destruct (Z.eqb_spec (sv_ID x) (s_ID s)) as [E|E]; simpl.
  - by rewrite Z.eqb_refl.
  - rewrite (proj2 (Z.eqb_neq _ _) E). intros [H|H]%elem_of_cons; [congruence | by apply IH].
Qed.

Lemma no_children c id :
  wf_conf c -> id ∉ sv_ID <$> c_services c ->
  filter (fun a => ad_Svc a = id) (c_addresses c) = [] /\ filter (fun a => al_Svc a = id) (c_aliases c) = [].
Proof.
  intros Hw Hn. split.
  - destruct (filter _ _) as [|a l] eqn:E; [done|]. exfalso. apply Hn.
    assert (Ha : a ∈ filter (fun a => ad_Svc a = id) (c_addresses c)) by (rewrite E; left).
    apply list_elem_of_filter in Ha as [<- Ha]. by apply (wf_addr_svc c Hw).
  - destruct (filter _ _) as [|a l] eqn:E; [done|]. exfalso. apply Hn.
    assert (Ha : a ∈ filter (fun a => al_Svc a = id) (c_aliases c)) by (rewrite E; left).
    apply list_elem_of_filter in Ha as [<- Ha]. by apply (wf_alias_svc c Hw).
Qed.

(** The row after [put_svc_row], with no address or alias left. *)
Lemma put_svc_row_spec s c id c1 :
  wf_conf c -> (s_ID s = 0 \/ s_ID s ∈ sv_ID <$> c_services c) -> put_svc_row s c = Ok (id, c1) ->
  List.find (fun x => sv_ID x =? id) (c_services c1) = Some (svc_row id s)
  /\ filter (fun a => ad_Svc a = id) (c_addresses c1) = [] /\ filter (fun a => al_Svc a = id) (c_aliases c1) = [].
Proof.
  intros Hw Hid. unfold put_svc_row. destruct (Z.eqb_spec (s_ID s) 0) as [E|E].
  - case_bool_decide; [done|]. intros [= <- <-]. cbn [c_services c_addresses c_aliases with_services].
    pose proof (next_id_fresh (sv_ID <$> c_services c)) as Hf. split.
    + by apply (find_fresh (c_services c) (svc_row (next_id (sv_ID <$> c_services c)) s)).
    + by apply no_children.
  - destruct Hid as [?|Hid]; [done|]. rewrite (proj2 (svc_ok_spec _ _) Hid).
    destruct (existsb _ _); [done|]. intros [= <- <-]. simpl.
    split; [by apply find_updated|]. split; apply filter_out.
Qed.

(** when a service is written under a new id or an existing one, reading it
    back gives the same name, check, proxy and MAC, the same addresses with
    their views in the same order, and the same aliases (sorted); a failed write
    leaves the database untouched. *)
Theorem service_reads_back s db :
  wf_conf (conf db) -> (s_ID s = 0 \/ s_ID s ∈ sv_ID <$> c_services (conf db)) ->
  match PutService s db with
  | (db', Err _) => db' = db
  | (db', Ok id) => exists t, Service_ db' id = Ok t
      /\ s_Name t = s_Name s /\ s_CheckURL t = s_CheckURL s /\ s_CheckInsecure t = s_CheckInsecure s
      /\ s_ProxyAddress t = s_ProxyAddress s /\ s_RouteViaProxy t = s_RouteViaProxy s /\ s_MAC t = s_MAC s
      /\ (fun a => (a_Address a, a_View a)) <$> s_Addresses t = (fun a => (a_Address a, a_View a)) <$> s_Addresses s
      /\ s_Aliases t ≡ₚ s_Aliases s /\ StronglySorted str_le (s_Aliases t)
  end.
Proof.
  intros Hw Hid. unfold PutService, tx. destruct (putService s (conf db)) as [[id c']|] eqn:E; [|done].
  unfold putService in E. apply rbind_ok in E as ([id0 c1] & H1 & H2).
  apply rbind_ok in H2 as (c2 & H2 & H3). apply rbind_ok in H3 as (c3 & H3 & [= <- <-]). simpl in *.
  apply put_svc_row_spec in H1 as (Hf & Ha & Hl); [|done|done].
  apply insert_addresses_spec in H2 as (Es & El & Ea). apply insert_aliases_spec in H3 as (Es' & Ea' & El').
  unfold Service_. simpl. rewrite Es', Es, Hf. eexists. split; [reflexivity|].
  unfold load_service. simpl. do 6 (split; [done|]). unfold addresses, aliases. simpl.
  rewrite El', El, Hl, Ea'. simpl. split.
  - rewrite <- list_fmap_compose. rewrite Ha in Ea. simpl in Ea. rewrite <- Ea. done.
  - split; [apply merge_sort_Permutation | apply (StronglySorted_merge_sort str_le)].
Qed.

Definition ex_service : Service :=
  mkService 0 "nas" [mkAddress 0 "10.0.0.2" ""] ["files"; "backup"] "" false "" false "".
Lemma service_reads_back_witness :
  match PutService ex_service db0 with
  | (db', Err _) => db' = db0
  | (db', Ok id) => exists t, Service_ db' id = Ok t /\ s_Name t = "nas" /\ s_Aliases t ≡ₚ ["files"; "backup"]
  end.
Proof.
  pose proof (service_reads_back ex_service db0) as H.
  destruct (PutService ex_service db0) as [db' [id|e]].
  - destruct H as (t & H1 & H2 & _ & _ & _ & _ & _ & _ & H3 & _).
    + constructor; simpl; first [by intros ? ?%not_elem_of_nil | by constructor].
    + left. reflexivity.
    + exists t. split; [exact H1|]. split; [exact H2 | exact H3].
  - apply H; [constructor; simpl; first [by intros ? ?%not_elem_of_nil | by constructor] | left; reflexivity].
Defined.

(** ** Applying a primary's snapshot *)
Definition rule_content (r : BlacklistRule) := (br_Kind r, br_Domain r).
Definition record_content (r : DnsRecord) := (r_Name r, r_Type r, r_Value r, r_View r).
(** What a refresh writes. *)
Definition list_body (l : BlacklistList) :=
  (bl_Snapshot l, bl_ETag l, bl_LastModified l, bl_EntryCount l, bl_SkippedCount l,
   bl_LastAttemptAt l, bl_LastOKAt l, bl_LastError l).

Lemma foldR_const {A B C} (g : Conf -> C) (f : A -> Conf -> result store_error (B * Conf)) l c c' :
  (forall a c x, f a c = Ok x -> g x.2 = g c) ->
  foldR (fun c a => r <-? f a c ;; Ok r.2) c l = Ok c' -> g c' = g c.
Proof.
  intros Hf. apply (foldR_inv (fun d => g d = g c)); [|done].
  intros s a s' Hs _ (x & Hx & [= <-])%rbind_ok. rewrite <- Hs. by eapply Hf.
Qed.

(** The tables the registry writes leave alone. *)
Definition rest (c : Conf) := (c_blset c, c_lists c, c_rules c, c_settings c).
Lemma insert_subnets_rest n cs : forall c c', foldR (insert_subnet n) c cs = Ok c' ->
  rest c' = rest c /\ c_records c' = c_records c.
Proof.
  intros c c'. apply (foldR_inv (fun d => rest d = rest c /\ c_records d = c_records c)); [|done].
  intros s a s' Hs _. unfold insert_subnet. case_if; [done|]. by intros [= <-].
Qed.
Lemma putView_rest v c x : putView v c = Ok x -> rest x.2 = rest c /\ c_records x.2 = c_records c.
Proof.
  unfold putView. rewrite rbind_ok. intros (c' & H & [= <-]). simpl.
  apply insert_subnets_rest in H as [-> ->].
  unfold insert_view. by case_bool_decide.
Qed.
Lemma putService_rest s c x : putService s c = Ok x -> rest x.2 = rest c /\ c_records x.2 = c_records c.
Proof.
  unfold putService. rewrite rbind_ok. intros ([id c0] & H0 & H1%rbind_ok).
  destruct H1 as (c1 & H1 & (c2 & H2 & [= <-])%rbind_ok). simpl in *.
  assert (E0 : rest c0 = rest c /\ c_records c0 = c_records c).
  { unfold put_svc_row in H0. by repeat case_if; simplify_eq. }
  assert (E1 : rest c1 = rest c0 /\ c_records c1 = c_records c0).
  { revert H1. apply (foldR_inv (fun d => rest d = rest c0 /\ c_records d = c_records c0)); [|done].
    intros s0 a s' Hs _. unfold insert_address. case_if; [|done]. by intros [= <-]. }
  revert H2. apply (foldR_inv (fun d => rest d = rest c /\ c_records d = c_records c)).
  - intros s0 a s' Hs _. unfold insert_alias. case_if; [done|]. case_if; [|done]. by intros [= <-].
  - by destruct E0 as [<- <-], E1.
Qed.
Lemma putRecords_spec rs : forall c c', foldR (fun c x => r <-? putRecord x c ;; Ok r.2) c rs = Ok c' ->
  rest c' = rest c /\ record_content <$> c_records c' = (record_content <$> c_records c) ++ (record_content <$> rs).
Proof.
  induction rs as [|r rs IH]; intros c c'; simpl.
  - intros [= <-]. by rewrite app_nil_r.
  - rewrite rbind_ok. intros (c1 & (x & Hx & [= <-])%rbind_ok & H2%IH).
    unfold putRecord in Hx. case_if; [|done]. injection Hx as <-. destruct H2 as [-> ->]. simpl.
    split; [done|]. by rewrite fmap_app, <- app_assoc.
Qed.
Lemma replaceAll_rest v s r c c' : replaceAll v s r c = Ok c' ->
  rest c' = rest c /\ record_content <$> c_records c' = record_content <$> r.
Proof.
  unfold replaceAll. rewrite rbind_ok. intros (c1 & H1 & (c2 & H2 & H3)%rbind_ok).
  apply (foldR_const (fun d => (rest d, c_records d)) putView) in H1;
    [|intros a d x [Ha Hb]%putView_rest; by rewrite Ha, Hb].
  apply (foldR_const (fun d => (rest d, c_records d)) (fun s => putService (drop_svc_id s))) in H2;
    [|intros a d x [Ha Hb]%putService_rest; by rewrite Ha, Hb].
  apply putRecords_spec in H3 as [-> ->].
  rewrite (f_equal fst H2 : rest c2 = rest c1), (f_equal snd H2 : c_records c2 = c_records c1).
  rewrite (f_equal fst H1 : rest c1 = _), (f_equal snd H1 : c_records c1 = _). done.
Qed.

Lemma putRules_spec rs : forall c c', foldR (fun c r => x <-? putRule r c ;; Ok x.2) c rs = Ok c' ->
  (c_blset c', c_lists c', c_settings c', c_records c') = (c_blset c, c_lists c, c_settings c, c_records c)
  /\ rule_content <$> c_rules c' = (rule_content <$> c_rules c) ++ (rule_content <$> rs).
Proof.
  induction rs as [|r rs IH]; intros c c'; simpl.
  - intros [= <-]. by rewrite app_nil_r.
  - rewrite rbind_ok. intros (c1 & (x & Hx & [= <-])%rbind_ok & H2%IH).
    unfold putRule in Hx. case_if; [done|]. injection Hx as <-. destruct H2 as [-> ->]. simpl.
    split; [done|]. by rewrite fmap_app, <- app_assoc.
Qed.

Section lists.
Context (o : BlacklistList).
(** A row of the same name and URL with [o]'s downloaded body. *)
Definition body_row (c : Conf) : Prop :=
  exists r, r ∈ c_lists c /\ bl_Name r = bl_Name o /\ bl_URL r = bl_URL o /\ list_body r = list_body o.

Lemma find_existing (ls : list BlacklistList) l :
  NoDup (bl_Name <$> ls) -> o ∈ ls -> bl_Name l = bl_Name o ->
  List.find (fun x => bool_decide (x.1 = bl_Name l)) ((fun l => (bl_Name l, bl_URL l)) <$> ls) = Some (bl_Name o, bl_URL o).
Proof.
  intros Hnd Ho ->. induction ls as [|x ls IH]; [by apply not_elem_of_nil in Ho|].
  rewrite fmap_cons in Hnd. apply NoDup_cons in Hnd as [Hx Hnd]. simpl.
  case_bool_decide as E; apply elem_of_cons in Ho as [<-|Ho]; try done.
  - exfalso. apply Hx. rewrite E. by apply list_elem_of_fmap_2.
  - by apply IH.
Qed.

Lemma replace_list_body ex0 l c c' :
  NoDup (bl_Name <$> ex0) -> o ∈ ex0 -> (bl_Name l = bl_Name o -> bl_URL l = bl_URL o) ->
  body_row c -> replace_list ((fun l => (bl_Name l, bl_URL l)) <$> ex0) c l = Ok c' -> body_row c'.
Proof.
  intros Hnd Ho Hurl (r & Hr & Hn & Hu & Hb). unfold replace_list.
  destruct (decide (bl_Name l = bl_Name o)) as [E|E].
  - rewrite (find_existing ex0 l) by done. rewrite bool_decide_eq_false_2 by (intros H; apply H; by rewrite Hurl).
    intros [= <-]. exists (redefine r l (bl_Name r) (bl_Builtin l)). simpl. split; [|by rewrite Hurl].
    apply list_elem_of_fmap. exists r. split; [|done]. by rewrite bool_decide_eq_true_2 by congruence.
  - assert (Hk : forall f, body_row (update_lists (fun o => if bool_decide (bl_Name o = bl_Name l) then f o else o) c)).
    { intros f. exists r. split; [|done]. apply list_elem_of_fmap. exists r.
      split; [|done]. by rewrite bool_decide_eq_false_2 by congruence. }
    destruct (List.find _ _) as [[n u]|].
    + case_if; intros [= <-]; apply Hk.
    + unfold insert_list. case_if; [done|]. intros [= <-]. exists r. split; [|done]. apply elem_of_app. by left.
Qed.
End lists.

Lemma replace_list_blset ex l c c' : replace_list ex c l = Ok c' ->
  (c_blset c', c_settings c', c_records c') = (c_blset c, c_settings c, c_records c).
Proof.
  unfold replace_list. destruct (List.find _ ex) as [[n u]|].
  - case_if; by intros [= <-].
  - unfold insert_list. case_if; [done|]. by intros [= <-].
Qed.

Lemma replaceBlacklistDefinitions_spec set ls rs c c' :
  NoDup (bl_Name <$> c_lists c) -> replaceBlacklistDefinitions set ls rs c = Ok c' ->
  c_blset c' = set /\ c_settings c' = c_settings c /\ c_records c' = c_records c
  /\ rule_content <$> c_rules c' = rule_content <$> rs
  /\ forall o, o ∈ c_lists c -> bl_Name o ∈ bl_Name <$> ls ->
       (forall l, l ∈ ls -> bl_Name l = bl_Name o -> bl_URL l = bl_URL o) -> body_row o c'.
Proof.
  intros Hnd. unfold replaceBlacklistDefinitions, replace_rules. cbv zeta. rewrite rbind_ok.
  intros (c1 & H1 & H2%putRules_spec). destruct H2 as [[= -> El -> ->] ->]. cbn [c_rules c_lists with_rules with_lists] in *.
  assert (E : (c_blset c1, c_settings c1, c_records c1) = (set, c_settings c, c_records c)).
  { revert H1. apply (foldR_inv (fun d => (c_blset d, c_settings d, c_records d) = (set, c_settings c, c_records c))); [|done].
    intros s l s' Hs _ H%replace_list_blset. by rewrite H. }
  injection E as -> -> ->. do 4 (split; [done|]). intros o Ho Hin Hurl.
  assert (Hb : body_row o c1).
  { revert H1. apply (foldR_inv (body_row o)); [|by exists o].
    intros s l s' Hs Hl. apply (replace_list_body o (c_lists c)); auto. }
  destruct Hb as (r & Hr & Hn & Hu & Hb). exists r. rewrite El. split; [|done].
  apply list_elem_of_filter. split; [|done]. rewrite Hn. intros [Hg _]%list_elem_of_filter. done.
Qed.

(** applying a primary's snapshot either fails and leaves the replica
    exactly as it was, or replaces records, rules, filtering settings and the
    replicated settings by the primary's, while tokens, the admin account,
    leases, peers and every node-local setting stay the replica's own, and a
    block list whose name and URL survive keeps its downloaded body. *)
Theorem apply_snapshot_keeps_local s db :
  wf_conf (conf db) ->
  match ApplySnapshot s db with
  | (db', Err _) => db' = db
  | (db', Ok _) =>
      node db' = node db
      /\ c_settings (conf db') = Some (stored match c_settings (conf db) with
           | Some old => keep_local old (sn_Settings s) | None => sn_Settings s end)
      /\ c_blset (conf db') = sn_Blacklist s
      /\ record_content <$> c_records (conf db') = record_content <$> sn_Records s
      /\ rule_content <$> c_rules (conf db') = rule_content <$> sn_Rules s
      /\ forall o, o ∈ c_lists (conf db) -> bl_Name o ∈ bl_Name <$> sn_Lists s ->
           (forall l, l ∈ sn_Lists s -> bl_Name l = bl_Name o -> bl_URL l = bl_URL o) -> body_row o (conf db')
  end.
Proof.
  intros Hw. unfold ApplySnapshot, tx. destruct (applySnapshot s (conf db)) as [[[] c']|] eqn:E; [|done].
  unfold applySnapshot in E. apply rbind_ok in E as (c1 & H1 & H2). cbv zeta in H2.
  apply rbind_ok in H2 as (c2 & H2 & [= <-]).
  apply replaceAll_rest in H1 as [[= Eb El Er Es] Hrec].
  simpl. apply replaceBlacklistDefinitions_spec in H2 as (-> & H3 & H4 & -> & H5);
    [|simpl; rewrite El; apply Hw].
  simpl in *. split; [done|]. rewrite H3, Es. split; [done|]. split; [done|].
  rewrite H4. split; [done|]. split; [done|]. rewrite El in H5. exact H5.
Qed.

Lemma wf_conf0 : wf_conf conf0.
Proof. constructor; simpl; first [by intros ? ?%not_elem_of_nil | by constructor]. Qed.

Definition ex_snapshot : SnapshotInput :=
  mkSnapshotInput [mkView "lan" ["10.0.0.0/8"]] [ex_service] [] settings0 (mkBlSettings false 30) [] [].
Lemma apply_snapshot_keeps_local_witness :
  exists db', ApplySnapshot ex_snapshot db0 = (db', Ok tt) /\ node db' = node db0
    /\ c_blset (conf db') = mkBlSettings false 30.
Proof.
  pose proof (apply_snapshot_keeps_local ex_snapshot db0 wf_conf0) as H.
  destruct (ApplySnapshot ex_snapshot db0) as [db' [[]|e]] eqn:E; [|vm_compute in E; discriminate].
  exists db'. split; [reflexivity|]. split; [apply H|]. apply H.
Defined.
