(* ===== verification/StoreNodeProps.v ===== *)
(** * Leases and zone renames

    The two unique keys of the lease table, and [RenameInZone] with its inverse. *)
From S2P Require Import Prelude GoStr Model Store StoreNode StoreVersion StoreWf.

(** ** dhcp_leases *)
Lemma exec_leases_ok op db : leases_ok (n_leases (node db)) -> leases_ok (n_leases (node (exec op db))).
Proof.
  intros H.
  assert (Hc : forall A (f : Conf -> result store_error (A * Conf)), leases_ok (n_leases (node (tx f db).1))).
  { intros A f. by rewrite tx_node. }
  assert (Hl : forall A (f : Node -> result store_error (A * Node)),
    (forall x, f (node db) = Ok x -> leases_ok (n_leases x.2)) -> leases_ok (n_leases (node (local f db).1))).
  { intros A f Hf. unfold local. destruct (f (node db)) as [[a n]|] eqn:E; [by apply (Hf _ eq_refl)|done]. }
  assert (Hfil : forall (P : DHCPLease -> Prop) `{forall x, Decision (P x)}, leases_ok (filter P (n_leases (node db)))).
  { intros P dec. split; apply NoDup_fmap_filter', H. }
  destruct op; cbn [exec]; try apply Hc; apply Hl; intros x Hx; cbv zeta in Hx;
    repeat case_match; simplify_eq; simpl; first [done | apply Hfil | by apply put_lease_ok].
Qed.

(** in every reachable database no two leases share a MAC and no two share
    an address, and storing a lease is an upsert on either key: afterwards the
    table holds the new lease and exactly those old ones that have neither its
    MAC nor its address. *)
Theorem lease_keys_unique ops l :
  let db := foldl (fun db op => exec op db) db0 ops in
  leases_ok (n_leases (node db))
  /\ forall x, x ∈ n_leases (node (PutDHCPLease l db).1) <->
       x = l \/ (x ∈ n_leases (node db) /\ dl_MAC x <> dl_MAC l /\ dl_IP x <> dl_IP l).
Proof.
  intros db. split; [|intros x; apply put_lease_spec].
  apply (foldl_inv (fun d => leases_ok (n_leases (node d)))); [intros; by apply exec_leases_ok|].
  split; constructor.
Qed.

(** ** RenameInZone *)
(** A zone in the form [ZoneSuffix] gives: lower case, trimmed, one final dot. *)
Definition is_zone (z : string) : Prop :=
  ToLower z = z /\ TrimSpace z = z /\ HasSuffix z "." = true.

Definition head_ok (l : list ascii) : Prop :=
  match l with c :: _ => is_space c = false | [] => True end.

Lemma trim_space_ends l : head_ok l -> head_ok (rev l) -> trim_space l = l.
Proof.
  intros H1 H2. unfold trim_space. rewrite (drop_space_id l H1), (drop_space_id _ H2). apply rev_involutive.
Qed.
Lemma head_ok_trim l : head_ok (trim_space l).
Proof. apply drop_space_rev_head, drop_space_head. Qed.
Lemma head_ok_app l k : head_ok l -> l <> [] -> head_ok (l ++ k).
Proof. by destruct l. Qed.
Lemma dot_last s : HasSuffix s "." = true -> exists r, bytes s = r ++ ["."%char].
Proof. intros (r & ->)%HasSuffix_spec. exists (bytes r). apply bytes_app. Qed.

(** The name [RenameInZone] works on. *)
Definition rename_norm (name : string) : string :=
  let n := ToLower (TrimSpace name) in if HasSuffix n "." then n else n +:+ ".".

Lemma RenameInZone_norm name from to :
  from <> "" -> to <> "" -> from <> to ->
  RenameInZone name from to =
  if bool_decide (ToLower (TrimSpace name) = "") then None
  else if bool_decide (rename_norm name = from) then Some to
  else if HasSuffix (rename_norm name) ("." +:+ from) then Some (TrimSuffix (rename_norm name) from +:+ to) else None.
Proof.
  intros. unfold RenameInZone.
  by rewrite (bool_decide_eq_false_2 (from = "")), (bool_decide_eq_false_2 (to = "")),
    (bool_decide_eq_false_2 (from = to)) by done.
Qed.

Lemma rename_norm_ok name : ToLower (TrimSpace name) <> "" ->
  ToLower (rename_norm name) = rename_norm name /\ head_ok (bytes (rename_norm name)).
Proof.
  intros Hne. unfold rename_norm.
  assert (Hh : head_ok (bytes (ToLower (TrimSpace name)))).
  { rewrite <- TrimSpace_ToLower. unfold TrimSpace. rewrite bytes_str. apply head_ok_trim. }
  destruct (HasSuffix _ "."); [split; [apply ToLower_idemp|done]|].
  split; [by rewrite ToLower_app, ToLower_idemp|]. rewrite bytes_app. apply head_ok_app; [done|].
  intros ?%bytes_empty. done.
Qed.
(** A lower-case name with a dot at its end and no space at its start is its own
    normal form. *)
Lemma rename_norm_id n : ToLower n = n -> head_ok (bytes n) -> HasSuffix n "." = true ->
  rename_norm n = n /\ ToLower (TrimSpace n) <> "".
Proof.
  intros Hl Hh Hs. assert (Ht : TrimSpace n = n).
  { unfold TrimSpace. rewrite trim_space_ends; [apply str_bytes|done|].
    apply dot_last in Hs as (r & ->). by rewrite rev_app_distr. }
  unfold rename_norm. rewrite Ht, Hl, Hs. split; [done|]. intros ->. done.
Qed.

(** moving a name from one zone into another and back gives its normal form
    back, for any two different zones in stored form; so a private-domain rename
    is undone by the reverse rename. *)
Theorem rename_in_zone_inverse name from to n' :
  is_zone from -> is_zone to ->
  RenameInZone name from to = Some n' -> RenameInZone n' to from = Some (rename_norm name).
Proof.
  intros (Fl & Ft & Fs) (Tl & Tt & Ts) H.
  assert (from <> "" /\ to <> "" /\ from <> to) as (Hf & Ht & Hne).
  { unfold RenameInZone in H. repeat split; intros E; rewrite E in H;
      rewrite ?(bool_decide_eq_true_2 (to = to)), ?orb_true_r in H; done. }
  rewrite RenameInZone_norm in H by done. case_bool_decide as Hn; [done|].
  apply rename_norm_ok in Hn as [Nl Nh]. revert H. case_bool_decide as E.
  - intros [= <-]. rewrite RenameInZone_norm by done.
    destruct (rename_norm_id to) as [-> Hne']; [done| |done|].
    { rewrite <- Tt. unfold TrimSpace. rewrite bytes_str. apply head_ok_trim. }
    rewrite (bool_decide_eq_false_2 _ Hne'), bool_decide_eq_true_2 by done. by rewrite E.
  - destruct (HasSuffix _ ("." +:+ from)) eqn:Es; [|done]. intros [= <-].
    apply HasSuffix_spec in Es as (p & Ep). rewrite Ep in *. clear Ep.
    assert (E1 : TrimSuffix (p +:+ "." +:+ from) from = p +:+ ".").
    { rewrite <- app_assoc_str. apply TrimSuffix_app. }
    rewrite E1, app_assoc_str. rewrite RenameInZone_norm by done.
    assert (Pl : ToLower p = p).
    { rewrite ToLower_app in Nl. apply (f_equal bytes) in Nl. rewrite !bytes_app in Nl.
      apply app_inj_1 in Nl as [Hp _]; [by apply (inj bytes)|].
      by rewrite bytes_ToLower, length_fmap. }
    destruct (rename_norm_id (p +:+ "." +:+ to)) as [-> Hne'].
    + by rewrite !ToLower_app, Pl, Tl.
    + rewrite bytes_app in Nh |- *. by destruct (bytes p).
    + eapply HasSuffix_spec. apply HasSuffix_spec in Ts as (r & ->). exists (p +:+ "." +:+ r).
      by rewrite !app_assoc_str.
    + rewrite (bool_decide_eq_false_2 _ Hne'). rewrite bool_decide_eq_false_2.
      * rewrite HasSuffix_app. f_equal. rewrite <- app_assoc_str, TrimSuffix_app. apply app_assoc_str.
      * intros H%(f_equal len). rewrite !len_app in H. pose proof (len_nonneg p). change (len ".") with 1 in H. lia.
Qed.

Lemma rename_in_zone_inverse_witness :
  RenameInZone "NAS.Lan" "lan." "home.arpa." = Some "nas.home.arpa."
  /\ RenameInZone "nas.home.arpa." "home.arpa." "lan." = Some (rename_norm "NAS.Lan").
Proof.
  split; [vm_compute; reflexivity|].
  apply (rename_in_zone_inverse "NAS.Lan" "lan." "home.arpa.");
    [repeat split; vm_compute; reflexivity | repeat split; vm_compute; reflexivity | vm_compute; reflexivity].
Defined.
