(* ===== verification/DnsMsg.v ===== *)
(** * DNS messages and the query ACL: [internal/dnsserver/acl.go]

    The message values of [github.com/miekg/dns] that the server builds and
    reads, as data.  The library's functions ([Fqdn], [SetRcode], [Truncate],
    ...) are parameters of the files that use them. *)
From S2P Require Import Prelude GoStr NetIP.

Definition TypeA : Z := 1.
Definition TypeNS : Z := 2.
Definition TypeCNAME : Z := 5.
Definition TypeSOA : Z := 6.
Definition TypePTR : Z := 12.
Definition TypeAAAA : Z := 28.
Definition TypeOPT : Z := 41.
Definition TypeANY : Z := 255.
Definition ClassINET : Z := 1.
Definition OpcodeQuery : Z := 0.
Definition RcodeSuccess : Z := 0.
Definition RcodeFormatError : Z := 1.
Definition RcodeServerFailure : Z := 2.
Definition RcodeNameError : Z := 3.
Definition RcodeNotImplemented : Z := 4.
Definition RcodeRefused : Z := 5.

Record RRHeader := mkHdr { h_Name : string; h_Rrtype : Z; h_Class : Z; h_Ttl : Z }.

(** The typed part of a record; [RawData] stands for the types the server only
    passes through. *)
Inductive RData :=
  | AData (a : option Addr) | AAAAData (a : option Addr)
  | CNAMEData (target : string) | PTRData (ptr : string) | NSData (ns : string)
  | SOAData (ns mbox : string) (serial refresh retry expire minttl : Z)
  | RawData (data : list ascii).
Record DRR := mkDRR { rr_hdr : RRHeader; rr_data : RData }.

Record Question := mkQuestion { q_Name : string; q_Qtype : Z; q_Qclass : Z }.
Record Msg := mkMsg {
  m_Opcode : Z; m_Rcode : Z; m_Authoritative : bool; m_RecursionAvailable : bool; m_AuthenticatedData : bool;
  m_Question : list Question; m_Answer : list DRR; m_Ns : list DRR; m_Extra : list DRR }.
(** [new(dns.Msg)]. *)
Definition new_msg : Msg := mkMsg 0 0 false false false [] [] [] [].

Definition is_opt (rr : DRR) : bool := h_Rrtype (rr_hdr rr) =? TypeOPT.
Definition set_ttl (t : Z) (rr : DRR) : DRR :=
  mkDRR (mkHdr (h_Name (rr_hdr rr)) (h_Rrtype (rr_hdr rr)) (h_Class (rr_hdr rr)) t) (rr_data rr).
Definition map_sections (f : DRR -> DRR) (m : Msg) : Msg :=
  mkMsg (m_Opcode m) (m_Rcode m) (m_Authoritative m) (m_RecursionAvailable m) (m_AuthenticatedData m)
    (m_Question m) (f <$> m_Answer m) (f <$> m_Ns m) (f <$> m_Extra m).

(** [net.ParseIP]: an address without a zone. *)
Definition ParseIP (s : string) : option Addr :=
  match ParseAddr s with Some a => if Addr.has_zone a then None else Some a | None => None end.

(** ** acl.go *)
Definition cgnat : Prefix := mkPrefix (Addr4 1681915904) 10. (* 100.64.0.0/10 *)
Record RefusalStats := mkStats { rs_Total : Z; rs_CGNAT : Z; rs_LastCGNAT : Z }.
Record ACL := mkACL { acl_allowed : list Prefix; acl_total : Z; acl_cgnat : Z; acl_lastCGNAT : Z }.

Definition ACLReplace (allowed : list Prefix) (a : ACL) : ACL :=
  mkACL (Pfx.Masked <$> allowed) (acl_total a) (acl_cgnat a) (acl_lastCGNAT a).
Definition NewACL (allowed : list Prefix) : ACL := ACLReplace allowed (mkACL [] 0 0 0).
Definition Allow (now : Z) (a : ACL) (addr : Addr) : ACL * bool :=
  if negb (Addr.IsValid addr)
  then (mkACL (acl_allowed a) (u64w (acl_total a + 1)) (acl_cgnat a) (acl_lastCGNAT a), false)
  else
    let addr := Addr.Unmap addr in
    if existsb (fun p => Pfx.Contains p addr) (acl_allowed a) then (a, true)
    else if Pfx.Contains cgnat addr
    then (mkACL (acl_allowed a) (u64w (acl_total a + 1)) (u64w (acl_cgnat a + 1)) (unix now), false)
    else (mkACL (acl_allowed a) (u64w (acl_total a + 1)) (acl_cgnat a) (acl_lastCGNAT a), false).
Definition Stats (a : ACL) : RefusalStats := mkStats (acl_total a) (acl_cgnat a) (acl_lastCGNAT a).
Definition RecentCGNATRefusal (now within : Z) (a : ACL) : bool :=
  if acl_lastCGNAT a =? 0 then false else now - time_unix (acl_lastCGNAT a) <? within.

(** A client is allowed exactly by a configured range that contains it, masked
    or not; so an empty list refuses everyone. *)
Lemma Allow_spec now allowed total cg last addr :
  let '(a', ok) := Allow now (ACLReplace allowed (mkACL [] total cg last)) addr in
  (ok = true <-> Addr.IsValid addr = true /\ exists p, p ∈ allowed /\ Pfx.Contains (Pfx.Masked p) (Addr.Unmap addr) = true)
  /\ acl_total a' = (if ok then total else u64w (total + 1)).
Proof.
  unfold Allow, ACLReplace. simpl. destruct (Addr.IsValid addr); simpl; [|split; [split; [done|by intros [? _]]|done]].
  destruct (existsb _ _) eqn:E.
  - apply existsb_true_exists in E as (p & (q & -> & Hq)%list_elem_of_fmap & Hc). split; [|done].
    split; [|done]. intros _. split; [done|]. by exists q.
  - assert (Hno : ~ exists p, p ∈ allowed /\ Pfx.Contains (Pfx.Masked p) (Addr.Unmap addr) = true).
    { intros (p & Hp & Hc). rewrite existsb_false_forall in E.
      rewrite (E (Pfx.Masked p)) in Hc; [done|]. by apply list_elem_of_fmap_2. }
    destruct (Pfx.Contains cgnat _); simpl; (split; [split; [done|tauto]|done]).
Qed.
