(* ===== verification/DnsMetrics.v ===== *)
(** * Query counters: [internal/dnsserver/metrics.go] and [history.go]

    The atomics and the ring of one-minute buckets, as [uint64] values.  Every
    operation is one atomic step; the clock is read once per call. *)
From S2P Require Import Prelude GoStr DnsMsg.

Definition histSlots : Z := 60.

Inductive outcome := outcomeError | outcomeAuthoritative | outcomeForwarded | outcomeBlocked | outcomeRefused.
#[export] Instance outcome_eq_dec : EqDecision outcome.
Proof. solve_decision. Defined.

Definition outcomeFor (source : string) : outcome :=
  if bool_decide (source = "authoritative") then outcomeAuthoritative
  else if bool_decide (source = "forward") then outcomeForwarded
  else if bool_decide (source = "blocked") then outcomeBlocked
  else if bool_decide (source = "acl") then outcomeRefused
  else outcomeError.

(** [d.Milliseconds()], as a [uint64]. *)
Definition millis (d : Z) : Z := u64w (Z.quot d 1000000).

(** ** history.go *)
Record Bucket := mkBucket {
  b_Minute : Z; b_Authoritative : Z; b_Forwarded : Z; b_Blocked : Z;
  b_CacheHits : Z; b_CacheMisses : Z; b_LatencySum : Z; b_LatencyCount : Z }.
Definition empty_bucket (minute : Z) : Bucket := mkBucket minute 0 0 0 0 0 0 0.

(** The slots of the ring; [newHistory] zeroes the array. *)
Abbreviation history := (list Bucket).
Definition newHistory : history := replicate (Z.to_nat histSlots) (empty_bucket 0).
Definition minute_of (now : Z) : Z := Z.quot (unix now) 60.
Definition slot (minute : Z) : nat := Z.to_nat (Z.rem minute histSlots).

Definition current (minute : Z) (h : history) : Bucket :=
  let b := default (empty_bucket minute) (h !! slot minute) in
  if b_Minute b =? minute then b else empty_bucket minute.
Definition inc (z : Z) : Z := u64w (z + 1).
Definition add (now : Z) (o : outcome) (d : Z) (h : history) : history :=
  let minute := minute_of now in
  let b := current minute h in
  <[slot minute := mkBucket (b_Minute b)
      (if decide (o = outcomeAuthoritative) then inc (b_Authoritative b) else b_Authoritative b)
      (if decide (o = outcomeForwarded) then inc (b_Forwarded b) else b_Forwarded b)
      (if decide (o = outcomeBlocked) then inc (b_Blocked b) else b_Blocked b)
      (b_CacheHits b) (b_CacheMisses b)
      (u64w (b_LatencySum b + millis d)) (inc (b_LatencyCount b))]> h.
Definition addCache (now : Z) (hit : bool) (h : history) : history :=
  let minute := minute_of now in
  let b := current minute h in
  <[slot minute := mkBucket (b_Minute b) (b_Authoritative b) (b_Forwarded b) (b_Blocked b)
      (if hit then inc (b_CacheHits b) else b_CacheHits b)
      (if hit then b_CacheMisses b else inc (b_CacheMisses b))
      (b_LatencySum b) (b_LatencyCount b)]> h.
Definition snapshot (now : Z) (h : history) : list Bucket :=
  let nowMin := minute_of now in
  (fun i => let m := nowMin - i in
            match h !! slot m with
            | Some b => if b_Minute b =? m then b else empty_bucket m
            | None => empty_bucket m
            end) <$> rev (seqZ 0 histSlots).

(** ** metrics.go *)
Record Metrics := mkMetrics {
  total : Z; authoritative : Z; forwarded : Z; m_blocked : Z; refused : Z; errs : Z;
  noerror : Z; nxdomain : Z; servfail : Z;
  cacheHits : Z; cacheMisses : Z; latSum : Z; latCount : Z; lastQuery : Z;
  started : Z; hist : history }.
Definition newMetrics (now : Z) : Metrics := mkMetrics 0 0 0 0 0 0 0 0 0 0 0 0 0 0 now newHistory.

Definition RecordQuery (now : Z) (source : string) (rcode d : Z) (m : Metrics) : Metrics :=
  let o := outcomeFor source in
  mkMetrics (inc (total m))
    (if decide (o = outcomeAuthoritative) then inc (authoritative m) else authoritative m)
    (if decide (o = outcomeForwarded) then inc (forwarded m) else forwarded m)
    (if decide (o = outcomeBlocked) then inc (m_blocked m) else m_blocked m)
    (if decide (o = outcomeRefused) then inc (refused m) else refused m)
    (if decide (o = outcomeError) then inc (errs m) else errs m)
    (if rcode =? RcodeSuccess then inc (noerror m) else noerror m)
    (if rcode =? RcodeNameError then inc (nxdomain m) else nxdomain m)
    (if rcode =? RcodeServerFailure then inc (servfail m) else servfail m)
    (cacheHits m) (cacheMisses m)
    (u64w (latSum m + millis d)) (inc (latCount m)) (unix now)
    (started m) (add now o d (hist m)).
(** [None] is the nil receiver. *)
Definition RecordCache (now : Z) (hit : bool) (m : option Metrics) : option Metrics :=
  (fun m => mkMetrics (total m) (authoritative m) (forwarded m) (m_blocked m) (refused m) (errs m)
      (noerror m) (nxdomain m) (servfail m)
      (if hit then inc (cacheHits m) else cacheHits m)
      (if hit then cacheMisses m else inc (cacheMisses m))
      (latSum m) (latCount m) (lastQuery m) (started m) (addCache now hit (hist m))) <$> m.

Definition AvgMS (m : Metrics) : Z := if latCount m =? 0 then 0 else int64 (latSum m / latCount m).
Definition CacheHitRate (m : Metrics) : Z :=
  let t := u64w (cacheHits m + cacheMisses m) in
  if t =? 0 then 0 else int64 (u64w (cacheHits m * 100) / t).

(** ** The log of what was recorded *)
Inductive mev :=
  | MQuery (t : Z) (source : string) (rcode d : Z)
  | MCache (t : Z) (hit : bool).
Definition mev_time (e : mev) : Z := match e with MQuery t _ _ _ => t | MCache t _ => t end.
Definition mev_step (m : Metrics) (e : mev) : Metrics :=
  match e with
  | MQuery t s r d => RecordQuery t s r d m
  | MCache t hit => default m (RecordCache t hit (Some m))
  end.
Definition mev_run (t0 : Z) (log : list mev) : Metrics := foldl mev_step (newMetrics t0) log.

Definition is_query (e : mev) : bool := match e with MQuery _ _ _ _ => true | _ => false end.
Definition is_outcome (o : outcome) (e : mev) : bool :=
  match e with MQuery _ s _ _ => bool_decide (outcomeFor s = o) | _ => false end.
Definition is_cache (hit : bool) (e : mev) : bool := match e with MCache _ h => bool_decide (h = hit) | _ => false end.
Definition lat (e : mev) : Z := match e with MQuery _ _ _ d => millis d | _ => 0 end.
Definition sum_lat (log : list mev) : Z := foldl (fun s e => s + lat e) 0 log.
Definition in_minute (m : Z) (e : mev) : bool := minute_of (mev_time e) =? m.

(** What the bucket of a minute has to say about a log. *)
Definition bucket_of (log : list mev) (m : Z) : Bucket :=
  let l := List.filter (in_minute m) log in
  mkBucket m (u64w (countb (is_outcome outcomeAuthoritative) l)) (u64w (countb (is_outcome outcomeForwarded) l))
    (u64w (countb (is_outcome outcomeBlocked) l)) (u64w (countb (is_cache true) l)) (u64w (countb (is_cache false) l))
    (u64w (sum_lat l)) (u64w (countb is_query l)).

(** The log in clock order, from 1970 on. *)
Fixpoint clocked (last : Z) (log : list mev) : Prop :=
  match log with [] => True | e :: log' => last <= mev_time e /\ clocked (mev_time e) log' end.

(** ** Lemmas *)
Lemma u64w_add a b : u64w (u64w a + b) = u64w (a + b).
Proof. unfold u64w. by rewrite Zplus_mod_idemp_l. Qed.
Lemma inc_count {A} (p : A -> bool) l x :
  u64w (countb p (l ++ [x])) = if p x then inc (u64w (countb p l)) else u64w (countb p l).
Proof.
  rewrite countb_snoc. unfold inc. destruct (p x); simpl; [by rewrite u64w_add|by rewrite Z.add_0_r].
Qed.
Lemma sum_lat_snoc l e : sum_lat (l ++ [e]) = sum_lat l + lat e.
Proof. unfold sum_lat. by rewrite foldl_app. Qed.
Lemma bool_decide_sym {A} (x y : A) `{Decision (x = y)} {B} (a b : B) :
  (if bool_decide (x = y) then a else b) = (if decide (x = y) then a else b).
Proof. by case_bool_decide; case_decide. Qed.

Lemma bucket_of_snoc log e m :
  bucket_of (log ++ [e]) m =
  if in_minute m e then
    let b := bucket_of log m in
    match e with
    | MQuery _ s _ d =>
        mkBucket m
          (if decide (outcomeFor s = outcomeAuthoritative) then inc (b_Authoritative b) else b_Authoritative b)
          (if decide (outcomeFor s = outcomeForwarded) then inc (b_Forwarded b) else b_Forwarded b)
          (if decide (outcomeFor s = outcomeBlocked) then inc (b_Blocked b) else b_Blocked b)
          (b_CacheHits b) (b_CacheMisses b) (u64w (b_LatencySum b + millis d)) (inc (b_LatencyCount b))
    | MCache _ hit =>
        mkBucket m (b_Authoritative b) (b_Forwarded b) (b_Blocked b)
          (if hit then inc (b_CacheHits b) else b_CacheHits b)
          (if hit then b_CacheMisses b else inc (b_CacheMisses b)) (b_LatencySum b) (b_LatencyCount b)
    end
  else bucket_of log m.
Proof.
  unfold bucket_of. rewrite List.filter_app. simpl List.filter. destruct (in_minute m e); [|by rewrite app_nil_r].
  rewrite !inc_count, sum_lat_snoc. destruct e as [t s r d|t hit]; simpl.
  - rewrite !bool_decide_sym, u64w_add. done.
  - rewrite Z.add_0_r. by destruct hit.
Qed.

Lemma slot_bound m : 0 <= m -> (slot m < 60)%nat.
Proof. intros H. unfold slot, histSlots. rewrite Z.rem_mod_nonneg by lia. pose proof (Z.mod_pos_bound m 60). lia. Qed.
Lemma slot_eq m m' : 0 <= m -> 0 <= m' -> slot m = slot m' -> m mod 60 = m' mod 60.
Proof.
  unfold slot, histSlots. intros H H'. rewrite !Z.rem_mod_nonneg by lia.
  pose proof (Z.mod_pos_bound m 60). pose proof (Z.mod_pos_bound m' 60). lia.
Qed.

Lemma bucket_of_none log m : (forall e, e ∈ log -> minute_of (mev_time e) <> m) -> bucket_of log m = empty_bucket m.
Proof.
  intros H. unfold bucket_of. assert (List.filter (in_minute m) log = []) as ->; [|done].
  induction log as [|e log IH]; [done|]. simpl. unfold in_minute at 1.
  rewrite (proj2 (Z.eqb_neq _ _)) by (apply H; by left). apply IH. intros x Hx. apply H. by right.
Qed.
Lemma minute_mono t t' : 0 <= t <= t' -> 0 <= minute_of t <= minute_of t'.
Proof.
  intros H. unfold minute_of, unix, nanos_per_sec.
  assert (0 <= t / 1000000000 <= t' / 1000000000) by (split; [apply Z.div_pos|apply Z.div_le_mono]; lia).
  rewrite !Z.quot_div_nonneg by lia. split; [apply Z.div_pos|apply Z.div_le_mono]; lia.
Qed.

(** What the ring holds after a log: a slot is the bucket of the latest minute
    recorded in it, or still untouched. *)
Definition slot_ok (log : list mev) (last : Z) (i : nat) (b : Bucket) : Prop :=
  (forall e, e ∈ log -> slot (minute_of (mev_time e)) = i -> minute_of (mev_time e) <= b_Minute b)
  /\ 0 <= b_Minute b <= minute_of last
  /\ ((slot (b_Minute b) = i /\ b = bucket_of log (b_Minute b))
      \/ (b = empty_bucket 0 /\ forall e, e ∈ log -> slot (minute_of (mev_time e)) <> i)).
Definition ring_ok (log : list mev) (last : Z) (h : history) : Prop :=
  length h = 60%nat /\ 0 <= last /\ (forall e, e ∈ log -> 0 <= mev_time e <= last)
  /\ forall i b, h !! i = Some b -> slot_ok log last i b.

Lemma ring_current log last h k : ring_ok log last h -> minute_of last <= k -> current k h = bucket_of log k.
Proof.
  intros (Hlen & H0 & Hpast & Hs) Hk. pose proof (minute_mono 0 last ltac:(lia)) as Hm0.
  change (minute_of 0) with 0 in Hm0. unfold current.
  destruct (lookup_lt_is_Some_2 h (slot k)) as [b Hb]; [rewrite Hlen; apply slot_bound; lia|].
  rewrite Hb. simpl. destruct (Hs _ _ Hb) as (Hle & Hr & Hc). case_if.
  - bool_to_prop. subst k. destruct Hc as [[_ <-]|[-> Hn]]; [done|]. simpl.
    symmetry. apply bucket_of_none. intros e He Heq. apply (Hn e He). by rewrite Heq.
  - bool_to_prop. symmetry. apply bucket_of_none. intros e He Heq.
    destruct Hc as [_|[_ Hn]]; [|by apply (Hn e He); rewrite Heq].
    specialize (Hle e He ltac:(by rewrite Heq)). lia.
Qed.

Lemma ring_update log last h e b' :
  ring_ok log last h -> last <= mev_time e ->
  b' = bucket_of (log ++ [e]) (minute_of (mev_time e)) ->
  ring_ok (log ++ [e]) (mev_time e) (<[slot (minute_of (mev_time e)) := b']> h).
Proof.
  intros (Hlen & H0 & Hpast & Hs) Hle Hb'. pose proof (minute_mono last (mev_time e) ltac:(lia)) as Hm.
  split; [by rewrite length_insert|]. split; [lia|]. split.
  { intros x [Hx|Hx%list_elem_of_singleton]%elem_of_app; [|subst; lia]. specialize (Hpast x Hx). lia. }
  intros i b Hb. destruct (decide (i = slot (minute_of (mev_time e)))) as [->|Hne].
  - rewrite list_lookup_insert_eq in Hb by (rewrite Hlen; apply slot_bound; lia). injection Hb as <-.
    rewrite Hb'. unfold slot_ok. change (b_Minute (bucket_of _ ?m)) with m. split; [|split; [lia|by left]].
    intros x [Hx|Hx%list_elem_of_singleton]%elem_of_app _; [|by subst].
    specialize (Hpast x Hx). pose proof (minute_mono (mev_time x) (mev_time e)). lia.
  - rewrite list_lookup_insert_ne in Hb by done. destruct (Hs _ _ Hb) as (Ha & Hr & Hc). split; [|split; [lia|]].
    + intros x [Hx|Hx%list_elem_of_singleton]%elem_of_app Hsl; [by apply Ha|by subst].
    + destruct Hc as [[H1 H2]|[H1 H2]]; [left|right].
      * split; [done|]. rewrite bucket_of_snoc. unfold in_minute. rewrite (proj2 (Z.eqb_neq _ _)); [done|].
        intros E. apply Hne. by rewrite <- H1, <- E.
      * split; [done|]. intros x [Hx|Hx%list_elem_of_singleton]%elem_of_app; [by apply H2|subst; done].
Qed.

Lemma mev_step_ring log last m e :
  ring_ok log last (hist m) -> last <= mev_time e -> ring_ok (log ++ [e]) (mev_time e) (hist (mev_step m e)).
Proof.
  intros Hr Hle. assert (H0 : 0 <= last) by apply Hr.
  assert (Hc : current (minute_of (mev_time e)) (hist m) = bucket_of log (minute_of (mev_time e))).
  { apply (ring_current _ last); [done|]. by apply minute_mono. }
  pose proof (bucket_of_snoc log e (minute_of (mev_time e))) as Hsn.
  unfold in_minute in Hsn. rewrite Z.eqb_refl in Hsn.
  destruct e as [t s r d|t hit]; cbn [mev_step RecordQuery RecordCache hist default fmap option_fmap option_map];
    unfold add, addCache; cbn [mev_time] in *; rewrite Hc; apply (ring_update _ last); try done; by rewrite Hsn.
Qed.

Lemma mev_run_ring last m log1 log :
  ring_ok log1 last (hist m) -> clocked last log ->
  exists last', ring_ok (log1 ++ log) last' (hist (foldl mev_step m log)) /\ last' = default last (mev_time <$> list.last log).
Proof.
  revert last m log1. induction log as [|e log IH]; intros last m log1 Hr Hcl.
  - exists last. by rewrite app_nil_r.
  - destruct Hcl as [H1 H2]. destruct (IH (mev_time e) (mev_step m e) (log1 ++ [e])) as (l' & Hl & ->); [by apply (mev_step_ring _ last)|done|].
    eexists. split; [rewrite <- app_assoc in Hl; exact Hl|]. rewrite last_cons. by destruct (list.last log).
Qed.

(** The history after a log shows the sixty minutes that end now. *)
Lemma snapshot_of_ring log last h now :
  ring_ok log last h -> last <= now -> 59 <= minute_of now ->
  snapshot now h = bucket_of log <$> seqZ (minute_of now - 59) 60.
Proof.
  intros (Hlen & H0 & Hpast & Hs) Hle Hnow. unfold snapshot, histSlots.
  assert (rev (seqZ 0 60) = (fun j => 59 - j) <$> seqZ 0 60) as -> by reflexivity.
  replace (seqZ (minute_of now - 59) 60) with ((fun j => minute_of now - 59 + j) <$> seqZ 0 60)
    by (rewrite fmap_add_seqZ; f_equal; lia).
  rewrite <- !list_fmap_compose. apply list_fmap_ext. intros j x Hx. apply list_elem_of_lookup_2, elem_of_seqZ in Hx.
  simpl. replace (minute_of now - (59 - x)) with (minute_of now - 59 + x) by lia.
  set (k := minute_of now - 59 + x). destruct (lookup_lt_is_Some_2 h (slot k)) as [b Hb]; [rewrite Hlen; apply slot_bound; lia|].
  rewrite Hb. destruct (Hs _ _ Hb) as (Hmax & Hr & Hc). pose proof (minute_mono last now ltac:(lia)) as Hmn.
  destruct (Z.eqb_spec (b_Minute b) k) as [E|E].
  - destruct Hc as [[_ ->]|[-> Hn]]; [by rewrite E|]. simpl in E. rewrite <- E. symmetry. apply bucket_of_none.
    intros e He Heq. apply (Hn e He). by rewrite Heq, E.
  - symmetry. apply bucket_of_none. intros e He Heq.
    destruct Hc as [[Hsl _]|[_ Hn]]; [|by apply (Hn e He); rewrite Heq].
    specialize (Hmax e He ltac:(by rewrite Heq)). apply slot_eq in Hsl; [|lia|lia].
    rewrite Heq in Hmax. pose proof (Z.div_mod k 60). pose proof (Z.div_mod (b_Minute b) 60). lia.
Qed.

(** The totals after a log. *)
Definition totals_ok (log : list mev) (m : Metrics) : Prop :=
  total m = u64w (countb is_query log)
  /\ authoritative m = u64w (countb (is_outcome outcomeAuthoritative) log)
  /\ forwarded m = u64w (countb (is_outcome outcomeForwarded) log)
  /\ m_blocked m = u64w (countb (is_outcome outcomeBlocked) log)
  /\ refused m = u64w (countb (is_outcome outcomeRefused) log)
  /\ errs m = u64w (countb (is_outcome outcomeError) log)
  /\ cacheHits m = u64w (countb (is_cache true) log)
  /\ cacheMisses m = u64w (countb (is_cache false) log)
  /\ latSum m = u64w (sum_lat log) /\ latCount m = u64w (countb is_query log).
Lemma mev_step_totals log m e : totals_ok log m -> totals_ok (log ++ [e]) (mev_step m e).
Proof.
  intros (H1 & H2 & H3 & H4 & H5 & H6 & H7 & H8 & H9 & H10). unfold totals_ok.
  rewrite !inc_count, sum_lat_snoc.
  destruct e as [t s r d|t hit]; cbn [mev_step from_option id RecordCache fmap option_fmap option_map is_query is_outcome is_cache lat];
    unfold RecordQuery; cbn [total authoritative forwarded m_blocked refused errs cacheHits cacheMisses latSum latCount];
    rewrite ?bool_decide_sym, ?H1, ?H2, ?H3, ?H4, ?H5, ?H6, ?H7, ?H8, ?H9, ?H10, ?u64w_add, ?Z.add_0_r;
    split_and!; try done; by destruct hit.
Qed.
Lemma mev_run_totals t0 log : totals_ok log (mev_run t0 log).
Proof.
  unfold mev_run. assert (H : forall l1 l2 m, totals_ok l1 m -> totals_ok (l1 ++ l2) (foldl mev_step m l2)).
  { intros l1 l2. revert l1. induction l2 as [|e l2 IH]; intros l1 m Hm; [by rewrite app_nil_r|].
    simpl. replace (l1 ++ e :: l2) with ((l1 ++ [e]) ++ l2) by (by rewrite <- app_assoc).
    by apply IH, mev_step_totals. }
  by apply (H [] log).
Qed.
Lemma outcomes_partition log :
  countb is_query log = countb (is_outcome outcomeAuthoritative) log + countb (is_outcome outcomeForwarded) log
    + countb (is_outcome outcomeBlocked) log + countb (is_outcome outcomeRefused) log + countb (is_outcome outcomeError) log.
Proof.
  induction log as [|e log IH] using rev_ind; [done|]. rewrite !countb_snoc, IH.
  destruct e as [t s r d|t hit]; simpl; [|lia]. destruct (outcomeFor s); simpl; lia.
Qed.

(** every query is filed under exactly one outcome: whatever was recorded
    since the start, the five outcome counters sum to the total (as unsigned
    64-bit numbers, and exactly for as long as fewer than 2^64 queries were
    answered), the mean latency is over the same queries, and hits and misses
    count the cache lookups. *)
Theorem outcomes_sum_to_total t0 log :
  let m := mev_run t0 log in
  total m = u64w (authoritative m + forwarded m + m_blocked m + refused m + errs m)
  /\ latCount m = total m
  /\ (countb is_query log < 2 ^ 64 ->
      total m = countb is_query log
      /\ total m = authoritative m + forwarded m + m_blocked m + refused m + errs m)
  /\ u64w (cacheHits m + cacheMisses m) = u64w (countb (is_cache true) log + countb (is_cache false) log).
Proof.
  intros m. destruct (mev_run_totals t0 log) as (H1 & H2 & H3 & H4 & H5 & H6 & H7 & H8 & H9 & H10).
  fold m in H1, H2, H3, H4, H5, H6, H7, H8, H9, H10. pose proof (outcomes_partition log) as Hp.
  assert (Hadd : forall a b, u64w (u64w a + u64w b) = u64w (a + b)) by (intros; unfold u64w; by rewrite <- Zplus_mod).
  rewrite H1, H2, H3, H4, H5, H6, H7, H8, H10. split; [|split; [done|split]].
  - assert (E : forall z, exists k, u64w z = z + k * 2 ^ 64).
    { intros z. exists (- (z / 2 ^ 64)). unfold u64w. rewrite Z.mod_eq by lia. lia. }
    rewrite Hp. clear -E.
    generalize (countb (is_outcome outcomeAuthoritative) log) (countb (is_outcome outcomeForwarded) log)
      (countb (is_outcome outcomeBlocked) log) (countb (is_outcome outcomeRefused) log) (countb (is_outcome outcomeError) log).
    intros a b c d e.
    destruct (E a) as [ka ->], (E b) as [kb ->], (E c) as [kc ->], (E d) as [kd ->], (E e) as [ke ->].
    replace (_ + (e + _)) with ((a + b + c + d + e) + (ka + kb + kc + kd + ke) * 2 ^ 64) by lia.
    unfold u64w. rewrite Z.mod_add; lia.
  - intros Hlt. pose proof (countb_nonneg (is_outcome outcomeAuthoritative) log).
    pose proof (countb_nonneg (is_outcome outcomeForwarded) log). pose proof (countb_nonneg (is_outcome outcomeBlocked) log).
    pose proof (countb_nonneg (is_outcome outcomeRefused) log). pose proof (countb_nonneg (is_outcome outcomeError) log).
    rewrite !u64w_small by lia. lia.
  - by rewrite Hadd.
Qed.

(** the history graph is the traffic of the last hour: with a clock that does
    not step back, the snapshot is the sixty one-minute buckets that end at the
    current minute, in order, and each counts exactly the events recorded in its
    minute, whatever older traffic the ring slots held before. *)
Theorem history_is_last_hour t0 log now :
  0 <= t0 -> clocked t0 log -> default t0 (mev_time <$> list.last log) <= now -> 59 <= minute_of now ->
  snapshot now (hist (mev_run t0 log)) = bucket_of log <$> seqZ (minute_of now - 59) 60.
Proof.
  intros H0 Hcl Hnow Hm.
  destruct (mev_run_ring t0 (newMetrics t0) [] log) as (last & Hr & Hl); [|done|].
  - split; [done|]. split; [done|]. split; [by intros e ?%not_elem_of_nil|].
    intros i b Hb. apply lookup_replicate in Hb as [-> _]. split; [by intros e ?%not_elem_of_nil|].
    split; [simpl; split; [lia|by apply (minute_mono 0 t0)]|]. right. split; [done|]. by intros e ?%not_elem_of_nil.
  - apply (snapshot_of_ring _ last); [exact Hr|by rewrite Hl|done].
Qed.

(** Two queries an hour and ten minutes apart share a slot: only the later is
    still shown. *)
Lemma history_is_last_hour_witness :
  let log := [MQuery (seconds 36000) "forward" 0 5000000; MQuery (seconds 39600) "blocked" 3 1000000] in
  exists b, snapshot (seconds 39605) (hist (mev_run 0 log)) !! 59%nat = Some b
    /\ b_Blocked b = 1 /\ b_Forwarded b = 0 /\ b_LatencySum b = 1.
Proof.
  intros log. rewrite (history_is_last_hour 0 log (seconds 39605)).
  - eexists. split; [vm_compute; reflexivity|]. vm_compute. auto.
  - lia.
  - unfold log. simpl. unfold seconds, nanos_per_sec. lia.
  - vm_compute. discriminate.
  - vm_compute. discriminate.
Defined.
