(* ===== verification/DnsCache.v ===== *)
(** * The response cache: [internal/dnsserver/cache.go]

    The map from keys to list elements and the recency list, as the code has
    them: an element is an identifier, the map holds identifiers and the list
    holds the entries with their identifiers, newest first. *)
From S2P Require Import Prelude GoStr NetIP DnsMsg DnsMetrics.

Record cacheKey := mkKey { k_name : string; k_qtype : Z; k_do : bool }.
#[export] Instance cacheKey_eq_dec : EqDecision cacheKey.
Proof. solve_decision. Defined.
#[export] Instance cacheKey_countable : Countable cacheKey.
Proof.
  apply (inj_countable' (fun k => (k_name k, k_qtype k, k_do k)) (fun x => mkKey x.1.1 x.1.2 x.2)).
  by intros [].
Defined.

Record cacheEntry := mkEntry { e_key : cacheKey; e_msg : Msg; e_stored : Z; e_expires : Z; e_ttl : Z }.

Record Cache := mkCache {
  c_entries : gmap cacheKey Z;
  c_order : list (Z * cacheEntry);
  c_next : Z;  (** the next element identifier *)
  c_max : Z; c_minTTL : Z; c_maxTTL : Z; c_negMaxTTL : Z }.

Definition NewCache (max minTTL maxTTL negMaxTTL : Z) : Cache :=
  mkCache ∅ [] 0 max (u32w minTTL) (u32w maxTTL) (u32w negMaxTTL).

Definition with_lru (c : Cache) (es : gmap cacheKey Z) (o : list (Z * cacheEntry)) : Cache :=
  mkCache es o (c_next c) (c_max c) (c_minTTL c) (c_maxTTL c) (c_negMaxTTL c).

Section Fqdn.
Context (Fqdn : string -> string).

Definition keyFor (q : Question) (do : bool) : cacheKey := mkKey (ToLower (Fqdn (q_Name q))) (q_Qtype q) do.

(** [list.List.Remove] and [MoveToFront] of the element [id]. *)
Definition list_remove (id : Z) (o : list (Z * cacheEntry)) : list (Z * cacheEntry) := filter (fun x => x.1 <> id) o.
Definition element (id : Z) (o : list (Z * cacheEntry)) : option cacheEntry :=
  snd <$> List.find (fun x => x.1 =? id) o.
Definition removeLocked (id : Z) (c : Cache) : Cache :=
  match element id (c_order c) with
  | None => c
  | Some e => with_lru c (delete (e_key e) (c_entries c)) (list_remove id (c_order c))
  end.
(** [for c.order.Len() > c.maxEntries { removeLocked(c.order.Back()) }]; the list
    gets shorter at every turn, so its length is enough fuel. *)
Fixpoint evict (fuel : nat) (c : Cache) : Cache :=
  if c_max c <? Z.of_nat (length (c_order c)) then
    match fuel, last (c_order c) with
    | S f, Some (id, _) => evict f (removeLocked id c)
    | _, _ => c
    end
  else c.

Definition clamp (v lo hi : Z) : Z := if v <? lo then lo else if hi <? v then hi else v.
Definition ttlFor (c : Cache) (m : Msg) : Z :=
  if (m_Rcode m =? RcodeNameError) || bool_decide (m_Answer m = []) then
    match List.find (fun rr => match rr_data rr with SOAData _ _ _ _ _ _ _ => true | _ => false end) (m_Ns m) with
    | Some rr => match rr_data rr with
                 | SOAData _ _ _ _ _ _ minttl => clamp minttl (c_minTTL c) (c_negMaxTTL c)
                 | _ => 0
                 end
    | None => 0
    end
  else clamp (foldl (fun lowest rr => if h_Ttl (rr_hdr rr) <? lowest then h_Ttl (rr_hdr rr) else lowest)
                max_u32 (m_Answer m)) (c_minTTL c) (c_maxTTL c).

(** The age subtraction on a served copy; an OPT record has no TTL. *)
Definition age_rr (age : Z) (rr : DRR) : DRR :=
  if is_opt rr then rr
  else set_ttl (if age <? h_Ttl (rr_hdr rr) then h_Ttl (rr_hdr rr) - age else 0) rr.
Definition norm_rr (ttl : Z) (rr : DRR) : DRR := if is_opt rr then rr else set_ttl ttl rr.

Definition lookup_ (now : Z) (q : Question) (do : bool) (c : Cache) : Cache * option Msg :=
  match c_entries c !! keyFor q do with
  | None => (c, None)
  | Some id =>
      match element id (c_order c) with
      | None => (c, None)
      | Some e =>
          if negb (now <? e_expires e) then (removeLocked id c, None)
          else
            let age := u32w ((now - e_stored e) / nanos_per_sec) in
            (with_lru c (c_entries c) ((id, e) :: list_remove id (c_order c)),
             Some (map_sections (age_rr age) (e_msg e)))
      end
  end.
(** [ms] is what the metrics pointer refers to: the object is shared with the
    server, which counts its replies in it. *)
Definition Get (now : Z) (q : Question) (do : bool) (c : Cache) (ms : option Metrics)
    : Cache * option Metrics * option Msg :=
  let '(c, m) := lookup_ now q do c in
  (c, RecordCache now (bool_decide (is_Some m)) ms, m).

Definition Put (now : Z) (q : Question) (do : bool) (m : option Msg) (c : Cache) : Cache :=
  match m with
  | None => c
  | Some m =>
      let ttl := ttlFor c m in
      if ttl =? 0 then c
      else
        let key := keyFor q do in
        let e := mkEntry key (map_sections (norm_rr ttl) m) now (now + seconds ttl) ttl in
        let c := match c_entries c !! key with Some id => removeLocked id c | None => c end in
        let c := mkCache (<[key := c_next c]> (c_entries c)) ((c_next c, e) :: c_order c) (c_next c + 1)
                   (c_max c) (c_minTTL c) (c_maxTTL c) (c_negMaxTTL c) in
        evict (length (c_order c)) c
  end.

Definition Retune (max minTTL maxTTL negMaxTTL : Z) (c : Cache) : Cache :=
  let max := if max <? 1 then 1 else max in
  let c := mkCache (c_entries c) (c_order c) (c_next c) max (u32w minTTL) (u32w maxTTL) (u32w negMaxTTL) in
  evict (length (c_order c)) c.
Definition Flush (c : Cache) : Cache := with_lru c ∅ [].
Definition Len (c : Cache) : Z := Z.of_nat (length (c_order c)).

(** ** The invariant of the map and the list *)
Record cache_wf (c : Cache) : Prop := {
  wf_ids : NoDup (c_order c).*1;
  wf_fresh : forall x, x ∈ c_order c -> x.1 < c_next c;
  wf_agree : forall k id, c_entries c !! k = Some id <-> exists e, (id, e) ∈ c_order c /\ e_key e = k }.

Lemma element_spec id o e : NoDup o.*1 -> element id o = Some e <-> (id, e) ∈ o.
Proof.
  unfold element. induction o as [|[i x] o IH]; simpl; intros Hnd.
  - split; [done|by intros ?%not_elem_of_nil].
  - apply NoDup_cons in Hnd as [Hi Hnd]. rewrite elem_of_cons. destruct (Z.eqb_spec i id) as [->|Hne]; simpl.
    + split; [intros [= ->]; by left|]. intros [[= ->]|Hin]; [done|].
      exfalso. apply Hi. apply list_elem_of_fmap. by exists (id, e).
    + rewrite IH by done. split; [by right|]. by intros [[= <- ->]|].
Qed.

Lemma list_remove_elem id o x : x ∈ list_remove id o <-> x ∈ o /\ x.1 <> id.
Proof. unfold list_remove. rewrite list_elem_of_filter. tauto. Qed.
Lemma list_remove_NoDup id o : NoDup o.*1 -> NoDup (list_remove id o).*1.
Proof. intros H. eapply sublist_NoDup; [exact H|]. apply fmap_sublist, sublist_filter. Qed.

Lemma removeLocked_wf id c : cache_wf c -> cache_wf (removeLocked id c).
Proof.
  intros Hw. unfold removeLocked. destruct (element id (c_order c)) as [e|] eqn:E; [|done].
  destruct Hw as [Hi Hf Ha]. apply element_spec in E; [|done]. constructor; simpl.
  - by apply list_remove_NoDup.
  - intros x [Hx _]%list_remove_elem. auto.
  - intros k j. setoid_rewrite list_remove_elem. simpl.
    assert (He : c_entries c !! e_key e = Some id) by (apply Ha; eauto).
    destruct (decide (k = e_key e)) as [->|Hk].
    + rewrite lookup_delete_eq. split; [done|]. intros (e' & [Hin Hne] & Hke).
      exfalso. apply Hne. apply (inj Some). rewrite <- He. symmetry. apply Ha. eauto.
    + rewrite lookup_delete_ne by done. rewrite Ha. split.
      * intros (e' & Hin & Hke). exists e'. split; [|done]. split; [done|]. intros ->.
        apply element_spec in Hin, E; [|done..]. rewrite E in Hin. by injection Hin as ->.
      * intros (e' & [Hin _] & Hke). eauto.
Qed.

Lemma last_some_in {A} (l : list A) x : last l = Some x -> x ∈ l.
Proof. intros (k & ->)%last_Some. apply elem_of_app. right. by left. Qed.

Lemma removeLocked_length id e c :
  cache_wf c -> (id, e) ∈ c_order c -> length (c_order (removeLocked id c)) = (length (c_order c) - 1)%nat.
Proof.
  intros [Hi _ _] Hin. unfold removeLocked. rewrite (proj2 (element_spec _ _ _ Hi) Hin). simpl.
  clear -Hi Hin. induction (c_order c) as [|[j x] o IH]; [by apply not_elem_of_nil in Hin|].
  apply NoDup_cons in Hi as [Hj Hi]. unfold list_remove. rewrite filter_cons.
  apply elem_of_cons in Hin as [[= <- <-]|Hin].
  - rewrite decide_False by tauto. simpl.
    assert (filter (fun x => x.1 <> id) o = o) as ->; [|lia].
    apply filter_id. intros y Hy Ey. apply Hj. apply list_elem_of_fmap. exists y. split; [by rewrite Ey | done].
  - rewrite decide_True.
    + simpl. fold (list_remove id o). rewrite IH by done. destruct o; [by apply not_elem_of_nil in Hin|]. simpl. lia.
    + intros E. simpl in E. subst j. apply Hj. apply list_elem_of_fmap. by exists (id, e).
Qed.

Lemma evict_spec fuel : forall c, cache_wf c -> 0 <= c_max c -> (length (c_order c) <= fuel)%nat ->
  cache_wf (evict fuel c) /\ c_max (evict fuel c) = c_max c /\ Len (evict fuel c) <= c_max c
  /\ forall x, x ∈ c_order (evict fuel c) -> x ∈ c_order c.
Proof.
  unfold Len. induction fuel as [|fuel IH]; intros c Hw Hm Hl; simpl.
  - destruct (Z.ltb_spec (c_max c) (Z.of_nat (length (c_order c)))); split_and!; try done; lia.
  - destruct (Z.ltb_spec (c_max c) (Z.of_nat (length (c_order c)))) as [Hlt|Hge]; [|by split_and!; try lia].
    destruct (last (c_order c)) as [[id e]|] eqn:E; [|apply last_None in E; rewrite E in Hlt; simpl in Hlt; lia].
    apply last_some_in in E.
    destruct (IH (removeLocked id c)) as (H1 & H2 & H3 & H4).
    + by apply removeLocked_wf.
    + unfold removeLocked. by destruct (element _ _).
    + rewrite (removeLocked_length id e) by done. lia.
    + assert (c_max (removeLocked id c) = c_max c) as Hmax by (unfold removeLocked; by destruct (element _ _)).
      rewrite Hmax in *. split_and!; try done. intros x Hx%H4. unfold removeLocked in Hx.
      destruct (element _ _); [|done]. simpl in Hx. by apply list_remove_elem in Hx as [? _].
Qed.
End Fqdn.

(** Evicting from the back keeps the newest [c_max] entries, in order. *)
Lemma list_remove_last id e o : NoDup (o ++ [(id, e)]).*1 -> list_remove id (o ++ [(id, e)]) = o.
Proof.
  rewrite fmap_app, NoDup_app. intros (_ & Hn & _). unfold list_remove.
  rewrite filter_app, filter_cons_False by (simpl; tauto). rewrite filter_nil, app_nil_r.
  apply filter_id. intros x Hx E. apply (Hn id); [|by left]. apply list_elem_of_fmap. by exists x.
Qed.
Lemma evict_order fuel : forall c, cache_wf c -> 0 <= c_max c -> (length (c_order c) <= fuel)%nat ->
  c_order (evict fuel c) = take (Z.to_nat (c_max c)) (c_order c).
Proof.
  induction fuel as [|fuel IH]; intros c Hw Hm Hl; simpl.
  - destruct (Z.ltb_spec (c_max c) (Z.of_nat (length (c_order c)))); [lia|]. by rewrite take_ge by lia.
  - destruct (Z.ltb_spec (c_max c) (Z.of_nat (length (c_order c)))) as [Hlt|Hge]; [|by rewrite take_ge by lia].
    destruct (last (c_order c)) as [[id e]|] eqn:E; [|apply last_None in E; rewrite E in Hlt; simpl in Hlt; lia].
    pose proof E as (o & Eo)%last_Some.
    assert (Hrem : c_order (removeLocked id c) = o /\ c_max (removeLocked id c) = c_max c).
    { unfold removeLocked. rewrite (proj2 (element_spec id (c_order c) e (wf_ids c Hw))) by (by apply last_some_in).
      simpl. split; [|done]. rewrite Eo. apply list_remove_last. rewrite <- Eo. apply Hw. }
    destruct Hrem as [Ho Hmx]. rewrite IH; rewrite ?Ho, ?Hmx; try done.
    + rewrite Eo. rewrite take_app_le; [done|]. rewrite Eo, length_app in Hlt. simpl in Hlt. lia.
    + by apply removeLocked_wf.
    + rewrite Eo, length_app in Hl. simpl in Hl. lia.
Qed.

(** ** Every operation keeps the cache consistent and bounded *)
Inductive cache_op :=
  | CGet (now : Z) (q : Question) (do : bool)
  | CPut (now : Z) (q : Question) (do : bool) (m : Msg)
  | CRetune (max minTTL maxTTL negMaxTTL : Z)
  | CFlush.
Definition cache_step (Fqdn : string -> string) (c : Cache) (op : cache_op) : Cache :=
  match op with
  | CGet now q do => (Get Fqdn now q do c None).1.1
  | CPut now q do m => Put Fqdn now q do (Some m) c
  | CRetune a b d e => Retune a b d e c
  | CFlush => Flush c
  end.
Definition cache_run (Fqdn : string -> string) (ops : list cache_op) (c : Cache) : Cache :=
  foldl (cache_step Fqdn) c ops.

Lemma push_wf c k e : cache_wf c -> c_entries c !! k = None -> e_key e = k ->
  cache_wf (mkCache (<[k := c_next c]> (c_entries c)) ((c_next c, e) :: c_order c) (c_next c + 1)
                   (c_max c) (c_minTTL c) (c_maxTTL c) (c_negMaxTTL c)).
Proof.
  intros [Hi Hf Ha] Hk Hke. constructor; simpl.
  - constructor; [|done]. intros (x & Ex & Hx)%list_elem_of_fmap. apply Hf in Hx. lia.
  - intros x [->|Hx]%elem_of_cons; [simpl; lia|]. apply Hf in Hx. lia.
  - intros k' id. setoid_rewrite elem_of_cons. destruct (decide (k' = k)) as [->|Hne].
    + rewrite lookup_insert_eq. split; [intros [= <-]; exists e; auto|].
      intros (e' & [[= -> ->]|Hin] & Hke'); [done|]. exfalso.
      assert (c_entries c !! k = Some id) by (apply Ha; eauto). congruence.
    + rewrite lookup_insert_ne by done. rewrite Ha. split.
      * intros (e' & Hin & Hke'). eauto.
      * intros (e' & [[= -> ->]|Hin] & Hke'); [congruence|eauto].
Qed.

Lemma removed_key id e c : cache_wf c -> c_entries c !! e_key e = Some id -> (id, e) ∈ c_order c ->
  c_entries (removeLocked id c) !! e_key e = None.
Proof.
  intros Hw _ Hin. unfold removeLocked. rewrite (proj2 (element_spec _ _ _ (wf_ids c Hw)) Hin).
  simpl. apply lookup_delete_eq.
Qed.
Lemma removeLocked_max id c : c_max (removeLocked id c) = c_max c.
Proof. unfold removeLocked. by destruct (element _ _). Qed.
Lemma removeLocked_order id c x : x ∈ c_order (removeLocked id c) -> x ∈ c_order c.
Proof. unfold removeLocked. destruct (element _ _); [|done]. by intros [? _]%list_remove_elem. Qed.

(** The cache just before the evictions of [Put]. *)
Lemma Put_step Fqdn now q do m c :
  cache_wf c -> let ttl := ttlFor c m in ttl <> 0 ->
  exists c1, cache_wf c1 /\ c_max c1 = c_max c
    /\ Put Fqdn now q do (Some m) c = evict (length (c_order c1)) c1
    /\ exists id o, c_order c1 = (id, mkEntry (keyFor Fqdn q do) (map_sections (norm_rr ttl) m) now (now + seconds ttl) ttl) :: o
         /\ o = filter (fun x => e_key x.2 <> keyFor Fqdn q do) (c_order c).
Proof.
  intros Hw ttl Hne. unfold Put. fold ttl. rewrite (proj2 (Z.eqb_neq _ _) Hne). cbv zeta.
  set (key := keyFor Fqdn q do). set (e := mkEntry key _ _ _ _).
  set (c0 := match c_entries c !! key with Some id => removeLocked id c | None => c end).
  assert (Hc0 : cache_wf c0 /\ c_entries c0 !! key = None /\ c_max c0 = c_max c
                /\ c_order c0 = filter (fun x => e_key x.2 <> key) (c_order c)).
  { unfold c0. destruct (c_entries c !! key) as [id|] eqn:E.
    - pose proof E as (e0 & Hin & Hk)%(wf_agree c Hw). split; [by apply removeLocked_wf|].
      rewrite <- Hk in E |- *. split; [by eapply removed_key|]. split; [apply removeLocked_max|].
      unfold removeLocked. rewrite (proj2 (element_spec _ _ _ (wf_ids c Hw)) Hin). simpl.
      unfold list_remove. apply list_filter_ext. intros [j x] Hx. simpl. split; intros Hj.
      + intros Ek. apply Hj. apply (inj Some). rewrite <- E. symmetry. apply (wf_agree c Hw). eauto.
      + intros ->. apply Hj. apply (element_spec _ _ _ (wf_ids c Hw)) in Hin, Hx.
        rewrite Hin in Hx. by injection Hx as ->.
    - split_and!; try done. symmetry. apply filter_id. intros [j x] Hx Ek.
      assert (c_entries c !! key = Some j) as E' by (apply (wf_agree c Hw); eauto). congruence. }
  destruct Hc0 as (Hw0 & Hk0 & Hm0 & Ho0).
  eexists. split; [exact (push_wf c0 key e Hw0 Hk0 eq_refl)|]. split; [exact Hm0|]. split; [reflexivity|].
  simpl. exists (c_next c0), (c_order c0). done.
Qed.

Lemma Get_fst Fqdn now q do c ms : (Get Fqdn now q do c ms).1.1 = (lookup_ Fqdn now q do c).1.
Proof. unfold Get. by destruct (lookup_ _ _ _ _ _). Qed.
Lemma lookup_wf Fqdn now q do c : cache_wf c ->
  cache_wf (lookup_ Fqdn now q do c).1 /\ c_max (lookup_ Fqdn now q do c).1 = c_max c
  /\ (Len (lookup_ Fqdn now q do c).1 <= Len c)
  /\ forall x, x ∈ c_order (lookup_ Fqdn now q do c).1 -> x ∈ c_order c.
Proof.
  intros Hw. assert (Hl : let c' := (lookup_ Fqdn now q do c).1 in
    cache_wf c' /\ c_max c' = c_max c /\ Len c' <= Len c /\ forall x, x ∈ c_order c' -> x ∈ c_order c).
  { unfold lookup_. destruct (c_entries c !! _) as [id|] eqn:E; [|by split_and!].
    destruct (element id (c_order c)) as [e|] eqn:Ee; [|by split_and!].
    apply (element_spec _ _ _ (wf_ids c Hw)) in Ee. destruct (negb _); simpl.
    - split; [by apply removeLocked_wf|]. split; [apply removeLocked_max|].
      split; [unfold Len; rewrite (removeLocked_length id e) by done; lia | apply removeLocked_order].
    - assert (Hp : forall x, x ∈ (id, e) :: list_remove id (c_order c) <-> x ∈ c_order c).
      { intros [j x]. rewrite elem_of_cons, list_remove_elem. simpl. split.
        - intros [[= -> ->]|[? _]]; done.
        - intros Hx. destruct (decide (j = id)) as [->|]; [left|by right].
          apply (element_spec _ _ _ (wf_ids c Hw)) in Hx, Ee. rewrite Ee in Hx. by injection Hx as ->. }
      split_and!; simpl; try done; [|unfold Len; simpl|by apply Hp].
      + destruct Hw as [Hi Hf Ha]. constructor; simpl.
        * constructor; [|by apply list_remove_NoDup].
          intros (x & Ex & [_ Hx]%list_remove_elem)%list_elem_of_fmap. done.
        * intros x Hx%Hp. auto.
        * intros k j. rewrite Ha. split; intros (e' & Hin & Hk); exists e'; (split; [by apply Hp|done]).
      + pose proof (removeLocked_length id e c Hw Ee) as Hlen. unfold removeLocked in Hlen.
        rewrite (proj2 (element_spec _ _ _ (wf_ids c Hw)) Ee) in Hlen. simpl in Hlen. rewrite Hlen.
        destruct (c_order c); [by apply not_elem_of_nil in Ee|]. simpl. lia. }
  exact Hl.
Qed.

Definition cache_ok (c : Cache) : Prop := cache_wf c /\ 0 <= c_max c /\ Len c <= c_max c.

Lemma cache_step_ok Fqdn c op : cache_ok c -> cache_ok (cache_step Fqdn c op).
Proof.
  intros (Hw & Hm & Hl). destruct op as [now q do|now q do m|a b d e|]; cbn [cache_step].
  - rewrite Get_fst. destruct (lookup_wf Fqdn now q do c Hw) as (H1 & H2 & H3 & _). split; [done|]. rewrite H2. split; [done|lia].
  - destruct (decide (ttlFor c m = 0)) as [E|E].
    + unfold Put. by rewrite E.
    + destruct (Put_step Fqdn now q do m c Hw E) as (c1 & H1 & H2 & -> & _).
      destruct (evict_spec (length (c_order c1)) c1) as (H3 & H4 & H5 & _); [done|lia|done|].
      split; [done|]. rewrite H4, H2 in *. done.
  - unfold Retune. cbv zeta. set (c1 := mkCache _ _ _ _ _ _ _).
    assert (Hw1 : cache_wf c1) by (by destruct Hw).
    assert (Hm1 : 0 <= c_max c1) by (unfold c1; simpl; destruct (Z.ltb_spec a 1); lia).
    destruct (evict_spec (length (c_order c1)) c1) as (H3 & H4 & H5 & _); [done|done|done|].
    split; [done|]. rewrite H4. done.
  - split; [|done]. constructor; simpl; [constructor|by intros ? ?%not_elem_of_nil|].
    intros k id. rewrite lookup_empty. split; [done|]. by intros (e & ?%not_elem_of_nil & _).
Qed.

(** from an empty cache with a non-negative ceiling, whatever lookups,
    stores, retunings and flushes follow, the map and the recency list agree
    entry by entry, no key is stored twice and the cache never holds more than
    its current ceiling. *)
Theorem cache_consistent_and_bounded Fqdn max a b d ops :
  0 <= max ->
  let c := cache_run Fqdn ops (NewCache max a b d) in
  cache_wf c /\ Len c <= c_max c /\ NoDup (e_key ∘ snd <$> c_order c).
Proof.
  intros Hmax c. assert (Hok : cache_ok c).
  { apply (foldl_inv cache_ok); [intros; by apply cache_step_ok|].
    split; [|done]. constructor; simpl; [constructor|by intros ? ?%not_elem_of_nil|].
    intros k id. rewrite lookup_empty. split; [done|]. by intros (e & ?%not_elem_of_nil & _). }
  destruct Hok as (Hw & _ & Hl). split_and!; [done|done|].
  destruct Hw as [Hi _ Ha]. rewrite list_fmap_compose. clearbody c. clear Hl.
  assert (Hu : forall x y, x ∈ c_order c -> y ∈ c_order c -> e_key x.2 = e_key y.2 -> x.1 = y.1).
  { intros [i x] [j y] Hx Hy E. simpl in *. apply (inj Some). trans (c_entries c !! e_key x).
    - symmetry. apply Ha. eauto.
    - apply Ha. exists y. auto. }
  revert Hi Hu. generalize (c_order c). intros o. induction o as [|x o IH]; intros Hi Hu; [constructor|].
  rewrite !fmap_cons in *. apply NoDup_cons in Hi as [Hx Hi]. constructor.
  - intros (y & Ey & (z & -> & Hz)%list_elem_of_fmap)%list_elem_of_fmap. apply Hx.
    rewrite (Hu x z) by (done || by left || by right). by apply list_elem_of_fmap_2.
  - apply IH; [done|]. intros y z Hy Hz. apply Hu; by right.
Qed.

(** ** What a hit is worth *)
(** TTL fields are 32-bit. *)
Definition msg_ttls_ok (m : Msg) : Prop :=
  (forall rr, rr ∈ m_Answer m -> 0 <= h_Ttl (rr_hdr rr) < 2 ^ 32)
  /\ forall rr, rr ∈ m_Ns m -> match rr_data rr with SOAData _ _ _ _ _ _ x => 0 <= x < 2 ^ 32 | _ => True end.
Definition op_ok (op : cache_op) : Prop := match op with CPut _ _ _ m => msg_ttls_ok m | _ => True end.
Definition bounds_ok (c : Cache) : Prop :=
  0 <= c_minTTL c < 2 ^ 32 /\ 0 <= c_maxTTL c < 2 ^ 32 /\ 0 <= c_negMaxTTL c < 2 ^ 32.

Lemma clamp_bound v lo hi : 0 <= v < 2 ^ 32 -> 0 <= lo < 2 ^ 32 -> 0 <= hi < 2 ^ 32 -> 0 <= clamp v lo hi < 2 ^ 32.
Proof. unfold clamp. repeat case_if; bool_to_prop; lia. Qed.
Lemma ttlFor_bound c m : bounds_ok c -> msg_ttls_ok m -> 0 <= ttlFor c m < 2 ^ 32.
Proof.
  intros (H1 & H2 & H3) [Ha Hn]. unfold ttlFor. destruct (_ || _)%bool.
  - destruct (List.find _ (m_Ns m)) as [rr|] eqn:E; [|lia]. apply List.find_some in E as [E _].
    apply list_elem_of_In, Hn in E. destruct (rr_data rr); try lia. by apply clamp_bound.
  - apply clamp_bound; [|done|done].
    assert (H0 : 0 <= max_u32 < 2 ^ 32) by (unfold max_u32; lia).
    revert H0. generalize max_u32. revert Ha. generalize (m_Answer m) as l.
    induction l as [|rr l IH]; intros Ha z Hz; simpl; [done|]. apply IH; [intros; apply Ha; by right|].
    specialize (Ha rr ltac:(left)). case_if; lia.
Qed.

Lemma evict_bounds fuel : forall c, bounds_ok c -> bounds_ok (evict fuel c).
Proof.
  induction fuel as [|fuel IH]; intros c H; simpl; (case_if; [|done]); [done|].
  destruct (last _) as [[id e]|]; [|done]. apply IH. unfold removeLocked. by destruct (element _ _).
Qed.
Lemma cache_step_bounds Fqdn c op : bounds_ok c -> bounds_ok (cache_step Fqdn c op).
Proof.
  intros H. destruct op as [now q do|now q do m|a b d e|]; cbn [cache_step].
  - rewrite Get_fst. unfold lookup_. repeat case_match; simplify_eq; simpl; try done;
      unfold removeLocked; by destruct (element _ _).
  - unfold Put. cbv zeta. case_if; [done|]. apply evict_bounds.
    destruct (c_entries c !! _); [|done]. unfold removeLocked. by destruct (element _ _).
  - unfold Retune. apply evict_bounds. unfold bounds_ok. simpl. pose proof (u32w_bound). auto.
  - done.
Qed.

(** The entry [Put] makes of [m]. *)
Definition entry_of (Fqdn : string -> string) (ops : list cache_op) (e : cacheEntry) : Prop :=
  exists now q do m, CPut now q do m ∈ ops /\ 0 < e_ttl e < 2 ^ 32
    /\ e = mkEntry (keyFor Fqdn q do) (map_sections (norm_rr (e_ttl e)) m) now (now + seconds (e_ttl e)) (e_ttl e).

Lemma entries_of_run Fqdn ops c0 :
  cache_ok c0 -> bounds_ok c0 -> c_order c0 = [] -> Forall op_ok ops ->
  let c := cache_run Fqdn ops c0 in
  cache_ok c /\ bounds_ok c /\ forall x, x ∈ c_order c -> entry_of Fqdn ops x.2.
Proof.
  intros H1 H2 H3. induction ops as [|op ops IH] using rev_ind; intros Hops.
  - simpl. split_and!; try done. rewrite H3. by intros x ?%not_elem_of_nil.
  - apply Forall_app in Hops as [Hops Hop]. inversion Hop as [|? ? Hop' _]; subst.
    specialize (IH Hops). unfold cache_run in *. rewrite foldl_app. simpl.
    destruct IH as (Hc & Hb & He). set (c := foldl (cache_step Fqdn) c0 ops) in *.
    split; [by apply cache_step_ok|]. split; [by apply cache_step_bounds|].
    assert (Hmono : forall x, x ∈ c_order c -> entry_of Fqdn (ops ++ [op]) x.2).
    { intros x (t & q & do & m & Hin & H)%He. exists t, q, do, m. split; [|done]. apply elem_of_app. by left. }
    destruct Hc as (Hw & Hm & Hl). destruct op as [now q do|now q do m|a b d e|]; cbn [cache_step]; intros x Hx.
    + rewrite Get_fst in Hx. apply Hmono. by apply (lookup_wf Fqdn now q do c Hw).
    + destruct (decide (ttlFor c m = 0)) as [E|E]; [unfold Put in Hx; rewrite E in Hx; by apply Hmono|].
      destruct (Put_step Fqdn now q do m c Hw E) as (c1 & Hw1 & Hm1 & Ep & id & o & Eo & Ho).
      rewrite Ep in Hx. apply (evict_spec (length (c_order c1))) in Hx; [|done|lia|done].
      rewrite Eo in Hx. apply elem_of_cons in Hx as [->|Hx].
      * simpl. exists now, q, do, m. split; [apply elem_of_app; right; by left|]. simpl.
        pose proof (ttlFor_bound c m Hb Hop'). split; [lia|done].
      * rewrite Ho in Hx. apply list_elem_of_filter in Hx as [_ Hx]. by apply Hmono.
    + apply Hmono. unfold Retune in Hx. cbv zeta in Hx. apply evict_spec in Hx; [done| |simpl; case_if; bool_to_prop; lia|done].
      by destruct Hw.
    + by apply not_elem_of_nil in Hx.
Qed.

Definition aged (age : Z) (rr : DRR) : Z := if age <? h_Ttl (rr_hdr rr) then h_Ttl (rr_hdr rr) - age else 0.

Lemma Get_hit Fqdn now q do c ms c' ms' m : cache_wf c -> Get Fqdn now q do c ms = (c', ms', Some m) ->
  exists id e, (id, e) ∈ c_order c /\ e_key e = keyFor Fqdn q do /\ now < e_expires e
    /\ m = map_sections (age_rr (u32w ((now - e_stored e) / nanos_per_sec))) (e_msg e).
Proof.
  intros Hw. unfold Get, lookup_. destruct (c_entries c !! keyFor Fqdn q do) as [id|] eqn:E; [|done].
  destruct (element id (c_order c)) as [e|] eqn:Ee; [|done].
  destruct (now <? e_expires e) eqn:Ex; [|done]. simpl. intros [= _ _ <-].
  apply (element_spec _ _ _ (wf_ids c Hw)) in Ee. exists id, e.
  apply (wf_agree c Hw) in E as (e' & Hin & Hk).
  assert (e' = e) as ->. { apply (element_spec _ _ _ (wf_ids c Hw)) in Hin, Ee. congruence. }
  split_and!; try done. by bool_to_prop.
Qed.

Lemma map_sections_compose f g m : map_sections f (map_sections g m) = map_sections (f ∘ g) m.
Proof. unfold map_sections. simpl. by rewrite <- !list_fmap_compose. Qed.

Lemma map_sections_ext f g m : (forall rr, f rr = g rr) -> map_sections f m = map_sections g m.
Proof. intros H. unfold map_sections. f_equal; apply list_fmap_ext; intros i rr _; apply H. Qed.

(** a hit returns a message that was stored earlier under the same name,
    type and DO bit, strictly before it expired, with every TTL of it (OPT
    records aside) set to what is left of the clamped lifetime: it is at least
    one second and promises at most one second more than the entry has left. *)
Theorem cache_hit_is_fresh Fqdn max a b d ops now q do ms c' ms' m' :
  0 <= max -> Forall op_ok ops ->
  Get Fqdn now q do (cache_run Fqdn ops (NewCache max a b d)) ms = (c', ms', Some m') ->
  exists t0 q0 m ttl, CPut t0 q0 do m ∈ ops /\ keyFor Fqdn q0 do = keyFor Fqdn q do
    /\ 0 < ttl < 2 ^ 32 /\ now < t0 + seconds ttl
    /\ (t0 <= now ->
        let age := (now - t0) / nanos_per_sec in
        m' = map_sections (norm_rr (ttl - age)) m
        /\ 1 <= ttl - age /\ seconds (ttl - age) < t0 + seconds ttl - now + seconds 1).
Proof.
  intros Hmax Hops Hg.
  destruct (entries_of_run Fqdn ops (NewCache max a b d)) as (Hc & _ & He); try done.
  { split; [|done]. constructor; simpl; [constructor|by intros ? ?%not_elem_of_nil|].
    intros k id. rewrite lookup_empty. split; [done|]. by intros (e & ?%not_elem_of_nil & _). }
  { unfold bounds_ok. simpl. pose proof u32w_bound. auto. }
  apply Get_hit in Hg as (id & e & Hin & Hk & Hlt & ->); [|apply Hc].
  apply He in Hin as (t0 & q0 & do0 & m & Hput & Httl & Ee). simpl in Httl, Ee.
  set (ttl := e_ttl e) in *. rewrite Ee in Hk, Hlt |- *. simpl in *. clear Ee He.
  assert (do0 = do) as -> by (unfold keyFor in Hk; congruence).
  exists t0, q0, m, ttl. split_and!; try done; try lia. intros Hle.
  pose proof (Z.div_mod (now - t0) nanos_per_sec). pose proof (Z.mod_pos_bound (now - t0) nanos_per_sec).
  set (age := (now - t0) / nanos_per_sec) in *. unfold seconds, nanos_per_sec in *.
  assert (Ha : 0 <= age < ttl) by lia.
  rewrite u32w_small by lia. split; [|lia]. rewrite map_sections_compose. apply map_sections_ext.
  intros rr. simpl.
    unfold age_rr, norm_rr; destruct (is_opt rr) eqn:Eo; rewrite ?Eo; try done;
    change (is_opt (set_ttl ttl rr)) with (is_opt rr); rewrite Eo; simpl;
    by rewrite (proj2 (Z.ltb_lt _ _)) by lia.
Qed.

Definition id_fqdn (s : string) : string := s.
Definition ex_q : Question := mkQuestion "a.example." TypeA ClassINET.
Definition ex_msg : Msg :=
  mkMsg 0 0 false true false [ex_q] [mkDRR (mkHdr "a.example." TypeA ClassINET 300) (AData None)] [] [].
Lemma cache_hit_is_fresh_witness :
  exists c' m', Get id_fqdn (seconds 100) ex_q false (cache_run id_fqdn [CPut (seconds 40) ex_q false ex_msg] (NewCache 2 10 120 60))
      None = (c', None, Some m')
    /\ exists t0 q0 m ttl, CPut t0 q0 false m ∈ [CPut (seconds 40) ex_q false ex_msg]
      /\ keyFor id_fqdn q0 false = keyFor id_fqdn ex_q false /\ 0 < ttl < 2 ^ 32 /\ seconds 100 < t0 + seconds ttl.
Proof.
  eexists. eexists. split; [vm_compute; reflexivity|].
  destruct (cache_hit_is_fresh id_fqdn 2 10 120 60 [CPut (seconds 40) ex_q false ex_msg] (seconds 100) ex_q false None
    (Get id_fqdn (seconds 100) ex_q false (cache_run id_fqdn [CPut (seconds 40) ex_q false ex_msg] (NewCache 2 10 120 60)) None).1.1 None
    (map_sections (norm_rr 60) ex_msg)) as (t0 & q0 & m & ttl & H1 & H2 & H3 & H4 & _).
  - lia.
  - constructor; [|constructor]. split; simpl; intros rr Hrr; [|by apply not_elem_of_nil in Hrr].
    apply list_elem_of_singleton in Hrr. subst. simpl. lia.
  - vm_compute. reflexivity.
  - exists t0, q0, m, ttl. split; [exact H1|]. split; [exact H2|]. split; [exact H3|exact H4].
Defined.

Lemma cache_consistent_and_bounded_witness :
  let c := cache_run id_fqdn [CPut 0 ex_q false ex_msg; CPut 0 ex_q true ex_msg] (NewCache 1 10 120 60) in
  Len c = 1 /\ Len c <= c_max c.
Proof.
  split; [vm_compute; reflexivity|].
  apply (cache_consistent_and_bounded id_fqdn 1 10 120 60 [CPut 0 ex_q false ex_msg; CPut 0 ex_q true ex_msg]). lia.
Defined.

(** storing a cacheable answer makes it the newest entry and evicts exactly
    the least recently used ones: afterwards the cache holds the new entry and,
    behind it, the previous entries for other keys, cut to the ceiling; so with
    room for one entry an immediate lookup hits. *)
Theorem put_evicts_least_recent Fqdn now q do m c :
  cache_ok c -> ttlFor c m <> 0 ->
  let e := mkEntry (keyFor Fqdn q do) (map_sections (norm_rr (ttlFor c m)) m) now (now + seconds (ttlFor c m)) (ttlFor c m) in
  (c_order (Put Fqdn now q do (Some m) c)).*2
    = take (Z.to_nat (c_max c)) (e :: (filter (fun x => e_key x.2 <> keyFor Fqdn q do) (c_order c)).*2)
  /\ (1 <= c_max c -> 0 < ttlFor c m ->
      is_Some (Get Fqdn now q do (Put Fqdn now q do (Some m) c) None).2).
Proof.
  intros (Hw & Hm & Hl) Hne e.
  destruct (Put_step Fqdn now q do m c Hw Hne) as (c1 & Hw1 & Hm1 & Ep & id & o & Eo & Ho).
  pose proof (evict_order (length (c_order c1)) c1 Hw1 ltac:(lia) ltac:(done)) as Hord.
  destruct (evict_spec (length (c_order c1)) c1) as (Hw2 & _ & _ & _); [done|lia|done|].
  rewrite Ep. fold e in Eo. rewrite Eo, Hm1 in Hord. split.
  - rewrite Eo, Hord, Ho. by rewrite fmap_take.
  - intros H1 H2. set (c2 := evict (length (c_order c1)) c1) in *.
    assert (Hin : (id, e) ∈ c_order c2).
    { unfold c2. rewrite Eo, Hord. destruct (Z.to_nat (c_max c)) eqn:En; [lia|]. simpl. by left. }
    unfold Get, lookup_. rewrite (proj2 (wf_agree c2 Hw2 (keyFor Fqdn q do) id)) by eauto.
    rewrite (proj2 (element_spec _ _ _ (wf_ids c2 Hw2)) Hin). simpl.
    rewrite (proj2 (Z.ltb_lt _ _)) by (unfold seconds, nanos_per_sec; lia). simpl. by eexists.
Qed.

Lemma put_evicts_least_recent_witness :
  let c := Put id_fqdn 0 ex_q true (Some ex_msg) (NewCache 1 10 120 60) in
  (k_do ∘ e_key <$> (c_order (Put id_fqdn 5 ex_q false (Some ex_msg) c)).*2) = [false]
  /\ is_Some (Get id_fqdn 5 ex_q false (Put id_fqdn 5 ex_q false (Some ex_msg) c) None).2.
Proof.
  cbv zeta. split; [vm_compute; reflexivity|].
  apply (put_evicts_least_recent id_fqdn 5 ex_q false ex_msg (Put id_fqdn 0 ex_q true (Some ex_msg) (NewCache 1 10 120 60)));
    [|vm_compute; discriminate|vm_compute; discriminate|vm_compute; reflexivity].
  apply (cache_step_ok id_fqdn (NewCache 1 10 120 60) (CPut 0 ex_q true ex_msg)).
  split; [|split; vm_compute; discriminate].
  constructor; simpl; [constructor|by intros ? ?%not_elem_of_nil|].
  intros k id. rewrite lookup_empty. split; [done|]. by intros (e & ?%not_elem_of_nil & _).
Defined.
