(* ===== verification/DnsArpa.v ===== *)
(** * Reverse names: [addrFromArpa] of [internal/dnsserver/auth.go]

    The parser of reverse names, which inverts [arpaName] of the zone package
    (the names that [Zone.Build] derives for addresses). *)
From S2P Require Import Prelude GoStr NetIP Zone.

(** [addrFromArpa] on the labels of an ip6.arpa name: most significant nibble
    last, a colon after every fourth. *)
Definition ip6_join (nib : list string) : string :=
  foldr (fun '(i, n) s => s +:+ n +:+ (if ((i mod 4 =? 0) && negb (i =? 0))%nat then ":" else ""))
    "" (zip (seq 0 (length nib)) nib).
Definition addrFromArpa (name : string) : option Addr :=
  let n := TrimSuffix (ToLower name) "." in
  if HasSuffix n ".in-addr.arpa" then
    let parts := Split (TrimSuffix n ".in-addr.arpa") "." in
    if negb (length parts =? 4)%nat then None else ParseAddr (Join (rev parts) ".")
  else if HasSuffix n ".ip6.arpa" then
    let nib := Split (TrimSuffix n ".ip6.arpa") "." in
    if negb (length nib =? 32)%nat then None else ParseAddr (ip6_join nib)
  else None.

(** ** Lemmas: a reverse name and its address *)
Lemma hex_char_plain n : 0 <= n < 16 ->
  hex_char n <> "."%char /\ hex_char n <> ":"%char /\ hex_char n <> "%"%char /\ lower_char (hex_char n) = hex_char n.
Proof.
  intros Hn. assert (forallb (fun n => bool_decide (hex_char n <> "."%char /\ hex_char n <> ":"%char
    /\ hex_char n <> "%"%char /\ lower_char (hex_char n) = hex_char n)) (seqZ 0 16) = true) as H by reflexivity.
  rewrite forallb_forall in H. specialize (H n). rewrite bool_decide_eq_true in H.
  apply H, list_elem_of_In, elem_of_seqZ. lia.
Qed.
Definition nib (n : Z) : Prop := 0 <= n < 16.

Lemma nibbles_nib u : Forall nib (nibbles u).
Proof.
  unfold nibbles. apply Forall_forall. intros x (i & -> & _)%list_elem_of_fmap.
  apply Z.mod_pos_bound. lia.
Qed.

Lemma nibbles_value u : 0 <= u < 2 ^ 128 -> foldl (fun acc n => acc * 16 + n) 0 (nibbles u) = u.
Proof.
  intros Hu. unfold nibbles.
  assert (H : forall k : nat, (k <= 32)%nat ->
    foldl (fun acc n => acc * 16 + n) 0 ((fun i => Z.shiftr u (4 * (31 - i)) mod 16) <$> seqZ 0 (Z.of_nat k))
    = Z.shiftr u (4 * (32 - Z.of_nat k))).
  { induction k as [|k IH]; intros Hk.
    - simpl. rewrite Z.shiftr_div_pow2 by lia. by rewrite Z.div_small.
    - rewrite seqZ_S, fmap_app, foldl_app, IH by lia. cbn [foldl fmap list_fmap].
      replace (4 * (32 - Z.of_nat k)) with (4 * (31 - Z.of_nat k) + 4) by lia.
      replace (4 * (32 - Z.of_nat (S k))) with (4 * (31 - Z.of_nat k)) by lia.
      rewrite <- Z.shiftr_shiftr by lia. replace (0 + Z.of_nat k) with (Z.of_nat k) by lia.
      generalize (Z.shiftr u (4 * (31 - Z.of_nat k))). intros x.
      rewrite Z.shiftr_div_pow2 by lia. change (2 ^ 4) with 16. pose proof (Z.div_mod x 16). lia. }
  specialize (H 32%nat ltac:(lia)). change (Z.of_nat 32) with 32 in H. rewrite H. apply Z.shiftr_0_r.
Qed.

Lemma hex_group a b c d rest :
  nib a -> nib b -> nib c -> nib d -> (rest = [] \/ exists r, rest = ":"%char :: r) ->
  hex_run 0 0 (hex_char a :: hex_char b :: hex_char c :: hex_char d :: rest)
  = Some (((a * 16 + b) * 16 + c) * 16 + d, 4%nat, rest).
Proof.
  unfold nib. intros Ha Hb Hc Hd Hrest. cbn [hex_run]. rewrite !hex_val_char by done. simpl.
  repeat match goal with |- context [65535 <? ?x] => replace (65535 <? x) with false by (symmetry; apply Z.ltb_ge; lia) end.
  rewrite Z.add_0_l. destruct Hrest as [->|[r ->]]; [done|]. by cbn.
Qed.

Lemma v6_group n gs a b c d x rest :
  nib a -> nib b -> nib c -> nib d -> x <> ":"%char ->
  v6_loop (S n) gs None (hex_char a :: hex_char b :: hex_char c :: hex_char d :: ":"%char :: x :: rest)
  = v6_loop n (gs ++ [((a * 16 + b) * 16 + c) * 16 + d]) None (x :: rest).
Proof.
  intros Ha Hb Hc Hd Hx. cbn [v6_loop]. rewrite hex_group by eauto. simpl.
  destruct x as [[][][][][][][][]]; try done.
Qed.
Lemma v6_group_last n gs a b c d :
  nib a -> nib b -> nib c -> nib d ->
  v6_loop (S n) gs None [hex_char a; hex_char b; hex_char c; hex_char d]
  = Some (gs ++ [((a * 16 + b) * 16 + c) * 16 + d], None, []).
Proof. intros Ha Hb Hc Hd. cbn [v6_loop]. by rewrite hex_group by eauto. Qed.

Definition label_of (n : Z) : string := str [hex_char n].
Lemma nibble_labels l : l <> [] -> str (l ≫= nibble_chars) = Join (label_of <$> l) "." +:+ ".".
Proof.
  intros Hl. apply (inj bytes). rewrite bytes_str, bytes_app. induction l as [|n l IH]; [done|].
  destruct l as [|n2 l]; [done|]. specialize (IH ltac:(done)).
  change ((n :: n2 :: l) ≫= nibble_chars) with (hex_char n :: "."%char :: ((n2 :: l) ≫= nibble_chars)).
  rewrite IH. change (Join (label_of <$> n :: n2 :: l) ".") with
    (label_of n +:+ ("." +:+ Join (label_of <$> n2 :: l) ".")).
  rewrite !bytes_app. done.
Qed.

Lemma list_32 {A} (l : list A) : length l = 32%nat ->
  exists a0 a1 a2 a3 a4 a5 a6 a7 a8 a9 a10 a11 a12 a13 a14 a15 a16 a17 a18 a19 a20 a21 a22 a23 a24 a25 a26 a27 a28 a29 a30 a31,
  l = [a0; a1; a2; a3; a4; a5; a6; a7; a8; a9; a10; a11; a12; a13; a14; a15; a16; a17; a18; a19; a20; a21; a22; a23; a24; a25; a26; a27; a28; a29; a30; a31].
Proof.
  intros H. do 32 (destruct l as [|? l]; [done|]). destruct l; [|done]. repeat eexists.
Qed.


Lemma parse_v6_plain c l : c <> ":"%char -> cut_byte "%" (c :: l) = None ->
  parse_v6 (c :: l) = (u ← v6_loop 8 [] None (c :: l) ≫= v6_finish; Some (Addr6 u "")).
Proof.
  intros Hc Hz. unfold parse_v6. rewrite Hz. destruct c as [[][][][][][][][]]; try reflexivity. done.
Qed.

Lemma parse_nibbles l :
  length l = 32%nat -> Forall nib l ->
  ParseAddr (ip6_join (label_of <$> rev l)) = Some (Addr6 (foldl (fun acc n => acc * 16 + n) 0 l) "").
Proof.
  intros Hlen Hl. apply list_32 in Hlen.
  destruct Hlen as (a0&a1&a2&a3&a4&a5&a6&a7&a8&a9&a10&a11&a12&a13&a14&a15&a16&a17&a18&a19&a20&a21&a22&a23&a24&a25&a26&a27&a28&a29&a30&a31&->).
  repeat (apply Forall_cons in Hl as [? Hl]). clear Hl.
  unfold ParseAddr.
  match goal with |- context [bytes (ip6_join ?x)] =>
    let y := eval cbv -[hex_char] in (bytes (ip6_join x)) in
    assert (bytes (ip6_join x) = y) as -> by reflexivity end.
  assert (Hfam : forall a l, nib a -> addr_family (hex_char a :: l) = addr_family l).
  { intros a l Ha. destruct (hex_char_plain a Ha) as (Hd1 & Hd2 & Hd3 & _). cbn [addr_family].
    by rewrite !bool_decide_eq_false_2 by done. }
  rewrite !Hfam by done. cbn [addr_family]. rewrite bool_decide_eq_false_2, bool_decide_eq_true_2 by done.
  rewrite parse_v6_plain; [|by apply hex_char_plain|].
  2:{ apply cut_byte_none. repeat rewrite not_elem_of_cons.
    repeat split; try done; try (intros E; eapply hex_char_plain; [|symmetry; exact E]; done).
    by apply not_elem_of_nil. }
  match goal with |- context [v6_loop 8 [] None ?x] => assert (v6_loop 8 [] None x ≫= v6_finish =
     Some (foldl (fun acc n => acc * 16 + n) 0
      [a0; a1; a2; a3; a4; a5; a6; a7; a8; a9; a10; a11; a12; a13; a14; a15; a16; a17; a18; a19; a20; a21; a22; a23; a24; a25; a26; a27; a28; a29; a30; a31])) as E end.
  { rewrite !v6_group by (try done; by apply hex_char_plain). rewrite v6_group_last by done.
    simpl. f_equal. unfold groups_value. cbn [foldl app]. lia. }
  by rewrite E.
Qed.

Lemma ToLower_bytes_id s : Forall (fun c => lower_char c = c) (bytes s) -> ToLower s = s.
Proof.
  intros H. apply (inj bytes). rewrite bytes_ToLower. apply fmap_id_ext. by apply Forall_forall.
Qed.
Lemma digit_lower c : is_digit c = true -> lower_char c = c.
Proof. by destruct c as [[][][][][][][][]]. Qed.
Lemma HasSuffix_last_ne s x c d : c <> d -> HasSuffix (s +:+ str [c]) (x +:+ str [d]) = false.
Proof.
  intros Hn. unfold HasSuffix. rewrite !bytes_app, !bytes_str, !rev_app_distr. simpl.
  by rewrite bool_decide_eq_false_2.
Qed.

Lemma bytes_Join_Forall (P : ascii -> Prop) l sep :
  Forall P (bytes sep) -> (forall s, s ∈ l -> Forall P (bytes s)) -> Forall P (bytes (Join l sep)).
Proof.
  intros Hsep. induction l as [|s l IH]; intros Hl; [by constructor|].
  destruct l as [|s2 l]; [apply Hl; by left|].
  change (Join (s :: s2 :: l) sep) with (s +:+ (sep +:+ Join (s2 :: l) sep)).
  rewrite !bytes_app. repeat (apply Forall_app; split); [apply Hl; by left|done|].
  apply IH. intros x Hx. apply Hl. by right.
Qed.

Lemma octets_range u n : 0 <= u < 2 ^ 32 -> n ∈ octets u -> 0 <= n < 256.
Proof.
  intros Hu Hn. destruct (octets_value u Hu) as (x & b & c & d & Ho & ? & ? & ? & ? & _). rewrite Ho in Hn.
  set_solver.
Qed.
Lemma in_rev_iff {A} (x : A) l : x ∈ rev l <-> x ∈ l.
Proof. by rewrite !list_elem_of_In, <- in_rev. Qed.
Lemma nibbles_rev_nib u n : n ∈ rev (nibbles u) -> nib n.
Proof.
  intros Hn%in_rev_iff. pose proof (nibbles_nib u) as Hall. rewrite Forall_forall in Hall. by apply Hall.
Qed.

Lemma arpa4_lower u : 0 <= u < 2 ^ 32 ->
  ToLower (Join (itoa <$> rev (octets u)) "." +:+ ".in-addr.arpa.") = Join (itoa <$> rev (octets u)) "." +:+ ".in-addr.arpa.".
Proof.
  intros Hu. apply ToLower_bytes_id. rewrite bytes_app. apply Forall_app. split; [|by repeat constructor].
  apply bytes_Join_Forall; [by repeat constructor|].
  intros s (n & -> & Hn%in_rev_iff)%list_elem_of_fmap.
  apply Forall_forall. intros c Hc. apply digit_lower. eapply bytes_itoa_digit; [|exact Hc].
  by eapply octets_range.
Qed.
Lemma arpa6_lower u :
  ToLower (str (rev (nibbles u) ≫= nibble_chars) +:+ "ip6.arpa.") = str (rev (nibbles u) ≫= nibble_chars) +:+ "ip6.arpa.".
Proof.
  apply ToLower_bytes_id. rewrite bytes_app, bytes_str. apply Forall_app. split; [|by repeat constructor].
  apply Forall_forall. intros c (n & Hc & Hnn)%list_elem_of_bind. unfold nibble_chars in Hc.
  apply elem_of_cons in Hc as [->|Hc]; [|by apply list_elem_of_singleton in Hc as ->].
  apply hex_char_plain. by apply (nibbles_rev_nib u).
Qed.

Lemma addrFromArpa_v4 u : 0 <= u < 2 ^ 32 ->
  addrFromArpa (Join (itoa <$> rev (octets u)) "." +:+ ".in-addr.arpa.") = Some (Addr4 u).
Proof.
  intros Hu. unfold addrFromArpa. rewrite arpa4_lower by done.
  change ".in-addr.arpa." with (".in-addr.arpa" +:+ "."). rewrite <- app_assoc_str, TrimSuffix_app.
  rewrite HasSuffix_app, TrimSuffix_app.
  rewrite (Split_Join _ "."%char).
  - rewrite !length_fmap, length_rev. simpl negb. cbn iota.
    rewrite <- map_rev, rev_involutive. by apply ParseAddr_string4.
  - done.
  - intros s (n & -> & Hn%in_rev_iff)%list_elem_of_fmap Hdot.
    assert (is_digit "." = true) as Hx; [|done].
    eapply bytes_itoa_digit; [|exact Hdot]. by eapply octets_range.
Qed.

Lemma addrFromArpa_v6 u : 0 <= u < 2 ^ 128 ->
  addrFromArpa (str (rev (nibbles u) ≫= nibble_chars) +:+ "ip6.arpa.") = Some (Addr6 u "").
Proof.
  intros Hu. assert (Hlen : length (nibbles u) = 32%nat) by done.
  unfold addrFromArpa. rewrite arpa6_lower.
  rewrite nibble_labels by (intros E; apply (f_equal length) in E; by rewrite length_rev, Hlen in E).
  rewrite app_assoc_str. change ("." +:+ "ip6.arpa.") with (".ip6.arpa" +:+ ".").
  rewrite <- app_assoc_str, TrimSuffix_app.
  replace (HasSuffix _ ".in-addr.arpa") with false.
  2:{ symmetry. unfold HasSuffix. rewrite bytes_app, rev_app_distr. reflexivity. }
  rewrite HasSuffix_app, TrimSuffix_app, (Split_Join _ "."%char).
  - rewrite length_fmap, length_rev, Hlen. simpl negb. cbn iota.
    rewrite parse_nibbles by (done || apply nibbles_nib). by rewrite nibbles_value.
  - intros E. apply (f_equal length) in E. by rewrite length_fmap, length_rev, Hlen in E.
  - intros s (n & -> & Hnn)%list_elem_of_fmap Hdot. unfold label_of in Hdot. rewrite bytes_str in Hdot.
    apply list_elem_of_singleton in Hdot.
    destruct (hex_char_plain n (nibbles_rev_nib u n Hnn)) as [Hd _]. by rewrite <- Hdot in Hd.
Qed.

(** [addrFromArpa] inverts [arpaName], up to the unmapping that [arpaName] does. *)
Lemma addrFromArpa_arpaName a :
  addr_wf a -> Addr.IsValid a = true -> Addr.has_zone a = false ->
  addrFromArpa (arpaName a) = Some (Addr.Unmap a).
Proof.
  destruct a as [|u|u z]; intros Hwf Hv Hz; [done| by apply addrFromArpa_v4 |].
  assert (z = "") as -> by (unfold Addr.has_zone in Hz; by bool_to_prop).
  unfold arpaName, Addr.Unmap. destruct (Z.shiftr u 32 =? 65535); [|by apply addrFromArpa_v6].
  apply addrFromArpa_v4. apply Z.mod_pos_bound. lia.
Qed.

(** A reverse name is in lower case and under one of the two reverse trees. *)
Lemma arpaName_shape a :
  addr_wf a ->
  ToLower (arpaName a) = arpaName a
  /\ HasSuffix (arpaName a) ".in-addr.arpa." || HasSuffix (arpaName a) ".ip6.arpa." = true
  /\ exists s, arpaName a = s +:+ ".".
Proof.
  intros Hwf.
  assert (H6 : forall u, let n := str (rev (nibbles u) ≫= nibble_chars) +:+ "ip6.arpa." in
    HasSuffix n ".in-addr.arpa." || HasSuffix n ".ip6.arpa." = true /\ exists s, n = s +:+ ".").
  { intros u n. unfold n. split.
    - apply orb_true_iff. right.
      rewrite nibble_labels by done. rewrite app_assoc_str. apply HasSuffix_app.
    - change "ip6.arpa." with ("ip6.arpa" +:+ "."). rewrite <- app_assoc_str. by eexists. }
  assert (H4 : forall u, let n := Join (itoa <$> rev (octets u)) "." +:+ ".in-addr.arpa." in
    HasSuffix n ".in-addr.arpa." || HasSuffix n ".ip6.arpa." = true /\ exists s, n = s +:+ ".").
  { intros u n. unfold n. split; [by rewrite HasSuffix_app|].
    change ".in-addr.arpa." with (".in-addr.arpa" +:+ "."). rewrite <- app_assoc_str. by eexists. }
  unfold arpaName. destruct a as [|u|u z]; cbn [Addr.Unmap].
  - split; [apply arpa6_lower|apply H6].
  - split; [by apply arpa4_lower|apply H4].
  - destruct (_ =? 65535); cbn iota.
    + split; [apply arpa4_lower, Z.mod_pos_bound; lia|apply H4].
    + split; [apply arpa6_lower|apply H6].
Qed.

(** [addrFromArpa] reads back what [arpaName] writes, in both families, up
    to the unmapping of IPv4-mapped addresses; so two addresses have the same
    reverse name only when they are the same address. *)
Theorem arpa_roundtrip a b :
  addr_wf a -> Addr.IsValid a = true -> Addr.has_zone a = false ->
  addr_wf b -> Addr.IsValid b = true -> Addr.has_zone b = false ->
  addrFromArpa (arpaName a) = Some (Addr.Unmap a)
  /\ (arpaName a = arpaName b <-> Addr.Unmap a = Addr.Unmap b).
Proof.
  intros. split; [by apply addrFromArpa_arpaName|]. split.
  - intros E. apply (f_equal addrFromArpa) in E. rewrite !addrFromArpa_arpaName in E by done. congruence.
  - intros E. unfold arpaName. by rewrite E.
Qed.
Lemma arpa_roundtrip_witness :
  addrFromArpa "4.3.2.1.in-addr.arpa." = Some (Addr4 16909060)
  /\ addrFromArpa "1.0.0.0.0.0.0.0.0.0.0.0.0.0.0.0.0.0.0.0.0.0.0.0.8.b.d.0.1.0.0.2.ip6.arpa." = ParseAddr "2001:db8::1".
Proof.
  split.
  - apply (arpa_roundtrip (Addr4 16909060) (Addr4 1)); (done || (split; lia)).
  - pose proof (arpa_roundtrip (Addr6 42540766411282592856903984951653826561 "") (Addr4 1)) as H.
    destruct H as [H _]; [split; lia|done|done|split; lia|done|done|]. exact H.
Defined.
