(* ===== verification/DnsAuth.v ===== *)
(** * Authoritative answers: [internal/dnsserver/auth.go]

    [dns.Fqdn] of the message library is the parameter [Fqdn].  The three
    settings are atomics that each call reads once. *)
From S2P Require Import Prelude GoStr NetIP Model Zone DnsMsg DnsArpa.

Definition cnameChaseDepth : nat := 8.
Record Authoritative := mkAuth { a_zone : string; a_ttl : Z; a_reverse : list Prefix }.

Section Fqdn.
Context (Fqdn : string -> string).

Definition SetZone (z : string) (a : Authoritative) : Authoritative :=
  mkAuth (ToLower (Fqdn z)) (a_ttl a) (a_reverse a).
Definition SetTTL (t : Z) (a : Authoritative) : Authoritative := mkAuth (a_zone a) t (a_reverse a).
Definition SetReverseZones (zs : list Prefix) (a : Authoritative) : Authoritative :=
  mkAuth (a_zone a) (a_ttl a) (Pfx.Masked <$> zs).
Definition NewAuthoritative (z : string) (t : Z) (zs : list Prefix) : Authoritative :=
  SetReverseZones zs (SetTTL t (SetZone z (mkAuth "" 0 []))).

Definition owns (a : Authoritative) (zone qname : string) : bool :=
  let n := ToLower (Fqdn qname) in
  if negb (bool_decide (zone = "")) && (bool_decide (n = zone) || HasSuffix n ("." +:+ zone)) then true
  else if HasSuffix n ".in-addr.arpa." || HasSuffix n ".ip6.arpa." then
    match addrFromArpa n with
    | None => false
    | Some addr => existsb (fun p => Pfx.Contains p addr) (a_reverse a)
    end
  else false.
Definition Owns (a : Authoritative) (qname : string) : bool := owns a (a_zone a) qname.

Definition soa (zone : string) (serial ttl : Z) : DRR :=
  mkDRR (mkHdr zone TypeSOA ClassINET ttl)
    (SOAData ("ns." +:+ zone) ("hostmaster." +:+ zone) serial 3600 600 604800 ttl).
Definition SOA (a : Authoritative) (serial : Z) : DRR := soa (a_zone a) serial (a_ttl a).

Definition toRR (rr : RR) (qtype ttl : Z) : option DRR :=
  let hdr t := mkHdr (rr_Name rr) t ClassINET ttl in
  if bool_decide (rr_Type rr = "A") then
    if negb (qtype =? TypeA) && negb (qtype =? TypeANY) then None
    else Some (mkDRR (hdr TypeA) (AData (ParseIP (rr_Value rr))))
  else if bool_decide (rr_Type rr = "AAAA") then
    if negb (qtype =? TypeAAAA) && negb (qtype =? TypeANY) then None
    else Some (mkDRR (hdr TypeAAAA) (AAAAData (ParseIP (rr_Value rr))))
  else None.

Definition cname_rr (name target : string) (ttl : Z) : DRR :=
  mkDRR (mkHdr name TypeCNAME ClassINET ttl) (CNAMEData (Fqdn target)).

(** The records of the target: addresses up to the first CNAME, which is then
    followed. *)
Fixpoint target_rrs (follow : RR -> list DRR) (qtype ttl : Z) (rrs : list RR) : list DRR :=
  match rrs with
  | [] => []
  | rr :: rrs' =>
      if bool_decide (rr_Type rr = "CNAME") then follow rr
      else match toRR rr qtype ttl with
           | Some d => d :: target_rrs follow qtype ttl rrs'
           | None => target_rrs follow qtype ttl rrs'
           end
  end.
(** [left] is how many more CNAMEs may be followed: [cnameChaseDepth - depth]. *)
Fixpoint chase (a : Authoritative) (zn : string) (snap : Snapshot) (view : string) (qtype ttl : Z)
    (left : nat) (name target : string) : list DRR :=
  let cname := cname_rr name target ttl in
  match left with
  | O => [cname]
  | S left' =>
      if (qtype =? TypeCNAME) || negb (owns a zn target) then [cname]
      else cname :: target_rrs
             (fun rr => chase a zn snap view qtype ttl left' (Fqdn target) (rr_Value rr))
             qtype ttl (Lookup snap view (Fqdn target))
  end.

Definition auth_msg (q : Question) : Msg := mkMsg 0 0 true false false [q] [] [] [].
Definition with_answer (m : Msg) (rrs : list DRR) : Msg :=
  mkMsg (m_Opcode m) (m_Rcode m) (m_Authoritative m) (m_RecursionAvailable m) (m_AuthenticatedData m)
    (m_Question m) rrs (m_Ns m) (m_Extra m).
Definition with_ns (m : Msg) (rrs : list DRR) : Msg :=
  mkMsg (m_Opcode m) (m_Rcode m) (m_Authoritative m) (m_RecursionAvailable m) (m_AuthenticatedData m)
    (m_Question m) (m_Answer m) rrs (m_Extra m).
Definition with_rcode (m : Msg) (r : Z) : Msg :=
  mkMsg (m_Opcode m) r (m_Authoritative m) (m_RecursionAvailable m) (m_AuthenticatedData m)
    (m_Question m) (m_Answer m) (m_Ns m) (m_Extra m).

(** [None] is the nil reply: the name is not ours and is forwarded. *)
Definition Answer (a : Authoritative) (snap : option Snapshot) (view : string) (q : Question) : option Msg :=
  match snap with
  | None => None
  | Some snap =>
      let zone := a_zone a in
      if negb (owns a zone (q_Name q)) then None
      else
        let ttl := a_ttl a in
        let m := auth_msg q in
        let name := ToLower (Fqdn (q_Name q)) in
        let nx := with_ns (with_rcode m RcodeNameError) [soa zone (Generation snap) ttl] in
        Some (
          if bool_decide (name = zone) then
            if q_Qtype q =? TypeSOA then with_answer m [soa zone (Generation snap) ttl]
            else if q_Qtype q =? TypeNS then
              with_answer m [mkDRR (mkHdr zone TypeNS ClassINET ttl) (NSData ("ns." +:+ zone))]
            else with_ns m [soa zone (Generation snap) ttl]
          else if q_Qtype q =? TypePTR then
            let target := LookupPTR snap view name in
            if negb (bool_decide (target = "")) then
              with_answer m [mkDRR (mkHdr name TypePTR ClassINET ttl) (PTRData (Fqdn target))]
            else nx
          else
            match Lookup snap view name with
            | [] => nx
            | (rr :: _) as rrs =>
                if bool_decide (rr_Type rr = "CNAME") then
                  with_answer m (chase a zone snap view (q_Qtype q) ttl cnameChaseDepth name (rr_Value rr))
                else
                  let ans := omap (fun rr => toRR rr (q_Qtype q) ttl) rrs in
                  let m := with_answer m ans in
                  if bool_decide (ans = []) then with_ns m [soa zone (Generation snap) ttl] else m
            end)
  end.
End Fqdn.

(** ** Lemmas *)
Lemma Build_unambiguous in_ s view n : Build in_ = Ok s -> cname_conflict (Lookup s view n) = false.
Proof.
  intros HB. rewrite (Build_Lookup _ _ _ _ HB). apply Build_ok in HB as (m & Hm & _ & Hc).
  apply Hc. unfold served_view. case_bool_decide; [|by left]. right. by apply (NewMatcher_names _ _ _ Hm).
Qed.

(** The addresses among [rrs] of the type asked for. *)
Definition addresses (qtype ttl : Z) (rrs : list RR) : list DRR := omap (fun rr => toRR rr qtype ttl) rrs.

(** [cs] is a chain of CNAME records that leads from [name] to [last]. *)
Fixpoint linked (Fqdn : string -> string) (ttl : Z) (name : string) (cs : list DRR) (last : string) : Prop :=
  match cs with
  | [] => name = last
  | c :: cs' => exists target, c = cname_rr Fqdn name target ttl /\ linked Fqdn ttl (Fqdn target) cs' last
  end.

Section Lemmas.
Context (Fqdn : string -> string).

Lemma toRR_ttl rr qtype ttl d : toRR rr qtype ttl = Some d -> h_Ttl (rr_hdr d) = ttl.
Proof. unfold toRR. repeat case_if; intros [= <-]; done. Qed.
Lemma addresses_ttl qtype ttl rrs : Forall (fun d => h_Ttl (rr_hdr d) = ttl) (addresses qtype ttl rrs).
Proof.
  apply Forall_forall. intros d (rr & _ & H)%list_elem_of_omap. by eapply toRR_ttl.
Qed.
Lemma target_rrs_plain follow qtype ttl rrs :
  existsb is_cname rrs = false -> target_rrs follow qtype ttl rrs = addresses qtype ttl rrs.
Proof.
  unfold addresses. induction rrs as [|rr rrs IH]; simpl; [done|]. intros [H1 H2]%orb_false_iff.
  unfold is_cname in H1. bool_to_prop. rewrite bool_decide_eq_false_2 by done. rewrite IH by done. done.
Qed.
Lemma chase_nonempty a zn snap view qtype ttl left name target :
  chase Fqdn a zn snap view qtype ttl left name target <> [].
Proof. destruct left; simpl; [done|]. by case_if. Qed.
Lemma target_rrs_ttl follow qtype ttl rrs :
  (forall rr, Forall (fun d => h_Ttl (rr_hdr d) = ttl) (follow rr)) ->
  Forall (fun d => h_Ttl (rr_hdr d) = ttl) (target_rrs follow qtype ttl rrs).
Proof.
  intros Hf. induction rrs as [|rr rrs IH]; simpl; [constructor|].
  case_bool_decide; [done|]. destruct (toRR rr qtype ttl) eqn:E; [|done].
  constructor; [by eapply toRR_ttl|done].
Qed.
Lemma chase_ttl a zn snap view qtype ttl left : forall name target,
  Forall (fun d => h_Ttl (rr_hdr d) = ttl) (chase Fqdn a zn snap view qtype ttl left name target).
Proof.
  induction left as [|left IH]; intros name target; cbn [chase]; [by repeat constructor|].
  case_if; [by repeat constructor|]. constructor; [done|]. by apply target_rrs_ttl.
Qed.

(** The shape of a followed chain, [left] CNAMEs away from the limit. *)
Definition chain_end (a : Authoritative) (zn : string) (snap : Snapshot) (view : string) (qtype ttl : Z)
    (left : nat) (cs : list DRR) (last : string) (addrs : list DRR) : Prop :=
  (addrs = [] /\ (length cs = S left \/ qtype = TypeCNAME \/ exists t, last = Fqdn t /\ owns Fqdn a zn t = false))
  \/ (existsb is_cname (Lookup snap view last) = false /\ addrs = addresses qtype ttl (Lookup snap view last)).

Lemma chase_chain a zn snap view qtype ttl :
  (forall n, cname_conflict (Lookup snap view n) = false) ->
  forall left name target, exists cs last addrs,
    chase Fqdn a zn snap view qtype ttl left name target = cs ++ addrs
    /\ linked Fqdn ttl name cs last /\ (1 <= length cs <= S left)%nat
    /\ chain_end a zn snap view qtype ttl left cs last addrs.
Proof.
  intros Hc. unfold chain_end. induction left as [|left IH]; intros name target; cbn [chase].
  - exists [cname_rr Fqdn name target ttl], (Fqdn target), []. split; [done|]. split; [by eexists|].
    split; [simpl; lia|]. left. split; [done|]. by left.
  - destruct (_ || _) eqn:E.
    + exists [cname_rr Fqdn name target ttl], (Fqdn target), []. split; [done|]. split; [by eexists|].
      split; [simpl; lia|]. left. split; [done|]. right.
      apply orb_true_iff in E as [E|E]; bool_to_prop; [by left | right; by eexists].
    + destruct (existsb is_cname (Lookup snap view (Fqdn target))) eqn:Hex.
      * apply existsb_true_exists in Hex as (rr & Hin & Ht). unfold is_cname in Ht. bool_to_prop.
        rewrite (proj1 (cname_conflict_spec _) (Hc _) rr Hin Ht). cbn [target_rrs].
        rewrite bool_decide_eq_true_2 by done.
        destruct (IH (Fqdn target) (rr_Value rr)) as (cs & last & addrs & -> & Hl & Hlen & Hend).
        exists (cname_rr Fqdn name target ttl :: cs), last, addrs.
        split; [done|]. split; [by eexists|]. split; [simpl; lia|].
        destruct Hend as [[-> [He|He]]|He]; [left; split; [done|]; left; simpl; lia | left; split; [done|]; by right | by right].
      * exists [cname_rr Fqdn name target ttl], (Fqdn target), (addresses qtype ttl (Lookup snap view (Fqdn target))).
        rewrite target_rrs_plain by done. split; [done|]. split; [by eexists|]. split; [simpl; lia|]. by right.
Qed.
End Lemmas.

(** ** Properties *)
Section Props.
Context (Fqdn : string -> string).

(** A negative reply carries the zone's SOA, whose serial is the snapshot's. *)
Definition negative (a : Authoritative) (snap : Snapshot) (m : Msg) : Prop :=
  m_Answer m = [] /\ m_Ns m = [soa (a_zone a) (Generation snap) (a_ttl a)].
(** What the index the question looks at says. *)
Definition nothing_found (a : Authoritative) (snap : Snapshot) (view : string) (q : Question) : Prop :=
  let n := ToLower (Fqdn (q_Name q)) in
  n <> a_zone a /\ (if q_Qtype q =? TypePTR then LookupPTR snap view n = "" else Lookup snap view n = []).
Lemma answer_shape a snap view q :
  match Answer Fqdn a (Some snap) view q with
  | None => Owns Fqdn a (q_Name q) = false
  | Some m =>
      Owns Fqdn a (q_Name q) = true
      /\ m_Authoritative m = true /\ m_Question m = [q] /\ m_Extra m = []
      /\ Forall (fun rr => h_Ttl (rr_hdr rr) = a_ttl a) (m_Answer m ++ m_Ns m)
      /\ ((m_Rcode m = RcodeSuccess /\ m_Answer m <> [] /\ m_Ns m = [] /\ ~ nothing_found a snap view q)
          \/ (m_Rcode m = RcodeNameError /\ negative a snap m /\ nothing_found a snap view q)
          \/ (m_Rcode m = RcodeSuccess /\ negative a snap m /\ ~ nothing_found a snap view q))
  end.
Proof.
  unfold Answer, Owns, nothing_found, negative. destruct (owns _ _ _ _) eqn:Ho; cbn [negb]; [|done].
  split; [done|]. case_bool_decide as Hz.
  { case_if; [|case_if]; simpl; repeat (split; [by repeat constructor|]); [left|left|right; right];
      repeat (split; [done|]); tauto. }
  destruct (q_Qtype q =? TypePTR) eqn:Hp.
  { case_bool_decide as Ht; simpl; repeat (split; [by repeat constructor|]); [right; left|left]; tauto || naive_solver. }
  destruct (Lookup snap view _) as [|rr rrs] eqn:Hl.
  { simpl. repeat (split; [by repeat constructor|]). right. left. done. }
  assert (Hneg : ~ (ToLower (Fqdn (q_Name q)) <> a_zone a /\ rr :: rrs = [])) by naive_solver.
  case_bool_decide as Hc.
  - pose proof (chase_ttl Fqdn a (a_zone a) snap view (q_Qtype q) (a_ttl a) cnameChaseDepth
      (ToLower (Fqdn (q_Name q))) (rr_Value rr)) as Hct.
    pose proof (chase_nonempty Fqdn a (a_zone a) snap view (q_Qtype q) (a_ttl a) cnameChaseDepth
      (ToLower (Fqdn (q_Name q))) (rr_Value rr)) as Hcn.
    revert Hct Hcn. generalize (chase Fqdn a (a_zone a) snap view (q_Qtype q) (a_ttl a) cnameChaseDepth
      (ToLower (Fqdn (q_Name q))) (rr_Value rr)). intros ch Hct Hcn.
    simpl. rewrite app_nil_r. do 4 (split; [done|]). left. by split_and!.
  - change (omap _ (rr :: rrs)) with (addresses (q_Qtype q) (a_ttl a) (rr :: rrs)).
    pose proof (addresses_ttl (q_Qtype q) (a_ttl a) (rr :: rrs)) as Htt.
    revert Htt. generalize (addresses (q_Qtype q) (a_ttl a) (rr :: rrs)). intros ads Htt.
    case_bool_decide as Ha; simpl; (do 3 (split; [done|])).
    + rewrite Ha. split; [by repeat constructor|]. right. right. by split_and!.
    + rewrite app_nil_r. split; [done|]. left. by split_and!.
Qed.

(** What the server knows about a name, whatever type is asked for. *)
Definition name_exists (a : Authoritative) (snap : Snapshot) (view n : string) : Prop :=
  n = a_zone a \/ HasName snap view n = true \/ LookupPTR snap view n <> "".
(** The defect: a name below the apex that has data only in the index the type of the
    question does not look at. *)
Definition wrong_index (a : Authoritative) (snap : Snapshot) (view : string) (q : Question) (n : string) : Prop :=
  n <> a_zone a /\
  if q_Qtype q =? TypePTR then HasName snap view n = true /\ LookupPTR snap view n = ""
  else HasName snap view n = false /\ LookupPTR snap view n <> "".

Lemma found_or_not a snap view q : let n := ToLower (Fqdn (q_Name q)) in
  (nothing_found a snap view q -> ~ name_exists a snap view n \/ wrong_index a snap view q n) /\
  (~ nothing_found a snap view q -> name_exists a snap view n /\ ~ wrong_index a snap view q n).
Proof.
  intros n. unfold nothing_found, name_exists, wrong_index, HasName. fold n. destruct (decide (n = a_zone a)) as [E|E]; [tauto|].
  destruct (decide (LookupPTR snap view n = "")) as [P|P], (Lookup snap view n) as [|rr rrs], (q_Qtype q =? TypePTR); cbn; naive_solver.
Qed.

(** C17: [Answer] declines exactly the names outside the zone and the reverse
    zones; every other question gets an authoritative reply with the question
    echoed, all records under the one TTL read at the start, and one of three
    shapes: records in the answer section and none in authority, or NODATA with the
    SOA, both only for a name that exists; or NXDOMAIN with the SOA, for a name that
    does not exist - and, against the rule that a denial is about the name and not the
    type, also for one that has data only under the index the question does not look
    at (PTR against every other type), which is the defect [existing_name_nxdomain]
    shows.  A name without any data is always NXDOMAIN, and such a misplaced question
    never gets anything else. *)
Theorem answer_trichotomy a snap view q :
  let n := ToLower (Fqdn (q_Name q)) in
  match Answer Fqdn a (Some snap) view q with
  | None => Owns Fqdn a (q_Name q) = false
  | Some m =>
      Owns Fqdn a (q_Name q) = true
      /\ m_Authoritative m = true /\ m_Question m = [q] /\ m_Extra m = []
      /\ Forall (fun rr => h_Ttl (rr_hdr rr) = a_ttl a) (m_Answer m ++ m_Ns m)
      /\ ((m_Rcode m = RcodeSuccess /\ m_Answer m <> [] /\ m_Ns m = [] /\ name_exists a snap view n /\ ~ wrong_index a snap view q n)
          \/ (m_Rcode m = RcodeSuccess /\ negative a snap m /\ name_exists a snap view n /\ ~ wrong_index a snap view q n)
          \/ (m_Rcode m = RcodeNameError /\ negative a snap m /\ (~ name_exists a snap view n \/ wrong_index a snap view q n)))
  end.
Proof.
  intros n. pose proof (answer_shape a snap view q) as H. destruct (Answer Fqdn a (Some snap) view q) as [m|]; [|done].
  destruct (found_or_not a snap view q) as [Hn Hf]. fold n in Hn, Hf. destruct H as (H1 & H2 & H3 & H4 & H5 & H). do 5 (split; [done|]).
  destruct H as [(H6 & H7 & H8 & H9)|[(H6 & H7 & H8)|(H6 & H7 & H8)]]; [left|right; right|right; left]; repeat (split; [done|]); auto.
Qed.

(** an address query for a name below the apex is answered from the
    configuration: the answer section lists the addresses of the requested type
    that the precedence specification gives for the name in the client's view,
    and a name with no data at all is NXDOMAIN. *)
Theorem answer_follows_configuration a in_ snap view q :
  Build in_ = Ok snap -> Owns Fqdn a (q_Name q) = true ->
  q_Qtype q <> TypePTR -> ToLower (Fqdn (q_Name q)) <> a_zone a ->
  let spec := forward_spec in_ (served_view in_ view) (ToLower (in_Zone in_)) (ToLower (Fqdn (q_Name q))) in
  existsb is_cname spec = false ->
  exists m, Answer Fqdn a (Some snap) view q = Some m
    /\ m_Answer m = addresses (q_Qtype q) (a_ttl a) spec
    /\ (m_Rcode m = RcodeNameError <-> spec = []).
Proof.
  intros HB Ho Hp%Z.eqb_neq Hz spec Hs. unfold Answer, Owns in *. rewrite Ho. cbn [negb].
  rewrite bool_decide_eq_false_2, Hp by done.
  rewrite (Build_Lookup _ _ _ _ HB), ToLower_idemp. fold spec. eexists. split; [reflexivity|].
  destruct spec as [|rr rrs]; [by split; [|split]|]. simpl in Hs. apply orb_false_iff in Hs as [Hc _].
  unfold is_cname in Hc. rewrite Hc. clear Hc.
  change (omap _ (rr :: rrs)) with (addresses (q_Qtype q) (a_ttl a) (rr :: rrs)).
  generalize (addresses (q_Qtype q) (a_ttl a) (rr :: rrs)). intros ads. 
  case_bool_decide as E; [subst ads|]; simpl; (split; [done|]); by split.
Qed.

(** when the name is an alias, the reply is a chain of at most nine CNAME
    records, each owned by the previous one's target, ending in the addresses of
    the last target; the chain stops short only at the depth limit, for a CNAME
    query, or at a target outside the zone.  A CNAME loop is cut at the limit. *)
Theorem alias_chain_bounded a in_ snap view q rr rest :
  Build in_ = Ok snap -> Owns Fqdn a (q_Name q) = true ->
  q_Qtype q <> TypePTR -> ToLower (Fqdn (q_Name q)) <> a_zone a ->
  Lookup snap view (ToLower (Fqdn (q_Name q))) = rr :: rest -> rr_Type rr = "CNAME" ->
  exists m cs last addrs, Answer Fqdn a (Some snap) view q = Some m
    /\ m_Answer m = cs ++ addrs
    /\ linked Fqdn (a_ttl a) (ToLower (Fqdn (q_Name q))) cs last
    /\ (1 <= length cs <= 9)%nat
    /\ chain_end Fqdn a (a_zone a) snap view (q_Qtype q) (a_ttl a) cnameChaseDepth cs last addrs.
Proof.
  intros HB Ho Hp%Z.eqb_neq Hz Hl Ht. unfold Answer, Owns in *. rewrite Ho. cbn [negb].
  rewrite bool_decide_eq_false_2, Hp, Hl, bool_decide_eq_true_2 by done.
  destruct (chase_chain Fqdn a (a_zone a) snap view (q_Qtype q) (a_ttl a)
    (fun n => Build_unambiguous _ _ _ _ HB) cnameChaseDepth (ToLower (Fqdn (q_Name q))) (rr_Value rr))
    as (cs & last & addrs & E & H).
  eexists _, cs, last, addrs. split; [reflexivity|]. simpl m_Answer. split; [exact E|exact H].
Qed.

(** the negative answer depends on the type asked for, not on the name: a
    PTR query for a name that has address records (for which any other type
    answers NODATA) is NXDOMAIN, which tells a resolver that nothing exists at or
    below the name; so is any other query for a reverse name that has a PTR. *)
Theorem existing_name_nxdomain a snap view q :
  Owns Fqdn a (q_Name q) = true ->
  let n := ToLower (Fqdn (q_Name q)) in
  n <> a_zone a ->
  (q_Qtype q = TypePTR /\ HasName snap view n = true /\ LookupPTR snap view n = ""
   \/ q_Qtype q <> TypePTR /\ HasName snap view n = false /\ LookupPTR snap view n <> "") ->
  exists m, Answer Fqdn a (Some snap) view q = Some m /\ m_Rcode m = RcodeNameError.
Proof.
  intros Ho n Hz H. unfold Answer, Owns in *. rewrite Ho. cbn [negb]. fold n.
  rewrite bool_decide_eq_false_2 by done. eexists. split; [reflexivity|].
  destruct H as [(Hp & _ & H)|(Hp & Hh & _)].
  - apply Z.eqb_eq in Hp. rewrite Hp, H. done.
  - apply Z.eqb_neq in Hp. rewrite Hp. unfold HasName in Hh. by destruct (Lookup snap view n).
Qed.

(** every reverse record derived from the configuration can be served: when
    the server's reverse zones are the ones the snapshot was built with, a PTR
    query for the reverse name of an address inside them is ours, and it is
    answered with the name the precedence specification gives. *)
Theorem derived_reverse_served a in_ snap view addr qname :
  Build in_ = Ok snap ->
  a_reverse a = Pfx.Masked <$> in_ReverseZones in_ -> Forall prefix_wf (in_ReverseZones in_) ->
  (forall s, Fqdn (s +:+ ".") = s +:+ ".") ->
  addr_wf addr -> Addr.IsValid addr = true -> Addr.Is4In6 addr = false -> Addr.has_zone addr = false ->
  inZones addr (in_ReverseZones in_) = true ->
  ToLower (Fqdn qname) = arpaName addr -> arpaName addr <> a_zone a ->
  let target := reverse_spec in_ (served_view in_ view) (ToLower (in_Zone in_)) (arpaName addr) in
  exists m, Answer Fqdn a (Some snap) view (mkQuestion qname TypePTR ClassINET) = Some m
    /\ (if bool_decide (target = "") then m_Rcode m = RcodeNameError
        else m_Answer m = [mkDRR (mkHdr (arpaName addr) TypePTR ClassINET (a_ttl a)) (PTRData (Fqdn target))]).
Proof.
  intros HB Hrev Hwfs HF Hwf Hv H46 Hz Hin Hq Hapex target.
  destruct (arpaName_shape addr Hwf) as (Hlow & Hsuf & s & Hdot).
  assert (Hun : Addr.Unmap addr = addr).
  { destruct addr as [|u|u z]; try done. unfold Addr.Is4In6 in H46. unfold Addr.Unmap. by rewrite H46. }
  assert (Ho : owns Fqdn a (a_zone a) qname = true).
  { unfold owns. rewrite Hq, Hsuf. destruct (negb _ && _); [done|].
    rewrite addrFromArpa_arpaName, Hun, Hrev by done.
    unfold inZones in Hin. apply existsb_true_exists in Hin as (p & Hp & Hc).
    apply existsb_true_exists. exists (Pfx.Masked p). split; [by apply list_elem_of_fmap_2|].
    rewrite Forall_forall in Hwfs. rewrite Contains_Masked by (by apply Hwfs). done. }
  assert (Hptr : LookupPTR snap view (arpaName addr) = target).
  { unfold LookupPTR. rewrite (Build_index _ _ view HB), layered_reverse, Hlow. done. }
  unfold Answer. cbn [q_Name q_Qtype]. rewrite Ho, Hq, Hptr. cbn [negb].
  rewrite bool_decide_eq_false_2 by done. change (TypePTR =? TypePTR) with true. cbn iota.
  eexists. split; [reflexivity|]. by case_bool_decide.
Qed.
End Props.

(** ** Witnesses *)
(** A [Fqdn] with the documented behaviour. *)
Definition ex_Fqdn (s : string) : string := if HasSuffix s "." then s else s +:+ ".".
Lemma ex_input_builds : exists snap, Build ex_input = Ok snap.
Proof. destruct (Build ex_input) as [snap|] eqn:E; [by exists snap|vm_compute in E; discriminate]. Qed.
Definition ex_auth : Authoritative :=
  NewAuthoritative ex_Fqdn "lan" 300 [mkPrefix (Addr4 3232235520) 16].
(** The snapshot of [ex_input], which has a printer with two addresses and, in
    the lab view, an alias for the NAS. *)
Definition ex_q (n : string) (t : Z) : Question := mkQuestion n t ClassINET.

Lemma answer_follows_configuration_witness :
  exists snap m, Build ex_input = Ok snap
    /\ Answer ex_Fqdn ex_auth (Some snap) "lan" (ex_q "Printer.lan" TypeA) = Some m
    /\ length (m_Answer m) = 2%nat.
Proof.
  destruct ex_input_builds as (snap & E).
  destruct (answer_follows_configuration ex_Fqdn ex_auth ex_input snap "lan" (ex_q "Printer.lan" TypeA) E)
    as (m & Hm & Ha & _); [vm_compute; congruence..|].
  exists snap, m. split; [exact E|]. split; [exact Hm|]. rewrite Ha. vm_compute. reflexivity.
Defined.

Lemma alias_chain_bounded_witness :
  exists snap m, Build ex_input = Ok snap
    /\ Answer ex_Fqdn ex_auth (Some snap) "lab" (ex_q "tv.lan" TypeA) = Some m
    /\ (1 <= length (m_Answer m))%nat.
Proof.
  destruct ex_input_builds as (snap & E).
  assert (Hl : Lookup snap "lab" "tv.lan." = [mkRR "tv.lan." "CNAME" "nas.lan."]).
  { rewrite (Build_Lookup _ _ _ _ E). vm_compute. reflexivity. }
  destruct (alias_chain_bounded ex_Fqdn ex_auth ex_input snap "lab" (ex_q "tv.lan" TypeA)
    (mkRR "tv.lan." "CNAME" "nas.lan.") [] E) as (m & cs & last & addrs & Hm & Ha & _ & Hlen & _);
    [vm_compute; congruence|vm_compute; congruence|vm_compute; congruence|exact Hl|reflexivity|].
  exists snap, m. split; [exact E|]. split; [exact Hm|]. rewrite Ha, length_app. lia.
Defined.

Lemma existing_name_nxdomain_witness :
  exists snap m, Build ex_input = Ok snap
    /\ Lookup snap "lan" "nas.lan." <> []
    /\ Answer ex_Fqdn ex_auth (Some snap) "lan" (ex_q "nas.lan" TypePTR) = Some m
    /\ m_Rcode m = RcodeNameError.
Proof.
  destruct ex_input_builds as (snap & E).
  assert (Hl : Lookup snap "lan" "nas.lan." = [mkRR "nas.lan." "A" "192.168.1.2"]).
  { rewrite (Build_Lookup _ _ _ _ E). vm_compute. reflexivity. }
  destruct (existing_name_nxdomain ex_Fqdn ex_auth snap "lan" (ex_q "nas.lan" TypePTR)) as (m & Hm & Hr).
  - vm_compute. reflexivity.
  - vm_compute. congruence.
  - left. split; [reflexivity|]. change (ToLower (ex_Fqdn (q_Name (ex_q "nas.lan" TypePTR)))) with "nas.lan.".
    split; [unfold HasName; rewrite Hl; reflexivity|].
    unfold LookupPTR. rewrite (Build_index _ _ "lan" E), layered_reverse. vm_compute. reflexivity.
  - exists snap, m. split; [exact E|]. split; [rewrite Hl; discriminate|]. split; [exact Hm|exact Hr].
Defined.

Lemma derived_reverse_served_witness :
  exists snap m, Build ex_input = Ok snap
    /\ Answer ex_Fqdn ex_auth (Some snap) "lan" (ex_q "10.1.168.192.in-addr.arpa" TypePTR) = Some m
    /\ m_Answer m <> [].
Proof.
  destruct ex_input_builds as (snap & E).
  destruct (derived_reverse_served (fun s => if HasSuffix s "." then s else s +:+ ".") ex_auth ex_input snap "lan"
     (Addr4 3232235786) "10.1.168.192.in-addr.arpa" E) as (m & Hm & Ha);
    [reflexivity| | |split; lia|reflexivity|reflexivity|reflexivity|reflexivity|vm_compute; reflexivity|vm_compute; congruence|].
  - repeat constructor; vm_compute; congruence.
  - intros s. by rewrite HasSuffix_app.
  - exists snap, m. split; [exact E|]. split; [exact Hm|]. rewrite bool_decide_eq_false_2 in Ha by (vm_compute; discriminate). rewrite Ha. discriminate.
Defined.
