(* ===== verification/DnsForward.v ===== *)
(** * Forwarding: [internal/dnsserver/forward.go]

    The upstream list with its status, failover, the cached [Resolve], and the
    retirement of upstream lists by [Replace] as a step relation.  What an
    upstream answers is the parameter [Exchange]: the reply of the attempt with
    the given index.  [singleflight.Group.Do] of a caller that nobody joins runs
    the function; a caller that joins gets a copy of the same result. *)
From S2P Require Import Prelude GoStr NetIP DnsMsg DnsMetrics DnsCache.

Record Upstream := mkUp { u_id : Z; u_spec : string; u_secure : bool }.
Record UpstreamStatus := mkUS {
  us_Spec : string; us_Secure : bool; us_LastError : string; us_LastErrAt : option Z; us_LastOKAt : option Z }.
Record fwdState := mkFS { fs_ups : list Upstream; fs_status : list UpstreamStatus }.
Record Forwarder := mkFwd { f_state : fwdState; f_cache : Cache }.

(** The request that goes upstream. *)
Record FReq := mkReq { rq_Question : Question; rq_UDPSize : Z; rq_Do : bool; rq_CD : bool; rq_AD : bool }.
Inductive failure := ExchErr (e : string) | NoMessage (u : Upstream) | BadRcode (u : Upstream) (rcode : Z).
Inductive fwd_error := NoUpstreams | AllFailed (last : option failure).

Definition fresh_state (ups : list Upstream) : fwdState :=
  mkFS ups ((fun u => mkUS (u_spec u) (u_secure u) "" None None) <$> ups).
Definition FwdReplace (ups : list Upstream) (f : Forwarder) : Forwarder := mkFwd (fresh_state ups) (f_cache f).
Definition NewForwarder (ups : list Upstream) (c : Cache) : Forwarder := FwdReplace ups (mkFwd (mkFS [] []) c).
Definition FwdStatus (f : Forwarder) : list UpstreamStatus := fs_status (f_state f).

(** [record]: [None] is success. *)
Definition record (now : Z) (err : option string) (s : UpstreamStatus) : UpstreamStatus :=
  match err with
  | Some e => mkUS (us_Spec s) (us_Secure s) e (Some now) (us_LastOKAt s)
  | None => mkUS (us_Spec s) (us_Secure s) "" None (Some now)
  end.
Definition clear_ad (m : Msg) : Msg :=
  mkMsg (m_Opcode m) (m_Rcode m) (m_Authoritative m) (m_RecursionAvailable m) false
    (m_Question m) (m_Answer m) (m_Ns m) (m_Extra m).

Section Exchange.
Context (Fqdn : string -> string) (RcodeToString : Z -> string).
Context (Exchange : nat -> Upstream -> FReq -> result string (option Msg)).
(** The clock at each attempt. *)
Context (clock : nat -> Z).

Definition request (q : Question) (do : bool) : FReq :=
  mkReq (mkQuestion (Fqdn (q_Name q)) (q_Qtype q) ClassINET) 1232 do false true.

Fixpoint try_all (req : FReq) (i : nat) (ups : list Upstream) (st : list UpstreamStatus) (last : option failure)
    : list UpstreamStatus * result fwd_error Msg :=
  match ups with
  | [] => (st, Err (AllFailed last))
  | u :: ups' =>
      let failed reason why := try_all req (S i) ups' (alter (record (clock i) (Some reason)) i st) (Some why) in
      match Exchange i u req with
      | Ok (Some resp) =>
          if negb (m_Rcode resp =? RcodeServerFailure)
          then (alter (record (clock i) None) i st, Ok (if u_secure u then resp else clear_ad resp))
          else failed ("returned " +:+ RcodeToString (m_Rcode resp)) (BadRcode u (m_Rcode resp))
      | Ok None => failed "returned no message" (NoMessage u)
      | Err e => failed e (ExchErr e)
      end
  end.
Definition exchange (q : Question) (do : bool) (st : fwdState) : fwdState * result fwd_error Msg :=
  match fs_ups st with
  | [] => (st, Err NoUpstreams)
  | ups => let '(status, r) := try_all (request q do) 0 ups (fs_status st) None in (mkFS ups status, r)
  end.

Definition Resolve (now : Z) (q : Question) (do : bool) (f : Forwarder) (ms : option Metrics)
    : Forwarder * option Metrics * result fwd_error Msg :=
  let '(c, ms, m) := Get Fqdn now q do (f_cache f) ms in
  match m with
  | Some m => (mkFwd (f_state f) c, ms, Ok m)
  | None =>
      let '(c, ms, m) := Get Fqdn now q do c ms in
      match m with
      | Some m => (mkFwd (f_state f) c, ms, Ok m)
      | None =>
          let '(st, r) := exchange q do (f_state f) in
          match r with
          | Err e => (mkFwd st c, ms, Err e)
          | Ok m => (mkFwd st (Put Fqdn now q do (Some m) c), ms, Ok m)
          end
      end
  end.

(** ** Lemmas *)
(** A reply that ends the search. *)
Definition usable (r : result string (option Msg)) : option Msg :=
  match r with
  | Ok (Some m) => if m_Rcode m =? RcodeServerFailure then None else Some m
  | _ => None
  end.
Definition attempt (q : Question) (do : bool) (i : nat) (u : Upstream) : option Msg :=
  usable (Exchange i u (request q do)).

Definition failed_at (j : nat) (st st' : list UpstreamStatus) : Prop :=
  forall s, st !! j = Some s -> exists e, st' !! j = Some (record (clock j) (Some e) s).
Definition strip (u : Upstream) (m : Msg) : Msg := if u_secure u then m else clear_ad m.

(** What a search from index [i] returns and records. *)
Definition search_spec (q : Question) (do : bool) (i : nat) (ups : list Upstream) (st st' : list UpstreamStatus)
    (r : result fwd_error Msg) : Prop :=
  (forall j, (j < i)%nat -> st' !! j = st !! j) /\
  match r with
  | Ok m => exists k u resp, ups !! k = Some u /\ attempt q do (i + k) u = Some resp /\ m = strip u resp
      /\ (forall j v, (j < k)%nat -> ups !! j = Some v -> attempt q do (i + j) v = None)
      /\ (forall j, (i <= j < i + k)%nat -> failed_at j st st')
      /\ st' !! (i + k)%nat = record (clock (i + k)) None <$> st !! (i + k)%nat
      /\ (forall j, (i + k < j)%nat -> st' !! j = st !! j)
  | Err (AllFailed _) => (forall j v, ups !! j = Some v -> attempt q do (i + j) v = None)
      /\ (forall j, (i <= j < i + length ups)%nat -> failed_at j st st')
  | Err NoUpstreams => False
  end.

Lemma search_fail q do i u ups st st' r reason :
  attempt q do i u = None ->
  search_spec q do (S i) ups (alter (record (clock i) (Some reason)) i st) st' r ->
  search_spec q do i (u :: ups) st st' r.
Proof.
  intros Hu (Hlow & H). set (st1 := alter (record (clock i) (Some reason)) i st) in *.
  assert (Hi : failed_at i st st').
  { intros s Hs. exists reason. rewrite Hlow by lia. unfold st1. by rewrite list_lookup_alter_eq, Hs. }
  assert (Hj : forall j, j <> i -> st1 !! j = st !! j) by (intros j Hj; unfold st1; by rewrite list_lookup_alter_ne).
  assert (Hf : forall j, (S i <= j)%nat -> failed_at j st1 st' -> failed_at j st st').
  { intros j Hlt Hx s Hs. apply Hx. rewrite Hj by lia. done. }
  assert (Hn : forall j v, (u :: ups) !! j = Some v ->
    (forall j', j = S j' -> ups !! j' = Some v -> attempt q do (S i + j') v = None) -> attempt q do (i + j) v = None).
  { intros [|j] v Hv Hx; simpl in Hv; [injection Hv as <-; by rewrite Nat.add_0_r|].
    replace (i + S j)%nat with (S i + j)%nat by lia. by apply Hx. }
  split; [intros j Hlt; rewrite Hlow, Hj by lia; done|].
  destruct r as [m|[|e]]; [|done|].
  - destruct H as (k & v & resp & H1 & H2 & -> & H4 & H5 & H6 & H7).
    exists (S k), v, resp. replace (i + S k)%nat with (S i + k)%nat by lia. split_and!; try done.
    + intros j w Hlt Hw. apply Hn; [done|]. intros j' -> Hw'. apply H4; [lia|done].
    + intros j Hr. destruct (decide (j = i)) as [->|]; [done|]. apply Hf; [lia|]. apply H5. lia.
    + by rewrite H6, Hj by lia.
    + intros j Hlt. rewrite H7, Hj by lia. done.
  - destruct H as (H1 & H2). split.
    + intros j w Hw. apply Hn; [done|]. intros j' -> Hw'. by apply H1.
    + intros j Hr. simpl in Hr. destruct (decide (j = i)) as [->|]; [done|]. apply Hf; [lia|]. apply H2. lia.
Qed.

Lemma try_all_spec q do ups : forall i st last,
  search_spec q do i ups st (try_all (request q do) i ups st last).1 (try_all (request q do) i ups st last).2.
Proof.
  induction ups as [|u ups IH]; intros i st last; cbn [try_all].
  - split; [done|]. split; [done|]. simpl. intros j Hj. lia.
  - destruct (Exchange i u (request q do)) as [[resp|]|e] eqn:E.
    + case_if; bool_to_prop.
      * split; [intros j Hj; simpl; by rewrite list_lookup_alter_ne by lia|]. simpl.
        exists 0%nat, u, resp. rewrite Nat.add_0_r. split_and!; try done; try lia.
        -- unfold attempt. rewrite E. simpl. by rewrite (proj2 (Z.eqb_neq _ _)).
        -- by rewrite list_lookup_alter_eq.
        -- intros j Hj. by rewrite list_lookup_alter_ne by lia.
      * eapply search_fail, IH. unfold attempt. rewrite E. simpl. by rewrite (proj2 (Z.eqb_eq _ _)).
    + eapply search_fail, IH. unfold attempt. by rewrite E.
    + eapply search_fail, IH. unfold attempt. by rewrite E.
Qed.

Lemma failover_first_usable_ups q do st : fs_ups (exchange q do st).1 = fs_ups st.
Proof. unfold exchange. destruct (fs_ups st) eqn:E; [done|]. by destruct (try_all _ _ _ _ _). Qed.

(** C19: a query is answered by the first upstream, in configuration order, that
    returns a message other than SERVFAIL; the upstreams before it are recorded
    as failing at the time of their attempt, it is recorded as working, and those
    after it are not asked (their status does not change).  A plaintext upstream's
    reply loses its AD bit.  The exchange fails exactly when there is no upstream
    or none gave a usable reply, and then every upstream is recorded as failing. *)
Theorem failover_first_usable q do st :
  let '(st', r) := exchange q do st in
  fs_ups st' = fs_ups st /\
  match r with
  | Err NoUpstreams => fs_ups st = [] /\ st' = st
  | r => fs_ups st <> [] /\ search_spec q do 0 (fs_ups st) (fs_status st) (fs_status st') r
  end.
Proof.
  unfold exchange. destruct (fs_ups st) as [|u ups] eqn:E; [done|]. rewrite <- E.
  pose proof (try_all_spec q do (fs_ups st) 0 (fs_status st) None) as H.
  destruct (try_all _ _ _ _ _) as [status r]. split; [done|]. simpl in *.
  destruct r as [m|[|e]]; [|by destruct H|]; (split; [by rewrite E|done]).
Qed.

(** a cache miss that goes upstream is counted as two misses, a hit as one
    hit: [Resolve] looks the cache up again inside the single-flight call. *)
Theorem miss_counted_twice now q do f m :
  (lookup_ Fqdn now q do (f_cache f)).2 = None ->
  exists m', (Resolve now q do f (Some m)).1.2 = Some m'
    /\ cacheMisses m' = inc (inc (cacheMisses m)) /\ cacheHits m' = cacheHits m.
Proof.
  intros Hmiss. unfold Resolve, Get. destruct (lookup_ Fqdn now q do (f_cache f)) as [c r] eqn:E1.
  simpl in Hmiss. subst r.
  assert (E2 : (lookup_ Fqdn now q do c).2 = None).
  { unfold lookup_ in E1. destruct (c_entries (f_cache f) !! _) as [id|] eqn:Ek.
    - destruct (element id _) as [e|] eqn:Ee.
      + destruct (negb _); [|done]. injection E1 as <-. unfold lookup_, removeLocked. rewrite Ee. simpl.
        destruct (delete _ _ !! _) as [id'|] eqn:Ed; [|done].
        destruct (decide (e_key e = keyFor Fqdn q do)) as [Hk|Hk]; [by rewrite Hk, lookup_delete_eq in Ed|].
        rewrite lookup_delete_ne, Ek in Ed by done. injection Ed as <-.
        assert (element id (list_remove id (c_order (f_cache f))) = None) as ->; [|done].
        unfold element. destruct (List.find _ _) as [x|] eqn:Ef; [|done].
        apply List.find_some in Ef as [Hx Heq]. apply list_elem_of_In, list_remove_elem in Hx as [_ Hx]. by bool_to_prop.
      + injection E1 as <-. unfold lookup_. by rewrite Ek, Ee.
    - injection E1 as <-. unfold lookup_. by rewrite Ek. }
  destruct (lookup_ Fqdn now q do c) as [c2 r2]. simpl in E2. subst r2.
  destruct (exchange q do (f_state f)) as [st [m0|e]]; simpl; eexists; split; by try reflexivity.
Qed.

(** ** The AD bit *)
Definition ad_free (c : Cache) : Prop := forall x, x ∈ c_order c -> m_AuthenticatedData (e_msg x.2) = false.
Definition insecure (f : Forwarder) : Prop := Forall (fun u => u_secure u = false) (fs_ups (f_state f)).

Lemma lookup_ad_free now q do c :
  cache_wf c -> ad_free c ->
  ad_free (lookup_ Fqdn now q do c).1 /\ forall m, (lookup_ Fqdn now q do c).2 = Some m -> m_AuthenticatedData m = false.
Proof.
  intros Hw Ha. split.
  - intros x Hx. apply Ha. by apply (lookup_wf Fqdn now q do c Hw).
  - unfold lookup_. destruct (c_entries c !! _) as [id|]; [|done]. destruct (element id _) as [e|] eqn:Ee; [|done].
    destruct (negb _); [done|]. intros m [= <-]. simpl.
    apply (element_spec _ _ _ (wf_ids c Hw)) in Ee. by apply (Ha (id, e)).
Qed.
Lemma exchange_ad_free q do st m :
  Forall (fun u => u_secure u = false) (fs_ups st) -> (exchange q do st).2 = Ok m -> m_AuthenticatedData m = false.
Proof.
  intros Hs. unfold exchange. destruct (fs_ups st) as [|u ups] eqn:E; [done|]. rewrite <- E in Hs |- *.
  pose proof (try_all_spec q do (fs_ups st) 0 (fs_status st) None) as [_ H].
  destruct (try_all _ _ _ _ _) as [status r]. simpl in *. intros ->.
  destruct H as (k & v & resp & Hv & _ & -> & _). unfold strip. rewrite Forall_lookup in Hs. by rewrite (Hs _ _ Hv).
Qed.
End Exchange.

Lemma Put_ad_free Fqdn now q do m c :
  cache_ok c -> m_AuthenticatedData m = false -> ad_free c -> ad_free (Put Fqdn now q do (Some m) c).
Proof.
  intros (Hw & Hm & Hl) Hm0 Ha x Hx. destruct (decide (ttlFor c m = 0)) as [E|E].
  { unfold Put in Hx. rewrite E in Hx. by apply Ha. }
  destruct (Put_step Fqdn now q do m c Hw E) as (c1 & Hw1 & Hm1 & Ep & id & o & Eo & Ho).
  rewrite Ep in Hx. apply (evict_spec (length (c_order c1))) in Hx; [|done|lia|done].
  rewrite Eo in Hx. apply elem_of_cons in Hx as [->|Hx]; [done|].
  apply Ha. rewrite Ho in Hx. by apply list_elem_of_filter in Hx as [_ Hx].
Qed.

(** A history of queries and reconfigurations; each query brings what the
    upstreams answer while it runs. *)
Inductive fop :=
  | FResolve (now : Z) (q : Question) (do : bool) (exch : nat -> Upstream -> FReq -> result string (option Msg)) (clock : nat -> Z)
  | FReplace (ups : list Upstream)
  | FFlush.
Section Run.
Context (Fqdn : string -> string) (RcodeToString : Z -> string).
Definition fop_step (st : Forwarder * option Metrics * list Msg) (op : fop) : Forwarder * option Metrics * list Msg :=
  let '(f, ms, replies) := st in
  match op with
  | FResolve now q do exch clock =>
      let '(f, ms, r) := Resolve Fqdn RcodeToString exch clock now q do f ms in
      (f, ms, match r with Ok m => replies ++ [m] | Err _ => replies end)
  | FReplace ups => (FwdReplace ups f, ms, replies)
  | FFlush => (mkFwd (f_state f) (Flush (f_cache f)), ms, replies)
  end.
Definition fop_run (ops : list fop) (f : Forwarder) (ms : option Metrics) : Forwarder * option Metrics * list Msg :=
  foldl fop_step (f, ms, []) ops.
Definition fop_insecure (op : fop) : Prop :=
  match op with FReplace ups => Forall (fun u => u_secure u = false) ups | _ => True end.

Definition plain_ok (st : Forwarder * option Metrics * list Msg) : Prop :=
  insecure st.1.1 /\ cache_ok (f_cache st.1.1) /\ ad_free (f_cache st.1.1)
  /\ Forall (fun m => m_AuthenticatedData m = false) st.2.

Lemma lookup_cache_ok now q do c : cache_ok c -> cache_ok (lookup_ Fqdn now q do c).1.
Proof.
  intros (Hw & Hm & Hl). destruct (lookup_wf Fqdn now q do c Hw) as (H1 & H2 & H3 & _).
  split; [done|]. rewrite H2. split; [done|lia].
Qed.

Lemma resolve_plain exch clock now q do f ms :
  insecure f -> cache_ok (f_cache f) -> ad_free (f_cache f) ->
  let '(f', _, r) := Resolve Fqdn RcodeToString exch clock now q do f ms in
  insecure f' /\ cache_ok (f_cache f') /\ ad_free (f_cache f')
  /\ forall m, r = Ok m -> m_AuthenticatedData m = false.
Proof.
  intros Hi Hc Ha. unfold Resolve, Get.
  pose proof (lookup_cache_ok now q do _ Hc) as Hc1.
  destruct (lookup_ad_free Fqdn now q do _ ltac:(apply Hc) Ha) as [Ha1 Hr1].
  destruct (lookup_ Fqdn now q do (f_cache f)) as [c1 [m1|]]; simpl in *.
  { split_and!; try done. intros m [= <-]. by apply Hr1. }
  pose proof (lookup_cache_ok now q do _ Hc1) as Hc2.
  destruct (lookup_ad_free Fqdn now q do _ ltac:(apply Hc1) Ha1) as [Ha2 Hr2].
  destruct (lookup_ Fqdn now q do c1) as [c2 [m2|]]; simpl in *.
  { split_and!; try done. intros m [= <-]. by apply Hr2. }
  pose proof (exchange_ad_free Fqdn RcodeToString exch clock q do (f_state f)) as He.
  pose proof (failover_first_usable_ups Fqdn RcodeToString exch clock q do (f_state f)) as Hu.
  destruct (exchange _ _ _ _ _ _ _) as [st [m0|e]]; simpl in *; unfold insecure in *; simpl; rewrite Hu.
  - specialize (He m0 Hi eq_refl). split_and!; try done.
    + apply (cache_step_ok Fqdn c2 (CPut now q do m0)). done.
    + by apply Put_ad_free.
    + by intros m [= <-].
  - by split_and!.
Qed.

(** C20: with plaintext upstreams only, no reply ever carries the AD bit, whatever
    the upstreams claim and however often they are replaced by others of the kind:
    the bit is cleared before the answer is cached, so a later hit cannot bring it
    back. *)
Theorem plaintext_never_authentic ups ops max a b d ms :
  0 <= max -> Forall (fun u => u_secure u = false) ups -> Forall fop_insecure ops ->
  Forall (fun m => m_AuthenticatedData m = false) (fop_run ops (NewForwarder ups (NewCache max a b d)) ms).2.
Proof.
  intros Hmax Hups. unfold fop_run.
  assert (H : forall ops st, plain_ok st -> Forall fop_insecure ops -> plain_ok (foldl fop_step st ops)).
  { clear. induction ops as [|op ops IH]; intros st Hst Hops; [done|]. apply Forall_cons in Hops as [Hop Hops].
    simpl. apply IH; [|done]. destruct st as [[f ms] rs], Hst as (Hi & Hc & Ha & Hr). simpl in *.
    destruct op as [now q do exch clock|ups|]; simpl.
    - pose proof (resolve_plain exch clock now q do f ms Hi Hc Ha) as H.
      destruct (Resolve _ _ _ _ _ _ _ _ _) as [[f' ms'] [m|e]]; destruct H as (H1 & H2 & H3 & H4);
        split_and!; try done. simpl. apply Forall_app. split; [done|]. constructor; [by apply H4|done].
    - by split_and!.
    - split_and!; try done; simpl; [by apply (cache_step_ok Fqdn _ CFlush)|]. by intros x ?%not_elem_of_nil. }
  intros Hops. apply (H ops (NewForwarder ups (NewCache max a b d), ms, [])); [|done].
  split_and!; [done| |by intros x ?%not_elem_of_nil|done].
  split; [|done]. constructor; simpl; [constructor|by intros ? ?%not_elem_of_nil|].
  intros k id. rewrite lookup_empty. split; [done|]. by intros (e & ?%not_elem_of_nil & _).
Qed.
End Run.

(** ** Retiring upstream lists

    [Replace] swaps the list under the lock and starts a goroutine that waits for
    the queries holding the old list, reads the list that is then current and
    closes the old upstreams that are not in it.  [r_wg] is the WaitGroup, [r_pc]
    where the goroutine of a list is; the last list is the current one. *)
Inductive retire_pc := RLive | RWaiting | RLoaded (keep : list Z) | RDone.
Record RState := mkRS { r_ups : list Z; r_wg : nat; r_pc : retire_pc }.
Record RWorld := mkRW { rw_states : list RState; rw_closed : list Z }.
Definition carriedOver (keep : list Z) (u : Z) : bool := bool_decide (u ∈ keep).
Definition to_close (s : RState) (keep : list Z) : list Z := filter (fun u => carriedOver keep u = false) (r_ups s).
Definition current_ups (sts : list RState) : list Z := default [] (r_ups <$> last sts).
Definition with_wg (n : nat) (s : RState) : RState := mkRS (r_ups s) n (r_pc s).
Definition with_pc (p : retire_pc) (s : RState) : RState := mkRS (r_ups s) (r_wg s) p.
Definition init_world (ups : list Z) : RWorld := mkRW [mkRS ups 0 RLive] [].

Section Retire.
(** Which lists a [Replace] may bring, given the lists so far. *)
Context (allowed : list RState -> list Z -> Prop).
Inductive retire_step : RWorld -> RWorld -> Prop :=
  | rt_acquire sts i s cl :  (** [acquireState]: a query takes the current list *)
      S i = length sts -> sts !! i = Some s ->
      retire_step (mkRW sts cl) (mkRW (<[i := with_wg (S (r_wg s)) s]> sts) cl)
  | rt_release sts i s n cl :  (** its [done] *)
      sts !! i = Some s -> r_wg s = S n ->
      retire_step (mkRW sts cl) (mkRW (<[i := with_wg n s]> sts) cl)
  | rt_replace sts i s ups cl :
      S i = length sts -> sts !! i = Some s -> allowed sts ups ->
      retire_step (mkRW sts cl) (mkRW (<[i := with_pc RWaiting s]> sts ++ [mkRS ups 0 RLive]) cl)
  | rt_load sts i s cl :  (** [Wait] returns and [currentState] is read *)
      sts !! i = Some s -> r_pc s = RWaiting -> r_wg s = 0%nat ->
      retire_step (mkRW sts cl) (mkRW (<[i := with_pc (RLoaded (current_ups sts)) s]> sts) cl)
  | rt_close sts i s keep cl :  (** [close] *)
      sts !! i = Some s -> r_pc s = RLoaded keep ->
      retire_step (mkRW sts cl) (mkRW (<[i := with_pc RDone s]> sts) (cl ++ to_close s keep)).
End Retire.
Definition any_list (sts : list RState) (ups : list Z) : Prop := True.
(** Instances that no earlier list had, as [upstream.NewAll] builds them. *)
Definition new_instances (sts : list RState) (ups : list Z) : Prop :=
  NoDup ups /\ forall u s, u ∈ ups -> s ∈ sts -> u ∉ r_ups s.

(** The current list has no goroutine, a list whose goroutine is past the wait is
    idle, no instance is in two lists, and what was closed belongs to lists whose
    goroutine is done. *)
Record retire_inv (w : RWorld) : Prop := {
  ri_live : forall i s, rw_states w !! i = Some s -> (r_pc s = RLive <-> S i = length (rw_states w));
  ri_idle : forall i s, rw_states w !! i = Some s ->
    match r_pc s with RLoaded _ | RDone => r_wg s = 0%nat | _ => True end;
  ri_nodup : forall i s, rw_states w !! i = Some s -> NoDup (r_ups s);
  ri_one : forall i j s t u, rw_states w !! i = Some s -> rw_states w !! j = Some t ->
    u ∈ r_ups s -> u ∈ r_ups t -> i = j;
  ri_closed : forall u, u ∈ rw_closed w ->
    exists i s, rw_states w !! i = Some s /\ r_pc s = RDone /\ u ∈ r_ups s;
  ri_once : NoDup (rw_closed w) }.

(** Changing the counter or the goroutine of one list. *)
Lemma retire_inv_update sts cl i s s' :
  retire_inv (mkRW sts cl) -> sts !! i = Some s -> r_ups s' = r_ups s ->
  (r_pc s' = RLive <-> r_pc s = RLive) ->
  match r_pc s' with RLoaded _ | RDone => r_wg s' = 0%nat | _ => True end ->
  (r_pc s = RDone -> r_pc s' = RDone) ->
  retire_inv (mkRW (<[i := s']> sts) cl).
Proof.
  intros [H1 H2 H3 H4 H5 H6] Hs Hu Hl Hid Hd. simpl in *.
  assert (Hlt : (i < length sts)%nat) by (by eapply lookup_lt_Some).
  assert (Hget : forall j t, <[i := s']> sts !! j = Some t ->
    exists t0, sts !! j = Some t0 /\ r_ups t = r_ups t0 /\ ((j = i /\ t = s' /\ t0 = s) \/ (j <> i /\ t = t0))).
  { intros j t Ht. destruct (decide (j = i)) as [->|Hne].
    - rewrite list_lookup_insert_eq in Ht by done. injection Ht as <-. exists s. split; [done|]. split; [done|]. by left.
    - rewrite list_lookup_insert_ne in Ht by done. exists t. auto. }
  constructor; simpl; rewrite ?length_insert.
  - intros j t (t0 & Ht & _ & [(-> & -> & ->)|(_ & ->)])%Hget; [rewrite Hl|]; by apply H1.
  - intros j t (t0 & Ht & _ & [(-> & -> & ->)|(_ & ->)])%Hget; [done|by eapply H2].
  - intros j t (t0 & Ht & -> & _)%Hget. by eapply H3.
  - intros j k t t' u (t0 & Ht & -> & _)%Hget (t1 & Ht1 & -> & _)%Hget. by eapply H4.
  - intros u (j & t & Ht & Hp & Hin)%H5. destruct (decide (j = i)) as [->|Hne].
    + assert (t = s) as -> by congruence. exists i, s'. rewrite list_lookup_insert_eq, Hu by done. auto.
    + exists j, t. by rewrite list_lookup_insert_ne.
  - done.
Qed.

Lemma retire_inv_step w w' : retire_step new_instances w w' -> retire_inv w -> retire_inv w'.
Proof.
  intros [sts i s cl Hi Hs|sts i s n cl Hs Hn|sts i s ups cl Hi Hs Ha|sts i s cl Hs Hp Hw|sts i s keep cl Hs Hp] Hinv.
  - pose proof (proj2 (ri_live _ Hinv i s Hs) Hi) as Hl.
    apply (retire_inv_update _ _ _ s); simpl; try done. by rewrite Hl.
  - apply (retire_inv_update _ _ _ s); simpl; try done.
    pose proof (ri_idle _ Hinv i s Hs) as Hid. destruct (r_pc s); try done; congruence.
  - destruct Hinv as [H1 H2 H3 H4 H5 H6]. simpl in *. destruct Ha as [Hnd Hnew].
    pose proof (proj2 (H1 i s Hs) Hi) as Hl.
    assert (Hget : forall j t, (<[i := with_pc RWaiting s]> sts ++ [mkRS ups 0 RLive]) !! j = Some t ->
      (exists t0, sts !! j = Some t0 /\ r_ups t = r_ups t0 /\ ((j = i /\ r_pc t = RWaiting) \/ (j <> i /\ t = t0)))
      \/ (j = length sts /\ t = mkRS ups 0 RLive)).
    { intros j t [Ht|[Hge Ht]]%lookup_app_Some.
      - left. destruct (decide (j = i)) as [->|Hne].
        + rewrite list_lookup_insert_eq in Ht by lia. injection Ht as <-. exists s. split; [done|]. split; [done|]. by left.
        + rewrite list_lookup_insert_ne in Ht by done. exists t. split; [done|]. split; [done|]. by right.
      - right. rewrite length_insert in *. apply list_lookup_singleton_Some in Ht as [Hz <-]. split; [lia|done]. }
    constructor; simpl; rewrite ?length_app, ?length_insert; simpl.
    + intros j t [(t0 & Ht & _ & [(-> & Hw)|(Hne & ->)])|[-> ->]]%Hget; simpl.
      * rewrite Hw. split; [done|lia].
      * rewrite (H1 j t0 Ht). apply lookup_lt_Some in Ht. lia.
      * split; [lia|done].
    + intros j t [(t0 & Ht & _ & [(-> & ->)|(Hne & ->)])|[-> ->]]%Hget; simpl; [done|by eapply H2|done].
    + intros j t [(t0 & Ht & -> & _)|[-> ->]]%Hget; simpl; [by eapply H3|done].
    + intros j k t t' u [(t0 & Ht & -> & _)|[-> ->]]%Hget [(t1 & Ht1 & -> & _)|[-> ->]]%Hget; simpl; intros Hu1 Hu2;
        try done; [by eapply H4|exfalso|exfalso]; (eapply Hnew; [|by eapply list_elem_of_lookup_2|]; done).
    + intros u (j & t & Ht & Hp & Hin)%H5. exists j, t. split; [|done].
      apply lookup_app_Some. left. rewrite list_lookup_insert_ne; [done|]. intros ->. congruence.
    + done.
  - apply (retire_inv_update _ _ _ s); simpl; try done; by rewrite Hp.
  - assert (Hu : retire_inv (mkRW (<[i := with_pc RDone s]> sts) cl)).
    { pose proof (ri_idle _ Hinv i s Hs) as Hid. rewrite Hp in Hid.
      apply (retire_inv_update _ _ _ s); simpl; try done; by rewrite Hp. }
    assert (Hnot : forall u, u ∈ r_ups s -> u ∉ cl).
    { intros u Hin Hc. destruct (ri_closed _ Hinv u Hc) as (j & t & Ht & Hd & Hut). simpl in *.
      pose proof (ri_one _ Hinv _ _ _ _ u Hs Ht Hin Hut) as ->. congruence. }
    assert (Hlt : (i < length sts)%nat) by (by eapply lookup_lt_Some).
    destruct Hu as [H1 H2 H3 H4 H5 H6]. constructor; simpl in *; try done.
    + intros u [Hc|[_ Hc]%list_elem_of_filter]%elem_of_app; [by apply H5|].
      exists i, (with_pc RDone s). by rewrite list_lookup_insert_eq.
    + apply NoDup_app. split; [done|]. split.
      * intros u Hc [_ Hin]%list_elem_of_filter. by apply (Hnot u).
      * apply NoDup_filter. by apply (ri_nodup _ Hinv i s).
Qed.

(** as long as every [Replace] brings new instances (as the settings code
    does), no upstream is closed while its list is the current one or a query
    still holds its list, and none is closed twice. *)
Theorem retired_upstream_unused ups w :
  NoDup ups -> rtc (retire_step new_instances) (init_world ups) w ->
  NoDup (rw_closed w)
  /\ forall u i s, u ∈ rw_closed w -> rw_states w !! i = Some s -> u ∈ r_ups s ->
       r_wg s = 0%nat /\ S i <> length (rw_states w).
Proof.
  intros Hnd Hr. assert (Hinv : retire_inv w).
  { assert (H0 : retire_inv (init_world ups)).
    { constructor; simpl; try done.
      - intros [|i] s; [|done]. by intros [= <-].
      - intros [|i] s; [|done]. by intros [= <-].
      - intros [|i] s; [|done]. by intros [= <-].
      - intros [|i] [|j]; done.
      - by intros u ?%not_elem_of_nil.
      - constructor. }
    revert H0. induction Hr as [|w1 w2 w3 Hs _ IH]; [done|]. intros H0. apply IH. by eapply retire_inv_step. }
  split; [apply Hinv|]. intros u i s Hc Hs Hin.
  destruct (ri_closed _ Hinv u Hc) as (j & t & Ht & Hd & Hut).
  pose proof (ri_one _ Hinv _ _ _ _ u Hs Ht Hin Hut) as ->. assert (t = s) as -> by congruence.
  pose proof (ri_idle _ Hinv _ _ Hs) as Hid. rewrite Hd in Hid. split; [done|].
  intros Hlast. apply (ri_live _ Hinv _ _ Hs) in Hlast. congruence.
Qed.

(** when an instance is carried over, the re-read of the current list does
    not protect it: with lists [a], [b], [a] in a row, the first goroutine can
    read the second list, and close [a] after the third is installed; and with
    [a], [a, b], [b] in a row it closes [a] under a query that holds the second
    list. *)
Theorem carried_over_upstream_closed_live :
  (exists w, rtc (retire_step any_list) (init_world [1]) w
     /\ 1 ∈ current_ups (rw_states w) /\ 1 ∈ rw_closed w)
  /\ (exists w i s, rtc (retire_step any_list) (init_world [1]) w
     /\ 1 ∈ rw_closed w /\ rw_states w !! i = Some s /\ 1 ∈ r_ups s /\ r_wg s = 1%nat).
Proof.
  split.
  - eexists. split.
    + eapply rtc_l; [eapply (rt_replace _ _ 0 _ [2]); [done|reflexivity|done]|]. simpl.
      eapply rtc_l; [eapply (rt_load _ _ 0); [reflexivity|done|done]|]. simpl.
      eapply rtc_l; [eapply (rt_replace _ _ 1 _ [1]); [done|reflexivity|done]|]. simpl.
      eapply rtc_l; [eapply (rt_close _ _ 0); reflexivity|]. apply rtc_refl.
    + split; vm_compute; by left.
  - eexists _, 1%nat, _. split.
    + eapply rtc_l; [eapply (rt_replace _ _ 0 _ [1; 2]); [done|reflexivity|done]|]. simpl.
      eapply rtc_l; [eapply (rt_acquire _ _ 1); [done|reflexivity]|]. simpl.
      eapply rtc_l; [eapply (rt_replace _ _ 1 _ [2]); [done|reflexivity|done]|]. simpl.
      eapply rtc_l; [eapply (rt_load _ _ 0); [reflexivity|done|done]|]. simpl.
      eapply rtc_l; [eapply (rt_close _ _ 0); reflexivity|]. apply rtc_refl.
    + split; [vm_compute; by left|]. split; [reflexivity|]. split; [by left|done].
Qed.

(** ** Witnesses *)
Definition ex_up (i : Z) (secure : bool) : Upstream := mkUp i "u" secure.
(** The first upstream times out, the others answer with the AD bit set. *)
Definition ex_exch (i : nat) (u : Upstream) (r : FReq) : result string (option Msg) :=
  match i with
  | O => Err "timeout"
  | _ => Ok (Some (mkMsg 0 0 false true true [rq_Question r] (m_Answer ex_msg) [] []))
  end.
Definition ex_rcode (r : Z) : string := "SERVFAIL".
Definition ex_resolve : fop := FResolve (seconds 100) ex_q false ex_exch (fun _ => seconds 100).

Lemma plaintext_never_authentic_witness :
  let st := fop_run id_fqdn ex_rcode [ex_resolve; ex_resolve] (NewForwarder [ex_up 1 false; ex_up 2 false] (NewCache 10 10 120 60)) None in
  length st.2 = 2%nat /\ Forall (fun m => m_AuthenticatedData m = false) st.2.
Proof.
  split; [vm_compute; reflexivity|].
  apply plaintext_never_authentic; [lia|by repeat constructor|by repeat constructor].
Defined.
Lemma miss_counted_twice_witness :
  exists m', (Resolve id_fqdn ex_rcode ex_exch (fun _ => 0) 0 ex_q false
      (NewForwarder [ex_up 1 false; ex_up 2 false] (NewCache 10 10 120 60)) (Some (newMetrics 0))).1.2 = Some m'
    /\ cacheMisses m' = 2.
Proof.
  destruct (miss_counted_twice id_fqdn ex_rcode ex_exch (fun _ => 0) 0 ex_q false
    (NewForwarder [ex_up 1 false; ex_up 2 false] (NewCache 10 10 120 60)) (newMetrics 0)) as (m' & H1 & H2 & _);
    [reflexivity|].
  exists m'. split; [exact H1|]. rewrite H2. reflexivity.
Defined.
Lemma retired_upstream_unused_witness :
  exists w, rtc (retire_step new_instances) (init_world [1]) w /\ rw_closed w = [1] /\ NoDup (rw_closed w).
Proof.
  set (w := mkRW [mkRS [1] 0 RDone; mkRS [2] 0 RLive] [1]).
  assert (H : rtc (retire_step new_instances) (init_world [1]) w).
  { eapply rtc_l; [eapply (rt_replace _ _ 0 _ [2]); [done|reflexivity|]|].
    - split; [by apply NoDup_singleton|]. intros u s Hu Hs.
      apply list_elem_of_singleton in Hu, Hs. subst. simpl. set_solver.
    - simpl. eapply rtc_l; [eapply (rt_load _ _ 0); [reflexivity|done|done]|]. simpl.
      eapply rtc_l; [eapply (rt_close _ _ 0); reflexivity|]. apply rtc_refl. }
  exists w. split; [exact H|]. split; [reflexivity|].
  refine (proj1 (retired_upstream_unused [1] _ _ H)). apply NoDup_singleton.
Defined.
