(* ===== verification/DnsServer.v ===== *)
(** * The query pipeline: [internal/dnsserver/server.go]

    [ServeDNS] from the request to the reply, the counters and the log line.  The
    message library's [Fqdn], [SetRcode], [Truncate], [IsEdns0] and the two name
    tables are parameters, the policy is a type class, and what the upstreams
    answer while a query runs is a parameter as in [DnsForward]. *)
From S2P Require Import Prelude GoStr NetIP Model Zone ZoneHolder DnsMsg DnsMetrics DnsCache DnsAuth DnsForward.
From S2P Require PolicyName Policy.

(** [net.SplitHostPort]. *)
Definition SplitHostPort (s : string) : option (string * string) :=
  let l := bytes s in
  match cut_byte ":" (rev l) with
  | None => None
  | Some (rport, rhost) =>
      let port := rev rport in
      match l with
      | "["%char :: l1 =>
          match cut_byte "]" l1 with
          | None => None
          | Some (host, rest) =>
              if bool_decide (rest = ":"%char :: port)
                 && negb (bool_decide ("["%char ∈ l1)) && negb (bool_decide ("]"%char ∈ rest))
              then Some (str host, str port) else None
          end
      | _ =>
          let host := rev rhost in
          if negb (bool_decide (":"%char ∈ host)) && negb (bool_decide ("["%char ∈ l)) && negb (bool_decide ("]"%char ∈ l))
          then Some (str host, str port) else None
      end
  end.

(** The policy's slice of the pipeline, as its interface has it. *)
Class PolicyDecider (P : Type) := pd_Decide : P -> string -> P * (bool * string * Z).
(** [policy.Service] decides through its holder. *)
#[export] Instance holder_decider (toASCII : string -> option string) : PolicyDecider Policy.Holder :=
  Policy.HolderDecide toASCII.

(** The two ends of a connection that the handler looks at. *)
Record Peer := mkPeer { p_udp : bool; p_text : string }.
Definition sourceAddr (w : Peer) : Addr :=
  match SplitHostPort (p_text w) with
  | None => AddrZero
  | Some (host, _) =>
      match ParseAddr host with
      | None => AddrZero
      | Some a => Addr.WithZone (Addr.Unmap a) ""
      end
  end.

(** A write error, with the parts of a [*net.OpError] when it is one. *)
Record WriteErr := mkWErr { we_text : string; we_op : option (string * string) }.
Definition writeErrText (err : WriteErr) (includeAddr : bool) : string :=
  if includeAddr then we_text err
  else match we_op err with
       | Some (op, inner) => op +:+ ": " +:+ inner
       | None => we_text err
       end.

Definition stripOPT (m : Msg) : Msg :=
  mkMsg (m_Opcode m) (m_Rcode m) (m_Authoritative m) (m_RecursionAvailable m) (m_AuthenticatedData m)
    (m_Question m) (m_Answer m) (m_Ns m) (List.filter (fun rr => negb (is_opt rr)) (m_Extra m)).
Definition set_flags (aa : bool) (ra : bool) (m : Msg) : Msg :=
  mkMsg (m_Opcode m) (m_Rcode m) aa ra (m_AuthenticatedData m) (m_Question m) (m_Answer m) (m_Ns m) (m_Extra m).

Record LogLine := mkLog {
  lg_qname : string; lg_qtype : string; lg_rcode : string; lg_source : string; lg_view : string;
  lg_policy : string; lg_duration : Z; lg_client : option string }.

Record Server (P : Type) := mkServer {
  s_Holder : Holder; s_ACL : ACL; s_Auth : Authoritative; s_Forwarder : option Forwarder; s_Policy : option P;
  s_metrics : Metrics; s_logQueries : bool; s_logClientIP : bool }.
Arguments mkServer {P}.
Arguments s_Holder {P}. Arguments s_ACL {P}. Arguments s_Auth {P}. Arguments s_Forwarder {P}.
Arguments s_Policy {P}. Arguments s_metrics {P}. Arguments s_logQueries {P}. Arguments s_logClientIP {P}.

(** What one call did: the message written, the labels it was filed under and
    the log line. *)
Record Served := mkServed { sv_msg : Msg; sv_source : string; sv_view : string; sv_policy : string; sv_log : option LogLine }.

Section Server.
Context {P : Type} `{PolicyDecider P}.
Context (Fqdn : string -> string) (RcodeToString TypeToString : Z -> string).
Context (SetRcode : Msg -> Msg -> Z -> Msg) (Truncate : Z -> Msg -> Msg) (IsEdns0 : Msg -> option (Z * bool)).
Context (Exchange : nat -> Upstream -> FReq -> result string (option Msg)) (clock : nat -> Z).

Definition SetLogging (queries clientIP : bool) (s : Server P) : Server P :=
  mkServer (s_Holder s) (s_ACL s) (s_Auth s) (s_Forwarder s) (s_Policy s) (s_metrics s) queries clientIP.
Definition New (h : Holder) (acl : ACL) (a : Authoritative) (f : option Forwarder) (p : option P)
    (logQueries logClientIP : bool) (now : Z) : Server P :=
  SetLogging logQueries logClientIP (mkServer h acl a f p (newMetrics now) false false).
Definition with_acl (a : ACL) (s : Server P) : Server P :=
  mkServer (s_Holder s) a (s_Auth s) (s_Forwarder s) (s_Policy s) (s_metrics s) (s_logQueries s) (s_logClientIP s).
Definition with_policy (p : P) (s : Server P) : Server P :=
  mkServer (s_Holder s) (s_ACL s) (s_Auth s) (s_Forwarder s) (Some p) (s_metrics s) (s_logQueries s) (s_logClientIP s).
Definition with_metrics (m : Metrics) (s : Server P) : Server P :=
  mkServer (s_Holder s) (s_ACL s) (s_Auth s) (s_Forwarder s) (s_Policy s) m (s_logQueries s) (s_logClientIP s).
Definition with_forwarder (f : Forwarder) (m : Metrics) (s : Server P) : Server P :=
  mkServer (s_Holder s) (s_ACL s) (s_Auth s) (Some f) (s_Policy s) m (s_logQueries s) (s_logClientIP s).

Definition clientUDPSize (r : Msg) : Z :=
  match IsEdns0 r with Some (size, _) => size | None => 512 end.
Definition blockSOA (qname : string) (ttl : Z) : DRR :=
  let n := Fqdn qname in mkDRR (mkHdr n TypeSOA ClassINET ttl) (SOAData n n 1 3600 600 604800 ttl).

Definition logQuery (s : Server P) (w : Peer) (r m : Msg) (source view policy : string) (d : Z) : option LogLine :=
  match s_logQueries s, m_Question r with
  | true, q :: _ =>
      Some (mkLog (q_Name q) (TypeToString (q_Qtype q)) (RcodeToString (m_Rcode m)) source view policy
              (Z.quot d 1000000) (if s_logClientIP s then Some (p_text w) else None))
  | _, _ => None
  end.

(** The closure every path of [ServeDNS] returns through; [start] and [finish]
    are the clock at its two readings. *)
Definition reply (start finish : Z) (w : Peer) (r : Msg) (m : Msg) (source view policy : string) (s : Server P)
    : Server P * Served :=
  let m := if p_udp w then Truncate (clientUDPSize r) m else m in
  let d := finish - start in
  let s := with_metrics (RecordQuery finish source (m_Rcode m) d (s_metrics s)) s in
  (s, mkServed m source view policy (logQuery s w r m source view policy d)).

(** The end of the pipeline, for a name that is not ours and not blocked. *)
Definition forward (start finish : Z) (w : Peer) (r : Msg) (q : Question) (view policy : string) (s : Server P)
    : Server P * Served :=
  let fail := reply start finish w r (SetRcode new_msg r RcodeServerFailure) "forward" "" "" in
  match s_Forwarder s with
  | None => fail s
  | Some f =>
      let edns := IsEdns0 r in
      let do := match edns with Some (_, do) => do | None => false end in
      let '(f, ms, res) := Resolve Fqdn RcodeToString Exchange clock start q do f (Some (s_metrics s)) in
      let s := with_forwarder f (default (s_metrics s) ms) s in
      match res with
      | Err _ => fail s
      | Ok resp =>
          let out := set_flags false true (SetRcode resp r (m_Rcode resp)) in
          let out := match edns with None => stripOPT out | Some _ => out end in
          reply start finish w r out "forward" view policy s
      end
  end.

Definition ServeDNS (start finish : Z) (w : Peer) (r : Msg) (s : Server P) : Server P * Served :=
  let fail rcode source := reply start finish w r (SetRcode new_msg r rcode) source "" "" in
  if negb (m_Opcode r =? OpcodeQuery) then fail RcodeNotImplemented "opcode" s
  else match m_Question r with
  | [q] =>
      if negb (q_Qclass q =? ClassINET) then fail RcodeRefused "class" s
      else
        let src := sourceAddr w in
        let '(acl, allowed) := Allow start (s_ACL s) src in
        let s := with_acl acl s in
        if negb allowed then fail RcodeRefused "acl" s
        else
          let snap := Current (s_Holder s) in
          let view := match snap with Some sn => Match (SMatcher sn) src | None => "" end in
          match Answer Fqdn (s_Auth s) snap view q with
          | Some m =>
              let m := SetRcode m r (m_Rcode m) in
              reply start finish w r (set_flags true (m_RecursionAvailable m) m) "authoritative" view "local" s
          | None =>
              match s_Policy s with
              | None => forward start finish w r q view "" s
              | Some p =>
                  let '(p, (blocked, decision, ttl)) := pd_Decide p (q_Name q) in
                  let s := with_policy p s in
                  if blocked then
                    let m := set_flags false true (SetRcode new_msg r RcodeNameError) in
                    reply start finish w r (with_ns m [blockSOA (q_Name q) ttl]) "blocked" view decision s
                  else forward start finish w r q view decision s
              end
          end
  | _ => fail RcodeFormatError "question" s
  end.
End Server.

(** ** What the pipeline relies on in the message library *)
Record dns_library (SetRcode : Msg -> Msg -> Z -> Msg) (Truncate : Z -> Msg -> Msg) : Prop := {
  dl_rcode : forall m r c, m_Rcode (SetRcode m r c) = c;
  dl_aa : forall m r c, m_Authoritative (SetRcode m r c) = m_Authoritative m;
  dl_answer : forall m r c, m_Answer (SetRcode m r c) = m_Answer m;
  dl_ns : forall m r c, m_Ns (SetRcode m r c) = m_Ns m;
  dl_extra : forall m r c, m_Extra (SetRcode m r c) = m_Extra m;
  dl_trunc_rcode : forall n m, m_Rcode (Truncate n m) = m_Rcode m;
  dl_trunc_aa : forall n m, m_Authoritative (Truncate n m) = m_Authoritative m;
  dl_trunc_answer : forall n m rr, rr ∈ m_Answer (Truncate n m) -> rr ∈ m_Answer m;
  dl_trunc_ns : forall n m rr, rr ∈ m_Ns (Truncate n m) -> rr ∈ m_Ns m;
  dl_trunc_extra : forall n m rr, rr ∈ m_Extra (Truncate n m) -> rr ∈ m_Extra m }.

Section Props.
Context {P : Type} `{PolicyDecider P}.
Context (Fqdn : string -> string) (RcodeToString TypeToString : Z -> string).
Context (SetRcode : Msg -> Msg -> Z -> Msg) (Truncate : Z -> Msg -> Msg) (IsEdns0 : Msg -> option (Z * bool)).
Context (Exchange : nat -> Upstream -> FReq -> result string (option Msg)) (clock : nat -> Z).
Abbreviation Serve := (ServeDNS Fqdn RcodeToString TypeToString SetRcode Truncate IsEdns0 Exchange clock).
Abbreviation Forward := (forward Fqdn RcodeToString TypeToString SetRcode Truncate IsEdns0 Exchange clock).

(** ** Lemmas *)
(** The counters of the outcomes. *)
Definition outcomes (m : Metrics) : list Z := [total m; authoritative m; forwarded m; m_blocked m; refused m; errs m].

Lemma Get_outcomes now q do c m :
  exists m', (Get Fqdn now q do c (Some m)).1.2 = Some m' /\ outcomes m' = outcomes m.
Proof. unfold Get. destruct (lookup_ _ _ _ _ _) as [c' r]. simpl. eexists. split; [reflexivity|done]. Qed.
Lemma Resolve_outcomes now q do f m :
  exists m', (Resolve Fqdn RcodeToString Exchange clock now q do f (Some m)).1.2 = Some m' /\ outcomes m' = outcomes m.
Proof.
  unfold Resolve. destruct (Get_outcomes now q do (f_cache f) m) as (m1 & E1 & O1).
  destruct (Get _ _ _ _ (f_cache f) _) as [[c1 ms1] [r1|]]; simpl in E1; subst ms1; [by exists m1|].
  destruct (Get_outcomes now q do c1 m1) as (m2 & E2 & O2). rewrite O1 in O2.
  destruct (Get _ _ _ _ c1 _) as [[c2 ms2] [r2|]]; simpl in E2; subst ms2; [by exists m2|].
  destruct (exchange _ _ _ _ _ _ _) as [st [m0|e]]; by exists m2.
Qed.

(** Every path ends in one [reply] from a server whose outcome counters and
    logging flags are the ones it started with. *)
Definition one_reply (start finish : Z) (w : Peer) (r : Msg) (s : Server P) (x : Server P * Served) : Prop :=
  exists s0 m source view policy,
    x = reply RcodeToString TypeToString Truncate IsEdns0 start finish w r m source view policy s0
    /\ outcomes (s_metrics s0) = outcomes (s_metrics s)
    /\ s_logQueries s0 = s_logQueries s /\ s_logClientIP s0 = s_logClientIP s.
Lemma reply_once start finish w r m source view policy (s0 s : Server P) :
  outcomes (s_metrics s0) = outcomes (s_metrics s) -> s_logQueries s0 = s_logQueries s -> s_logClientIP s0 = s_logClientIP s ->
  one_reply start finish w r s
    (reply RcodeToString TypeToString Truncate IsEdns0 start finish w r m source view policy s0).
Proof. intros. by exists s0, m, source, view, policy. Qed.

Lemma forward_once start finish w r q view policy (s0 s : Server P) :
  outcomes (s_metrics s0) = outcomes (s_metrics s) -> s_logQueries s0 = s_logQueries s -> s_logClientIP s0 = s_logClientIP s ->
  one_reply start finish w r s (Forward start finish w r q view policy s0).
Proof.
  intros H1 H2 H3. unfold forward. destruct (s_Forwarder s0) as [f|]; [|by apply reply_once].
  set (do := match IsEdns0 r with Some (_, do) => do | None => false end).
  destruct (Resolve_outcomes start q do f (s_metrics s0)) as (m' & E & O).
  destruct (Resolve _ _ _ _ _ _ _ _ _) as [[f' ms] [resp|e]]; simpl in E; subst ms; apply reply_once; simpl; congruence.
Qed.

Lemma serve_once start finish w r (s : Server P) : one_reply start finish w r s (Serve start finish w r s).
Proof.
  unfold ServeDNS. case_if; [by apply reply_once|].
  destruct (m_Question r) as [|q [|q2 qs]]; try by apply reply_once.
  case_if; [by apply reply_once|]. destruct (Allow _ _ _) as [acl ok]. case_if; [by apply reply_once|].
  destruct (Answer _ _ _ _ _) as [m|]; [by apply reply_once|].
  simpl. destruct (s_Policy s) as [p|]; [|by apply forward_once].
  destruct (pd_Decide p (q_Name q)) as [p' [[b dec] ttl]]. case_if; [by apply reply_once|by apply forward_once].
Qed.

(** every query gets exactly one reply and is filed exactly once: the total
    and the one counter of the reply's outcome go up by one, the others do not
    move.  Nothing is logged unless query logging is on, and a log line names the
    client only when that is on too. *)
Theorem every_query_counted_once start finish w r (s : Server P) :
  let '(s', o) := Serve start finish w r s in
  let m := s_metrics s in let m' := s_metrics s' in
  let bump k n := if decide (outcomeFor (sv_source o) = k) then inc n else n in
  total m' = inc (total m)
  /\ authoritative m' = bump outcomeAuthoritative (authoritative m) /\ forwarded m' = bump outcomeForwarded (forwarded m)
  /\ m_blocked m' = bump outcomeBlocked (m_blocked m) /\ refused m' = bump outcomeRefused (refused m)
  /\ errs m' = bump outcomeError (errs m)
  /\ lastQuery m' = unix finish
  /\ (s_logQueries s = false -> sv_log o = None)
  /\ (forall l, sv_log o = Some l -> s_logClientIP s = false -> lg_client l = None).
Proof.
  destruct (serve_once start finish w r s) as (s0 & m & src & view & pol & -> & Ho & Hq & Hc).
  unfold reply. cbv zeta. injection Ho as O1 O2 O3 O4 O5 O6. unfold logQuery. simpl.
  rewrite O1, O2, O3, O4, O5, O6, Hq, Hc. do 7 (split; [done|]). split.
  - by intros ->.
  - intros l. destruct (s_logQueries s); [|done]. destruct (m_Question r); [done|]. intros [= <-] ->. done.
Qed.

(** A well-formed query for one name. *)
Definition plain_query (r : Msg) (q : Question) : Prop :=
  m_Opcode r = OpcodeQuery /\ m_Question r = [q] /\ q_Qclass q = ClassINET.
Definition unchanged (s s' : Server P) : Prop :=
  s_Holder s' = s_Holder s /\ s_Auth s' = s_Auth s /\ s_Forwarder s' = s_Forwarder s /\ s_Policy s' = s_Policy s.

Lemma forward_state start finish w r q view policy (s : Server P) :
  let '(s', o) := Forward start finish w r q view policy s in
  s_Holder s' = s_Holder s /\ s_Policy s' = s_Policy s /\ sv_source o = "forward".
Proof.
  unfold forward. destruct (s_Forwarder s) as [f|]; [|done].
  by destruct (Resolve _ _ _ _ _ _ _ _ _) as [[f' ms] [resp|e]].
Qed.
Lemma reply_spec start finish w r m source view policy (s : Server P) :
  dns_library SetRcode Truncate ->
  let '(s', o) := reply RcodeToString TypeToString Truncate IsEdns0 start finish w r m source view policy s in
  unchanged s s' /\ sv_source o = source /\ sv_policy o = policy
  /\ m_Rcode (sv_msg o) = m_Rcode m /\ m_Authoritative (sv_msg o) = m_Authoritative m
  /\ (forall rr, rr ∈ m_Answer (sv_msg o) -> rr ∈ m_Answer m) /\ (forall rr, rr ∈ m_Ns (sv_msg o) -> rr ∈ m_Ns m)
  /\ (forall rr, rr ∈ m_Extra (sv_msg o) -> rr ∈ m_Extra m)
  /\ (m_Answer m = [] -> m_Answer (sv_msg o) = []).
Proof.
  intros L. simpl. split; [done|]. split; [done|]. split; [done|]. destruct (p_udp w); [|by split_and!].
  destruct L. split_and!; eauto. intros E. apply elem_of_nil_inv. intros x Hx.
  apply dl_trunc_answer0 in Hx. rewrite E in Hx. by apply not_elem_of_nil in Hx.
Qed.

(** A name is ours when there is a live snapshot and the name is in its zones. *)
Definition ours (s : Server P) (q : Question) : bool :=
  match Current (s_Holder s) with Some _ => Owns Fqdn (s_Auth s) (q_Name q) | None => false end.
Definition view_of (s : Server P) (w : Peer) : string :=
  match Current (s_Holder s) with Some sn => Match (SMatcher sn) (sourceAddr w) | None => "" end.
Lemma Answer_ours s view q :
  if ours s q then is_Some (Answer Fqdn (s_Auth s) (Current (s_Holder s)) view q)
  else Answer Fqdn (s_Auth s) (Current (s_Holder s)) view q = None.
Proof.
  unfold ours, Answer, Owns. destruct (Current (s_Holder s)) as [sn|]; [|done].
  destruct (owns _ _ _ _); cbn [negb]; [by eexists|done].
Qed.

(** C1: the order of the pipeline.  A client outside every allowed range is
    REFUSED before anything else is consulted.  A name inside the zones of a live
    snapshot is answered from it, whatever the policy and the upstreams would say.
    A name that is not ours is put to the policy, and a blocked one is NXDOMAIN
    with the block's SOA, without a look into the cache or at an upstream.  Only
    what is left is forwarded. *)
Theorem pipeline_order start finish w r q (s : Server P) :
  dns_library SetRcode Truncate -> plain_query r q ->
  let '(s', o) := Serve start finish w r s in
  let allowed := (Allow start (s_ACL s) (sourceAddr w)).2 in
  (allowed = false ->
     unchanged s s' /\ sv_source o = "acl" /\ m_Rcode (sv_msg o) = RcodeRefused /\ m_Answer (sv_msg o) = [])
  /\ (allowed = true -> ours s q = true ->
     unchanged s s' /\ sv_source o = "authoritative" /\ m_Authoritative (sv_msg o) = true
     /\ exists m, Answer Fqdn (s_Auth s) (Current (s_Holder s)) (view_of s w) q = Some m
          /\ m_Rcode (sv_msg o) = m_Rcode m /\ forall rr, rr ∈ m_Answer (sv_msg o) -> rr ∈ m_Answer m)
  /\ (forall p p' b decision ttl, allowed = true -> ours s q = false -> s_Policy s = Some p ->
     pd_Decide p (q_Name q) = (p', (b, decision, ttl)) ->
     s_Holder s' = s_Holder s /\ s_Policy s' = Some p' /\
     if b then
       s_Forwarder s' = s_Forwarder s /\ sv_source o = "blocked" /\ sv_policy o = decision
       /\ m_Rcode (sv_msg o) = RcodeNameError /\ m_Authoritative (sv_msg o) = false /\ m_Answer (sv_msg o) = []
       /\ forall rr, rr ∈ m_Ns (sv_msg o) -> rr = blockSOA Fqdn (q_Name q) ttl
     else sv_source o = "forward")
  /\ (allowed = true -> ours s q = false -> s_Policy s = None -> sv_source o = "forward").
Proof.
  intros L (Hop & Hq & Hcl). unfold ServeDNS. rewrite Hop, Hq, Hcl. cbn [negb Z.eqb OpcodeQuery].
  change (ClassINET =? ClassINET) with true. cbn [negb].
  destruct (Allow start (s_ACL s) (sourceAddr w)) as [acl ok]. destruct ok; cbn [negb snd].
  2:{ pose proof (reply_spec start finish w r (SetRcode new_msg r RcodeRefused) "acl" "" "" (with_acl acl s) L) as H0.
      destruct (reply _ _ _ _ _ _ _ _ _ _ _ _ _) as [s' o]. destruct H0 as (Hu & Hs & _ & Hr & _ & _ & _ & _ & Ha).
      split; [|split; [done|split; done]]. intros _. rewrite Hr, (dl_rcode _ _ L), Ha by (by rewrite (dl_answer _ _ L)). done. }
  pose proof (Answer_ours s (view_of s w) q) as Hans. unfold view_of in *.
  change (s_Auth (with_acl acl s)) with (s_Auth s). change (s_Holder (with_acl acl s)) with (s_Holder s).
  destruct (ours s q).
  { destruct Hans as [m Hm]. rewrite Hm.
    match goal with |- context [reply _ _ _ _ _ _ _ _ ?m1 _ ?v _ ?s1] =>
      pose proof (reply_spec start finish w r m1 "authoritative" v "local" s1 L) as H0 end.
    destruct (reply _ _ _ _ _ _ _ _ _ _ _ _ _) as [s' o]. destruct H0 as (Hu & Hs & _ & Hr & Haa & Ha & _).
    split; [done|]. split; [|split; done]. intros _ _. split_and!; try done. exists m. split; [done|].
    simpl in Hr, Ha. rewrite Hr, (dl_rcode _ _ L). split; [done|]. by rewrite (dl_answer _ _ L) in Ha. }
  rewrite Hans. change (s_Policy (with_acl acl s)) with (s_Policy s).
  destruct (s_Policy s) as [p|].
  2:{ pose proof (forward_state start finish w r q (match Current (s_Holder s) with Some sn => Match (SMatcher sn) (sourceAddr w) | None => "" end) "" (with_acl acl s)) as H0.
      destruct (Forward _ _ _ _ _ _ _ _) as [s' o]. destruct H0 as (_ & _ & Hs). by split_and!. }
  destruct (pd_Decide p (q_Name q)) as [p' [[b dec] ttl]] eqn:Ep. destruct b.
  - match goal with |- context [reply _ _ _ _ _ _ _ _ ?m1 _ ?v _ ?s1] =>
      pose proof (reply_spec start finish w r m1 "blocked" v dec s1 L) as H0 end.
    destruct (reply _ _ _ _ _ _ _ _ _ _ _ _ _) as [s' o]. destruct H0 as ((U1 & U2 & U3 & U4) & Hs & Hp & Hr & Haa & _ & Hns & _ & Ha).
    split; [done|]. split; [done|]. split; [|done]. intros p1 p1' b1 d1 t1 _ _ [= <-] E. rewrite Ep in E. injection E as <- <- <- <-.
    simpl in Hr, Haa, Hns, Ha. rewrite Hr, (dl_rcode _ _ L), Ha by (by rewrite (dl_answer _ _ L)).
    split_and!; try done. intros rr Hrr. by apply Hns, list_elem_of_singleton in Hrr.
  - match goal with |- context [Forward _ _ _ _ _ ?v _ ?s1] =>
      pose proof (forward_state start finish w r q v dec s1) as H0 end.
    destruct (Forward _ _ _ _ _ _ _ _) as [s' o]. destruct H0 as (Hh & Hp & Hs).
    split; [done|]. split; [done|]. split; [|done]. intros p1 p1' b1 d1 t1 _ _ [= <-] E. rewrite Ep in E. injection E as <- <- <- <-.
    done.
Qed.

(** a forwarded reply is never authoritative, offers recursion, keeps the
    upstream's rcode and answers, and hands no EDNS0 record to a client that sent
    none. *)
Theorem forwarded_reply_shape start finish w r q view policy (s : Server P) f f' ms resp :
  dns_library SetRcode Truncate ->
  s_Forwarder s = Some f ->
  Resolve Fqdn RcodeToString Exchange clock start q (match IsEdns0 r with Some (_, do) => do | None => false end) f (Some (s_metrics s))
    = (f', ms, Ok resp) ->
  let '(s', o) := Forward start finish w r q view policy s in
  s_Forwarder s' = Some f' /\ m_Authoritative (sv_msg o) = false /\ m_Rcode (sv_msg o) = m_Rcode resp
  /\ (forall rr, rr ∈ m_Answer (sv_msg o) -> rr ∈ m_Answer resp)
  /\ (IsEdns0 r = None -> forall rr, rr ∈ m_Extra (sv_msg o) -> is_opt rr = false /\ rr ∈ m_Extra resp).
Proof.
  intros L Hf Hr. unfold forward. rewrite Hf, Hr.
  match goal with |- context [reply _ _ _ _ _ _ _ _ ?m1 _ ?v _ ?s1] =>
    pose proof (reply_spec start finish w r m1 "forward" v policy s1 L) as H0 end.
  destruct (reply _ _ _ _ _ _ _ _ _ _ _ _ _) as [s' o].
  destruct H0 as ((_ & _ & U3 & _) & _ & _ & Hrc & Haa & Ha & _ & He & _).
  split; [by rewrite U3|]. destruct (IsEdns0 r) as [e|]; simpl in Hrc, Haa, Ha, He;
    rewrite ?(dl_rcode _ _ L) in Hrc; rewrite ?(dl_answer _ _ L) in Ha; rewrite ?(dl_extra _ _ L) in He; split_and!; try done.
  intros _ rr Hrr%He. apply list_elem_of_In, List.filter_In in Hrr as [Hin Ho%negb_true_iff].
  split; [done|]. by apply list_elem_of_In.
Qed.
End Props.

(** ** Witnesses *)
Definition ex_SetRcode (m r : Msg) (c : Z) : Msg :=
  mkMsg (m_Opcode r) c (m_Authoritative m) (m_RecursionAvailable m) (m_AuthenticatedData m)
    (take 1 (m_Question r)) (m_Answer m) (m_Ns m) (m_Extra m).
Definition ex_Truncate (n : Z) (m : Msg) : Msg := m.
Definition ex_IsEdns0 (m : Msg) : option (Z * bool) := if existsb is_opt (m_Extra m) then Some (1232, false) else None.
Definition ex_name (t : Z) : string := "".
Definition ex_deny : Policy.Holder :=
  Policy.mkHolder (Some (Policy.Build (mkBlSettings true 60) [] [mkBlRule 1 "deny" "ads.example"])) 0 ∅ ∅.
Definition ex_request (n : string) : Msg := mkMsg 0 0 false false false [mkQuestion n TypeA ClassINET] [] [] [].
Definition ex_peer : Peer := mkPeer true "192.168.1.7:5353".
Definition ex_server : Server Policy.Holder :=
  New holder0 (NewACL [mkPrefix (Addr4 3232235520) 16]) ex_auth
    (Some (NewForwarder [ex_up 1 false; ex_up 2 false] (NewCache 10 10 120 60))) (Some ex_deny) true false 0.
Lemma ex_library : dns_library ex_SetRcode ex_Truncate.
Proof. by constructor. Qed.
Definition ex_serve (n : string) :=
  ServeDNS (H := holder_decider Some) ex_Fqdn ex_rcode ex_name ex_SetRcode ex_Truncate ex_IsEdns0 ex_exch (fun _ => 0)
    0 1000000 ex_peer (ex_request n) ex_server.

Lemma pipeline_order_witness :
  sv_source (ex_serve "www.Ads.example.").2 = "blocked" /\ m_Rcode (sv_msg (ex_serve "www.Ads.example.").2) = RcodeNameError
  /\ s_Forwarder (ex_serve "www.Ads.example.").1 = s_Forwarder ex_server.
Proof.
  pose proof (pipeline_order (H := holder_decider Some) ex_Fqdn ex_rcode ex_name ex_SetRcode ex_Truncate ex_IsEdns0 ex_exch (fun _ => 0)
    0 1000000 ex_peer (ex_request "www.Ads.example.") (mkQuestion "www.Ads.example." TypeA ClassINET) ex_server ex_library
    ltac:(by repeat split)) as Hw.
  fold (ex_serve "www.Ads.example.") in Hw. destruct (ex_serve "www.Ads.example.") as [s' o].
  destruct Hw as (_ & _ & Hb & _).
  destruct (Hb ex_deny (Policy.HolderDecide Some ex_deny "www.Ads.example.").1 true "deny" 60) as (_ & _ & H1 & H2 & _ & H3 & _);
    [vm_compute; reflexivity|reflexivity|reflexivity|vm_compute; reflexivity|].
  split; [exact H2|]. split; [exact H3|exact H1].
Defined.
Lemma forwarded_reply_shape_witness :
  exists f' ms resp, Resolve ex_Fqdn ex_rcode ex_exch (fun _ => 0) 0 (mkQuestion "a.example." TypeA ClassINET) false
      (NewForwarder [ex_up 1 false; ex_up 2 false] (NewCache 10 10 120 60)) (Some (newMetrics 0)) = (f', ms, Ok resp)
    /\ m_Authoritative (sv_msg (forward (P := Policy.Holder) ex_Fqdn ex_rcode ex_name ex_SetRcode ex_Truncate ex_IsEdns0 ex_exch
         (fun _ => 0) 0 1000000 ex_peer (ex_request "a.example.") (mkQuestion "a.example." TypeA ClassINET) "" "" ex_server).2) = false.
Proof.
  eexists _, _, _. split; [vm_compute; reflexivity|].
  match goal with |- context [forward ?a ?b ?c ?d ?e ?f ?g ?h ?i ?j ?k ?l ?m ?n ?o ?p] =>
    pose proof (forwarded_reply_shape a b c d e f g h i j k l m n o p) as Hw end.
  specialize (Hw (NewForwarder [ex_up 1 false; ex_up 2 false] (NewCache 10 10 120 60)) _ _ _ ex_library eq_refl
    ltac:(vm_compute; reflexivity)).
  destruct (forward _ _ _ _ _ _ _ _ _ _ _ _ _ _ _ _) as [s' o]. exact (proj1 (proj2 Hw)).
Defined.
Lemma every_query_counted_once_witness :
  total (s_metrics (ex_serve "www.Ads.example.").1) = 1 /\ m_blocked (s_metrics (ex_serve "www.Ads.example.").1) = 1.
Proof.
  pose proof (every_query_counted_once (H := holder_decider Some) ex_Fqdn ex_rcode ex_name ex_SetRcode ex_Truncate ex_IsEdns0 ex_exch (fun _ => 0)
    0 1000000 ex_peer (ex_request "www.Ads.example.") ex_server) as Hw.
  fold (ex_serve "www.Ads.example.") in Hw.
  assert (Hs : sv_source (ex_serve "www.Ads.example.").2 = "blocked") by (vm_compute; reflexivity).
  destruct (ex_serve "www.Ads.example.") as [s' o]. simpl in Hs. rewrite Hs in Hw.
  destruct Hw as (H1 & _ & _ & H2 & _). split; [exact H1|exact H2].
Defined.
