(* ===== verification/PolicyService.v ===== *)
(** * The blacklist service: [internal/policy/service.go], [manifest.go], [refresher.go] and [fetch.go]

    The operations both transports call, over the store and the live policy.
    Parsing of URLs, the HTTP client and the punycode conversion are parameters;
    an HTTP exchange is a function of the request.  Log lines are left out. *)
From S2P Require Import Prelude GoStr Model PolicyName PolicyParse Policy Store.

Definition minInterval : Z := 300.
Definition defaultInterval : Z := 86400.
Definition maxBlockTTL : Z := 3600.

(** [registry.Invalid]: the field and the code; [Dup], a duplicate or another
    refusal of the store. *)
Inductive policy_error := Invalid (field code : string) | StoreFailed (e : store_error) | BadManifest | RefreshFailed (msg : string).
Definition of_store {A} (r : result store_error A) : result policy_error A :=
  match r with Ok a => Ok a | Err e => Err (StoreFailed e) end.

(** ** manifest.go *)
Record Builtin := mkBuiltin {
  bi_Name : string; bi_Description : string; bi_URL : string; bi_Format : string; bi_License : string;
  bi_Attribution : string; bi_IntervalSeconds : Z }.
Record Manifest := mkManifest { mf_Version : Z; mf_Lists : list Builtin }.
(** [builtin.json], decoded. *)
Definition builtinJSON : Manifest :=
  mkManifest 1 [mkBuiltin "steven-black"
    "Unified hosts file: adware and malware domains, consolidated from several maintained sources."
    "https://raw.githubusercontent.com/StevenBlack/hosts/master/hosts" "hosts" "MIT" "StevenBlack/hosts contributors" 86400].
Definition builtin_ok (b : Builtin) : bool :=
  negb (bool_decide (bi_Name b = "") || bool_decide (bi_License b = "") || bool_decide (bi_Attribution b = ""))
  && ValidFormat (bi_Format b) && (0 <? bi_IntervalSeconds b).
Definition BuiltinManifest (m : Manifest) : result policy_error Manifest :=
  if mf_Version m <? 1 then Err BadManifest
  else if forallb builtin_ok (mf_Lists m) then Ok m else Err BadManifest.
Definition of_builtin (b : Builtin) : BlacklistList :=
  mkBlList 0 (bi_Name b) (bi_URL b) (bi_Format b)
    (bi_Description b +:+ " (" +:+ bi_License b +:+ ", " +:+ bi_Attribution b +:+ ")")
    true true (bi_IntervalSeconds b) 0 0 "" "" "" 0 0 [].
(** The loop stops at the first error and keeps what it inserted before. *)
Fixpoint seed (known : list string) (bs : list Builtin) (db : DB) : DB * result policy_error unit :=
  match bs with
  | [] => (db, Ok tt)
  | b :: bs' =>
      if bool_decide (bi_Name b ∈ known) then seed known bs' db
      else match PutBlacklistList (of_builtin b) db with
           | (db, Ok _) => seed known bs' db
           | (db, Err e) => (db, Err (StoreFailed e))
           end
  end.
Definition SeedBuiltins (m : Manifest) (db : DB) : DB * result policy_error unit :=
  match BuiltinManifest m with
  | Err e => (db, Err e)
  | Ok m => seed (bl_Name <$> BlacklistListMetas db) (mf_Lists m) db
  end.

(** ** fetch.go *)
Definition MaxListBytes : Z := Z.shiftl 32 20.
Definition maxRedirects : nat := 5.
Definition userAgent : string := "kydns".
(** The parts of a [*url.URL] the program looks at. *)
Record URL := mkURL { u_Scheme : string; u_Host : string; u_User : option string }.
Record HTTPRequest := mkHTTPReq { hr_URL : string; hr_Headers : list (string * string) }.
(** A response, with what reading its body yields: the bytes, and the error that
    ended the reading early. *)
Record HTTPResponse := mkResp { rs_Code : Z; rs_Status : string; rs_ETag : string; rs_LastModified : string;
                                rs_Body : list ascii; rs_ReadErr : option string }.
Record FetchResult := mkFetch { fr_Body : list ascii; fr_ETag : string; fr_LastModified : string; fr_NotModified : bool }.
(** [CheckRedirect]: [None] lets the redirect happen. *)
Definition CheckRedirect (scheme : string) (via : nat) : option string :=
  if (maxRedirects <=? via)%nat then Some "stopped after 5 redirects"
  else if negb (bool_decide (scheme = "https")) then Some ("redirect to a non-https URL (" +:+ scheme +:+ ")")
  else None.

(** The state the service works on. *)
Record PolicyWorld := mkPW { pw_db : DB; pw_holder : Policy.Holder }.

Section Service.
Context (toASCII : string -> option string) (url_Parse : string -> option URL).
Context (manifest : Manifest).
Context (HTTPDo : HTTPRequest -> result string HTTPResponse).

Definition fetch_headers (etag lastModified : string) : list (string * string) :=
  [("User-Agent", userAgent); ("Accept", "text/plain")]
  ++ (if bool_decide (etag <> "") then [("If-None-Match", etag)] else [])
  ++ (if bool_decide (lastModified <> "") then [("If-Modified-Since", lastModified)] else []).
(** Reading stops one byte past the ceiling. *)
Definition Fetch (maxBytes : Z) (rawURL etag lastModified : string) : result string FetchResult :=
  match url_Parse rawURL with
  | None => Err "parse"
  | Some u =>
      if negb (bool_decide (u_Scheme u = "https")) then Err "a list URL must be https"
      else match HTTPDo (mkHTTPReq rawURL (fetch_headers etag lastModified)) with
      | Err e => Err ("download failed: " +:+ e)
      | Ok resp =>
          if rs_Code resp =? 304 then Ok (mkFetch [] "" "" true)
          else if negb (rs_Code resp =? 200) then Err ("status " +:+ rs_Status resp)
          else
            let body := take (Z.to_nat (maxBytes + 1)) (rs_Body resp) in
            match (if Z.of_nat (length (rs_Body resp)) <=? maxBytes then rs_ReadErr resp else None) with
            | Some e => Err e
            | None =>
                if maxBytes <? Z.of_nat (length body) then Err "list exceeds the ceiling"
                else Ok (mkFetch body (rs_ETag resp) (rs_LastModified resp) false)
            end
      end
  end.

(** ** The live policy *)
Definition rebuild (w : PolicyWorld) : PolicyWorld * result policy_error unit :=
  let db := pw_db w in
  (mkPW db (Policy.Rebuild (E := store_error) (Ok (GetBlacklistSettings db, BlacklistLists db, BlacklistRules db)) (pw_holder w)).1, Ok tt).
Definition write {A} (f : DB -> DB * result store_error A) (w : PolicyWorld) : PolicyWorld * result policy_error A :=
  let '(db, r) := f (pw_db w) in (mkPW db (pw_holder w), of_store r).
(** [id, err := write; if err != nil { return err }; return id, h.Rebuild()]. *)
Definition write_rebuild {A} (f : DB -> DB * result store_error A) (w : PolicyWorld) : PolicyWorld * result policy_error A :=
  match write f w with
  | (w, Ok a) => ((rebuild w).1, Ok a)
  | (w, Err e) => (w, Err e)
  end.

(** ** refresher.go *)
Definition parse_error_text (e : parse_error) : string :=
  match e with UnknownFormat f => "format " +:+ f | EntryCeiling => "entry ceiling" end.
(** [refresh] reports whether the attempt succeeded and whether the body changed. *)
Definition refresh (at_ : Z) (l : BlacklistList) (db : DB) : DB * (bool * bool) :=
  let fail cause := ((SetBlacklistError (bl_ID l) cause at_ db).1, (false, false)) in
  match Fetch MaxListBytes (bl_URL l) (bl_ETag l) (bl_LastModified l) with
  | Err e => fail e
  | Ok res =>
      if fr_NotModified res then ((TouchBlacklistAttempt (bl_ID l) at_ db).1, (true, false))
      else match Parse toASCII (fr_Body res) (bl_Format l) with
      | None => fail "parse"
      | Some (Err e) => fail (parse_error_text e)
      | Some (Ok parsed) =>
          if bool_decide (Domains parsed = []) then fail "no usable domains in the downloaded body"
          else match SetBlacklistSnapshot (bl_ID l) (Domains parsed) (Skipped parsed) (fr_ETag res) (fr_LastModified res) at_ db with
               | (db, Ok _) => (db, (true, true))
               | (_, Err _) => fail "not found"
               end
      end
  end.
Definition due (now : Z) (l : BlacklistList) : bool :=
  bl_Enabled l && negb (now - bl_LastAttemptAt l <? bl_IntervalSeconds l).
Fixpoint refresh_loop (clock : BlacklistList -> Z) (sel : BlacklistList -> bool) (ls : list BlacklistList) (db : DB) (changed : bool) (failed : list string)
    : DB * bool * list string :=
  match ls with
  | [] => (db, changed, failed)
  | l :: ls' =>
      if negb (sel l) then refresh_loop clock sel ls' db changed failed
      else let '(db, (ok, c)) := refresh (clock l) l db in
           refresh_loop clock sel ls' db (changed || c) (if ok then failed else failed ++ [bl_Name l])
  end.
(** [now] is the clock at the start of the round, [clock] when each list is tried. *)
Definition RefreshDue (now : Z) (clock : BlacklistList -> Z) (w : PolicyWorld) : PolicyWorld :=
  let '(db, changed, _) := refresh_loop clock (due now) (BlacklistListMetas (pw_db w)) (pw_db w) false [] in
  let w := mkPW db (pw_holder w) in
  if changed then (rebuild w).1 else w.
Definition RefreshAll (clock : BlacklistList -> Z) (w : PolicyWorld) : PolicyWorld * list string :=
  let '(db, _, failed) := refresh_loop clock bl_Enabled (BlacklistListMetas (pw_db w)) (pw_db w) false [] in
  ((rebuild (mkPW db (pw_holder w))).1, failed).
Definition RefreshList (now : Z) (id : Z) (w : PolicyWorld) : PolicyWorld * result policy_error unit :=
  match BlacklistListByID (pw_db w) id with
  | Err e => (w, Err (StoreFailed e))
  | Ok l =>
      let '(db, (ok, _)) := refresh now l (pw_db w) in
      let w := mkPW db (pw_holder w) in
      if negb ok then
        (w, Err (RefreshFailed (match BlacklistListByID db id with
                                | Ok l => if bool_decide (bl_LastError l <> "") then bl_LastError l else "refresh failed"
                                | Err _ => "refresh failed" end)))
      else rebuild w
  end.

(** ** service.go *)
Definition SetSettings (enabled : bool) (blockTTL : Z) (w : PolicyWorld) : PolicyWorld * result policy_error unit :=
  if (blockTTL <? 1) || (maxBlockTTL <? blockTTL) then (w, Err (Invalid "block_ttl" "block_ttl_range"))
  else write_rebuild (SetBlacklistSettings (mkBlSettings enabled blockTTL)) w.

Definition validListURL (raw : string) : option policy_error :=
  if bool_decide (raw = "") then Some (Invalid "url" "url_required")
  else match url_Parse raw with
  | None => Some (Invalid "url" "url_invalid")
  | Some u =>
      if negb (bool_decide (u_Scheme u = "https")) then Some (Invalid "url" "url_not_https")
      else if bool_decide (u_Host u = "") then Some (Invalid "url" "url_invalid")
      else if bool_decide (u_User u <> None) then Some (Invalid "url" "url_has_credentials")
      else None
  end.
Definition reserved (name : string) : bool := bool_decide (name ∈ [PolicyAllow; PolicyDeny; PolicyForwarded]).
Definition with_definition (l : BlacklistList) (name url format description : string) (interval : Z) : BlacklistList :=
  mkBlList (bl_ID l) name url format description (bl_Enabled l) (bl_Builtin l) interval (bl_LastAttemptAt l) (bl_LastOKAt l)
    (bl_LastError l) (bl_ETag l) (bl_LastModified l) (bl_EntryCount l) (bl_SkippedCount l) (bl_Snapshot l).
Definition with_builtin (b : bool) (l : BlacklistList) : BlacklistList :=
  mkBlList (bl_ID l) (bl_Name l) (bl_URL l) (bl_Format l) (bl_Description l) (bl_Enabled l) b (bl_IntervalSeconds l)
    (bl_LastAttemptAt l) (bl_LastOKAt l) (bl_LastError l) (bl_ETag l) (bl_LastModified l) (bl_EntryCount l) (bl_SkippedCount l)
    (bl_Snapshot l).
Definition validateList (l : BlacklistList) : result policy_error BlacklistList :=
  let name := ToLower (TrimSpace (bl_Name l)) in
  let url := TrimSpace (bl_URL l) in
  let format := ToLower (TrimSpace (bl_Format l)) in
  let description := TrimSpace (bl_Description l) in
  if bool_decide (name = "") then Err (Invalid "name" "name_required")
  else if reserved name then Err (Invalid "name" "name_reserved")
  else match validListURL url with
  | Some e => Err e
  | None =>
      let format := if bool_decide (format = "") then FormatDomains else format in
      if negb (ValidFormat format) then Err (Invalid "format" "format_unsupported")
      else
        let interval := if bl_IntervalSeconds l =? 0 then defaultInterval else bl_IntervalSeconds l in
        if interval <? minInterval then Err (Invalid "interval_seconds" "interval_too_short")
        else Ok (with_definition l name url format description interval)
  end.

Definition PutList (l : BlacklistList) (w : PolicyWorld) : PolicyWorld * result policy_error Z :=
  match validateList l with
  | Err e => (w, Err e)
  | Ok l =>
      if bl_ID l =? 0 then write_rebuild (PutBlacklistList (with_builtin false l)) w
      else match BlacklistListByID (pw_db w) (bl_ID l) with
      | Err e => (w, Err (StoreFailed e))
      | Ok cur =>
          if bl_Builtin cur && (bool_decide (bl_URL l <> bl_URL cur) || bool_decide (bl_Name l <> bl_Name cur))
          then (w, Err (Invalid "url" "builtin_immutable"))
          else write_rebuild (PutBlacklistList (with_builtin (bl_Builtin cur) l)) w
      end
  end.
Definition DeleteList (id : Z) (w : PolicyWorld) : PolicyWorld * result policy_error unit :=
  match BlacklistListByID (pw_db w) id with
  | Err e => (w, Err (StoreFailed e))
  | Ok cur =>
      if bl_Builtin cur then (w, Err (Invalid "id" "builtin_immutable"))
      else write_rebuild (DeleteBlacklistList id) w
  end.
(** The kind and the domain of a rule, as written. *)
Definition validateRule (kind domain : string) : result policy_error (string * string) :=
  let kind := ToLower (TrimSpace kind) in
  if negb (bool_decide (kind = PolicyAllow)) && negb (bool_decide (kind = PolicyDeny)) then Err (Invalid "kind" "kind_invalid")
  else match Normalize toASCII domain with
  | None => Err (Invalid "domain" "domain_invalid")
  | Some n => Ok (kind, n)
  end.
Definition AddRule (kind domain : string) (w : PolicyWorld) : PolicyWorld * result policy_error Z :=
  match validateRule kind domain with
  | Err e => (w, Err e)
  | Ok (kind, n) => write_rebuild (PutBlacklistRule (mkBlRule 0 kind n)) w
  end.
Definition DeleteRule (id : Z) (w : PolicyWorld) : PolicyWorld * result policy_error unit :=
  write_rebuild (DeleteBlacklistRule id) w.
Definition TestName (name : string) (w : PolicyWorld) : result policy_error Decision :=
  match Normalize toASCII name with
  | None => Err (Invalid "name" "name_invalid")
  | Some n => Ok (Decide toASCII (cur (pw_holder w)) n)
  end.
(** The final rebuild comes after the import is committed and the built-ins are
    seeded again, which is a separate step. *)
Definition ReplacePolicy (set : BlacklistSettings) (ls : list BlacklistList) (rules : list BlacklistRule) (w : PolicyWorld)
    : PolicyWorld * result policy_error unit :=
  if (bs_BlockTTL set <? 1) || (maxBlockTTL <? bs_BlockTTL set) then (w, Err (Invalid "block_ttl" "block_ttl_range"))
  else match BuiltinManifest manifest with
  | Err e => (w, Err e)
  | Ok m =>
      let names := bi_Name <$> mf_Lists m in
      match mapR (fun l => v <-? validateList l ;; Ok (with_builtin (bool_decide (bl_Name v ∈ names)) v)) ls with
      | Err e => (w, Err e)
      | Ok ls =>
          match mapR (fun r => x <-? validateRule (br_Kind r) (br_Domain r) ;; Ok (mkBlRule 0 x.1 x.2)) rules with
          | Err e => (w, Err e)
          | Ok rules =>
              match write (ReplaceBlacklist set ls rules) w with
              | (w, Err e) => (w, Err e)
              | (w, Ok _) =>
                  match SeedBuiltins manifest (pw_db w) with
                  | (db, Err e) => (mkPW db (pw_holder w), Err e)
                  | (db, Ok _) => rebuild (mkPW db (pw_holder w))
                  end
              end
          end
      end
  end.
End Service.
