(* ===== verification/PolicyServiceProps.v ===== *)
(** * What the blacklist service promises

    A refresh keeps the last good body; every change goes through the store and
    into the live policy, or changes nothing; what is stored stays valid. *)
From S2P Require Import Prelude GoStr Model PolicyName PolicyParse Policy Store StoreWf PolicyService.

(** ** Lemmas *)
(** What the live policy uses of a list. *)
Definition policy_part (l : BlacklistList) := (bl_Builtin l, bl_Name l, bl_Enabled l, bl_Snapshot l).
Lemma Build_ext set ls ls' rules : policy_part <$> ls = policy_part <$> ls' -> Build set ls rules = Build set ls' rules.
Proof.
  intros H. unfold Build. f_equal. revert ls' H. induction ls as [|l ls IH]; intros [|l' ls'] H; try done.
  injection H as H1 H2 H3 H4 H5. rewrite !omap_cons, H2, H3, H4, (IH ls') by done. done.
Qed.
Lemma lists_policy_part f db db' :
  (forall l, policy_part (f l) = policy_part l) -> c_lists (conf db') = f <$> c_lists (conf db) ->
  policy_part <$> BlacklistLists db' = policy_part <$> BlacklistLists db.
Proof.
  intros Hf Hc. unfold BlacklistLists. rewrite Hc, (merge_sort_fmap list_le list_le f), <- list_fmap_compose.
  - apply list_fmap_ext. intros i l _. apply Hf.
  - intros x y. unfold list_le. specialize (Hf x) as Hx. specialize (Hf y) as Hy. unfold policy_part in *.
    injection Hx as -> -> _ _. injection Hy as -> -> _ _. done.
Qed.

Section Props.
Context (toASCII : string -> option string) (url_Parse : string -> option URL) (manifest : Manifest).
Context (HTTPDo : HTTPRequest -> result string HTTPResponse).
Abbreviation refresh' := (refresh toASCII url_Parse HTTPDo).
Abbreviation Fetch' := (Fetch url_Parse HTTPDo).

(** ** Refreshing *)
(** The database after an attempt that brought no new body: the row of the list
    has new attempt columns, everything else is as it was. *)
Definition attempt_only (id : Z) (db db' : DB) : Prop :=
  node db' = node db /\ exists at_ ok err,
    conf db' = with_lists (conf db) ((fun o => if bl_ID o =? id then with_attempt o at_ (ok o) err else o) <$> c_lists (conf db)) 0
    /\ (err <> "" -> forall o, ok o = bl_LastOKAt o).
Definition new_body (id : Z) (parsed : ParseResult) (etag lm : string) (db db' : DB) : Prop :=
  node db' = node db /\ exists at_,
    conf db' = with_lists (conf db) ((fun o => if bl_ID o =? id then with_body o (Domains parsed) (Skipped parsed) etag lm at_ else o) <$> c_lists (conf db)) 0.

Lemma update_lists_same f c :
  (forall l, list_definition (f l) = list_definition l) -> update_lists f c = with_lists c (f <$> c_lists c) 0.
Proof.
  intros Hf. unfold update_lists. f_equal. unfold cnt.
  assert (filter (fun l => list_definition l <> list_definition (f l)) (c_lists c) = []) as ->; [|done].
  apply elem_of_nil_inv. intros l [Hl _]%list_elem_of_filter. by rewrite Hf in Hl.
Qed.
Lemma update_row_same id g c :
  (forall l, list_definition (g l) = list_definition l) ->
  update_lists (fun o => if bl_ID o =? id then g o else o) c
  = with_lists c ((fun o => if bl_ID o =? id then g o else o) <$> c_lists c) 0.
Proof. intros Hg. apply update_lists_same. intros l. by destruct (_ =? _). Qed.

Lemma SetBlacklistError_spec id msg at_ db : attempt_only id db (SetBlacklistError id msg at_ db).1.
Proof.
  split; [done|]. exists at_, bl_LastOKAt, msg. split; [|done]. unfold SetBlacklistError, tx. simpl.
  by apply (update_row_same id (fun o => with_attempt o at_ (bl_LastOKAt o) msg)).
Qed.

(** The two ways a refresh ends: the body stays, or a non-empty download that
    parsed replaces it. *)
Lemma refresh_spec at_ l db :
  let '(db', (ok, changed)) := refresh' at_ l db in
  if changed then
    ok = true /\ exists res parsed, Fetch' MaxListBytes (bl_URL l) (bl_ETag l) (bl_LastModified l) = Ok res
      /\ Parse toASCII (fr_Body res) (bl_Format l) = Some (Ok parsed) /\ Domains parsed <> []
      /\ bl_ID l ∈ bl_ID <$> c_lists (conf db)
      /\ new_body (bl_ID l) parsed (fr_ETag res) (fr_LastModified res) db db'
  else attempt_only (bl_ID l) db db'.
Proof.
  unfold refresh. destruct (Fetch' _ _ _ _) as [res|e]; [|apply SetBlacklistError_spec].
  destruct (fr_NotModified res).
  { split; [done|]. exists at_, (fun _ => at_), "". split; [|done]. unfold TouchBlacklistAttempt, tx. simpl.
    by apply (update_row_same _ (fun o => with_attempt o at_ at_ "")). }
  destruct (Parse _ _ _) as [[parsed|e]|] eqn:Ep; try apply SetBlacklistError_spec.
  case_bool_decide as Hd; [apply SetBlacklistError_spec|].
  unfold SetBlacklistSnapshot, tx. case_bool_decide as Hin; [|apply SetBlacklistError_spec].
  split; [done|]. exists res, parsed. split_and!; try done. split; [done|]. exists at_. simpl.
  by apply (update_row_same _ (fun o => with_body o (Domains parsed) (Skipped parsed) (fr_ETag res) (fr_LastModified res) at_)).
Qed.

(** a refresh never costs a list its last good body: unless a download
    arrived, parsed and named at least one domain, the stored bodies, their
    validators and every definition stay as they were (only the attempt columns of
    the list itself move), so the policy built from the store is the same; when one
    did, the list's body is what the download parsed to.  Either way the replicated
    configuration and its version do not change. *)
Theorem refresh_keeps_last_good_body at_ l db set rules :
  let '(db', (ok, changed)) := refresh' at_ l db in
  c_version (conf db') = c_version (conf db) /\ list_definition <$> c_lists (conf db') = list_definition <$> c_lists (conf db)
  /\ (changed = false ->
      (fun o => (bl_ID o, bl_Snapshot o, bl_ETag o, bl_LastModified o, bl_EntryCount o)) <$> c_lists (conf db')
        = (fun o => (bl_ID o, bl_Snapshot o, bl_ETag o, bl_LastModified o, bl_EntryCount o)) <$> c_lists (conf db)
      /\ Build set (BlacklistLists db') rules = Build set (BlacklistLists db) rules)
  /\ (changed = true -> exists res parsed,
      Fetch' MaxListBytes (bl_URL l) (bl_ETag l) (bl_LastModified l) = Ok res
      /\ Parse toASCII (fr_Body res) (bl_Format l) = Some (Ok parsed) /\ Domains parsed <> []
      /\ forall o, o ∈ c_lists (conf db') -> bl_ID o = bl_ID l -> bl_Snapshot o = repack (Domains parsed)).
Proof.
  pose proof (refresh_spec at_ l db) as H. destruct (refresh' at_ l db) as [db' [ok changed]].
  assert (Hext : forall (X : Type) (g : BlacklistList -> X) f (ls : list BlacklistList), (forall o, g (f o) = g o) -> g <$> (f <$> ls) = g <$> ls).
  { intros X g f ls Hg. rewrite <- list_fmap_compose. apply list_fmap_ext. intros i o _. apply Hg. }
  destruct changed.
  - destruct H as (-> & res & parsed & H1 & H2 & H3 & H4 & _ & t & ->). simpl.
    split; [lia|]. split; [apply Hext; intros o; by destruct (_ =? _)|]. split; [done|]. intros _.
    exists res, parsed. split_and!; try done. intros o (o' & -> & _)%list_elem_of_fmap Ho.
    destruct (bl_ID o' =? bl_ID l) eqn:E; [done|]. bool_to_prop. congruence.
  - destruct H as (_ & t & okf & err & Hc & _). rewrite Hc. simpl.
    split; [lia|]. split; [apply Hext; intros o; by destruct (_ =? _)|]. split; [|done]. intros _.
    split; [apply Hext; intros o; by destruct (_ =? _)|]. apply Build_ext.
    apply (lists_policy_part (fun o => if bl_ID o =? bl_ID l then with_attempt o t (okf o) err else o)).
    + intros o. by destruct (_ =? _).
    + by rewrite Hc.
Qed.

(** ** What the service keeps true *)
Record list_ok (l : BlacklistList) : Prop := {
  lo_name : ToLower (TrimSpace (bl_Name l)) = bl_Name l;
  lo_nonempty : bl_Name l <> "";
  lo_reserved : reserved (bl_Name l) = false;
  lo_url : validListURL url_Parse (bl_URL l) = None;
  lo_format : ValidFormat (bl_Format l) = true;
  lo_interval : minInterval <= bl_IntervalSeconds l }.
Definition rule_ok (r : BlacklistRule) : Prop :=
  (br_Kind r = PolicyAllow \/ br_Kind r = PolicyDeny) /\ exists s, Normalize toASCII s = Some (br_Domain r).
Record policy_ok (c : Conf) : Prop := {
  po_wf : wf_conf c;
  po_ttl : 1 <= bs_BlockTTL (c_blset c) <= maxBlockTTL;
  po_lists : forall l, l ∈ c_lists c -> list_ok l;
  po_rules : forall r, r ∈ c_rules c -> rule_ok r }.
(** The policy that answers queries is the one the store describes. *)
Definition live (w : PolicyWorld) : Prop :=
  cur (pw_holder w) = Some (Build (GetBlacklistSettings (pw_db w)) (BlacklistLists (pw_db w)) (BlacklistRules (pw_db w))).
Definition world_ok (w : PolicyWorld) : Prop := policy_ok (conf (pw_db w)) /\ live w.

Lemma rebuild_live w : live (rebuild w).1 /\ pw_db (rebuild w).1 = pw_db w.
Proof. done. Qed.

Lemma validateList_ok l l' : validateList url_Parse l = Ok l' -> list_ok l' /\ bl_ID l' = bl_ID l /\ bl_URL l' = TrimSpace (bl_URL l).
Proof.
  unfold validateList. cbv zeta. case_bool_decide as Hn; [done|]. destruct (reserved _) eqn:Hr; [done|].
  destruct (validListURL url_Parse _) eqn:Hu; [done|].
  destruct (ValidFormat _) eqn:Hf; [|done]. cbn [negb]. destruct (_ <? minInterval) eqn:Hi; [done|]. intros [= <-].
  split; [|done]. constructor; simpl; try done; [|by bool_to_prop].
  by rewrite TrimSpace_ToLower, TrimSpace_idemp, ToLower_idemp.
Qed.
Lemma with_builtin_ok b l : list_ok l -> list_ok (with_builtin b l).
Proof. by intros []. Qed.
(** Validity looks at the definition only. *)
Lemma list_ok_definition l l' :
  bl_Name l' = bl_Name l -> bl_URL l' = bl_URL l -> bl_Format l' = bl_Format l ->
  bl_IntervalSeconds l' = bl_IntervalSeconds l -> list_ok l -> list_ok l'.
Proof. intros H1 H2 H3 H4 []. constructor; by rewrite ?H1, ?H2, ?H3, ?H4. Qed.
Lemma validateRule_ok k d x id : validateRule toASCII k d = Ok x -> rule_ok (mkBlRule id x.1 x.2).
Proof.
  unfold validateRule. destruct (negb _ && _) eqn:Hk; [done|]. destruct (Normalize toASCII d) as [n|] eqn:Hn; [|done].
  intros [= <-]. split; [|by exists d]. simpl. apply andb_false_iff in Hk as [Hk|Hk]; bool_to_prop; auto.
Qed.

Lemma write_rebuild_ok {A} (f : Conf -> result store_error (A * Conf)) w :
  world_ok w -> (forall x, f (conf (pw_db w)) = Ok x -> policy_ok x.2) -> world_ok (write_rebuild (tx f) w).1.
Proof.
  intros Hw Hf. unfold write_rebuild, write, tx. destruct (f (conf (pw_db w))) as [[a c]|e]; simpl.
  - split; [exact (Hf _ eq_refl)|done].
  - by destruct w.
Qed.

(** *** Each store operation on valid input *)
Lemma setBlSettings_ok b c : policy_ok c -> 1 <= bs_BlockTTL b <= maxBlockTTL -> policy_ok (setBlSettings b c).
Proof. intros [] Hb. constructor; simpl; try done. by apply setBlSettings_wf. Qed.
Lemma insert_list_ok l c x : policy_ok c -> list_ok l -> insert_list l c = Ok x -> policy_ok x.2.
Proof.
  intros Hc Hl Hx. pose proof (insert_list_wf _ _ _ (po_wf c Hc) Hx) as Hw. unfold insert_list in Hx.
  case_bool_decide; [done|]. injection Hx as <-. destruct Hc. constructor; simpl; try done.
  intros o [Ho|Ho%list_elem_of_singleton]%elem_of_app; [auto|]. subst. by apply (list_ok_definition l).
Qed.
Lemma putBlacklistList_ok l c x : policy_ok c -> list_ok l -> putBlacklistList l c = Ok x -> policy_ok x.2.
Proof.
  intros Hc Hl Hx. pose proof (putBlacklistList_wf _ _ _ (po_wf c Hc) Hx) as Hw. unfold putBlacklistList in Hx.
  case_if; [by eapply insert_list_ok|]. destruct (existsb _ _ && _); [done|]. case_bool_decide; [|done].
  injection Hx as <-. destruct Hc. constructor; simpl; try done.
  intros o (o' & -> & Ho)%list_elem_of_fmap. destruct (bl_ID o' =? bl_ID l); [|auto]. by apply (list_ok_definition l).
Qed.
Lemma deleteList_ok id c x : policy_ok c -> deleteList id c = Ok x -> policy_ok x.2.
Proof.
  intros Hc. unfold deleteList. case_bool_decide; [|done]. intros [= <-]. destruct Hc.
  constructor; simpl; try done; [by apply filter_lists_wf|]. intros l [_ Hl]%list_elem_of_filter. auto.
Qed.
Lemma putRule_ok r c x : policy_ok c -> (forall id, rule_ok (mkBlRule id (br_Kind r) (br_Domain r))) -> putRule r c = Ok x -> policy_ok x.2.
Proof.
  intros Hc Hr Hx. pose proof (putRule_wf _ _ _ (po_wf c Hc) Hx) as Hw. unfold putRule in Hx. case_bool_decide; [done|].
  injection Hx as <-. destruct Hc. constructor; simpl; try done.
  intros o [Ho|Ho%list_elem_of_singleton]%elem_of_app; [auto|]. subst. apply Hr.
Qed.
Lemma deleteRule_ok id c x : policy_ok c -> deleteRule id c = Ok x -> policy_ok x.2.
Proof.
  intros Hc Hx. unfold deleteRule in Hx. case_bool_decide; [|done]. injection Hx as <-. destruct Hc as [Hw Ht Hl Hr].
  constructor; simpl; try done; [destruct Hw; constructor; simpl; try done; by apply NoDup_fmap_filter'|].
  intros r [_ Hin]%list_elem_of_filter. auto.
Qed.
Lemma import_list_ok rows l c c' : policy_ok c -> list_ok l -> import_list rows c l = Ok c' -> policy_ok c'.
Proof.
  intros Hc Hl Hx. pose proof (import_list_wf _ _ _ _ (po_wf c Hc) Hx) as Hw. unfold import_list in Hx.
  case_bool_decide; [done|]. injection Hx as <-. destruct Hc. constructor; simpl; try done.
  intros o [Ho|Ho%list_elem_of_singleton]%elem_of_app; [auto|]. subst.
  apply (list_ok_definition l); try done; unfold kept_body; by destruct (last _).
Qed.
Lemma update_row_ok id f k c :
  (forall o, bl_ID (f o) = bl_ID o /\ bl_Name (f o) = bl_Name o /\ bl_URL (f o) = bl_URL o /\ bl_Format (f o) = bl_Format o
     /\ bl_IntervalSeconds (f o) = bl_IntervalSeconds o) ->
  policy_ok c -> policy_ok (with_lists c ((fun o => if bl_ID o =? id then f o else o) <$> c_lists c) k).
Proof.
  intros Hf []. constructor; simpl; try done.
  - destruct po_wf0. constructor; simpl; try done; rewrite <- list_fmap_compose;
      (erewrite list_fmap_ext; [eassumption|]; intros i o _; simpl; destruct (_ =? _); [apply Hf|done]).
  - intros o (o' & -> & Ho)%list_elem_of_fmap. destruct (_ =? _); [|auto].
    destruct (Hf o') as (H1 & H2 & H3 & H4 & H5). by apply (list_ok_definition o'); auto.
Qed.

(** *** Refreshing keeps it *)
Lemma refresh_ok at_ l db : policy_ok (conf db) ->
  let '(db', (_, changed)) := refresh' at_ l db in
  policy_ok (conf db')
  /\ GetBlacklistSettings db' = GetBlacklistSettings db /\ BlacklistRules db' = BlacklistRules db
  /\ (changed = false -> policy_part <$> BlacklistLists db' = policy_part <$> BlacklistLists db).
Proof.
  intros Hok. pose proof (refresh_spec at_ l db) as H. destruct (refresh' at_ l db) as [db' [ok changed]]. destruct changed.
  - destruct H as (_ & res & parsed & _ & _ & _ & _ & _ & t & Hc). unfold GetBlacklistSettings, BlacklistRules.
    rewrite Hc. split; [by apply update_row_ok|done].
  - destruct H as (_ & t & okf & err & Hc & _). unfold GetBlacklistSettings, BlacklistRules. rewrite Hc.
    split; [by apply (update_row_ok (bl_ID l) (fun o => with_attempt o t (okf o) err))|]. split; [done|]. split; [done|]. intros _.
    apply (lists_policy_part (fun o => if bl_ID o =? bl_ID l then with_attempt o t (okf o) err else o)); [|by rewrite Hc].
    intros o. by destruct (_ =? _).
Qed.
Lemma refresh_loop_ok clock sel ls : forall db ch failed, policy_ok (conf db) ->
  let '(db', ch', _) := refresh_loop toASCII url_Parse HTTPDo clock sel ls db ch failed in
  policy_ok (conf db')
  /\ GetBlacklistSettings db' = GetBlacklistSettings db /\ BlacklistRules db' = BlacklistRules db
  /\ (ch' = false -> ch = false /\ policy_part <$> BlacklistLists db' = policy_part <$> BlacklistLists db).
Proof.
  induction ls as [|l ls IH]; intros db ch failed Hok; cbn [refresh_loop]; [done|].
  destruct (negb (sel l)); [by apply IH|].
  pose proof (refresh_ok (clock l) l db Hok) as H. destruct (refresh' (clock l) l db) as [db1 [ok c]].
  destruct H as (H1 & H2 & H3 & H4). specialize (IH db1 (ch || c) (if ok then failed else failed ++ [bl_Name l]) H1).
  destruct (refresh_loop _ _ _ _ _ _ _ _ _) as [[db' ch'] fl]. destruct IH as (I1 & I2 & I3 & I4).
  split; [done|]. split; [congruence|]. split; [congruence|]. intros Hch. destruct (I4 Hch) as [[Ha Hb]%orb_false_iff Hp].
  split; [done|]. rewrite Hp. auto.
Qed.
Lemma live_unchanged w db' :
  live w -> GetBlacklistSettings db' = GetBlacklistSettings (pw_db w) -> BlacklistRules db' = BlacklistRules (pw_db w) ->
  policy_part <$> BlacklistLists db' = policy_part <$> BlacklistLists (pw_db w) -> live (mkPW db' (pw_holder w)).
Proof. unfold live. intros H0 H1 H2 H3. simpl. rewrite H0, H1, H2. f_equal. by apply Build_ext. Qed.

(** *** Seeding *)
Definition names (c : Conf) : list string := bl_Name <$> c_lists c.
(** A manifest that a release may ship: it passes [BuiltinManifest], no name is
    listed twice, and every entry is a list the service would accept. *)
Record manifest_ok : Prop := {
  mo_builtin : BuiltinManifest manifest = Ok manifest;
  mo_nodup : NoDup (bi_Name <$> mf_Lists manifest);
  mo_lists : forall b, b ∈ mf_Lists manifest -> list_ok (of_builtin b) }.
(** A row that seeding added. *)
Definition seeded (o : BlacklistList) : Prop := bl_Builtin o = true /\ bl_Name o ∈ bi_Name <$> mf_Lists manifest.

Lemma seed_ok bs : forall known db,
  policy_ok (conf db) -> (forall b, b ∈ bs -> list_ok (of_builtin b) /\ bi_Name b ∈ bi_Name <$> mf_Lists manifest) ->
  NoDup (bi_Name <$> bs) -> (forall n, n ∈ names (conf db) -> n ∈ known \/ n ∉ bi_Name <$> bs) ->
  (forall n, n ∈ known -> n ∈ names (conf db)) ->
  let '(db', r) := seed known bs db in
  r = Ok tt /\ policy_ok (conf db') /\ c_blset (conf db') = c_blset (conf db) /\ c_rules (conf db') = c_rules (conf db)
  /\ (forall n, n ∈ bi_Name <$> bs -> n ∈ names (conf db'))
  /\ (forall o, o ∈ c_lists (conf db) -> o ∈ c_lists (conf db'))
  /\ (forall o, o ∈ c_lists (conf db') -> o ∈ c_lists (conf db) \/ seeded o).
Proof.
  induction bs as [|b bs IH]; intros known db Hok Hbs Hnd Hfresh Hknown; cbn [seed].
  { split_and!; try done; auto. by intros n ?%not_elem_of_nil. }
  cbn [fmap list_fmap] in Hnd, Hfresh. apply NoDup_cons in Hnd as [Hb Hnd]. case_bool_decide as Hk.
  { specialize (IH known db Hok). destruct (seed known bs db) as [db' r]. destruct IH as (H1 & H2 & H3 & H4 & H5 & H6 & H7); try done.
    - intros x Hx. apply Hbs. by right.
    - intros n Hn. destruct (Hfresh n Hn); [by left|right; set_solver].
    - split_and!; try done. intros n [->|Hn]%elem_of_cons; [|auto].
      apply Hknown, list_elem_of_fmap in Hk as (o & E & Ho). rewrite E. apply list_elem_of_fmap_2. auto. }
  destruct (Hbs b ltac:(left)) as [Hbl Hbm].
  unfold PutBlacklistList, tx, putBlacklistList. cbn [of_builtin bl_ID]. change (0 =? 0) with true. cbn iota.
  destruct (insert_list (of_builtin b) (conf db)) as [[id c]|e] eqn:Ei.
  2:{ unfold insert_list in Ei. case_bool_decide as Hin; [|done]. exfalso.
      destruct (Hfresh (bi_Name b) Hin) as [|Hx]; [done|]. apply Hx. by left. }
  pose proof (insert_list_ok _ _ _ Hok Hbl Ei) as Hok'. simpl in Hok'.
  unfold insert_list in Ei. case_bool_decide as Hin; [done|]. injection Ei as <- <-.
  set (row := list_row _ _) in *. set (c := with_lists _ _ _) in *.
  specialize (IH known (mkDB c (node db)) Hok'). destruct (seed known bs _) as [db' r].
  destruct IH as (H1 & H2 & H3 & H4 & H5 & H6 & H7); try done.
  - intros x Hx. apply Hbs. by right.
  - intros n Hn. unfold c, names in Hn. simpl in Hn. rewrite fmap_app in Hn. apply elem_of_app in Hn as [Hn|Hn].
    + destruct (Hfresh n Hn); [by left|right; set_solver].
    + right. apply list_elem_of_singleton in Hn as ->. done.
  - intros n Hn. unfold c, names. simpl. rewrite fmap_app. apply elem_of_app. left. by apply Hknown.
  - assert (Hrow : row ∈ c_lists c) by (unfold c; simpl; apply elem_of_app; right; by left).
    split_and!; try done.
    + intros n [->|Hn]%elem_of_cons; [|auto]. change (bi_Name b) with (bl_Name row). apply list_elem_of_fmap_2. by apply H6.
    + intros o Ho. apply H6. unfold c. simpl. apply elem_of_app. by left.
    + intros o [Ho|Ho]%H7; [|by right]. unfold c in Ho. simpl in Ho.
      apply elem_of_app in Ho as [Ho|Ho%list_elem_of_singleton]; [by left|right]. subst o. done.
Qed.

Lemma metas_names db : forall n, n ∈ bl_Name <$> BlacklistListMetas db <-> n ∈ names (conf db).
Proof.
  intros n. unfold BlacklistListMetas, BlacklistLists, names. rewrite <- list_fmap_compose.
  rewrite (list_fmap_ext _ bl_Name) by done. by rewrite (merge_sort_Permutation list_le (c_lists (conf db))).
Qed.
Lemma SeedBuiltins_ok db : manifest_ok -> policy_ok (conf db) ->
  let '(db', r) := SeedBuiltins manifest db in
  r = Ok tt /\ policy_ok (conf db') /\ c_blset (conf db') = c_blset (conf db) /\ c_rules (conf db') = c_rules (conf db)
  /\ (forall b, b ∈ mf_Lists manifest -> bi_Name b ∈ names (conf db'))
  /\ (forall o, o ∈ c_lists (conf db) -> o ∈ c_lists (conf db'))
  /\ (forall o, o ∈ c_lists (conf db') -> o ∈ c_lists (conf db) \/ seeded o).
Proof.
  intros [Hb Hnd Hls] Hok. unfold SeedBuiltins. rewrite Hb.
  pose proof (seed_ok (mf_Lists manifest) (bl_Name <$> BlacklistListMetas db) db Hok) as H.
  destruct (seed _ _ _) as [db' r]. destruct H as (H1 & H2 & H3 & H4 & H5 & H6 & H7); try done.
  - intros b Hbin. split; [auto|by apply list_elem_of_fmap_2].
  - intros n Hn. left. by apply metas_names.
  - intros n. apply metas_names.
  - split_and!; try done. intros b Hbin. apply H5. by apply list_elem_of_fmap_2.
Qed.

(** *** Importing *)
Lemma import_lists rows ls : forall c c', policy_ok c -> (forall l, l ∈ ls -> list_ok l) ->
  foldR (import_list rows) c ls = Ok c' ->
  policy_ok c' /\ c_blset c' = c_blset c /\ c_rules c' = c_rules c
  /\ exists new, c_lists c' = c_lists c ++ new /\ list_definition <$> new = list_definition <$> ls.
Proof.
  induction ls as [|l ls IH]; intros c c' Hc Hls; simpl.
  - intros [= <-]. split_and!; try done. exists []. by rewrite app_nil_r.
  - rewrite rbind_ok. intros (c1 & H1 & H2). pose proof (import_list_ok _ _ _ _ Hc (Hls l ltac:(left)) H1) as Hc1.
    unfold import_list in H1. case_bool_decide; [done|]. injection H1 as <-.
    apply IH in H2 as (I1 & I2 & I3 & new & I4 & I5); [|done|intros x Hx; apply Hls; by right].
    split_and!; try done. eexists (_ :: new). rewrite I4. simpl. rewrite <- app_assoc. split; [done|].
    simpl. f_equal; [|done]. unfold kept_body. by destruct (last _).
Qed.
Lemma put_rules rs : forall c c', policy_ok c -> (forall r, r ∈ rs -> rule_ok r) ->
  foldR (fun c r => x <-? putRule r c ;; Ok x.2) c rs = Ok c' ->
  policy_ok c' /\ c_blset c' = c_blset c /\ c_lists c' = c_lists c
  /\ exists new, c_rules c' = c_rules c ++ new
       /\ (fun r => (br_Kind r, br_Domain r)) <$> new = (fun r => (br_Kind r, br_Domain r)) <$> rs.
Proof.
  induction rs as [|r rs IH]; intros c c' Hc Hrs; simpl.
  - intros [= <-]. split_and!; try done. exists []. by rewrite app_nil_r.
  - rewrite rbind_ok. intros (c1 & (x & Hx & [= <-])%rbind_ok & H2).
    pose proof (putRule_ok _ _ _ Hc ltac:(intros id; exact (Hrs r ltac:(left))) Hx) as Hc1.
    unfold putRule in Hx. case_bool_decide; [done|]. injection Hx as <-.
    apply IH in H2 as (I1 & I2 & I3 & new & I4 & I5); [|done|intros y Hy; apply Hrs; by right].
    split_and!; try done. eexists (_ :: new). rewrite I4. simpl. rewrite <- app_assoc. split; [done|]. simpl. by f_equal.
Qed.

Lemma emptied_ok set c k1 k2 : policy_ok c -> 1 <= bs_BlockTTL set <= maxBlockTTL ->
  policy_ok (setBlSettings set (with_lists (with_rules c [] k1) [] k2)).
Proof.
  intros [[] ? ? ?] Hs. constructor; simpl; try done; try (by intros ? ?%not_elem_of_nil).
  constructor; simpl; try done; constructor.
Qed.

(** The replaced policy: settings, rules and definitions are the document's, a
    list is built in exactly when the manifest names it, and every list of the
    manifest is there. *)
Definition replaced (set : BlacklistSettings) (ls : list BlacklistList) (rules : list BlacklistRule) (db : DB) : Prop :=
  GetBlacklistSettings db = set
  /\ Forall2 (fun r r' => validateRule toASCII (br_Kind r) (br_Domain r) = Ok (br_Kind r', br_Domain r')) rules (c_rules (conf db))
  /\ (forall l, l ∈ ls -> exists v, validateList url_Parse l = Ok v /\ bl_Name v ∈ names (conf db))
  /\ (forall o, o ∈ c_lists (conf db) -> bl_Builtin o = true <-> bl_Name o ∈ bi_Name <$> mf_Lists manifest)
  /\ (forall b, b ∈ mf_Lists manifest -> bi_Name b ∈ names (conf db)).

Lemma rules_forall2 rules rs new :
  Forall2 (fun r b => (x <-? validateRule toASCII (br_Kind r) (br_Domain r) ;; Ok (mkBlRule 0 x.1 x.2)) = Ok b) rules rs ->
  (fun r => (br_Kind r, br_Domain r)) <$> new = (fun r => (br_Kind r, br_Domain r)) <$> rs ->
  (forall r, r ∈ rs -> rule_ok r)
  /\ Forall2 (fun r r' => validateRule toASCII (br_Kind r) (br_Domain r) = Ok (br_Kind r', br_Domain r')) rules new.
Proof.
  intros H. revert new. induction H as [|r b rules rs Hb H IH]; intros new Hn.
  - destruct new; [|done]. split; [by intros ? ?%not_elem_of_nil|constructor].
  - destruct new as [|n new]; [done|]. injection Hn as E1 E2 E3.
    destruct (IH new E3) as [I1 I2]. apply rbind_ok in Hb as ([k d] & Hv & [= <-]). simpl in *. split.
    + intros x [->|Hx]%elem_of_cons; [|auto]. exact (validateRule_ok _ _ _ 0 Hv).
    + constructor; [by rewrite E1, E2|done].
Qed.

Lemma lists_forall2 ls vs (nms : list string) :
  Forall2 (fun l b => (v <-? validateList url_Parse l ;; Ok (with_builtin (bool_decide (bl_Name v ∈ nms)) v)) = Ok b) ls vs ->
  (forall v, v ∈ vs -> list_ok v /\ bl_Builtin v = bool_decide (bl_Name v ∈ nms))
  /\ (forall l, l ∈ ls -> exists v, validateList url_Parse l = Ok v /\ bl_Name v ∈ bl_Name <$> vs).
Proof.
  induction 1 as [|l b ls vs Hb H [I1 I2]]; [by split; intros ? ?%not_elem_of_nil|].
  apply rbind_ok in Hb as (v & Hv & [= <-]). split.
  - intros x [->|Hx]%elem_of_cons; [|auto]. split; [|done]. by apply with_builtin_ok, (validateList_ok l).
  - intros x [->|Hx]%elem_of_cons.
    + exists v. split; [done|]. by left.
    + destruct (I2 x Hx) as (v' & H1 & H2). exists v'. split; [done|]. by right.
Qed.

Lemma replace_policy_ok set ls rules w : manifest_ok -> policy_ok (conf (pw_db w)) ->
  let '(w', r) := ReplacePolicy toASCII url_Parse manifest set ls rules w in
  match r with
  | Err _ => w' = w
  | Ok _ => world_ok w' /\ replaced set ls rules (pw_db w')
  end.
Proof.
  intros Hm Hok. unfold ReplacePolicy. destruct (_ || _) eqn:Ht; [done|]. bool_to_prop.
  rewrite (mo_builtin Hm). destruct (mapR _ ls) as [vs|e] eqn:El; [|done]. destruct (mapR _ rules) as [rs|e] eqn:Er; [|done].
  apply mapR_ok in El, Er. apply lists_forall2 in El as [Hvs Hls].
  unfold write, ReplaceBlacklist, tx.
  destruct (foldR (import_list _) _ vs) as [c1|e] eqn:E1; simpl; [|by destruct w].
  destruct (foldR _ c1 rs) as [c2|e] eqn:E2; simpl; [|by destruct w].
  assert (Hset : 1 <= bs_BlockTTL set <= maxBlockTTL) by lia.
  apply import_lists in E1 as (H1 & S1 & R1 & new & L1 & D1); [|by apply emptied_ok|intros v Hv; by apply Hvs].
  assert (Hrs : forall r, r ∈ rs -> rule_ok r) by (by apply (rules_forall2 rules rs rs)).
  apply put_rules in E2 as (H2 & S2 & L2 & newr & R2 & D2); [|done|done].
  pose proof (SeedBuiltins_ok (mkDB c2 (node (pw_db w))) Hm H2) as Hs. simpl.
  destruct (SeedBuiltins manifest _) as [db' r]. destruct Hs as (-> & K1 & K2 & K3 & K4 & K5 & K6). simpl in *.
  rewrite S1 in S2. rewrite L1 in L2. rewrite R1 in R2. simpl in *.
  split; [split; [exact K1|done]|]. unfold replaced, GetBlacklistSettings. simpl. rewrite K2, K3, S2, R2.
  split; [done|]. split; [by apply (rules_forall2 rules rs)|]. split; [|split; [|done]].
  - intros l Hl. destruct (Hls l Hl) as (v & Hv & Hin). exists v. split; [done|].
    assert (Hnew : bl_Name <$> vs = bl_Name <$> new).
    { revert D1. clear. revert new. induction vs as [|v vs IH]; intros [|n new] D; try done.
      injection D as D1 _ _ _ _ _ _ D. simpl. rewrite D1. f_equal. by apply IH. }
    rewrite Hnew in Hin. apply list_elem_of_fmap in Hin as (o & -> & Ho). apply list_elem_of_fmap_2, K5. by rewrite L2.
  - intros o [Ho|Ho]%K6.
    + rewrite L2 in Ho. assert (list_definition o ∈ list_definition <$> vs) as (v & Ev & Hv)%list_elem_of_fmap.
      { rewrite <- D1. by apply list_elem_of_fmap_2. }
      destruct (Hvs v Hv) as [_ Hb]. unfold list_definition in Ev. injection Ev as En _ _ _ _ Eb _.
      rewrite Eb, Hb, En. by rewrite bool_decide_eq_true.
    + destruct Ho. done.
Qed.

(** ** Histories of the service *)
Inductive svc_op :=
  | OSettings (enabled : bool) (ttl : Z) | OPutList (l : BlacklistList) | ODeleteList (id : Z)
  | OAddRule (kind domain : string) | ODeleteRule (id : Z)
  | OReplace (set : BlacklistSettings) (ls : list BlacklistList) (rules : list BlacklistRule)
  | ORefreshDue (now : Z) (clock : BlacklistList -> Z) | ORefreshAll (clock : BlacklistList -> Z) | ORefreshList (now id : Z).
Definition svc_step (w : PolicyWorld) (op : svc_op) : PolicyWorld :=
  match op with
  | OSettings e t => (SetSettings e t w).1
  | OPutList l => (PutList url_Parse l w).1
  | ODeleteList id => (DeleteList id w).1
  | OAddRule k d => (AddRule toASCII k d w).1
  | ODeleteRule id => (DeleteRule id w).1
  | OReplace s ls rs => (ReplacePolicy toASCII url_Parse manifest s ls rs w).1
  | ORefreshDue now clock => RefreshDue toASCII url_Parse HTTPDo now clock w
  | ORefreshAll clock => (RefreshAll toASCII url_Parse HTTPDo clock w).1
  | ORefreshList now id => (RefreshList toASCII url_Parse HTTPDo now id w).1
  end.

Lemma svc_step_ok w op : manifest_ok -> world_ok w -> world_ok (svc_step w op).
Proof.
  intros Hm Hw. pose proof Hw as [Hok Hlive]. destruct op as [e t|l|id|k d|id|s ls rs|now clock|clock|now id]; cbn [svc_step].
  - unfold SetSettings. destruct (_ || _) eqn:Ht; [done|]. bool_to_prop.
    apply (write_rebuild_ok (fun c => Ok (tt, setBlSettings _ c))); [done|]. intros x [= <-]. apply setBlSettings_ok; [done|simpl; lia].
  - unfold PutList. destruct (validateList url_Parse l) as [v|] eqn:Ev; [|done]. apply validateList_ok in Ev as [Hv _].
    case_if.
    + apply write_rebuild_ok; [done|]. intros x. apply putBlacklistList_ok; [done|by apply with_builtin_ok].
    + destruct (BlacklistListByID _ _) as [o|]; [|done]. destruct (_ && _); [done|].
      apply write_rebuild_ok; [done|]. intros x. apply putBlacklistList_ok; [done|by apply with_builtin_ok].
  - unfold DeleteList. destruct (BlacklistListByID _ _) as [o|]; [|done]. destruct (bl_Builtin o); [done|].
    apply write_rebuild_ok; [done|]. intros x. by apply deleteList_ok.
  - unfold AddRule. destruct (validateRule toASCII k d) as [[k' n]|] eqn:Er; [|done].
    apply write_rebuild_ok; [done|]. intros x. apply putRule_ok; [done|]. intros id. exact (validateRule_ok _ _ _ id Er).
  - unfold DeleteRule. apply write_rebuild_ok; [done|]. intros x. by apply deleteRule_ok.
  - pose proof (replace_policy_ok s ls rs w Hm Hok) as H. destruct (ReplacePolicy _ _ _ _ _ _ _) as [w' [u|e]]; [apply H|].
    simpl. by rewrite H.
  - unfold RefreshDue. pose proof (refresh_loop_ok clock (due now) (BlacklistListMetas (pw_db w)) (pw_db w) false [] Hok) as H.
    destruct (refresh_loop _ _ _ _ _ _ _ _ _) as [[db' ch] fl]. destruct H as (H1 & H2 & H3 & H4).
    destruct ch; [by split|]. destruct (H4 eq_refl) as [_ H5]. split; [done|]. by apply live_unchanged.
  - unfold RefreshAll. pose proof (refresh_loop_ok clock bl_Enabled (BlacklistListMetas (pw_db w)) (pw_db w) false [] Hok) as H.
    destruct (refresh_loop _ _ _ _ _ _ _ _ _) as [[db' ch] fl]. destruct H as (H1 & _). by split.
  - unfold RefreshList. destruct (BlacklistListByID (pw_db w) id) as [l|]; [|done].
    pose proof (refresh_ok now l (pw_db w) Hok) as H. pose proof (refresh_spec now l (pw_db w)) as Hspec.
    destruct (refresh' now l (pw_db w)) as [db' [ok ch]]. destruct H as (H1 & H2 & H3 & H4).
    destruct ok; [by split|]. destruct ch; [by destruct Hspec|]. split; [done|]. simpl. apply live_unchanged; auto.
Qed.

(** whatever the operator and the scheduler do, in any order, the policy that
    answers queries is the one built from what the store holds, and the store
    holds only valid data: unique canonical list names that are not reserved,
    https URLs without credentials, known formats, intervals of at least five
    minutes, rules on canonical domains, a block TTL in range. *)
Theorem service_keeps_policy_live ops w :
  manifest_ok -> world_ok w -> world_ok (foldl svc_step w ops).
Proof. intros Hm. revert w. induction ops as [|op ops IH]; intros w Hw; [done|]. by apply IH, svc_step_ok. Qed.

(** an import is all or nothing: a document with one invalid list, rule or
    setting, or that repeats a name, changes neither the store nor the live policy;
    an accepted one leaves exactly its settings and rules, its lists, and every
    list of the shipped manifest, built in exactly when the manifest names it. *)
Theorem replace_policy_all_or_nothing set ls rules w :
  manifest_ok -> world_ok w ->
  let '(w', r) := ReplacePolicy toASCII url_Parse manifest set ls rules w in
  match r with
  | Err _ => w' = w
  | Ok _ => live w' /\ replaced set ls rules (pw_db w')
  end.
Proof.
  intros Hm [Hok _]. pose proof (replace_policy_ok set ls rules w Hm Hok) as H.
  destruct (ReplacePolicy _ _ _ _ _ _ _) as [w' [u|e]]; [|done]. by destruct H as [[_ Hl] Hr].
Qed.

(** repointing a custom list leaves the old source's body and validators in
    its row: the list serves the old domains under the new URL, and the next
    refresh sends the new source the old one's ETag. *)
Theorem repointed_list_keeps_body l o w :
  world_ok w -> BlacklistListByID (pw_db w) (bl_ID l) = Ok o -> bl_ID l <> 0 -> bl_Builtin o = false ->
  is_ok (PutList url_Parse l w).2 = true ->
  exists o', BlacklistListByID (pw_db (PutList url_Parse l w).1) (bl_ID l) = Ok o'
    /\ bl_URL o' = TrimSpace (bl_URL l) /\ bl_Snapshot o' = bl_Snapshot o
    /\ bl_ETag o' = bl_ETag o /\ bl_LastModified o' = bl_LastModified o.
Proof.
  intros [Hok _] Hby Hid Hb. unfold PutList. destruct (validateList url_Parse l) as [v|] eqn:Ev; [|done].
  pose proof Ev as (_ & Hvid & Hurl)%validateList_ok. rewrite Hvid. apply Z.eqb_neq in Hid. rewrite Hid, Hby, Hb. simpl andb. cbn iota.
  unfold write_rebuild, write, PutBlacklistList, tx, putBlacklistList. cbn [with_builtin bl_ID bl_Name]. rewrite Hvid, Hid.
  destruct (existsb _ _ && _); [done|]. case_bool_decide as Hin; [|done]. intros _. simpl.
  unfold BlacklistListByID in *. cbn [conf update_lists with_lists c_lists].
  revert Hby Hurl. clear. intros Hby Hurl. induction (c_lists (conf (pw_db w))) as [|x ls IH]; [done|].
  simpl in *. destruct (bl_ID x =? bl_ID l) eqn:E; simpl.
  - injection Hby as ->. rewrite E. by eexists.
  - rewrite E. by apply IH.
Qed.

(** ** Built-in lists *)
Definition same_entry (o o' : BlacklistList) : Prop :=
  bl_ID o' = bl_ID o /\ bl_Name o' = bl_Name o /\ bl_URL o' = bl_URL o /\ bl_Builtin o' = bl_Builtin o.
Definition keeps_builtins (c c' : Conf) : Prop :=
  forall o, o ∈ c_lists c -> bl_Builtin o = true -> exists o', o' ∈ c_lists c' /\ same_entry o o'.
Lemma keeps_refl c : keeps_builtins c c.
Proof. intros o Ho _. by exists o. Qed.
Lemma keeps_trans c1 c2 c3 : keeps_builtins c1 c2 -> keeps_builtins c2 c3 -> keeps_builtins c1 c3.
Proof.
  intros H1 H2 o Ho Hb. destruct (H1 o Ho Hb) as (o2 & Hin & Hs). destruct (H2 o2 Hin) as (o3 & Hin3 & Hs3).
  { destruct Hs as (_ & _ & _ & ->). done. }
  exists o3. split; [done|]. unfold same_entry in *. naive_solver congruence.
Qed.
Lemma keeps_map c c' f :
  c_lists c' = f <$> c_lists c -> (forall o, o ∈ c_lists c -> bl_Builtin o = true -> same_entry o (f o)) -> keeps_builtins c c'.
Proof. intros Hc Hf o Ho Hb. exists (f o). split; [rewrite Hc; by apply list_elem_of_fmap_2|auto]. Qed.

Lemma ByID_unique db id cur : wf_conf (conf db) -> BlacklistListByID db id = Ok cur ->
  forall o, o ∈ c_lists (conf db) -> bl_ID o = id -> o = cur.
Proof.
  intros Hw. pose proof (wf_list_ids _ Hw) as Hnd. unfold BlacklistListByID. revert Hnd. generalize (c_lists (conf db)) as ls.
  induction ls as [|x ls IH]; intros Hnd Hf o Ho Hid; [by apply not_elem_of_nil in Ho|].
  simpl in *. apply NoDup_cons in Hnd as [Hx Hnd]. destruct (bl_ID x =? id) eqn:E; bool_to_prop.
  - injection Hf as <-. apply elem_of_cons in Ho as [->|Ho]; [done|]. exfalso. apply Hx. rewrite E, <- Hid. by apply list_elem_of_fmap_2.
  - apply elem_of_cons in Ho as [->|Ho]; [congruence|]. by apply IH.
Qed.

Lemma refresh_keeps at_ l db : keeps_builtins (conf db) (conf (refresh' at_ l db).1).
Proof.
  pose proof (refresh_spec at_ l db) as H. destruct (refresh' at_ l db) as [db' [ok ch]]. destruct ch.
  - destruct H as (_ & res & parsed & _ & _ & _ & _ & _ & t & Hc). simpl. rewrite Hc.
    eapply keeps_map; [reflexivity|]. intros o _ _. simpl. by destruct (bl_ID o =? bl_ID l).
  - destruct H as (_ & t & okf & err & Hc & _). simpl. rewrite Hc.
    eapply keeps_map; [reflexivity|]. intros o _ _. simpl. by destruct (bl_ID o =? bl_ID l).
Qed.
Lemma refresh_loop_keeps clock sel ls : forall db ch failed,
  keeps_builtins (conf db) (conf (refresh_loop toASCII url_Parse HTTPDo clock sel ls db ch failed).1.1).
Proof.
  induction ls as [|l ls IH]; intros db ch failed; cbn [refresh_loop]; [apply keeps_refl|].
  destruct (negb (sel l)); [apply IH|]. pose proof (refresh_keeps (clock l) l db) as H.
  destruct (refresh' (clock l) l db) as [db1 [ok c]]. by eapply keeps_trans; [|apply IH].
Qed.
Lemma write_rebuild_keeps {A} (f : Conf -> result store_error (A * Conf)) w :
  (forall x, f (conf (pw_db w)) = Ok x -> keeps_builtins (conf (pw_db w)) x.2) ->
  keeps_builtins (conf (pw_db w)) (conf (pw_db (write_rebuild (tx f) w).1)).
Proof.
  intros Hf. unfold write_rebuild, write, tx. destruct (f (conf (pw_db w))) as [[a c]|e]; [exact (Hf _ eq_refl)|apply keeps_refl].
Qed.
Lemma insert_list_keeps l c x : insert_list l c = Ok x -> keeps_builtins c x.2.
Proof.
  unfold insert_list. case_bool_decide; [done|]. intros [= <-] o Ho Hb. exists o. split; [|done]. apply elem_of_app. by left.
Qed.

Lemma svc_step_keeps w op :
  wf_conf (conf (pw_db w)) -> match op with OReplace _ _ _ => False | _ => True end ->
  keeps_builtins (conf (pw_db w)) (conf (pw_db (svc_step w op))).
Proof.
  intros Hw Hop. destruct op as [e t|l|id|k d|id|s ls rs|now clock|clock|now id]; cbn [svc_step]; try done.
  - unfold SetSettings. case_if; [apply keeps_refl|].
    apply (write_rebuild_keeps (fun c => Ok (tt, setBlSettings _ c))). intros x [= <-]. by apply (keeps_refl (conf (pw_db w))).
  - unfold PutList. destruct (validateList url_Parse l) as [v|]; [|apply keeps_refl]. case_if.
    + apply write_rebuild_keeps. intros x Hx. unfold putBlacklistList in Hx. cbn [with_builtin bl_ID] in Hx. rewrite Heqb in Hx.
      by eapply insert_list_keeps.
    + destruct (BlacklistListByID (pw_db w) (bl_ID v)) as [o|] eqn:Eo; [|apply keeps_refl]. destruct (_ && _) eqn:Eb; [apply keeps_refl|].
      apply write_rebuild_keeps. intros x Hx. unfold putBlacklistList in Hx. cbn [with_builtin bl_ID bl_Name] in Hx. rewrite Heqb in Hx.
      destruct (existsb _ _ && _); [done|]. case_bool_decide; [|done]. injection Hx as <-. eapply keeps_map; [reflexivity|].
      intros o' Ho' Hb'. simpl. destruct (bl_ID o' =? bl_ID v) eqn:Ei; [|done]. bool_to_prop.
      pose proof (ByID_unique _ _ _ Hw Eo o' Ho' Ei) as ->. rewrite Hb' in Eb. simpl in Eb. apply orb_false_iff in Eb as [E1 E2].
      unfold same_entry. simpl. bool_to_prop. split_and!; try done; by apply dec_stable.
  - unfold DeleteList. destruct (BlacklistListByID (pw_db w) id) as [o|] eqn:Eo; [|apply keeps_refl]. destruct (bl_Builtin o) eqn:Eb; [apply keeps_refl|].
    apply write_rebuild_keeps. intros x Hx. unfold deleteList in Hx. case_bool_decide; [|done]. injection Hx as <-.
    intros o' Ho' Hb'. exists o'. split; [|done]. simpl. apply list_elem_of_filter. split; [|done]. intros Hid.
    pose proof (ByID_unique _ _ _ Hw Eo o' Ho' Hid) as ->. congruence.
  - unfold AddRule. destruct (validateRule toASCII k d) as [[k' n]|]; [|apply keeps_refl].
    apply write_rebuild_keeps. intros x Hx. unfold putRule in Hx. case_bool_decide; [done|]. injection Hx as <-. apply (keeps_refl (conf (pw_db w))).
  - unfold DeleteRule. apply write_rebuild_keeps. intros x Hx. unfold deleteRule in Hx. case_bool_decide; [|done]. injection Hx as <-.
    apply (keeps_refl (conf (pw_db w))).
  - unfold RefreshDue. pose proof (refresh_loop_keeps clock (due now) (BlacklistListMetas (pw_db w)) (pw_db w) false []) as H.
    destruct (refresh_loop _ _ _ _ _ _ _ _ _) as [[db' ch] fl]. by destruct ch.
  - unfold RefreshAll. pose proof (refresh_loop_keeps clock bl_Enabled (BlacklistListMetas (pw_db w)) (pw_db w) false []) as H.
    by destruct (refresh_loop _ _ _ _ _ _ _ _ _) as [[db' ch] fl].
  - unfold RefreshList. destruct (BlacklistListByID (pw_db w) id) as [l|]; [|apply keeps_refl].
    pose proof (refresh_keeps now l (pw_db w)) as H. destruct (refresh' now l (pw_db w)) as [db' [ok ch]]. by destruct ok.
Qed.

(** no edit, deletion, rule change or refresh ever renames, repoints, removes
    or unmarks a built-in list. *)
Theorem builtin_lists_immutable ops w :
  manifest_ok -> world_ok w -> Forall (fun op => match op with OReplace _ _ _ => False | _ => True end) ops ->
  keeps_builtins (conf (pw_db w)) (conf (pw_db (foldl svc_step w ops))).
Proof.
  intros Hm. revert w. induction ops as [|op ops IH]; intros w Hw Hops; [apply keeps_refl|].
  apply Forall_cons in Hops as [Hop Hops]. simpl. eapply keeps_trans; [|apply IH; [by apply svc_step_ok|done]].
  apply svc_step_keeps; [apply Hw|done].
Qed.
End Props.

(** ** Witnesses *)
Definition ex_url (s : string) : option URL :=
  if HasPrefix s "https://" then Some (mkURL "https" "example.net" None) else None.
Definition ex_do (r : HTTPRequest) : result string HTTPResponse :=
  Ok (mkResp 200 "200 OK" "v1" "" (bytes "ads.example") None).
Lemma ex_manifest : manifest_ok ex_url builtinJSON.
Proof.
  constructor.
  - vm_compute. reflexivity.
  - apply NoDup_singleton.
  - intros b Hb. apply list_elem_of_singleton in Hb as ->. constructor; first [vm_compute; reflexivity|vm_compute; congruence].
Qed.
(** The state of a first start: the store is seeded and the policy is built. *)
Definition ex_world : PolicyWorld := (rebuild (mkPW (SeedBuiltins builtinJSON db0).1 NewHolder)).1.
Lemma ex_world_ok : world_ok Some ex_url ex_world.
Proof.
  split; [|done]. assert (Hdb : conf (pw_db ex_world) = conf (SeedBuiltins builtinJSON db0).1) by done. rewrite Hdb.
  pose proof (SeedBuiltins_ok Some ex_url builtinJSON db0 ex_manifest) as H.
  destruct (SeedBuiltins builtinJSON db0) as [db' r]. apply H. constructor; simpl; try (by intros ? ?%not_elem_of_nil); [|unfold maxBlockTTL; lia].
  constructor; simpl; first [by intros ? ?%not_elem_of_nil | by constructor].
Qed.
Definition ex_list (url : string) (id : Z) : BlacklistList := mkBlList id "Mine" url "" "" true false 0 0 0 "" "" "" 0 0 [].

Lemma service_keeps_policy_live_witness :
  let w := foldl (svc_step Some ex_url builtinJSON ex_do) ex_world
             [OPutList (ex_list "https://one" 0); OAddRule "Deny" "Bad.example"; ORefreshList 7 2] in
  length (c_lists (conf (pw_db w))) = 2%nat /\ (Decide Some (cur (pw_holder w)) "www.ads.example").(Blocked) = true
  /\ live w.
Proof.
  split; [vm_compute; reflexivity|]. split; [vm_compute; reflexivity|].
  apply (service_keeps_policy_live Some ex_url builtinJSON ex_do); [apply ex_manifest|apply ex_world_ok].
Defined.
Lemma replace_policy_all_or_nothing_witness :
  let r := ReplacePolicy Some ex_url builtinJSON (mkBlSettings true 60) [ex_list "https://one" 0; ex_list "ftp://two" 0] [] ex_world in
  is_ok r.2 = false /\ r.1 = ex_world.
Proof.
  pose proof (replace_policy_all_or_nothing Some ex_url builtinJSON (mkBlSettings true 60) [ex_list "https://one" 0; ex_list "ftp://two" 0] [] ex_world
    ex_manifest ex_world_ok) as H. cbv zeta.
  assert (Hr : is_ok (ReplacePolicy Some ex_url builtinJSON (mkBlSettings true 60) [ex_list "https://one" 0; ex_list "ftp://two" 0] [] ex_world).2 = false)
    by (vm_compute; reflexivity).
  destruct (ReplacePolicy _ _ _ _ _ _ _) as [w' [u|e]]; [discriminate|]. split; [reflexivity|exact H].
Defined.
Definition ex_world2 : PolicyWorld :=
  foldl (svc_step Some ex_url builtinJSON ex_do) ex_world [OPutList (ex_list "https://one" 0); ORefreshList 7 2].
Lemma ex_world2_ok : world_ok Some ex_url ex_world2.
Proof.
  unfold ex_world2. cbn [foldl]. apply (svc_step_ok Some ex_url builtinJSON ex_do _ (ORefreshList 7 2)); [apply ex_manifest|].
  apply (svc_step_ok Some ex_url builtinJSON ex_do _ (OPutList _)); [apply ex_manifest|apply ex_world_ok].
Qed.
Lemma repointed_list_keeps_body_witness :
  exists o', BlacklistListByID (pw_db (PutList ex_url (ex_list "https://two" 2) ex_world2).1) 2 = Ok o'
    /\ bl_URL o' = "https://two" /\ bl_Snapshot o' = ["ads.example"] /\ bl_ETag o' = "v1".
Proof.
  destruct (BlacklistListByID (pw_db ex_world2) 2) as [o|] eqn:E; [|vm_compute in E; discriminate].
  pose proof E as Ho. vm_compute in Ho.
  destruct (repointed_list_keeps_body Some ex_url (ex_list "https://two" 2) o ex_world2 ex_world2_ok E) as (o' & H1 & H2 & H3 & H4 & _).
  - discriminate.
  - injection Ho as <-. reflexivity.
  - vm_compute. reflexivity.
  - exists o'. split; [exact H1|]. injection Ho as <-. split; [rewrite H2; reflexivity|]. split; [exact H3|exact H4].
Defined.
Lemma builtin_lists_immutable_witness :
  let w := foldl (svc_step Some ex_url builtinJSON ex_do) ex_world [ODeleteList 1; OPutList (ex_list "https://one" 1)] in
  keeps_builtins (conf (pw_db ex_world)) (conf (pw_db w)) /\ length (c_lists (conf (pw_db w))) = 1%nat.
Proof.
  split; [|vm_compute; reflexivity].
  apply builtin_lists_immutable; [apply ex_manifest|apply ex_world_ok|by repeat constructor].
Defined.
(** A document may claim the name of a built-in list for another source: the
    import makes that source the built-in, which no edit can then correct. *)
Lemma import_repoints_builtin :
  let doc := mkBlList 0 "steven-black" "https://elsewhere" "hosts" "" true false 86400 0 0 "" "" "" 0 0 [] in
  let r := ReplacePolicy Some ex_url builtinJSON (mkBlSettings true 60) [doc] [] ex_world in
  is_ok r.2 = true
  /\ ((fun l => (bl_Name l, bl_URL l, bl_Builtin l)) <$> c_lists (conf (pw_db r.1))) = [("steven-black", "https://elsewhere", true)]
  /\ (PutList ex_url (mkBlList 1 "steven-black" "https://raw.githubusercontent.com/StevenBlack/hosts/master/hosts" "hosts" "" true true 86400 0 0 "" "" "" 0 0 []) r.1).2
     = Err (Invalid "url" "builtin_immutable").
Proof. split; [|split]; vm_compute; reflexivity. Qed.
