(* ===== verification/DhcpAlloc.v ===== *)
(** * Address assignment: [internal/dhcpd/alloc.go]

    The allocator's maps and every operation on them, each one atomic step as the
    mutex makes it.  The clock is an argument.  The order in which Go walks a map
    is not specified: [map_to_list] is one such order.  It shows only in
    [SetReservations] when two clients are reserved one address, which
    [Reservations] never builds. *)
From S2P Require Import Prelude GoStr NetIP.

Definition quarantineFor : Z := seconds 600.
Record Lease := mkLease { l_MAC : string; l_IP : Addr; l_Hostname : string; l_Expires : Z }.
#[export] Instance Lease_eq_dec : EqDecision Lease.
Proof. solve_decision. Defined.
Record Config := mkConfig {
  cf_Subnet : Prefix; cf_Start : Addr; cf_End : Addr; cf_Host : Addr; cf_Gateway : Addr; cf_LeaseTime : Z }.
Record Allocator := mkAlloc {
  cfg : Config;
  byMAC : gmap string Lease; byIP : gmap Addr string;
  reserved : gmap string Addr; reservedIP : gmap Addr string;
  quarantine : gmap Addr Z }.
Definition NewAllocator (c : Config) : Allocator := mkAlloc c ∅ ∅ ∅ ∅ ∅.

Definition with_leases (m : gmap string Lease) (i : gmap Addr string) (a : Allocator) : Allocator :=
  mkAlloc (cfg a) m i (reserved a) (reservedIP a) (quarantine a).
Definition with_quarantine (q : gmap Addr Z) (a : Allocator) : Allocator :=
  mkAlloc (cfg a) (byMAC a) (byIP a) (reserved a) (reservedIP a) q.
Definition Load (ls : list Lease) (a : Allocator) : Allocator :=
  with_leases (foldl (fun m l => <[l_MAC l := l]> m) ∅ ls) (foldl (fun m l => <[l_IP l := l_MAC l]> m) ∅ ls) a.
Definition SetReservations (r : gmap string Addr) (a : Allocator) : Allocator :=
  mkAlloc (cfg a) (byMAC a) (byIP a) r (foldl (fun m x => <[x.2 := x.1]> m) ∅ (map_to_list r)) (quarantine a).

(** [t.After(now)] for an expiry. *)
Definition after (t now : Z) : bool := now <? t.
Definition inRange (c : Config) (ip : Addr) : bool :=
  if negb (Addr.Is4 ip) || negb (Addr.Is4 (cf_Start c)) || negb (Addr.Is4 (cf_End c)) then false
  else (Addr.value (cf_Start c) <=? Addr.value ip) && (Addr.value ip <=? Addr.value (cf_End c)).
Definition protected (c : Config) (ip : Addr) : bool := bool_decide (ip = cf_Host c) || bool_decide (ip = cf_Gateway c).
Definition usable (c : Config) (ip : Addr) : bool := inRange c ip && negb (protected c ip).
Definition heldByAnother (a : Allocator) (ip : Addr) (mac : string) (now : Z) : bool :=
  match byIP a !! ip with
  | None => false
  | Some holder =>
      if bool_decide (holder = mac) then false
      else match byMAC a !! holder with Some l => after (l_Expires l) now | None => false end
  end.
Definition free (a : Allocator) (ip : Addr) (mac : string) (now : Z) : bool :=
  if negb (usable (cfg a) ip) then false
  else if (match quarantine a !! ip with Some until => after until now | None => false end) then false
  else if (match reservedIP a !! ip with Some holder => negb (bool_decide (holder = mac)) | None => false end) then false
  else negb (heldByAnother a ip mac now).
Definition nameTaken (a : Allocator) (hostname mac : string) (now : Z) : bool :=
  if bool_decide (hostname = "") then false
  else existsb (fun x => negb (bool_decide (l_MAC x.2 = mac)) && bool_decide (l_Hostname x.2 = hostname) && after (l_Expires x.2) now)
         (map_to_list (byMAC a)).

(** The scan of rule 4: one address per turn, from [ip] on. *)
Fixpoint scan (fuel : nat) (a : Allocator) (mac : string) (now : Z) (ip : Addr) : option Addr :=
  match fuel with
  | O => None
  | S f =>
      if negb (inRange (cfg a) ip) then None
      else if free a ip mac now then Some ip
      else scan f a mac now (Addr.Next ip)
  end.
(** One turn per address of the range. *)
Definition scan_fuel (c : Config) : nat := Z.to_nat (Addr.value (cf_End c) - Addr.value (cf_Start c) + 2).

Definition commit (mac hostname : string) (now ttl : Z) (tentative : bool) (ip : Addr) (fresh : bool) (a : Allocator)
    : Allocator * option (Lease * bool) :=
  let prev := byMAC a !! mac in
  let held := match prev with Some p => after (l_Expires p) now | None => false end in
  let m := match byIP a !! ip with
           | Some holder => if bool_decide (holder = mac) then byMAC a else delete holder (byMAC a)
           | None => byMAC a
           end in
  let i := match prev with
           | Some p => if bool_decide (l_IP p = ip) then byIP a else delete (l_IP p) (byIP a)
           | None => byIP a
           end in
  let l := mkLease mac ip hostname (now + ttl) in
  let l := match prev with
           | Some p =>
               if tentative && held && bool_decide (l_IP p = ip)
               then mkLease mac ip (l_Hostname p) (if after (l_Expires p) (now + ttl) then l_Expires p else now + ttl)
               else l
           | None => l
           end in
  (with_leases (<[mac := l]> m) (<[ip := mac]> i) a, Some (l, fresh)).

Definition allocate (now : Z) (mac hostname : string) (requested : Addr) (ttl : Z) (tentative : bool) (a : Allocator)
    : Allocator * option (Lease * bool) :=
  let hostname := if nameTaken a hostname mac now then "" else hostname in
  let prev := byMAC a !! mac in
  let held := match prev with Some p => after (l_Expires p) now | None => false end in
  let commit := commit mac hostname now ttl tentative in
  (** Rules 3 and 4. *)
  let dynamic :=
    if Addr.IsValid requested && free a requested mac now then commit requested true a
    else match scan (scan_fuel (cfg a)) a mac now (cf_Start (cfg a)) with
         | Some ip => commit ip true a
         | None => (a, None)
         end in
  (** The lease a DISCOVER must not take away. *)
  let keep :=
    match prev with
    | Some p => if tentative && held && negb (protected (cfg a) (l_IP p)) then (a, Some (p, false)) else dynamic
    | None => dynamic
    end in
  (** Rule 2. *)
  let renew :=
    match prev with
    | Some l =>
        if usable (cfg a) (l_IP l) && bool_decide (default "" (reservedIP a !! l_IP l) = "")
        then commit (l_IP l) (negb (after (l_Expires l) now)) a
        else keep
    | None => keep
    end in
  (** Rule 1. *)
  match reserved a !! mac with
  | Some ip =>
      if protected (cfg a) ip then renew
      else if negb tentative then commit ip false a
      else if heldByAnother a ip mac now then renew
      else match prev with
           | Some p => if held && negb (bool_decide (l_IP p = ip))
                       then (a, Some (mkLease mac ip "" (now + ttl), false))
                       else commit ip false a
           | None => commit ip false a
           end
  | None => renew
  end.
Definition Allocate (now : Z) (mac hostname : string) (requested : Addr) (ttl : Z) (a : Allocator) : Allocator * option Lease :=
  let '(a, r) := allocate now mac hostname requested ttl false a in (a, fst <$> r).
Definition Offer (now : Z) (mac : string) (requested : Addr) (hold : Z) (a : Allocator) : Allocator * option (Lease * bool) :=
  allocate now mac "" requested hold true a.

Definition Release (mac : string) (ip : Addr) (a : Allocator) : Allocator * bool :=
  match byMAC a !! mac with
  | Some l => if bool_decide (l_IP l = ip) then (with_leases (delete mac (byMAC a)) (delete (l_IP l) (byIP a)) a, true) else (a, false)
  | None => (a, false)
  end.
Definition Decline (now : Z) (mac : string) (ip : Addr) (a : Allocator) : Allocator * bool :=
  if bool_decide (mac = "") || negb (bool_decide (default "" (byIP a !! ip) = mac)) then (a, false)
  else
    let a := with_leases (delete mac (byMAC a)) (delete ip (byIP a)) a in
    (if inRange (cfg a) ip then with_quarantine (<[ip := now + quarantineFor]> (quarantine a)) a else a, true).
Definition reservationFor (mac : string) (a : Allocator) : option Addr := reserved a !! mac.
Definition Quarantine (now : Z) (ip : Addr) (a : Allocator) : Allocator :=
  with_quarantine (<[ip := now + quarantineFor]> (quarantine a)) a.
Definition Leases (now : Z) (a : Allocator) : list Lease :=
  filter (fun l => after (l_Expires l) now = true) (map_to_list (byMAC a)).*2.

(** ** Operations as steps *)
Inductive aop : Type :=
  | OpLoad (ls : list Lease)
  | OpReserve (r : gmap string Addr)
  | OpAllocate (mac hostname : string) (requested : Addr) (ttl : Z)
  | OpOffer (mac : string) (requested : Addr) (hold : Z)
  | OpRelease (mac : string) (ip : Addr)
  | OpDecline (mac : string) (ip : Addr)
  | OpQuarantine (ip : Addr).
Definition astep (now : Z) (o : aop) (a : Allocator) : Allocator :=
  match o with
  | OpLoad ls => Load ls a
  | OpReserve r => SetReservations r a
  | OpAllocate mac h req ttl => (Allocate now mac h req ttl a).1
  | OpOffer mac req hold => (Offer now mac req hold a).1
  | OpRelease mac ip => (Release mac ip a).1
  | OpDecline mac ip => (Decline now mac ip a).1
  | OpQuarantine ip => Quarantine now ip a
  end.
Definition arun (h : list (Z * aop)) (a : Allocator) : Allocator := foldl (fun a x => astep x.1 x.2 a) a h.
(** What a stored lease table gives [Load]: one row per client and per address. *)
Definition op_ok (o : aop) : Prop :=
  match o with OpLoad ls => NoDup (l_MAC <$> ls) /\ NoDup (l_IP <$> ls) | _ => True end.

(** ** The two maps are inverse *)
Definition alloc_ok (a : Allocator) : Prop :=
  (forall m l, byMAC a !! m = Some l -> l_MAC l = m /\ byIP a !! l_IP l = Some m) /\
  (forall ip m, byIP a !! ip = Some m -> exists l, byMAC a !! m = Some l /\ l_IP l = ip).
Definition live (now : Z) (l : Lease) : Prop := now < l_Expires l.

Lemma alloc_ok_inj a m1 m2 l1 l2 : alloc_ok a ->
  byMAC a !! m1 = Some l1 -> byMAC a !! m2 = Some l2 -> l_IP l1 = l_IP l2 -> m1 = m2.
Proof.
  intros [H _] H1 H2 He. apply H in H1 as [_ H1]. apply H in H2 as [_ H2]. rewrite He in H1. congruence.
Qed.

Lemma new_ok c : alloc_ok (NewAllocator c).
Proof. split; intros ? ?; cbn; by rewrite lookup_empty. Qed.

Lemma Load_ok ls a : NoDup (l_MAC <$> ls) -> NoDup (l_IP <$> ls) -> alloc_ok (Load ls a).
Proof.
  intros Hm Hi. split; cbn.
  - intros m l Hl. apply (fill_lookup l_MAC id) in Hl as [(x & Hx & Hk & Hv)|[_ Hl]]; [|by rewrite lookup_empty in Hl|done].
    cbn in Hv. subst l. split; [done|].
    apply (fill_lookup l_IP l_MAC); [done|]. left. by exists x.
  - intros ip m Hip. apply (fill_lookup l_IP l_MAC) in Hip as [(x & Hx & Hk & Hv)|[_ Hl]];
      [|by rewrite lookup_empty in Hl|done].
    exists x. split; [|done]. apply (fill_lookup l_MAC id); [done|]. left. by exists x.
Qed.

(** What [commit] leaves in the two maps. *)
Lemma commit_byMAC_ne mac h now ttl t ip fresh a m : m <> mac ->
  byMAC (commit mac h now ttl t ip fresh a).1 !! m =
  if bool_decide (byIP a !! ip = Some m) then None else byMAC a !! m.
Proof.
  intros Hm. cbn. rewrite lookup_insert_ne by done.
  destruct (byIP a !! ip) as [holder|]; [|by rewrite bool_decide_false].
  destruct (bool_decide_reflect (holder = mac)) as [->|Hh].
  - by rewrite bool_decide_false by naive_solver.
  - destruct (bool_decide_reflect (Some holder = Some m)) as [[= ->]|Hne]; [by rewrite lookup_delete_eq|].
    rewrite lookup_delete_ne by naive_solver. done.
Qed.
Lemma commit_byMAC_eq mac h now ttl t ip fresh a : exists l,
  commit mac h now ttl t ip fresh a = ((commit mac h now ttl t ip fresh a).1, Some (l, fresh)) /\
  byMAC (commit mac h now ttl t ip fresh a).1 !! mac = Some l /\ l_MAC l = mac /\ l_IP l = ip.
Proof.
  cbn. eexists. split; [done|]. rewrite lookup_insert_eq. split; [done|].
  destruct (byMAC a !! mac); [|done]. by case_if.
Qed.
Lemma commit_byIP mac h now ttl t ip fresh a i : i <> ip ->
  byIP (commit mac h now ttl t ip fresh a).1 !! i =
  if bool_decide ((l_IP <$> byMAC a !! mac) = Some i) then None else byIP a !! i.
Proof.
  intros Hi. cbn. rewrite lookup_insert_ne by done.
  destruct (byMAC a !! mac) as [p|]; cbn; [|by rewrite bool_decide_false].
  destruct (bool_decide_reflect (l_IP p = ip)) as [->|Hp].
  - by rewrite bool_decide_false by naive_solver.
  - destruct (bool_decide_reflect (Some (l_IP p) = Some i)) as [[= <-]|Hne]; [by rewrite lookup_delete_eq|].
    rewrite lookup_delete_ne by naive_solver. done.
Qed.
Lemma commit_byIP_eq mac h now ttl t ip fresh a :
  byIP (commit mac h now ttl t ip fresh a).1 !! ip = Some mac.
Proof. apply lookup_insert_eq. Qed.

Lemma commit_ok mac h now ttl t ip fresh a : alloc_ok a -> alloc_ok (commit mac h now ttl t ip fresh a).1.
Proof.
  intros Hok. pose proof Hok as [Hm Hi].
  destruct (commit_byMAC_eq mac h now ttl t ip fresh a) as (l0 & _ & Hl0 & Hmac & Hip).
  split.
  - intros m l Hl. destruct (decide (m = mac)) as [->|Hne].
    + rewrite Hl0 in Hl. injection Hl as <-. split; [done|]. rewrite Hip. apply commit_byIP_eq.
    + rewrite commit_byMAC_ne in Hl by done. case_bool_decide as Hh; [done|].
      pose proof (Hm _ _ Hl) as [HM HI]. split; [done|].
      assert (l_IP l <> ip) by congruence. rewrite commit_byIP by done.
      case_bool_decide as Hp; [|done]. destruct (byMAC a !! mac) as [p|] eqn:Ep; [|done].
      cbn in Hp. injection Hp as Hp. exfalso. apply Hne. by eapply alloc_ok_inj.
  - intros i m Him. destruct (decide (i = ip)) as [->|Hne].
    + rewrite commit_byIP_eq in Him. injection Him as <-. by exists l0.
    + rewrite commit_byIP in Him by done. case_bool_decide as Hp; [done|].
      destruct (Hi _ _ Him) as (l & Hl & Hli). exists l. split; [|done].
      assert (m <> mac) as Hmm by (intros ->; rewrite Hl in Hp; cbn in Hp; congruence).
      rewrite commit_byMAC_ne by done. case_bool_decide as Hb; [|done].
      destruct (Hi _ _ Hb) as (l' & Hl' & Hl'i). congruence.
Qed.

(** ** The rules an assignment follows *)
Definition held (a : Allocator) (mac : string) (now : Z) : Prop :=
  exists p, byMAC a !! mac = Some p /\ live now p.
Definition renewable (a : Allocator) (mac : string) (ip : Addr) : Prop :=
  exists l, byMAC a !! mac = Some l /\ l_IP l = ip /\ usable (cfg a) ip = true /\ default "" (reservedIP a !! ip) = "".
(** Why an address is committed to a client. *)
Inductive grant (a : Allocator) (mac : string) (now : Z) (tentative : bool) : Addr -> bool -> Prop :=
  | grant_reserved ip :
      reserved a !! mac = Some ip -> protected (cfg a) ip = false ->
      (tentative = true -> heldByAnother a ip mac now = false /\
         forall p, byMAC a !! mac = Some p -> live now p -> l_IP p = ip) ->
      grant a mac now tentative ip false
  | grant_renew l :
      byMAC a !! mac = Some l -> renewable a mac (l_IP l) ->
      grant a mac now tentative (l_IP l) (negb (after (l_Expires l) now))
  | grant_free ip :
      free a ip mac now = true ->
      (tentative = true -> forall p, byMAC a !! mac = Some p -> live now p -> protected (cfg a) (l_IP p) = true) ->
      grant a mac now tentative ip true.

Lemma scan_free a mac now : forall n ip r, scan n a mac now ip = Some r -> free a r mac now = true.
Proof.
  induction n as [|n IH]; intros ip r; cbn; [done|]. destruct (negb (inRange (cfg a) ip)); [done|].
  destruct (free a ip mac now) eqn:F; [by intros [= <-]|apply IH].
Qed.
Lemma after_live t now l : t = l_Expires l -> after t now = true <-> live now l.
Proof. intros ->. apply Z.ltb_lt. Qed.
Lemma not_live_after now l : after (l_Expires l) now = false -> ~ live now l.
Proof. unfold after, live. intros ?%Z.ltb_ge. lia. Qed.

(** Every outcome of an assignment: a commitment by one of the rules; a promise to
    a client that discovers, which changes nothing; or no free address. *)
Inductive outcome (a : Allocator) (mac hostname : string) (now ttl : Z) (tentative : bool) : Allocator * option (Lease * bool) -> Prop :=
  | out_commit h ip fresh :
      h = (if nameTaken a hostname mac now then "" else hostname) ->
      grant a mac now tentative ip fresh -> outcome a mac hostname now ttl tentative (commit mac h now ttl tentative ip fresh a)
  | out_promise ip p :
      tentative = true -> reserved a !! mac = Some ip -> protected (cfg a) ip = false ->
      byMAC a !! mac = Some p -> live now p ->
      outcome a mac hostname now ttl tentative (a, Some (mkLease mac ip "" (now + ttl), false))
  | out_keep p :
      tentative = true -> byMAC a !! mac = Some p -> live now p -> protected (cfg a) (l_IP p) = false ->
      outcome a mac hostname now ttl tentative (a, Some (p, false))
  | out_none :
      (tentative = false -> forall ip, reserved a !! mac = Some ip -> protected (cfg a) ip = true) ->
      (forall ip, ~ renewable a mac ip) ->
      scan (scan_fuel (cfg a)) a mac now (cf_Start (cfg a)) = None ->
      outcome a mac hostname now ttl tentative (a, None).

Lemma allocate_outcome now mac hostname requested ttl tentative a :
  outcome a mac hostname now ttl tentative (allocate now mac hostname requested ttl tentative a).
Proof.
  unfold allocate.
  set (h := if nameTaken a hostname mac now then "" else hostname).
  set (prev := byMAC a !! mac).
  set (hd := match prev with Some p => after (l_Expires p) now | None => false end).
  set (dynamic := if Addr.IsValid requested && free a requested mac now then _ else _).
  set (keep := match prev with Some p => if tentative && hd && _ then _ else _ | None => _ end).
  set (renew := match prev with Some l => if usable _ _ && _ then _ else _ | None => _ end).
  assert (Hlive : forall p, prev = Some p -> hd = true <-> live now p).
  { intros p Hp. unfold hd. rewrite Hp. by apply after_live. }
  (* without a reservation that could be taken *)
  assert (Hdyn : (tentative = false -> forall ip, reserved a !! mac = Some ip -> protected (cfg a) ip = true) ->
    (forall ip, ~ renewable a mac ip) ->
    (tentative = true -> forall p, byMAC a !! mac = Some p -> live now p -> protected (cfg a) (l_IP p) = true) ->
    outcome a mac hostname now ttl tentative dynamic).
  { intros Hres Hren Hkeep. unfold dynamic. destruct (Addr.IsValid requested && free a requested mac now) eqn:R.
    - apply andb_true_iff in R as [_ R]. apply out_commit; [done|]. by apply grant_free.
    - destruct (scan _ _ _ _ _) as [ip|] eqn:S; [|by apply out_none].
      apply out_commit; [done|]. apply grant_free; [by eapply scan_free|done]. }
  assert (Hkp : (tentative = false -> forall ip, reserved a !! mac = Some ip -> protected (cfg a) ip = true) ->
    (forall ip, ~ renewable a mac ip) -> outcome a mac hostname now ttl tentative keep).
  { intros Hres Hren. unfold keep. destruct prev as [p|] eqn:Hp.
    - destruct (tentative && hd && negb (protected (cfg a) (l_IP p))) eqn:K.
      + bool_to_prop. apply out_keep; try done. by apply Hlive.
      + apply Hdyn; try done. intros Ht p' Hp' Hl. unfold prev in Hp. rewrite Hp in Hp'. injection Hp' as <-.
        apply (Hlive p eq_refl) in Hl. rewrite Ht, Hl in K. by destruct (protected _ _).
    - apply Hdyn; try done. intros _ p Hp'. unfold prev in Hp. congruence. }
  assert (Hrn : (tentative = false -> forall ip, reserved a !! mac = Some ip -> protected (cfg a) ip = true) ->
    outcome a mac hostname now ttl tentative renew).
  { intros Hres. unfold renew. destruct prev as [l|] eqn:Hp.
    - destruct (usable _ _ && _) eqn:U.
      + bool_to_prop. apply out_commit; [done|]. apply grant_renew; [done|]. by exists l.
      + apply Hkp; [done|]. intros ip (l' & Hl' & <- & Hu & Hd). unfold prev in Hp. rewrite Hp in Hl'.
        injection Hl' as <-. rewrite Hu, bool_decide_true in U by done. done.
    - apply Hkp; [done|]. intros ip (l' & Hl' & _). unfold prev in Hp. congruence. }
  destruct (reserved a !! mac) as [ip|] eqn:Er; [|by apply Hrn].
  destruct (protected (cfg a) ip) eqn:Pr; [apply Hrn; congruence|].
  destruct tentative; cbn [negb]; [|apply out_commit; [done|]; by apply grant_reserved].
  destruct (heldByAnother a ip mac now) eqn:Hb; [by apply Hrn|].
  destruct prev as [p|] eqn:Hp.
  - destruct (hd && negb (bool_decide (l_IP p = ip))) eqn:C.
    + apply andb_true_iff in C as [C _]. eapply out_promise; try done. by apply Hlive.
    + apply out_commit; [done|]. apply grant_reserved; [done..|]. intros _. split; [done|].
      intros p' Hp' Hl. unfold prev in Hp. rewrite Hp in Hp'. injection Hp' as <-.
      apply (Hlive p eq_refl) in Hl. rewrite Hl in C. cbn in C. by bool_to_prop.
  - apply out_commit; [done|]. apply grant_reserved; [done..|]. intros _. split; [done|].
    intros p Hp'. unfold prev in Hp. congruence.
Qed.

Lemma outcome_cases now mac hostname requested ttl t a (P : Allocator * option (Lease * bool) -> Prop) :
  (forall r, outcome a mac hostname now ttl t r -> P r) -> P (allocate now mac hostname requested ttl t a).
Proof. intros H. apply H, allocate_outcome. Qed.

Lemma allocate_ok now mac hostname requested ttl t a : alloc_ok a ->
  alloc_ok (allocate now mac hostname requested ttl t a).1.
Proof. intros Ha. apply outcome_cases. intros r []; cbn [fst]; try done. by apply commit_ok. Qed.
Lemma Allocate_fst now mac h req ttl a : (Allocate now mac h req ttl a).1 = (allocate now mac h req ttl false a).1.
Proof. unfold Allocate. by destruct (allocate _ _ _ _ _ _ _). Qed.
Lemma Allocate_snd now mac h req ttl a :
  (Allocate now mac h req ttl a).2 = fst <$> (allocate now mac h req ttl false a).2.
Proof. unfold Allocate. by destruct (allocate _ _ _ _ _ _ _). Qed.

(** Removing one binding from both maps. *)
Lemma drop_ok mac ip a : alloc_ok a -> byIP a !! ip = Some mac ->
  alloc_ok (with_leases (delete mac (byMAC a)) (delete ip (byIP a)) a).
Proof.
  intros Hok Hb. pose proof Hok as [Hm Hi]. split; cbn.
  - intros m l [Hne Hl]%lookup_delete_Some. pose proof (Hm _ _ Hl) as [HM HI]. split; [done|].
    rewrite lookup_delete_ne; [done|]. congruence.
  - intros i m [Hne Hl]%lookup_delete_Some. destruct (Hi _ _ Hl) as (l & Hl' & He). exists l. split; [|done].
    rewrite lookup_delete_ne; [done|]. intros <-. destruct (Hi _ _ Hb) as (l2 & Hl2 & He2). congruence.
Qed.

Lemma release_cases mac ip a : alloc_ok a ->
  Release mac ip a = (a, false) /\ byIP a !! ip <> Some mac \/
  Release mac ip a = (with_leases (delete mac (byMAC a)) (delete ip (byIP a)) a, true) /\ byIP a !! ip = Some mac.
Proof.
  intros [Hm Hi]. unfold Release. destruct (byMAC a !! mac) as [l|] eqn:E.
  - destruct (bool_decide_reflect (l_IP l = ip)) as [<-|Hne]; [right|left]; split; try done.
    + by apply Hm.
    + intros Hb. destruct (Hi _ _ Hb) as (l' & Hl' & He). congruence.
  - left. split; [done|]. intros Hb. destruct (Hi _ _ Hb) as (l' & Hl' & He). congruence.
Qed.
Lemma decline_cases now mac ip a :
  Decline now mac ip a = (a, false) /\ (mac = "" \/ byIP a !! ip <> Some mac) \/
  byIP a !! ip = Some mac /\ mac <> "" /\
  Decline now mac ip a =
    (let a' := with_leases (delete mac (byMAC a)) (delete ip (byIP a)) a in
     if inRange (cfg a) ip then with_quarantine (<[ip := now + quarantineFor]> (quarantine a)) a' else a', true).
Proof.
  unfold Decline. destruct (bool_decide_reflect (mac = "")) as [->|Hm]; [left; split; [done|by left]|].
  destruct (byIP a !! ip) as [m|] eqn:E; cbn [default from_option id orb].
  - destruct (bool_decide_reflect (m = mac)) as [->|Hne]; [right; done|left; split; [done|right; congruence]].
  - rewrite bool_decide_false by congruence. left. split; [done|right; congruence].
Qed.

Lemma astep_ok now o a : op_ok o -> alloc_ok a -> alloc_ok (astep now o a).
Proof.
  intros Ho Ha. destruct o; cbn [astep].
  - destruct Ho. by apply Load_ok.
  - done.
  - rewrite Allocate_fst. by apply allocate_ok.
  - by apply allocate_ok.
  - destruct (release_cases mac ip a Ha) as [[-> _]|[-> Hb]]; [done|]. by apply drop_ok.
  - destruct (decline_cases now mac ip a) as [[-> _]|(Hb & _ & ->)]; [done|]. cbn [fst].
    pose proof (drop_ok mac ip a Ha Hb). by case_if.
  - done.
Qed.
Lemma arun_ok h a : Forall (fun x => op_ok x.2) h -> alloc_ok a -> alloc_ok (arun h a).
Proof.
  intros Hh. unfold arun. rewrite Forall_forall in Hh.
  apply (foldl_inv alloc_ok). intros s x Hs Hx. apply astep_ok; [by apply Hh|done].
Qed.
Lemma elem_of_Leases now a l : alloc_ok a -> l ∈ Leases now a <-> byMAC a !! l_MAC l = Some l /\ live now l.
Proof.
  intros Ha. unfold Leases. rewrite list_elem_of_filter, list_elem_of_fmap. split.
  - intros (Hl & [m l'] & -> & He). apply elem_of_map_to_list in He. cbn in *.
    pose proof (proj1 Ha _ _ He) as [-> _]. split; [done|]. by apply (after_live _ now l' eq_refl).
  - intros [Hl Hv]. split; [by apply (after_live _ now l eq_refl)|]. exists (l_MAC l, l). split; [done|].
    by apply elem_of_map_to_list.
Qed.

(** after any sequence of operations, whatever the clock does, no two leases the
    server reports share an address and no client has two: the two maps are
    inverse of each other at every step.  [Load] is given what the lease table
    holds, one row per client and per address. *)
Theorem one_client_per_address (c : Config) (h : list (Z * aop)) (now : Z) (l1 l2 : Lease) :
  Forall (fun x => op_ok x.2) h ->
  l1 ∈ Leases now (arun h (NewAllocator c)) -> l2 ∈ Leases now (arun h (NewAllocator c)) ->
  l_IP l1 = l_IP l2 \/ l_MAC l1 = l_MAC l2 -> l1 = l2.
Proof.
  intros Hh. pose proof (arun_ok h _ Hh (new_ok c)) as Ha.
  intros [H1 _]%(elem_of_Leases _ _ _ Ha) [H2 _]%(elem_of_Leases _ _ _ Ha) [He|He]; [|congruence].
  pose proof (alloc_ok_inj _ _ _ _ _ Ha H1 H2 He). congruence.
Qed.

(** a DISCOVER never takes a live lease from another client, and it never
    weakens the discovering client's own: that one keeps its address and name, and
    its expiry only moves later, unless it sits on the server's or the gateway's
    address. *)
Theorem offer_never_weakens (now : Z) (mac : string) (requested : Addr) (hold : Z) (a : Allocator) (m : string) (l : Lease) :
  alloc_ok a -> byMAC a !! m = Some l -> live now l ->
  let a' := (Offer now mac requested hold a).1 in
  (m <> mac -> byMAC a' !! m = Some l) /\
  (m = mac -> protected (cfg a) (l_IP l) = false ->
   exists l', byMAC a' !! mac = Some l' /\ l_IP l' = l_IP l /\ l_Hostname l' = l_Hostname l /\ l_Expires l <= l_Expires l').
Proof.
  intros Ha Hl Hv. unfold Offer. cbv zeta. apply outcome_cases. intros r Hr. destruct Hr as [h ip fresh _ G| | |]; cbn [fst];
    [|split; [done|intros -> _; by exists l]..].
  assert (Hother : m <> mac -> byIP a !! ip = Some m -> False).
  { intros Hne Hb. assert (Hh : heldByAnother a ip mac now = true).
    { unfold heldByAnother. rewrite Hb, bool_decide_false, Hl by done. by apply (after_live _ _ _ eq_refl). }
    destruct G as [ip _ _ Hg|p Hp _|ip F _].
    - destruct (Hg eq_refl) as [Hg' _]. congruence.
    - destruct (proj1 Ha _ _ Hp) as [_ Hb']. congruence.
    - unfold free in F. rewrite Hh in F. repeat case_if; done. }
  split.
  - intros Hne. rewrite commit_byMAC_ne by done. case_bool_decide; [by exfalso; eauto|done].
  - intros -> Hp. assert (ip = l_IP l) as ->.
    { destruct G as [ip _ _ Hg|p Hp' _|ip _ Hg].
      - symmetry. by apply (Hg eq_refl).
      - congruence.
      - rewrite (Hg eq_refl _ Hl Hv) in Hp. done. }
    cbn. rewrite lookup_insert_eq, Hl, (bool_decide_true (l_IP l = l_IP l)) by done.
    rewrite (proj2 (after_live _ now l eq_refl) Hv). cbn. eexists. split; [done|]. cbn.
    split; [done|]. split; [done|]. unfold after. destruct (Z.ltb_spec (now + hold) (l_Expires l)); lia.
Qed.

(** committing a lease ends another client's live lease only when the client
    has a reservation for exactly that address; every other live lease stays as
    it was. *)
Theorem allocate_evicts_only_by_reservation (now : Z) (mac hostname : string) (requested : Addr) (ttl : Z) (a : Allocator) (m : string) (l : Lease) :
  alloc_ok a -> m <> mac -> byMAC a !! m = Some l -> live now l ->
  let a' := (Allocate now mac hostname requested ttl a).1 in
  byMAC a' !! m = Some l \/ byMAC a' !! m = None /\ reserved a !! mac = Some (l_IP l) /\ protected (cfg a) (l_IP l) = false.
Proof.
  intros Ha Hne Hl Hv. cbv zeta. rewrite Allocate_fst. apply outcome_cases. intros r Hr.
  destruct Hr as [h ip fresh _ G| | |]; cbn [fst]; [|by left..].
  rewrite commit_byMAC_ne by done. case_bool_decide as Hb; [right|by left].
  split; [done|]. assert (Hi : l_IP l = ip).
  { destruct (proj2 Ha _ _ Hb) as (l' & Hl' & He). congruence. }
  rewrite Hi. destruct G as [ip Hr Hp _|p Hp _|ip F _]; [done| |].
  - destruct (proj1 Ha _ _ Hp) as [_ Hb']. congruence.
  - assert (Hh : heldByAnother a ip mac now = true).
    { unfold heldByAnother. rewrite Hb, bool_decide_false, Hl by done. by apply (after_live _ _ _ eq_refl). }
    unfold free in F. rewrite Hh in F. repeat case_if; done.
Qed.

Lemma free_inv a ip mac now : free a ip mac now = true <->
  usable (cfg a) ip = true /\ (forall u, quarantine a !! ip = Some u -> u <= now) /\
  (forall m, reservedIP a !! ip = Some m -> m = mac) /\ heldByAnother a ip mac now = false.
Proof.
  unfold free, after. destruct (usable (cfg a) ip); cbn [negb]; [|naive_solver].
  destruct (quarantine a !! ip) as [u|]; [destruct (Z.ltb_spec now u)|].
  - split; [done|]. intros (_ & Hq & _). pose proof (Hq u eq_refl). lia.
  - destruct (reservedIP a !! ip) as [m|]; [destruct (bool_decide_reflect (m = mac)) as [->|Hne]|]; cbn [negb].
    + rewrite negb_true_iff. naive_solver.
    + split; [done|]. intros (_ & _ & Hr & _). naive_solver.
    + rewrite negb_true_iff. naive_solver.
  - destruct (reservedIP a !! ip) as [m|]; [destruct (bool_decide_reflect (m = mac)) as [->|Hne]|]; cbn [negb].
    + rewrite negb_true_iff. naive_solver.
    + split; [done|]. intros (_ & _ & Hr & _). naive_solver.
    + rewrite negb_true_iff. naive_solver.
Qed.

(** C23: every address the server gives or promises belongs to the client it is
    given to and is never the server's own or the gateway's.  It is the client's
    reservation, or an address of the range that no other client has reserved,
    or the live lease a DISCOVER leaves in place; and an address that is new to
    a client that held none is not quarantined. *)
Theorem granted_address_allowed (now : Z) (mac hostname : string) (requested : Addr) (ttl : Z) (tentative : bool) (a : Allocator)
    (l : Lease) (fresh : bool) :
  alloc_ok a -> (allocate now mac hostname requested ttl tentative a).2 = Some (l, fresh) ->
  l_MAC l = mac /\ protected (cfg a) (l_IP l) = false /\
  (reserved a !! mac = Some (l_IP l) \/
   inRange (cfg a) (l_IP l) = true /\ (forall m, reservedIP a !! l_IP l = Some m -> m = mac \/ m = "") \/
   tentative = true /\ byMAC a !! mac = Some l /\ live now l) /\
  (fresh = true -> byMAC a !! mac = None -> forall u, quarantine a !! l_IP l = Some u -> u <= now).
Proof.
  intros Ha. apply outcome_cases. intros r Hr. destruct Hr as [h ip f _ G|ip p Ht Hr Hp Hm Hv|p Ht Hm Hv Hp|]; cbn [snd].
  - destruct (commit_byMAC_eq mac h now ttl tentative ip f a) as (l0 & Hc & _ & HM & HI).
    rewrite Hc. cbn [snd]. intros [= <- <-]. rewrite HI. split; [done|].
    destruct G as [ip Hr Hp _|p Hp (l' & Hl' & _ & Hu & Hd)|ip F _].
    + split; [done|]. split; [by left|done].
    + unfold usable in Hu. bool_to_prop. split; [done|]. split; [|congruence].
      right. left. split; [done|]. intros m Hm. rewrite Hm in Hd. by right.
    + apply free_inv in F as (Hu & Hq & Hr & _). unfold usable in Hu. bool_to_prop.
      split; [done|]. split; [|done]. right. left. split; [done|]. intros m Hm. left. by apply Hr.
  - intros [= <- <-]. cbn. split; [done|]. split; [done|]. split; [by left|done].
  - intros [= <- <-]. split; [by apply (proj1 Ha)|]. split; [done|]. split; [|done]. right. by right.
  - done.
Qed.

(** ** The search for a free address *)
Definition range_ok (c : Config) : Prop :=
  Addr.Is4 (cf_Start c) = true /\ Addr.Is4 (cf_End c) = true /\ addr_wf (cf_Start c) /\ addr_wf (cf_End c).
Lemma inRange_4 c ip : range_ok c -> inRange c ip = true <->
  exists u, ip = Addr4 u /\ Addr.value (cf_Start c) <= u <= Addr.value (cf_End c).
Proof.
  intros (H1 & H2 & _). unfold inRange. rewrite H1, H2. destruct ip as [|u|u z]; cbn; [naive_solver| |naive_solver].
  rewrite andb_true_iff, !Z.leb_le. split; [intros H; by exists u|intros (? & [= <-] & ?); done].
Qed.

(** From [u] on, with a turn left for every address up to the end of the range. *)
Lemma scan_spec a mac now : range_ok (cfg a) -> forall n u,
  Addr.value (cf_Start (cfg a)) <= u < 2 ^ 32 -> Addr.value (cf_End (cfg a)) - u + 1 < Z.of_nat n ->
  match scan n a mac now (Addr4 u) with
  | Some ip => exists v, ip = Addr4 v /\ u <= v <= Addr.value (cf_End (cfg a)) /\ free a ip mac now = true /\
                 forall w, u <= w < v -> free a (Addr4 w) mac now = false
  | None => forall w, u <= w <= Addr.value (cf_End (cfg a)) -> free a (Addr4 w) mac now = false
  end.
Proof.
  intros Hc. assert (HE : Addr.value (cf_End (cfg a)) < 2 ^ 32).
  { destruct Hc as (_ & H2 & _ & H4). destruct (cf_End (cfg a)); [done|apply H4|done]. }
  induction n as [|n IH]; intros u Hu Hn; [cbn; intros; lia|]. cbn [scan].
  destruct (inRange (cfg a) (Addr4 u)) eqn:R; cbn [negb].
  - apply inRange_4 in R as (? & [= <-] & R); [|done]. destruct (free a (Addr4 u) mac now) eqn:F.
    + exists u. split; [done|]. split; [lia|]. split; [done|]. intros. lia.
    + cbn [Addr.Next]. destruct (Z.eqb_spec (u + 1) (2 ^ 32)) as [Hlast|Hlast].
      * destruct n; cbn; [lia|]. intros w Hw. by replace w with u by lia.
      * specialize (IH (u + 1) ltac:(lia) ltac:(lia)). destruct (scan n a mac now (Addr4 (u + 1))) as [ip|].
        -- destruct IH as (v & -> & Hv & Hf & Hlow). exists v. split; [done|]. split; [lia|]. split; [done|].
           intros w Hw. destruct (decide (w = u)) as [->|]; [done|]. apply Hlow. lia.
        -- intros w Hw. destruct (decide (w = u)) as [->|]; [done|]. apply IH. lia.
  - intros w Hw. exfalso. enough (inRange (cfg a) (Addr4 u) = true) by congruence.
    apply inRange_4; [done|]. exists u. split; [done|lia].
Qed.
Lemma free_in_range a ip mac now : range_ok (cfg a) -> free a ip mac now = true ->
  exists u, ip = Addr4 u /\ Addr.value (cf_Start (cfg a)) <= u <= Addr.value (cf_End (cfg a)).
Proof. intros Hc F. apply free_inv in F as [Hu _]. unfold usable in Hu. bool_to_prop. by apply inRange_4. Qed.

Lemma scan_start a mac now n : range_ok (cfg a) -> (scan_fuel (cfg a) <= n)%nat ->
  match scan n a mac now (cf_Start (cfg a)) with
  | Some ip => free a ip mac now = true /\
               forall ip', free a ip' mac now = true -> Addr.value ip <= Addr.value ip'
  | None => forall ip', free a ip' mac now = false
  end.
Proof.
  intros Hc Hn. pose proof Hc as (H1 & _ & H3 & _).
  destruct (cf_Start (cfg a)) as [|s|] eqn:Es; try done.
  assert (Hs : Addr.value (cf_Start (cfg a)) = s) by by rewrite Es.
  unfold scan_fuel in Hn. pose proof (scan_spec a mac now Hc n s) as Hsp. rewrite Hs in Hsp, Hn.
  cbn in H3. specialize (Hsp ltac:(lia) ltac:(lia)). destruct (scan n a mac now (Addr4 s)) as [ip|].
  - destruct Hsp as (v & -> & Hv & Hf & Hlow). split; [done|]. intros ip' F.
    destruct (free_in_range _ _ _ _ Hc F) as (w & -> & Hw). cbn. rewrite Hs in Hw.
    destruct (decide (w < v)) as [Hlt|]; [|lia]. rewrite Hlow in F by lia. done.
  - intros ip'. destruct (free a ip' mac now) eqn:F; [|done].
    destruct (free_in_range _ _ _ _ Hc F) as (w & -> & Hw). rewrite Hs in Hw. rewrite Hsp in F by lia. done.
Qed.

(** the search of the range ends after one turn per address: more turns give
    the same answer, which is the lowest free address, or none exactly when no
    address is free for the client.  The range may end at 255.255.255.255. *)
Theorem scan_terminates (a : Allocator) (mac : string) (now : Z) (n : nat) :
  range_ok (cfg a) -> (scan_fuel (cfg a) <= n)%nat ->
  scan n a mac now (cf_Start (cfg a)) = scan (scan_fuel (cfg a)) a mac now (cf_Start (cfg a)) /\
  match scan (scan_fuel (cfg a)) a mac now (cf_Start (cfg a)) with
  | Some ip => free a ip mac now = true /\
               forall ip', free a ip' mac now = true -> Addr.value ip <= Addr.value ip'
  | None => forall ip', free a ip' mac now = false
  end.
Proof.
  intros Hc Hn. pose proof (scan_start a mac now n Hc Hn) as S1.
  pose proof (scan_start a mac now _ Hc (Nat.le_refl _)) as S2. split; [|done].
  destruct (scan n _ _ _ _) as [i|], (scan (scan_fuel _) _ _ _ _) as [j|]; [|destruct S1 as [F _]; by rewrite S2 in F|destruct S2 as [F _]; by rewrite S1 in F|done].
  destruct S1 as [F1 L1], S2 as [F2 L2]. f_equal.
  destruct (free_in_range _ _ _ _ Hc F1) as (u & -> & _), (free_in_range _ _ _ _ Hc F2) as (v & -> & _).
  pose proof (L1 _ F2). pose proof (L2 _ F1). cbn in *. f_equal. lia.
Qed.

(** a REQUEST fails exactly when there is nothing to give: the client has no
    reservation the server may hand out, nothing of its own to renew, and no
    address of the range is free for it. *)
Theorem allocate_none_iff_exhausted (now : Z) (mac hostname : string) (requested : Addr) (ttl : Z) (a : Allocator) :
  range_ok (cfg a) ->
  (Allocate now mac hostname requested ttl a).2 = None <->
  (forall ip, reserved a !! mac = Some ip -> protected (cfg a) ip = true) /\
  (forall ip, ~ renewable a mac ip) /\ (forall ip, free a ip mac now = false).
Proof.
  intros Hc. rewrite Allocate_snd. pose proof (scan_start a mac now _ Hc (Nat.le_refl _)) as S.
  apply outcome_cases. intros r Hr. destruct Hr as [h ip f _ G|? ? ?|? ?|Hr Hn Hs]; [|done..|].
  - destruct (commit_byMAC_eq mac h now ttl false ip f a) as (l0 & Hcm & _). rewrite Hcm. cbn [snd]. split; [done|].
    intros (H1 & H2 & H3). destruct G as [ip Hr Hp _|p Hp Hrn|ip F _].
    + apply H1 in Hr. congruence.
    + by destruct (H2 (l_IP p)).
    + by rewrite H3 in F.
  - rewrite Hs in S. cbn [snd]. split; [|done]. intros _. split; [by apply Hr|done].
Qed.

(** ** Names: first claim wins *)
Definition names_ok (now : Z) (a : Allocator) : Prop :=
  forall m1 m2 l1 l2, byMAC a !! m1 = Some l1 -> byMAC a !! m2 = Some l2 -> live now l1 -> live now l2 ->
    l_Hostname l1 = l_Hostname l2 -> l_Hostname l1 <> "" -> m1 = m2.
Lemma names_ok_later now now' a : now <= now' -> names_ok now a -> names_ok now' a.
Proof. intros Hn H m1 m2 l1 l2 H1 H2 L1 L2. unfold live in *. eapply H; eauto; unfold live; lia. Qed.
Lemma names_ok_sub now a a' : (forall m l, byMAC a' !! m = Some l -> byMAC a !! m = Some l) -> names_ok now a -> names_ok now a'.
Proof. intros Hs H m1 m2 l1 l2 H1%Hs H2%Hs. by apply H. Qed.
Lemma nameTaken_false a h mac now : alloc_ok a -> nameTaken a h mac now = false -> h <> "" ->
  forall m l, m <> mac -> byMAC a !! m = Some l -> live now l -> l_Hostname l <> h.
Proof.
  unfold nameTaken. intros Ha Hn Hh m l Hm Hl Hv He. rewrite bool_decide_false in Hn by done.
  rewrite existsb_false_forall in Hn. specialize (Hn (m, l) (proj2 (elem_of_map_to_list _ _ _) Hl)). cbn in Hn.
  destruct (proj1 Ha _ _ Hl) as [HM _].
  rewrite (bool_decide_false (l_MAC l = mac)), (bool_decide_true (l_Hostname l = h)), (proj2 (after_live _ now l eq_refl) Hv) in Hn by congruence.
  done.
Qed.
(** The name a commitment leaves on a client's lease: the one passed in, or the one
    its live lease already had. *)
Lemma commit_name mac h now ttl t ip fresh a l : byMAC (commit mac h now ttl t ip fresh a).1 !! mac = Some l ->
  l_Hostname l = h \/ exists p, byMAC a !! mac = Some p /\ live now p /\ l_Hostname l = l_Hostname p.
Proof.
  cbn. rewrite lookup_insert_eq. intros [= <-]. destruct (byMAC a !! mac) as [p|] eqn:E; [|by left].
  destruct (t && after (l_Expires p) now && bool_decide (l_IP p = ip)) eqn:C; [|by left].
  bool_to_prop. right. exists p. split; [done|]. split; [by apply (after_live _ now p eq_refl)|done].
Qed.
Lemma commit_names now mac h hostname ttl t ip fresh a : alloc_ok a -> names_ok now a ->
  h = (if nameTaken a hostname mac now then "" else hostname) -> names_ok now (commit mac h now ttl t ip fresh a).1.
Proof.
  intros Ha Hn Hh.
  assert (Hold : forall m l, m <> mac -> byMAC (commit mac h now ttl t ip fresh a).1 !! m = Some l -> byMAC a !! m = Some l).
  { intros m l Hm. rewrite commit_byMAC_ne by done. by case_bool_decide. }
  assert (Hnew : forall l m l', byMAC (commit mac h now ttl t ip fresh a).1 !! mac = Some l -> m <> mac ->
    byMAC a !! m = Some l' -> live now l' -> l_Hostname l = l_Hostname l' -> l_Hostname l <> "" -> False).
  { intros l m l' Hl Hm Hl' Hv He Hne. destruct (commit_name _ _ _ _ _ _ _ _ _ Hl) as [E|(p & Hp & Hvp & E)].
    - rewrite E in Hne, He. destruct (nameTaken a hostname mac now) eqn:T; [congruence|]. subst h.
      by eapply (nameTaken_false _ _ _ _ Ha T Hne m l').
    - apply Hm. symmetry. apply (Hn mac m p l'); congruence. }
  intros m1 m2 l1 l2 H1 H2 L1 L2 He Hne. destruct (decide (m1 = mac)) as [->|N1], (decide (m2 = mac)) as [->|N2]; [done|..].
  - exfalso. eapply (Hnew l1 m2 l2); eauto.
  - exfalso. eapply (Hnew l2 m1 l1); eauto; congruence.
  - apply (Hn m1 m2 l1 l2); auto.
Qed.
Lemma allocate_names now mac h req ttl t a : alloc_ok a -> names_ok now a -> names_ok now (allocate now mac h req ttl t a).1.
Proof. intros Ha Hn. apply outcome_cases. intros r []; cbn [fst]; try done. by eapply commit_names. Qed.

(** The rows a history loads carry no name twice. *)
Definition load_names_ok (now : Z) (o : aop) : Prop :=
  match o with
  | OpLoad ls => forall l1 l2, l1 ∈ ls -> l2 ∈ ls -> l_Hostname l1 = l_Hostname l2 -> l_Hostname l1 <> "" -> l_MAC l1 = l_MAC l2
  | _ => True
  end.
Lemma astep_names now o a : op_ok o -> load_names_ok now o -> alloc_ok a -> names_ok now a -> names_ok now (astep now o a).
Proof.
  intros Ho Hl Ha Hn. destruct o as [ls|r|mac h req ttl|mac req hold|mac ip|mac ip|ip]; cbn [astep]; try done.
  - destruct Ho as [Hm _]. intros m1 m2 l1 l2 H1 H2 _ _ He Hne. cbn in H1, H2, Hl.
    apply (fill_lookup l_MAC id _ Hm) in H1 as [(x1 & Hx1 & <- & <-)|[_ H1]]; [|by rewrite lookup_empty in H1].
    apply (fill_lookup l_MAC id _ Hm) in H2 as [(x2 & Hx2 & <- & <-)|[_ H2]]; [|by rewrite lookup_empty in H2].
    by apply Hl.
  - rewrite Allocate_fst. by apply allocate_names.
  - by apply allocate_names.
  - destruct (release_cases mac ip a Ha) as [[-> _]|[-> Hb]]; [done|]. eapply names_ok_sub; [|exact Hn].
    intros m l. cbn. by intros [_ ?]%lookup_delete_Some.
  - destruct (decline_cases now mac ip a) as [[-> _]|(Hb & _ & ->)]; [done|]. eapply names_ok_sub; [|exact Hn].
    intros m l. cbn [fst]. case_if; cbn; by intros [_ ?]%lookup_delete_Some.
Qed.

(** while the clock does not go back, two clients never hold live leases under
    one name: option 12 is chosen by the client, and the first claim stands as
    long as its lease. *)
Theorem live_hostnames_unique (c : Config) (h : list (Z * aop)) (now : Z) (l1 l2 : Lease) :
  Forall (fun x => op_ok x.2 /\ load_names_ok x.1 x.2) h -> StronglySorted Z.le (h.*1 ++ [now]) ->
  l1 ∈ Leases now (arun h (NewAllocator c)) -> l2 ∈ Leases now (arun h (NewAllocator c)) ->
  l_Hostname l1 = l_Hostname l2 -> l_Hostname l1 <> "" -> l1 = l2.
Proof.
  intros Hh Hs H1 H2 He Hne.
  assert (Hg : forall h a, Forall (fun x => op_ok x.2 /\ load_names_ok x.1 x.2) h -> StronglySorted Z.le (h.*1 ++ [now]) ->
    alloc_ok a -> (forall t, t ∈ h.*1 ++ [now] -> names_ok t a) -> alloc_ok (arun h a) /\ names_ok now (arun h a)).
  { clear. induction h as [|[t o] h IH]; intros a Hh Hs Ha Hn; [split; [done|apply Hn; left]|].
    inversion Hh as [|? ? [Ho Hl] Hh']; subst. inversion Hs as [|? ? Hs' Ht]; subst. cbn in *.
    apply (IH (astep t o a)); [done..|by apply astep_ok|].
    intros t' Ht'. apply (names_ok_later t); [by eapply Forall_forall in Ht|]. apply astep_names; try done. apply Hn. by left. }
  destruct (Hg h (NewAllocator c) Hh Hs (new_ok c)) as [Ha Hn].
  { intros t _ m1 m2 x1 x2 X. cbn in X. by rewrite lookup_empty in X. }
  apply (elem_of_Leases _ _ _ Ha) in H1 as [H1 L1], H2 as [H2 L2].
  pose proof (Hn _ _ _ _ H1 H2 L1 L2 He Hne). congruence.
Qed.

(** only the client that holds an address can give it up.  A RELEASE or DECLINE
    in another client's name, or for an address the client does not hold, changes
    nothing at all; an honoured one ends exactly that binding, and a DECLINE
    quarantines that address when it is one of the range. *)
Theorem only_holder_drops_lease (now : Z) (mac : string) (ip : Addr) (a : Allocator) :
  alloc_ok a ->
  (let '(a', ok) := Release mac ip a in
   (ok = false -> a' = a) /\
   (ok = true <-> exists l, byMAC a !! mac = Some l /\ l_IP l = ip) /\
   (ok = true -> byMAC a' = delete mac (byMAC a) /\ quarantine a' = quarantine a)) /\
  (let '(a', ok) := Decline now mac ip a in
   (ok = false -> a' = a) /\
   (ok = true <-> mac <> "" /\ exists l, byMAC a !! mac = Some l /\ l_IP l = ip) /\
   (ok = true -> byMAC a' = delete mac (byMAC a) /\
      forall i, quarantine a' !! i =
        if bool_decide (i = ip) && inRange (cfg a) ip then Some (now + quarantineFor) else quarantine a !! i)).
Proof.
  intros Ha.
  assert (Hb : byIP a !! ip = Some mac <-> exists l, byMAC a !! mac = Some l /\ l_IP l = ip).
  { split; [by apply Ha|]. intros (l & Hl & <-). by apply Ha. }
  split.
  - destruct (release_cases mac ip a Ha) as [[-> H]|[-> H]]; rewrite <- Hb; naive_solver.
  - destruct (decline_cases now mac ip a) as [[-> H]|(H & Hm & ->)]; rewrite <- Hb; [naive_solver|].
    split; [done|]. split; [naive_solver|]. intros _. destruct (inRange (cfg a) ip); cbn; (split; [done|]); intros i.
    + destruct (bool_decide_reflect (i = ip)) as [->|]; cbn; [by rewrite lookup_insert_eq|by rewrite lookup_insert_ne].
    + by rewrite andb_false_r.
Qed.

(** ** Concrete pools *)
Definition pool : Config :=
  mkConfig (mkPrefix (Addr4 3232235776) 24) (Addr4 3232235776) (Addr4 3232235779) (Addr4 3232235777) (Addr4 3232235776) (seconds 3600).
Definition two_leases : Allocator :=
  arun [(0, OpAllocate "aa" "one" AddrZero (seconds 60)); (1, OpAllocate "bb" "one" AddrZero (seconds 60))] (NewAllocator pool).
Example pool_lowest_free : (Allocate 0 "aa" "one" AddrZero 60 (NewAllocator pool)).2 = Some (mkLease "aa" (Addr4 3232235778) "one" 60).
Proof. vm_compute. reflexivity. Qed.
Example pool_exhausted : (Allocate 2 "cc" "x" AddrZero 60 two_leases).2 = None.
Proof. vm_compute. reflexivity. Qed.
Example second_claim_unnamed : l_Hostname <$> byMAC two_leases !! "bb" = Some "".
Proof. vm_compute. reflexivity. Qed.
Lemma two_leases_cfg : cfg two_leases = pool.
Proof. vm_compute. reflexivity. Qed.
Lemma two_leases_ok : alloc_ok two_leases.
Proof. apply arun_ok; [by repeat constructor|apply new_ok]. Qed.

Lemma one_client_per_address_witness :
  let l := mkLease "aa" (Addr4 3232235778) "one" (seconds 60) in l = l.
Proof.
  apply (one_client_per_address pool
    [(0, OpAllocate "aa" "one" AddrZero (seconds 60)); (1, OpAllocate "bb" "one" AddrZero (seconds 60))] 2).
  - repeat constructor.
  - apply elem_of_Leases; [apply two_leases_ok|]. split; [vm_compute; reflexivity|done].
  - apply elem_of_Leases; [apply two_leases_ok|]. split; [vm_compute; reflexivity|done].
  - by left.
Defined.
Lemma offer_never_weakens_witness :
  byMAC (Offer 2 "cc" (Addr4 3232235778) (seconds 60) two_leases).1 !! "aa" = Some (mkLease "aa" (Addr4 3232235778) "one" (seconds 60)).
Proof.
  apply (offer_never_weakens 2 "cc" (Addr4 3232235778) (seconds 60) two_leases "aa"); [apply two_leases_ok|vm_compute; reflexivity|done..].
Defined.
Definition reserved_pool : Allocator := SetReservations {[ "cc" := Addr4 3232235778 ]} two_leases.
Lemma reserved_pool_ok : alloc_ok reserved_pool.
Proof. apply two_leases_ok. Qed.
Lemma allocate_evicts_only_by_reservation_witness :
  let a' := (Allocate 2 "cc" "" AddrZero (seconds 60) reserved_pool).1 in
  let l := mkLease "aa" (Addr4 3232235778) "one" (seconds 60) in
  byMAC a' !! "aa" = Some l \/ byMAC a' !! "aa" = None /\ reserved reserved_pool !! "cc" = Some (l_IP l) /\ protected (cfg reserved_pool) (l_IP l) = false.
Proof.
  apply (allocate_evicts_only_by_reservation 2 "cc" "" AddrZero (seconds 60) reserved_pool "aa");
    [apply reserved_pool_ok|done|vm_compute; reflexivity|done].
Defined.
Lemma granted_address_allowed_witness :
  protected pool (Addr4 3232235778) = false.
Proof.
  destruct (granted_address_allowed 0 "aa" "one" AddrZero 60 false (NewAllocator pool) (mkLease "aa" (Addr4 3232235778) "one" 60) true)
    as (_ & H & _); [apply new_ok|vm_compute; reflexivity|exact H].
Defined.
Lemma range_ok_two : range_ok (cfg two_leases).
Proof. rewrite two_leases_cfg. repeat split; vm_compute; congruence. Qed.
Lemma scan_fuel_two : (scan_fuel (cfg two_leases) <= 100)%nat.
Proof. rewrite two_leases_cfg. vm_compute. lia. Qed.
Lemma scan_terminates_witness :
  scan 100 two_leases "cc" 2 (cf_Start (cfg two_leases)) =
  scan (scan_fuel (cfg two_leases)) two_leases "cc" 2 (cf_Start (cfg two_leases)).
Proof. exact (proj1 (scan_terminates two_leases "cc" 2 100 range_ok_two scan_fuel_two)). Defined.
Lemma allocate_none_iff_exhausted_witness : forall ip, free two_leases ip "cc" 2 = false.
Proof.
  exact (proj2 (proj2 (proj1 (allocate_none_iff_exhausted 2 "cc" "x" AddrZero 60 two_leases range_ok_two) pool_exhausted))).
Defined.
Lemma live_hostnames_unique_witness :
  let l := mkLease "aa" (Addr4 3232235778) "one" (seconds 60) in l = l.
Proof.
  apply (live_hostnames_unique pool
    [(0, OpAllocate "aa" "one" AddrZero (seconds 60)); (1, OpAllocate "bb" "one" AddrZero (seconds 60))] 2).
  - repeat constructor.
  - cbn. repeat constructor; lia.
  - apply elem_of_Leases; [apply two_leases_ok|]. split; [vm_compute; reflexivity|done].
  - apply elem_of_Leases; [apply two_leases_ok|]. split; [vm_compute; reflexivity|done].
  - done.
  - done.
Defined.
Lemma only_holder_drops_lease_witness : (Release "bb" (Addr4 3232235778) two_leases).1 = two_leases.
Proof.
  destruct (only_holder_drops_lease 2 "bb" (Addr4 3232235778) two_leases two_leases_ok) as [H _].
  destruct (Release "bb" (Addr4 3232235778) two_leases) as [a' ok] eqn:E. apply H.
  assert (Hs : (Release "bb" (Addr4 3232235778) two_leases).2 = false) by (vm_compute; reflexivity).
  by rewrite E in Hs.
Defined.
