(* ===== verification/DhcpReserve.v ===== *)
(** * What feeds the DHCP server: reservations, names, the interface, other servers

    [internal/dhcpd/reserve.go], the pure parts of [iface.go], [probe.go] and
    [rogue.go], and the two normalisations of [server.go].  Go's maps [m[k]++] are
    [tally]; a map used as a set is a [gset].  The operator's texts are constructors. *)
From S2P Require Import Prelude GoStr NetIP Model.

(** ** Untrusted names and addresses *)
Definition normalizeMAC (s : string) : string :=
  let s := TrimSpace s in
  match ParseMAC s with
  | Some hw => mac_string hw
  | None => ToLower s
  end.

Definition sanitizeHostname (h : string) : string :=
  let h := ToLower (TrimSpace h) in
  let h := match cut_byte "." (bytes h) with Some (a, _) => str a | None => h end in
  if bool_decide (h = "") || (63 <? len h) then ""
  else if negb (forallb label_char (bytes h)) then ""
  else if bool_decide (head (bytes h) = Some "-"%char) || bool_decide (last (bytes h) = Some "-"%char) then ""
  else h.
(** [netip.AddrFromSlice]: four or sixteen bytes. *)
Definition be_value (l : list Z) : Z := foldl (fun acc b => acc * 256 + b) 0 l.
Definition AddrFromSlice (l : list Z) : option Addr :=
  if (length l =? 4)%nat then Some (Addr4 (be_value l))
  else if (length l =? 16)%nat then Some (Addr6 (be_value l) "")
  else None.

(** ** reserve.go *)
Inductive Reason :=
  | NetworkOrBroadcast (a : Addr) | NoAddress | ManyAddresses (n : Z)
  | MACClaimed (n : Z) (mac : string) | AddrClaimed (n : Z) (a : Addr).
Record ReservationProblem := mkProblem { rp_Service : string; rp_MAC : string; rp_Reason : Reason }.
(** [c_why = None] is the empty reason. *)
Record claim := mkClaim { c_name : string; c_mac : string; c_addr : Addr; c_why : option Reason }.

(** The last address of an IPv4 subnet; the subnet is valid wherever it is called. *)
Definition broadcastOf (p : Prefix) : Addr :=
  match p_addr p, p_addr (Pfx.Masked p) with
  | Addr4 _, Addr4 b => Addr4 (Z.lor b (Z.ones (32 - p_bits p)))
  | _, _ => AddrZero
  end.
(** The service's distinct addresses inside the subnet. *)
Definition seen_in (subnet : Prefix) (svc : Service) : gset Addr :=
  foldl (fun seen a =>
    match ParseAddr (a_Address a) with
    | None => seen
    | Some addr => if Pfx.Contains subnet (Addr.Unmap addr) then {[Addr.Unmap addr]} ∪ seen else seen
    end) ∅ (s_Addresses svc).
(** One turn of the first loop. *)
Definition claim_of (subnet : Prefix) (svc : Service) : option claim :=
  let mac := normalizeMAC (s_MAC svc) in
  if bool_decide (mac = "") then None
  else Some match elements (seen_in subnet svc) with
  | [a] => mkClaim (s_Name svc) mac a
             (if bool_decide (a = p_addr (Pfx.Masked subnet)) || bool_decide (a = broadcastOf subnet)
              then Some (NetworkOrBroadcast a) else None)
  | [] => mkClaim (s_Name svc) mac AddrZero (Some NoAddress)
  | l => mkClaim (s_Name svc) mac AddrZero (Some (ManyAddresses (Z.of_nat (length l))))
  end.
(** The second loop: a MAC claimed twice outranks every other reason. *)
Definition mac_rule (byMAC : gmap string Z) (c : claim) : claim :=
  let n := default 0 (byMAC !! c_mac c) in
  if 1 <? n then mkClaim (c_name c) (c_mac c) (c_addr c) (Some (MACClaimed n (c_mac c))) else c.
(** The third loop. *)
Definition addr_rule (byAddr : gmap Addr Z) (c : claim) : claim :=
  let n := default 0 (byAddr !! c_addr c) in
  match c_why c with
  | None => if 1 <? n then mkClaim (c_name c) (c_mac c) (c_addr c) (Some (AddrClaimed n (c_addr c))) else c
  | Some _ => c
  end.
Definition resolve (acc : gmap string Addr * list ReservationProblem) (c : claim) : gmap string Addr * list ReservationProblem :=
  match c_why c with
  | None => (<[c_mac c := c_addr c]> acc.1, acc.2)
  | Some why => (acc.1, acc.2 ++ [mkProblem (c_name c) (c_mac c) why])
  end.
Definition standing (c : claim) : bool := match c_why c with None => true | Some _ => false end.
Definition Reservations (svcs : list Service) (subnet : Prefix) : gmap string Addr * list ReservationProblem :=
  let claims := omap (claim_of subnet) svcs in
  let claims := mac_rule (tally c_mac claims) <$> claims in
  let byAddr := tally c_addr (List.filter standing claims) in
  foldl resolve (∅, []) (addr_rule byAddr <$> claims).

(** ** iface.go *)
Definition ueventIsVeth (uevent : string) : bool :=
  existsb (fun line => bool_decide (TrimSpace line = "DEVTYPE=veth")) (Split uevent (chr 10)).
(** [strconv.ParseUint(s, 16, 32)] and [hex.DecodeString]. *)
Fixpoint hex_digits (acc : Z) (l : list ascii) : option Z :=
  match l with
  | [] => Some acc
  | c :: l' => d ← hex_val c; if 2 ^ 32 <=? acc * 16 + d then None else hex_digits (acc * 16 + d) l'
  end.
Definition ParseHex32 (s : string) : option Z :=
  match bytes s with [] => None | l => hex_digits 0 l end.
Fixpoint hex_pairs (l : list ascii) : option (list Z) :=
  match l with
  | [] => Some []
  | a :: b :: l' => x ← hex_val a; y ← hex_val b; t ← hex_pairs l'; Some (x * 16 + y :: t)
  | _ => None
  end.
Definition DecodeString (s : string) : option (list Z) := hex_pairs (bytes s).
Definition route_line (line : string) : option Addr :=
  match Fields line with
  | _ :: dst :: gw :: flags :: _ =>
      if negb (bool_decide (dst = "00000000")) then None
      else match ParseHex32 flags with
           | None => None
           | Some f => if Z.land f 2 =? 0 then None
                       else match DecodeString gw with
                            | Some [a; b; c; d] => Some (Addr4 (be_value [d; c; b; a]))
                            | _ => None
                            end
           end
  | _ => None
  end.
Definition parseProcRoute (table : string) : option Addr :=
  head (omap route_line (tail (Split table (chr 10)))).
(** The arithmetic is on [uint32]: a shift by 32 gives zero. *)
Definition SuggestRange (subnet : Prefix) : option (Addr * Addr) :=
  match p_addr subnet with
  | Addr4 _ =>
      let bits := p_bits subnet in
      if 29 <? bits then None
      else
        let network := Addr.value (p_addr (Pfx.Masked subnet)) in
        let size := u32w (Z.shiftl 1 (32 - bits)) in
        Some (Addr4 (u32w (network + size / 2)), Addr4 (u32w (network + size - 2)))
  | _ => None
  end.

(** ** probe.go *)
Definition arp_line (iface line : string) : option Addr :=
  match Fields line with
  | ip :: _ :: flags :: _ :: _ :: dev :: _ =>
      if negb (bool_decide (dev = iface)) then None
      else match ParseHex32 (TrimPrefix flags "0x") with
           | None => None
           | Some f => if Z.land f 2 =? 0 then None else ParseAddr ip
           end
  | _ => None
  end.
Definition parseARPTable (table iface : string) : gset Addr :=
  list_to_set (omap (arp_line iface) (tail (Split table (chr 10)))).

(** ** rogue.go: which answers to a probe name another server *)
Record probe_reply := mkProbeReply {
  pr_offer : bool;              (* the message type is OFFER *)
  pr_server : list Z;           (* option 54, as bytes *)
  pr_yours : list Z;            (* yiaddr *)
  pr_src : Addr }.
Record Foreign := mkForeign { ServerID : Addr; Offered : Addr }.
Definition foreign_id (r : probe_reply) : Addr :=
  match AddrFromSlice (pr_server r) with
  | Some id => if Addr.IsUnspecified (Addr.Unmap id) then pr_src r else Addr.Unmap id
  | None => pr_src r
  end.
Definition collect1 (acc : gset Addr * list Foreign) (r : probe_reply) : gset Addr * list Foreign :=
  if negb (pr_offer r) then acc
  else
    let id := foreign_id r in
    if negb (Addr.IsValid id) || bool_decide (id ∈ acc.1) then acc
    else ({[id]} ∪ acc.1, acc.2 ++ [mkForeign id (Addr.Unmap (default AddrZero (AddrFromSlice (pr_yours r))))]).
Definition collectForeign (rs : list probe_reply) : list Foreign := (foldl collect1 (∅, []) rs).2.
(** [probeMAC]'s bit arithmetic on the six random bytes. *)
Definition probeMAC (b : list Z) : list Z :=
  match b with
  | b0 :: t => Z.ldiff (Z.lor b0 2) 1 :: t
  | [] => []
  end.

(** ** Lemmas: the canonical spelling of an Ethernet address *)
Lemma hex_val_pair a b x y : hex_val a = Some x -> hex_val b = Some y -> 0 <= x * 16 + y < 256.
Proof. intros ?%hex_val_range ?%hex_val_range. lia. Qed.
Lemma mac_pairs_ok sep l hw : mac_pairs sep l = Some hw -> mac_ok hw /\ (length l + 1 = 3 * length hw)%nat.
Proof.
  revert hw. induction l as [l IH] using (induction_ltof1 _ (@length ascii)); unfold ltof in IH. intros hw.
  destruct l as [|a [|b l]]; [done|done|]. cbn [mac_pairs].
  destruct (hex_val a) as [x|] eqn:Ex; [|done]. destruct (hex_val b) as [y|] eqn:Ey; [|done]. cbn.
  destruct l as [|s l].
  - intros [= <-]. split; [by repeat constructor; eapply hex_val_pair|done].
  - case_bool_decide; [|done]. destruct (mac_pairs sep l) as [t|] eqn:Et; [|done]. intros [= <-].
    apply IH in Et as [Ht Hl]; [|cbn; lia]. split; [constructor; [by eapply hex_val_pair|done]|]. cbn in *. lia.
Qed.
Lemma mac_quads_ok l hw : mac_quads l = Some hw -> mac_ok hw /\ (2 * (length l + 1) = 5 * length hw)%nat.
Proof.
  revert hw. induction l as [l IH] using (induction_ltof1 _ (@length ascii)); unfold ltof in IH. intros hw.
  destruct l as [|a [|b [|c [|d l]]]]; try done. cbn [mac_quads].
  destruct (hex_val a) as [x|] eqn:Ex; [|done]. destruct (hex_val b) as [y|] eqn:Ey; [|done].
  destruct (hex_val c) as [z|] eqn:Ez; [|done]. destruct (hex_val d) as [w|] eqn:Ew; [|done]. cbn.
  destruct l as [|s l].
  - intros [= <-]. split; [by repeat constructor; eapply hex_val_pair|done].
  - case_bool_decide; [|done]. destruct (mac_quads l) as [t|] eqn:Et; [|done]. intros [= <-].
    apply IH in Et as [Ht Hl]; [|cbn; lia].
    split; [repeat (constructor; [by eapply hex_val_pair|]); done|]. cbn in *. lia.
Qed.
Lemma mac_len_ok_cases n : mac_len_ok n = true -> n = 6%nat \/ n = 8%nat \/ n = 20%nat.
Proof. unfold mac_len_ok. rewrite !orb_true_iff, !Nat.eqb_eq. tauto. Qed.
Lemma ParseMAC_ok s hw : ParseMAC s = Some hw -> mac_ok hw /\ mac_len_ok (length hw) = true.
Proof.
  unfold ParseMAC, parse_mac. set (l := bytes s). destruct (length l <? 14)%nat; [done|].
  destruct (l !! 2%nat) as [s2|]; [|done]. destruct (l !! 4%nat) as [s4|]; [|done].
  destruct (_ || _).
  - destruct ((length l + 1) mod 3 =? 0)%nat eqn:E; cbn [andb]; [|done].
    destruct (mac_len_ok _) eqn:F; [|done]. intros [Hok Hl]%mac_pairs_ok. split; [done|].
    rewrite Hl, Nat.mul_comm, Nat.div_mul in F by done. done.
  - destruct (bool_decide _); [|done].
    destruct ((length l + 1) mod 5 =? 0)%nat eqn:E; cbn [andb]; [|done].
    destruct (mac_len_ok _) eqn:F; [|done]. intros [Hok Hl]%mac_quads_ok. split; [done|].
    rewrite Hl, Nat.mul_comm, Nat.div_mul in F by done. done.
Qed.
Lemma ParseMAC_print hw : mac_ok hw -> mac_len_ok (length hw) = true -> ParseMAC (mac_string hw) = Some hw.
Proof.
  intros Hok Hlen. unfold ParseMAC, mac_string, parse_mac. rewrite bytes_str.
  assert (Hne : hw <> []) by (by intros ->).
  rewrite length_mac_chars by done. destruct hw as [|b0 [|b1 hw]]; [done|done|].
  pose proof (mac_pairs_chars _ Hok Hne) as Hp.
  destruct (mac_len_ok_cases _ Hlen) as [->|[->| ->]]; cbn -[mac_pairs mac_chars];
    (destruct hw as [|b2 hw]; [done|]); exact Hp.
Qed.
Lemma hex_char_not_space n : 0 <= n < 16 -> is_space (hex_char n) = false /\ lower_char (hex_char n) = hex_char n.
Proof.
  intros Hn. assert (H : forallb (fun n => negb (is_space (hex_char n)) && bool_decide (lower_char (hex_char n) = hex_char n)) (seqZ 0 16) = true)
    by reflexivity.
  rewrite forallb_forall in H. specialize (H n).
  rewrite andb_true_iff, negb_true_iff, bool_decide_eq_true in H.
  apply H, list_elem_of_In, elem_of_seqZ. lia.
Qed.
Lemma mac_chars_plain hw : mac_ok hw -> Forall (fun c => is_space c = false) (mac_chars hw).
Proof.
  induction 1 as [|b hw Hb _ IH]; [constructor|].
  assert (Hd : 0 <= b / 16 < 16 /\ 0 <= b mod 16 < 16) by (Z.div_mod_to_equations; lia).
  destruct (hex_char_not_space _ (proj1 Hd)) as [H1 _], (hex_char_not_space _ (proj2 Hd)) as [H2 _].
  destruct hw; cbn [mac_chars]; repeat constructor; done.
Qed.
Lemma normalizeMAC_print hw : mac_ok hw -> mac_len_ok (length hw) = true -> normalizeMAC (mac_string hw) = mac_string hw.
Proof.
  intros Hok Hl. unfold normalizeMAC. rewrite TrimSpace_no_space, ParseMAC_print; [done..|].
  unfold no_space, mac_string. rewrite bytes_str. by apply mac_chars_plain.
Qed.

Lemma normalizeMAC_idemp s : normalizeMAC (normalizeMAC s) = normalizeMAC s.
Proof.
  unfold normalizeMAC at 2 3. destruct (ParseMAC (TrimSpace s)) as [hw|] eqn:E.
  - destruct (ParseMAC_ok _ _ E). by apply normalizeMAC_print.
  - unfold normalizeMAC. rewrite TrimSpace_ToLower, TrimSpace_idemp, ParseMAC_lower, E. apply ToLower_idemp.
Qed.

(** the one form an Ethernet address is kept in: normalising twice changes
    nothing, every spelling that parses (dashes, dots, capitals, blanks around it)
    becomes what the wire prints for those bytes, and one that does not parse
    keeps its letters in lower case. *)
Theorem normalize_mac_canonical (s : string) :
  normalizeMAC (normalizeMAC s) = normalizeMAC s /\
  match ParseMAC (TrimSpace s) with
  | Some hw => normalizeMAC s = mac_string hw /\ normalizeMAC (mac_string hw) = mac_string hw /\ ParseMAC (normalizeMAC s) = Some hw
  | None => normalizeMAC s = ToLower (TrimSpace s)
  end.
Proof.
  split; [apply normalizeMAC_idemp|]. unfold normalizeMAC at 1 3 4. destruct (ParseMAC (TrimSpace s)) as [hw|] eqn:E; [|done].
  destruct (ParseMAC_ok _ _ E). by rewrite normalizeMAC_print, ParseMAC_print.
Qed.
(** An address typed without separators does not parse and never matches the wire. *)
Theorem bare_mac_never_matches :
  normalizeMAC "AABBCCDDEEFF" = "aabbccddeeff" /\
  forall hw, mac_ok hw -> length hw = 6%nat -> normalizeMAC (mac_string hw) <> normalizeMAC "AABBCCDDEEFF".
Proof.
  assert (H : normalizeMAC "AABBCCDDEEFF" = "aabbccddeeff") by (vm_compute; reflexivity).
  split; [done|]. intros hw Hok Hl. rewrite H, normalizeMAC_print by (done || by rewrite Hl).
  intros E. apply (f_equal (fun s => length (bytes s))) in E. unfold mac_string in E.
  rewrite bytes_str, length_mac_chars, Hl in E by (by intros ->). done.
Qed.

(** ** Option 12 *)
Lemma label_ok_inv s : label_ok s = true <->
  s <> "" /\ (length (bytes s) <= 63)%nat /\ head (bytes s) <> Some "-"%char /\ last (bytes s) <> Some "-"%char /\
  forallb label_char (bytes s) = true.
Proof.
  unfold label_ok. rewrite <- (bytes_empty s). destruct (bytes s) as [|c l] eqn:E; [naive_solver|].
  rewrite !andb_true_iff, !negb_true_iff, !bool_decide_eq_false, Nat.leb_le. naive_solver.
Qed.
Lemma label_ok_fixed s : label_ok s = true -> sanitizeHostname s = s.
Proof.
  intros (Hne & Hlen & Hh & Hl & Hc)%label_ok_inv. unfold sanitizeHostname.
  assert (Hf : Forall (fun c => label_char c = true) (bytes s)).
  { apply Forall_forall. intros x Hx. rewrite forallb_forall in Hc. by apply Hc, list_elem_of_In. }
  assert (Ht : TrimSpace s = s).
  { apply TrimSpace_no_space. eapply Forall_impl; [exact Hf|]. apply label_char_no_space. }
  assert (Hlow : ToLower s = s).
  { unfold ToLower. rewrite fmap_id_ext; [apply str_bytes|]. intros x Hx.
    rewrite Forall_forall in Hf. by apply label_char_lower, Hf. }
  rewrite Ht, Hlow. assert (Hd : cut_byte "." (bytes s) = None).
  { apply cut_byte_none. intros Hin. rewrite Forall_forall in Hf. by apply Hf in Hin. }
  rewrite Hd. unfold len. rewrite bool_decide_false by done.
  destruct (Z.ltb_spec 63 (Z.of_nat (length (bytes s)))); [lia|]. cbn [orb].
  rewrite Hc, !bool_decide_false by done. done.
Qed.

(** whatever a client sends as its host name, what may reach DNS is either
    nothing or one valid label, in lower case; a valid label passes unchanged, so
    sanitising twice changes nothing. *)
Theorem sanitized_hostname_is_label (h : string) :
  (sanitizeHostname h = "" \/ label_ok (sanitizeHostname h) = true) /\
  sanitizeHostname (sanitizeHostname h) = sanitizeHostname h.
Proof.
  assert (H : sanitizeHostname h = "" \/ label_ok (sanitizeHostname h) = true).
  { unfold sanitizeHostname. set (n := match cut_byte _ _ with Some _ => _ | None => _ end).
    destruct (bool_decide (n = "") || (63 <? len n)) eqn:E1; [by left|].
    destruct (negb (forallb label_char (bytes n))) eqn:E2; [by left|].
    destruct (_ || _) eqn:E3 in |- *; [by left|]. right. bool_to_prop. apply label_ok_inv.
    unfold len in *. repeat split; try done. lia. }
  split; [done|]. destruct H as [->|H]; [done|]. by apply label_ok_fixed.
Qed.

(** ** What a reservation is *)
Definition same_mac (mac : string) (svc : Service) : bool := bool_decide (normalizeMAC (s_MAC svc) = mac).
(** A service whose bid stands on its own: the only one with its MAC, and with one
    address in the subnet, which a device may be given. *)
Definition bids (svcs : list Service) (subnet : Prefix) (svc : Service) (ip : Addr) : Prop :=
  svc ∈ svcs /\ normalizeMAC (s_MAC svc) <> "" /\ countb (same_mac (normalizeMAC (s_MAC svc))) svcs = 1 /\
  seen_in subnet svc = {[ip]} /\ ip <> p_addr (Pfx.Masked subnet) /\ ip <> broadcastOf subnet.

Lemma seen_in_elem subnet svc x : x ∈ seen_in subnet svc <->
  exists a b, a ∈ s_Addresses svc /\ ParseAddr (a_Address a) = Some b /\ x = Addr.Unmap b /\ Pfx.Contains subnet x = true.
Proof.
  unfold seen_in. induction (s_Addresses svc) as [|a l IH] using rev_ind; cbn [foldl].
  - split; [by intros ?%elem_of_empty|]. intros (a & b & Ha & _). by apply not_elem_of_nil in Ha.
  - rewrite foldl_app. cbn [foldl].
    transitivity ((exists b, ParseAddr (a_Address a) = Some b /\ x = Addr.Unmap b /\ Pfx.Contains subnet x = true) \/
      exists a0 b, a0 ∈ l /\ ParseAddr (a_Address a0) = Some b /\ x = Addr.Unmap b /\ Pfx.Contains subnet x = true).
    + rewrite <- IH. destruct (ParseAddr (a_Address a)) as [b|]; [|naive_solver].
      destruct (Pfx.Contains subnet (Addr.Unmap b)) eqn:C; [rewrite elem_of_union, elem_of_singleton|]; naive_solver congruence.
    + split.
      * intros [(b & Hb)|(a0 & b & Ha & Hb)]; eexists _, b; (split; [apply elem_of_app|exact Hb]); [right; by left|by left].
      * intros (a0 & b & [Ha| ->%list_elem_of_singleton]%elem_of_app & Hb); [right; by exists a0, b|left; by exists b].
Qed.
Lemma elements_one (X : gset Addr) ip : elements X = [ip] <-> X = {[ip]}.
Proof.
  split; [|intros ->; apply elements_singleton]. intros H. apply set_eq. intros x.
  rewrite <- elem_of_elements, H, list_elem_of_singleton, elem_of_singleton. done.
Qed.
Lemma claim_of_mac subnet svc c : claim_of subnet svc = Some c ->
  c_mac c = normalizeMAC (s_MAC svc) /\ c_mac c <> "" /\ c_name c = s_Name svc.
Proof.
  unfold claim_of. case_bool_decide as H; [done|]. intros [= <-]. by destruct (elements _) as [|a [|]].
Qed.
Lemma claim_of_standing subnet svc c : claim_of subnet svc = Some c ->
  standing c = true <-> seen_in subnet svc = {[c_addr c]} /\ c_addr c <> p_addr (Pfx.Masked subnet) /\ c_addr c <> broadcastOf subnet.
Proof.
  unfold claim_of. case_bool_decide as H; [done|]. intros [= <-]. rewrite <- elements_one.
  destruct (elements _) as [|a [|b l]]; cbn; [naive_solver| |naive_solver].
  destruct (bool_decide_reflect (a = p_addr (Pfx.Masked subnet))), (bool_decide_reflect (a = broadcastOf subnet)); cbn; naive_solver.
Qed.
Lemma claims_count svcs subnet mac : mac <> "" ->
  countb (fun c => bool_decide (c_mac c = mac)) (omap (claim_of subnet) svcs) = countb (same_mac mac) svcs.
Proof.
  intros Hm. induction svcs as [|svc l IH]; [done|]. rewrite omap_cons, countb_cons, <- IH. unfold same_mac at 1.
  destruct (claim_of subnet svc) as [c|] eqn:E.
  - destruct (claim_of_mac _ _ _ E) as (<- & _). by rewrite countb_cons.
  - unfold claim_of in E. case_bool_decide as H; [|done]. rewrite H, bool_decide_false by congruence. done.
Qed.

Section reservations.
Context (svcs : list Service) (subnet : Prefix).
Let claims := omap (claim_of subnet) svcs.
Let claims2 := mac_rule (tally c_mac claims) <$> claims.
Let claims3 := addr_rule (tally c_addr (List.filter standing claims2)) <$> claims2.

Lemma mac_rule_standing c : standing (mac_rule (tally c_mac claims) c) = true <->
standing c = true /\ countb (fun x => bool_decide (c_mac x = c_mac c)) claims <= 1.
Proof. unfold mac_rule. rewrite tally_lookup. destruct (Z.ltb_spec 1 (countb (fun x => bool_decide (c_mac x = c_mac c)) claims)); cbn; [split; [done|intros [_ ?]; lia]|tauto]. Qed.
Lemma mac_rule_keeps m c : c_mac (mac_rule m c) = c_mac c /\ c_addr (mac_rule m c) = c_addr c /\ c_name (mac_rule m c) = c_name c.
Proof. unfold mac_rule. by case_if. Qed.
Lemma addr_rule_keeps m c : c_mac (addr_rule m c) = c_mac c /\ c_addr (addr_rule m c) = c_addr c /\ c_name (addr_rule m c) = c_name c.
Proof. unfold addr_rule. destruct (c_why c); [done|]. by case_if. Qed.
Lemma addr_rule_standing m c : standing (addr_rule m c) = true <-> standing c = true /\ default 0 (m !! c_addr c) <= 1.
Proof.
unfold addr_rule. unfold standing at 2. destruct (c_why c) eqn:E; cbn; [unfold standing; rewrite E; naive_solver|].
destruct (Z.ltb_spec 1 (default 0 (m !! c_addr c))); cbn; [split; [done|intros [_ ?]; lia]|unfold standing; rewrite E; tauto].
Qed.
(** A claim still standing after the second loop is a bid. *)
Lemma claims2_bids mac ip :
(exists c, c ∈ claims2 /\ standing c = true /\ c_mac c = mac /\ c_addr c = ip) <->
exists svc, bids svcs subnet svc ip /\ normalizeMAC (s_MAC svc) = mac.
Proof.
unfold claims2. split.
- intros (c2 & (c & -> & Hc)%list_elem_of_fmap & Hs & Hm & Hi). destruct (mac_rule_keeps (tally c_mac claims) c) as (E1 & E2 & _).
  rewrite E1 in Hm. rewrite E2 in Hi. apply mac_rule_standing in Hs as [Hs Hcount].
  apply list_elem_of_omap in Hc as (svc & Hsvc & Hcl). destruct (claim_of_mac _ _ _ Hcl) as (Hmac & Hne & _).
  apply (claim_of_standing _ _ _ Hcl) in Hs as (H1 & H2 & H3). exists svc. split; [|congruence].
  unfold claims in Hcount. rewrite claims_count in Hcount by done. rewrite Hi in *.
  pose proof (countb_pos (same_mac (c_mac c)) svcs svc Hsvc (bool_decide_eq_true_2 _ (eq_sym Hmac))).
  unfold bids. rewrite <- Hmac. split; [done|]. split; [done|]. split; [lia|done].
- intros (svc & (Hsvc & Hne & Hcount & H1 & H2 & H3) & <-).
  assert (Hcl : exists c, claim_of subnet svc = Some c /\ c_addr c = ip).
  { unfold claim_of. rewrite bool_decide_false by done. apply elements_one in H1. rewrite H1. eexists. split; [done|]. done. }
  destruct Hcl as (c & Hcl & Hi). destruct (claim_of_mac _ _ _ Hcl) as (Hmac & Hne' & _).
  exists (mac_rule (tally c_mac claims) c). destruct (mac_rule_keeps (tally c_mac claims) c) as (E1 & E2 & _).
  split; [apply list_elem_of_fmap_2, list_elem_of_omap; eauto|]. split; [|split; congruence].
  apply mac_rule_standing. split; [apply (claim_of_standing _ _ _ Hcl); by rewrite Hi|].
  unfold claims. rewrite claims_count by done. rewrite Hmac. lia.
Qed.
Lemma standing_macs_distinct : NoDup (c_mac <$> List.filter standing claims2).
Proof.
apply NoDup_filter_count. intros c2 (c & -> & Hc)%list_elem_of_fmap Hs. apply mac_rule_standing in Hs as [_ Hcount].
unfold claims2. rewrite countb_fmap. erewrite countb_ext; [exact Hcount|]. intros x _. cbn.
by rewrite (proj1 (mac_rule_keeps _ c)), (proj1 (mac_rule_keeps _ x)).
Qed.
Lemma NoDup_key_inj {A K} (key : A -> K) l x y : NoDup (key <$> l) -> x ∈ l -> y ∈ l -> key x = key y -> x = y.
Proof.
intros Hnd [i Hi]%list_elem_of_lookup [j Hj]%list_elem_of_lookup He.
assert (i = j) as ->; [|congruence]. eapply NoDup_lookup; [exact Hnd|by rewrite list_lookup_fmap, Hi|].
rewrite list_lookup_fmap, Hj. cbn. congruence.
Qed.
Lemma elem_of_lfilter {A} (p : A -> bool) l x : x ∈ List.filter p l <-> x ∈ l /\ p x = true.
Proof. rewrite list_elem_of_In, filter_In, <- list_elem_of_In. done. Qed.
(** An address is claimed once exactly when no other bid names it. *)
Lemma addr_count c : c ∈ claims2 -> standing c = true ->
countb (fun x => bool_decide (c_addr x = c_addr c)) (List.filter standing claims2) <= 1 <->
forall svc, bids svcs subnet svc (c_addr c) -> normalizeMAC (s_MAC svc) = c_mac c.
Proof.
intros Hc Hs. split.
- intros Hcount svc Hb.
  destruct (proj2 (claims2_bids (normalizeMAC (s_MAC svc)) (c_addr c))) as (c' & Hc' & Hs' & Hm' & Hi'); [by exists svc|].
  rewrite <- Hm'. f_equal.
  eapply (countb_unique (fun x => bool_decide (c_addr x = c_addr c))); [exact Hcount|by apply elem_of_lfilter..|by apply bool_decide_eq_true_2|by apply bool_decide_eq_true_2].
- intros H. apply (countb_same_key c_mac _ (c_mac c) _ standing_macs_distinct).
  intros x [Hx Hsx]%elem_of_lfilter Hi%bool_decide_eq_true.
  destruct (proj1 (claims2_bids (c_mac x) (c_addr c))) as (svc & Hb & Hm); [by exists x|]. rewrite <- Hm. by apply H.
Qed.
Lemma resolve_fold l m ps : foldl resolve (m, ps) l =
(foldl (fun m c => <[c_mac c := c_addr c]> m) m (List.filter standing l),
 ps ++ omap (fun c => (fun why => mkProblem (c_name c) (c_mac c) why) <$> c_why c) l).
Proof.
revert m ps. induction l as [|c l IH]; intros m ps; cbn [foldl]; [by rewrite app_nil_r|].
rewrite omap_cons. cbn [List.filter]. unfold resolve at 2, standing. destruct (c_why c) as [why|]; rewrite IH; cbn [fst snd].
- f_equal. rewrite <- (assoc_L (++)). done.
- done.
Qed.
Lemma final_macs_distinct : NoDup (c_mac <$> List.filter standing claims3).
Proof.
apply NoDup_filter_count. intros c3 (c & -> & Hc)%list_elem_of_fmap Hs. apply addr_rule_standing in Hs as [Hs _].
apply list_elem_of_fmap in Hc as (c1 & -> & Hc1). apply mac_rule_standing in Hs as [_ Hcount].
unfold claims3, claims2. rewrite !countb_fmap. erewrite countb_ext; [exact Hcount|]. intros x _. cbn.
by rewrite (proj1 (addr_rule_keeps _ _)), (proj1 (addr_rule_keeps _ _)), (proj1 (mac_rule_keeps _ c1)), (proj1 (mac_rule_keeps _ x)).
Qed.
Lemma reserved_lookup mac ip : (Reservations svcs subnet).1 !! mac = Some ip <->
exists svc, bids svcs subnet svc ip /\ normalizeMAC (s_MAC svc) = mac /\
  forall svc', bids svcs subnet svc' ip -> normalizeMAC (s_MAC svc') = mac.
Proof.
change (Reservations svcs subnet) with (foldl resolve (∅, []) claims3).
rewrite resolve_fold. cbn [fst]. rewrite fill_lookup by apply final_macs_distinct. rewrite lookup_empty. split.
- intros [(c3 & Hc3 & Hm & Hi)|[_ ?]]; [|done]. apply elem_of_lfilter in Hc3 as [Hc3 Hs].
  apply list_elem_of_fmap in Hc3 as (c & -> & Hc). apply addr_rule_standing in Hs as [Hs Hcount].
  destruct (addr_rule_keeps (tally c_addr (List.filter standing claims2)) c) as (E1 & E2 & _). rewrite E1 in Hm. rewrite E2 in Hi.
  rewrite tally_lookup in Hcount. rewrite (addr_count c Hc Hs), Hm, Hi in Hcount.
  destruct (proj1 (claims2_bids mac ip)) as (svc & Hb & Hmac); [by exists c|]. by exists svc.
- intros (svc & Hb & Hm & Hu). left.
  destruct (proj2 (claims2_bids mac ip)) as (c & Hc & Hs & Hm' & Hi'); [by exists svc|].
  exists (addr_rule (tally c_addr (List.filter standing claims2)) c).
  destruct (addr_rule_keeps (tally c_addr (List.filter standing claims2)) c) as (E1 & E2 & _).
  split; [|split; congruence]. apply elem_of_lfilter. split; [by apply list_elem_of_fmap_2|].
  apply addr_rule_standing. split; [done|]. rewrite tally_lookup. apply (addr_count c Hc Hs). rewrite Hi', Hm'. done.
Qed.
(** The services whose MAC is set, and their claims, in order. *)
Lemma claims3_order : (fun c => (c_name c, c_mac c)) <$> claims3 =
(fun svc => (s_Name svc, normalizeMAC (s_MAC svc))) <$> filter (fun svc => normalizeMAC (s_MAC svc) <> "") svcs.
Proof.
unfold claims3, claims2. rewrite <- !list_fmap_compose.
transitivity ((fun c => (c_name c, c_mac c)) <$> claims).
{ apply list_fmap_ext. intros i c _. cbn. destruct (addr_rule_keeps (tally c_addr (List.filter standing claims2)) (mac_rule (tally c_mac claims) c)) as (E1 & _ & E3).
  destruct (mac_rule_keeps (tally c_mac claims) c) as (F1 & _ & F3). unfold claims2 in E1, E3. by rewrite E1, E3, F1, F3. }
unfold claims. clear. induction svcs as [|svc l IH]; [done|]. rewrite omap_cons, filter_cons.
destruct (claim_of subnet svc) as [c|] eqn:E.
- destruct (claim_of_mac _ _ _ E) as (Hm & Hne & Hn). rewrite decide_True by congruence. cbn [fmap list_fmap]. by rewrite IH, Hm, Hn.
- unfold claim_of in E. case_bool_decide as H; [|done]. rewrite decide_False by (intros Hx; by apply Hx). done.
Qed.
End reservations.

Lemma problem_names (out : gmap string Addr) (l : list claim) : (forall c, c ∈ l -> standing c = true <-> is_Some (out !! c_mac c)) ->
  (fun p => (rp_Service p, rp_MAC p)) <$> omap (fun c => (fun why => mkProblem (c_name c) (c_mac c) why) <$> c_why c) l =
  filter (fun x : string * string => out !! x.2 = None) ((fun c => (c_name c, c_mac c)) <$> l).
Proof.
  induction l as [|c l IH]; intros H; [done|]. rewrite omap_cons. cbn [fmap list_fmap]. rewrite filter_cons. cbn [snd].
  specialize (IH ltac:(intros; apply H; by right)). pose proof (H c ltac:(left)) as Hc. unfold standing in Hc.
  destruct (c_why c) as [why|]; cbn [fmap option_fmap option_map list_fmap].
  - rewrite decide_True; [by rewrite IH|]. destruct (out !! c_mac c) eqn:E; [|done]. by discriminate (proj2 Hc ltac:(eauto)).
  - rewrite decide_False; [done|]. intros E. rewrite E in Hc. by destruct (proj1 Hc eq_refl).
Qed.
Lemma final_standing svcs subnet c : let claims := omap (claim_of subnet) svcs in
  let claims2 := mac_rule (tally c_mac claims) <$> claims in
  let claims3 := addr_rule (tally c_addr (List.filter standing claims2)) <$> claims2 in
  c ∈ claims3 -> standing c = true <-> is_Some ((Reservations svcs subnet).1 !! c_mac c).
Proof.
  cbv zeta. intros Hc. change (Reservations svcs subnet) with (foldl resolve (∅, []) (addr_rule (tally c_addr (List.filter standing (mac_rule (tally c_mac (omap (claim_of subnet) svcs)) <$> omap (claim_of subnet) svcs))) <$> (mac_rule (tally c_mac (omap (claim_of subnet) svcs)) <$> omap (claim_of subnet) svcs))).
  rewrite resolve_fold. cbn [fst]. split.
  - intros Hs. exists (c_addr c). apply fill_lookup; [apply final_macs_distinct|]. left. exists c. split; [by apply elem_of_lfilter|done].
  - intros [ip Hip]. apply fill_lookup in Hip; [|apply final_macs_distinct].
    destruct Hip as [(c' & Hc' & Hm & _)|[_ Hx]]; [|by rewrite lookup_empty in Hx]. apply elem_of_lfilter in Hc' as [Hc' Hs].
    apply list_elem_of_fmap in Hc as (d & -> & Hd), Hc' as (d' & -> & Hd').
    apply list_elem_of_fmap in Hd as (e & -> & He), Hd' as (e' & -> & He').
    enough (e = e') as -> by done.
    apply addr_rule_standing in Hs as [Hs _]. apply mac_rule_standing in Hs as [_ Hcount].
    eapply (countb_unique (fun x => bool_decide (c_mac x = c_mac e'))); [exact Hcount|done|done| |by apply bool_decide_eq_true_2].
    apply bool_decide_eq_true_2.
    by rewrite !(proj1 (addr_rule_keeps _ _)), !(proj1 (mac_rule_keeps _ _)) in Hm.
Qed.

(** a MAC gets a reservation exactly when one service bids for it (the only one
    with that MAC, with one address inside the subnet that a device may be given)
    and no other bid names the address.  The pairing is one to one, and every
    other service with a MAC is reported, in the order of the services. *)
Theorem reservations_one_to_one (svcs : list Service) (subnet : Prefix) (mac : string) (ip : Addr) :
  let '(out, problems) := Reservations svcs subnet in
  (out !! mac = Some ip <->
     exists svc, bids svcs subnet svc ip /\ normalizeMAC (s_MAC svc) = mac /\
       forall svc', bids svcs subnet svc' ip -> normalizeMAC (s_MAC svc') = mac) /\
  (forall mac', out !! mac = Some ip -> out !! mac' = Some ip -> mac' = mac) /\
  (fun p => (rp_Service p, rp_MAC p)) <$> problems =
    filter (fun x : string * string => out !! x.2 = None)
      ((fun svc => (s_Name svc, normalizeMAC (s_MAC svc))) <$> filter (fun svc => normalizeMAC (s_MAC svc) <> "") svcs).
Proof.
  destruct (Reservations svcs subnet) as [out problems] eqn:E.
  assert (Hout : out = (Reservations svcs subnet).1) by by rewrite E.
  assert (Hp : problems = (Reservations svcs subnet).2) by by rewrite E.
  assert (Hl : forall m i, out !! m = Some i <-> exists svc, bids svcs subnet svc i /\ normalizeMAC (s_MAC svc) = m /\
       forall svc', bids svcs subnet svc' i -> normalizeMAC (s_MAC svc') = m) by (intros; rewrite Hout; apply reserved_lookup).
  split; [apply Hl|]. split.
  - intros mac' (s1 & B1 & M1 & U1)%Hl (s2 & B2 & M2 & U2)%Hl. rewrite <- M2. by apply U1.
  - rewrite Hp, Hout. rewrite <- (claims3_order svcs subnet). rewrite <- problem_names; [|intros c; apply final_standing].
    unfold Reservations at 1. by rewrite resolve_fold.
Qed.
Lemma svc_example : (Reservations
  [mkService 1 "tv" [mkAddress 1 "192.168.1.20" ""; mkAddress 2 "10.8.0.20" "vpn"] [] "" false "" false "AA-BB-CC-00-00-01";
   mkService 2 "nas" [mkAddress 3 "192.168.1.255" ""] [] "" false "" false "aa:bb:cc:00:00:02"]
  (mkPrefix (Addr4 3232235777) 24)) =
  ({[ "aa:bb:cc:00:00:01" := Addr4 3232235796 ]},
   [mkProblem "nas" "aa:bb:cc:00:00:02" (NetworkOrBroadcast (Addr4 3232236031))]).
Proof. vm_compute. reflexivity. Qed.

(** ** The suggested range *)
Lemma mask_split bits u : 0 <= bits <= 32 -> 0 <= u < 2 ^ 32 ->
  exists q, u / 2 ^ (32 - bits) = q /\ Pfx.mask 32 bits u = q * 2 ^ (32 - bits) /\ 0 <= q /\ q * 2 ^ (32 - bits) + 2 ^ (32 - bits) <= 2 ^ 32.
Proof.
  intros Hb Hu. exists (u / 2 ^ (32 - bits)). unfold Pfx.mask. rewrite Z.shiftl_mul_pow2, Z.shiftr_div_pow2 by lia.
  split; [done|]. split; [done|]. assert (HK : 0 < 2 ^ (32 - bits)) by (apply Z.pow_pos_nonneg; lia).
  split; [apply Z.div_pos; lia|]. assert (E : 2 ^ 32 = 2 ^ bits * 2 ^ (32 - bits)) by (rewrite <- Z.pow_add_r by lia; f_equal; lia).
  assert (u / 2 ^ (32 - bits) < 2 ^ bits) by (apply Z.div_lt_upper_bound; lia). nia.
Qed.
Lemma broadcast_value p u : p_addr p = Addr4 u -> 0 <= p_bits p <= 32 -> 0 <= u < 2 ^ 32 ->
  broadcastOf p = Addr4 (Pfx.mask 32 (p_bits p) u + 2 ^ (32 - p_bits p) - 1).
Proof.
  intros Hp Hb Hu. assert (Hwf : prefix_wf p) by (unfold prefix_wf; rewrite Hp; cbn; repeat split; lia).
  unfold broadcastOf. rewrite (Masked_wf p Hwf), Hp.
  cbn [p_addr]. f_equal. destruct (mask_split _ _ Hb Hu) as (q & _ & -> & _).
  pose proof (Z.add_lor_land (q * 2 ^ (32 - p_bits p)) (Z.ones (32 - p_bits p))) as H.
  rewrite Z.land_ones, Z.mod_mul, Z.ones_equiv in H by (try apply Z.pow_nonzero; lia).
  rewrite Z.ones_equiv. lia.
Qed.
Lemma contains_value p u v : p_addr p = Addr4 u -> 0 <= p_bits p <= 32 ->
  Pfx.Contains p (Addr4 v) = true <-> v / 2 ^ (32 - p_bits p) = u / 2 ^ (32 - p_bits p).
Proof.
  intros Hp Hb. rewrite Contains_spec, Hp. cbn. rewrite <- !Z.shiftr_div_pow2 by lia. split.
  - intros (_ & _ & [(n & w & [= <-] & [= <-] & E)|(n & z & w & z' & ? & _)]); done.
  - intros E. split; [lia|]. split; [done|]. left. by exists u, v.
Qed.

(** the suggested pool is the upper half of the subnet without the broadcast
    address: both ends lie in the subnet, neither is the network or broadcast
    address, the [uint32] arithmetic never wraps, and a subnet longer than 29 bits
    or of IPv6 is refused. *)
Theorem suggested_range_inside (subnet : Prefix) :
  prefix_wf subnet -> 1 <= p_bits subnet ->
  match SuggestRange subnet with
  | None => 29 < p_bits subnet \/ Addr.Is4 (p_addr subnet) = false
  | Some (s, e) =>
      p_bits subnet <= 29 /\
      Pfx.Contains subnet s = true /\ Pfx.Contains subnet e = true /\ Addr.Next e = broadcastOf subnet /\
      s <> p_addr (Pfx.Masked subnet) /\ s <> broadcastOf subnet /\ e <> p_addr (Pfx.Masked subnet) /\
      Addr.value e - Addr.value s + 1 = 2 ^ (31 - p_bits subnet) - 1 /\
      Addr.value s = Addr.value (p_addr (Pfx.Masked subnet)) + 2 ^ (31 - p_bits subnet)
  end.
Proof.
  intros Hwf H1. unfold SuggestRange. destruct (p_addr subnet) as [|u|u z] eqn:Ep; [by right| |by right].
  destruct (Z.ltb_spec 29 (p_bits subnet)) as [Hb|Hb]; [by left|]. split; [done|].
  pose proof Hwf as (Hw & _). rewrite Ep in Hw. cbn in Hw.
  rewrite (broadcast_value subnet u Ep) by lia. rewrite !(contains_value subnet u) by (done || lia).
  rewrite Masked_wf, Ep by done. cbn [p_addr Addr.value].
  destruct (mask_split (p_bits subnet) u ltac:(lia) Hw) as (q & Hq & -> & Hq0 & Hmax). rewrite Hq, Z.shiftl_1_l.
  assert (HH : 2 ^ (32 - p_bits subnet) = 2 * 2 ^ (31 - p_bits subnet)) by (rewrite <- Z.pow_succ_r by lia; f_equal; lia).
  assert (HK2 : 4 <= 2 ^ (31 - p_bits subnet)) by (change 4 with (2 ^ 2); apply Z.pow_le_mono_r; lia).
  assert (HK31 : 2 ^ (32 - p_bits subnet) <= 2 ^ 31) by (apply Z.pow_le_mono_r; lia).
  rewrite HH in *. set (H := 2 ^ (31 - p_bits subnet)) in *.
  assert (Hsz : u32w (2 * H) = 2 * H) by (apply u32w_small; lia). rewrite Hsz.
  replace (2 * H / 2) with H by (symmetry; rewrite Z.mul_comm; apply Z.div_mul; lia).
  rewrite !u32w_small by nia.
  split; [rewrite Z.div_add_l by lia; rewrite Z.div_small by lia; lia|].
  split; [replace (q * (2 * H) + 2 * H - 2) with (q * (2 * H) + (2 * H - 2)) by lia; rewrite Z.div_add_l by lia; rewrite Z.div_small by lia; lia|].
  split; [cbn [Addr.Next]; destruct (Z.eqb_spec (q * (2 * H) + 2 * H - 2 + 1) (2 ^ 32)); [lia|f_equal; lia]|].
  repeat split; try (intros [= E]); lia.
Qed.
Lemma suggested_range_inside_witness :
  SuggestRange (mkPrefix (Addr4 3232235777) 24) = Some (Addr4 3232235904, Addr4 3232236030) /\
  Pfx.Contains (mkPrefix (Addr4 3232235777) 24) (Addr4 3232235904) = true.
Proof.
  assert (H : SuggestRange (mkPrefix (Addr4 3232235777) 24) = Some (Addr4 3232235904, Addr4 3232236030)) by (vm_compute; reflexivity).
  split; [exact H|]. pose proof (suggested_range_inside (mkPrefix (Addr4 3232235777) 24)) as S. rewrite H in S.
  apply S; [repeat split; vm_compute; congruence|vm_compute; congruence].
Defined.
(** A /0 is not a half: the size is computed on 32 bits and wraps to zero. *)
Example suggest_whole_space : SuggestRange (mkPrefix (Addr4 0) 0) = Some (Addr4 0, Addr4 4294967294).
Proof. vm_compute. reflexivity. Qed.

(** ** Other servers *)
Lemma collect_fold rs : let '(seen, out) := foldl collect1 (∅, []) rs in
  NoDup (ServerID <$> out) /\ (forall id, id ∈ seen <-> id ∈ ServerID <$> out) /\
  forall id, id ∈ seen <-> exists r, r ∈ rs /\ pr_offer r = true /\ foreign_id r = id /\ Addr.IsValid id = true.
Proof.
  induction rs as [|r rs IH] using rev_ind; cbn [foldl].
  { split; [constructor|]. split; intros id; (split; [by intros ?%elem_of_empty|]); [by intros ?%not_elem_of_nil|].
    intros (r & Hr & _). by apply not_elem_of_nil in Hr. }
  rewrite foldl_app. destruct (foldl collect1 _ rs) as [seen out]. destruct IH as (Hnd & Hs & Hc). cbn [foldl].
  assert (Hrs : forall id, (exists x, x ∈ rs ++ [r] /\ pr_offer x = true /\ foreign_id x = id /\ Addr.IsValid id = true) <->
    id ∈ seen \/ (pr_offer r = true /\ foreign_id r = id /\ Addr.IsValid id = true)).
  { intros id. rewrite Hc. setoid_rewrite elem_of_app. setoid_rewrite list_elem_of_singleton. split.
    - intros (x & [Hx| ->] & H); [left; by exists x|by right].
    - intros [(x & Hx & H)|H]; [exists x; auto|exists r; auto]. }
  unfold collect1. cbn [fst snd].
  destruct (pr_offer r); cbn [negb]; [|split; [done|]; split; [done|]; intros id; rewrite Hrs; naive_solver].
  destruct (Addr.IsValid (foreign_id r)) eqn:V; cbn [negb orb];
    [|split; [done|]; split; [done|]; intros id; rewrite Hrs; naive_solver congruence].
  destruct (bool_decide_reflect (foreign_id r ∈ seen)) as [Hin|Hn].
  - split; [done|]. split; [done|]. intros id. rewrite Hrs. naive_solver.
  - rewrite fmap_app. split; [|split].
    + apply NoDup_app. split; [done|]. split; [|apply NoDup_singleton].
      intros x Hx ->%list_elem_of_singleton. by apply Hn, Hs.
    + intros id. rewrite elem_of_union, elem_of_singleton, elem_of_app, Hs. cbn. rewrite list_elem_of_singleton. tauto.
    + intros id. rewrite Hrs, elem_of_union, elem_of_singleton. naive_solver.
Qed.

(** a probe reports each other server once: one entry per identity (option 54,
    or the address the answer came from when that option is unusable), for
    exactly the identities some OFFER carried, whatever else answered. *)
Theorem foreign_servers_listed_once (rs : list probe_reply) :
  NoDup (ServerID <$> collectForeign rs) /\
  forall id, id ∈ ServerID <$> collectForeign rs <->
    exists r, r ∈ rs /\ pr_offer r = true /\ foreign_id r = id /\ Addr.IsValid id = true.
Proof.
  unfold collectForeign. pose proof (collect_fold rs) as H. destruct (foldl collect1 _ rs) as [seen out].
  destruct H as (Hnd & Hs & Hc). split; [done|]. intros id. by rewrite <- Hs, Hc.
Qed.
(** The probe's own address is unicast and locally administered. *)
Lemma probe_mac_local b0 t : 0 <= b0 < 256 -> exists b, probeMAC (b0 :: t) = b :: t /\
  Z.testbit b 0 = false /\ Z.testbit b 1 = true /\ 0 <= b < 256.
Proof.
  intros Hb. eexists. split; [done|]. rewrite !Z.ldiff_spec, !Z.lor_spec. cbn [negb].
  split; [by rewrite andb_false_r|]. split; [by rewrite orb_true_r|].
  assert (H : forallb (fun b => (0 <=? Z.ldiff (Z.lor b 2) 1) && (Z.ldiff (Z.lor b 2) 1 <? 256)) (seqZ 0 256) = true) by (vm_compute; reflexivity).
  rewrite forallb_forall in H. specialize (H b0). rewrite andb_true_iff, Z.leb_le, Z.ltb_lt in H.
  apply H, list_elem_of_In, elem_of_seqZ. lia.
Qed.
