(* ===== verification/DhcpServer.v ===== *)
(** * The DHCP packet path: [internal/dhcpd/server.go]

    A packet is what the accessors of the packet library return for it; a reply is
    the list of modifiers the code builds it with.  The lease table is reached
    through the interface [LeaseStore], whose laws the store's tables satisfy.
    One reading of the clock serves a whole packet.  A failed write and a failed
    send are only logged; the socket itself is not modelled. *)
From S2P Require Import Prelude GoStr NetIP Model Store StoreNode StoreVersion StoreWf StoreNodeProps DhcpAlloc DhcpReserve.

Definition offerHold : Z := seconds 60.

(** ** The slice of the store the server needs *)
Class LeaseStore (S E : Type) := {
  ls_DHCPLeases : S -> result E (list DHCPLease);
  ls_PutDHCPLease : DHCPLease -> S -> S * result E unit;
  ls_DeleteDHCPLease : string -> S -> S * result E unit;
  ls_DeleteExpiredDHCPLeases : Z -> S -> S * result E Z }.
(** What the server relies on: [rows] is the table.  Any call may fail, and then it
    has changed nothing. *)
Class LeaseStoreLaws (S E : Type) `{LeaseStore S E} := {
  rows : S -> list DHCPLease;
  law_read s ls : ls_DHCPLeases s = Ok ls -> ls ≡ₚ rows s;
  law_put l s : (ls_PutDHCPLease l s).2 = Ok tt -> forall x,
    x ∈ rows (ls_PutDHCPLease l s).1 <-> x = l \/ (x ∈ rows s /\ dl_MAC x <> dl_MAC l /\ dl_IP x <> dl_IP l);
  law_put_keys l s : leases_ok (rows s) -> leases_ok (rows (ls_PutDHCPLease l s).1);
  law_put_err l s e : (ls_PutDHCPLease l s).2 = Err e -> rows (ls_PutDHCPLease l s).1 = rows s;
  law_delete m s : (ls_DeleteDHCPLease m s).2 = Ok tt ->
    rows (ls_DeleteDHCPLease m s).1 = filter (fun x => dl_MAC x <> m) (rows s);
  law_delete_err m s e : (ls_DeleteDHCPLease m s).2 = Err e -> rows (ls_DeleteDHCPLease m s).1 = rows s;
  law_expire t s n : (ls_DeleteExpiredDHCPLeases t s).2 = Ok n ->
    rows (ls_DeleteExpiredDHCPLeases t s).1 = filter (fun x => ~ dl_ExpiresAt x <= t) (rows s);
  law_expire_err t s e : (ls_DeleteExpiredDHCPLeases t s).2 = Err e -> rows (ls_DeleteExpiredDHCPLeases t s).1 = rows s }.

(** ** Packets and replies *)
Inductive MessageType := MsgDiscover | MsgRequest | MsgRelease | MsgDecline | MsgInform | MsgOther.
Record Packet := mkPacket {
  p_type : MessageType; p_xid : Z; p_chaddr : list Z; p_ciaddr : list Z;
  p_requested : list Z;            (* option 50 *)
  p_server : list Z;               (* option 54 *)
  p_hostname : string }.           (* option 12 *)
Inductive ReplyType := ReplyOffer | ReplyAck | ReplyNak.
Inductive Modifier :=
  | WithMessageType (t : ReplyType) | WithServerIP (a : Addr) | OptServerIdentifier (a : Addr)
  | OptSubnetMask (bits : Z) | OptIPAddressLeaseTime (d : Z) | WithYourIP (a : Addr)
  | OptRouter (a : Addr) | OptDNS (l : list Addr) | OptDomainName (s : string).
Record Options := mkOptions { o_Iface : Addr; o_Cfg : Config; o_DNS : list Addr; o_Domain : string }.
Record World (S : Type) := mkWorld {
  w_alloc : Allocator; w_store : S; w_ignored : gset Z;
  w_sent : list (Packet * list Modifier); w_changes : Z }.
Arguments mkWorld {S}. Arguments w_alloc {S}. Arguments w_store {S}. Arguments w_ignored {S}.
Arguments w_sent {S}. Arguments w_changes {S}.

(** What a lease looks like to discovery. *)
Record SourceLease := mkSourceLease { sl_MAC : string; sl_IP : string; sl_Hostname : string; sl_Expires : Z }.

(** ** Functions without state *)
Definition unmap_slice (l : list Z) : Addr := Addr.Unmap (default AddrZero (AddrFromSlice l)).
Definition asked_for1 (l : list Z) : option Addr :=
  match AddrFromSlice l with
  | None => None
  | Some a => let a := Addr.Unmap a in if Addr.IsValid a && negb (Addr.IsUnspecified a) then Some a else None
  end.
Definition askedFor (m : Packet) : Addr :=
  default AddrZero (head (omap asked_for1 [p_requested m; p_ciaddr m])).
Definition toIPs (l : list Addr) : list Addr := List.filter Addr.IsValid l.
Definition reply_mods (o : Options) (t : ReplyType) (yours : Addr) : list Modifier :=
  [WithMessageType t; WithServerIP (o_Iface o); OptServerIdentifier (o_Iface o);
   OptSubnetMask (p_bits (cf_Subnet (o_Cfg o))); OptIPAddressLeaseTime (cf_LeaseTime (o_Cfg o))]
  ++ (if Addr.IsValid yours then [WithYourIP yours] else [])
  ++ (if Addr.IsValid (cf_Gateway (o_Cfg o)) then [OptRouter (cf_Gateway (o_Cfg o))] else [])
  ++ (match toIPs (o_DNS o) with [] => [] | dns => [OptDNS dns] end)
  ++ (if bool_decide (o_Domain o = "") then [] else [OptDomainName (o_Domain o)]).
Definition nak_mods (o : Options) : list Modifier := [WithMessageType ReplyNak; OptServerIdentifier (o_Iface o)].

(** [netip.Addr.Compare], as an order. *)
Definition addr_zone (a : Addr) : string := match a with Addr6 _ z => z | _ => "" end.
Definition addr_leb (a b : Addr) : bool :=
  if negb (Addr.BitLen a =? Addr.BitLen b) then Addr.BitLen a <? Addr.BitLen b
  else if negb (Addr.value a =? Addr.value b) then Addr.value a <? Addr.value b
  else String.leb (addr_zone a) (addr_zone b).
Definition lease_le (a b : Lease) : Prop := addr_leb (l_IP a) (l_IP b) = true.
#[export] Instance lease_le_dec : RelDecision lease_le.
Proof. intros a b. unfold lease_le. apply _. Defined.
Definition source_lease (l : Lease) : option SourceLease :=
  if bool_decide (l_Hostname l = "") then None
  else Some (mkSourceLease (l_MAC l) (addr_string (l_IP l)) (l_Hostname l) (l_Expires l)).
Definition publish (ls : list Lease) : list SourceLease := omap source_lease (merge_sort lease_le ls).
Definition ServerLeases (now : Z) (a : Allocator) : list SourceLease := publish (DhcpAlloc.Leases now a).

Definition row_of (now : Z) (l : Lease) : DHCPLease :=
  mkDHCPLease (l_MAC l) (addr_string (l_IP l)) (l_Hostname l) (unix (l_Expires l)) (unix now).
Definition lease_of_row (r : DHCPLease) : option Lease :=
  match ParseAddr (dl_IP r) with
  | None => None
  | Some ip => Some (mkLease (dl_MAC r) ip (dl_Hostname r) (time_unix (dl_ExpiresAt r)))
  end.

(** ** Address selection of the packet path *)
Definition srv_allocate (o : Options) (now : Z) (inUse : Addr -> bool) (mac : string) (m : Packet) (commit : bool) (a : Allocator)
    : Allocator * option Lease :=
  let requested := unmap_slice (p_requested m) in
  if commit then Allocate now mac (sanitizeHostname (p_hostname m)) requested (cf_LeaseTime (o_Cfg o)) a
  else
    match Offer now mac requested offerHold a with
    | (a, None) => (a, None)
    | (a, Some (l, fresh)) =>
        if fresh && inUse (l_IP l) then
          let a := Quarantine now (l_IP l) a in
          let a := (Release mac (l_IP l) a).1 in
          let '(a, r) := Offer now mac AddrZero offerHold a in (a, fst <$> r)
        else (a, Some l)
    end.

Section server.
Context {S E : Type} {LS : LeaseStore S E} (o : Options).

Definition set_alloc (a : Allocator) (w : World S) : World S := mkWorld a (w_store w) (w_ignored w) (w_sent w) (w_changes w).
Definition set_store (s : S) (w : World S) : World S := mkWorld (w_alloc w) s (w_ignored w) (w_sent w) (w_changes w).
Definition set_ignored (i : gset Z) (w : World S) : World S := mkWorld (w_alloc w) (w_store w) i (w_sent w) (w_changes w).
Definition send (m : Packet) (mods : list Modifier) (w : World S) : World S :=
mkWorld (w_alloc w) (w_store w) (w_ignored w) (w_sent w ++ [(m, mods)]) (w_changes w).
Definition OnChange (w : World S) : World S :=
mkWorld (w_alloc w) (w_store w) (w_ignored w) (w_sent w) (w_changes w + 1).
Definition reply (m : Packet) (t : ReplyType) (yours : Addr) : World S -> World S := send m (reply_mods o t yours).
Definition nak (m : Packet) : World S -> World S := send m (nak_mods o).

Definition ignoreXID (xid : Z) (w : World S) : World S := set_ignored ({[xid]} ∪ w_ignored w) w.
Definition unignoreXID (xid : Z) (w : World S) : World S := set_ignored (w_ignored w ∖ {[xid]}) w.
Definition isIgnored (xid : Z) (w : World S) : bool := bool_decide (xid ∈ w_ignored w).

Definition offer (now : Z) (inUse : Addr -> bool) (m : Packet) (mac : string) (w : World S) : World S :=
let '(a, r) := srv_allocate o now inUse mac m false (w_alloc w) in
let w := set_alloc a w in
match r with
| None => w
| Some l => reply m ReplyOffer (l_IP l) w
end.
Definition ack (now : Z) (inUse : Addr -> bool) (m : Packet) (mac : string) (w : World S) : World S :=
let asked := askedFor m in
if Addr.IsValid asked && negb (Pfx.Contains (cf_Subnet (o_Cfg o)) asked) then nak m w
else
let '(a, r) := srv_allocate o now inUse mac m true (w_alloc w) in
let w := set_alloc a w in
match r with
| None => nak m w
| Some l =>
    if Addr.IsValid asked && negb (bool_decide (l_IP l = asked)) then nak m w
    else
      let w := set_store (ls_PutDHCPLease (row_of now l) (w_store w)).1 w in
      OnChange (reply m ReplyAck (l_IP l) w)
end.
Definition release (m : Packet) (mac : string) (w : World S) : World S :=
match AddrFromSlice (p_ciaddr m), AddrFromSlice (p_server m) with
| Some ip, Some server =>
  if Addr.IsUnspecified ip || negb (bool_decide (Addr.Unmap server = o_Iface o)) then w
  else match Release mac (Addr.Unmap ip) (w_alloc w) with
       | (_, false) => w
       | (a, true) =>
           let w := set_alloc a w in
           OnChange (set_store (ls_DeleteDHCPLease mac (w_store w)).1 w)
       end
| _, _ => w
end.
Definition decline (now : Z) (m : Packet) (mac : string) (w : World S) : World S :=
match AddrFromSlice (p_requested m) with
| None => w
| Some ip =>
  match Decline now mac (Addr.Unmap ip) (w_alloc w) with
  | (_, false) => w
  | (a, true) =>
      let w := set_alloc a w in
      OnChange (set_store (ls_DeleteDHCPLease mac (w_store w)).1 w)
  end
end.
Definition inform (m : Packet) : World S -> World S := reply m ReplyAck AddrZero.

Definition handle (now : Z) (inUse : Addr -> bool) (m : Packet) (w : World S) : World S :=
let mac := normalizeMAC (mac_string (p_chaddr m)) in
if bool_decide (mac = "") then w
else if isIgnored (p_xid m) w then w
else match p_type m with
   | MsgDiscover => offer now inUse m mac w
   | MsgRequest => ack now inUse m mac w
   | MsgRelease => release m mac w
   | MsgDecline => decline now m mac w
   | MsgInform => inform m w
   | MsgOther => w
   end.

(** Start-up: expired rows are pruned, the rest is loaded. *)
Definition restore (now : Z) (w : World S) : World S * result E unit :=
match ls_DeleteExpiredDHCPLeases (unix now) (w_store w) with
| (s, Err e) => (set_store s w, Err e)
| (s, Ok _) =>
  let w := set_store s w in
  match ls_DHCPLeases s with
  | Err e => (w, Err e)
  | Ok rs => (set_alloc (Load (omap lease_of_row rs) (w_alloc w)) w, Ok tt)
  end
end.
End server.

(** ** The store's tables are a lease store *)
#[export] Instance DB_leases : LeaseStore DB store_error := {|
  ls_DHCPLeases db := Ok (StoreNode.DHCPLeases db);
  ls_PutDHCPLease := PutDHCPLease;
  ls_DeleteDHCPLease := DeleteDHCPLease;
  ls_DeleteExpiredDHCPLeases := DeleteExpiredDHCPLeases |}.
#[export] Instance DB_leases_laws : LeaseStoreLaws DB store_error.
Proof.
  refine {| rows := fun db => n_leases (node db) |}; cbn.
  - intros s ls [= <-]. apply merge_sort_Permutation.
  - intros l s _ x. apply put_lease_spec.
  - intros l s. apply put_lease_ok.
  - done.
  - done.
  - done.
  - done.
  - done.
Defined.

(** ** Histories of one server process after another over one lease table *)
Inductive event :=
  | EvPacket (now : Z) (inUse : Addr -> bool) (m : Packet)
  | EvServices (svcs : list Service)
  | EvIgnore (xid : Z) | EvUnignore (xid : Z)
  | EvRestart (now : Z).
Section history.
Context {S E : Type} {LS : LeaseStore S E} (o : Options).
Definition estep (w : World S) (e : event) : World S :=
match e with
| EvPacket now inUse m => handle o now inUse m w
| EvServices svcs => set_alloc (SetReservations (Reservations svcs (cf_Subnet (o_Cfg o))).1 (w_alloc w)) w
| EvIgnore xid => ignoreXID xid w
| EvUnignore xid => unignoreXID xid w
| EvRestart now => (restore now (set_ignored ∅ (set_alloc (NewAllocator (o_Cfg o)) w))).1
end.
Definition boot (s : S) : World S := mkWorld (NewAllocator (o_Cfg o)) s ∅ [] 0.
Definition erun (s : S) (h : list event) : World S := foldl estep (boot s) h.
End history.

(** ** What is true of every lease and of every row *)
Definition v4 (a : Addr) : Prop := exists u, a = Addr4 u /\ 0 <= u < 2 ^ 32.
Definition name_ok (h : string) : Prop := h = "" \/ label_ok h = true.
Definition good_lease (l : Lease) : Prop := v4 (l_IP l) /\ name_ok (l_Hostname l).
Definition good_row (r : DHCPLease) : Prop := (exists a, v4 a /\ dl_IP r = addr_string a) /\ name_ok (dl_Hostname r).
Definition table_ok (rs : list DHCPLease) : Prop := leases_ok rs /\ forall r, r ∈ rs -> good_row r.
Definition good_alloc (c : Config) (a : Allocator) : Prop :=
  alloc_ok a /\ cfg a = c /\ (forall m l, byMAC a !! m = Some l -> good_lease l) /\
  (forall m ip, reserved a !! m = Some ip -> v4 ip).

Lemma v4_string_inj a b : v4 a -> v4 b -> addr_string a = addr_string b -> a = b.
Proof.
  intros (u & -> & Hu) (v & -> & Hv) E. change (addr_string (Addr4 u)) with (string4 u) in E.
  change (addr_string (Addr4 v)) with (string4 v) in E.
  pose proof (ParseAddr_string4 u Hu) as P. rewrite E, (ParseAddr_string4 v Hv) in P. congruence.
Qed.
Lemma v4_parse a : v4 a -> ParseAddr (addr_string a) = Some a.
Proof. intros (u & -> & Hu). by apply ParseAddr_string4. Qed.
Lemma inRange_v4 c ip : range_ok c -> inRange c ip = true -> v4 ip.
Proof.
  intros Hc Hr. pose proof Hc as (H1 & H2 & H3 & H4). apply inRange_4 in Hr as (u & -> & Hu); [|done]. exists u. split; [done|].
  destruct (cf_Start c); [done| |done]. destruct (cf_End c); [done| |done]. cbn in *. lia.
Qed.

Lemma allocate_good c now mac h req ttl t a : range_ok c -> good_alloc c a -> name_ok h ->
  good_alloc c (allocate now mac h req ttl t a).1 /\
  forall l f, (allocate now mac h req ttl t a).2 = Some (l, f) -> good_lease l /\ l_MAC l = mac.
Proof.
  intros Hc (Ha & <- & Hl & Hr) Hh. apply outcome_cases. intros r Ho.
  destruct Ho as [h' ip fresh Heq G|ip p Ht Hres Hp Hm Hv|p Ht Hm Hv Hp|]; cbn [fst snd].
  - assert (Hip : v4 ip).
    { destruct G as [ip Hres _ _|p Hp _|ip F _]; [by eapply Hr|by apply (Hl _ _ Hp)|].
      apply free_inv in F as [Hu _]. unfold usable in Hu. bool_to_prop. by eapply inRange_v4. }
    assert (Hh' : name_ok h') by (rewrite Heq; destruct (nameTaken _ _ _ _); [by left|done]).
    destruct (commit_byMAC_eq mac h' now ttl t ip fresh a) as (l0 & Hc0 & Hl0 & HM & HI).
    assert (Hg : good_lease l0).
    { split; [by rewrite HI|]. destruct (commit_name _ _ _ _ _ _ _ _ _ Hl0) as [->|(p & Hp & _ & ->)]; [done|]. by apply (Hl _ _ Hp). }
    split; [|intros l f; rewrite Hc0; cbn; intros [= <- <-]; done].
    split; [by apply commit_ok|]. split; [done|]. split; [|done].
    intros m l Hml. destruct (decide (m = mac)) as [->|Hne]; [rewrite Hl0 in Hml; by injection Hml as <-|].
    rewrite commit_byMAC_ne in Hml by done. case_bool_decide; [done|]. by eapply Hl.
  - split; [done|]. intros l f [= <- <-]. split; [|done]. split; [by eapply Hr|by left].
  - split; [done|]. intros l f [= <- <-]. split; [by eapply Hl|]. by apply (proj1 Ha).
  - done.
Qed.
Lemma drop_good c mac ip a : good_alloc c a -> byIP a !! ip = Some mac ->
  good_alloc c (with_leases (delete mac (byMAC a)) (delete ip (byIP a)) a).
Proof.
  intros (Ha & Hc & Hl & Hr) Hb. split; [by apply drop_ok|]. split; [done|]. split; [|done].
  intros m l. cbn. intros [_ ?]%lookup_delete_Some. by eapply Hl.
Qed.
Lemma release_good c mac ip a : good_alloc c a -> good_alloc c (Release mac ip a).1.
Proof. intros Ha. destruct (release_cases mac ip a (proj1 Ha)) as [[-> _]|[-> Hb]]; [done|]. by apply drop_good. Qed.
Lemma decline_good c now mac ip a : good_alloc c a -> good_alloc c (Decline now mac ip a).1.
Proof.
  intros Ha. destruct (decline_cases now mac ip a) as [[-> _]|(Hb & _ & ->)]; [done|].
  pose proof (drop_good c mac ip a Ha Hb). cbn [fst]. by case_if.
Qed.
Lemma srv_allocate_good c o now inUse mac m commit a : range_ok c -> good_alloc c a ->
  good_alloc c (srv_allocate o now inUse mac m commit a).1 /\
  forall l, (srv_allocate o now inUse mac m commit a).2 = Some l -> good_lease l /\ l_MAC l = mac.
Proof.
  intros Hc Ha. unfold srv_allocate, Allocate, Offer. destruct commit.
  - destruct (allocate_good c now mac (sanitizeHostname (p_hostname m)) (unmap_slice (p_requested m)) (cf_LeaseTime (o_Cfg o)) false a Hc Ha)
      as [H1 H2]; [apply sanitized_hostname_is_label|].
    destruct (allocate _ _ _ _ _ _ _) as [a' [[l f]|]]; cbn in *; (split; [done|]); [|done]. intros ? [= <-]. by eapply H2.
  - destruct (allocate_good c now mac "" (unmap_slice (p_requested m)) offerHold true a Hc Ha) as [H1 H2]; [by left|].
    destruct (allocate _ _ _ _ _ _ _) as [a' [[l f]|]]; cbn in *; [|done].
    destruct (f && inUse (l_IP l)); [|split; [done|intros ? [= <-]; by eapply H2]].
    assert (Hq : good_alloc c (Release mac (l_IP l) (Quarantine now (l_IP l) a')).1) by by apply release_good.
    destruct (allocate_good c now mac "" AddrZero offerHold true _ Hc Hq) as [H3 H4]; [by left|].
    destruct (allocate _ _ _ _ _ _ _) as [a2 [[l2 f2]|]]; cbn in *; (split; [done|]); [|done]. intros ? [= <-]. by eapply H4.
Qed.
Lemma Load_good c rs a : cfg a = c -> (forall m ip, reserved a !! m = Some ip -> v4 ip) -> table_ok rs ->
  good_alloc c (Load (omap lease_of_row rs) a).
Proof.
  intros Hc Hr [[Hm Hi] Hg].
  assert (Hrow : forall r, r ∈ rs -> exists ip, v4 ip /\ dl_IP r = addr_string ip /\
    lease_of_row r = Some (mkLease (dl_MAC r) ip (dl_Hostname r) (time_unix (dl_ExpiresAt r)))).
  { intros r Hin. destruct (Hg r Hin) as [(ip & Hip & Hs) _]. exists ip. split; [done|]. split; [done|].
    unfold lease_of_row. by rewrite Hs, v4_parse. }
  assert (Hnd : NoDup (l_MAC <$> omap lease_of_row rs) /\ NoDup (l_IP <$> omap lease_of_row rs)).
  { clear Hg. induction rs as [|r rs IH]; [split; constructor|]. cbn in Hm, Hi.
    apply NoDup_cons in Hm as [Hm1 Hm], Hi as [Hi1 Hi]. destruct IH as [I1 I2]; [done..|intros; apply Hrow; by right|].
    destruct (Hrow r ltac:(left)) as (ip & Hip & Hs & E'). rewrite omap_cons, E'. cbn [fmap list_fmap l_MAC l_IP].
    split; constructor; try done.
    - intros (l & Hl & Hin)%list_elem_of_fmap. apply list_elem_of_omap in Hin as (r' & Hr' & El).
      destruct (Hrow r' ltac:(by right)) as (ip' & _ & _ & E2). rewrite E2 in El. injection El as <-. cbn in Hl.
      apply Hm1. rewrite Hl. by apply list_elem_of_fmap_2.
    - intros (l & Hl & Hin)%list_elem_of_fmap. apply list_elem_of_omap in Hin as (r' & Hr' & El).
      destruct (Hrow r' ltac:(by right)) as (ip' & _ & Hs' & E2). rewrite E2 in El. injection El as <-. cbn in Hl.
      apply Hi1. rewrite Hs, Hl, <- Hs'. by apply list_elem_of_fmap_2. }
  split; [apply Load_ok; apply Hnd|]. split; [done|]. split; [|done].
  intros m l Hl. cbn in Hl. apply (fill_lookup l_MAC id _ (proj1 Hnd)) in Hl as [(x & Hx & _ & <-)|[_ Hl]]; [|by rewrite lookup_empty in Hl].
  apply list_elem_of_omap in Hx as (r & Hin & Er). destruct (Hrow r Hin) as (ip & Hip & _ & E2). rewrite E2 in Er.
  injection Er as <-. split; [done|]. apply (Hg r Hin).
Qed.
Lemma Reservations_v4 svcs subnet mac ip : Addr.Is4 (p_addr subnet) = true ->
  (Reservations svcs subnet).1 !! mac = Some ip -> v4 ip.
Proof.
  intros H4 (svc & (_ & _ & _ & Hs & _) & _)%reserved_lookup.
  assert (Hin : ip ∈ seen_in subnet svc) by (rewrite Hs; by apply elem_of_singleton).
  apply seen_in_elem in Hin as (a & b & _ & Hb & -> & Hc). apply ParseAddr_wf in Hb as [Hw _].
  apply Contains_spec in Hc as (_ & _ & [(n & u & _ & Hu & _)|(n & z & u & z' & Hn & _)]); [|by rewrite Hn in H4].
  exists u. split; [done|]. destruct b as [|x|x z]; cbn in *; [done|naive_solver|].
  destruct (_ =? _); [|done]. injection Hu as <-. apply Z.mod_pos_bound. lia.
Qed.

Section laws.
Context {S E : Type} {LS : LeaseStore S E} {LSL : LeaseStoreLaws S E} (o : Options).
Hypothesis Hrange : range_ok (o_Cfg o).
Hypothesis Hsubnet : Addr.Is4 (p_addr (cf_Subnet (o_Cfg o))) = true.

Definition world_ok (w : World S) : Prop := good_alloc (o_Cfg o) (w_alloc w) /\ table_ok (rows (w_store w)).

Lemma put_table l s : table_ok (rows s) -> good_row l -> table_ok (rows (ls_PutDHCPLease l s).1).
Proof.
intros [Hk Hg] Hl. split; [by apply law_put_keys|]. destruct (ls_PutDHCPLease l s).2 as [[]|e] eqn:E1.
- intros r [->|[Hr _]]%(law_put _ _ E1); [done|by apply Hg].
- rewrite (law_put_err _ _ _ E1). done.
Qed.
Lemma filter_table (P : DHCPLease -> Prop) `{forall x, Decision (P x)} rs : table_ok rs -> table_ok (filter P rs).
Proof.
intros [[H1 H2] Hg]. split; [split; by apply NoDup_fmap_filter'|]. intros r [_ Hr]%list_elem_of_filter. by apply Hg.
Qed.
Lemma delete_table m s : table_ok (rows s) -> table_ok (rows (ls_DeleteDHCPLease m s).1).
Proof.
intros Ht. destruct (ls_DeleteDHCPLease m s).2 as [[]|e] eqn:E1.
- rewrite (law_delete _ _ E1). by apply filter_table.
- by rewrite (law_delete_err _ _ _ E1).
Qed.
Lemma expire_table t s : table_ok (rows s) -> table_ok (rows (ls_DeleteExpiredDHCPLeases t s).1).
Proof.
intros Ht. destruct (ls_DeleteExpiredDHCPLeases t s).2 as [n|e] eqn:E1.
- rewrite (law_expire _ _ _ E1). by apply filter_table.
- by rewrite (law_expire_err _ _ _ E1).
Qed.
Lemma row_of_good now l : good_lease l -> good_row (row_of now l).
Proof. intros [H1 H2]. split; [by exists (l_IP l)|done]. Qed.
Lemma Permutation_table rs rs' : rs ≡ₚ rs' -> table_ok rs' -> table_ok rs.
Proof.
intros Hp [[H1 H2] Hg]. split; [split; by rewrite Hp|]. intros r Hr. apply Hg. by rewrite <- Hp.
Qed.

Lemma handle_ok now inUse m w : world_ok w -> world_ok (handle o now inUse m w).
Proof.
intros [Ha Ht]. unfold handle. destruct (bool_decide _); [done|]. destruct (isIgnored _ _); [done|].
set (mac := normalizeMAC _). destruct (p_type m).
- unfold offer. destruct (srv_allocate_good _ o now inUse mac m false _ Hrange Ha) as [H1 _].
  destruct (srv_allocate _ _ _ _ _ _ _) as [a [l|]]; done.
- unfold ack. destruct (Addr.IsValid _ && negb (Pfx.Contains _ _)); [done|].
  destruct (srv_allocate_good _ o now inUse mac m true _ Hrange Ha) as [H1 H2].
  destruct (srv_allocate _ _ _ _ _ _ _) as [a [l|]]; [|done]. cbn in H1, H2.
  destruct (Addr.IsValid _ && negb _); [done|]. split; [done|]. cbn.
  apply put_table; [done|]. apply row_of_good. by apply H2.
- unfold release. destruct (AddrFromSlice (p_ciaddr m)) as [ip|]; [|done]. destruct (AddrFromSlice (p_server m)) as [sv|]; [|done].
  destruct (_ || _); [done|]. pose proof (release_good (o_Cfg o) mac (Addr.Unmap ip) _ Ha) as Hg.
  destruct (Release mac (Addr.Unmap ip) (w_alloc w)) as [a []]; [|done]. split; [done|]. by apply delete_table.
- unfold decline. destruct (AddrFromSlice (p_requested m)) as [ip|]; [|done].
  pose proof (decline_good (o_Cfg o) now mac (Addr.Unmap ip) _ Ha) as Hg.
  destruct (Decline now mac (Addr.Unmap ip) (w_alloc w)) as [a []]; [|done]. split; [done|]. by apply delete_table.
- done.
- done.
Qed.
Lemma restore_ok now w : world_ok w -> world_ok (restore now w).1.
Proof.
intros [Ha Ht]. unfold restore. pose proof (expire_table (unix now) (w_store w) Ht) as He.
destruct (ls_DeleteExpiredDHCPLeases _ _) as [s [n|e]]; [|done]. cbn in He.
destruct (ls_DHCPLeases s) as [rs|e] eqn:Er; [|done]. cbn. split; [|done].
apply Load_good; [apply Ha..|]. eapply Permutation_table; [by apply law_read|done].
Qed.
Lemma new_good : good_alloc (o_Cfg o) (NewAllocator (o_Cfg o)).
Proof. split; [apply new_ok|]. split; [done|]. split; intros ? ?; cbn; by rewrite lookup_empty. Qed.
Lemma estep_ok w e : world_ok w -> world_ok (estep o w e).
Proof.
intros Hw. destruct e as [now inUse m|svcs|xid|xid|now]; cbn [estep]; [by apply handle_ok| |done|done|].
- destruct Hw as [(Ha & Hc & Hl & Hr) Ht]. split; [|done]. split; [done|]. split; [done|]. split; [done|].
  cbn. intros m ip. by apply Reservations_v4.
- apply restore_ok. split; [apply new_good|apply Hw].
Qed.
Lemma erun_ok s h : table_ok (rows s) -> world_ok (erun o s h).
Proof.
intros Hs. unfold erun. apply (foldl_inv world_ok); [intros; by apply estep_ok|]. split; [apply new_good|done].
Qed.
End laws.

(** ** What discovery sees *)
Lemma elem_of_publish ls x : x ∈ publish ls <-> exists l, l ∈ ls /\ source_lease l = Some x.
Proof. unfold publish. rewrite list_elem_of_omap. split; intros (l & Hl & Hx); exists l; (split; [|done]); revert Hl; by rewrite merge_sort_Permutation. Qed.
Lemma NoDup_map_to_list_key {A K} `{Countable K} (key : A -> K) (m : gmap string A) (P : A -> Prop) `{forall x, Decision (P x)} :
  (forall m1 m2 x y, m !! m1 = Some x -> m !! m2 = Some y -> key x = key y -> m1 = m2) ->
  NoDup (key <$> filter P (map_to_list m).*2).
Proof.
  intros Hinj. apply NoDup_fmap_filter'. pose proof (NoDup_map_to_list m) as Hnd.
  assert (Hin : forall k x, (k, x) ∈ map_to_list m -> m !! k = Some x) by (intros; by apply elem_of_map_to_list).
  induction (map_to_list m) as [|[k x] l IH]; [constructor|]. cbn. apply NoDup_cons in Hnd as [Hx Hnd]. constructor.
  - intros (y & Hk & Hy)%list_elem_of_fmap. apply list_elem_of_fmap in Hy as ([k' y'] & -> & Hy). cbn in Hk.
    pose proof (Hin k x ltac:(left)) as L1. pose proof (Hin k' y' ltac:(by right)) as L2.
    assert (k = k') as <- by exact (Hinj _ _ _ _ L1 L2 Hk). assert (x = y') as -> by congruence. done.
  - apply IH; [done|]. intros. apply Hin. by right.
Qed.
Lemma published_nodup c now a : good_alloc c a ->
  NoDup (sl_MAC <$> ServerLeases now a) /\ NoDup (sl_IP <$> ServerLeases now a).
Proof.
  intros (Ha & _ & Hl & _).
  assert (Hm : NoDup (l_MAC <$> DhcpAlloc.Leases now a)).
  { apply (NoDup_map_to_list_key l_MAC). intros m1 m2 x y H1 H2 He.
    pose proof (proj1 Ha _ _ H1) as [E1 _]. pose proof (proj1 Ha _ _ H2) as [E2 _]. congruence. }
  assert (Hi : NoDup ((fun l => addr_string (l_IP l)) <$> DhcpAlloc.Leases now a)).
  { apply (NoDup_map_to_list_key (fun l => addr_string (l_IP l))). intros m1 m2 x y H1 H2 He.
    eapply alloc_ok_inj; [exact Ha|exact H1|exact H2|].
    apply v4_string_inj; [by eapply Hl|by eapply Hl|done]. }
  unfold ServerLeases, publish. rewrite <- (merge_sort_Permutation lease_le) in Hm, Hi. revert Hm Hi.
  induction (merge_sort lease_le _) as [|l ls IH]; [split; constructor|]. cbn [fmap list_fmap].
  intros [Hm1 Hm]%NoDup_cons [Hi1 Hi]%NoDup_cons. destruct (IH Hm Hi) as [I1 I2]. rewrite omap_cons.
  destruct (source_lease l) as [x|] eqn:Ex; [|done]. unfold source_lease in Ex. case_bool_decide; [done|]. injection Ex as <-.
  cbn [fmap list_fmap sl_MAC sl_IP]. split; constructor; try done.
  - intros (y & Hy & Hin)%list_elem_of_fmap. apply list_elem_of_omap in Hin as (l' & Hl' & El).
    unfold source_lease in El. case_bool_decide; [done|]. injection El as <-. cbn in Hy. apply Hm1. rewrite Hy. by apply list_elem_of_fmap_2.
  - intros (y & Hy & Hin)%list_elem_of_fmap. apply list_elem_of_omap in Hin as (l' & Hl' & El).
    unfold source_lease in El. case_bool_decide; [done|]. injection El as <-. cbn in Hy. apply Hi1. rewrite Hy.
    by apply (list_elem_of_fmap_2 (fun l => addr_string (l_IP l))).
Qed.

(** C21: whatever packets arrive, whatever services are edited and however often the
    server restarts over its lease table (whose writes may fail), the leases it
    publishes to DNS have distinct clients, distinct addresses and valid names. *)
Theorem published_leases_consistent {S E : Type} {LS : LeaseStore S E} {LSL : LeaseStoreLaws S E} (o : Options) (s : S) (h : list event) (now : Z) :
  range_ok (o_Cfg o) -> Addr.Is4 (p_addr (cf_Subnet (o_Cfg o))) = true -> table_ok (rows s) ->
  let pub := ServerLeases now (w_alloc (erun o s h)) in
  NoDup (sl_MAC <$> pub) /\ NoDup (sl_IP <$> pub) /\ (forall x, x ∈ pub -> label_ok (sl_Hostname x) = true).
Proof.
  intros Hc Hn Ht. cbv zeta. destruct (erun_ok o Hc Hn s h Ht) as [Ha _].
  destruct (published_nodup _ now _ Ha) as [H1 H2]. split; [done|]. split; [done|].
  intros x (l & Hl & Hx)%elem_of_publish. apply (elem_of_Leases _ _ _ (proj1 Ha)) in Hl as [Hl _].
  unfold source_lease in Hx. case_bool_decide as Hne; [done|]. injection Hx as <-. cbn.
  destruct Ha as (_ & _ & Hg & _). by destruct (Hg _ _ Hl) as [_ [?|?]].
Qed.

Lemma Allocate_committed now mac h req ttl a a' l : Allocate now mac h req ttl a = (a', Some l) ->
  byMAC a' !! mac = Some l /\ l_MAC l = mac /\ l_Expires l = now + ttl.
Proof.
  unfold Allocate. pose proof (allocate_outcome now mac h req ttl false a) as Ho.
  destruct (allocate now mac h req ttl false a) as [a1 r]. intros [= -> Hr].
  inversion Ho as [h' ip fresh Hh G Hcm|? ? Hf|? Hf|]; subst; try done.
  cbn in Hr. injection Hr as <-. cbn. rewrite lookup_insert_eq. by destruct (byMAC a !! mac).
Qed.

(** what a REQUEST does, always with exactly one answer.  A NAK leaves the lease
    table and discovery as they were.  An ACK gives the address the client named,
    when it named one, which lies in the subnet; it is the client's lease in the
    allocator for the full lease time; its row is stored, unless that write fails,
    and discovery is told once. *)
Theorem request_answered {S E : Type} {LS : LeaseStore S E} {LSL : LeaseStoreLaws S E} (o : Options) (now : Z)
    (inUse : Addr -> bool) (m : Packet) (w : World S) :
  p_type m = MsgRequest -> normalizeMAC (mac_string (p_chaddr m)) <> "" -> p_xid m ∉ w_ignored w ->
  let mac := normalizeMAC (mac_string (p_chaddr m)) in
  let w' := handle o now inUse m w in
  w_ignored w' = w_ignored w /\
  (w_sent w' = w_sent w ++ [(m, nak_mods o)] /\ w_store w' = w_store w /\ w_changes w' = w_changes w \/
   exists l, w_sent w' = w_sent w ++ [(m, reply_mods o ReplyAck (l_IP l))] /\
     byMAC (w_alloc w') !! mac = Some l /\ l_MAC l = mac /\ l_Expires l = now + cf_LeaseTime (o_Cfg o) /\
     (Addr.IsValid (askedFor m) = true -> l_IP l = askedFor m /\ Pfx.Contains (cf_Subnet (o_Cfg o)) (l_IP l) = true) /\
     w_store w' = (ls_PutDHCPLease (row_of now l) (w_store w)).1 /\
     ((ls_PutDHCPLease (row_of now l) (w_store w)).2 = Ok tt -> row_of now l ∈ rows (w_store w')) /\
     w_changes w' = w_changes w + 1).
Proof.
  intros Ht Hm Hx. cbv zeta. unfold handle. rewrite bool_decide_false by done. unfold isIgnored.
  rewrite bool_decide_false, Ht by done. set (mac := normalizeMAC _). unfold ack.
  destruct (Addr.IsValid (askedFor m) && negb (Pfx.Contains _ _)) eqn:A; [split; [done|by left]|].
  unfold srv_allocate. destruct (Allocate _ _ _ _ _ _) as [a [l|]] eqn:Ea; [|split; [done|by left]].
  destruct (Allocate_committed _ _ _ _ _ _ _ _ Ea) as (H1 & H2 & H3).
  destruct (Addr.IsValid (askedFor m) && negb (bool_decide (l_IP l = askedFor m))) eqn:B; [split; [done|by left]|].
  split; [done|]. right. exists l. split; [done|]. split; [done|]. split; [done|]. split; [done|]. split.
  - intros Hv. rewrite Hv in A, B. cbn in A, B. bool_to_prop. rewrite B. done.
  - split; [done|]. split; [|done]. intros Hp. apply (law_put _ _ Hp). by left.
Qed.

(** ** Restart *)
Lemma restore_spec {S E : Type} {LS : LeaseStore S E} {LSL : LeaseStoreLaws S E} now (w : World S) :
  table_ok (rows (w_store w)) -> (restore now w).2 = Ok tt ->
  forall mac l, byMAC (w_alloc (restore now w).1) !! mac = Some l <->
    exists r, r ∈ rows (w_store w) /\ unix now < dl_ExpiresAt r /\ dl_MAC r = mac /\ lease_of_row r = Some l.
Proof.
  intros Ht. pose proof (expire_table (unix now) (w_store w) Ht) as He. unfold restore.
  pose proof (law_expire (unix now) (w_store w)) as Hexp.
  destruct (ls_DeleteExpiredDHCPLeases _ _) as [s [n|e]]; [|done]. cbn in He, Hexp. specialize (Hexp n eq_refl).
  destruct (ls_DHCPLeases s) as [rs|e] eqn:Er; [|done]. intros _ mac l. cbn.
  pose proof (law_read _ _ Er) as Hp.
  pose proof (Permutation_table _ _ Hp He) as Hrs. destruct (Load_good (cfg (w_alloc w)) rs (SetReservations ∅ (w_alloc w)) eq_refl) as [Hok _]; [by intros ? ?; cbn; rewrite lookup_empty|done|].
  assert (Hnd : NoDup (l_MAC <$> omap lease_of_row rs)).
  { destruct Hrs as [[Hm _] Hg]. clear -Hm Hg. induction rs as [|r rs IH]; [constructor|]. cbn in Hm. apply NoDup_cons in Hm as [Hm1 Hm].
    rewrite omap_cons. specialize (IH Hm ltac:(intros; apply Hg; by right)).
    destruct (lease_of_row r) as [x|] eqn:Ex; [|done]. cbn [fmap list_fmap]. constructor; [|done].
    intros (y & Hy & Hin)%list_elem_of_fmap. apply list_elem_of_omap in Hin as (r' & Hr' & Ey).
    unfold lease_of_row in Ex, Ey. destruct (ParseAddr (dl_IP r)); [|done]. destruct (ParseAddr (dl_IP r')); [|done].
    injection Ex as <-. injection Ey as <-. cbn in Hy. apply Hm1. rewrite Hy. by apply list_elem_of_fmap_2. }
  rewrite (fill_lookup l_MAC id _ Hnd), lookup_empty.
  assert (Hin : forall r, r ∈ rs <-> r ∈ rows (w_store w) /\ unix now < dl_ExpiresAt r).
  { intros r. rewrite Hp, Hexp, list_elem_of_filter. split; intros [? ?]; (split; [done|lia]) || (split; [lia|done]). }
  assert (Hlm : forall r x, lease_of_row r = Some x -> l_MAC x = dl_MAC r).
  { intros r x. unfold lease_of_row. destruct (ParseAddr (dl_IP r)); [|done]. by intros [= <-]. }
  split.
  - intros [(x & Hx & Hk & <-)|[_ ?]]; [|done]. apply list_elem_of_omap in Hx as (r & Hr & Ex). apply Hin in Hr as [Hr Hu].
    exists r. rewrite <- (Hlm _ _ Ex). done.
  - intros (r & Hr & Hu & <- & Ex). left. exists l. split; [|split; [by apply Hlm|done]]. apply list_elem_of_omap. exists r. split; [by apply Hin|done].
Qed.
Lemma row_round_trip now l : v4 (l_IP l) ->
  lease_of_row (row_of now l) = Some (mkLease (l_MAC l) (l_IP l) (l_Hostname l) (time_unix (unix (l_Expires l)))) /\
  l_Expires l - nanos_per_sec < time_unix (unix (l_Expires l)) <= l_Expires l.
Proof.
  intros Hv. split.
  - unfold lease_of_row, row_of. cbn [dl_IP dl_MAC dl_Hostname dl_ExpiresAt]. by rewrite v4_parse.
  - unfold time_unix, unix. assert (0 < nanos_per_sec) by done.
    pose proof (Z.mul_div_le (l_Expires l) nanos_per_sec ltac:(done)).
    pose proof (Z.mod_pos_bound (l_Expires l) nanos_per_sec ltac:(done)).
    pose proof (Z.div_mod (l_Expires l) nanos_per_sec ltac:(done)). lia.
Qed.

(** C24: an acknowledged lease survives a restart.  After an ACK whose row was
    written, a new process that reads the table before the lease runs out holds
    the same address for the same client under the same name; only the expiry is
    cut to a whole second, never by a full one. *)
Theorem acked_lease_survives_restart {S E : Type} {LS : LeaseStore S E} {LSL : LeaseStoreLaws S E} (o : Options) (now now' : Z)
    (inUse : Addr -> bool) (m : Packet) (w : World S) (ip : Addr) :
  range_ok (o_Cfg o) -> world_ok o w -> p_type m = MsgRequest ->
  let mac := normalizeMAC (mac_string (p_chaddr m)) in
  let w1 := handle o now inUse m w in
  w_sent w1 = w_sent w ++ [(m, reply_mods o ReplyAck ip)] ->
  (forall r, (ls_PutDHCPLease r (w_store w)).2 = Ok tt) ->
  unix now' < unix (now + cf_LeaseTime (o_Cfg o)) ->
  let start := set_ignored ∅ (set_alloc (NewAllocator (o_Cfg o)) w1) in
  (restore now' start).2 = Ok tt ->
  exists l l', byMAC (w_alloc w1) !! mac = Some l /\ byMAC (w_alloc (restore now' start).1) !! mac = Some l' /\
    l_IP l = ip /\ l_IP l' = ip /\ l_Hostname l' = l_Hostname l /\
    l_Expires l - nanos_per_sec < l_Expires l' <= l_Expires l.
Proof.
  intros Hc [Ha Ht] Hty. cbv zeta. set (mac := normalizeMAC _). intros Hs Hput Hu Hr.
  assert (Hnil : forall (x : Packet * list Modifier) l, l <> l ++ [x]).
  { intros x l Hl. apply (f_equal length) in Hl. rewrite length_app in Hl. cbn in Hl. lia. }
  revert Hs Hr. unfold handle. fold mac. destruct (bool_decide (mac = "")); [by intros Hs%Hnil|].
  destruct (isIgnored _ _); [by intros Hs%Hnil|]. rewrite Hty. unfold ack.
  assert (Hnak : forall (x : World S), w_sent x = w_sent w -> w_sent (nak o m x) = w_sent w ++ [(m, reply_mods o ReplyAck ip)] -> False).
  { intros x Hx. cbn. rewrite Hx. intros [= Hs]%app_inv_head. }
  destruct (Addr.IsValid (askedFor m) && negb (Pfx.Contains _ _)); [by intros Hs%Hnak|].
  destruct (srv_allocate_good _ o now inUse mac m true _ Hc Ha) as [H1 H2].
  unfold srv_allocate in *. destruct (Allocate _ _ _ _ _ _) as [a [l|]] eqn:Ea; [|by intros Hs%Hnak].
  destruct (Allocate_committed _ _ _ _ _ _ _ _ Ea) as (L1 & L2 & L3).
  destruct (Addr.IsValid (askedFor m) && negb (bool_decide (l_IP l = askedFor m))); [by intros Hs%Hnak|].
  intros Hs Hr. destruct (H2 l eq_refl) as [[Hv Hn] _].
  assert (Hip : l_IP l = ip).
  { cbn in Hs. apply app_inv_head in Hs. injection Hs as Hs. destruct Hv as (u & E1 & _). rewrite E1 in Hs |- *.
    cbn in Hs. destruct ip; cbn in Hs; [|congruence..].
    repeat (destruct (Addr.IsValid _) in Hs; cbn in Hs; try discriminate).
    all: destruct (toIPs _) in Hs; cbn in Hs; try discriminate; destruct (bool_decide _) in Hs; discriminate. }
  destruct (row_round_trip now l Hv) as [R1 R2].
  eexists l, _. split; [exact L1|]. split; [|split; [exact Hip|]].
  - apply restore_spec; [|exact Hr|].
    + cbn. apply put_table; [done|]. by apply row_of_good.
    + exists (row_of now l). split; [|split; [|split; [exact L2|exact R1]]].
      * cbn. apply (law_put _ _ (Hput _)). by left.
      * cbn [row_of dl_ExpiresAt]. rewrite L3. exact Hu.
  - cbn [l_IP l_Hostname l_Expires]. done.
Qed.

(** ** The server's own probe *)
Lemma handle_sent {S E : Type} {LS : LeaseStore S E} (o : Options) now inUse m (w : World S) :
  w_ignored (handle o now inUse m w) = w_ignored w /\
  exists l, w_sent (handle o now inUse m w) = w_sent w ++ l /\ forall x, x ∈ l -> x.1 = m /\ p_xid m ∉ w_ignored w.
Proof.
  assert (H0 : exists l : list (Packet * list Modifier), w_sent w = w_sent w ++ l /\ forall x, x ∈ l -> x.1 = m /\ p_xid m ∉ w_ignored w).
  { exists []. split; [by rewrite app_nil_r|]. by intros x ?%not_elem_of_nil. }
  unfold handle, isIgnored. destruct (bool_decide _); [done|]. case_bool_decide as Hx; [done|].
  assert (H1 : forall mods, exists l, w_sent w ++ [(m, mods)] = w_sent w ++ l /\ forall x, x ∈ l -> x.1 = m /\ p_xid m ∉ w_ignored w).
  { intros mods. exists [(m, mods)]. split; [done|]. by intros x ->%list_elem_of_singleton. }
  destruct (p_type m).
  - unfold offer. destruct (srv_allocate _ _ _ _ _ _ _) as [a [l|]]; cbn; auto.
  - unfold ack. destruct (_ && _); [cbn; auto|]. destruct (srv_allocate _ _ _ _ _ _ _) as [a [l|]]; [destruct (_ && _)|]; cbn; auto.
  - unfold release. destruct (AddrFromSlice _); [|done]. destruct (AddrFromSlice _); [|done]. destruct (_ || _); [done|].
    destruct (Release _ _ _) as [al []]; done.
  - unfold decline. destruct (AddrFromSlice _); [|done]. destruct (Decline _ _ _ _) as [al []]; done.
  - cbn; auto.
  - done.
Qed.

(** while a probe's transaction is registered, the server never answers it,
    whatever else arrives in between, so every OFFER the probe collects comes from
    another server; everything sent before stays sent. *)
Theorem own_probe_unanswered {S E : Type} {LS : LeaseStore S E} (o : Options) (xid : Z) (h : list event) (w : World S) :
  (forall e, e ∈ h -> e <> EvUnignore xid /\ forall t, e <> EvRestart t) ->
  let w' := foldl (estep o) (ignoreXID xid w) h in
  exists l, w_sent w' = w_sent w ++ l /\ forall x, x ∈ l -> p_xid x.1 <> xid.
Proof.
  intros Hh. cbv zeta.
  apply (foldl_inv (fun w' => xid ∈ w_ignored w' /\ exists l, w_sent w' = w_sent w ++ l /\ forall x, x ∈ l -> p_xid x.1 <> xid)).
  - intros w1 e [Hi (l & Hl & Hx)] He. destruct (Hh e He) as [He1 He2]. destruct e as [now inUse m|svcs|x|x|t]; cbn [estep].
    + destruct (handle_sent o now inUse m w1) as [-> (l' & -> & Hl')]. split; [done|]. exists (l ++ l'). rewrite Hl, (assoc_L (++)).
      split; [done|]. intros x [?|Hin]%elem_of_app; [by apply Hx|]. destruct (Hl' x Hin) as [-> Hn]. congruence.
    + split; [done|]. by exists l.
    + split; [cbn; set_solver|]. by exists l.
    + split; [cbn; assert (x <> xid) by congruence; set_solver|]. by exists l.
    + by destruct (He2 t).
  - split; [cbn; set_solver|]. exists []. split; [by rewrite app_nil_r|]. by intros x ?%not_elem_of_nil.
Qed.

(** ** The order of the published leases *)
Lemma addr_leb_spec a b : addr_leb a b = true <->
  Addr.BitLen a < Addr.BitLen b \/ Addr.BitLen a = Addr.BitLen b /\
    (Addr.value a < Addr.value b \/ Addr.value a = Addr.value b /\ str_le (addr_zone a) (addr_zone b)).
Proof.
  unfold addr_leb, str_le. destruct (Z.eqb_spec (Addr.BitLen a) (Addr.BitLen b)); cbn [negb]; [|rewrite Z.ltb_lt; lia].
  destruct (Z.eqb_spec (Addr.value a) (Addr.value b)); cbn [negb]; [|rewrite Z.ltb_lt; lia].
  split; [by right; split; [|right]|]. intros [?|[_ [?|[_ ?]]]]; [lia|lia|done].
Qed.
#[export] Instance lease_le_trans : Transitive lease_le.
Proof.
  intros a b c. unfold lease_le. rewrite !addr_leb_spec. intros [H1|[H1 [H2|[H2 H3]]]] [H4|[H4 [H5|[H5 H6]]]]; try lia.
  right. split; [lia|]. right. split; [lia|]. by etrans.
Qed.
#[export] Instance lease_le_total : Total lease_le.
Proof.
  intros a b. unfold lease_le. rewrite !addr_leb_spec.
  destruct (Z.lt_total (Addr.BitLen (l_IP a)) (Addr.BitLen (l_IP b))) as [?|[?|?]]; [by left; left| |by right; left].
  destruct (Z.lt_total (Addr.value (l_IP a)) (Addr.value (l_IP b))) as [?|[?|?]];
    [left; right; split; [done|by left]| |right; right; split; [done|by left]].
  destruct (str_le_total (addr_zone (l_IP a)) (addr_zone (l_IP b))).
  - left. right. split; [done|]. right. by split.
  - right. right. split; [done|]. right. by split.
Qed.

(** the list discovery compares does not depend on the order in which the
    allocator's map is walked: any order of the live leases publishes the same
    list, so an unchanged lease set never looks like a change. *)
Theorem publication_ignores_map_order (now : Z) (a : Allocator) (ls : list Lease) :
  alloc_ok a -> (forall m l, byMAC a !! m = Some l -> v4 (l_IP l)) ->
  ls ≡ₚ DhcpAlloc.Leases now a -> publish ls = ServerLeases now a.
Proof.
  intros Ha Hv Hp. unfold ServerLeases, publish. f_equal.
  apply (StronglySorted_unique_strong lease_le).
  - intros x1 x2 H1 H2 L1 L2. rewrite merge_sort_Permutation, Hp in H1. rewrite merge_sort_Permutation in H2.
    apply (elem_of_Leases _ _ _ Ha) in H1 as [H1 _], H2 as [H2 _].
    unfold lease_le in L1, L2. rewrite addr_leb_spec in L1, L2.
    destruct (Hv _ _ H1) as (u & E1 & _), (Hv _ _ H2) as (v & E2 & _). rewrite E1, E2 in L1, L2. cbn in L1, L2.
    assert (u = v) as -> by lia. rewrite <- E2 in E1.
    pose proof (alloc_ok_inj _ _ _ _ _ Ha H1 H2 E1). congruence.
  - apply (StronglySorted_merge_sort lease_le).
  - apply (StronglySorted_merge_sort lease_le).
  - by rewrite !merge_sort_Permutation.
Qed.

(** ** Concrete worlds *)
Definition opts1 : Options := mkOptions (Addr4 3232235777) pool [Addr4 3232235777] "home".
Definition req (xid : Z) (mac : list Z) (asked : list Z) : Packet := mkPacket MsgRequest xid mac [] asked [] "box".
Definition disc (xid : Z) (mac : list Z) : Packet := mkPacket MsgDiscover xid mac [] [] [] "box".
Definition mac1 : list Z := [170; 0; 0; 0; 0; 1].
Definition mac2 : list Z := [170; 0; 0; 0; 0; 2].
Definition nobody : Addr -> bool := fun _ => false.
(** Client 2 holds a lease; client 1 has a reservation for that address. *)
Definition contested : World DB :=
  let w := handle opts1 0 nobody (req 1 mac2 [192; 168; 1; 2]) (boot opts1 db0) in
  set_alloc (SetReservations {[ "aa:00:00:00:00:01" := Addr4 3232235778 ]} (w_alloc w)) w.
Lemma contested_rows : n_leases (node (w_store contested)) = [mkDHCPLease "aa:00:00:00:00:02" "192.168.1.2" "box" 3600 0].
Proof. vm_compute. reflexivity. Qed.

(** a REQUEST that is refused has already taken effect: client 1 asks for
    another address of the subnet, is answered NAK, and yet client 2's live lease
    is gone from the allocator and client 1 holds its address, while the lease
    table still says the opposite and discovery is not told. *)
Theorem refused_request_still_commits :
  let w' := handle opts1 1 nobody (req 2 mac1 [192; 168; 1; 3]) contested in
  last (w_sent w') = Some (req 2 mac1 [192; 168; 1; 3], nak_mods opts1) /\
  l_IP <$> byMAC (w_alloc contested) !! "aa:00:00:00:00:02" = Some (Addr4 3232235778) /\
  byMAC (w_alloc w') !! "aa:00:00:00:00:02" = None /\
  l_IP <$> byMAC (w_alloc w') !! "aa:00:00:00:00:01" = Some (Addr4 3232235778) /\
  w_store w' = w_store contested /\ w_changes w' = w_changes contested.
Proof. vm_compute. repeat split. Qed.

Lemma request_answered_witness :
  w_ignored (handle opts1 0 nobody (req 1 mac1 []) (boot opts1 db0)) = ∅.
Proof.
  refine (proj1 (request_answered opts1 0 nobody (req 1 mac1 []) (boot opts1 db0) eq_refl _ _)).
  - vm_compute. congruence.
  - cbn. set_solver.
Defined.
Lemma table_ok_nil : table_ok [].
Proof. split; [split; constructor|]. by intros r ?%not_elem_of_nil. Qed.
Lemma range_ok_pool : range_ok (o_Cfg opts1).
Proof. repeat split; vm_compute; congruence. Qed.
Lemma published_leases_consistent_witness :
  NoDup (sl_MAC <$> ServerLeases 5 (w_alloc (erun opts1 db0
    [EvPacket 0 nobody (disc 1 mac1); EvPacket 1 nobody (req 1 mac1 []); EvRestart 2; EvPacket 3 nobody (req 2 mac2 [])]))).
Proof.
  refine (proj1 (published_leases_consistent opts1 db0 _ 5 range_ok_pool eq_refl _)). apply table_ok_nil.
Defined.
Lemma boot_ok : world_ok opts1 (boot opts1 db0).
Proof. split; [apply new_good|apply table_ok_nil]. Qed.
Lemma acked_lease_survives_restart_witness :
  let w1 := handle opts1 0 nobody (req 1 mac1 [192; 168; 1; 3]) (boot opts1 db0) in
  let start := set_ignored ∅ (set_alloc (NewAllocator pool) w1) in
  exists l l', byMAC (w_alloc w1) !! "aa:00:00:00:00:01" = Some l /\
    byMAC (w_alloc (restore (seconds 5) start).1) !! "aa:00:00:00:00:01" = Some l' /\
    l_IP l = Addr4 3232235779 /\ l_IP l' = Addr4 3232235779 /\ l_Hostname l' = l_Hostname l /\
    l_Expires l - nanos_per_sec < l_Expires l' <= l_Expires l.
Proof.
  refine (acked_lease_survives_restart opts1 0 (seconds 5) nobody (req 1 mac1 [192; 168; 1; 3]) (boot opts1 db0) (Addr4 3232235779)
    range_ok_pool boot_ok eq_refl _ _ _ _).
  - vm_compute. reflexivity.
  - done.
  - vm_compute. reflexivity.
  - vm_compute. reflexivity.
Defined.
Lemma own_probe_unanswered_witness :
  exists l, w_sent (foldl (estep opts1) (ignoreXID 7 (boot opts1 db0)) [EvPacket 0 nobody (disc 7 mac1); EvPacket 0 nobody (disc 8 mac2)])
    = [] ++ l /\ forall x, x ∈ l -> p_xid x.1 <> 7.
Proof.
  apply (own_probe_unanswered opts1 7 _ (boot opts1 db0)).
  intros e [->|[->|?%not_elem_of_nil]%elem_of_cons]%elem_of_cons; done.
Defined.
Lemma publication_ignores_map_order_witness :
  publish (reverse (DhcpAlloc.Leases 5 two_leases)) = ServerLeases 5 two_leases.
Proof.
  apply (publication_ignores_map_order 5 two_leases).
  - apply two_leases_ok.
  - intros m l Hl.
    assert (Hg : map_Forall (fun _ l => l_IP l = Addr4 3232235778 \/ l_IP l = Addr4 3232235779) (byMAC two_leases)).
    { apply (bool_decide_unpack _). vm_compute. exact I. }
    destruct (Hg m l Hl) as [->| ->]; eexists; (split; [done|lia]).
  - apply reverse_Permutation.
Defined.
