(* ===== verification/RegistryValidate.v ===== *)
(** * What the registry accepts: [internal/registry/validate.go]

    Names, addresses, MACs and record types, and the validation of whole services,
    records and views (the [validate*] methods of [registry.go]).  An error is the
    field and the machine-readable code.  [svc.Aliases[i] = ...] and
    [v.Subnets[i] = ...] write into the caller's slice; callers pass fresh ones, so
    a new list is returned here. *)
From S2P Require Import Prelude GoStr NetIP Model Store StoreNodeProps DhcpReserve.

Record ValidationError := mkInvalid { ve_Field : string; ve_Code : string }.
Definition invalid {A} (field code : string) : result ValidationError A := Err (mkInvalid field code).

Definition Normalize (name : string) : string :=
  let n := ToLower (TrimSpace name) in
  if bool_decide (n = "") then ""
  else if negb (HasSuffix n ".") then n +:+ "." else n.
Definition ValidateLabel (s : string) : result ValidationError unit :=
  if bool_decide (s = "") || (63 <? len s) then invalid "name" "label_length"
  else if bool_decide (head (bytes s) = Some "-"%char) || bool_decide (last (bytes s) = Some "-"%char) then invalid "name" "label_hyphen"
  else if forallb label_char (bytes s) then Ok tt else invalid "name" "label_charset".
Definition all_ok {A} (f : A -> result ValidationError unit) (l : list A) : result ValidationError unit :=
  foldR (fun _ a => f a) tt l.
Definition ValidateName (name privateFQDN : string) : result ValidationError unit :=
  let n := Normalize name in
  if bool_decide (n = "") then invalid "name" "name_empty"
  else if 255 <? len n then invalid "name" "name_length"
  else if Contains n "*" then invalid "name" "wildcard_unsupported"
  else
    let zone := Normalize privateFQDN in
    if bool_decide (n = zone) then invalid "name" "name_is_apex"
    else if negb (HasSuffix n ("." +:+ zone)) then invalid "name" "name_out_of_zone"
    else all_ok ValidateLabel (Split (TrimSuffix n ".") ".").
Definition ValidateAddress (s : string) : result ValidationError unit :=
  match ParseAddr s with Some _ => Ok tt | None => invalid "address" "address_invalid" end.
Definition NormalizeMAC (s : string) : string :=
  let s := TrimSpace s in
  match ParseMAC s with
  | Some hw => mac_string hw
  | None => ToLower s
  end.
Definition ValidateMAC (s : string) : result ValidationError unit :=
  let s := TrimSpace s in
  if bool_decide (s = "") then Ok tt
  else match ParseMAC s with
       | None => invalid "mac" "malformed"
       | Some hw => if (length hw =? 6)%nat then Ok tt else invalid "mac" "malformed"
       end.
Definition recordTypes : list string := ["A"; "AAAA"; "CNAME"; "PTR"].
Definition ValidateRecordType (s : string) : result ValidationError unit :=
  if bool_decide (s ∈ recordTypes) then Ok tt else invalid "type" "type_unsupported".

(** ** Whole values; [known] is the set of view names *)
Definition check_addresses (known : gset string) (l : list Address) : result ValidationError unit :=
  all_ok (fun x : nat * Address =>
    _ <-? ValidateAddress (a_Address x.2) ;;
    if negb (bool_decide (a_View x.2 = "")) && negb (bool_decide (a_View x.2 ∈ known))
    then invalid ("addresses[" +:+ itoa (Z.of_nat x.1) +:+ "].view") "view_unknown" else Ok tt) (imap pair l).
Definition validate_alias (zone al : string) : result ValidationError string :=
  let al := ToLower (TrimSpace al) in
  _ <-? ValidateName (al +:+ "." +:+ zone) zone ;; Ok al.
Definition validateService (svc : Service) (known : gset string) (zone : string) : result ValidationError Service :=
  let name := ToLower (TrimSpace (s_Name svc)) in
  _ <-? ValidateName (name +:+ "." +:+ zone) zone ;;
  if bool_decide (s_Addresses svc = []) then invalid "addresses" "addresses_required"
  else
    _ <-? check_addresses known (s_Addresses svc) ;;
    let proxy := TrimSpace (s_ProxyAddress svc) in
    if negb (bool_decide (proxy = "")) && negb (is_ok (ValidateAddress proxy)) then invalid "proxy_address" "proxy_address_invalid"
    else if s_RouteViaProxy svc && bool_decide (proxy = "") then invalid "proxy_address" "proxy_address_required"
    else
      aliases <-? mapR (validate_alias zone) (s_Aliases svc) ;;
      _ <-? ValidateMAC (s_MAC svc) ;;
      Ok (mkService (s_ID svc) name (s_Addresses svc) aliases (s_CheckURL svc) (s_CheckInsecure svc)
            proxy (s_RouteViaProxy svc) (NormalizeMAC (s_MAC svc))).
Definition set_rec (r : DnsRecord) (name type value : string) : DnsRecord := mkRecord (r_ID r) name type value (r_View r).
Definition validateRecord (r : DnsRecord) (known : gset string) (zone : string) : result ValidationError DnsRecord :=
  let name := Normalize (r_Name r) in
  let type := ToUpper (TrimSpace (r_Type r)) in
  _ <-? ValidateRecordType type ;;
  r' <-? (if bool_decide (type = "A") || bool_decide (type = "AAAA") then
            _ <-? ValidateName name zone ;;
            _ <-? ValidateAddress (r_Value r) ;;
            Ok (set_rec r name type (r_Value r))
          else if bool_decide (type = "CNAME") then
            _ <-? ValidateName name zone ;;
            Ok (set_rec r name type (Normalize (r_Value r)))
          else
            if negb (HasSuffix name ".in-addr.arpa.") && negb (HasSuffix name ".ip6.arpa.")
            then invalid "name" "ptr_not_arpa" else Ok (set_rec r name type (Normalize (r_Value r)))) ;;
  if negb (bool_decide (r_View r = "")) && negb (bool_decide (r_View r ∈ known)) then invalid "view" "view_unknown" else Ok r'.
Definition validateView (v : View) : result ValidationError View :=
  let name := ToLower (TrimSpace (v_Name v)) in
  if negb (is_ok (ValidateLabel name)) then invalid "name" "view_name_invalid"
  else if bool_decide (v_Subnets v = []) then invalid "subnets" "subnets_required"
  else
    subnets <-? mapR (fun x : nat * string => match ParsePrefix x.2 with
                        | None => invalid ("subnets[" +:+ itoa (Z.of_nat x.1) +:+ "]") "cidr_invalid"
                        | Some p => Ok (Pfx.to_string (Pfx.Masked p))
                        end) (imap pair (v_Subnets v)) ;;
    Ok (mkView name subnets).
(** [macUnique] against the set the service has to be unique within. *)
Definition macUnique (svc : Service) (others : list Service) : result ValidationError unit :=
  if bool_decide (s_MAC svc = "") then Ok tt
  else if existsb (fun o => bool_decide (s_MAC o = s_MAC svc) && ((s_ID svc =? 0) || negb (s_ID o =? s_ID svc))) others
  then invalid "mac" "duplicate" else Ok tt.

(** ** Lemmas: normal forms *)
Lemma Normalize_rename n : ToLower (TrimSpace n) <> "" -> Normalize n = rename_norm n.
Proof. intros H. unfold Normalize, rename_norm. rewrite bool_decide_false by done. by destruct (HasSuffix _ "."). Qed.
Lemma Normalize_empty n : Normalize n = "" <-> ToLower (TrimSpace n) = "".
Proof.
  unfold Normalize. case_bool_decide as H; [done|]. split; [|done]. destruct (HasSuffix _ "."); cbn [negb]; [done|].
  intros E. apply (f_equal len) in E. rewrite len_app in E. pose proof (len_nonneg (ToLower (TrimSpace n))). change (len ".") with 1 in E. change (len "") with 0 in E. lia.
Qed.
Lemma rename_norm_dot n : HasSuffix (rename_norm n) "." = true.
Proof. unfold rename_norm. destruct (HasSuffix (ToLower (TrimSpace n)) ".") eqn:E; [exact E|apply HasSuffix_app]. Qed.
Lemma Normalize_idemp n : Normalize (Normalize n) = Normalize n.
Proof.
  destruct (decide (ToLower (TrimSpace n) = "")) as [E|E].
  - rewrite (proj2 (Normalize_empty n) E). done.
  - rewrite (Normalize_rename n E). destruct (rename_norm_ok n E) as [Hl Hh].
    destruct (rename_norm_id (rename_norm n) Hl Hh (rename_norm_dot n)) as [H1 H2]. by rewrite Normalize_rename.
Qed.
Lemma ToLower_TrimSpace_idemp n : ToLower (TrimSpace (ToLower (TrimSpace n))) = ToLower (TrimSpace n).
Proof. by rewrite TrimSpace_ToLower, TrimSpace_idemp, ToLower_idemp. Qed.
Lemma ToUpper_TrimSpace_types t : ToUpper (TrimSpace t) ∈ recordTypes -> ToUpper (TrimSpace (ToUpper (TrimSpace t))) = ToUpper (TrimSpace t).
Proof.
  unfold recordTypes. generalize (ToUpper (TrimSpace t)). intros u Hu.
  repeat (apply elem_of_cons in Hu as [->|Hu]; [reflexivity|]). by apply not_elem_of_nil in Hu.
Qed.
(** [registry.NormalizeMAC] and [dhcpd.normalizeMAC] are two copies of one function. *)
Lemma NormalizeMAC_dhcpd s : NormalizeMAC s = normalizeMAC s.
Proof. done. Qed.
Lemma ValidateLabel_ok s : ValidateLabel s = Ok tt <-> label_ok s = true.
Proof.
  rewrite label_ok_inv. unfold ValidateLabel, len.
  destruct (bool_decide_reflect (s = "")) as [->|H1]; cbn [orb]; [split; [done|by intros []]|].
  destruct (Z.ltb_spec 63 (Z.of_nat (length (bytes s)))); [split; [done|]; intros (_ & ? & _); lia|].
  destruct (bool_decide_reflect (head (bytes s) = Some "-"%char)) as [H3|H3]; cbn [orb]; [split; [done|]; tauto|].
  destruct (bool_decide_reflect (last (bytes s) = Some "-"%char)) as [H4|H4]; [split; [done|]; tauto|].
  destruct (forallb label_char (bytes s)); [|split; [done|]; naive_solver]. split; [|done]. intros _. repeat split; try done. lia.
Qed.
Lemma foldR_unit {A} (f : A -> result ValidationError unit) l :
  all_ok f l = Ok tt <-> forall a, a ∈ l -> f a = Ok tt.
Proof.
  unfold all_ok. induction l as [|a l IH]; cbn [foldR]; [split; [intros _ x ?%not_elem_of_nil; done|done]|].
  destruct (f a) as [[]|e] eqn:E; cbn [rbind].
  - rewrite IH. split; [intros H x [->|Hx]%elem_of_cons; [done|by apply H]|intros H x Hx; apply H; by right].
  - split; [done|]. intros H. rewrite (H a) in E by left. done.
Qed.
Lemma check_addresses_ok known l : check_addresses known l = Ok tt <->
  forall a, a ∈ l -> (exists b, ParseAddr (a_Address a) = Some b) /\ (a_View a = "" \/ a_View a ∈ known).
Proof.
  unfold check_addresses. rewrite foldR_unit. split.
  - intros H a [i Hi]%list_elem_of_lookup. specialize (H (i, a)). cbn in H.
    assert (Hin : (i, a) ∈ imap pair l) by (apply elem_of_lookup_imap; eauto). specialize (H Hin).
    unfold ValidateAddress in H. destruct (ParseAddr (a_Address a)); cbn in H; [|done]. split; [by eexists|].
    case_if; [done|]. destruct (bool_decide_reflect (a_View a = "")); [by left|]. cbn in Heqb. bool_to_prop. by right.
  - intros H [i a] (j & y & [= <- <-] & Hj)%elem_of_lookup_imap. cbn. destruct (H a ltac:(by eapply list_elem_of_lookup_2)) as [[b Hb] Hv].
    unfold ValidateAddress. rewrite Hb. cbn. destruct (bool_decide_reflect (a_View a = "")); [done|]. cbn.
    rewrite bool_decide_true by tauto. done.
Qed.

(** ** What validation promises *)
Definition valid_name (zone n : string) : Prop :=
  ToLower (TrimSpace n) = n /\ ValidateName (n +:+ "." +:+ zone) zone = Ok tt.
Definition valid_mac (m : string) : Prop := m = "" \/ exists hw, mac_ok hw /\ length hw = 6%nat /\ m = mac_string hw.
Definition valid_proxy (routed : bool) (p : string) : Prop :=
  TrimSpace p = p /\ (p = "" \/ exists b, ParseAddr p = Some b) /\ (routed = true -> p <> "").

Lemma mac_string_trim hw : mac_ok hw -> TrimSpace (mac_string hw) = mac_string hw.
Proof. intros H. apply TrimSpace_no_space. unfold no_space, mac_string. rewrite bytes_str. by apply mac_chars_plain. Qed.
Lemma mac_string_nonempty hw : hw <> [] -> mac_string hw <> "".
Proof. intros H E. apply bytes_empty in E. unfold mac_string in E. rewrite bytes_str in E. by destruct hw as [|b [|]]. Qed.
Lemma ValidateMAC_ok s : ValidateMAC s = Ok tt -> valid_mac (NormalizeMAC s).
Proof.
  unfold ValidateMAC, NormalizeMAC, valid_mac. case_bool_decide as H; [rewrite H; by left|].
  destruct (ParseMAC (TrimSpace s)) as [hw|] eqn:E; [|done]. destruct (length hw =? 6)%nat eqn:L; [|done]. intros _. right.
  exists hw. destruct (ParseMAC_ok _ _ E). apply Nat.eqb_eq in L. done.
Qed.
Lemma valid_mac_fixed m : valid_mac m -> ValidateMAC m = Ok tt /\ NormalizeMAC m = m.
Proof.
  intros [->|(hw & Hok & Hl & ->)]; [done|]. assert (Hlen : mac_len_ok (length hw) = true) by by rewrite Hl.
  split; [|by apply normalizeMAC_print]. unfold ValidateMAC. rewrite mac_string_trim, ParseMAC_print, Hl by done.
  by case_bool_decide.
Qed.
Lemma mapR_fixed {A E} (f : A -> result E A) l l' : mapR f l = Ok l' -> (forall a b, f a = Ok b -> f b = Ok b) -> mapR f l' = Ok l'.
Proof.
  intros H Hf. apply mapR_ok in H. apply mapR_ok. induction H as [|a b l l' Hab _ IH]; constructor; [by eapply Hf|done].
Qed.

Lemma validateService_inv svc known zone svc' : validateService svc known zone = Ok svc' ->
  s_ID svc' = s_ID svc /\ s_Addresses svc' = s_Addresses svc /\ s_Addresses svc' <> [] /\
  valid_name zone (s_Name svc') /\ check_addresses known (s_Addresses svc') = Ok tt /\
  valid_proxy (s_RouteViaProxy svc') (s_ProxyAddress svc') /\
  (forall al, al ∈ s_Aliases svc' -> valid_name zone al) /\
  mapR (validate_alias zone) (s_Aliases svc') = Ok (s_Aliases svc') /\
  valid_mac (s_MAC svc').
Proof.
  unfold validateService. rewrite rbind_ok. intros ([] & Hn & H). revert H. case_bool_decide as Ha; [done|].
  rewrite rbind_ok. intros ([] & Hc & H). revert H.
  destruct (negb (bool_decide (TrimSpace (s_ProxyAddress svc) = "")) && _) eqn:P1; [done|].
  destruct (s_RouteViaProxy svc && _) eqn:P2; [done|]. rewrite rbind_ok. intros (al & Hal & H). revert H. rewrite rbind_ok.
  intros ([] & Hm & [= <-]). cbn. split; [done|]. split; [done|]. split; [done|].
  split; [split; [apply ToLower_TrimSpace_idemp|done]|]. split; [done|].
  split; [|split; [|split; [|by apply ValidateMAC_ok]]].
  - split; [apply TrimSpace_idemp|]. split.
    + destruct (bool_decide_reflect (TrimSpace (s_ProxyAddress svc) = "")); [by left|]. right. cbn in P1.
      unfold ValidateAddress in P1. destruct (ParseAddr (TrimSpace (s_ProxyAddress svc))) as [b|]; [by exists b|done].
    + intros Hr E. rewrite Hr, E in P2. done.
  - intros x [i Hi]%list_elem_of_lookup. apply mapR_ok in Hal. apply (Forall2_lookup_r _ _ _ _ _ Hal) in Hi as (y & _ & Hy).
    apply rbind_ok in Hy as ([] & Hv & [= <-]). split; [apply ToLower_TrimSpace_idemp|done].
  - eapply mapR_fixed; [exact Hal|]. intros a b Hab. apply rbind_ok in Hab as ([] & Hv & [= <-]).
    unfold validate_alias. by rewrite ToLower_TrimSpace_idemp, Hv.
Qed.
Lemma validateService_fixed svc known zone svc' : validateService svc known zone = Ok svc' -> validateService svc' known zone = Ok svc'.
Proof.
  intros H. destruct (validateService_inv _ _ _ _ H) as (H1 & H2 & H3 & [N1 N2] & H5 & (P1 & P2 & P3) & _ & A & M).
  unfold validateService. rewrite N1, N2. cbn [rbind]. rewrite bool_decide_false, H5 by done. cbn [rbind]. rewrite P1.
  assert (E1 : negb (bool_decide (s_ProxyAddress svc' = "")) && negb (is_ok (ValidateAddress (s_ProxyAddress svc'))) = false).
  { destruct P2 as [->|[b Hb]]; [done|]. unfold ValidateAddress. rewrite Hb. by rewrite andb_false_r. }
  assert (E2 : s_RouteViaProxy svc' && bool_decide (s_ProxyAddress svc' = "") = false).
  { destruct (s_RouteViaProxy svc'); [|done]. rewrite bool_decide_false by auto. done. }
  rewrite E1, E2, A. cbn [rbind]. destruct (valid_mac_fixed _ M) as [-> ->]. cbn [rbind]. by destruct svc'.
Qed.

(** What a stored record looks like. *)
Definition valid_record (zone : string) (r : DnsRecord) : Prop :=
  Normalize (r_Name r) = r_Name r /\
  ((r_Type r = "A" \/ r_Type r = "AAAA") /\ ValidateName (r_Name r) zone = Ok tt /\ (exists b, ParseAddr (r_Value r) = Some b) \/
   r_Type r = "CNAME" /\ ValidateName (r_Name r) zone = Ok tt /\ Normalize (r_Value r) = r_Value r \/
   r_Type r = "PTR" /\ (HasSuffix (r_Name r) ".in-addr.arpa." = true \/ HasSuffix (r_Name r) ".ip6.arpa." = true) /\
     Normalize (r_Value r) = r_Value r).
Lemma validateRecord_inv r known zone r' : validateRecord r known zone = Ok r' ->
  r_ID r' = r_ID r /\ r_View r' = r_View r /\ (r_View r = "" \/ r_View r ∈ known) /\ valid_record zone r'.
Proof.
  unfold validateRecord, ValidateRecordType. case_bool_decide as Ht; cbn [rbind]; [|done].
  rewrite rbind_ok. intros (r1 & H1 & H).
  assert (Hview : (r_View r = "" \/ r_View r ∈ known) /\ r1 = r').
  { revert H. destruct (bool_decide_reflect (r_View r = "")); cbn; [intros [= ->]; auto|].
    destruct (bool_decide_reflect (r_View r ∈ known)); cbn; [intros [= ->]; auto|done]. }
  destruct Hview as [Hv <-]. clear H.
  assert (Hp : forall v, r_ID (set_rec r (Normalize (r_Name r)) (ToUpper (TrimSpace (r_Type r))) v) = r_ID r) by done.
  revert H1. destruct (bool_decide (ToUpper (TrimSpace (r_Type r)) = "A") || bool_decide (ToUpper (TrimSpace (r_Type r)) = "AAAA")) eqn:EA.
  - rewrite rbind_ok. intros ([] & Hn & H). apply rbind_ok in H as ([] & Ha & [= <-]).
    split; [done|]. split; [done|]. split; [done|]. split; [apply Normalize_idemp|]. left. cbn.
    apply orb_true_iff in EA. rewrite !bool_decide_eq_true in EA. split; [done|]. split; [done|].
    unfold ValidateAddress in Ha. destruct (ParseAddr (r_Value r)) as [b|]; [by exists b|done].
  - destruct (bool_decide_reflect (ToUpper (TrimSpace (r_Type r)) = "CNAME")) as [EC|EC].
    + rewrite rbind_ok. intros ([] & Hn & [= <-]). split; [done|]. split; [done|]. split; [done|].
      split; [apply Normalize_idemp|]. right. left. cbn. split; [done|]. split; [done|]. apply Normalize_idemp.
    + destruct (negb _ && negb _) eqn:ES; [done|]. intros [= <-]. split; [done|]. split; [done|]. split; [done|].
      split; [apply Normalize_idemp|]. right. right. cbn. apply orb_false_iff in EA as [EA1 EA2]. bool_to_prop.
      split; [|split; [|apply Normalize_idemp]].
      * unfold recordTypes in Ht. rewrite !elem_of_cons, elem_of_nil in Ht. tauto.
      * apply andb_false_iff in ES. rewrite !negb_false_iff in ES. done.
Qed.
Lemma validateRecord_fixed r known zone r' : validateRecord r known zone = Ok r' -> validateRecord r' known zone = Ok r'.
Proof.
  intros H. apply validateRecord_inv in H as (H1 & H2 & Hv & N & Hk). rewrite <- H2 in Hv. unfold validateRecord.
  assert (Ht : ToUpper (TrimSpace (r_Type r')) = r_Type r' /\ r_Type r' ∈ recordTypes).
  { destruct Hk as [([->| ->] & _)|[(-> & _)|(-> & _)]]; (split; [reflexivity|]); apply (bool_decide_unpack _); reflexivity. }
  destruct Ht as [-> Ht]. unfold ValidateRecordType. rewrite (bool_decide_true _ Ht), N. cbn [rbind].
  assert (Hview : negb (bool_decide (r_View r' = "")) && negb (bool_decide (r_View r' ∈ known)) = false).
  { destruct Hv as [->|Hv]; [done|]. rewrite (bool_decide_true _ Hv). apply andb_false_r. }
  rewrite Hview. destruct Hk as [(Ty & Hn & b & Hb)|[(Ty & Hn & Hval)|(Ty & Hs & Hval)]].
  - assert (E : bool_decide (r_Type r' = "A") || bool_decide (r_Type r' = "AAAA") = true).
    { apply orb_true_iff. by rewrite !bool_decide_eq_true. }
    rewrite E, Hn. unfold ValidateAddress. rewrite Hb. cbn [rbind]. by destruct r'.
  - rewrite Ty. cbn [bool_decide decide orb]. rewrite !bool_decide_false, bool_decide_true, Hn, Hval by done. cbn. rewrite <- Ty. by destruct r'.
  - rewrite Ty. rewrite !bool_decide_false, Hval by done. cbn [orb].
    assert (E : negb (HasSuffix (r_Name r') ".in-addr.arpa.") && negb (HasSuffix (r_Name r') ".ip6.arpa.") = false).
    { destruct Hs as [->| ->]; [done|]. apply andb_false_r. }
    rewrite E. cbn. rewrite <- Ty. by destruct r'.
Qed.

(** validation is a normal form: what it accepts it returns unchanged the next
    time, so a service or record read back from the store and written again
    without edits is accepted and stays byte for byte the same. *)
Theorem revalidation_stable (known : gset string) (zone : string) (svc svc' : Service) (r r' : DnsRecord) :
  (validateService svc known zone = Ok svc' -> validateService svc' known zone = Ok svc') /\
  (validateRecord r known zone = Ok r' -> validateRecord r' known zone = Ok r').
Proof. split; [apply validateService_fixed|apply validateRecord_fixed]. Qed.
Lemma revalidation_stable_witness :
  let svc := mkService 0 "tv" [mkAddress 0 "10.0.0.2" ""] ["films"] "" false "10.0.0.9" true "aa:bb:cc:00:00:01" in
  validateService svc ∅ "home.arpa." = Ok svc.
Proof.
  cbv zeta. apply (revalidation_stable ∅ "home.arpa."
    (mkService 0 " TV" [mkAddress 0 "10.0.0.2" ""] ["Films "] "" false " 10.0.0.9" true "AA-BB-CC-00-00-01") _
    (mkRecord 0 "" "" "" "") (mkRecord 0 "" "" "" "")).
  vm_compute. reflexivity.
Defined.
