(* ===== verification/Registry.v ===== *)
(** * The registry service: [internal/registry/registry.go]

    Validate, write, then run the change callback.  [L] is what the callback keeps
    up to date (the live snapshot) and [onChange] is the callback [New] is given.
    Reads of the store do not fail in this model of it.  SHA-256 is a parameter;
    the random bytes of a token are an argument. *)
From S2P Require Import Prelude GoStr NetIP Model Store StoreNode StoreVersion StoreWf StoreNodeProps StoreProps DhcpReserve RegistryValidate.

Inductive reg_error (E : Type) :=
  | RegInvalid (v : ValidationError) | RegStore (e : store_error) | RegChange (e : E).
Arguments RegInvalid {E} v. Arguments RegStore {E} e. Arguments RegChange {E} e.
Record RegWorld (L : Type) := mkRegWorld { rg_db : DB; rg_zone : string; rg_live : L }.
Arguments mkRegWorld {L}. Arguments rg_db {L}. Arguments rg_zone {L}. Arguments rg_live {L}.

Definition knownViews (db : DB) : gset string := list_to_set (v_Name <$> Views db).
(** The body of [PutService] up to the write: the service to store, or the refusal
    of the validation or of the store. *)
Definition checkService (svc : Service) (zone : string) (db : DB) : result (ValidationError + store_error) Service :=
  match validateService svc (knownViews db) zone with
  | Err e => Err (inl e)
  | Ok svc =>
      if bool_decide (s_MAC svc = "") then Ok svc
      else match Services db with
           | Err e => Err (inr e)
           | Ok stored => match macUnique svc stored with Err e => Err (inl e) | Ok _ => Ok svc end
           end
  end.
(** The document of [ReplaceAll]: one loop per kind. *)
Fixpoint check_services (known : gset string) (zone : string) (ss : list Service) (l : list Service) : result ValidationError (list Service) :=
  match l with
  | [] => Ok ss
  | svc :: l =>
      svc <-? validateService svc known zone ;;
      _ <-? macUnique svc ss ;;
      check_services known zone (ss ++ [svc]) l
  end.
Definition checkDocument (zone : string) (views : list View) (services : list Service) (records : list DnsRecord)
    : result ValidationError (list View * list Service * list DnsRecord) :=
  vs <-? mapR validateView views ;;
  let known : gset string := list_to_set (v_Name <$> vs) in
  ss <-? check_services known zone [] services ;;
  rs <-? mapR (fun r => validateRecord r known zone) records ;;
  Ok (vs, ss, rs).

Section registry.
Context {L E : Type} (onChange : DB -> L -> L * option E).

Definition RegSetZone (zoneFQDN : string) (w : RegWorld L) : RegWorld L := mkRegWorld (rg_db w) (Normalize zoneFQDN) (rg_live w).
(** A committed write, then the callback. *)
Definition write {A} (f : DB -> DB * result store_error A) (w : RegWorld L) : RegWorld L * result (reg_error E) A :=
match f (rg_db w) with
| (db, Err e) => (mkRegWorld db (rg_zone w) (rg_live w), Err (RegStore e))
| (db, Ok a) =>
let '(l, err) := onChange db (rg_live w) in
(mkRegWorld db (rg_zone w) l, match err with None => Ok a | Some e => Err (RegChange e) end)
end.
Definition validated {A B} (r : result ValidationError A) (k : A -> RegWorld L -> RegWorld L * result (reg_error E) B)
(w : RegWorld L) : RegWorld L * result (reg_error E) B :=
match r with Ok a => k a w | Err e => (w, Err (RegInvalid e)) end.

Definition RegPutService (svc : Service) (w : RegWorld L) : RegWorld L * result (reg_error E) Z :=
match checkService svc (rg_zone w) (rg_db w) with
| Err (inl e) => (w, Err (RegInvalid e))
| Err (inr e) => (w, Err (RegStore e))
| Ok svc => write (PutService svc) w
end.
Definition RegDeleteService (id : Z) : RegWorld L -> RegWorld L * result (reg_error E) unit := write (DeleteService id).
Definition RegPutRecord (r : DnsRecord) (w : RegWorld L) : RegWorld L * result (reg_error E) Z :=
validated (validateRecord r (knownViews (rg_db w)) (rg_zone w)) (fun r => write (PutRecord r)) w.
Definition RegDeleteRecord (id : Z) : RegWorld L -> RegWorld L * result (reg_error E) unit := write (DeleteRecord id).
Definition RegPutView (v : View) : RegWorld L -> RegWorld L * result (reg_error E) unit :=
validated (validateView v) (fun v => write (PutView v)).
Definition RegDeleteView (name : string) : RegWorld L -> RegWorld L * result (reg_error E) unit := write (DeleteView name).
Definition RegReplaceAll (views : list View) (services : list Service) (records : list DnsRecord) (w : RegWorld L)
: RegWorld L * result (reg_error E) unit :=
validated (checkDocument (rg_zone w) views services records) (fun d => write (ReplaceAll d.1.1 d.1.2 d.2)) w.
End registry.

(** ** Tokens *)
Section tokens.
Context (sha256 : list ascii -> list Z).
Definition tokenPrefix : string := "kydns_".
Definition HashToken (plaintext : string) : string := EncodeToString (sha256 (bytes plaintext)).
Definition GenerateToken (buf : list Z) : string * string :=
let plaintext := tokenPrefix +:+ EncodeToString buf in (plaintext, HashToken plaintext).
Definition CreateToken (now : Z) (buf : list Z) (label : string) (db : DB) : DB * result store_error string :=
let '(plaintext, hash) := GenerateToken buf in
match PutToken now (mkToken 0 label hash 0 0) db with
| (db, Ok _) => (db, Ok plaintext)
| (db, Err e) => (db, Err e)
end.
Definition AuthenticateToken (now : Z) (plaintext : string) (db : DB) : DB * bool :=
if negb (HasPrefix plaintext tokenPrefix) then (db, false)
else
let want := HashToken plaintext in
foldl (fun acc t => if bool_decide (t_Hash t = want) then ((TouchToken now (t_ID t) acc.1).1, true) else acc)
(db, false) (Tokens db).
End tokens.

(** ** Two requests at once: the check and the write are separate steps *)
Record RaceWorld := mkRace { ra_db : DB; ra_pending : gmap nat Service }.
Inductive race_step (zone : string) : RaceWorld -> RaceWorld -> Prop :=
  | race_check w t svc svc' :
      ra_pending w !! t = None -> checkService svc zone (ra_db w) = Ok svc' ->
      race_step zone w (mkRace (ra_db w) (<[t := svc']> (ra_pending w)))
  | race_write w t svc :
      ra_pending w !! t = Some svc ->
      race_step zone w (mkRace (PutService svc (ra_db w)).1 (delete t (ra_pending w))).

(** ** The data every write leaves valid *)
Definition valid_row (zone : string) (r : SvcRow) : Prop :=
  valid_name zone (sv_Name r) /\ valid_mac (sv_MAC r) /\ valid_proxy (sv_RouteViaProxy r) (sv_ProxyAddress r).
Definition valid_subnet (cidr : string) : Prop := exists p, prefix_wf p /\ cidr = Pfx.to_string (Pfx.Masked p).
Record registry_valid (zone : string) (c : Conf) : Prop := {
  rv_services : forall r, r ∈ c_services c -> valid_row zone r;
  rv_macs : forall r1 r2, r1 ∈ c_services c -> r2 ∈ c_services c -> sv_MAC r1 = sv_MAC r2 -> sv_MAC r1 <> "" -> sv_ID r1 = sv_ID r2;
  rv_addresses : forall a, a ∈ c_addresses c -> exists b, ParseAddr (ad_Address a) = Some b;
  rv_aliases : forall a, a ∈ c_aliases c -> valid_name zone (al_Name a);
  rv_records : forall r, r ∈ c_records c -> valid_record zone r;
  rv_views : forall v, v ∈ c_views c -> label_ok v = true;
  rv_subnets : forall x, x ∈ c_subnets c -> valid_subnet x.2 }.
Ltac rv H := destruct H; constructor; simpl; try done.

Section valid.
Context (zone : string).
Implicit Types (c : Conf).
Lemma putView_valid v c x : registry_valid zone c -> label_ok (v_Name v) = true -> (forall s, s ∈ v_Subnets v -> valid_subnet s) ->
putView v c = Ok x -> registry_valid zone x.2.
Proof.
intros H Hn Hs. unfold putView. rewrite rbind_ok. intros (c1 & H1 & [= <-]). revert H1. cbn [snd].
apply (foldR_inv (registry_valid zone)).
- intros d s d' Hd Hin. unfold insert_subnet. case_if; [done|]. intros [= <-]. rv Hd.
intros y [Hy|Hy%list_elem_of_singleton]%elem_of_app; [auto|]. subst y. by apply Hs.
- unfold insert_view. assert (Hc : registry_valid zone (delete_subnets (v_Name v) c)).
{ rv H. intros y [_ Hy]%list_elem_of_filter. auto. }
case_bool_decide; [done|]. rv Hc. intros y [Hy|Hy%list_elem_of_singleton]%elem_of_app; [auto|by subst].
Qed.
Lemma delete_children_valid id c : registry_valid zone c -> registry_valid zone (delete_children id c).
Proof. intros H. rv H; intros a [_ Ha]%list_elem_of_filter; auto. Qed.
Lemma deleteService_valid id c x : registry_valid zone c -> deleteService id c = Ok x -> registry_valid zone x.2.
Proof.
intros H. unfold deleteService. case_if; [|done]. intros [= <-]. cbn [snd]. apply delete_children_valid. rv H.
- intros r [_ Hr]%list_elem_of_filter. auto.
- intros r1 r2 [_ H1]%list_elem_of_filter [_ H2]%list_elem_of_filter. by apply rv_macs0.
Qed.
Lemma deleteView_valid n c x : registry_valid zone c -> deleteView n c = Ok x -> registry_valid zone x.2.
Proof.
intros H. unfold deleteView. case_if; [done|]. case_if; [|done]. intros [= <-]. rv H.
- intros v [_ Hv]%list_elem_of_filter. auto.
- intros v [_ Hv]%list_elem_of_filter. auto.
Qed.
Lemma deleteRecord_valid id c x : registry_valid zone c -> deleteRecord id c = Ok x -> registry_valid zone x.2.
Proof. intros H. unfold deleteRecord. case_if; [|done]. intros [= <-]. rv H. intros v [_ Hv]%list_elem_of_filter. auto. Qed.
Lemma putRecord_valid r c x : registry_valid zone c -> valid_record zone r -> putRecord r c = Ok x -> registry_valid zone x.2.
Proof.
intros H Hr. unfold putRecord. case_if; [|done]. intros [= <-]. rv H.
intros y [Hy|Hy%list_elem_of_singleton]%elem_of_app; [auto|]. by subst y.
Qed.
Lemma wipe_registry_valid c : registry_valid zone (wipe_registry c).
Proof. constructor; cbn; intros; match goal with H : _ ∈ [] |- _ => by apply not_elem_of_nil in H end. Qed.

(** The services a write is compared with. *)
Definition mac_free (s : Service) c : Prop :=
s_MAC s <> "" -> forall r, r ∈ c_services c -> sv_MAC r = s_MAC s -> s_ID s <> 0 /\ sv_ID r = s_ID s.
Definition valid_service (s : Service) : Prop :=
valid_name zone (s_Name s) /\ valid_mac (s_MAC s) /\ valid_proxy (s_RouteViaProxy s) (s_ProxyAddress s) /\
(forall a, a ∈ s_Addresses s -> exists b, ParseAddr (a_Address a) = Some b) /\ (forall al, al ∈ s_Aliases s -> valid_name zone al).
Lemma put_svc_row_valid s c x : registry_valid zone c -> valid_service s -> mac_free s c -> put_svc_row s c = Ok x -> registry_valid zone x.2.
Proof.
intros H (Hn & Hm & Hp & _) Hf. unfold put_svc_row. destruct (Z.eqb_spec (s_ID s) 0) as [E|E].
- case_bool_decide; [done|]. intros [= <-]. rv H.
+ intros r [Hr|Hr%list_elem_of_singleton]%elem_of_app; [auto|]. by subst r.
+ intros r1 r2 [H1|H1%list_elem_of_singleton]%elem_of_app [H2|H2%list_elem_of_singleton]%elem_of_app Heq Hne; subst; cbn in *.
  * by apply rv_macs0.
  * exfalso. rewrite Heq in Hne. by destruct (Hf Hne _ H1 Heq).
  * exfalso. by destruct (Hf Hne _ H2 (eq_sym Heq)).
  * done.
- destruct (svc_ok c (s_ID s)).
+ destruct (existsb _ _); [done|]. intros [= <-]. apply delete_children_valid. rv H.
  * intros r (y & -> & Hy)%list_elem_of_fmap. case_if; [done|auto].
  * intros r1 r2 (y1 & -> & Hy1)%list_elem_of_fmap (y2 & -> & Hy2)%list_elem_of_fmap.
    destruct (Z.eqb_spec (sv_ID y1) (s_ID s)) as [E1|E1], (Z.eqb_spec (sv_ID y2) (s_ID s)) as [E2|E2]; cbn; intros Heq Hne.
    -- done.
    -- symmetry in Heq. by destruct (Hf Hne _ Hy2 Heq).
    -- rewrite Heq in Hne. by destruct (Hf Hne _ Hy1 Heq).
    -- by apply rv_macs0.
+ intros [= <-]. by apply delete_children_valid.
Qed.
Lemma putService_valid s c x : registry_valid zone c -> valid_service s -> mac_free s c -> putService s c = Ok x ->
registry_valid zone x.2 /\ exists y, put_svc_row s c = Ok y /\ c_services x.2 = c_services y.2.
Proof.
intros H Hs Hf. unfold putService. rewrite rbind_ok. intros ([id c0] & H0 & H1%rbind_ok).
destruct H1 as (c1 & H1 & (c2 & H2 & [= <-])%rbind_ok). cbn [fst snd] in *.
pose proof (put_svc_row_valid _ _ _ H Hs Hf H0) as V0. cbn [snd] in V0. destruct Hs as (_ & _ & _ & Ha & Hal).
assert (V1 : registry_valid zone c1 /\ c_services c1 = c_services c0).
{ revert H1. apply (foldR_inv (fun d => registry_valid zone d /\ c_services d = c_services c0)); [|done].
intros d a d' [Hd Es] Hin. unfold insert_address. case_if; [|done]. intros [= <-]. split; [|done]. rv Hd.
intros y [Hy|Hy%list_elem_of_singleton]%elem_of_app; [auto|]. subst y. by apply Ha. }
assert (V2 : registry_valid zone c2 /\ c_services c2 = c_services c0).
{ revert H2. apply (foldR_inv (fun d => registry_valid zone d /\ c_services d = c_services c0)); [|done].
intros d a d' [Hd Es] Hin. unfold insert_alias. case_if; [done|]. case_if; [|done]. intros [= <-]. split; [|done]. rv Hd.
intros y [Hy|Hy%list_elem_of_singleton]%elem_of_app; [auto|]. subst y. by apply Hal. }
split; [apply V2|]. exists (id, c0). split; [done|apply V2].
Qed.
End valid.

Lemma find_row (l : list SvcRow) r : NoDup (sv_ID <$> l) -> r ∈ l -> List.find (fun x => sv_ID x =? sv_ID r) l = Some r.
Proof.
  induction l as [|a l IH]; intros Hnd Hr; [by apply not_elem_of_nil in Hr|]. cbn in Hnd |- *. apply NoDup_cons in Hnd as [Ha Hnd].
  apply elem_of_cons in Hr as [->|Hr]; [by rewrite Z.eqb_refl|].
  destruct (Z.eqb_spec (sv_ID a) (sv_ID r)) as [E|]; [|by apply IH]. exfalso. apply Ha. rewrite E. by apply list_elem_of_fmap_2.
Qed.
Lemma Services_rows db l : NoDup (sv_ID <$> c_services (conf db)) -> Services db = Ok l ->
  forall r, r ∈ c_services (conf db) -> exists s, s ∈ l /\ s_ID s = sv_ID r /\ s_MAC s = sv_MAC r.
Proof.
  intros Hnd Hl r Hr. unfold Services in Hl. apply mapR_ok in Hl.
  assert (Hin : sv_ID r ∈ sv_ID <$> merge_sort row_name_le (c_services (conf db))).
  { apply list_elem_of_fmap_2. by rewrite merge_sort_Permutation. }
  apply list_elem_of_lookup in Hin as [i Hi]. destruct (Forall2_lookup_l _ _ _ _ _ Hl Hi) as (s & Hs & Hserv).
  exists s. split; [by eapply list_elem_of_lookup_2|]. unfold Service_ in Hserv. rewrite find_row in Hserv by done.
  by injection Hserv as <-.
Qed.
Lemma Services_total db : exists l, Services db = Ok l.
Proof.
  unfold Services. assert (H : forall ids, (forall id, id ∈ ids -> exists r, r ∈ c_services (conf db) /\ sv_ID r = id) -> exists l, mapR (Service_ db) ids = Ok l).
  { induction ids as [|id ids IH]; intros Hin; [by exists []|]. destruct IH as [l Hl]; [intros; apply Hin; by right|].
    destruct (Hin id ltac:(left)) as (r & Hr & <-). cbn [mapR]. unfold Service_ at 1.
    destruct (List.find (fun x => sv_ID x =? sv_ID r) (c_services (conf db))) as [x|] eqn:F.
    - cbn [rbind]. rewrite Hl. by eexists.
    - exfalso. pose proof (List.find_none _ _ F r (proj1 (list_elem_of_In _ _) Hr)) as Hx. cbn in Hx. by rewrite Z.eqb_refl in Hx. }
  apply H. intros id (r & -> & Hr)%list_elem_of_fmap. rewrite merge_sort_Permutation in Hr. by exists r.
Qed.
Lemma macUnique_ok svc l : macUnique svc l = Ok tt -> s_MAC svc <> "" -> forall o, o ∈ l -> s_MAC o = s_MAC svc -> s_ID svc <> 0 /\ s_ID o = s_ID svc.
Proof.
  unfold macUnique. intros H Hne o Ho He. rewrite bool_decide_false in H by done.
  destruct (existsb _ l) eqn:X; [done|]. rewrite existsb_false_forall in X. specialize (X o Ho). cbn in X.
  rewrite bool_decide_true in X by done. cbn in X. apply orb_false_iff in X as [X1 X2]. bool_to_prop. done.
Qed.
Lemma validated_service svc known zone svc' : validateService svc known zone = Ok svc' -> valid_service zone svc'.
Proof.
  intros (_ & _ & _ & Hn & Hc & Hp & Ha & _ & Hm)%validateService_inv. split; [done|]. split; [done|]. split; [done|]. split; [|done].
  rewrite check_addresses_ok in Hc. intros a Hin. by apply Hc.
Qed.
Lemma checkService_ok svc zone db svc' : wf_conf (conf db) -> checkService svc zone db = Ok svc' ->
  valid_service zone svc' /\ mac_free svc' (conf db).
Proof.
  intros Hw. unfold checkService. destruct (validateService svc _ zone) as [s|] eqn:E; [|done].
  pose proof (validated_service _ _ _ _ E) as Hv. case_bool_decide as Hm; [intros [= <-]; split; [done|]; by intros ?|].
  destruct (Services db) as [l|] eqn:El; [|done]. destruct (macUnique s l) as [[]|] eqn:Em; [|done]. intros [= <-].
  split; [done|]. intros Hne r Hr Hmac. destruct (Services_rows db l (wf_svc_ids _ Hw) El r Hr) as (o & Ho & Hid & Hom).
  rewrite <- Hid. apply (macUnique_ok _ _ Em Hne o Ho). congruence.
Qed.

(** The services of a checked document have distinct MACs when, as the import
    decodes them, none carries an id. *)
Definition macs_distinct : list Service -> Prop := StronglySorted (fun a b => s_MAC b <> "" -> s_MAC a <> s_MAC b).
Lemma check_services_ok known zone l : forall ss ss', (forall s, s ∈ l -> s_ID s = 0) ->
  check_services known zone ss l = Ok ss' -> macs_distinct ss -> (forall s, s ∈ ss -> valid_service zone s) ->
  macs_distinct ss' /\ (forall s, s ∈ ss' -> valid_service zone s).
Proof.
  induction l as [|svc l IH]; intros ss ss' Hid H Hm Hv; cbn in H; [by injection H as <-|].
  apply rbind_ok in H as (s & Hs & H). apply rbind_ok in H as ([] & Hu & H).
  apply (IH (ss ++ [s]) ss'); [intros; apply Hid; by right|done| |].
  - unfold macs_distinct. apply StronglySorted_app_2; [|done|repeat constructor].
    intros x y Hx ->%list_elem_of_singleton Hne He.
    destruct (macUnique_ok _ _ Hu Hne x Hx He) as [H0 _]. apply H0.
    destruct (validateService_inv _ _ _ _ Hs) as [-> _]. apply Hid. left.
  - intros x [Hx|Hx%list_elem_of_singleton]%elem_of_app; [by apply Hv|]. subst x. by eapply validated_service.
Qed.
Lemma put_services_valid zone ss : forall c c', registry_valid zone c -> (forall s, s ∈ ss -> valid_service zone s) -> macs_distinct ss ->
  (forall r s, r ∈ c_services c -> s ∈ ss -> s_MAC s <> "" -> sv_MAC r <> s_MAC s) ->
  foldR (fun c s => r <-? putService (drop_svc_id s) c ;; Ok r.2) c ss = Ok c' -> registry_valid zone c'.
Proof.
  induction ss as [|s ss IH]; intros c c' H Hv Hm Hd; cbn [foldR]; [by intros [= <-]|].
  rewrite rbind_ok. intros (c1 & H1 & H2). apply rbind_ok in H1 as (x & Hx & [= <-]).
  inversion Hm as [|? ? Hm' Hf]; subst.
  assert (Hfree : mac_free (drop_svc_id s) c).
  { intros Hne r Hr He. exfalso. apply (Hd r s Hr ltac:(left)); done. }
  destruct (putService_valid zone (drop_svc_id s) c x H (Hv s ltac:(left)) Hfree Hx) as [V (y & Hy & Es)].
  apply (IH x.2); [done|intros; apply Hv; by right|done| |done].
  intros r s' Hr Hs' Hne. rewrite Es in Hr. unfold put_svc_row in Hy. cbn [s_ID drop_svc_id] in Hy.
  change (0 =? 0) with true in Hy. cbv iota in Hy. case_bool_decide; [done|]. injection Hy as <-. cbn in Hr.
  apply elem_of_app in Hr as [Hr| ->%list_elem_of_singleton]; [apply Hd; [done|by right|done]|]. cbn.
  rewrite Forall_forall in Hf. by apply Hf.
Qed.
Lemma validateView_ok v v' : validateView v = Ok v' -> label_ok (v_Name v') = true /\ forall s, s ∈ v_Subnets v' -> valid_subnet s.
Proof.
  unfold validateView. destruct (ValidateLabel _) as [[]|] eqn:E; cbn [is_ok negb]; [|done]. case_bool_decide; [done|].
  rewrite rbind_ok. intros (l & Hl & [= <-]). cbn. split; [by apply ValidateLabel_ok|].
  intros s [i Hi]%list_elem_of_lookup. apply mapR_ok in Hl. destruct (Forall2_lookup_r _ _ _ _ _ Hl Hi) as ([k c] & _ & Hc). cbn [fst snd] in Hc.
  destruct (ParsePrefix c) as [p|] eqn:Ep; [|done]. injection Hc as <-. exists p. split; [by eapply ParsePrefix_wf|done].
Qed.
Lemma replaceAll_valid zone vs ss rs c c' : (forall v, v ∈ vs -> label_ok (v_Name v) = true /\ forall s, s ∈ v_Subnets v -> valid_subnet s) ->
  (forall s, s ∈ ss -> valid_service zone s) -> macs_distinct ss -> (forall r, r ∈ rs -> valid_record zone r) ->
  replaceAll vs ss rs c = Ok c' -> registry_valid zone c'.
Proof.
  intros Hv Hs Hm Hr. unfold replaceAll. rewrite rbind_ok. intros (c1 & H1 & H). apply rbind_ok in H as (c2 & H2 & H3).
  assert (V1 : registry_valid zone c1 /\ c_services c1 = []).
  { revert H1. apply (foldR_inv (fun d => registry_valid zone d /\ c_services d = [])); [|split; [apply wipe_registry_valid|done]].
    intros d v d' [Hd Hn] Hin (x & Hx & [= <-])%rbind_ok. destruct (Hv v Hin). split; [by eapply putView_valid|].
    unfold putView in Hx. apply rbind_ok in Hx as (e & He & [= <-]). cbn. revert He.
    apply (foldR_inv (fun d => c_services d = [])); [|unfold insert_view; by case_bool_decide].
    intros f a f' Hf _. unfold insert_subnet. case_if; [done|]. by intros [= <-]. }
  assert (V2 : registry_valid zone c2).
  { eapply put_services_valid; [apply V1|done|done| |exact H2]. intros r s. destruct V1 as [_ ->]. by intros ?%not_elem_of_nil. }
  revert H3. apply (foldR_inv (registry_valid zone)); [|done].
  intros d r d' Hd Hin (x & Hx & [= <-])%rbind_ok. by eapply putRecord_valid; [|apply Hr|].
Qed.
Lemma checkDocument_ok zone vs ss rs d : checkDocument zone vs ss rs = Ok d -> (forall s, s ∈ ss -> s_ID s = 0) ->
  (forall v, v ∈ d.1.1 -> label_ok (v_Name v) = true /\ forall s, s ∈ v_Subnets v -> valid_subnet s) /\
  (forall s, s ∈ d.1.2 -> valid_service zone s) /\ macs_distinct d.1.2 /\ (forall r, r ∈ d.2 -> valid_record zone r).
Proof.
  unfold checkDocument. rewrite rbind_ok. intros (vs' & Hvs & H) Hid. apply rbind_ok in H as (ss' & Hss & H).
  apply rbind_ok in H as (rs' & Hrs & [= <-]). cbn [fst snd].
  destruct (check_services_ok _ zone ss [] ss' Hid Hss ltac:(constructor) ltac:(intros ? ?%not_elem_of_nil; done)) as [Hm Hs].
  split; [|split; [done|split; [done|]]].
  - intros v [i Hi]%list_elem_of_lookup. apply mapR_ok in Hvs. destruct (Forall2_lookup_r _ _ _ _ _ Hvs Hi) as (v0 & _ & Hv). exact (validateView_ok _ _ Hv).
  - intros r [i Hi]%list_elem_of_lookup. apply mapR_ok in Hrs. destruct (Forall2_lookup_r _ _ _ _ _ Hrs Hi) as (r0 & _ & Hr). by destruct (validateRecord_inv _ _ _ _ Hr) as (_ & _ & _ & ?).
Qed.

(** ** Histories *)
Inductive reg_op :=
  | RoPutService (s : Service) | RoDeleteService (id : Z) | RoPutRecord (r : DnsRecord) | RoDeleteRecord (id : Z)
  | RoPutView (v : View) | RoDeleteView (n : string)
  | RoReplaceAll (vs : list View) (ss : list Service) (rs : list DnsRecord).
Definition rexec {L E} (onChange : DB -> L -> L * option E) (op : reg_op) (w : RegWorld L) : RegWorld L :=
  match op with
  | RoPutService s => (RegPutService onChange s w).1 | RoDeleteService id => (RegDeleteService onChange id w).1
  | RoPutRecord r => (RegPutRecord onChange r w).1 | RoDeleteRecord id => (RegDeleteRecord onChange id w).1
  | RoPutView v => (RegPutView onChange v w).1 | RoDeleteView n => (RegDeleteView onChange n w).1
  | RoReplaceAll vs ss rs => (RegReplaceAll onChange vs ss rs w).1
  end.
(** The import decoder drops the ids of the services. *)
Definition decoded (op : reg_op) : Prop :=
  match op with RoReplaceAll _ ss _ => forall s, s ∈ ss -> s_ID s = 0 | _ => True end.

Section history.
Context {L E : Type} (onChange : DB -> L -> L * option E).
Lemma write_spec {A} (f : DB -> DB * result store_error A) (w : RegWorld L) :
rg_zone (write onChange f w).1 = rg_zone w /\ rg_db (write onChange f w).1 = (f (rg_db w)).1 /\
match (write onChange f w).2 with
| Ok a => (f (rg_db w)).2 = Ok a /\ onChange (f (rg_db w)).1 (rg_live w) = (rg_live (write onChange f w).1, None)
| Err (RegChange e) => is_ok (f (rg_db w)).2 = true /\ onChange (f (rg_db w)).1 (rg_live w) = (rg_live (write onChange f w).1, Some e)
| Err (RegStore e) => (f (rg_db w)).2 = Err e /\ rg_live (write onChange f w).1 = rg_live w
| Err (RegInvalid _) => False
end.
Proof.
unfold write. destruct (f (rg_db w)) as [db [a|e]]; [|done]. destruct (onChange db (rg_live w)) as [l [e|]] eqn:O; done.
Qed.
Lemma tx_valid {A} zone (f : Conf -> result store_error (A * Conf)) db :
registry_valid zone (conf db) -> (forall x, f (conf db) = Ok x -> registry_valid zone x.2) -> registry_valid zone (conf (tx f db).1).
Proof. intros H Hf. unfold tx. destruct (f (conf db)) as [[a c]|] eqn:F; [by apply (Hf _ eq_refl)|done]. Qed.
Definition reg_ok (w : RegWorld L) : Prop := wf_conf (conf (rg_db w)) /\ registry_valid (rg_zone w) (conf (rg_db w)).
Lemma rexec_ok op w : decoded op -> reg_ok w -> reg_ok (rexec onChange op w) /\ rg_zone (rexec onChange op w) = rg_zone w.
Proof.
intros Hd [Hw Hv].
assert (Hst : forall A (f : DB -> DB * result store_error A) op', (f (rg_db w)).1 = exec op' (rg_db w) ->
  registry_valid (rg_zone w) (conf (f (rg_db w)).1) -> reg_ok (write onChange f w).1 /\ rg_zone (write onChange f w).1 = rg_zone w).
{ intros A f op' Ho Hf. destruct (write_spec f w) as (E1 & E2 & _). split; [|done]. unfold reg_ok. rewrite E1, E2. split; [|done].
  rewrite Ho. by apply exec_wf. }
destruct op as [s|id|r|id|v|n|vs ss rs]; cbn [rexec].
- unfold RegPutService. destruct (checkService s _ _) as [s'|[]] eqn:C; [|done..].
  destruct (checkService_ok _ _ _ _ Hw C) as [Hs Hf].
  apply (Hst _ (PutService s') (OpPutService s')); [done|]. apply tx_valid; [done|]. intros x Hx. by eapply putService_valid.
- apply (Hst _ (DeleteService id) (OpDeleteService id)); [done|]. apply tx_valid; [done|]. intros x Hx. by eapply deleteService_valid.
- unfold RegPutRecord. destruct (validateRecord r _ _) as [r'|] eqn:C; [|done]. cbn [validated].
  apply (Hst _ (PutRecord r') (OpPutRecord r')); [done|]. apply tx_valid; [done|]. intros x Hx.
  eapply putRecord_valid; [done| |done]. by destruct (validateRecord_inv _ _ _ _ C) as (_ & _ & _ & ?).
- apply (Hst _ (DeleteRecord id) (OpDeleteRecord id)); [done|]. apply tx_valid; [done|]. intros x Hx. by eapply deleteRecord_valid.
- unfold RegPutView. destruct (validateView v) as [v'|] eqn:C; [|done]. cbn [validated].
  apply (Hst _ (PutView v') (OpPutView v')); [done|]. apply tx_valid; [done|]. intros x Hx.
  destruct (validateView_ok _ _ C). by eapply putView_valid.
- apply (Hst _ (DeleteView n) (OpDeleteView n)); [done|]. apply tx_valid; [done|]. intros x Hx. by eapply deleteView_valid.
- unfold RegReplaceAll. destruct (checkDocument _ vs ss rs) as [d|] eqn:C; [|done]. cbn [validated].
  apply (Hst _ (ReplaceAll d.1.1 d.1.2 d.2) (OpReplaceAll d.1.1 d.1.2 d.2)); [done|]. apply tx_valid; [done|].
  intros x (c & Hc & [= <-])%rbind_ok. destruct (checkDocument_ok _ _ _ _ _ C Hd) as (D1 & D2 & D3 & D4). by eapply replaceAll_valid.
Qed.
End history.

(** C9: everything the registry has ever written is valid for its zone, whatever the
    requests: names are labels inside the zone in lower case, addresses parse,
    MACs are six bytes in the wire's spelling and name one service each, records
    are of a supported type and shape, views are labels with masked subnets; the
    keys of the tables stay intact as well. *)
Theorem registry_data_valid {L E : Type} (onChange : DB -> L -> L * option E) (zone : string) (l : L) (h : list reg_op) :
  Forall decoded h ->
  let w := foldl (fun w op => rexec onChange op w) (mkRegWorld db0 zone l) h in
  rg_zone w = zone /\ registry_valid zone (conf (rg_db w)) /\ wf_conf (conf (rg_db w)).
Proof.
  intros Hh. rewrite Forall_forall in Hh. cbv zeta.
  assert (H : reg_ok (foldl (fun w op => rexec onChange op w) (mkRegWorld db0 zone l) h) /\
    rg_zone (foldl (fun w op => rexec onChange op w) (mkRegWorld db0 zone l) h) = zone).
  { apply (foldl_inv (fun w => reg_ok w /\ rg_zone w = zone)).
    - intros w op [Hw Hz] Hop. rewrite <- Hz. by apply rexec_ok; [apply Hh|].
    - split; [|done]. split; [apply wf_conf0|]. apply (wipe_registry_valid zone conf0). }
  destruct H as [[Hw Hv] Hz]. rewrite Hz in Hv. done.
Qed.

(** an import replaces the whole registry or nothing: a document that does not
    validate, or that the store refuses, leaves the database, the zone and the
    live state as they were; otherwise the database is the one [ReplaceAll] of the
    store makes of the validated document, and the change callback has run on it
    exactly once. *)
Theorem import_all_or_nothing {L E : Type} (onChange : DB -> L -> L * option E) (vs : list View) (ss : list Service)
    (rs : list DnsRecord) (w : RegWorld L) :
  let '(w', r) := RegReplaceAll onChange vs ss rs w in
  match r with
  | Err (RegInvalid e) => checkDocument (rg_zone w) vs ss rs = Err e /\ w' = w
  | Err (RegStore e) => rg_db w' = rg_db w /\ rg_zone w' = rg_zone w /\ rg_live w' = rg_live w
  | Ok _ => exists d, checkDocument (rg_zone w) vs ss rs = Ok d /\ ReplaceAll d.1.1 d.1.2 d.2 (rg_db w) = (rg_db w', Ok tt) /\
      onChange (rg_db w') (rg_live w) = (rg_live w', None)
  | Err (RegChange e) => exists d, checkDocument (rg_zone w) vs ss rs = Ok d /\ ReplaceAll d.1.1 d.1.2 d.2 (rg_db w) = (rg_db w', Ok tt) /\
      onChange (rg_db w') (rg_live w) = (rg_live w', Some e)
  end.
Proof.
  unfold RegReplaceAll. destruct (checkDocument _ vs ss rs) as [d|e] eqn:C; cbn [validated]; [|done].
  unfold write. destruct (ReplaceAll d.1.1 d.1.2 d.2 (rg_db w)) as [db [[]|e]] eqn:R.
  - destruct (onChange db (rg_live w)) as [l [e|]] eqn:O; exists d; done.
  - split; [|done]. cbn. revert R. unfold ReplaceAll, tx. destruct (rbind _ _) as [[? ?]|]; congruence.
Qed.

(** ** Tokens *)
Section token_lemmas.
Context (sha256 : list ascii -> list Z).
Definition token_id (t : Token) := (t_ID t, t_Label t, t_Hash t, t_CreatedAt t).
Lemma touch_ids now id db : token_id <$> n_tokens (node (TouchToken now id db).1) = token_id <$> n_tokens (node db) /\
conf (TouchToken now id db).1 = conf db.
Proof. cbn. split; [|done]. rewrite <- list_fmap_compose. apply list_fmap_ext. intros i t _. cbn. by case_if. Qed.
Lemma auth_fold now want ts : forall db ok,
let r := foldl (fun acc t => if bool_decide (t_Hash t = want) then ((TouchToken now (t_ID t) acc.1).1, true) else acc) (db, ok) ts in
r.2 = (ok || existsb (fun t => bool_decide (t_Hash t = want)) ts) /\
token_id <$> n_tokens (node r.1) = token_id <$> n_tokens (node db) /\ conf r.1 = conf db /\
(existsb (fun t => bool_decide (t_Hash t = want)) ts = false -> r.1 = db).
Proof.
induction ts as [|t ts IH]; intros db ok; cbn [foldl existsb]; [by rewrite orb_false_r|].
destruct (bool_decide (t_Hash t = want)).
- cbn [fst orb]. destruct (IH (TouchToken now (t_ID t) db).1 true) as (H1 & H2 & H3 & H4).
  destruct (touch_ids now (t_ID t) db) as [T1 T2]. cbv zeta in *. rewrite H1, H2, H3, T1, T2. by rewrite orb_true_r.
- apply IH.
Qed.
Lemma authenticate_spec now p db :
((AuthenticateToken sha256 now p db).2 = true <->
   HasPrefix p tokenPrefix = true /\ HashToken sha256 p ∈ t_Hash <$> n_tokens (node db)) /\
token_id <$> n_tokens (node (AuthenticateToken sha256 now p db).1) = token_id <$> n_tokens (node db) /\
conf (AuthenticateToken sha256 now p db).1 = conf db /\
((AuthenticateToken sha256 now p db).2 = false -> (AuthenticateToken sha256 now p db).1 = db).
Proof.
unfold AuthenticateToken. destruct (HasPrefix p tokenPrefix); cbn [negb]; [|naive_solver].
destruct (auth_fold now (HashToken sha256 p) (Tokens db) db false) as (H1 & H2 & H3 & H4). cbv zeta in *.
split; [|split; [done|split; [done|]]].
- rewrite H1. cbn [orb]. rewrite existsb_true_exists, list_elem_of_fmap. setoid_rewrite bool_decide_eq_true. unfold Tokens. naive_solver.
- intros Hf. apply H4. by rewrite H1 in Hf.
Qed.

(** an API token works from its creation to its deletion and no longer: the
  plaintext [CreateToken] hands out authenticates at once, it still does after
  any other use, and once its row is deleted it never does, whatever SHA-256
  returns; checking a token changes nothing but times of last use. *)
Theorem token_lifecycle (now now' : Z) (buf : list Z) (label p : string) (db db' : DB) :
CreateToken sha256 now buf label db = (db', Ok p) ->
(AuthenticateToken sha256 now' p db').2 = true /\
(forall q, token_id <$> n_tokens (node (AuthenticateToken sha256 now' q db').1) = token_id <$> n_tokens (node db') /\
   (AuthenticateToken sha256 now' p (AuthenticateToken sha256 now' q db').1).2 = true) /\
exists id, (forall d, DeleteToken id db' = (d, Ok tt) -> (AuthenticateToken sha256 now' p d).2 = false) /\
  is_ok (DeleteToken id db').2 = true.
Proof.
unfold CreateToken, GenerateToken. set (pt := tokenPrefix +:+ EncodeToString buf).
destruct (PutToken now (mkToken 0 label (HashToken sha256 pt) 0 0) db) as [d [id|e]] eqn:P; [|done]. intros [= -> <-].
unfold PutToken, local in P. cbn [t_Hash] in P. case_bool_decide as Hfresh; [done|]. injection P as Hdb Hid.
assert (Htok : n_tokens (node db') = n_tokens (node db) ++ [mkToken id label (HashToken sha256 pt) now 0]) by by rewrite <- Hdb, <- Hid.
assert (Hpre : HasPrefix pt tokenPrefix = true) by (apply HasPrefix_spec; by eexists).
assert (Hin : HashToken sha256 pt ∈ t_Hash <$> n_tokens (node db')).
{ rewrite Htok, fmap_app. apply elem_of_app. right. by left. }
split; [by apply authenticate_spec|]. split.
- intros q. destruct (authenticate_spec now' q db') as (_ & Hq & _). split; [done|]. apply authenticate_spec. split; [done|].
  apply (f_equal (fmap (fun x => x.1.2))) in Hq. rewrite <- !list_fmap_compose in Hq.
  change ((fun x : Z * string * string * Z => x.1.2) ∘ token_id) with t_Hash in Hq. by rewrite Hq.
- exists id. unfold DeleteToken, local.
  assert (Hidin : id ∈ t_ID <$> n_tokens (node db')) by (rewrite Htok, fmap_app; apply elem_of_app; right; by left).
  rewrite bool_decide_true by done. split; [|done]. intros d [= <-].
  apply not_true_iff_false. intros [_ Ha]%authenticate_spec. cbn in Ha. apply Hfresh.
  apply list_elem_of_fmap in Ha as (t & Ht & Hf). rewrite Htok in Hf. apply list_elem_of_filter in Hf as [Hne Hf].
  apply elem_of_app in Hf as [Hf| ->%list_elem_of_singleton]; [|done]. rewrite Ht. by apply list_elem_of_fmap_2.
Qed.
End token_lemmas.

(** ** One MAC, two services *)
Definition tv (name ip : string) : Service := mkService 0 name [mkAddress 0 ip ""] [] "" false "" false "AA-BB-CC-00-00-01".
Definition race_end : RaceWorld :=
  let s1 := mkService 0 "tv" [mkAddress 0 "10.0.0.2" ""] [] "" false "" false "aa:bb:cc:00:00:01" in
  let s2 := mkService 0 "box" [mkAddress 0 "10.0.0.3" ""] [] "" false "" false "aa:bb:cc:00:00:01" in
  let d1 := (PutService s1 db0).1 in mkRace (PutService s2 d1).1 (delete 2%nat (delete 1%nat (<[2%nat := s2]> (<[1%nat := s1]> ∅)))).
(** the check that a MAC names one service and the write are two steps: two
    requests that both check before either writes both pass, and the registry
    ends up with one MAC on two services, which no single request could do. *)
Theorem concurrent_services_share_mac :
  rtc (race_step "home.arpa.") (mkRace db0 ∅) race_end /\
  (fun r => (sv_Name r, sv_MAC r)) <$> c_services (conf (ra_db race_end)) = [("tv", "aa:bb:cc:00:00:01"); ("box", "aa:bb:cc:00:00:01")] /\
  checkService (tv "box" "10.0.0.3") "home.arpa." (PutService (mkService 0 "tv" [mkAddress 0 "10.0.0.2" ""] [] "" false "" false "aa:bb:cc:00:00:01") db0).1
    = Err (inl (mkInvalid "mac" "duplicate")).
Proof.
  split; [|split; vm_compute; reflexivity].
  eapply rtc_l; [apply (race_check _ _ 1%nat (tv "tv" "10.0.0.2")); [done|vm_compute; reflexivity]|].
  eapply rtc_l; [apply (race_check _ _ 2%nat (tv "box" "10.0.0.3")); [done|vm_compute; reflexivity]|].
  eapply rtc_l; [apply (race_write _ _ 1%nat); done|]. cbn [ra_db ra_pending].
  eapply rtc_l; [apply (race_write _ _ 2%nat); done|]. cbn [ra_db ra_pending]. apply rtc_refl.
Qed.

(** ** Witnesses *)
Definition no_change : DB -> unit -> unit * option unit := fun _ l => (l, None).
Lemma registry_data_valid_witness :
  registry_valid "home.arpa." (conf (rg_db (foldl (fun w op => rexec no_change op w) (mkRegWorld db0 "home.arpa." tt)
    [RoPutView (mkView "LAN" ["10.1.2.3/8"]); RoPutService (tv " TV " "10.0.0.2");
     RoReplaceAll [mkView "lan" ["10.0.0.0/8"]] [tv "nas" "10.0.0.9"] []]))).
Proof.
  apply (registry_data_valid no_change "home.arpa." tt).
  repeat constructor. intros s ->%list_elem_of_singleton. reflexivity.
Defined.
Example put_normalises :
  c_services (conf (rg_db (RegPutService no_change (tv " TV " "10.0.0.2") (mkRegWorld db0 "home.arpa." tt)).1)) =
    [mkSvcRow 1 "tv" "" false "" false "aa:bb:cc:00:00:01"].
Proof. vm_compute. reflexivity. Qed.
Definition toy_hash (l : list ascii) : list Z := code <$> l.
Lemma token_lifecycle_witness :
  (AuthenticateToken toy_hash 9 "kydns_0a0b" (CreateToken toy_hash 5 [10; 11] "ci" db0).1).2 = true.
Proof.
  apply (token_lifecycle toy_hash 5 9 [10; 11] "ci" "kydns_0a0b" db0). vm_compute. reflexivity.
Defined.
