(* ===== verification/SettingsValidate.v ===== *)
(** * Settings rules: [internal/settings/validate.go]

    Which configurations are accepted, the canonical form of prefixes, and the
    guardrail against becoming an open resolver by accident.  The domain-name
    functions of [miekg/dns] and the parameters of the upstream parser stay
    parameters; [filepath.IsAbs] is the one of Unix. *)
From S2P Require Import Prelude GoStr NetIP NetIPPrint Model Upstream.

(** A [FieldError] names the input that was wrong. *)
Inductive settings_error := FieldError (field : string).
#[export] Instance settings_error_eq_dec : EqDecision settings_error.
Proof. solve_decision. Defined.

Definition dhcpLeaseMin : Z := 300.
Definition dhcpLeaseMax : Z := 604800.
Definition dhcpMaxPoolSize : Z := 65536.

Definition parseIPv4 (field s : string) : result settings_error Addr :=
  match ParseAddr (TrimSpace s) with
  | None => Err (FieldError field)
  | Some a => if negb (Addr.Is4 a) then Err (FieldError field) else Ok a
  end.
(** [uint64(end) - uint64(start) + 1]. *)
Definition pool_size (start end_ : Addr) : Z := u64w (Addr.value end_ - Addr.value start + 1).

Definition validateDHCP (v : Settings) : result settings_error unit :=
  if negb (DHCPEnabled v) then Ok tt
  else if bool_decide (DHCPLeaseFile v <> "") then Err (FieldError "dhcp_enabled")
  else if bool_decide (TrimSpace (DHCPInterface v) = "") then Err (FieldError "dhcp_interface")
  else
    start <-? parseIPv4 "dhcp_range_start" (DHCPRangeStart v) ;;
    end_ <-? parseIPv4 "dhcp_range_end" (DHCPRangeEnd v) ;;
    if Addr.Less4 end_ start then Err (FieldError "dhcp_range_end")
    else if dhcpMaxPoolSize <? pool_size start end_ then Err (FieldError "dhcp_range_end")
    else
      gw <-? parseIPv4 "dhcp_gateway" (DHCPGateway v) ;;
      sec <-? (if bool_decide (DHCPSecondaryDNS v <> "") then parseIPv4 "dhcp_secondary_dns" (DHCPSecondaryDNS v) else Ok gw) ;;
      if (DHCPLeaseSeconds v <? dhcpLeaseMin) || (dhcpLeaseMax <? DHCPLeaseSeconds v) then Err (FieldError "dhcp_lease_seconds")
      else Ok tt.

(** The first entry that is not a prefix fails the whole list. *)
Definition check_prefixes (field : string) (l : list string) : result settings_error (list Prefix) :=
  mapR (fun c => match ParsePrefix c with Some p => Ok p | None => Err (FieldError field) end) l.
Definition validateAllowQuery (l : list string) : result settings_error unit :=
  if bool_decide (l = []) then Err (FieldError "allow_query")
  else _ <-? check_prefixes "allow_query" l ;; Ok tt.

Definition positives (v : Settings) : list (string * Z) :=
  [("ttl", TTL v); ("cache_min_ttl", CacheMinTTL v); ("cache_max_ttl", CacheMaxTTL v); ("negative_max_ttl", NegativeMaxTTL v);
   ("cache_entries", CacheEntries v); ("discovery_interval", DiscoveryInterval v); ("health_interval", HealthInterval v);
   ("health_timeout", HealthTimeout v); ("health_workers", HealthWorkers v)].
Definition check_positive (p : string * Z) : result settings_error unit :=
  if p.2 <? 1 then Err (FieldError p.1) else Ok tt.

(** ** Private and public prefixes *)
Definition privateRanges : list Prefix :=
  [ mkPrefix (Addr4 (127 * 2 ^ 24)) 8; mkPrefix (Addr6 1 "") 128; mkPrefix (Addr4 (10 * 2 ^ 24)) 8;
    mkPrefix (Addr4 (172 * 2 ^ 24 + 16 * 2 ^ 16)) 12; mkPrefix (Addr4 (192 * 2 ^ 24 + 168 * 2 ^ 16)) 16;
    mkPrefix (Addr4 (169 * 2 ^ 24 + 254 * 2 ^ 16)) 16; mkPrefix (Addr6 (65152 * 2 ^ 112) "") 10;
    mkPrefix (Addr6 (64512 * 2 ^ 112) "") 7; mkPrefix (Addr4 (100 * 2 ^ 24 + 64 * 2 ^ 16)) 10 ].
Example privateRanges_text : ParsePrefix <$> ["127.0.0.0/8"; "::1/128"; "10.0.0.0/8"; "172.16.0.0/12"; "192.168.0.0/16";
  "169.254.0.0/16"; "fe80::/10"; "fc00::/7"; "100.64.0.0/10"] = Some <$> privateRanges.
Proof. by vm_compute. Qed.
Definition IsPrivatePrefix (p : Prefix) : bool :=
  let p := Pfx.Masked p in
  existsb (fun r => (p_bits r <=? p_bits p) && Pfx.Contains r (p_addr p)) privateRanges.
Definition PublicPrefixes (l : list string) : list string :=
  omap (fun c => match ParsePrefix c with
                 | None => None
                 | Some p => if IsPrivatePrefix p then None else Some (Pfx.to_string (Pfx.Masked p))
                 end) l.
Definition canonicalPrefixes (l : list string) : list string :=
  (fun c => match ParsePrefix c with None => c | Some p => Pfx.to_string (Pfx.Masked p) end) <$> l.
Definition Canonicalize (v : Settings) : Settings :=
  mkSettings (PrivateDomain v) (canonicalPrefixes (ReverseZones v)) (Upstreams v) (canonicalPrefixes (AllowQuery v))
    (AllowTailscale v) (TTL v) (CacheMinTTL v) (CacheMaxTTL v) (NegativeMaxTTL v) (CacheEntries v)
    (LogQueries v) (LogClientIP v) (DHCPLeaseFile v) (DiscoveryInterval v) (HealthInterval v)
    (HealthTimeout v) (HealthWorkers v) (DHCPEnabled v) (DHCPInterface v) (DHCPRangeStart v)
    (DHCPRangeEnd v) (DHCPGateway v) (DHCPLeaseSeconds v) (DHCPSecondaryDNS v) (DHCPAllowForeign v).
(** Every public prefix of [l] is retyped in [confirmPublic] or was running already. *)
Definition confirmPublicPrefixes (l prev : list string) (confirmPublic : string) : result settings_error unit :=
  if forallb (fun c => bool_decide (c = confirmPublic) || bool_decide (c ∈ PublicPrefixes prev)) (PublicPrefixes l)
  then Ok tt else Err (FieldError "allow_query").

(** ** Lemmas: the rules one by one *)
Lemma check_prefixes_ok field l : is_ok (check_prefixes field l) = true <-> Forall (fun z => is_Some (ParsePrefix z)) l.
Proof.
  unfold check_prefixes. induction l as [|c l IH]; cbn [mapR]; [split; [constructor|done]|]. rewrite Forall_cons, <- IH.
  destruct (ParsePrefix c) as [p|]; cbn [rbind]; [|split; [done|intros [[? [=]] _]]].
  destruct (mapR _ l); cbn [rbind is_ok]; split; try done; try (by intros [_ ?]); by split; [exists p|].
Qed.
Lemma rbind_ok_unit {A B} (m : result settings_error A) (k : result settings_error B) :
  is_ok (rbind m (fun _ => k)) = true <-> is_ok m = true /\ is_ok k = true.
Proof. destruct m; cbn; naive_solver. Qed.
Lemma mapR_positive l : is_ok (mapR check_positive l) = true <-> Forall (fun p => 1 <= p.2) l.
Proof.
  induction l as [|p l IH]; cbn [mapR]; [split; [constructor|done]|]. rewrite Forall_cons, <- IH. unfold check_positive at 1.
  destruct (Z.ltb_spec p.2 1); cbn [rbind]; [split; [done|intros [? _]; lia]|].
  destruct (mapR check_positive l); cbn; split; try done; try (by intros [_ ?]); by split; [lia|].
Qed.
Lemma parseIPv4_ok field s a : parseIPv4 field s = Ok a <-> ParseAddr (TrimSpace s) = Some a /\ exists u, a = Addr4 u /\ 0 <= u < 2 ^ 32.
Proof.
  unfold parseIPv4. destruct (ParseAddr (TrimSpace s)) as [b|] eqn:E; [|naive_solver]. apply ParseAddr_wf in E as [Hw _].
  destruct b as [|u|u z]; cbn [Addr.Is4 negb]; split; naive_solver.
Qed.
Lemma pool_size_ok a b : 0 <= a < 2 ^ 32 -> 0 <= b < 2 ^ 32 -> a <= b -> pool_size (Addr4 a) (Addr4 b) = b - a + 1.
Proof.
  intros Ha Hb Hab. unfold pool_size. cbn [Addr.value]. apply u64w_small.
  change (2 ^ 32) with 4294967296 in *. change (2 ^ 64) with 18446744073709551616. lia.
Qed.
Lemma is_ok_if {A} (b : bool) (m : result settings_error A) e : is_ok (if b then Err e else m) = true <-> b = false /\ is_ok m = true.
Proof. destruct b; naive_solver. Qed.
Lemma is_ok_bind {A B} (m : result settings_error A) (k : A -> result settings_error B) :
  is_ok (rbind m k) = true <-> exists a, m = Ok a /\ is_ok (k a) = true.
Proof. destruct m; cbn; naive_solver. Qed.
Lemma validateDHCP_ok v : is_ok (validateDHCP v) = true <->
  (DHCPEnabled v = true ->
    DHCPLeaseFile v = "" /\ TrimSpace (DHCPInterface v) <> "" /\ 300 <= DHCPLeaseSeconds v <= 604800 /\
    exists a b g, ParseAddr (TrimSpace (DHCPRangeStart v)) = Some (Addr4 a) /\ ParseAddr (TrimSpace (DHCPRangeEnd v)) = Some (Addr4 b) /\
      ParseAddr (TrimSpace (DHCPGateway v)) = Some (Addr4 g) /\ a <= b /\ b - a + 1 <= 65536 /\
      (DHCPSecondaryDNS v = "" \/ exists s, ParseAddr (TrimSpace (DHCPSecondaryDNS v)) = Some (Addr4 s))).
Proof.
  unfold validateDHCP. destruct (DHCPEnabled v); cbn [negb]; [|naive_solver].
  rewrite !is_ok_if, !is_ok_bind, bool_decide_eq_false, bool_decide_eq_false.
  setoid_rewrite is_ok_bind. setoid_rewrite is_ok_if. setoid_rewrite is_ok_if. setoid_rewrite is_ok_bind. setoid_rewrite is_ok_bind.
  setoid_rewrite is_ok_if. setoid_rewrite parseIPv4_ok. unfold Addr.Less4, dhcpMaxPoolSize, dhcpLeaseMin, dhcpLeaseMax. split.
  - intros (Hf & Hi & x & (Ha & a & -> & Ba) & y & (Hb & b & -> & Bb) & Hle & Hsz & z & (Hg & g & -> & Bg) & s & Hs & Hl & _) _.
    cbn [Addr.value] in Hle. apply Z.ltb_ge in Hle, Hsz. rewrite pool_size_ok in Hsz by done. bool_to_prop.
    split; [by apply dec_stable|]. split; [done|]. split; [lia|]. exists a, b, g. do 5 (split; [done|]).
    case_bool_decide as Hd; [right|left; first [done|by apply dec_stable]]. apply parseIPv4_ok in Hs as (Hs & u & -> & _). by exists u.
  - intros H. destruct (H eq_refl) as (Hf & Hi & Hl & a & b & g & Ha & Hb & Hg & Hle & Hsz & Hs). clear H.
    pose proof (ParseAddr_wf _ _ Ha) as [Wa _]. pose proof (ParseAddr_wf _ _ Hb) as [Wb _]. pose proof (ParseAddr_wf _ _ Hg) as [Wg _].
    split; [by intros []|]. split; [done|]. exists (Addr4 a). split; [split; [done|by exists a]|].
    exists (Addr4 b). split; [split; [done|by exists b]|]. split; [cbn; apply Z.ltb_ge; lia|].
    split; [apply Z.ltb_ge; rewrite pool_size_ok; [lia|exact Wa|exact Wb|lia]|]. exists (Addr4 g). split; [split; [done|by exists g]|].
    assert (Hl' : (DHCPLeaseSeconds v <? 300) || (604800 <? DHCPLeaseSeconds v) = false) by (apply orb_false_iff; rewrite !Z.ltb_ge; lia).
    destruct Hs as [Hs|[s Hs]].
    + rewrite bool_decide_eq_false_2 by (by intros []). by exists (Addr4 g).
    + case_bool_decide; [|by exists (Addr4 g)]. exists (Addr4 s). split; [|done]. apply parseIPv4_ok. split; [done|].
      apply ParseAddr_wf in Hs as [Hs _]. by exists s.
Qed.

Section Validate.
Context (url_Parse : string -> option ParsedURL) (LookupPort : string -> option Z).
Context (IsDomainName : string -> bool) (SplitDomainName : string -> list string).

Definition label_char_ok (c : ascii) : bool := bool_decide (c = "-"%char) || is_lower c || is_upper c || is_digit c.
Definition validDomainName (s : string) : bool :=
  IsDomainName s &&
  forallb (fun l => negb (bool_decide (l = "")) && negb (HasPrefix l "-") && negb (HasSuffix l "-") && forallb label_char_ok (bytes l))
    (SplitDomainName s).

Definition ValidateStored (v : Settings) : result settings_error unit :=
  if bool_decide (TrimSpace (PrivateDomain v) = "") then Err (FieldError "private_domain")
  else if negb (validDomainName (PrivateDomain v)) then Err (FieldError "private_domain")
  else
    _ <-? check_prefixes "reverse_zones" (ReverseZones v) ;;
    if bool_decide (Upstreams v = []) then Err (FieldError "upstreams")
    else match ParseAll url_Parse LookupPort (Upstreams v) with
    | Err _ => Err (FieldError "upstreams")
    | Ok _ =>
        _ <-? validateAllowQuery (AllowQuery v) ;;
        _ <-? mapR check_positive (positives v) ;;
        if CacheMaxTTL v <? CacheMinTTL v then Err (FieldError "cache_min_ttl")
        else if HealthInterval v <=? HealthTimeout v then Err (FieldError "health_timeout")
        else if bool_decide (DHCPLeaseFile v <> "") && negb (HasPrefix (DHCPLeaseFile v) "/") then Err (FieldError "dhcp_lease_file")
        else validateDHCP v
    end.
Definition ValidateWrite (next prev : Settings) (confirmPublic : string) : result settings_error unit :=
  _ <-? ValidateStored next ;; confirmPublicPrefixes (AllowQuery next) (AllowQuery prev) confirmPublic.

(** ** What acceptance means *)
Record settings_ok (v : Settings) : Prop := mkSettingsOk {
  so_domain : validDomainName (PrivateDomain v) = true /\ TrimSpace (PrivateDomain v) <> "";
  so_reverse : Forall (fun z => is_Some (ParsePrefix z)) (ReverseZones v);
  so_upstreams : Upstreams v <> [] /\ Forall (fun u => is_ok (Parse url_Parse LookupPort u) = true) (Upstreams v);
  so_allow : AllowQuery v <> [] /\ Forall (fun z => is_Some (ParsePrefix z)) (AllowQuery v);
  so_positive : Forall (fun p => 1 <= p.2) (positives v);
  so_ttls : CacheMinTTL v <= CacheMaxTTL v;
  so_health : HealthTimeout v < HealthInterval v;
  so_leasefile : DHCPLeaseFile v = "" \/ HasPrefix (DHCPLeaseFile v) "/" = true;
  so_dhcp : DHCPEnabled v = true ->
    DHCPLeaseFile v = "" /\ TrimSpace (DHCPInterface v) <> "" /\ 300 <= DHCPLeaseSeconds v <= 604800 /\
    exists a b g, ParseAddr (TrimSpace (DHCPRangeStart v)) = Some (Addr4 a) /\ ParseAddr (TrimSpace (DHCPRangeEnd v)) = Some (Addr4 b) /\
      ParseAddr (TrimSpace (DHCPGateway v)) = Some (Addr4 g) /\ a <= b /\ b - a + 1 <= 65536 /\
      (DHCPSecondaryDNS v = "" \/ exists s, ParseAddr (TrimSpace (DHCPSecondaryDNS v)) = Some (Addr4 s)) }.

Lemma ParseAll_ok l : is_ok (ParseAll url_Parse LookupPort l) = true <-> Forall (fun u => is_ok (Parse url_Parse LookupPort u) = true) l.
Proof using Type.
  unfold ParseAll. induction l as [|u l IH]; cbn [mapR]; [split; [constructor|done]|]. rewrite Forall_cons, <- IH.
  destruct (Upstream.Parse url_Parse LookupPort u); cbn [rbind is_ok]; [|split; [done|intros [[=] _]]].
  destruct (mapR _ l); cbn; split; try done; by intros [_ ?].
Qed.

Lemma accepted_exactly_lemma v : is_ok (ValidateStored v) = true <-> settings_ok v.
Proof.
  unfold ValidateStored. rewrite !is_ok_if, bool_decide_eq_false, negb_false_iff, rbind_ok_unit, check_prefixes_ok, is_ok_if.
  rewrite bool_decide_eq_false.
  assert (HU : forall k : result settings_error unit, is_ok (match ParseAll url_Parse LookupPort (Upstreams v) with Err _ => Err (FieldError "upstreams") | Ok _ => k end) = true
    <-> is_ok (ParseAll url_Parse LookupPort (Upstreams v)) = true /\ is_ok k = true).
  { intros k. destruct (ParseAll _ _ _); cbn; naive_solver. }
  rewrite HU, ParseAll_ok, !rbind_ok_unit, mapR_positive, !is_ok_if, validateDHCP_ok. unfold validateAllowQuery.
  rewrite is_ok_if, rbind_ok_unit, check_prefixes_ok, bool_decide_eq_false, Z.ltb_ge, Z.leb_gt, andb_false_iff, bool_decide_eq_false, negb_false_iff.
  split.
  - intros (? & ? & ? & ? & ? & [? [? _]] & ? & ? & ? & Hf & ?). constructor; try done.
    destruct Hf as [Hf|Hf]; [left; by apply dec_stable|by right].
  - intros [[? ?] ? [? ?] [? ?] ? ? ? Hf ?]. do 5 (split; [done|]). split; [done|]. do 3 (split; [done|]). split; [|done].
    destruct Hf as [Hf|Hf]; [left; by intros []|by right].
Qed.
(** the stored settings are accepted exactly when every rule holds: a valid
    domain, prefixes that parse, upstreams that parse and at least one of them and of
    the query ranges, positive numbers in order, and, when the built-in DHCP server is
    on, no lease file beside it and an IPv4 range of at most 65536 addresses with its
    gateway, secondary server and lease time in bounds. *)
Theorem accepted_exactly v : is_ok (ValidateStored v) = true <-> settings_ok v.
Proof. apply accepted_exactly_lemma. Qed.
End Validate.

(** ** Lemmas: canonical forms *)
Lemma to_string_inj p q : prefix_wf p -> prefix_wf q -> Pfx.to_string p = Pfx.to_string q -> p = q.
Proof. intros Hp Hq E. apply ParsePrefix_string in Hp, Hq. rewrite E in Hp. congruence. Qed.
Lemma canonical_parse c p : ParsePrefix c = Some p -> ParsePrefix (Pfx.to_string (Pfx.Masked p)) = Some (Pfx.Masked p).
Proof. intros H. apply ParsePrefix_string, Masked_prefix_wf. by eapply ParsePrefix_wf. Qed.
Lemma canonicalPrefixes_idemp l : canonicalPrefixes (canonicalPrefixes l) = canonicalPrefixes l.
Proof.
  unfold canonicalPrefixes. rewrite <- list_fmap_compose. apply list_fmap_ext. intros i c _. unfold compose.
  destruct (ParsePrefix c) as [p|] eqn:E; [|by rewrite E]. rewrite (canonical_parse c p E).
  by rewrite Masked_idemp by (by eapply ParsePrefix_wf).
Qed.
Lemma Canonicalize_idemp v : Canonicalize (Canonicalize v) = Canonicalize v.
Proof. unfold Canonicalize. cbn. by rewrite !canonicalPrefixes_idemp. Qed.
Lemma canonical_all_parse l : Forall (fun z => is_Some (ParsePrefix z)) (canonicalPrefixes l) <-> Forall (fun z => is_Some (ParsePrefix z)) l.
Proof.
  unfold canonicalPrefixes. rewrite Forall_fmap. apply Forall_iff. intros c. unfold compose.
  destruct (ParsePrefix c) as [p|] eqn:E; [|by rewrite E]. rewrite (canonical_parse c p E). split; by eexists.
Qed.
Lemma IsPrivatePrefix_masked p : prefix_wf p -> IsPrivatePrefix (Pfx.Masked p) = IsPrivatePrefix p.
Proof. intros H. unfold IsPrivatePrefix. by rewrite Masked_idemp. Qed.
Lemma PublicPrefixes_canonical l : PublicPrefixes (canonicalPrefixes l) = PublicPrefixes l.
Proof.
  unfold PublicPrefixes, canonicalPrefixes. induction l as [|c l IH]; [done|]. rewrite fmap_cons, !omap_cons, IH.
  destruct (ParsePrefix c) as [p|] eqn:E; [|by rewrite E]. rewrite (canonical_parse c p E).
  pose proof (ParsePrefix_wf c p E) as W. by rewrite IsPrivatePrefix_masked, Masked_idemp.
Qed.
Lemma elem_of_PublicPrefixes c l : c ∈ PublicPrefixes l <->
  exists e p, e ∈ l /\ ParsePrefix e = Some p /\ IsPrivatePrefix p = false /\ c = Pfx.to_string (Pfx.Masked p).
Proof.
  unfold PublicPrefixes. rewrite list_elem_of_omap. split.
  - intros (e & He & H). destruct (ParsePrefix e) as [p|] eqn:E; [|done]. destruct (IsPrivatePrefix p) eqn:P; [done|].
    injection H as <-. by exists e, p.
  - intros (e & p & He & E & P & ->). exists e. split; [done|]. by rewrite E, P.
Qed.

(** ** Lemmas: prefixes inside one another *)
Lemma shiftr_coarser w u n b b' : 0 <= b' <= b -> b <= w -> Z.shiftr u (w - b) = Z.shiftr n (w - b) -> Z.shiftr u (w - b') = Z.shiftr n (w - b').
Proof.
  intros Hb Hw H. replace (w - b') with ((w - b) + (b - b')) by lia. rewrite <- !Z.shiftr_shiftr by lia. by rewrite H.
Qed.
Lemma Contains_nested r p a : prefix_wf p -> prefix_wf r -> p_bits r <= p_bits p -> Pfx.Contains r (p_addr (Pfx.Masked p)) = true ->
  Pfx.Contains p a = true -> Pfx.Contains r a = true.
Proof.
  intros Hp Hr Hb Hn Ha. rewrite <- Contains_Masked in Ha by done. rewrite Masked_wf in Hn, Ha by done.
  destruct Hp as (_ & _ & _ & Hpb). destruct Hr as (_ & _ & _ & Hrb).
  apply Contains_spec in Hn as (H0 & _ & Hn). apply Contains_spec in Ha as (_ & Hz & Ha). apply Contains_spec.
  split; [done|]. split; [done|]. cbn [p_addr p_bits] in *.
  destruct Ha as [(n & u & En & -> & Ea)|(n & z & u & z' & En & -> & Ea)].
  - destruct Hn as [(n' & u' & E1 & E2 & Er)|(n' & z & u' & z' & E1 & E2 & Er)]; [|congruence].
    left. exists n', u. split; [done|]. split; [done|]. rewrite <- Er. rewrite En in E2. injection E2 as <-.
    destruct (p_addr p); try done. cbn in Hpb. apply (shiftr_coarser 32 u n (p_bits p) (p_bits r)); [lia|lia|done].
  - destruct Hn as [(n' & u' & E1 & E2 & Er)|(n' & y & u' & y' & E1 & E2 & Er)]; [congruence|].
    right. exists n', y, u, z'. split; [done|]. split; [done|]. rewrite <- Er. rewrite En in E2. injection E2 as <- _.
    destruct (p_addr p); try done. cbn in Hpb. apply (shiftr_coarser 128 u n (p_bits p) (p_bits r)); [lia|lia|done].
Qed.
Lemma privateRanges_wf : Forall prefix_wf privateRanges.
Proof.
  repeat (apply Forall_cons; split; [vm_compute; repeat split; congruence|]). constructor.
Qed.

(** An address of one of the ranges a homelab resolver is expected to serve. *)
Definition private_addr (a : Addr) : Prop := exists r, r ∈ privateRanges /\ Pfx.Contains r a = true.
Lemma private_prefix_inside p a : prefix_wf p -> IsPrivatePrefix p = true -> Pfx.Contains p a = true -> private_addr a.
Proof.
  intros Hp Hi Ha. unfold IsPrivatePrefix in Hi. apply existsb_true_exists in Hi as (r & Hr & Hi).
  apply andb_true_iff in Hi as [Hb Hc]. apply Z.leb_le in Hb. rewrite Masked_bits in Hb by done. exists r. split; [done|].
  apply (Contains_nested r p a); try done. pose proof privateRanges_wf as W. rewrite Forall_forall in W. by apply W.
Qed.

(** Who a list of ranges lets query. *)
Definition admits (l : list string) (a : Addr) : Prop := exists c p, c ∈ l /\ ParsePrefix c = Some p /\ Pfx.Contains p a = true.
Lemma admits_canonical l a : admits (canonicalPrefixes l) a <-> admits l a.
Proof.
  unfold admits, canonicalPrefixes. split.
  - intros (c & p & Hc & Hp & Ha). apply list_elem_of_fmap in Hc as (e & -> & He).
    destruct (ParsePrefix e) as [q|] eqn:E; [|congruence]. rewrite (canonical_parse e q E) in Hp. injection Hp as <-.
    exists e, q. split; [done|]. split; [done|]. rewrite Contains_Masked in Ha; [done|by eapply ParsePrefix_wf].
  - intros (e & q & He & E & Ha). exists (Pfx.to_string (Pfx.Masked q)), (Pfx.Masked q). split; [|split].
    + apply list_elem_of_fmap. exists e. by rewrite E.
    + by eapply canonical_parse.
    + rewrite Contains_Masked; [done|by eapply ParsePrefix_wf].
Qed.
(** A confirmed list admits nobody new without a word from the operator. *)
Lemma confirmed_exposure l prev confirm a : is_ok (confirmPublicPrefixes l prev confirm) = true -> admits l a ->
  private_addr a \/ admits prev a \/ (exists p, ParsePrefix confirm = Some p /\ Pfx.Contains p a = true).
Proof.
  unfold confirmPublicPrefixes. destruct (forallb _ _) eqn:F; [|done]. intros _ (c & p & Hc & Hp & Ha).
  pose proof (ParsePrefix_wf c p Hp) as W. destruct (IsPrivatePrefix p) eqn:P; [left; by apply (private_prefix_inside p)|right].
  rewrite forallb_forall in F. specialize (F (Pfx.to_string (Pfx.Masked p))).
  assert (Hin : In (Pfx.to_string (Pfx.Masked p)) (PublicPrefixes l)).
  { apply list_elem_of_In, elem_of_PublicPrefixes. by exists c, p. }
  specialize (F Hin). apply orb_true_iff in F as [F|F]; apply bool_decide_eq_true in F.
  - right. exists (Pfx.Masked p). rewrite <- F. split; [by eapply canonical_parse|]. by rewrite Contains_Masked.
  - left. apply elem_of_PublicPrefixes in F as (e & q & He & Hq & _ & Heq).
    assert (Wq : prefix_wf q) by (by eapply ParsePrefix_wf).
    apply to_string_inj in Heq; [|by apply Masked_prefix_wf..]. exists e, q. split; [done|]. split; [done|].
    by rewrite <- Contains_Masked, <- Heq, Contains_Masked.
Qed.
