(* ===== verification/Settings.v ===== *)
(** * The settings service: [internal/settings/settings.go]

    The live snapshot and the single path by which it changes, over the modelled
    store.  A replica may change its own DHCP fields only.  [reflect.DeepEqual] of
    two settings is equality here, so a nil and an empty list are not told apart.
    [onApply] is the list of the snapshots handed to the runtime, oldest first. *)
From S2P Require Import Prelude GoStr NetIP NetIPPrint Model Store StoreNode DnsForward Upstream SettingsValidate.

Definition TailscaleCGNAT : string := "100.64.0.0/10".
Record SettingsSnapshot := mkSSnap {
  ss_Raw : Settings; ss_AllowQuery : list Prefix; ss_ReverseZones : list Prefix; ss_Upstreams : list Upstream }.
Inductive set_error := Rule (e : settings_error) | ReadOnlyReplica | StoreFailed (e : store_error) | RowVanished | NotLoaded.
#[export] Instance set_error_eq_dec : EqDecision set_error.
Proof. solve_decision. Defined.

(** The database, the holder's snapshot, the number of the next upstream instance
    and what was applied to the runtime. *)
Record SettingsWorld := mkSW { sw_db : DB; sw_cur : option SettingsSnapshot; sw_next : Z; sw_applied : list SettingsSnapshot }.
Definition lift_rule {A} (m : result settings_error A) : result set_error A :=
  match m with Ok a => Ok a | Err e => Err (Rule e) end.

(** ** Lemmas: lists survive their packed column *)
Definition one_line (s : string) : Prop := newline ∉ bytes s.
Lemma repack_id l : Forall one_line l -> l <> [""] -> repack l = l.
Proof.
  intros Hl Hne. unfold repack, unpackList, packList. destruct l as [|s l]; [done|]. case_bool_decide as E.
  - exfalso. destruct l as [|s2 l]; [cbn in E; by subst|].
    change (Join (s :: s2 :: l) (str [newline])) with (s +:+ str [newline] +:+ Join (s2 :: l) (str [newline])) in E.
    apply (f_equal bytes) in E. rewrite !bytes_app, bytes_str in E. cbn in E. by destruct (bytes s).
  - apply Split_Join; [done|]. intros x Hx. rewrite Forall_forall in Hl. by apply Hl.
Qed.
Lemma to_string_one_line p : prefix_wf p -> one_line (Pfx.to_string p) /\ Pfx.to_string p <> "".
Proof.
  intros (Hw & Hz & Hv & Hb). assert (HL : Addr.BitLen (p_addr p) <= 128) by (destruct (p_addr p); cbn; lia).
  unfold Pfx.to_string, Pfx.IsValid. destruct (Z.leb_spec 0 (p_bits p)); [|lia]. split.
  - unfold one_line. rewrite !bytes_app, !not_elem_of_app. split; [eapply addr_chars_not; [by apply addr_string_chars|done]|].
    split; [by apply not_elem_of_cons; split; [done|apply not_elem_of_nil]|].
    intros Hin. apply (bytes_itoa_digit (p_bits p)) in Hin; [done|lia].
  - intros E. apply (f_equal bytes) in E. rewrite !bytes_app in E. cbn in E. by destruct (bytes (addr_string _)).
Qed.
Lemma canonical_repack l : Forall (fun z => is_Some (ParsePrefix z)) l -> repack (canonicalPrefixes l) = canonicalPrefixes l.
Proof.
  intros Hl. assert (H : Forall (fun c => one_line c /\ c <> "") (canonicalPrefixes l)).
  { unfold canonicalPrefixes. apply Forall_fmap. eapply Forall_impl; [exact Hl|]. intros c [p Hp]. unfold compose. rewrite Hp.
    apply to_string_one_line, Masked_prefix_wf. by eapply ParsePrefix_wf. }
  apply repack_id; [eapply Forall_impl; [exact H|]; by intros ? []|]. intros E. rewrite E in H.
  by apply Forall_cons in H as [[_ ?] _].
Qed.

Section Service.
Context (url_Parse : string -> option ParsedURL) (LookupPort : string -> option Z).
Context (IsDomainName : string -> bool) (SplitDomainName : string -> list string).
Abbreviation ValidateStored := (ValidateStored url_Parse LookupPort IsDomainName SplitDomainName).
Abbreviation ValidateWrite := (ValidateWrite url_Parse LookupPort IsDomainName SplitDomainName).
Abbreviation settings_ok := (settings_ok url_Parse LookupPort IsDomainName SplitDomainName).

Definition allow_list (v : Settings) : list string := AllowQuery v ++ (if AllowTailscale v then [TailscaleCGNAT] else []).
(** [Build]: all or nothing; [next] numbers the upstream instances. *)
Definition Build (next : Z) (v : Settings) : result settings_error SettingsSnapshot :=
  allow <-? check_prefixes "allow_query" (allow_list v) ;;
  rev <-? check_prefixes "reverse_zones" (ReverseZones v) ;;
  match NewAll url_Parse LookupPort next (Upstreams v) with
  | Err _ => Err (FieldError "upstreams")
  | Ok ups => Ok (mkSSnap v (Pfx.Masked <$> allow) (Pfx.Masked <$> rev) ups)
  end.

Definition publish (db : DB) (s : SettingsSnapshot) (w : SettingsWorld) : SettingsWorld :=
  mkSW db (Some s) (sw_next w + Z.of_nat (length (ss_Upstreams s))) (sw_applied w).
Definition applied (w : SettingsWorld) : SettingsWorld :=
  mkSW (sw_db w) (sw_cur w) (sw_next w) (sw_applied w ++ option_list (sw_cur w)).
(** [Holder.Rebuild]. *)
Definition SettingsRebuild (w : SettingsWorld) : SettingsWorld * result set_error unit :=
  match GetSettings (sw_db w) with
  | None => (w, Err RowVanished)
  | Some v => match Build (sw_next w) v with
              | Err e => (w, Err (Rule e))
              | Ok s => (publish (sw_db w) s w, Ok tt)
              end
  end.
Definition Get (w : SettingsWorld) : result set_error Settings :=
  match sw_cur w with Some s => Ok (ss_Raw s) | None => Err NotLoaded end.
Definition running (w : SettingsWorld) : Settings := match sw_cur w with Some s => ss_Raw s | None => settings0 end.
Definition CheckWrite (v : Settings) (confirm : string) (w : SettingsWorld) : result set_error unit :=
  _ <-? lift_rule (ValidateWrite v (running w) confirm) ;; _ <-? lift_rule (Build (sw_next w) v) ;; Ok tt.

Definition withoutDHCP (v : Settings) : Settings := with_dhcp v settings0.
Definition dhcpOnlyChange (prev v : Settings) : bool := bool_decide (withoutDHCP prev = withoutDHCP v).
Definition setDHCPOnly (v prev : Settings) (confirm : string) (w : SettingsWorld) : SettingsWorld * result set_error unit :=
  if negb (dhcpOnlyChange prev v) then (w, Err ReadOnlyReplica)
  else match ValidateWrite v prev confirm with
  | Err e => (w, Err (Rule e))
  | Ok _ =>
      match PutDHCPSettings v (sw_db w) with
      | (db, Err e) => (mkSW db (sw_cur w) (sw_next w) (sw_applied w), Err (StoreFailed e))
      | (db, Ok _) =>
          let '(w, r) := SettingsRebuild (mkSW db (sw_cur w) (sw_next w) (sw_applied w)) in
          match r with Err e => (w, Err e) | Ok _ => (applied w, Ok tt) end
      end
  end.
(** The row is written under the name change when the zone moves. *)
Definition persist (prev v : Settings) (db : DB) : DB * result store_error unit :=
  let from := ZoneSuffix (PrivateDomain prev) in
  let to := ZoneSuffix (PrivateDomain v) in
  if bool_decide (from <> "") && bool_decide (from <> to)
  then let '(db, r) := PutSettingsRenamingZone v from to db in (db, _ <-? r ;; Ok tt)
  else PutSettings v db.
Definition Set_ (isReplica : bool) (v : Settings) (confirm : string) (w : SettingsWorld) : SettingsWorld * result set_error unit :=
  let prev := running w in
  if isReplica then setDHCPOnly v prev confirm w
  else match ValidateWrite v prev confirm with
  | Err e => (w, Err (Rule e))
  | Ok _ =>
      let v := Canonicalize v in
      match Build (sw_next w) v with
      | Err e => (w, Err (Rule e))
      | Ok snap =>
          match persist prev v (sw_db w) with
          | (db, Err e) => (mkSW db (sw_cur w) (sw_next w) (sw_applied w), Err (StoreFailed e))
          | (db, Ok _) => (applied (publish db snap w), Ok tt)
          end
      end
  end.

(** ** Lemmas: building *)
Lemma check_prefixes_Forall2 field l ps : check_prefixes field l = Ok ps <-> Forall2 (fun c p => ParsePrefix c = Some p) l ps.
Proof.
  unfold check_prefixes. rewrite mapR_ok.
  split; intros H; (eapply Forall2_impl; [exact H|]); intros c p Hc; cbv beta in *; destruct (ParsePrefix c); by simplify_eq.
Qed.
Lemma is_ok_NewAll next l : is_ok (NewAll url_Parse LookupPort next l) = is_ok (ParseAll url_Parse LookupPort l).
Proof. unfold NewAll. by destruct (ParseAll url_Parse LookupPort l). Qed.
Lemma allow_list_parses v : Forall (fun z => is_Some (ParsePrefix z)) (allow_list v) <-> Forall (fun z => is_Some (ParsePrefix z)) (AllowQuery v).
Proof.
  unfold allow_list. rewrite Forall_app. split; [by intros [? _]|]. intros H. split; [done|]. destruct (AllowTailscale v); [|constructor].
  constructor; [|constructor]. by eexists.
Qed.
(** Accepted settings can always be built: [Set] and [CheckWrite] cannot fail there. *)
Lemma settings_ok_builds next v : settings_ok v -> is_ok (Build next v) = true.
Proof.
  intros H. unfold Build. apply is_ok_bind.
  pose proof (proj2 (check_prefixes_ok "allow_query" (allow_list v)) (proj2 (allow_list_parses v) (proj2 (so_allow _ _ _ _ _ H)))) as Ha.
  pose proof (proj2 (check_prefixes_ok "reverse_zones" (ReverseZones v)) (so_reverse _ _ _ _ _ H)) as Hr.
  destruct (check_prefixes "allow_query" (allow_list v)) as [a|]; [|done]. exists a. split; [done|].
  destruct (check_prefixes "reverse_zones" (ReverseZones v)) as [r|]; [|done]. cbn [rbind].
  pose proof (is_ok_NewAll next (Upstreams v)) as Hn. rewrite (proj2 (ParseAll_ok _ _ _) (proj2 (so_upstreams _ _ _ _ _ H))) in Hn.
  by destruct (NewAll _ _ _ _).
Qed.
Lemma Build_raw next v s : Build next v = Ok s -> ss_Raw s = v.
Proof.
  unfold Build. intros (a & _ & H)%rbind_ok. apply rbind_ok in H as (r & _ & H). destruct (NewAll _ _ _ _); [|done]. by injection H as <-.
Qed.
(** The query list of a snapshot admits what its text says, and the Tailscale
    range when that is switched on. *)
Definition snapshot_admits (s : SettingsSnapshot) (a : Addr) : Prop := exists p, p ∈ ss_AllowQuery s /\ Pfx.Contains p a = true.
Lemma Build_admits next v s a : Build next v = Ok s -> snapshot_admits s a <-> admits (allow_list v) a.
Proof.
  unfold Build. intros (ps & Hps & H)%rbind_ok. apply rbind_ok in H as (r & _ & H). destruct (NewAll _ _ _ _); [|done].
  injection H as <-. apply check_prefixes_Forall2 in Hps. unfold snapshot_admits, admits. cbn [ss_AllowQuery]. split.
  - intros (p & Hp & Ha). apply list_elem_of_fmap in Hp as (q & -> & Hq). apply list_elem_of_lookup in Hq as [i Hi].
    eapply Forall2_lookup_r in Hps as (c & Hc & Hcq); [|exact Hi]. rewrite Contains_Masked in Ha by (by eapply ParsePrefix_wf).
    exists c, q. split; [by eapply list_elem_of_lookup_2|done].
  - intros (c & q & Hc & Hq & Ha). apply list_elem_of_lookup in Hc as [i Hi].
    eapply Forall2_lookup_l in Hps as (q' & Hq' & Hcq); [|exact Hi]. rewrite Hq in Hcq. injection Hcq as <-.
    exists (Pfx.Masked q). split; [apply list_elem_of_fmap; exists q; split; [done|by eapply list_elem_of_lookup_2]|].
    by rewrite Contains_Masked by (by eapply ParsePrefix_wf).
Qed.
Lemma admits_tailscale v a : admits (allow_list v) a -> admits (AllowQuery v) a \/ private_addr a.
Proof.
  intros (c & p & Hc & Hp & Ha). unfold allow_list in Hc. apply elem_of_app in Hc as [Hc|Hc]; [left; by exists c, p|].
  destruct (AllowTailscale v); [|by apply not_elem_of_nil in Hc]. apply list_elem_of_singleton in Hc as ->. right.
  assert (E : ParsePrefix TailscaleCGNAT = Some (mkPrefix (Addr4 (100 * 2 ^ 24 + 64 * 2 ^ 16)) 10)) by by vm_compute.
  rewrite E in Hp. injection Hp as <-. eexists. split; [|exact Ha]. unfold privateRanges. do 8 right. left.
Qed.
Lemma admits_allow_list v a : admits (AllowQuery v) a -> admits (allow_list v) a.
Proof. intros (c & p & Hc & H). exists c, p. split; [|done]. unfold allow_list. apply elem_of_app. by left. Qed.

(** ** Lemmas: saving *)
Lemma canonical_ok v : settings_ok (Canonicalize v) <-> settings_ok v.
Proof.
  assert (Hnil : canonicalPrefixes (AllowQuery v) <> [] <-> AllowQuery v <> []) by (destruct (AllowQuery v); done).
  pose proof (canonical_all_parse (AllowQuery v)) as Ha. pose proof (canonical_all_parse (ReverseZones v)) as Hr.
  split; intros [H1 H2 H3 [H4 H4'] H5 H6 H7 H8 H9].
  - exact (mkSettingsOk _ _ _ _ v H1 (proj1 Hr H2) H3 (conj (proj1 Hnil H4) (proj1 Ha H4')) H5 H6 H7 H8 H9).
  - exact (mkSettingsOk _ _ _ _ (Canonicalize v) H1 (proj2 Hr H2) H3 (conj (proj2 Hnil H4) (proj2 Ha H4')) H5 H6 H7 H8 H9).
Qed.
Lemma accepted_entry_nonempty u : is_ok (Parse url_Parse LookupPort u) = true -> u <> "".
Proof. by intros H ->. Qed.
Lemma stored_canonical v : settings_ok v -> Forall one_line (Upstreams v) -> stored (Canonicalize v) = Canonicalize v.
Proof.
  intros H Hl. unfold stored, Canonicalize. cbn. rewrite !canonical_repack.
  - rewrite repack_id; [done|done|]. intros E. destruct (so_upstreams _ _ _ _ _ H) as [_ Hu]. rewrite E in Hu.
    apply Forall_cons in Hu as [Hu _]. by apply accepted_entry_nonempty in Hu.
  - apply (so_allow _ _ _ _ _ H).
  - apply (so_reverse _ _ _ _ _ H).
Qed.
Lemma persist_row prev v db : let '(db', r) := persist prev v db in
  match r with Ok _ => GetSettings db' = Some (stored v) /\ node db' = node db | Err _ => db' = db end.
Proof.
  unfold persist. destruct (_ && _).
  - unfold PutSettingsRenamingZone, tx. destruct (renameRecords _ _ _) as [n c] eqn:E.
    assert (Hc : c_settings c = Some (stored v)) by (apply (f_equal snd) in E; cbn [snd] in E; rewrite <- E; reflexivity).
    cbn [rbind]. split; [exact Hc|reflexivity].
  - split; reflexivity.
Qed.
Lemma sw_eta w : mkSW (sw_db w) (sw_cur w) (sw_next w) (sw_applied w) = w.
Proof. by destruct w. Qed.
Lemma is_ok_ValidateStored v : is_ok (ValidateStored v) = true <-> settings_ok v.
Proof. apply accepted_exactly_lemma. Qed.
Lemma ValidateWrite_ok v prev confirm u : ValidateWrite v prev confirm = Ok u ->
  settings_ok v /\ is_ok (confirmPublicPrefixes (AllowQuery v) (AllowQuery prev) confirm) = true.
Proof.
  intros H. assert (Hk : is_ok (ValidateWrite v prev confirm) = true) by by rewrite H. unfold SettingsValidate.ValidateWrite in Hk.
  apply rbind_ok_unit in Hk as [H1 H2]. split; [by apply is_ok_ValidateStored|done].
Qed.

(** A snapshot as [Build] makes it; the holder never holds another. *)
Definition built (s : SettingsSnapshot) : Prop := exists n, Build n (ss_Raw s) = Ok s.
Definition world_ok (w : SettingsWorld) : Prop := forall s, sw_cur w = Some s -> built s.
Lemma Build_built n v s : Build n v = Ok s -> built s.
Proof. intros H. exists n. by rewrite (Build_raw n v s H). Qed.
Lemma primary_ok v confirm w w' : Set_ false v confirm w = (w', Ok tt) ->
  settings_ok v /\ is_ok (confirmPublicPrefixes (AllowQuery v) (AllowQuery (running w)) confirm) = true /\
  exists s, Build (sw_next w) (Canonicalize v) = Ok s /\ sw_cur w' = Some s /\
    GetSettings (sw_db w') = Some (stored (Canonicalize v)) /\ node (sw_db w') = node (sw_db w) /\
    sw_applied w' = sw_applied w ++ [s].
Proof.
  unfold Set_. destruct (ValidateWrite v (running w) confirm) as [u|e] eqn:V; [|done].
  apply ValidateWrite_ok in V as [Hok Hc]. destruct (Build (sw_next w) (Canonicalize v)) as [s|e] eqn:B; [|done].
  pose proof (persist_row (running w) (Canonicalize v) (sw_db w)) as P.
  destruct (persist (running w) (Canonicalize v) (sw_db w)) as [db [x|e]]; [|done]. intros [= <-].
  split; [done|]. split; [done|]. exists s. by destruct P as [P1 P2].
Qed.

(** a save on a primary is all or nothing.  When it is refused the database, the
    running snapshot and the runtime are as before; when it succeeds the settings obey
    every rule, the row holds their canonical form, and the very snapshot built from it
    is running and was handed to the runtime, with no other node-local data touched. *)
Theorem primary_save_all_or_nothing v confirm w :
  let '(w', r) := Set_ false v confirm w in
  match r with
  | Err _ => w' = w
  | Ok _ => settings_ok v /\ exists s, Build (sw_next w) (Canonicalize v) = Ok s /\ ss_Raw s = Canonicalize v /\
      sw_cur w' = Some s /\ GetSettings (sw_db w') = Some (stored (Canonicalize v)) /\
      node (sw_db w') = node (sw_db w) /\ sw_applied w' = sw_applied w ++ [s]
  end.
Proof.
  destruct (Set_ false v confirm w) as [w' [[]|e]] eqn:E.
  - apply primary_ok in E as (Hok & _ & s & B & H). split; [done|]. exists s. split; [done|]. by rewrite (Build_raw _ _ _ B).
  - unfold Set_ in E. destruct (ValidateWrite v (running w) confirm); [|by injection E as <-].
    destruct (Build (sw_next w) (Canonicalize v)) as [s|]; [|by injection E as <-].
    pose proof (persist_row (running w) (Canonicalize v) (sw_db w)) as P.
    destruct (persist (running w) (Canonicalize v) (sw_db w)) as [db [x|e']]; [done|]. injection E as <- _. rewrite P. apply sw_eta.
Qed.

(** C4: the exposure guardrail.  After a save an address may query that could not
    before only if it lies in one of the private ranges or inside the one public
    prefix the operator retyped with this very request. *)
Theorem no_silent_exposure v confirm w w' s a : world_ok w -> Set_ false v confirm w = (w', Ok tt) -> sw_cur w' = Some s ->
  snapshot_admits s a ->
  private_addr a \/ (exists s0, sw_cur w = Some s0 /\ snapshot_admits s0 a) \/
  (exists p, ParsePrefix confirm = Some p /\ Pfx.Contains p a = true).
Proof.
  intros Hw E Hs Ha. apply primary_ok in E as (_ & Hc & s' & B & Hs' & _). rewrite Hs in Hs'. injection Hs' as <-.
  apply (Build_admits _ _ _ a B), admits_tailscale in Ha as [Ha|Ha]; [|by left]. change (AllowQuery (Canonicalize v)) with (canonicalPrefixes (AllowQuery v)) in Ha.
  apply (proj1 (admits_canonical _ _)) in Ha. destruct (confirmed_exposure _ _ _ a Hc Ha) as [H|[H|H]]; [by left| |by right; right].
  right. left. unfold running in H. destruct (sw_cur w) as [s0|] eqn:C.
  - exists s0. split; [done|]. destruct (Hw s0 C) as [n Hn]. apply (Build_admits _ _ _ a Hn). by apply admits_allow_list.
  - destruct H as (c & p & Hin & _). by apply not_elem_of_nil in Hin.
Qed.

(** what a save wrote is what the next start reads.  With upstream entries of one
    line each, the row reads back as the canonical settings, passes the startup
    validation and builds the same query list and reverse zones. *)
Theorem saved_settings_boot v confirm w w' : Forall one_line (Upstreams v) -> Set_ false v confirm w = (w', Ok tt) ->
  exists row, GetSettings (sw_db w') = Some row /\ row = Canonicalize v /\ is_ok (ValidateStored row) = true /\
    forall next, exists s s', sw_cur w' = Some s /\ Build next row = Ok s' /\ ss_Raw s' = ss_Raw s /\
      ss_AllowQuery s' = ss_AllowQuery s /\ ss_ReverseZones s' = ss_ReverseZones s.
Proof.
  intros Hl E. apply primary_ok in E as (Hok & _ & s & B & Hs & Hg & _). exists (Canonicalize v).
  rewrite stored_canonical in Hg by done. split; [done|]. split; [done|]. split; [by apply is_ok_ValidateStored, canonical_ok|].
  intros next. pose proof (settings_ok_builds next (Canonicalize v) (proj2 (canonical_ok v) Hok)) as Hb.
  destruct (Build next (Canonicalize v)) as [s'|] eqn:B'; [|done]. exists s, s'. split; [done|]. split; [done|].
  unfold Build in B, B'. destruct (check_prefixes "allow_query" _) as [al|]; [|done]. destruct (check_prefixes "reverse_zones" _) as [rz|]; [|done].
  cbn [rbind] in B, B'. destruct (NewAll _ _ (sw_next w) _); [|done]. destruct (NewAll _ _ next _); [|done].
  by injection B as <-; injection B' as <-.
Qed.

Lemma with_dhcp_only prev v : dhcpOnlyChange prev v = true -> with_dhcp prev v = v.
Proof.
  unfold dhcpOnlyChange. rewrite bool_decide_eq_true. unfold withoutDHCP, with_dhcp. cbn. destruct prev, v; cbn. intros H.
  by injection H as -> -> -> -> -> -> -> -> -> -> -> -> -> -> -> -> ->.
Qed.
(** a replica writes its own DHCP fields and nothing else.  A request that reaches
    past them is refused with nothing changed; an accepted one leaves every other
    column, every other table and the configuration version alone, whatever a pull has
    stored since the caller read, and what runs afterwards is the row as it now is. *)
Theorem replica_write_is_narrow v confirm w :
  let '(w', r) := Set_ true v confirm w in
  match r with
  | Ok _ => dhcpOnlyChange (running w) v = true /\ settings_ok v /\
      exists row s, GetSettings (sw_db w) = Some row /\ sw_db w' = mkDB (with_settings (conf (sw_db w)) (Some (with_dhcp row v)) 0) (node (sw_db w)) /\
        replicated_settings (with_dhcp row v) = replicated_settings row /\ ConfigVersion (sw_db w') = ConfigVersion (sw_db w) /\
        sw_cur w' = Some s /\ built s /\ ss_Raw s = with_dhcp row v /\ sw_applied w' = sw_applied w ++ [s]
  | Err e => sw_cur w' = sw_cur w /\ sw_applied w' = sw_applied w /\ (dhcpOnlyChange (running w) v = false -> w' = w /\ e = ReadOnlyReplica)
  end.
Proof.
  unfold Set_, setDHCPOnly. destruct (dhcpOnlyChange (running w) v); cbn [negb]; [|done].
  destruct (ValidateWrite v (running w) confirm) as [u|e] eqn:V; [|done]. apply ValidateWrite_ok in V as [Hok _].
  unfold PutDHCPSettings, tx, putDHCPSettings. destruct (c_settings (conf (sw_db w))) as [row|] eqn:R; [|done].
  unfold SettingsRebuild, GetSettings. cbn [sw_db conf with_settings c_settings].
  cbn [sw_next]. destruct (Build (sw_next w) (with_dhcp row v)) as [s|e] eqn:B.
  - split; [done|]. split; [done|]. exists row, s. split; [done|]. split; [reflexivity|]. split; [reflexivity|].
    split; [unfold ConfigVersion; cbn; lia|]. split; [done|]. split; [by eapply Build_built|]. split; [by eapply Build_raw|reflexivity].
  - done.
Qed.
End Service.

(** ** Concrete saves *)
Definition ex_names : (string -> bool) * (string -> list string) := (fun s => negb (bool_decide (s = "")), fun s => Split (TrimSuffix s ".") ".").
Definition ex_settings (ups allow : list string) : Settings :=
  mkSettings "home.lan" ["192.168.1.0/24"] ups allow false 300 30 3600 60 1000 false false "" 60 30 5 8 false "" "" "" "" 0 "" false.
Abbreviation ex_Set := (Set_ ex_url_parse ex_lookup ex_names.1 ex_names.2).
Definition ex_world : SettingsWorld := (ex_Set false (ex_settings ["9.9.9.9"] ["192.168.0.0/16"]) "" (mkSW db0 None 0 [])).1.
Lemma ex_settings_world_ok : world_ok ex_url_parse ex_lookup ex_world.
Proof. intros s Hs. exists 0. assert (H : sw_cur ex_world = Some s) by exact Hs. vm_compute in H. injection H as <-. by vm_compute. Qed.
(** A masked public range is refused until it is retyped as what it matches. *)
Example public_range_refused :
  (ex_Set false (ex_settings ["9.9.9.9"] ["192.168.1.99/0"]) "192.168.1.99/0" ex_world).2 = Err (Rule (FieldError "allow_query")) /\
  (ex_Set false (ex_settings ["9.9.9.9"] ["192.168.1.99/0"]) "0.0.0.0/0" ex_world).2 = Ok tt.
Proof. by vm_compute. Qed.
Lemma no_silent_exposure_witness :
  exists w' s, ex_Set false (ex_settings ["9.9.9.9"] ["8.8.8.9/24"]) "8.8.8.0/24" ex_world = (w', Ok tt) /\ sw_cur w' = Some s /\
    snapshot_admits s (Addr4 134744072) /\
    (private_addr (Addr4 134744072) \/ (exists s0, sw_cur ex_world = Some s0 /\ snapshot_admits s0 (Addr4 134744072)) \/
     (exists p, ParsePrefix "8.8.8.0/24" = Some p /\ Pfx.Contains p (Addr4 134744072) = true)).
Proof.
  destruct (ex_Set false (ex_settings ["9.9.9.9"] ["8.8.8.9/24"]) "8.8.8.0/24" ex_world) as [w' r] eqn:E.
  assert (Er : r = Ok tt) by (apply (f_equal snd) in E; vm_compute in E; exact (eq_sym E)). subst r.
  destruct (sw_cur w') as [s|] eqn:Es.
  2:{ exfalso. apply (f_equal fst) in E. apply (f_equal sw_cur) in E. cbn [fst] in E. rewrite Es in E. vm_compute in E. discriminate E. }
  assert (Ha : snapshot_admits s (Addr4 134744072)).
  { exists (mkPrefix (Addr4 134744064) 24). apply (f_equal fst) in E. apply (f_equal sw_cur) in E. cbn [fst] in E. rewrite Es in E.
    vm_compute in E. injection E as <-. split; [left|by vm_compute]. }
  exists w', s. split; [exact eq_refl|]. split; [exact Es|]. split; [exact Ha|].
  exact (no_silent_exposure _ _ _ _ _ _ _ _ s _ ex_settings_world_ok E Es Ha).
Defined.
Lemma saved_settings_boot_witness :
  Forall one_line ["9.9.9.9"] /\
  exists w' row, ex_Set false (ex_settings ["9.9.9.9"] ["10.1.2.3/8"]) "" ex_world = (w', Ok tt) /\ GetSettings (sw_db w') = Some row.
Proof.
  assert (H : Forall one_line (Upstreams (ex_settings ["9.9.9.9"] ["10.1.2.3/8"]))).
  { constructor; [|constructor]. unfold one_line. apply (bool_decide_unpack _). by vm_compute. }
  split; [exact H|].
  destruct (ex_Set false (ex_settings ["9.9.9.9"] ["10.1.2.3/8"]) "" ex_world) as [w' r] eqn:E.
  assert (Er : r = Ok tt) by (apply (f_equal snd) in E; vm_compute in E; exact (eq_sym E)). subst r.
  destruct (saved_settings_boot _ _ _ _ _ _ _ w' H E) as (row & Hr & _). exists w', row. split; [exact eq_refl|exact Hr].
Defined.
(** An upstream entry with a line break is accepted, because the parser trims it,
    and split in two by the packed column: the next start refuses the row. *)
Lemma accepted_row_refused_at_boot :
  let r := ex_Set false (ex_settings ["9.9.9.9" +:+ str [newline]] ["192.168.0.0/16"]) "" ex_world in
  let row := ex_settings ["9.9.9.9"; ""] ["192.168.0.0/16"] in
  r.2 = Ok tt /\ GetSettings (sw_db r.1) = Some row /\
  ValidateStored ex_url_parse ex_lookup ex_names.1 ex_names.2 row = Err (FieldError "upstreams").
Proof. intros r row. split; [|split]; vm_compute; reflexivity. Qed.
