(* ===== verification/Ticker.v ===== *)
(** * The polling loop: [Run] of [internal/health/checker.go] and
      [internal/discovery/poller.go]

    Both packages run the same loop: do the work, arm a timer with the interval
    as it is now, and wait for the timer or for the one-slot wake channel that a
    configuration change fills.  Time is explicit; a step that is not enabled
    changes nothing. *)
From S2P Require Import Prelude.

(** The floor of the schedule, one millisecond. *)
Definition minInterval : Z := 1000000.
Definition clampInterval (d : Z) : Z := if d <? minInterval then minInterval else d.

(** [lp_due] is [None] while the work runs and the armed timer otherwise. *)
Record Loop := mkLoop { lp_now : Z; lp_interval : Z; lp_token : bool; lp_due : option Z; lp_runs : Z }.
Inductive LoopEvent :=
  | LSet (d : Z)      (* a new interval: [Reconfigure], [SetInterval] *)
  | LWake             (* a wake without one: [SetSource] *)
  | LTime (dt : Z)    (* time passes *)
  | LWork             (* the work ends and the timer is armed *)
  | LFire             (* the timer is received *)
  | LTake.            (* the wake is received *)
(** The send into the one-slot channel: a full slot already holds the wake. *)
Definition wake (l : Loop) : Loop := mkLoop (lp_now l) (lp_interval l) true (lp_due l) (lp_runs l).
Definition loop_step (l : Loop) (ev : LoopEvent) : Loop :=
  match ev with
  | LSet d => wake (mkLoop (lp_now l) (clampInterval d) (lp_token l) (lp_due l) (lp_runs l))
  | LWake => wake l
  | LTime dt => mkLoop (lp_now l + Z.max 0 dt) (lp_interval l) (lp_token l) (lp_due l) (lp_runs l)
  | LWork => match lp_due l with
             | None => mkLoop (lp_now l) (lp_interval l) (lp_token l) (Some (lp_now l + lp_interval l)) (lp_runs l + 1)
             | Some _ => l
             end
  | LFire => match lp_due l with
             | Some d => if d <=? lp_now l then mkLoop (lp_now l) (lp_interval l) (lp_token l) None (lp_runs l) else l
             | None => l
             end
  | LTake => match lp_due l with
             | Some _ => if lp_token l then mkLoop (lp_now l) (lp_interval l) false None (lp_runs l) else l
             | None => l
             end
  end.
(** A loop that starts: its first cycle is immediate and its slot was drained. *)
Definition loop_start (now d : Z) : Loop := mkLoop now (clampInterval d) false None 0.
Definition loop_run (evs : list LoopEvent) (l : Loop) : Loop := foldl loop_step l evs.

Lemma clampInterval_min d : minInterval <= clampInterval d.
Proof. unfold clampInterval, minInterval. destruct (Z.ltb_spec d 1000000); lia. Qed.

(** ** How often the work runs *)
Definition is_wake (ev : LoopEvent) : bool := match ev with LSet _ | LWake => true | _ => false end.
(** [taken] wakes and [fired] timers account for every run. *)
Record loop_inv (t0 wakes : Z) (l : Loop) : Prop := mkLoopInv {
  li_interval : minInterval <= lp_interval l;
  li_time : t0 <= lp_now l;
  li_runs : exists taken fired, 0 <= taken /\ 0 <= fired /\ taken + Z.b2z (lp_token l) <= wakes /\
    match lp_due l with
    | None => lp_runs l = taken + fired /\ fired * minInterval <= lp_now l - t0
    | Some d => lp_runs l = taken + fired + 1 /\ (fired + 1) * minInterval <= d - t0 /\ fired * minInterval <= lp_now l - t0
    end }.
Lemma loop_step_inv t0 w l ev : 0 <= w -> loop_inv t0 w l -> loop_inv t0 (w + Z.b2z (is_wake ev)) (loop_step l ev).
Proof.
  intros Hw [Hi Ht (taken & fired & H1 & H2 & H3 & H4)]. pose proof (clampInterval_min) as Hc. unfold minInterval in *.
  destruct l as [now i tok due runs]. cbn [lp_now lp_interval lp_token lp_due lp_runs] in *.
  destruct ev as [d| |dt| | |]; cbn [is_wake Z.b2z loop_step wake lp_now lp_interval lp_token lp_due lp_runs].
  - constructor; unfold minInterval; cbn; [apply Hc|lia|]. exists taken, fired. do 2 (split; [lia|]). split; [destruct tok; cbn in *; lia|done].
  - constructor; unfold minInterval; cbn; [lia|lia|]. exists taken, fired. do 2 (split; [lia|]). split; [destruct tok; cbn in *; lia|done].
  - constructor; unfold minInterval; cbn; [lia|lia|]. exists taken, fired. do 3 (split; [lia|]). destruct due; lia.
  - destruct due as [d|]; constructor; unfold minInterval; cbn; try lia; exists taken, fired; cbn; lia.
  - destruct due as [d|]; [destruct (Z.leb_spec d now)|]; constructor; unfold minInterval; cbn; try lia.
    + exists taken, (fired + 1). lia.
    + exists taken, fired. cbn. lia.
    + exists taken, fired. cbn. lia.
  - destruct due as [d|]; [destruct tok|]; constructor; unfold minInterval; cbn in *; try lia.
    + exists (taken + 1), fired. lia.
    + exists taken, fired. cbn. lia.
    + exists taken, fired. cbn. lia.
Qed.
Lemma loop_run_inv t0 evs : forall w l, 0 <= w -> loop_inv t0 w l -> loop_inv t0 (w + countb is_wake evs) (loop_run evs l).
Proof.
  induction evs as [|ev evs IH]; intros w l Hw Hl.
  - unfold countb. cbn. by rewrite Z.add_0_r.
  - change (loop_run (ev :: evs) l) with (loop_run evs (loop_step l ev)).
    replace (w + countb is_wake (ev :: evs)) with (w + Z.b2z (is_wake ev) + countb is_wake evs).
    + apply IH; [destruct (is_wake ev); cbn; lia|by apply loop_step_inv].
    + unfold countb. cbn [List.filter]. destruct (is_wake ev); cbn [Z.b2z length]; lia.
Qed.
Lemma loop_start_inv now d : loop_inv now 0 (loop_start now d).
Proof. constructor; unfold minInterval; cbn; [apply clampInterval_min|lia|]. exists 0, 0. unfold minInterval. lia. Qed.

(** the loop cannot spin.  Whatever intervals were asked for, zero and negative
    ones included, it does its work at most once for the start, once for each
    configuration change and once for each millisecond that has passed. *)
Theorem loop_never_spins now d evs :
  let l := loop_run evs (loop_start now d) in
  lp_runs l <= 1 + countb is_wake evs + (lp_now l - now) / minInterval.
Proof.
  intros l. destruct (loop_run_inv now evs 0 (loop_start now d) ltac:(lia) (loop_start_inv now d)) as [Hi Ht (taken & fired & H1 & H2 & H3 & H4)].
  fold l in Hi, Ht, H3, H4. assert (Hf : fired <= (lp_now l - now) / minInterval).
  { apply Z.div_le_lower_bound; [unfold minInterval; lia|]. destruct (lp_due l); lia. }
  destruct (lp_token l), (lp_due l); cbn in H3; lia.
Qed.

(** the loop is live.  Once the time of its interval has passed since it armed
    the timer, or as soon as a configuration change has filled the slot, it does its
    work again; no wake is lost, however many changes share the one slot. *)
Theorem loop_is_live l dt : 0 <= dt ->
  (forall d, lp_due l = Some d -> lp_token l = true \/ d <= lp_now l + dt) ->
  lp_runs (loop_run [LTime dt; LFire; LTake; LWork] l) = lp_runs l + 1 /\
  (lp_token l = true -> lp_due l <> None -> dt = 0 -> lp_runs (loop_run [LTake; LWork] l) = lp_runs l + 1) /\
  lp_due (loop_run [LTime dt; LFire; LTake; LWork] l) = Some (lp_now l + dt + lp_interval l).
Proof.
  intros Hdt H. destruct l as [now i tok due runs]. cbn [lp_due lp_token lp_now] in H.
  unfold loop_run. cbn [foldl]. cbn [loop_step lp_now lp_interval lp_token lp_due lp_runs]. rewrite Z.max_r by done.
  destruct due as [d|]; cbn [lp_due lp_now].
  - specialize (H d eq_refl). destruct (Z.leb_spec d (now + dt)); cbn; [by destruct tok|].
    destruct H as [->|H]; [|lia]. done.
  - repeat split; try done.
Qed.
Lemma loop_is_live_witness :
  let l := loop_step (loop_step (loop_start 0 (-5)) LWork) (LSet 60000000000) in
  lp_runs (loop_run [LTime 0; LFire; LTake; LWork] l) = 2.
Proof.
  intros l. assert (H : forall d, lp_due l = Some d -> lp_token l = true \/ d <= lp_now l + 0) by (intros d _; left; reflexivity).
  exact (proj1 (loop_is_live l 0 (Z.le_refl 0) H)).
Defined.
