(* ===== verification/Health.v ===== *)
(** * Service health: [internal/health/checker.go]

    The checker's table of per-service entries, the probe, and one cycle over the
    registry's services.  The network is a parameter of each cycle, as is the order
    in which the workers' results land.  The loop that repeats the cycle is
    [Ticker]. *)
From S2P Require Import Prelude GoStr Model Ticker.

Definition failuresToDown : Z := 2.
Definition successesToUp : Z := 1.
Inductive HealthState := StateUp | StateDown | StateUnknown.
#[export] Instance HealthState_eq_dec : EqDecision HealthState.
Proof. solve_decision. Defined.
Record HealthStatus := mkHS { hs_ServiceID : Z; hs_Name : string; hs_State : HealthState; hs_Since : Z; hs_LastError : string }.
Record health_entry := mkHE { he_status : HealthStatus; he_failures : Z; he_successes : Z }.
Record Checker := mkChecker { hc_interval : Z; hc_timeout : Z; hc_workers : Z; hc_entries : gmap Z health_entry }.

(** [Reconfigure]; the wake it queues is [LSet] of the loop. *)
Definition Reconfigure (interval timeout workers : Z) (c : Checker) : Checker :=
  mkChecker (clampInterval interval) timeout (if workers <? 1 then 8 else workers) (hc_entries c).
Definition NewChecker (interval timeout workers : Z) : Checker := Reconfigure interval timeout workers (mkChecker 0 0 0 ∅).

(** ** The probe: what the network answers within the timeout is the parameter *)
Record Network := mkNetwork {
  net_tcp : Z -> string -> option string;                     (* dial and close: an error or none *)
  net_http : Z -> string -> bool -> result string (Z * string) }. (* a GET: status code and text *)
Definition probe (n : Network) (timeout : Z) (target : string) (insecure : bool) : option string :=
  if HasPrefix target "tcp://" then net_tcp n timeout (TrimPrefix target "tcp://")
  else match net_http n timeout target insecure with
       | Err e => Some e
       | Ok (code, text) => if 400 <=? code then Some ("status " +:+ text) else None
       end.

Inductive probe_outcome := NoTarget | Healthy | Failed (e : string).
#[export] Instance probe_outcome_eq_dec : EqDecision probe_outcome.
Proof. solve_decision. Defined.
Definition probe_service (n : Network) (timeout : Z) (svc : Service) : probe_outcome :=
  if bool_decide (TrimSpace (s_CheckURL svc) = "") then NoTarget
  else match probe n timeout (s_CheckURL svc) (s_CheckInsecure svc) with None => Healthy | Some e => Failed e end.

(** ** [record]: the hysteresis *)
Definition new_entry (now : Z) (svc : Service) : health_entry := mkHE (mkHS (s_ID svc) "" StateUnknown now "") 0 0.
Definition record_entry (now : Z) (svc : Service) (o : probe_outcome) (e : health_entry) : health_entry :=
  let s := he_status e in
  let '(state, err, failures, successes) :=
    match o with
    | NoTarget => (StateUnknown, "", 0, 0)
    | Healthy => (if successesToUp <=? he_successes e + 1 then StateUp else hs_State s, "", 0, he_successes e + 1)
    | Failed err => (if failuresToDown <=? he_failures e + 1 then StateDown else hs_State s, err, he_failures e + 1, 0)
    end in
  mkHE (mkHS (hs_ServiceID s) (s_Name svc) state (if bool_decide (state = hs_State s) then hs_Since s else now) err) failures successes.
Definition record_probe (now : Z) (svc : Service) (o : probe_outcome) (es : gmap Z health_entry) : gmap Z health_entry :=
  <[s_ID svc := record_entry now svc o (default (new_entry now svc) (es !! s_ID svc))]> es.

(** ** One cycle: [landed] are the services whose probes were handed to a worker, in
    the order their results landed; a cancelled cycle hands out a prefix only. *)
Definition drop_gone (svcs : list Service) (es : gmap Z health_entry) : gmap Z health_entry :=
  filter (fun x => x.1 ∈ (s_ID <$> svcs)) es.
Definition CheckOnce {E} (svcs : result E (list Service)) (landed : list Service) (n : Network) (clock : Z -> Z) (c : Checker) : Checker :=
  match svcs with
  | Err _ => c
  | Ok svcs =>
      mkChecker (hc_interval c) (hc_timeout c) (hc_workers c)
        (foldl (fun es svc => record_probe (clock (s_ID svc)) svc (probe_service n (hc_timeout c) svc) es) (drop_gone svcs (hc_entries c)) landed)
  end.
Definition Statuses (c : Checker) : list HealthStatus := (fun x => he_status x.2) <$> map_to_list (hc_entries c).

(** ** Lemmas: the table *)
Lemma lookup_drop_gone svcs es id : drop_gone svcs es !! id = if bool_decide (id ∈ (s_ID <$> svcs)) then es !! id else None.
Proof.
  unfold drop_gone. case_bool_decide as H.
  - destruct (es !! id) as [e|] eqn:E; [by apply map_lookup_filter_Some|]. apply map_lookup_filter_None. by left.
  - apply map_lookup_filter_None. right. intros e _. done.
Qed.
Lemma lookup_landed n t clock landed : NoDup (s_ID <$> landed) -> forall (es : gmap Z health_entry) id,
  foldl (fun es svc => record_probe (clock (s_ID svc)) svc (probe_service n t svc) es) es landed !! id =
  match find (fun svc => s_ID svc =? id) landed with
  | Some svc => Some (record_entry (clock id) svc (probe_service n t svc) (default (new_entry (clock id) svc) (es !! id)))
  | None => es !! id
  end.
Proof.
  induction landed as [|svc l IH]; intros Hnd es id; [done|]. cbn [fmap list_fmap] in Hnd. apply NoDup_cons in Hnd as [Hx Hnd].
  cbn [foldl]. change (find ?p (svc :: l)) with (if p svc then Some svc else find p l). cbv beta. rewrite IH by done. unfold record_probe.
  destruct (Z.eqb_spec (s_ID svc) id) as [<-|Hne].
  - replace (find (fun x => s_ID x =? s_ID svc) l) with (@None Service); [by rewrite lookup_insert_eq|].
    symmetry. destruct (find _ l) as [y|] eqn:F; [|done]. apply find_some in F as [Hy Hs]. apply Z.eqb_eq in Hs.
    exfalso. apply Hx. rewrite <- Hs. apply list_elem_of_fmap_2, list_elem_of_In, Hy.
  - by rewrite lookup_insert_ne by done.
Qed.
Lemma find_by_id (l : list Service) svc : NoDup (s_ID <$> l) -> svc ∈ l -> find (fun x => s_ID x =? s_ID svc) l = Some svc.
Proof.
  induction l as [|x l IH]; intros Hnd Hin; [by apply not_elem_of_nil in Hin|]. cbn [fmap list_fmap] in Hnd.
  apply NoDup_cons in Hnd as [Hx Hnd]. change (find ?p (x :: l)) with (if p x then Some x else find p l). cbv beta.
  apply elem_of_cons in Hin as [->|Hin]; [by rewrite Z.eqb_refl|].
  destruct (Z.eqb_spec (s_ID x) (s_ID svc)) as [E|_]; [|by apply IH]. destruct Hx. rewrite E. by apply list_elem_of_fmap_2.
Qed.

(** ** What a state means *)
Definition is_failure (o : probe_outcome) : bool := match o with Failed _ => true | _ => false end.
Fixpoint leading_failures (l : list probe_outcome) : nat :=
  match l with o :: l' => if is_failure o then S (leading_failures l') else O | [] => O end.
(** The state after a history, newest outcome first: down after two failures in a
    row, otherwise what the newest outcome that was not a failure says. *)
Definition health_spec (newest_first : list probe_outcome) : HealthState :=
  let k := leading_failures newest_first in
  if (2 <=? k)%nat then StateDown
  else match drop k newest_first with Healthy :: _ => StateUp | _ => StateUnknown end.

(** The counters follow the history. *)
Record follows (h : list probe_outcome) (e : health_entry) : Prop := mkFollows {
  fo_state : hs_State (he_status e) = health_spec h;
  fo_failures : he_failures e = Z.of_nat (leading_failures h);
  fo_successes : 0 <= he_successes e;
  fo_error : hs_LastError (he_status e) = match h with Failed err :: _ => err | _ => "" end }.
Lemma follows_new now svc : follows [] (new_entry now svc).
Proof. by constructor. Qed.
Lemma follows_record now svc o h e : follows h e -> follows (o :: h) (record_entry now svc o e).
Proof.
  intros [H1 H2 H3 H4]. unfold record_entry. destruct o as [| |err]; constructor; cbn -[health_spec Z.add]; try done; try lia.
  - destruct (Z.leb_spec successesToUp (he_successes e + 1)); [done|unfold successesToUp in *; lia].
  - unfold failuresToDown. rewrite H2. unfold health_spec at 1. cbn [leading_failures is_failure drop].
    destruct (Z.leb_spec 2 (Z.of_nat (leading_failures h) + 1)), (Nat.leb_spec 2 (S (leading_failures h))); try lia; [done|].
    rewrite H1. unfold health_spec. destruct (Nat.leb_spec 2 (leading_failures h)); [lia|done].
Qed.

(** ** Histories of cycles *)
(** One complete cycle: the registry's services, the order in which the results
    landed, what the network answered, and the configuration in force. *)
Record Cycle := mkCycle { cy_svcs : list Service; cy_landed : list Service; cy_net : Network; cy_clock : Z -> Z;
  cy_interval : Z; cy_timeout : Z; cy_workers : Z }.
Definition run_cycle (c : Checker) (cy : Cycle) : Checker :=
  CheckOnce (E := unit) (Ok (cy_svcs cy)) (cy_landed cy) (cy_net cy) (cy_clock cy) (Reconfigure (cy_interval cy) (cy_timeout cy) (cy_workers cy) c).
Definition complete (cy : Cycle) : Prop := NoDup (s_ID <$> cy_svcs cy) /\ cy_landed cy ≡ₚ cy_svcs cy.
Definition cycle_outcome (id : Z) (cy : Cycle) : option probe_outcome :=
  probe_service (cy_net cy) (cy_timeout cy) <$> find (fun svc => s_ID svc =? id) (cy_svcs cy).
(** The outcomes of a service since it was last missing, newest first. *)
Fixpoint since_listed (id : Z) (newest_first : list Cycle) : list probe_outcome :=
  match newest_first with
  | [] => []
  | cy :: rest => match cycle_outcome id cy with Some o => o :: since_listed id rest | None => [] end
  end.
Definition table_follows (h : list Cycle) (c : Checker) : Prop := forall id,
  match hc_entries c !! id with
  | None => since_listed id h = []
  | Some e => follows (since_listed id h) e /\ since_listed id h <> [] /\ hs_ServiceID (he_status e) = id
  end.
Lemma find_perm (l l' : list Service) id : NoDup (s_ID <$> l') -> l ≡ₚ l' ->
  find (fun svc => s_ID svc =? id) l = find (fun svc => s_ID svc =? id) l'.
Proof.
  intros Hnd Hp. assert (Hnd' : NoDup (s_ID <$> l)) by (by rewrite Hp).
  destruct (find _ l) as [x|] eqn:F.
  - apply find_some in F as [Hx E]. apply Z.eqb_eq in E as <-. symmetry. apply find_by_id; [done|].
    rewrite <- Hp. by apply list_elem_of_In.
  - symmetry. destruct (find _ l') as [x|] eqn:F'; [|done]. apply find_some in F' as [Hx E].
    pose proof (find_none _ _ F x) as Hn. cbv beta in Hn. rewrite Hn in E; [done|]. apply list_elem_of_In. rewrite Hp. by apply list_elem_of_In.
Qed.
Lemma find_listed (l : list Service) id : is_Some (find (fun svc => s_ID svc =? id) l) <-> id ∈ (s_ID <$> l).
Proof.
  split.
  - intros [x F]. apply find_some in F as [Hx E]. apply Z.eqb_eq in E as <-. by apply list_elem_of_fmap_2, list_elem_of_In.
  - intros H. apply list_elem_of_fmap in H as (x & -> & Hx). destruct (find _ l) as [y|] eqn:F; [by exists y|].
    pose proof (find_none _ _ F x) as Hn. cbv beta in Hn. rewrite Z.eqb_refl in Hn. by apply list_elem_of_In, Hn in Hx.
Qed.
Lemma run_cycle_follows h c cy : complete cy -> table_follows h c -> table_follows (cy :: h) (run_cycle c cy).
Proof.
  intros [Hnd Hp] H id. specialize (H id). unfold run_cycle, CheckOnce. cbn [hc_entries hc_timeout Reconfigure].
  rewrite lookup_landed by (by rewrite Hp). rewrite (find_perm (cy_landed cy) (cy_svcs cy)) by done. rewrite lookup_drop_gone.
  cbn [since_listed]. unfold cycle_outcome. pose proof (find_listed (cy_svcs cy) id) as Hl.
  destruct (find _ (cy_svcs cy)) as [svc|] eqn:F; cbn [fmap option_fmap option_map].
  - assert (Hs : s_ID svc = id) by (apply find_some in F as [_ E]; by apply Z.eqb_eq in E).
    rewrite bool_decide_eq_true_2 by (apply Hl; by eexists). destruct (hc_entries c !! id) as [e|]; cbn [default from_option].
    + destruct H as (H1 & H2 & H3). split; [by apply follows_record|]. split; [done|]. unfold record_entry. by destruct (probe_service _ _ _).
    + rewrite H. split; [apply follows_record, follows_new|]. split; [done|]. unfold record_entry. by destruct (probe_service _ _ _).
  - rewrite bool_decide_eq_false_2; [done|]. intros [? [=]]%Hl.
Qed.
Lemma run_cycles_follow cs : forall h c, Forall complete cs -> table_follows h c -> table_follows (rev cs ++ h) (foldl run_cycle c cs).
Proof.
  induction cs as [|cy cs IH]; intros h c Hc H; [done|]. apply Forall_cons in Hc as [Hcy Hc]. cbn [foldl rev].
  rewrite <- app_assoc. by apply IH, run_cycle_follows.
Qed.
Lemma table_follows_new i t w : table_follows [] (NewChecker i t w).
Proof. intros id. cbn. by rewrite lookup_empty. Qed.

(** C28: what the checker reports is a function of the probes alone.  After any
    sequence of complete cycles, in whatever order the workers' results landed, a
    service has a status exactly when the last cycle listed it, and its state and
    error are those of the reference definition on its outcomes since it was last
    missing: down after two failures in a row, otherwise what the last outcome that
    was not a failure says. *)
Theorem status_follows_history i t w cs id : Forall complete cs ->
  let h := since_listed id (rev cs) in
  match hc_entries (foldl run_cycle (NewChecker i t w) cs) !! id with
  | None => h = []
  | Some e => h <> [] /\ hs_ServiceID (he_status e) = id /\ hs_State (he_status e) = health_spec h /\
      hs_LastError (he_status e) = match h with Failed err :: _ => err | _ => "" end
  end.
Proof.
  intros Hc h. pose proof (run_cycles_follow cs [] _ Hc (table_follows_new i t w) id) as H. rewrite app_nil_r in H. fold h in H.
  destruct (_ !! id) as [e|]; [|done]. destruct H as ([H1 _ _ H4] & H2 & H3). done.
Qed.

(** an outage is reported by the second cycle that sees it and a recovery by the
    first, whatever happened before; a service that left the registry has no status
    after the next cycle. *)
Theorem outage_reported_in_two_cycles i t w cs c1 c2 svc : Forall complete (cs ++ [c1; c2]) ->
  let st cs := hs_State ∘ he_status <$> hc_entries (foldl run_cycle (NewChecker i t w) cs) !! s_ID svc in
  ((exists e1 e2, cycle_outcome (s_ID svc) c1 = Some (Failed e1) /\ cycle_outcome (s_ID svc) c2 = Some (Failed e2)) ->
     st (cs ++ [c1; c2]) = Some StateDown) /\
  (cycle_outcome (s_ID svc) c2 = Some Healthy -> st (cs ++ [c1; c2]) = Some StateUp) /\
  ((s_ID svc ∉ (s_ID <$> cy_svcs c2)) -> st (cs ++ [c1; c2]) = None).
Proof.
  intros Hc st. pose proof (run_cycles_follow (cs ++ [c1; c2]) [] _ Hc (table_follows_new i t w) (s_ID svc)) as H.
  rewrite app_nil_r, rev_app_distr in H. cbn [rev app since_listed] in H. unfold st.
  destruct (hc_entries _ !! s_ID svc) as [e|]; cbn [fmap option_fmap option_map compose].
  - destruct H as ([H1 _ _ _] & H2 & _). rewrite H1. split; [|split].
    + intros (e1 & e2 & E1 & E2). by rewrite E2, E1.
    + intros E2. by rewrite E2.
    + intros Hn. unfold cycle_outcome in H2. destruct (find _ (cy_svcs c2)) as [x|] eqn:F; [|done]. destruct Hn. apply find_listed. by eexists.
  - split; [|split].
    + intros (e1 & e2 & E1 & E2). rewrite E2 in H. discriminate H.
    + intros E2. rewrite E2 in H. discriminate H.
    + done.
Qed.

(** ** A concrete history *)
Definition ex_svc : Service := mkService 7 "nas" [] [] "tcp://10.0.0.2:22" false "" false "".
Definition ex_net (up : bool) : Network := mkNetwork (fun _ _ => if up then None else Some "refused") (fun _ _ _ => Err "no route").
Definition ex_cycle (up : bool) (at_ : Z) : Cycle := mkCycle [ex_svc] [ex_svc] (ex_net up) (fun _ => at_) 30 5 8.
Lemma ex_cycle_complete up at_ : complete (ex_cycle up at_).
Proof. split; [apply NoDup_singleton|done]. Qed.
Lemma status_follows_history_witness :
  since_listed 7 (rev [ex_cycle true 1; ex_cycle false 2; ex_cycle false 3]) = [Failed "refused"; Failed "refused"; Healthy] /\
  match hc_entries (foldl run_cycle (NewChecker 30 5 8) [ex_cycle true 1; ex_cycle false 2; ex_cycle false 3]) !! 7 with
  | None => False
  | Some e => hs_State (he_status e) = health_spec [Failed "refused"; Failed "refused"; Healthy] /\ hs_Since (he_status e) = 3
  end.
Proof.
  assert (H : Forall complete [ex_cycle true 1; ex_cycle false 2; ex_cycle false 3]) by (repeat (apply Forall_cons; split; [apply ex_cycle_complete|]); constructor).
  pose proof (status_follows_history 30 5 8 _ 7 H) as S. split; [vm_compute; reflexivity|].
  cbv zeta in S. destruct (hc_entries _ !! 7) as [e|] eqn:E; [|vm_compute in E; discriminate E].
  split; [exact (proj1 (proj2 (proj2 S)))|]. vm_compute in E. injection E as <-. reflexivity.
Defined.
Lemma outage_reported_in_two_cycles_witness :
  hs_State ∘ he_status <$> hc_entries (foldl run_cycle (NewChecker 30 5 8) ([ex_cycle true 1] ++ [ex_cycle false 2; ex_cycle false 3])) !! s_ID ex_svc = Some StateDown.
Proof.
  assert (H : Forall complete ([ex_cycle true 1] ++ [ex_cycle false 2; ex_cycle false 3])) by (repeat (apply Forall_cons; split; [apply ex_cycle_complete|]); constructor).
  apply (proj1 (outage_reported_in_two_cycles 30 5 8 [ex_cycle true 1] (ex_cycle false 2) (ex_cycle false 3) ex_svc H)).
  exists "refused", "refused". split; vm_compute; reflexivity.
Defined.
