(* ===== verification/Discovery.v ===== *)
(** * Discovery: [internal/discovery] and [internal/discovery/dhcp]

    The dnsmasq lease file, and the poller that publishes whatever source is
    configured: a lease file, the built-in DHCP server, or none.  A file is the
    bytes that can be read and the error that ended the reading, if any.  The loop
    that polls is [Ticker]; logging is not modelled, skip reasons are. *)
From S2P Require Import Prelude GoStr NetIP NetIPPrint Ticker DhcpAlloc DhcpReserve DhcpServer.

(** ** dnsmasq.go *)
(** [bufio.Scanner] over lines: a line of 64 KiB or more ends the scan with an
    error, one carriage return at the end of a line is dropped, and so is an empty
    last piece. *)
Definition maxScanToken : Z := 65536.
Definition newline_byte : ascii := chr 10.
Definition drop_cr (l : list ascii) : list ascii :=
  match rev l with c :: r => if bool_decide (c = chr 13) then rev r else l | [] => [] end.
Definition raw_lines (l : list ascii) : list (list ascii) :=
  let ps := split_by (is_byte newline_byte) l in
  if bool_decide (last ps = Some []) then removelast ps else ps.
Fixpoint scan_lines (ls : list (list ascii)) : list (list ascii) * bool :=
  match ls with
  | [] => ([], false)
  | l :: ls' => if maxScanToken <=? Z.of_nat (length l) then ([], true)
                else let '(ts, e) := scan_lines ls' in (drop_cr l :: ts, e)
  end.

Inductive skip_why := TooFewFields (n : Z) | BadExpiry | Expired | NotAnAddress | BadLabel | DuplicateName (prev mac : string) | ReadError.
Inductive skip := Skip (line : Z) (why : skip_why).
Definition validLabel (s : string) : bool := label_ok s.
(** [time.Unix(epoch, 0)], whose seconds since the year 1 wrap. *)
Definition unixToInternal : Z := 62135596800.
Definition time_unix64 (epoch : Z) : Z := seconds (int64 (epoch + unixToInternal) - unixToInternal).

(** What one line is: nothing to report, a reason to skip it, or a lease. *)
Inductive dnsmasq_line := Blank | Skipped (w : skip_why) | Accepted (l : SourceLease).
Definition parse_lease_line (now : Z) (raw : list ascii) : dnsmasq_line :=
  let text := TrimSpace (str raw) in
  if bool_decide (text = "") || HasPrefix text "#" then Blank
  else match Fields text with
  | f0 :: f1 :: f2 :: f3 :: _ =>
      match ParseInt f0 with
      | None => Skipped BadExpiry
      | Some epoch =>
          let expires := time_unix64 epoch in
          if negb (epoch =? 0) && (expires <=? now) then Skipped Expired
          else match ParseAddr f2 with
          | None => Skipped NotAnAddress
          | Some addr =>
              let host := ToLower f3 in
              if bool_decide (host = "*") then Blank
              else if negb (validLabel host) then Skipped BadLabel
              else Accepted (mkSourceLease f1 (addr_string addr) host expires)
          end
      end
  | fs => Skipped (TooFewFields (Z.of_nat (length fs)))
  end.

Record parse_state := mkParse { ps_newest : gmap string SourceLease; ps_order : list string; ps_skipped : list skip }.
Definition keep_newest (line : Z) (l : SourceLease) (s : parse_state) : parse_state :=
  match ps_newest s !! sl_Hostname l with
  | Some prev =>
      let sk := ps_skipped s ++ [Skip line (DuplicateName (sl_MAC prev) (sl_MAC l))] in
      if sl_Expires prev <? sl_Expires l then mkParse (<[sl_Hostname l := l]> (ps_newest s)) (ps_order s) sk
      else mkParse (ps_newest s) (ps_order s) sk
  | None => mkParse (<[sl_Hostname l := l]> (ps_newest s)) (ps_order s ++ [sl_Hostname l]) (ps_skipped s)
  end.
Definition parse_step (now : Z) (s : parse_state) (x : Z * list ascii) : parse_state :=
  match parse_lease_line now x.2 with
  | Blank => s
  | Skipped w => mkParse (ps_newest s) (ps_order s) (ps_skipped s ++ [Skip x.1 w])
  | Accepted l => keep_newest x.1 l s
  end.
Definition numbered {A} (l : list A) : list (Z * A) := imap (fun i x => (Z.of_nat i + 1, x)) l.
Definition ParseDnsmasq (content : list ascii) (ioerr : bool) (now : Z) : list SourceLease * list skip :=
  let '(lines, toolong) := scan_lines (raw_lines content) in
  let s := foldl (parse_step now) (mkParse ∅ [] []) (numbered lines) in
  let sk := ps_skipped s ++ (if toolong || ioerr then [Skip 0 ReadError] else []) in
  (omap (fun h => ps_newest s !! h) (ps_order s), sk).

(** A file system as [DnsmasqSource] sees it: opening fails, or the bytes come. *)
Definition DnsmasqLeases (file : result string (list ascii * bool)) (now : Z) : result string (list SourceLease) :=
  match file with
  | Err e => Err e
  | Ok (content, ioerr) => Ok (ParseDnsmasq content ioerr now).1
  end.

(** ** poller.go *)
(** What the poller asks of a source. *)
Class LeaseSource (Src : Type) := { src_Leases : Src -> result string (list SourceLease) }.
Definition digest (ls : list SourceLease) : string :=
  foldr (fun l acc => sl_Hostname l +:+ "=" +:+ sl_IP l +:+ ";" +:+ acc) "" ls.
(** [po_changes] counts the calls of [onChange]. *)
Record Poller (Src : Type) := mkPoller { po_src : option Src; po_leases : list SourceLease; po_digest : string; po_changes : Z }.
Arguments mkPoller {Src}. Arguments po_src {Src}. Arguments po_leases {Src}. Arguments po_digest {Src}. Arguments po_changes {Src}.

Section Poller.
Context {Src : Type} `{LS : LeaseSource Src}.
Definition NewPoller (src : option Src) : Poller Src := mkPoller src [] "" 0.
Definition SetSource (src : option Src) (p : Poller Src) : Poller Src := mkPoller src (po_leases p) (po_digest p) (po_changes p).
Definition Enabled (p : Poller Src) : bool := bool_decide (is_Some (po_src p)).
(** The two halves of a cycle: reading the source, and publishing under the lock. *)
Definition read_source (src : option Src) : result string (list SourceLease) :=
  match src with Some s => src_Leases s | None => Ok [] end.
Definition publish_leases (ls : list SourceLease) (p : Poller Src) : Poller Src :=
  if bool_decide (digest ls = po_digest p) then p
  else mkPoller (po_src p) ls (digest ls) (po_changes p + 1).
Definition Poll (p : Poller Src) : Poller Src * result string unit :=
  match read_source (po_src p) with
  | Err e => (p, Err e)
  | Ok ls => (publish_leases ls p, Ok tt)
  end.
Definition PollerLeases (p : Poller Src) : list SourceLease := po_leases p.
End Poller.

(** ** Lemmas: the lease file *)
Definition accepted (now : Z) (lines : list (list ascii)) : list SourceLease :=
  omap (fun l => match parse_lease_line now l with Accepted x => Some x | _ => None end) lines.
(** The table after the accepted lines [acc]: every name once, in order of first
    appearance, each with a lease that expires last among the lines claiming it. *)
Record table_of (acc : list SourceLease) (s : parse_state) : Prop := mkTableOf {
  to_nodup : NoDup (ps_order s);
  to_order : forall h, h ∈ ps_order s <-> exists l, l ∈ acc /\ sl_Hostname l = h;
  to_newest : forall h l, ps_newest s !! h = Some l -> h ∈ ps_order s;
  to_best : forall h, h ∈ ps_order s -> exists l, ps_newest s !! h = Some l /\ l ∈ acc /\ sl_Hostname l = h /\
    forall l', l' ∈ acc -> sl_Hostname l' = h -> sl_Expires l' <= sl_Expires l }.
Lemma keep_newest_table line acc l s : table_of acc s -> table_of (acc ++ [l]) (keep_newest line l s).
Proof.
  intros [Hnd Ho Hn Hb]. unfold keep_newest. destruct (ps_newest s !! sl_Hostname l) as [prev|] eqn:P.
  - assert (Hin : sl_Hostname l ∈ ps_order s) by (by eapply Hn).
    assert (Ho' : forall h, h ∈ ps_order s <-> exists x, x ∈ acc ++ [l] /\ sl_Hostname x = h).
    { intros h. rewrite Ho. split.
      - intros (x & Hx & E). exists x. split; [apply elem_of_app; by left|done].
      - intros (x & Hx & E). apply elem_of_app in Hx as [Hx|Hx]; [by exists x|]. apply list_elem_of_singleton in Hx as ->.
        rewrite <- E. by apply Ho. }
    destruct (Hb _ Hin) as (q & Q & Hq & Eq & Hmax). rewrite P in Q. injection Q as <-.
    destruct (Z.ltb_spec (sl_Expires prev) (sl_Expires l)); constructor; cbn [ps_newest ps_order]; try done.
    + intros h x. destruct (decide (h = sl_Hostname l)) as [->|Hne]; [done|]. rewrite lookup_insert_ne by done. apply Hn.
    + intros h Hh. destruct (decide (h = sl_Hostname l)) as [->|Hne].
      * rewrite lookup_insert_eq. exists l. split; [done|]. split; [apply elem_of_app; right; by left|]. split; [done|].
        intros x Hx Ex. apply elem_of_app in Hx as [Hx|Hx%list_elem_of_singleton]; [specialize (Hmax x Hx Ex); lia|subst; lia].
      * rewrite lookup_insert_ne by done. destruct (Hb h Hh) as (x & X & Hx & Ex & Hm). exists x. split; [done|].
        split; [apply elem_of_app; by left|]. split; [done|]. intros y Hy Ey.
        apply elem_of_app in Hy as [Hy|Hy%list_elem_of_singleton]; [by apply Hm|congruence].
    + intros h Hh. destruct (Hb h Hh) as (x & X & Hx & Ex & Hm). exists x. split; [done|]. split; [apply elem_of_app; by left|].
      split; [done|]. intros y Hy Ey. apply elem_of_app in Hy as [Hy|Hy%list_elem_of_singleton]; [by apply Hm|]. subst y.
      rewrite <- Ey in X. rewrite P in X. injection X as <-. lia.
  - assert (Hnin : sl_Hostname l ∉ ps_order s) by (intros Hin; destruct (Hb _ Hin) as (q & Q & _); congruence).
    constructor; cbn [ps_newest ps_order].
    + apply NoDup_app. split; [done|]. split; [|apply NoDup_singleton]. intros x Hx ->%list_elem_of_singleton. done.
    + intros h. rewrite elem_of_app, list_elem_of_singleton, Ho. split.
      * intros [(x & Hx & E)| ->]; [exists x|exists l]; (split; [apply elem_of_app|done]); [by left|right; by left].
      * intros (x & Hx & E). apply elem_of_app in Hx as [Hx|Hx%list_elem_of_singleton]; [left; by exists x|right; by subst].
    + intros h x. rewrite elem_of_app, list_elem_of_singleton.
      destruct (decide (h = sl_Hostname l)) as [->|Hne]; [by right|]. rewrite lookup_insert_ne by done. intros Hx. left. by eapply Hn.
    + intros h. rewrite elem_of_app, list_elem_of_singleton. destruct (decide (h = sl_Hostname l)) as [->|Hne].
      * intros _. rewrite lookup_insert_eq. exists l. split; [done|]. split; [apply elem_of_app; right; by left|]. split; [done|].
        intros x Hx Ex. apply elem_of_app in Hx as [Hx|Hx%list_elem_of_singleton]; [|subst; lia]. destruct Hnin. apply Ho. by exists x.
      * intros [Hh|Hh]; [|done]. rewrite lookup_insert_ne by done. destruct (Hb h Hh) as (x & X & Hx & Ex & Hm). exists x.
        split; [done|]. split; [apply elem_of_app; by left|]. split; [done|]. intros y Hy Ey.
        apply elem_of_app in Hy as [Hy|Hy%list_elem_of_singleton]; [by apply Hm|congruence].
Qed.
Lemma parse_fold_table now lines : forall acc s i, table_of acc s ->
  table_of (acc ++ accepted now lines) (foldl (parse_step now) s (imap (fun j x => (Z.of_nat (i + j) + 1, x)) lines)).
Proof.
  induction lines as [|l lines IH]; intros acc s i H; [cbn; by rewrite app_nil_r|].
  cbn [imap foldl]. unfold accepted. rewrite omap_cons. fold (accepted now lines).
  assert (E : imap ((fun (j : nat) x => (Z.of_nat (i + j) + 1, x)) ∘ S) lines = imap (fun j x => (Z.of_nat (S i + j) + 1, x)) lines).
  { apply imap_ext. intros j x _. cbn. do 2 f_equal. lia. }
  rewrite E. unfold parse_step at 2. cbn [snd fst]. destruct (parse_lease_line now l) as [|w|x].
  - by apply IH.
  - apply IH. destruct H. by constructor.
  - change (x :: accepted now lines) with ([x] ++ accepted now lines). rewrite app_assoc. by apply IH, keep_newest_table.
Qed.
Lemma table_of_empty : table_of [] (mkParse ∅ [] []).
Proof.
  constructor; cbn; [constructor| | |].
  - intros h. split; [by intros ?%not_elem_of_nil|]. by intros (l & ?%not_elem_of_nil & _).
  - intros h l. by rewrite lookup_empty.
  - by intros h ?%not_elem_of_nil.
Qed.
(** What an accepted line promises. *)
Definition lease_valid (now : Z) (l : SourceLease) : Prop :=
  label_ok (sl_Hostname l) = true /\ (exists a, addr_wf a /\ Addr.IsValid a = true /\ sl_IP l = addr_string a) /\
  (now < sl_Expires l \/ sl_Expires l = time_unix64 0).
Lemma accepted_valid now lines l : l ∈ accepted now lines -> lease_valid now l.
Proof.
  intros Hl. apply list_elem_of_omap in Hl as (raw & _ & H). unfold parse_lease_line in H.
  destruct (_ || _); [done|]. destruct (Fields _) as [|f0 [|f1 [|f2 [|f3 fs]]]]; try done.
  destruct (ParseInt f0) as [epoch|]; [|done]. destruct (negb (epoch =? 0) && (time_unix64 epoch <=? now)) eqn:X; [done|].
  destruct (ParseAddr f2) as [a|] eqn:A; [|done]. case_bool_decide; [done|]. destruct (negb (validLabel (ToLower f3))) eqn:L; [done|].
  injection H as <-. apply negb_false_iff in L. apply ParseAddr_wf in A as [Hw Hv]. split; [done|]. split; [by exists a|].
  cbn [sl_Expires]. apply andb_false_iff in X as [X|X]; [right; apply negb_false_iff, Z.eqb_eq in X as ->; done|left; by apply Z.leb_gt in X].
Qed.

Lemma dnsmasq_publishes_newest_lemma content ioerr now :
  let acc := accepted now (scan_lines (raw_lines content)).1 in
  let out := (ParseDnsmasq content ioerr now).1 in
  NoDup (sl_Hostname <$> out) /\ (forall h, h ∈ (sl_Hostname <$> out) <-> h ∈ (sl_Hostname <$> acc)) /\
  forall l, l ∈ out -> l ∈ acc /\ lease_valid now l /\ forall l', l' ∈ acc -> sl_Hostname l' = sl_Hostname l -> sl_Expires l' <= sl_Expires l.
Proof.
  intros acc out. unfold ParseDnsmasq in out. unfold acc. destruct (scan_lines (raw_lines content)) as [lines toolong]. cbn [fst] in *.
  pose proof (parse_fold_table now lines [] _ 0%nat table_of_empty) as T. cbn [app] in T.
  change (imap (fun j x => (Z.of_nat (0 + j) + 1, x)) lines) with (numbered lines) in T.
  set (s := foldl (parse_step now) (mkParse ∅ [] []) (numbered lines)) in *. destruct T as [Hnd Ho Hn Hb].
  assert (Hout : sl_Hostname <$> out = ps_order s).
  { subst out. clear Ho Hnd Hn. assert (Hb' : forall h, h ∈ ps_order s -> exists l, ps_newest s !! h = Some l /\ sl_Hostname l = h).
    { intros h Hh. destruct (Hb h Hh) as (l & ? & _ & ? & _). by exists l. }
    clear Hb. induction (ps_order s) as [|h o IH]; [done|]. cbn [omap list_omap].
    destruct (Hb' h ltac:(left)) as (l & -> & E). cbn [fmap list_fmap]. rewrite E. f_equal. apply IH. intros x Hx. apply Hb'. by right. }
  rewrite Hout. split; [done|]. split.
  - intros h. rewrite Ho, list_elem_of_fmap. split; intros (l & H1 & H2); exists l; done.
  - intros l Hl. assert (Hh : sl_Hostname l ∈ ps_order s) by (rewrite <- Hout; by apply list_elem_of_fmap_2).
    apply list_elem_of_omap in Hl as (h & Hh' & Hl). destruct (Hb h Hh') as (q & Q & Hq & Eq & Hm). rewrite Hl in Q. injection Q as <-.
    split; [done|]. split; [by eapply accepted_valid|]. intros l' Hl' E. apply Hm; [done|congruence].
Qed.
(** what a lease file publishes.  Every name of an accepted line appears exactly
    once, in the order of first appearance, with a lease of that file that expires
    last among the lines claiming the name; every published lease has a valid label,
    a printed address, and has not expired unless it never does. *)
Theorem dnsmasq_publishes_newest content ioerr now :
  let acc := accepted now (scan_lines (raw_lines content)).1 in
  let out := (ParseDnsmasq content ioerr now).1 in
  NoDup (sl_Hostname <$> out) /\ (forall h, h ∈ (sl_Hostname <$> out) <-> h ∈ (sl_Hostname <$> acc)) /\
  forall l, l ∈ out -> l ∈ acc /\ lease_valid now l /\ forall l', l' ∈ acc -> sl_Hostname l' = sl_Hostname l -> sl_Expires l' <= sl_Expires l.
Proof. apply dnsmasq_publishes_newest_lemma. Qed.

(** ** Lemmas: the digest *)
(** The fields the digest can tell apart: labels and printed addresses are. *)
Definition digestible (l : SourceLease) : Prop := ("="%char ∉ bytes (sl_Hostname l)) /\ (";"%char ∉ bytes (sl_IP l)).
Definition named (ls : list SourceLease) : list (string * string) := (fun l => (sl_Hostname l, sl_IP l)) <$> ls.
Lemma split_at_byte (c : ascii) a b a' b' : c ∉ a -> c ∉ a' -> a ++ c :: b = a' ++ c :: b' -> a = a' /\ b = b'.
Proof.
  intros Ha Ha' E. pose proof (proj2 (cut_byte_some c (a ++ c :: b) a b) (conj eq_refl Ha)) as H.
  rewrite E, (proj2 (cut_byte_some c _ a' b')) in H by done. by injection H as -> ->.
Qed.
Lemma digest_cons l ls : digest (l :: ls) = sl_Hostname l +:+ "=" +:+ sl_IP l +:+ ";" +:+ digest ls.
Proof. done. Qed.
Lemma digest_named ls ls' : named ls = named ls' -> digest ls = digest ls'.
Proof.
  revert ls'. induction ls as [|l ls IH]; intros [|l' ls'] H; try done. cbn in H. injection H as H1 H2 H3.
  rewrite !digest_cons, H1, H2. by rewrite (IH ls' H3).
Qed.
Lemma digest_inj ls ls' : Forall digestible ls -> Forall digestible ls' -> digest ls = digest ls' -> named ls = named ls'.
Proof.
  revert ls'. induction ls as [|l ls IH]; intros [|l' ls'] Hl Hl' E; [done| | |].
  - apply (f_equal bytes) in E. rewrite digest_cons, !bytes_app in E. by destruct (bytes (sl_Hostname l')).
  - apply (f_equal bytes) in E. rewrite digest_cons, !bytes_app in E. by destruct (bytes (sl_Hostname l)).
  - apply Forall_cons in Hl as [[H1 H2] Hl], Hl' as [[H1' H2'] Hl']. rewrite !digest_cons in E.
    apply (f_equal bytes) in E. rewrite !bytes_app in E. apply split_at_byte in E as [E1 E]; [|done..].
    apply split_at_byte in E as [E2 E]; [|done..]. apply (inj bytes) in E1, E2, E. unfold named. cbn [fmap list_fmap].
    rewrite E1, E2. f_equal. by apply IH.
Qed.
Lemma label_digestible h : label_ok h = true -> "="%char ∉ bytes h.
Proof.
  intros (_ & _ & _ & _ & Hc)%label_ok_inv Hin. rewrite forallb_forall in Hc.
  apply list_elem_of_In, Hc in Hin. discriminate Hin.
Qed.
Lemma addr_digestible a : addr_wf a -> Addr.IsValid a = true -> Addr.has_zone a = false -> ";"%char ∉ bytes (addr_string a).
Proof. intros Hw Hv Hz. eapply addr_chars_not; [by apply addr_string_chars|done]. Qed.

Section PollerProps.
Context {Src : Type} `{LS : LeaseSource Src}.
(** The digest is that of the published leases, which the digest can tell apart. *)
Definition poller_ok (p : Poller Src) : Prop := po_digest p = digest (po_leases p) /\ Forall digestible (po_leases p).
Definition source_ok : Prop := forall (s : Src) ls, src_Leases s = Ok ls -> Forall digestible ls.
Lemma new_poller_ok src : poller_ok (NewPoller src).
Proof. by split. Qed.
Lemma read_source_ok src ls : source_ok -> read_source src = Ok ls -> Forall digestible ls.
Proof. intros Hs. destruct src as [s|]; [apply Hs|]. by intros [= <-]. Qed.
Lemma publish_leases_ok ls p : poller_ok p -> Forall digestible ls ->
  poller_ok (publish_leases ls p) /\ named (po_leases (publish_leases ls p)) = named ls /\
  po_changes (publish_leases ls p) = po_changes p + (if bool_decide (named ls = named (po_leases p)) then 0 else 1).
Proof.
  intros [Hd Hp] Hls. unfold publish_leases. destruct (bool_decide_reflect (digest ls = po_digest p)) as [E|E].
  - rewrite Hd in E. apply digest_inj in E; [|done..]. rewrite E, bool_decide_eq_true_2 by done. split; [done|]. split; [done|]. lia.
  - split; [done|]. split; [done|]. rewrite bool_decide_eq_false_2; [done|]. intros H. apply E. rewrite Hd. by apply digest_named.
Qed.

(** a poll publishes the names and addresses its source has, or keeps what it
    had.  A failed read changes nothing; a successful one leaves exactly the source's
    names and addresses published, none for no source, and tells the zone exactly when
    they changed. *)
Theorem poll_publishes_names p : source_ok -> poller_ok p ->
  let '(p', r) := Poll p in
  poller_ok p' /\ po_src p' = po_src p /\
  match read_source (po_src p) with
  | Err e => r = Err e /\ p' = p
  | Ok ls => r = Ok tt /\ named (po_leases p') = named ls /\
      po_changes p' = po_changes p + (if bool_decide (named ls = named (po_leases p)) then 0 else 1)
  end.
Proof.
  intros Hs Hp. unfold Poll. destruct (read_source (po_src p)) as [ls|e] eqn:E; [|done].
  pose proof (publish_leases_ok ls p Hp (read_source_ok _ _ Hs E)) as (H1 & H2 & H3). split; [done|].
  split; [unfold publish_leases; by destruct (bool_decide (digest ls = po_digest p))|]. done.
Qed.

(** A lease whose name and address stay is never published again, so its expiry and
    MAC stay those of the first poll that saw it. *)
Lemma unchanged_names_keep_old_leases p ls : source_ok -> poller_ok p ->
  read_source (po_src p) = Ok ls -> named ls = named (po_leases p) -> Poll p = (p, Ok tt).
Proof.
  intros Hs [Hd Hp] E N. unfold Poll. rewrite E. unfold publish_leases. rewrite bool_decide_eq_true_2; [done|].
  rewrite Hd. by apply digest_named.
Qed.
End PollerProps.

(** ** The sources *)
(** A lease file with what reading it now gives. *)
Record DnsmasqFile := mkDnsmasqFile { df_file : result string (list ascii * bool); df_now : Z }.
#[export] Instance dnsmasq_source : LeaseSource DnsmasqFile := {| src_Leases s := DnsmasqLeases (df_file s) (df_now s) |}.
(** The built-in server: its allocator and the clock. *)
Record BuiltinServer := mkBuiltin { bi_alloc : DhcpAlloc.Allocator; bi_now : Z }.
#[export] Instance builtin_source : LeaseSource BuiltinServer := {| src_Leases s := Ok (ServerLeases (bi_now s) (bi_alloc s)) |}.

Lemma good_server_digestible now c a : good_alloc c a -> Forall digestible (ServerLeases now a).
Proof.
  intros (Ha & _ & Hg & _). apply Forall_forall. intros x Hx. unfold ServerLeases, publish in Hx.
  apply list_elem_of_omap in Hx as (l & Hl & E). rewrite (merge_sort_Permutation lease_le) in Hl.
  apply (elem_of_Leases _ _ _ Ha) in Hl as [Hl _]. unfold source_lease in E. case_bool_decide as Hh; [done|]. injection E as <-.
  pose proof (Hg _ _ Hl) as G.
  destruct G as [(u & Hu & Hb) [Hn|Hn]]; [done|]. split; [by apply label_digestible|]. cbn [sl_IP]. rewrite Hu.
  by apply addr_digestible.
Qed.
(** The built-in server and a lease file whose addresses have no zone can be told
    apart by the digest. *)
Lemma dnsmasq_digestible f ls : DnsmasqLeases (df_file f) (df_now f) = Ok ls ->
  (forall l a, l ∈ ls -> sl_IP l = addr_string a -> Addr.has_zone a = false) -> Forall digestible ls.
Proof.
  unfold DnsmasqLeases. destruct (df_file f) as [[content ioerr]|e]; [|done]. intros [= <-] Hz. apply Forall_forall. intros l Hl.
  pose proof (dnsmasq_publishes_newest_lemma content ioerr (df_now f)) as (_ & _ & H). destruct (H l Hl) as (_ & (Hlab & (a & Hw & Hv & E) & _) & _).
  split; [by apply label_digestible|]. rewrite E. apply addr_digestible; [done|done|by eapply Hz].
Qed.

(** ** Concrete polls *)
Definition line_of (s : string) : list ascii := bytes s ++ [newline_byte].
Definition ex_file : list ascii :=
  line_of "2000 aa:00:00:00:00:01 192.168.1.10 NAS *" ++ line_of "# comment" ++ line_of "900 aa:00:00:00:00:02 192.168.1.11 old *"
  ++ line_of "3000 aa:00:00:00:00:03 192.168.1.12 nas *" ++ line_of "0 aa:00:00:00:00:04 192.168.1.13 nas *".
Example parse_ex_file : ParseDnsmasq ex_file false (seconds 1000) =
  ([mkSourceLease "aa:00:00:00:00:03" "192.168.1.12" "nas" (seconds 3000)],
   [Skip 3 Expired; Skip 4 (DuplicateName "aa:00:00:00:00:01" "aa:00:00:00:00:03"); Skip 5 (DuplicateName "aa:00:00:00:00:03" "aa:00:00:00:00:04")]).
Proof. by vm_compute. Qed.
(** A lease that never expires is written with the time zero, and so loses to every
    lease that does, even one that runs out first. *)
Lemma infinite_lease_loses :
  (ParseDnsmasq (line_of "0 aa:00:00:00:00:01 192.168.1.10 nas *" ++ line_of "1001 aa:00:00:00:00:02 192.168.1.11 nas *") false (seconds 1000)).1
  = [mkSourceLease "aa:00:00:00:00:02" "192.168.1.11" "nas" (seconds 1001)].
Proof. by vm_compute. Qed.
(** A file that opens but cannot be read is an empty file, and its names go. *)
Lemma unreadable_file_empties_zone :
  let p := mkPoller (Some (mkDnsmasqFile (Ok ([], true)) 0)) [mkSourceLease "aa:00:00:00:00:01" "192.168.1.10" "nas" 5]
    "nas=192.168.1.10;" 1 in
  po_leases (Poll p).1 = [] /\ (Poll p).2 = Ok tt.
Proof. by vm_compute. Qed.
(** Two polls that overlap, the loop's and the DHCP server's: the one that read
    first publishes last, and the newer name is gone until the next cycle. *)
Lemma overlapping_polls_go_backwards :
  let old := [mkSourceLease "m" "10.0.0.1" "a" 9] in
  let new := [mkSourceLease "m" "10.0.0.1" "a" 9; mkSourceLease "n" "10.0.0.2" "b" 9] in
  let p := publish_leases old (publish_leases new (mkPoller (Src := DnsmasqFile) None [] "" 0)) in
  named (po_leases p) = named old.
Proof. by vm_compute. Qed.
Definition ex_alloc_file : DnsmasqFile := mkDnsmasqFile (Ok (ex_file, false)) (seconds 1000).
Lemma poll_publishes_names_witness :
  let src := fun s : DnsmasqFile => Ok [mkSourceLease "m" "10.0.0.1" "a" (df_now s)] : result string (list SourceLease) in
  let p := @NewPoller DnsmasqFile (Some ex_alloc_file) in
  named (po_leases (@Poll DnsmasqFile (Build_LeaseSource _ src) p).1) = [("a", "10.0.0.1")].
Proof.
  intros src p. assert (Hs : @source_ok DnsmasqFile (Build_LeaseSource _ src)).
  { intros s ls H. unfold src_Leases, src in H. injection H as <-. constructor; [|constructor].
    split; apply (bool_decide_unpack _); vm_compute; exact I. }
  pose proof (@poll_publishes_names DnsmasqFile (Build_LeaseSource _ src) p Hs (new_poller_ok _)) as H.
  destruct (@Poll DnsmasqFile (Build_LeaseSource _ src) p) as [p' r]. destruct H as (_ & _ & H). cbn in H. exact (proj1 (proj2 H)).
Defined.
