(* ===== verification/ReplicaSync.v ===== *)
(** * A snapshot installs what it was read from

    The primary's half of replication, [storeSource.Snapshot] of
    [internal/app/replication.go], and the round trip: applying a snapshot on any
    replica succeeds and leaves it answering every read as the primary does, up to
    row ids and the columns that stay local. *)
From S2P Require Import Prelude GoStr Model Store StoreNode StoreVersion StoreWf StoreProps.

(** ** storeSource.Snapshot
    Every table is read by a statement of its own, so a write can land between two
    of them: [r i] is the database as the [i]th read sees it, the version first. *)
Definition SnapshotReads (r : nat -> DB) : option SnapshotInput :=
  match Services (r 2%nat), GetSettings (r 4%nat) with
  | Ok ss, Some set =>
      Some (mkSnapshotInput (Views (r 1%nat)) ss (Records (r 3%nat)) set (GetBlacklistSettings (r 5%nat)) (BlacklistListMetas (r 6%nat)) (BlacklistRules (r 7%nat)))
  | _, _ => None
  end.
(** The same over one state of the database. *)
Definition TakeSnapshot (db : DB) : option SnapshotInput := SnapshotReads (fun _ => db).

(** What two nodes agree on. *)
Definition address_content (a : Address) := (a_Address a, a_View a).
Definition service_content (s : Service) :=
  (s_Name s, address_content <$> s_Addresses s, s_Aliases s, (s_CheckURL s, s_CheckInsecure s, s_ProxyAddress s, s_RouteViaProxy s, s_MAC s)).
Definition content (s : SnapshotInput) :=
  (sn_Views s, service_content <$> sn_Services s, record_content <$> sn_Records s, replicated_settings (stored (sn_Settings s)),
   sn_Blacklist s, list_definition <$> sn_Lists s, rule_content <$> sn_Rules s).

(** ** The orders of the reads *)
Lemma str_le_antisym a b : str_le a b -> str_le b a -> a = b.
Proof. apply String.leb_antisym. Qed.
#[export] Instance row_name_le_trans : Transitive row_name_le.
Proof. intros a b c. unfold row_name_le. apply str_le_trans. Qed.
#[export] Instance row_name_le_total : Total row_name_le.
Proof. intros a b. apply str_le_total. Qed.
(** Ordering by a column, ties by another order. *)
Section lex.
Context {A : Type} (k : A -> string) (R : relation A) (HT : Transitive R) (HTot : Total R).
Definition lex (a b : A) : Prop := if bool_decide (k a = k b) then R a b else str_le (k a) (k b).
Lemma lex_trans : Transitive lex.
Proof using HT.
  intros a b c. unfold lex. destruct (bool_decide_reflect (k a = k b)) as [E1|E1], (bool_decide_reflect (k b = k c)) as [E2|E2],
    (bool_decide_reflect (k a = k c)) as [E3|E3]; intros L1 L2; try congruence.
  - by etrans.
  - exfalso. apply E1. apply str_le_antisym; congruence.
  - by etrans.
Qed.
Lemma lex_total : Total lex.
Proof using HTot.
  intros a b. unfold lex. destruct (bool_decide_reflect (k a = k b)) as [E1|E1], (bool_decide_reflect (k b = k a)) as [E2|E2];
    try congruence; [apply HTot|apply str_le_total].
Qed.
Lemma lex_key a b : (forall x y, R x y -> R y x -> k x = k y -> x = y) -> lex a b -> lex b a -> a = b.
Proof using Type.
  intros HR. unfold lex. destruct (bool_decide_reflect (k a = k b)) as [E1|E1], (bool_decide_reflect (k b = k a)) as [E2|E2];
    try congruence; [by auto|]. intros L1 L2. exfalso. by apply E1, str_le_antisym.
Qed.
End lex.
#[export] Instance rec_le_trans : Transitive rec_le.
Proof. apply (lex_trans r_Name), (lex_trans r_Type). intros x y z; cbv beta; lia. Qed.
#[export] Instance rec_le_total : Total rec_le.
Proof. apply (lex_total r_Name), (lex_total r_Type). intros x y; cbv beta; lia. Qed.
#[export] Instance rule_le_trans : Transitive rule_le.
Proof. apply (lex_trans br_Kind (fun a b => str_le (br_Domain a) (br_Domain b))). intros x y z. apply str_le_trans. Qed.
#[export] Instance rule_le_total : Total rule_le.
Proof. apply (lex_total br_Kind (fun a b => str_le (br_Domain a) (br_Domain b))). intros x y. apply str_le_total. Qed.
#[export] Instance list_le_trans : Transitive list_le.
Proof.
  intros a b c. unfold list_le. destruct (bl_Builtin a), (bl_Builtin b), (bl_Builtin c); cbn; try done; apply str_le_trans.
Qed.
#[export] Instance list_le_total : Total list_le.
Proof. intros a b. unfold list_le. destruct (bl_Builtin a), (bl_Builtin b); cbn; auto; apply str_le_total. Qed.

Lemma unique_row {A B} (f : A -> B) (L : list A) x y : NoDup (f <$> L) -> x ∈ L -> y ∈ L -> f x = f y -> x = y.
Proof.
  intros HL Hx Hy E. apply list_elem_of_lookup in Hx as [i Hi], Hy as [j Hj]. assert (i = j) as ->; [|congruence].
  eapply (NoDup_lookup (f <$> L)); [done|..]; rewrite list_lookup_fmap; [by rewrite Hi|by rewrite Hj, E].
Qed.

(** A sort has one result when a key that the order respects is unique. *)
Lemma merge_sort_unique {A B} (R : relation A) `{!RelDecision R} `{!Transitive R, !Total R} (key : A -> B) (l l' : list A) :
  (forall x y, R x y -> R y x -> key x = key y) -> NoDup (key <$> l) -> StronglySorted R l' -> l' ≡ₚ l -> merge_sort R l = l'.
Proof.
  intros Hk Hnd Hs Hp. apply (StronglySorted_unique_strong R); [|by apply StronglySorted_merge_sort|done|by rewrite merge_sort_Permutation].
  intros x y Hx Hy H1 H2. specialize (Hk x y H1 H2). rewrite merge_sort_Permutation in Hx. rewrite Hp in Hy.
  by apply (unique_row key l).
Qed.

(** Disjoint groups without repetitions; the groups of a table by a key whose values
    are unique are such. *)
Lemma NoDup_groups {B K} (g : K -> list B) (ks : list K) : NoDup ks -> (forall k, NoDup (g k)) ->
  (forall k k' y, y ∈ g k -> y ∈ g k' -> k = k') -> NoDup (mjoin (g <$> ks)).
Proof.
  intros Hk Hg Hd. induction ks as [|k ks IH]; [constructor|]. apply NoDup_cons in Hk as [Hn Hk].
  change (mjoin (g <$> k :: ks)) with (g k ++ mjoin (g <$> ks)). apply NoDup_app. split; [done|]. split; [|by apply IH].
  intros y Hy Hy'. apply list_elem_of_join in Hy' as (l & Hl & Hin). apply list_elem_of_fmap in Hin as (k' & -> & Hk').
  by rewrite (Hd k k' y) in Hn.
Qed.
Lemma groups_NoDup {A B K} `{EqDecision K} (key : A -> K) (f : A -> B) (L : list A) (ks : list K) :
  NoDup (f <$> L) -> NoDup ks -> NoDup (mjoin ((fun k => f <$> filter (fun x => key x = k) L) <$> ks)).
Proof.
  intros HL Hk. apply NoDup_groups; [done|intros k; by apply NoDup_fmap_filter'|].
  intros k k' y (x & -> & [Hx Hin]%list_elem_of_filter)%list_elem_of_fmap (x' & E & [Hx' Hin']%list_elem_of_filter)%list_elem_of_fmap.
  by rewrite <- Hx, <- Hx', (unique_row f L x x').
Qed.
Lemma filter_nil_not_elem_of_all {A} (P : A -> Prop) `{forall x, Decision (P x)} (l : list A) : (forall x, x ∈ l -> ~ P x) -> filter P l = [].
Proof.
  induction l as [|x l IH]; intros Hl; [done|]. rewrite filter_cons_False by (apply Hl; left). apply IH. intros y Hy. apply Hl. by right.
Qed.
Lemma mjoin_perm {A} (ls ls' : list (list A)) : Forall2 Permutation ls ls' -> mjoin ls ≡ₚ mjoin ls'.
Proof. induction 1 as [|x y xs ys Hxy _ IH]; [done|]. cbn. by rewrite Hxy, IH. Qed.

(** A table as groups of rows by a key. *)
Definition ungroup {K A} (gs : list (K * list A)) : list (K * A) := mjoin ((fun g => (g.1,.) <$> g.2) <$> gs).
Lemma ungroup_cons {K A} (g : K * list A) gs : ungroup (g :: gs) = ((g.1,.) <$> g.2) ++ ungroup gs.
Proof. done. Qed.
Lemma ungroup_app {K A} (gs gs' : list (K * list A)) : ungroup (gs ++ gs') = ungroup gs ++ ungroup gs'.
Proof. unfold ungroup. by rewrite fmap_app, join_app. Qed.
Lemma ungroup_key {K A} (gs : list (K * list A)) x : x ∈ ungroup gs -> x.1 ∈ gs.*1.
Proof.
  intros Hx. apply list_elem_of_join in Hx as (g & Hg & Hin). apply list_elem_of_fmap in Hin as (u & -> & Hu).
  apply list_elem_of_fmap in Hg as (y & -> & _). cbn. by apply (list_elem_of_fmap_2 fst).
Qed.
Lemma ungroup_filter {K A} `{EqDecision K} (gs : list (K * list A)) k xs : NoDup gs.*1 -> (k, xs) ∈ gs ->
  (filter (fun x => x.1 = k) (ungroup gs)).*2 = xs.
Proof.
  induction gs as [|[k' ys] gs IH]; intros Hnd Hin; [by apply not_elem_of_nil in Hin|].
  cbn [fmap list_fmap fst] in Hnd. apply NoDup_cons in Hnd as [Hk Hnd]. rewrite ungroup_cons, filter_app, fmap_app. cbn [fst snd].
  apply elem_of_cons in Hin as [[= <- <-]|Hin].
  - rewrite (filter_id (fun x : K * A => x.1 = k)) by (by intros ? (y & -> & _)%list_elem_of_fmap).
    rewrite (filter_nil_not_elem_of_all (fun x : K * A => x.1 = k)) by (intros x Hx%ungroup_key E; apply Hk; by rewrite <- E).
    rewrite app_nil_r, <- list_fmap_compose. apply list_fmap_id.
  - assert (Hne : k' <> k) by (intros ->; apply Hk; by apply (list_elem_of_fmap_2 fst) in Hin).
    rewrite (filter_nil_not_elem_of_all (fun x : K * A => x.1 = k)) by (by intros x (y & -> & _)%list_elem_of_fmap).
    by apply IH.
Qed.
(** Selecting the rows of one key after naming the key and the payload. *)
Lemma select_rows {R K A} `{EqDecision K} (key : R -> K) (f : R -> A) k (l : list R) :
  f <$> filter (fun x => key x = k) l = (filter (fun x => x.1 = k) ((fun x => (key x, f x)) <$> l)).*2.
Proof.
  induction l as [|x l IH]; [done|]. cbn [fmap list_fmap]. destruct (decide (key x = k)) as [E|E].
  - rewrite !filter_cons_True by done. cbn. by rewrite IH.
  - rewrite !filter_cons_False by done. done.
Qed.

(** ** Lemmas: installing views *)
Definition svc_tables (c : Conf) := (c_services c, c_addresses c, c_aliases c).
Lemma install_subnets n cs : forall c, NoDup cs -> (forall x, x ∈ cs -> x ∉ (c_subnets c).*2) ->
  exists c', foldR (insert_subnet n) c cs = Ok c' /\ c_views c' = c_views c /\ c_subnets c' = c_subnets c ++ ((n,.) <$> cs) /\
    svc_tables c' = svc_tables c.
Proof.
  induction cs as [|x cs IH]; intros c Hnd Hn; [exists c; by rewrite app_nil_r|]. apply NoDup_cons in Hnd as [Hx Hnd].
  cbn [foldR]. unfold insert_subnet at 1. rewrite bool_decide_eq_false_2 by (apply Hn; left). cbn [rbind].
  destruct (IH (with_subnets c (c_subnets c ++ [(n, x)]) 1) Hnd) as (c' & -> & Hv & Hs & Ht).
  - intros y Hy. cbn. rewrite fmap_app, not_elem_of_app. split; [apply Hn; by right|].
    intros ->%list_elem_of_singleton. done.
  - exists c'. split; [done|]. split; [done|]. split; [|done]. rewrite Hs. cbn. by rewrite <- app_assoc.
Qed.
Definition view_groups (vs : list View) : list (string * list string) := (fun v => (v_Name v, v_Subnets v)) <$> vs.
Lemma install_views vs : forall c, NoDup (v_Name <$> vs) -> NoDup (mjoin (v_Subnets <$> vs)) ->
  (forall v, v ∈ vs -> v_Name v ∉ c_views c) -> (forall x, x ∈ mjoin (v_Subnets <$> vs) -> x ∉ (c_subnets c).*2) ->
  (forall x, x ∈ c_subnets c -> x.1 ∈ c_views c) ->
  exists c', foldR (fun c v => r <-? putView v c ;; Ok r.2) c vs = Ok c' /\ c_views c' = c_views c ++ (v_Name <$> vs) /\
    c_subnets c' = c_subnets c ++ ungroup (view_groups vs) /\ svc_tables c' = svc_tables c.
Proof.
  induction vs as [|v vs IH]; intros c Hnd Hc Hn Hs Hw; [exists c; by rewrite !app_nil_r|].
  cbn [fmap list_fmap] in Hnd. apply NoDup_cons in Hnd as [Hv Hnd]. cbn [fmap list_fmap mjoin list_join] in Hc, Hs.
  apply NoDup_app in Hc as (Hc1 & Hc2 & Hc). cbn [foldR]. unfold putView at 1.
  assert (Hi : insert_view (v_Name v) c = with_views c (c_views c ++ [v_Name v]) 1).
  { unfold insert_view. rewrite bool_decide_eq_false_2; [done|]. apply Hn. left. }
  assert (Hd : c_subnets (delete_subnets (v_Name v) (insert_view (v_Name v) c)) = c_subnets c).
  { rewrite Hi. cbn. apply filter_id. intros x Hx E. apply (Hn v ltac:(left)). rewrite <- E. by apply Hw. }
  destruct (install_subnets (v_Name v) (v_Subnets v) (delete_subnets (v_Name v) (insert_view (v_Name v) c)) Hc1) as (c1 & E1 & Ev & Es & Et).
  { intros x Hx. rewrite Hd. apply Hs. apply elem_of_app. by left. }
  rewrite E1. cbn [rbind snd]. rewrite Hd in Es. assert (Ev' : c_views c1 = c_views c ++ [v_Name v]) by (by rewrite Ev, Hi).
  destruct (IH c1 Hnd Hc) as (c' & E' & Ev'' & Es' & Et').
  - intros w Hin. rewrite Ev', not_elem_of_app. split; [apply Hn; by right|]. intros E%list_elem_of_singleton.
    apply Hv. rewrite <- E. by apply list_elem_of_fmap_2.
  - intros x Hx. rewrite Es, fmap_app, not_elem_of_app. split; [apply Hs; apply elem_of_app; by right|].
    rewrite <- list_fmap_compose. intros (y & -> & Hy)%list_elem_of_fmap. by apply (Hc2 y Hy).
  - intros x Hx. rewrite Es in Hx. rewrite Ev'. apply elem_of_app. apply elem_of_app in Hx as [Hx|Hx]; [left; by apply Hw|right].
    apply list_elem_of_fmap in Hx as (y & -> & _). by left.
  - exists c'. split; [done|]. rewrite Ev'', Ev', Es', Es, Et', Et, Hi. cbn. rewrite <- !app_assoc. done.
Qed.
(** The installed views read back as they are, if they were read in order. *)
Lemma installed_views_read c vs : c_views c = v_Name <$> vs -> c_subnets c = ungroup (view_groups vs) ->
  NoDup (v_Name <$> vs) -> StronglySorted str_le (v_Name <$> vs) ->
  (forall v, v ∈ vs -> NoDup (v_Subnets v) /\ StronglySorted str_le (v_Subnets v) /\ "" ∉ v_Subnets v) ->
  forall n, Views (mkDB c n) = vs.
Proof.
  intros Hv Hs Hnd Hsort Hsub n. unfold Views. cbn [conf]. rewrite Hv, Hs.
  rewrite (merge_sort_unique str_le id (v_Name <$> vs) (v_Name <$> vs)); [|intros; by apply str_le_antisym|by rewrite list_fmap_id|done|done].
  assert (Hrow : forall v, v ∈ vs -> snd <$> filter (fun x => x.1 = v_Name v) (ungroup (view_groups vs)) = v_Subnets v).
  { intros v Hin. apply ungroup_filter; [unfold view_groups; by rewrite <- list_fmap_compose|].
    by apply (list_elem_of_fmap_2 (fun v => (v_Name v, v_Subnets v))). }
  rewrite <- list_fmap_compose. rewrite <- (list_fmap_id vs) at 2. apply list_fmap_ext. intros i v Hi. apply list_elem_of_lookup_2 in Hi.
  unfold compose. rewrite Hrow by done. destruct (Hsub v Hi) as (H1 & H2 & H3).
  rewrite (filter_id (fun s => s <> "")) by (intros x Hx ->; done).
  rewrite (merge_sort_unique str_le id (v_Subnets v) (v_Subnets v)); [by destruct v|intros; by apply str_le_antisym|by rewrite list_fmap_id|done|done].
Qed.

(** ** Lemmas: installing services *)
Definition addr_row (a : AddrRow) : Z * (string * string) := (ad_Svc a, (ad_Address a, ad_View a)).
Definition alias_row (a : AliasRow) : Z * string := (al_Svc a, al_Name a).
(** What the three service tables hold for services stored under the ids. *)
Definition addr_groups (ids : list Z) (ss : list Service) : list (Z * list (string * string)) :=
  zip_with (fun i s => (i, address_content <$> s_Addresses s)) ids ss.
Definition alias_groups (ids : list Z) (ss : list Service) : list (Z * list string) := zip_with (fun i s => (i, s_Aliases s)) ids ss.

Lemma install_addresses i ads : forall c, svc_ok c i = true -> (forall a, a ∈ ads -> view_ok c (a_View a) = true) ->
  exists c', foldR (insert_address i) c ads = Ok c' /\ c_views c' = c_views c /\ c_subnets c' = c_subnets c /\
    c_services c' = c_services c /\ c_aliases c' = c_aliases c /\
    addr_row <$> c_addresses c' = (addr_row <$> c_addresses c) ++ ((fun a => (i, address_content a)) <$> ads).
Proof.
  induction ads as [|a ads IH]; intros c Hi Ha; [exists c; by rewrite app_nil_r|]. cbn [foldR]. unfold insert_address at 1.
  rewrite Hi, (Ha a) by left. cbn [andb rbind].
  destruct (IH (with_addresses c (c_addresses c ++ [mkAddrRow (next_id (ad_ID <$> c_addresses c)) i (a_Address a) (a_View a)]) 1) Hi)
    as (c' & E & Hv & Hs & Hr & Hl & Hd).
  { intros b Hb. apply Ha. by right. }
  exists c'. do 5 (split; [done|]). rewrite Hd. cbn. by rewrite fmap_app, <- app_assoc.
Qed.
Lemma install_aliases i als : forall c, svc_ok c i = true -> NoDup als -> (forall x, x ∈ als -> x ∉ al_Name <$> c_aliases c) ->
  exists c', foldR (insert_alias i) c als = Ok c' /\ c_views c' = c_views c /\ c_subnets c' = c_subnets c /\
    c_services c' = c_services c /\ c_addresses c' = c_addresses c /\
    alias_row <$> c_aliases c' = (alias_row <$> c_aliases c) ++ ((i,.) <$> als).
Proof.
  induction als as [|x als IH]; intros c Hi Hnd Hn; [exists c; by rewrite app_nil_r|]. apply NoDup_cons in Hnd as [Hx Hnd].
  cbn [foldR]. unfold insert_alias at 1. rewrite bool_decide_eq_false_2 by (apply Hn; left). rewrite Hi. cbn [rbind].
  destruct (IH (with_aliases c (c_aliases c ++ [mkAliasRow (next_id (al_ID <$> c_aliases c)) i x]) 1) Hi Hnd)
    as (c' & E & Hv & Hs & Hr & Hl & Hd).
  { intros y Hy. cbn. rewrite fmap_app, not_elem_of_app. split; [apply Hn; by right|]. intros ->%list_elem_of_singleton. done. }
  exists c'. do 5 (split; [done|]). rewrite Hd. cbn. by rewrite fmap_app, <- app_assoc.
Qed.
(** One service that is new to the tables. *)
Lemma install_service s c : (forall a, a ∈ s_Addresses s -> view_ok c (a_View a) = true) -> NoDup (s_Aliases s) ->
  (s_Name s ∉ sv_Name <$> c_services c) -> (forall x, x ∈ s_Aliases s -> x ∉ al_Name <$> c_aliases c) ->
  exists c' i, putService (drop_svc_id s) c = Ok (i, c') /\ i = next_id (sv_ID <$> c_services c) /\
    c_views c' = c_views c /\ c_subnets c' = c_subnets c /\ c_services c' = c_services c ++ [svc_row i s] /\
    addr_row <$> c_addresses c' = (addr_row <$> c_addresses c) ++ ((i,.) <$> (address_content <$> s_Addresses s)) /\
    alias_row <$> c_aliases c' = (alias_row <$> c_aliases c) ++ ((i,.) <$> s_Aliases s).
Proof.
  intros Ha Hnd Hn Hal. unfold putService, put_svc_row. cbn [drop_svc_id s_ID s_Name s_Addresses s_Aliases].
  change (0 =? 0) with true. cbv iota. rewrite bool_decide_eq_false_2 by done. cbn [rbind fst snd].
  set (i := next_id (sv_ID <$> c_services c)). change (svc_row i (drop_svc_id s)) with (svc_row i s).
  set (c0 := with_services c (c_services c ++ [svc_row i s]) 1).
  assert (Hi : forall d, c_services d = c_services c0 -> svc_ok d i = true).
  { intros d Hd. apply svc_ok_spec. rewrite Hd. unfold c0. cbn. rewrite fmap_app, elem_of_app. right. by left. }
  destruct (install_addresses i (s_Addresses s) c0 (Hi c0 eq_refl) Ha) as (c1 & E1 & V1 & S1 & R1 & L1 & D1).
  rewrite E1. cbn [rbind].
  destruct (install_aliases i (s_Aliases s) c1 (Hi c1 R1) Hnd) as (c2 & E2 & V2 & S2 & R2 & A2 & D2).
  { intros x Hx. rewrite L1. by apply Hal. }
  rewrite E2. cbn [rbind]. exists c2, i. split; [done|]. split; [done|]. rewrite V2, V1, S2, S1, R2, R1, A2, D1, D2, L1.
  split; [done|]. split; [done|]. split; [done|]. split; [|done]. f_equal. by rewrite <- list_fmap_compose.
Qed.
Lemma alias_names (l : list AliasRow) : al_Name <$> l = (alias_row <$> l).*2.
Proof. by rewrite <- list_fmap_compose. Qed.
Lemma install_services ss : forall c, (forall s a, s ∈ ss -> a ∈ s_Addresses s -> view_ok c (a_View a) = true) ->
  NoDup (s_Name <$> ss) -> NoDup (mjoin (s_Aliases <$> ss)) ->
  (forall s, s ∈ ss -> s_Name s ∉ sv_Name <$> c_services c) -> (forall x, x ∈ mjoin (s_Aliases <$> ss) -> x ∉ al_Name <$> c_aliases c) ->
  exists c' ids, foldR (fun c s => r <-? putService (drop_svc_id s) c ;; Ok r.2) c ss = Ok c' /\
    c_views c' = c_views c /\ c_subnets c' = c_subnets c /\ length ids = length ss /\ NoDup ids /\
    (forall i, i ∈ ids -> i ∉ sv_ID <$> c_services c) /\
    c_services c' = c_services c ++ zip_with svc_row ids ss /\
    addr_row <$> c_addresses c' = (addr_row <$> c_addresses c) ++ ungroup (addr_groups ids ss) /\
    alias_row <$> c_aliases c' = (alias_row <$> c_aliases c) ++ ungroup (alias_groups ids ss).
Proof.
  induction ss as [|s ss IH]; intros c Ha Hnd Hal Hn Hx.
  { exists c, []. rewrite !app_nil_r. split; [done|]. do 3 (split; [done|]). split; [constructor|]. split; [|done]. by intros i ?%not_elem_of_nil. }
  cbn [fmap list_fmap] in Hnd. apply NoDup_cons in Hnd as [Hs Hnd].
  change (mjoin (s_Aliases <$> s :: ss)) with (s_Aliases s ++ mjoin (s_Aliases <$> ss)) in *. apply NoDup_app in Hal as (Hal1 & Hal2 & Hal3).
  destruct (install_service s c) as (c1 & i & E1 & Hi & V1 & S1 & R1 & A1 & L1).
  { intros a. apply Ha. left. } { done. } { apply Hn. left. } { intros x H. apply Hx. apply elem_of_app. by left. }
  cbn [foldR]. rewrite E1. cbn [rbind snd].
  destruct (IH c1) as (c2 & ids & E2 & V2 & S2 & Len & Nid & Fid & R2 & A2 & L2).
  - intros t a Ht H. unfold view_ok. rewrite V1. apply (Ha t a); [by right|done].
  - done.
  - done.
  - intros t Ht. rewrite R1, fmap_app, not_elem_of_app. split; [apply Hn; by right|]. intros E%list_elem_of_singleton.
    apply Hs. cbn in E. rewrite <- E. by apply list_elem_of_fmap_2.
  - intros x H. rewrite alias_names, L1, fmap_app, not_elem_of_app, <- alias_names. split; [apply Hx; apply elem_of_app; by right|].
    rewrite <- list_fmap_compose. intros (y & -> & Hy)%list_elem_of_fmap. by apply (Hal2 y).
  - exists c2, (i :: ids). split; [done|]. rewrite V2, S2, R2, A2, L2, V1, S1, R1, A1, L1. do 2 (split; [done|]). split; [cbn; by rewrite Len|].
    assert (Hfresh : i ∉ ids).
    { intros H. apply Fid in H. apply H. rewrite R1, fmap_app, elem_of_app. right. by left. }
    split; [by constructor|]. split; [|by rewrite <- !app_assoc].
    intros j [->|Hj]%elem_of_cons; [rewrite Hi; apply next_id_fresh|]. apply Fid in Hj. rewrite R1, fmap_app, not_elem_of_app in Hj. tauto.
Qed.

(** ** Lemmas: reading services *)
Lemma Services_ok db : NoDup (sv_ID <$> c_services (conf db)) ->
  Services db = Ok (load_service db <$> merge_sort row_name_le (c_services (conf db))).
Proof.
  intros Hnd. unfold Services. apply mapR_ok. apply Forall2_fmap_l, Forall2_fmap_r, Forall_Forall2_diag, Forall_forall.
  intros r Hr. rewrite merge_sort_Permutation in Hr. unfold compose, Service_.
  assert (E : List.find (fun x => sv_ID x =? sv_ID r) (c_services (conf db)) = Some r); [|by rewrite E].
  revert Hnd Hr. induction (c_services (conf db)) as [|x l IH]; intros Hnd Hr; [by apply not_elem_of_nil in Hr|].
  cbn [fmap list_fmap] in Hnd. apply NoDup_cons in Hnd as [Hx Hnd]. change (find ?p (x :: l)) with (if p x then Some x else find p l). cbv beta.
  apply elem_of_cons in Hr as [->|Hr]; [by rewrite Z.eqb_refl|]. destruct (Z.eqb_spec (sv_ID x) (sv_ID r)) as [E|_]; [|by apply IH].
  destruct Hx. rewrite E. by apply list_elem_of_fmap_2.
Qed.
Lemma addresses_content db i : address_content <$> addresses db i = (filter (fun x => x.1 = i) (addr_row <$> c_addresses (conf db))).*2.
Proof. unfold addresses. rewrite <- list_fmap_compose. apply (select_rows ad_Svc (fun a => (ad_Address a, ad_View a))). Qed.
Lemma aliases_rows db i : aliases db i = merge_sort str_le (filter (fun x => x.1 = i) (alias_row <$> c_aliases (conf db))).*2.
Proof. unfold aliases. f_equal. apply (select_rows al_Svc al_Name). Qed.
Lemma elem_of_zip_with' {A B C} (f : A -> B -> C) (l : list A) (k : list B) a b : (a, b) ∈ zip l k -> f a b ∈ zip_with f l k.
Proof. intros H. rewrite zip_with_zip. by apply (list_elem_of_fmap_2 (uncurry f)) in H. Qed.
Lemma zip_fst_fmap {A B C} (f : A -> B -> C) (g : C -> A) (l : list A) (k : list B) : (forall a b, g (f a b) = a) -> length l = length k ->
  g <$> zip_with f l k = l.
Proof.
  intros H. revert k. induction l as [|a l IH]; intros [|b k] E; try done. cbn. rewrite H. f_equal. apply IH. by injection E.
Qed.
Lemma zip_snd_fmap {A B C D} (f : A -> B -> C) (g : C -> D) (h : B -> D) (l : list A) (k : list B) : (forall a b, g (f a b) = h b) ->
  length l = length k -> g <$> zip_with f l k = h <$> k.
Proof.
  intros H. revert k. induction l as [|a l IH]; intros [|b k] E; try done. cbn. rewrite H. f_equal. apply IH. by injection E.
Qed.
(** Services in reading order, as a snapshot carries them. *)
Record services_read (ss : list Service) : Prop := {
  sr_names : NoDup (s_Name <$> ss);
  sr_sorted : StronglySorted str_le (s_Name <$> ss);
  sr_aliases : NoDup (mjoin (s_Aliases <$> ss));
  sr_alias_order : forall s, s ∈ ss -> NoDup (s_Aliases s) /\ StronglySorted str_le (s_Aliases s) }.
Lemma StronglySorted_unfmap {A B} (f : A -> B) (R : relation B) (l : list A) :
  StronglySorted R (f <$> l) -> StronglySorted (fun x y => R (f x) (f y)) l.
Proof.
  induction l as [|x l IH]; intros H; [constructor|]. cbn [fmap list_fmap] in H. inversion H as [|? ? H1 H2]; subst. constructor; [by apply IH|].
  exact (proj1 (Forall_fmap f _ l) H2).
Qed.
Lemma installed_services_read db ids ss : services_read ss -> NoDup ids -> length ids = length ss ->
  c_services (conf db) = zip_with svc_row ids ss -> addr_row <$> c_addresses (conf db) = ungroup (addr_groups ids ss) ->
  alias_row <$> c_aliases (conf db) = ungroup (alias_groups ids ss) ->
  exists ss', Services db = Ok ss' /\ service_content <$> ss' = service_content <$> ss.
Proof.
  intros [Hn Hs _ Ha] Hi Hl Er Ea El. assert (Hids : sv_ID <$> zip_with svc_row ids ss = ids) by (by apply zip_fst_fmap).
  assert (Hnames : sv_Name <$> zip_with svc_row ids ss = s_Name <$> ss) by (by apply zip_snd_fmap).
  exists (load_service db <$> zip_with svc_row ids ss). split.
  - rewrite Services_ok by (by rewrite Er, Hids). do 2 f_equal. rewrite Er.
    apply (merge_sort_unique row_name_le sv_Name); [intros x y; apply str_le_antisym|by rewrite Hnames| |done].
    apply (StronglySorted_unfmap sv_Name str_le). by rewrite Hnames.
  - assert (Hag : forall i s, (i, s) ∈ zip ids ss -> address_content <$> addresses db i = address_content <$> s_Addresses s).
    { intros i s H. rewrite addresses_content, Ea. apply ungroup_filter; [unfold addr_groups; by rewrite zip_fst_fmap|].
      by apply (elem_of_zip_with' (fun i s => (i, address_content <$> s_Addresses s))) in H. }
    assert (Hlg : forall i s, (i, s) ∈ zip ids ss -> aliases db i = s_Aliases s).
    { intros i s H. assert (H' := H). apply elem_of_zip_r in H'. destruct (Ha s H') as [Hd Ho]. rewrite aliases_rows, El.
      rewrite (ungroup_filter (alias_groups ids ss) i (s_Aliases s)).
      - apply (merge_sort_unique str_le id); [intros x y; apply str_le_antisym|by rewrite list_fmap_id|done|done].
      - unfold alias_groups. by rewrite zip_fst_fmap.
      - by apply (elem_of_zip_with' (fun i s => (i, s_Aliases s))) in H. }
    clear Hids Hnames Er Ea El Hi Hn Hs Ha. revert ss Hl Hag Hlg. induction ids as [|i ids IH]; intros [|s ss] Hl Hag Hlg; try done.
    cbn [zip_with fmap list_fmap]. f_equal; [|apply IH; [by injection Hl|intros j t H; apply Hag; by right|intros j t H; apply Hlg; by right]].
    unfold service_content. cbn. rewrite (Hag i s) by left. by rewrite (Hlg i s) by left.
Qed.
(** What reading a consistent database gives. *)
Lemma Services_read db ss : wf_conf (conf db) -> Services db = Ok ss ->
  services_read ss /\ forall s a, s ∈ ss -> a ∈ s_Addresses s -> view_ok (conf db) (a_View a) = true.
Proof.
  intros Hw. rewrite Services_ok by apply Hw. intros [= <-].
  set (rows := merge_sort row_name_le (c_services (conf db))). assert (Hp : rows ≡ₚ c_services (conf db)) by apply merge_sort_Permutation.
  assert (Hn : s_Name <$> (load_service db <$> rows) = sv_Name <$> rows) by (by rewrite <- list_fmap_compose).
  split; [constructor|].
  - rewrite Hn, Hp. apply Hw.
  - rewrite Hn. apply (StronglySorted_fmap sv_Name row_name_le); [done|]. by apply StronglySorted_merge_sort; apply _.
  - rewrite (mjoin_perm _ ((fun i => al_Name <$> filter (fun a => al_Svc a = i) (c_aliases (conf db))) <$> (sv_ID <$> rows))).
    + apply groups_NoDup; [apply Hw|rewrite Hp; apply Hw].
    + rewrite <- !list_fmap_compose. apply Forall2_fmap_l, Forall2_fmap_r, Forall_Forall2_diag, Forall_forall. intros r _.
      cbn. unfold aliases. apply merge_sort_Permutation.
  - intros s (r & -> & Hr)%list_elem_of_fmap. cbn. unfold aliases. split.
    + rewrite merge_sort_Permutation. apply NoDup_fmap_filter', Hw.
    + apply StronglySorted_merge_sort; apply _.
  - intros s a (r & -> & Hr)%list_elem_of_fmap Hin. cbn in Hin. unfold addresses in Hin.
    apply list_elem_of_fmap in Hin as (x & -> & [_ Hx]%list_elem_of_filter). by apply Hw.
Qed.

(** ** Lemmas: reading views *)
Record views_read (vs : list View) : Prop := {
  vr_names : NoDup (v_Name <$> vs);
  vr_sorted : StronglySorted str_le (v_Name <$> vs);
  vr_subnets : NoDup (mjoin (v_Subnets <$> vs));
  vr_order : forall v, v ∈ vs -> NoDup (v_Subnets v) /\ StronglySorted str_le (v_Subnets v) /\ "" ∉ v_Subnets v }.
Definition view_subnets (db : DB) (n : string) : list string :=
  filter (fun s => s <> "") (snd <$> filter (fun x => x.1 = n) (c_subnets (conf db))).
Lemma view_subnets_NoDup db n : wf_conf (conf db) -> NoDup (view_subnets db n).
Proof. intros Hw. apply NoDup_filter, NoDup_fmap_filter', Hw. Qed.
Lemma Views_read db : wf_conf (conf db) -> views_read (Views db) /\ v_Name <$> Views db = merge_sort str_le (c_views (conf db)).
Proof.
  intros Hw. assert (En : v_Name <$> Views db = merge_sort str_le (c_views (conf db))).
  { unfold Views. rewrite <- list_fmap_compose. apply list_fmap_id. }
  split; [constructor|done].
  - rewrite En, merge_sort_Permutation. apply Hw.
  - rewrite En. apply StronglySorted_merge_sort; apply _.
  - unfold Views. rewrite <- list_fmap_compose.
    rewrite (mjoin_perm _ (view_subnets db <$> merge_sort str_le (c_views (conf db)))).
    + apply NoDup_groups; [rewrite merge_sort_Permutation; apply Hw|intros n; by apply view_subnets_NoDup|].
      intros k k' y Hy Hy'. unfold view_subnets in Hy, Hy'.
      apply list_elem_of_filter in Hy as [_ Hy], Hy' as [_ Hy'].
      apply list_elem_of_fmap in Hy as (x & -> & [<- Hx]%list_elem_of_filter), Hy' as (x' & E & [<- Hx']%list_elem_of_filter).
      by rewrite (unique_row snd _ x x' (wf_cidrs _ Hw) Hx Hx' E).
    + apply Forall2_fmap_l, Forall2_fmap_r, Forall_Forall2_diag, Forall_forall. intros n _. apply merge_sort_Permutation.
  - intros v (n & -> & _)%list_elem_of_fmap. cbn [v_Subnets]. fold (view_subnets db n).
    rewrite merge_sort_Permutation at 1. split; [by apply view_subnets_NoDup|]. split; [apply StronglySorted_merge_sort; apply _|].
    rewrite merge_sort_Permutation. by intros [? _]%list_elem_of_filter.
Qed.

(** ** Lemmas: records, rules and settings *)
Lemma install_records rs : forall c, (forall r, r ∈ rs -> view_ok c (r_View r) = true) -> StronglySorted Z.lt (r_ID <$> c_records c) ->
  exists c', foldR (fun c x => r <-? putRecord x c ;; Ok r.2) c rs = Ok c' /\ svc_tables c' = svc_tables c /\ c_views c' = c_views c /\
    c_subnets c' = c_subnets c /\ StronglySorted Z.lt (r_ID <$> c_records c').
Proof.
  induction rs as [|r rs IH]; intros c Hv Hs; [by exists c|]. cbn [foldR]. unfold putRecord at 1. rewrite (Hv r) by left. cbn [rbind snd].
  destruct (IH (with_records c (c_records c ++ [mkRecord (next_id (r_ID <$> c_records c)) (r_Name r) (r_Type r) (r_Value r) (r_View r)]) 1))
    as (c' & E & H); [|cbn; rewrite fmap_app|by exists c'].
  - intros x Hx. apply (Hv x). by right.
  - cbn. revert Hs. unfold next_id. generalize (r_ID <$> c_records c) as l. clear. intros l Hs.
    assert (Hm : forall x, x ∈ l -> x < 1 + foldr Z.max 0 l).
    { clear Hs. induction l as [|y l IH]; intros x; [by intros ?%not_elem_of_nil|]. intros [->|Hx]%elem_of_cons; cbn; [lia|].
      specialize (IH x Hx). lia. }
    revert Hs Hm. generalize (1 + foldr Z.max 0 l) as m. intros m. induction l as [|x l IH]; intros Hs Hm; cbn [app].
    + repeat constructor.
    + inversion Hs as [|? ? H1 H2]; subst. constructor; [apply IH; [done|]; intros y Hy; apply Hm; by right|].
      apply Forall_app. split; [done|]. constructor; [apply Hm; left|constructor].
Qed.
(** Rows of the same content whose ids increase are in reading order if the rows
    they were read from are. *)
Lemma rec_sorted l : forall l', record_content <$> l' = record_content <$> l -> StronglySorted rec_le l -> StronglySorted Z.lt (r_ID <$> l') ->
  StronglySorted rec_le l'.
Proof.
  induction l as [|r l IH]; intros [|r' l'] E Hs Hi; try done. cbn [fmap list_fmap] in E, Hi. injection E as E1 E2 E3 E4 E.
  inversion Hs as [|? ? H1 H2]; subst. inversion Hi as [|? ? H3 H4]; subst. constructor; [by apply IH|].
  clear IH Hs Hi H1 H3. revert l' E H4. induction l as [|x l IH]; intros [|x' l'] E H4; try done.
  cbn [fmap list_fmap] in E, H4. injection E as F1 F2 F3 F4 E. inversion H2 as [|? ? G1 G2]; subst. inversion H4 as [|? ? G3 G4]; subst.
  constructor; [|by apply IH]. revert G1. unfold rec_le. rewrite E1, E2, F1, F2. repeat case_bool_decide; auto. intros _. lia.
Qed.
Lemma installed_records_read c n rs : NoDup (r_ID <$> c_records c) -> StronglySorted Z.lt (r_ID <$> c_records c) ->
  record_content <$> c_records c = record_content <$> rs -> StronglySorted rec_le rs ->
  record_content <$> Records (mkDB c n) = record_content <$> rs.
Proof.
  intros Hn Hi E Hs. rewrite <- E. unfold Records. cbn [conf]. f_equal. apply (merge_sort_unique rec_le r_ID); [|done| |done].
  - intros x y. unfold rec_le. destruct (bool_decide_reflect (r_Name x = r_Name y)) as [N|N], (bool_decide_reflect (r_Name y = r_Name x)) as [N'|N'];
      try congruence.
    + destruct (bool_decide_reflect (r_Type x = r_Type y)) as [T|T], (bool_decide_reflect (r_Type y = r_Type x)) as [T'|T']; try congruence; [lia|].
      intros L1 L2. destruct T. by apply str_le_antisym.
    + intros L1 L2. destruct N. by apply str_le_antisym.
  - by apply (rec_sorted rs).
Qed.
Lemma install_rules rs : forall c, NoDup (br_Domain <$> rs) -> (forall r, r ∈ rs -> br_Domain r ∉ br_Domain <$> c_rules c) ->
  exists c', foldR (fun c r => x <-? putRule r c ;; Ok x.2) c rs = Ok c'.
Proof.
  induction rs as [|r rs IH]; intros c Hnd Hn; [by exists c|]. cbn [fmap list_fmap] in Hnd. apply NoDup_cons in Hnd as [Hr Hnd].
  cbn [foldR]. unfold putRule at 1. rewrite bool_decide_eq_false_2 by (apply Hn; left). cbn [rbind snd]. apply IH; [done|].
  intros x Hx. cbn. rewrite fmap_app, not_elem_of_app. split; [apply Hn; by right|]. intros E%list_elem_of_singleton.
  apply Hr. cbn in E. rewrite <- E. by apply list_elem_of_fmap_2.
Qed.
Lemma installed_rules_read c n rs : NoDup (br_Domain <$> rs) -> rule_content <$> c_rules c = rule_content <$> rs -> StronglySorted rule_le rs ->
  rule_content <$> BlacklistRules (mkDB c n) = rule_content <$> rs.
Proof.
  intros Hn E Hs. rewrite <- E. unfold BlacklistRules. cbn [conf]. f_equal.
  assert (Hd : br_Domain <$> c_rules c = br_Domain <$> rs).
  { transitivity ((rule_content <$> c_rules c).*2); [by rewrite <- list_fmap_compose|]. rewrite E. by rewrite <- list_fmap_compose. }
  apply (merge_sort_unique rule_le br_Domain); [|by rewrite Hd| |done].
  - intros x y. unfold rule_le. destruct (bool_decide_reflect (br_Kind x = br_Kind y)) as [N|N], (bool_decide_reflect (br_Kind y = br_Kind x)) as [N'|N'];
      try congruence; [apply str_le_antisym|]. intros L1 L2. destruct N. by apply str_le_antisym.
  - set (R := fun a b : string * string => if bool_decide (a.1 = b.1) then str_le a.2 b.2 else str_le a.1 b.1).
    apply (StronglySorted_unfmap rule_content R). rewrite E. by apply (StronglySorted_fmap rule_content rule_le R).
Qed.
Lemma repack_idemp v : repack (repack v) = repack v.
Proof.
  unfold repack at 2 3. unfold unpackList. case_bool_decide as H; [done|]. unfold repack, packList, unpackList.
  rewrite Join_Split. by rewrite bool_decide_eq_false_2.
Qed.
Lemma stored_twice v : stored (stored v) = stored v.
Proof. unfold stored. cbn. by rewrite !repack_idemp. Qed.

(** ** Lemmas: block list definitions *)
(** After the lists [dn] of a replacement over rows named [ex]. *)
Record lists_done (ex : list string) (dn : list BlacklistList) (c : Conf) : Prop := {
  ld_names : NoDup (bl_Name <$> c_lists c);
  ld_ex : forall n, n ∈ ex -> n ∈ bl_Name <$> c_lists c;
  ld_rows : forall o, o ∈ c_lists c -> (exists l, l ∈ dn /\ list_definition o = list_definition l) \/ ((bl_Name o ∉ bl_Name <$> dn) /\ bl_Name o ∈ ex);
  ld_done : forall l, l ∈ dn -> exists o, o ∈ c_lists c /\ list_definition o = list_definition l }.
Lemma def_name o l : list_definition o = list_definition l -> bl_Name o = bl_Name l.
Proof. by intros [=]. Qed.
Lemma update_done ex dn c l f : lists_done ex dn c -> (bl_Name l ∉ bl_Name <$> dn) -> bl_Name l ∈ ex ->
  (forall o, bl_Name o = bl_Name l -> list_definition (f o) = list_definition l) ->
  lists_done ex (dn ++ [l]) (update_lists (fun o => if bool_decide (bl_Name o = bl_Name l) then f o else o) c).
Proof.
  intros [Hn He Hr Hd] Hl Hx Hf. set (g := fun o => if bool_decide (bl_Name o = bl_Name l) then f o else o).
  assert (Eg : bl_Name <$> (g <$> c_lists c) = bl_Name <$> c_lists c).
  { rewrite <- list_fmap_compose. apply list_fmap_ext. intros i o _. unfold compose, g. case_bool_decide as E; [|done].
    rewrite E. by apply def_name, Hf. }
  constructor; cbn [update_lists c_lists with_lists].
  - by rewrite Eg.
  - intros n. rewrite Eg. apply He.
  - intros o' (o & -> & Ho)%list_elem_of_fmap. unfold g. case_bool_decide as E.
    + left. exists l. split; [apply elem_of_app; right; by left|by apply Hf].
    + destruct (Hr o Ho) as [(l' & Hl' & D)|[H1 H2]]; [left; exists l'; split; [apply elem_of_app; by left|done]|right].
      split; [|done]. rewrite fmap_app, not_elem_of_app. split; [done|]. intros H%list_elem_of_singleton. done.
  - intros l' [Hl'|Hl'%list_elem_of_singleton]%elem_of_app.
    + destruct (Hd l' Hl') as (o & Ho & D). exists o. split; [|done]. apply list_elem_of_fmap. exists o. split; [|done].
      unfold g. rewrite bool_decide_eq_false_2; [done|]. rewrite (def_name _ _ D). intros E. apply Hl. rewrite <- E. by apply list_elem_of_fmap_2.
    + subst l'. destruct (proj1 (list_elem_of_fmap bl_Name _ _) (He _ Hx)) as (o & E & Ho). exists (f o). split; [|by apply Hf].
      apply list_elem_of_fmap. exists o. split; [|done]. unfold g. by rewrite bool_decide_eq_true_2.
Qed.
Lemma replace_list_done (ex : list (string * string)) dn c l : lists_done ex.*1 dn c -> (bl_Name l ∉ bl_Name <$> dn) ->
  exists c', replace_list ex c l = Ok c' /\ lists_done ex.*1 (dn ++ [l]) c' /\ c_rules c' = c_rules c /\
    (svc_tables c', c_views c', c_subnets c', c_records c', c_settings c', c_blset c') = (svc_tables c, c_views c, c_subnets c, c_records c, c_settings c, c_blset c).
Proof.
  intros H Hl. unfold replace_list. destruct (List.find _ ex) as [[n url]|] eqn:F.
  - apply find_some in F as [Hin E%bool_decide_eq_true]. apply list_elem_of_In in Hin. cbn in E. subst n.
    apply (list_elem_of_fmap_2 fst) in Hin. cbn in Hin.
    destruct (bool_decide (url <> bl_URL l)); eexists; (split; [reflexivity|]); (split; [|done]); apply update_done; try done.
    intros o E. unfold list_definition. cbn. by rewrite E.
    intros o E. unfold list_definition. cbn. by rewrite E.
  - assert (Hx : bl_Name l ∉ ex.*1).
    { intros (x & E & Hx)%list_elem_of_fmap. apply list_elem_of_In in Hx. pose proof (find_none _ _ F x Hx) as N.
      apply bool_decide_eq_false in N. by apply N. }
    destruct H as [Hn He Hr Hd].
    assert (Hc : bl_Name l ∉ bl_Name <$> c_lists c).
    { intros (o & E & Ho)%list_elem_of_fmap. destruct (Hr o Ho) as [(l' & Hl' & D)|[_ H2]].
      - apply Hl. rewrite E, (def_name _ _ D). by apply list_elem_of_fmap_2.
      - apply Hx. by rewrite E. }
    unfold insert_list. rewrite bool_decide_eq_false_2 by done. eexists. split; [reflexivity|]. split; [|done].
    constructor; cbn [c_lists with_lists snd].
    + by apply NoDup_fmap_snoc.
    + intros n Hn'. rewrite fmap_app, elem_of_app. left. by apply He.
    + intros o [Ho|Ho%list_elem_of_singleton]%elem_of_app.
      * destruct (Hr o Ho) as [(l' & Hl' & D)|[H1 H2]]; [left; exists l'; split; [apply elem_of_app; by left|done]|right].
        split; [|done]. rewrite fmap_app, not_elem_of_app. split; [done|]. intros E%list_elem_of_singleton.
        apply Hc. rewrite <- E. by apply list_elem_of_fmap_2.
      * left. exists l. split; [apply elem_of_app; right; by left|by subst o].
    + intros l' [Hl'|Hl'%list_elem_of_singleton]%elem_of_app.
      * destruct (Hd l' Hl') as (o & Ho & D). exists o. split; [apply elem_of_app; by left|done].
      * subst l'. eexists. split; [apply elem_of_app; right; by left|done].
Qed.
Lemma replace_lists_done ex ls : forall dn c, lists_done ex.*1 dn c -> NoDup (bl_Name <$> (dn ++ ls)) ->
  exists c', foldR (replace_list ex) c ls = Ok c' /\ lists_done ex.*1 (dn ++ ls) c' /\ c_rules c' = c_rules c /\
    (svc_tables c', c_views c', c_subnets c', c_records c', c_settings c', c_blset c') = (svc_tables c, c_views c, c_subnets c, c_records c, c_settings c, c_blset c).
Proof.
  induction ls as [|l ls IH]; intros dn c H Hnd; [exists c; by rewrite app_nil_r|].
  destruct (replace_list_done ex dn c l H) as (c1 & E1 & H1 & R1 & T1).
  { rewrite fmap_app in Hnd. apply NoDup_app in Hnd as (_ & Hd & _). intros Hin. apply (Hd _ Hin). by left. }
  destruct (IH (dn ++ [l]) c1 H1) as (c2 & E2 & H2 & R2 & T2); [by rewrite <- app_assoc|].
  exists c2. cbn [foldR]. rewrite E1. cbn [rbind]. rewrite <- app_assoc in H2. split; [done|]. split; [done|]. by rewrite R2, T2, R1, T1.
Qed.
Definition def_le (a b : string * string * string * string * bool * bool * Z) : Prop :=
  let '(n, _, _, _, _, b1, _) := a in let '(m, _, _, _, _, b2, _) := b in
  if Bool.eqb b1 b2 then str_le n m else b1 = true.
#[export] Instance def_le_dec : RelDecision def_le.
Proof. intros [[[[[[n a1] a2] a3] a4] b1] a5] [[[[[[m c1] c2] c3] c4] b2] c5]. unfold def_le. destruct (Bool.eqb b1 b2); apply _. Defined.
Lemma installed_lists_read c n ls : NoDup (bl_Name <$> c_lists c) -> NoDup (bl_Name <$> ls) ->
  (forall o, o ∈ c_lists c -> exists l, l ∈ ls /\ list_definition o = list_definition l) ->
  (forall l, l ∈ ls -> exists o, o ∈ c_lists c /\ list_definition o = list_definition l) -> StronglySorted list_le ls ->
  list_definition <$> BlacklistListMetas (mkDB c n) = list_definition <$> ls.
Proof.
  intros Hn Hl H1 H2 Hs. unfold BlacklistListMetas, BlacklistLists. cbn [conf]. rewrite <- list_fmap_compose.
  change (list_definition ∘ without_body) with list_definition.
  assert (Hinj : forall k : list BlacklistList, NoDup (bl_Name <$> k) -> NoDup (list_definition <$> k)).
  { intros k. induction k as [|x k IH]; [constructor|]. cbn [fmap list_fmap]. rewrite !NoDup_cons. intros [Hx Hk]. split; [|by apply IH].
    intros (y & E & Hy)%list_elem_of_fmap. apply Hx. rewrite (def_name _ _ E). by apply list_elem_of_fmap_2. }
  assert (Hp : list_definition <$> c_lists c ≡ₚ list_definition <$> ls).
  { apply NoDup_Permutation; [by apply Hinj|by apply Hinj|]. intros d. split.
    - intros (o & -> & Ho)%list_elem_of_fmap. destruct (H1 o Ho) as (l & Hl' & ->). by apply list_elem_of_fmap_2.
    - intros (l & -> & Hl')%list_elem_of_fmap. destruct (H2 l Hl') as (o & Ho & <-). by apply list_elem_of_fmap_2. }
  apply (StronglySorted_unique_strong def_le).
  - intros d d' Hd Hd' L1 L2. rewrite merge_sort_Permutation, Hp in Hd. apply list_elem_of_fmap in Hd as (l & -> & Hd), Hd' as (l' & -> & Hd').
    f_equal. apply (unique_row bl_Name ls); [done..|]. unfold def_le, list_definition in *. cbn in L1, L2.
    destruct (bl_Builtin l), (bl_Builtin l'); cbn in *; try done; by apply str_le_antisym.
  - apply (StronglySorted_fmap list_definition list_le def_le); [done|]. apply StronglySorted_merge_sort; apply _.
  - by apply (StronglySorted_fmap list_definition list_le def_le).
  - by rewrite merge_sort_Permutation.
Qed.

(** ** The round trip *)
(** What reading a consistent primary gives. *)
Record snapshot_read (s : SnapshotInput) : Prop := {
  sp_views : views_read (sn_Views s);
  sp_services : services_read (sn_Services s);
  sp_addr_views : forall x a, x ∈ sn_Services s -> a ∈ s_Addresses x -> a_View a = "" \/ a_View a ∈ v_Name <$> sn_Views s;
  sp_records : StronglySorted rec_le (sn_Records s);
  sp_record_views : forall x, x ∈ sn_Records s -> r_View x = "" \/ r_View x ∈ v_Name <$> sn_Views s;
  sp_lists : StronglySorted list_le (sn_Lists s) /\ NoDup (bl_Name <$> sn_Lists s);
  sp_rules : StronglySorted rule_le (sn_Rules s) /\ NoDup (br_Domain <$> sn_Rules s) }.
Lemma TakeSnapshot_read db s : wf_conf (conf db) -> TakeSnapshot db = Some s -> snapshot_read s.
Proof.
  intros Hw. unfold TakeSnapshot, SnapshotReads. destruct (Services db) as [ss|] eqn:S; [|done]. destruct (GetSettings db) as [set|]; [|done].
  intros [= <-]. destruct (Services_read db ss Hw S) as [H1 H2], (Views_read db Hw) as [H3 H4].
  constructor; cbn [sn_Views sn_Services sn_Records sn_Lists sn_Rules]; try done.
  - intros x a Hx Ha. specialize (H2 x a Hx Ha). apply view_ok_spec in H2. rewrite H4, merge_sort_Permutation. done.
  - apply StronglySorted_merge_sort; apply _.
  - intros x Hx. unfold Records in Hx. rewrite merge_sort_Permutation in Hx. rewrite H4, merge_sort_Permutation.
    by apply view_ok_spec, (wf_rec_view _ Hw).
  - unfold BlacklistListMetas, BlacklistLists. split.
    + apply (StronglySorted_fmap without_body list_le list_le); [done|]. apply StronglySorted_merge_sort; apply _.
    + rewrite <- list_fmap_compose, merge_sort_Permutation. apply Hw.
  - unfold BlacklistRules. split; [apply StronglySorted_merge_sort; apply _|]. rewrite merge_sort_Permutation. apply Hw.
Qed.
(** The registry of a snapshot, installed over any registry. *)
Lemma install_registry s c : snapshot_read s ->
  exists c', replaceAll (sn_Views s) (sn_Services s) (sn_Records s) c = Ok c' /\
    c_views c' = v_Name <$> sn_Views s /\ c_subnets c' = ungroup (view_groups (sn_Views s)) /\
    StronglySorted Z.lt (r_ID <$> c_records c') /\
    exists ids, length ids = length (sn_Services s) /\ NoDup ids /\ c_services c' = zip_with svc_row ids (sn_Services s) /\
      addr_row <$> c_addresses c' = ungroup (addr_groups ids (sn_Services s)) /\ alias_row <$> c_aliases c' = ungroup (alias_groups ids (sn_Services s)).
Proof.
  intros [Hv Hs Ha Hr Hrv _ _]. unfold replaceAll.
  destruct (install_views (sn_Views s) (wipe_registry c)) as (c1 & E1 & V1 & S1 & T1);
    [apply Hv|apply Hv|intros; cbn; apply not_elem_of_nil|intros; cbn; apply not_elem_of_nil|by intros x ?%not_elem_of_nil|].
  rewrite E1. cbn [rbind]. cbn in V1, S1, T1. injection T1 as T1a T1b T1c.
  destruct (install_services (sn_Services s) c1) as (c2 & ids & E2 & V2 & S2 & L2 & N2 & _ & R2 & A2 & G2).
  { intros x a Hx Hin. apply view_ok_spec. rewrite V1. by apply (Ha x). }
  { apply Hs. } { apply Hs. } { intros x _. rewrite T1a. apply not_elem_of_nil. } { intros x _. rewrite T1c. apply not_elem_of_nil. }
  rewrite E2. cbn [rbind].
  assert (K1 : c_records c1 = []) by (apply (foldR_const c_records putView) in E1; [done|]; by intros a d x [_ H]%putView_rest).
  assert (K2 : c_records c2 = []).
  { apply (foldR_const c_records (fun s => putService (drop_svc_id s))) in E2; [congruence|]. by intros a d x [_ H]%putService_rest. }
  destruct (install_records (sn_Records s) c2) as (c3 & E3 & T3 & V3 & S3 & I3).
  { intros x Hx. apply view_ok_spec. rewrite V2, V1. by apply Hrv. } { rewrite K2. constructor. }
  exists c3. split; [done|]. injection T3 as -> -> ->. rewrite V3, V2, V1, S3, S2, S1, R2, A2, G2, T1a, T1b, T1c.
  do 2 (split; [done|]). split; [done|]. by exists ids.
Qed.
(** The definitions of a snapshot, installed over any lists and rules. *)
Lemma install_definitions s c : snapshot_read s -> wf_conf c ->
  exists c', replaceBlacklistDefinitions (sn_Blacklist s) (sn_Lists s) (sn_Rules s) c = Ok c' /\
    (svc_tables c', c_views c', c_subnets c') = (svc_tables c, c_views c, c_subnets c) /\
    NoDup (bl_Name <$> c_lists c') /\
    (forall o, o ∈ c_lists c' -> exists l, l ∈ sn_Lists s /\ list_definition o = list_definition l) /\
    (forall l, l ∈ sn_Lists s -> exists o, o ∈ c_lists c' /\ list_definition o = list_definition l).
Proof.
  intros [_ _ _ _ _ [_ Hl] [_ Hr]] Hw. unfold replaceBlacklistDefinitions. cbv zeta.
  change (c_lists (setBlSettings (sn_Blacklist s) c)) with (c_lists c). set (ex := (fun l => (bl_Name l, bl_URL l)) <$> c_lists c).
  assert (Hex : ex.*1 = bl_Name <$> c_lists c) by (unfold ex; by rewrite <- list_fmap_compose).
  destruct (replace_lists_done ex (sn_Lists s) [] (setBlSettings (sn_Blacklist s) c)) as (c1 & E1 & [Dn _ Dr Dd] & R1 & T1); [|done|].
  { rewrite Hex. constructor; cbn; [apply Hw|done| |by intros l ?%not_elem_of_nil].
    intros o Ho. right. split; [apply not_elem_of_nil|by apply list_elem_of_fmap_2]. }
  rewrite E1. cbn [rbind]. set (gone := filter (fun n => n ∉ bl_Name <$> sn_Lists s) ex.*1).
  set (keep := filter (fun l => bl_Name l ∉ gone) (c_lists c1)). unfold replace_rules.
  set (c2 := with_rules (with_lists c1 keep (cnt (c_lists c1) - cnt keep)) [] (cnt (c_rules (with_lists c1 keep (cnt (c_lists c1) - cnt keep))))).
  destruct (install_rules (sn_Rules s) c2 Hr) as (c3 & E3); [intros; apply not_elem_of_nil|].
  exists c3. split; [done|]. assert (T3 : (svc_tables c3, c_views c3, c_subnets c3) = (svc_tables c2, c_views c2, c_subnets c2)).
  { apply (foldR_const (fun d => (svc_tables d, c_views d, c_subnets d)) putRule) in E3; [done|].
    intros a d x. unfold putRule. case_bool_decide; [done|]. by intros [= <-]. }
  apply putRules_spec in E3 as [[= _ El _ _] _]. rewrite T3, El. cbn [c2 with_rules with_lists c_lists].
  split; [|split; [|split]].
  - transitivity (svc_tables c1, c_views c1, c_subnets c1); [done|]. unfold svc_tables in *. clear -T1. injection T1 as ? ? ? ? ? ? ? ?. congruence.
  - by apply NoDup_fmap_filter'.
  - intros o [Hg Ho]%list_elem_of_filter. destruct (Dr o Ho) as [H|[H1 H2]]; [done|]. destruct Hg. by apply list_elem_of_filter.
  - intros l Hin. destruct (Dd l Hin) as (o & Ho & D). exists o. split; [|done]. apply list_elem_of_filter. split; [|done].
    rewrite (def_name _ _ D). intros [H _]%list_elem_of_filter. apply H. by apply list_elem_of_fmap_2.
Qed.
Lemma install_snapshot r s : wf_conf (conf r) -> snapshot_read s ->
  exists r' s', ApplySnapshot s r = (r', Ok tt) /\ TakeSnapshot r' = Some s' /\ content s' = content s.
Proof.
  intros Hr Hread. assert (Hread' := Hread). destruct Hread' as [Hv Hsv _ Hrec _ [Hl1 Hl2] [Hr1 Hr2]].
  destruct (install_registry s (conf r) Hread) as (c1 & E1 & V1 & S1 & I1 & ids & L1 & N1 & R1 & A1 & G1).
  set (v := match c_settings c1 with Some old => keep_local old (sn_Settings s) | None => sn_Settings s end).
  assert (W1 : wf_conf c1) by (by apply (replaceAll_wf _ _ _ _ _ Hr E1)).
  destruct (install_definitions s (putSettings v c1) Hread (putSettings_wf v c1 W1)) as (c2 & E2 & T2 & N2 & D2 & D2').
  assert (E : ApplySnapshot s r = (mkDB c2 (node r), Ok tt)).
  { unfold ApplySnapshot, tx, applySnapshot. rewrite E1. cbn [rbind]. fold v. rewrite E2. done. }
  pose proof (replaceBlacklistDefinitions_spec _ _ _ _ _ (wf_list_names _ (putSettings_wf v c1 W1)) E2) as (B2 & Set2 & Rec2 & Rul2 & _).
  pose proof (replaceAll_rest _ _ _ _ _ E1) as [_ Rec1]. cbn [putSettings with_settings c_settings c_records] in Set2, Rec2.
  assert (T2' : c_services c2 = c_services c1 /\ c_addresses c2 = c_addresses c1 /\ c_aliases c2 = c_aliases c1 /\
    c_views c2 = c_views c1 /\ c_subnets c2 = c_subnets c1) by (unfold svc_tables in T2; cbn in T2; clear -T2; injection T2; intros; by repeat split). clear T2.
  destruct T2' as (U1 & U2 & U3 & U4 & U5).
  destruct (installed_services_read (mkDB c2 (node r)) ids (sn_Services s) Hsv N1 L1) as (ss' & Es & Cs);
    [cbn; by rewrite U1|cbn; by rewrite U2|cbn; by rewrite U3|].
  assert (Ev : Views (mkDB c2 (node r)) = sn_Views s).
  { apply installed_views_read; [by rewrite U4|by rewrite U5|apply Hv|apply Hv|apply Hv]. }
  eexists (mkDB c2 (node r)), _. split; [done|]. unfold TakeSnapshot, SnapshotReads. rewrite Es. unfold GetSettings at 1. cbn [conf]. rewrite Set2.
  split; [reflexivity|]. unfold content. cbn [sn_Views sn_Services sn_Records sn_Settings sn_Blacklist sn_Lists sn_Rules].
  rewrite Ev, Cs, stored_twice. f_equal; [|by apply installed_rules_read]. f_equal; [|by apply installed_lists_read].
  f_equal; [|unfold GetBlacklistSettings; cbn; by rewrite B2].
  f_equal; [|unfold v; destruct (c_settings c1); done].
  f_equal. apply installed_records_read; [|by rewrite Rec2|by rewrite Rec2|done]. rewrite Rec2. apply W1.
Qed.

(** ** Reads that straddle no change
    Reads that all see the same replicated tables are one snapshot, whatever
    changed in the tables and columns that stay local. *)
Lemma metas_replicated a b : replicated (conf a) = replicated (conf b) ->
  list_definition <$> BlacklistListMetas a = list_definition <$> BlacklistListMetas b.
Proof.
  intros E. assert (H : list_definition <$> c_lists (conf a) = list_definition <$> c_lists (conf b)) by (unfold replicated in E; congruence).
  unfold BlacklistListMetas, BlacklistLists. rewrite <- !list_fmap_compose. change (list_definition ∘ without_body) with list_definition.
  rewrite <- !(merge_sort_fmap list_le def_le list_definition) by done. by rewrite H.
Qed.
Lemma reads_of_one_state r p s : wf_conf (conf p) -> (forall i, replicated (conf (r i)) = replicated (conf p)) -> SnapshotReads r = Some s ->
  snapshot_read s /\ exists sp, TakeSnapshot p = Some sp /\ content sp = content s.
Proof.
  intros Hw Hr. unfold SnapshotReads, TakeSnapshot, SnapshotReads.
  assert (Ev : Views (r 1%nat) = Views p) by (unfold Views; pose proof (Hr 1%nat) as H; unfold replicated in H; by injection H as -> ->).
  assert (Es : Services (r 2%nat) = Services p).
  { pose proof (Hr 2%nat) as H. unfold replicated in H. injection H as ? ? H1 H2 H3. unfold Services, Service_, load_service, addresses, aliases.
    by rewrite H1, H2, H3. }
  assert (Er : Records (r 3%nat) = Records p) by (unfold Records; pose proof (Hr 3%nat) as H; unfold replicated in H; congruence).
  assert (Eb : GetBlacklistSettings (r 5%nat) = GetBlacklistSettings p) by (unfold GetBlacklistSettings; pose proof (Hr 5%nat) as H; unfold replicated in H; congruence).
  assert (El : BlacklistRules (r 7%nat) = BlacklistRules p) by (unfold BlacklistRules; pose proof (Hr 7%nat) as H; unfold replicated in H; congruence).
  pose proof (metas_replicated _ _ (Hr 6%nat)) as Em. assert (Et : replicated_settings <$> GetSettings (r 4%nat) = replicated_settings <$> GetSettings p)
    by (unfold GetSettings; pose proof (Hr 4%nat) as H; unfold replicated in H; congruence).
  rewrite Ev, Es, Er, Eb, El. destruct (Services p) as [ss|] eqn:S; [|done].
  destruct (GetSettings (r 4%nat)) as [set|] eqn:G4; [|done]. destruct (GetSettings p) as [set'|] eqn:G; [|done]. intros [= <-].
  assert (Hp : TakeSnapshot p = Some (mkSnapshotInput (Views p) ss (Records p) set' (GetBlacklistSettings p) (BlacklistListMetas p) (BlacklistRules p))).
  { unfold TakeSnapshot, SnapshotReads. by rewrite S, G. }
  pose proof (TakeSnapshot_read p _ Hw Hp) as [H1 H2 H3 H4 H5 [H6 H7] H8]. cbn in H1, H2, H3, H4, H5, H6, H7, H8.
  split; [constructor; try done|].
  - cbn. split.
    + apply (StronglySorted_unfmap list_definition def_le). rewrite Em. by apply (StronglySorted_fmap list_definition list_le def_le).
    + assert (En : forall l l' : list BlacklistList, list_definition <$> l = list_definition <$> l' -> bl_Name <$> l = bl_Name <$> l').
      { clear. intros l. induction l as [|x l IH]; intros [|y l'] E; try done. cbn in *. injection E as E1 _ _ _ _ _ _ E. rewrite E1. f_equal. by apply IH. }
      by rewrite (En _ _ Em).
  - eexists. split; [done|]. unfold content. cbn. rewrite Em. f_equal. f_equal. f_equal. f_equal.
    cbn in Et. injection Et. unfold replicated_settings. cbn. intros. congruence.
Qed.

(** C32: applying a snapshot installs what was read.  A snapshot of any consistent
    primary applies on any consistent replica, whatever the replica held, and the
    replica then reads what the primary read: the same views and subnets, services
    with their addresses and aliases, records, replicated settings, filtering
    settings, block list definitions and rules, in the same order. *)
Theorem snapshot_round_trip p r s : wf_conf (conf p) -> wf_conf (conf r) -> TakeSnapshot p = Some s ->
  exists r' s', ApplySnapshot s r = (r', Ok tt) /\ TakeSnapshot r' = Some s' /\ content s' = content s.
Proof. intros Hp Hr Hs. apply install_snapshot; [done|]. by apply (TakeSnapshot_read p). Qed.

(** ** A concrete primary *)
Definition ex_primary : DB := exec (OpApplySnapshot ex_snapshot) db0.
Lemma ex_primary_wf : wf_conf (conf ex_primary).
Proof. apply exec_wf, wf_conf0. Qed.
Lemma snapshot_round_trip_witness : exists s, TakeSnapshot ex_primary = Some s /\
  exists r' s', ApplySnapshot s db0 = (r', Ok tt) /\ TakeSnapshot r' = Some s' /\ content s' = content s.
Proof.
  destruct (TakeSnapshot ex_primary) as [s|] eqn:E; [|vm_compute in E; discriminate E].
  exists s. split; [reflexivity|]. exact (snapshot_round_trip ex_primary db0 s ex_primary_wf wf_conf0 E).
Defined.
