(* ===== verification/Replica.v ===== *)
(** * The pull loop: [internal/replica/puller.go] and its primary

    One tick of the loop over what the network answered, the two halves of the
    transfer ([storeSource] of [internal/app/replication.go] and the appliers), and
    the whole of a primary that keeps being written to and a replica that follows
    it.  The node that is written is behind the interface [ReplicaNode].  A document
    is what its bytes decode to; logging is not modelled. *)
From S2P Require Import Prelude GoStr Model Store StoreNode StoreVersion StoreWf StoreProps ReplicaSync Health.

(** ** doc.go: the wire *)
Definition SchemaVersion : Z := 1.
Record VersionReply := mkVersionReply { vr_SchemaVersion : Z; vr_ConfigVersion : Z; vr_NodeID : string }.
(** [sw_Config] is [None] when the document does not decode. *)
Record WireSnapshot := mkWireSnapshot { sw_SchemaVersion : Z; sw_ConfigVersion : Z; sw_NodeID : string; sw_Config : option SnapshotInput }.

(** ** The primary's half *)
Definition wireHealthy : string := "healthy".
Definition wireUnhealthy : string := "unhealthy".
Definition wireUnknown : string := "unknown".
Definition wire_state (s : HealthState) : string :=
  match s with StateUp => wireHealthy | StateDown => wireUnhealthy | StateUnknown => wireUnknown end.
Definition SourceHealth (statuses : list HealthStatus) : gmap string string :=
  foldl (fun m st => <[hs_Name st := wire_state (hs_State st)]> m) ∅ statuses.
Definition SourceVersion (nodeID : string) (db : DB) : VersionReply := mkVersionReply SchemaVersion (ConfigVersion db) nodeID.
(** The version is read first, then the tables one by one. *)
Definition SourceSnapshot (nodeID : string) (r : nat -> DB) : option WireSnapshot :=
  match SnapshotReads r with
  | Some s => Some (mkWireSnapshot SchemaVersion (ConfigVersion (r 0%nat)) nodeID (Some s))
  | None => None
  end.

(** ** What the loop asks of the node it runs on *)
Inductive apply_error := BadDocument | ApplyStore (e : store_error) | ApplyRebuild (what : string).
Class ReplicaNode (W : Type) := {
  node_db : W -> DB;
  with_db : DB -> W -> W;
  Apply : option SnapshotInput -> W -> W * result apply_error unit }.
(** Writing the database leaves the rest alone, and applying a document is
    [Store.ApplySnapshot], which a later step of the same call may still report as
    a failure. *)
Class ReplicaNodeLaws (W : Type) `{ReplicaNode W} := {
  node_with_db d w : node_db (with_db d w) = d;
  apply_ok s w w' : Apply s w = (w', Ok tt) -> exists i, s = Some i /\ ApplySnapshot i (node_db w) = (node_db w', Ok tt);
  apply_err s w w' e : Apply s w = (w', Err e) -> node_db w' = node_db w \/
    exists i, s = Some i /\ ApplySnapshot i (node_db w) = (node_db w', Ok tt) }.
(** [SnapshotApplier]: the store alone. *)
Definition SnapshotApplier (s : option SnapshotInput) (db : DB) : DB * result apply_error unit :=
  match s with
  | None => (db, Err BadDocument)
  | Some i => match ApplySnapshot i db with (db, Ok _) => (db, Ok tt) | (db, Err e) => (db, Err (ApplyStore e)) end
  end.
#[export] Instance store_node : ReplicaNode DB := {| node_db d := d; with_db d _ := d; Apply := SnapshotApplier |}.
#[export] Instance store_node_laws : ReplicaNodeLaws DB.
Proof.
  constructor; [done| |].
  - intros [i|] w w'; cbn; [|done]. destruct (ApplySnapshot i w) as [d [[]|e]] eqn:E; [|done]. intros [= <-]. by exists i.
  - intros [i|] w w' e; cbn; [|intros [= <- _]; by left]. destruct (ApplySnapshot i w) as [d [[]|e']] eqn:E; [done|]. intros [= <- _]. left.
    unfold ApplySnapshot, tx in E. destruct (applySnapshot i (conf w)) as [[[] c]|]; [done|]. by injection E as <- _.
Qed.

(** ** puller.go *)
Definition staleAfter : Z := 60000000000.
Definition healthUnknownState : string := "unknown".
Record PullerConfig := mkPC { pc_Pinned : string; pc_Interval : Z; pc_Ceiling : Z }.
Inductive poll_error := EDial (e : string) | ERequest (e : string) | ENode (got : string) | ESchema (got : Z) | EApply (e : apply_error) | EState (e : string).
(** [lastErr] without its text; a time that was never set is [None]. *)
Record Puller := mkPuller { pu_cfg : PullerConfig; pu_conn : bool; pu_lastVersion : Z; pu_lastSyncAt : option Z; pu_lastErr : option poll_error;
  pu_backoff : Z; pu_health : gmap string string; pu_healthKnown : bool }.
Definition NewPuller (cfg : PullerConfig) (state : result string (string * Z)) : Puller :=
  let '(nodeID, version) := match state with Ok x => x | Err _ => ("", 0) end in
  mkPuller cfg false (if bool_decide (nodeID = pc_Pinned cfg) then version else 0) None
    (match state with Ok _ => None | Err e => Some (EState e) end) (pc_Interval cfg) ∅ false.

Definition with_conn b p := mkPuller (pu_cfg p) b (pu_lastVersion p) (pu_lastSyncAt p) (pu_lastErr p) (pu_backoff p) (pu_health p) (pu_healthKnown p).
Definition record (e : poll_error) p := mkPuller (pu_cfg p) (pu_conn p) (pu_lastVersion p) (pu_lastSyncAt p) (Some e) (pu_backoff p) (pu_health p) (pu_healthKnown p).
Definition with_backoff b p := mkPuller (pu_cfg p) (pu_conn p) (pu_lastVersion p) (pu_lastSyncAt p) (pu_lastErr p) b (pu_health p) (pu_healthKnown p).
Definition with_health h k p := mkPuller (pu_cfg p) (pu_conn p) (pu_lastVersion p) (pu_lastSyncAt p) (pu_lastErr p) (pu_backoff p) h k.
Definition dropConn := with_conn false.
Definition healthUnknown p := with_health (pu_health p) false p.
Definition backoff_next (p : Puller) : Z :=
  let b := int64 (pu_backoff p * 2) in if pc_Ceiling (pu_cfg p) <? b then pc_Ceiling (pu_cfg p) else b.
Definition unreachable e p := with_backoff (backoff_next p) (record e p).
Definition reject e p := with_backoff (backoff_next p) (record e p).
Definition reachable p := with_backoff (pc_Interval (pu_cfg p)) p.
Definition fail_ := record.
Definition synced (v now : Z) p := mkPuller (pu_cfg p) (pu_conn p) v (Some now) None (pu_backoff p) (pu_health p) (pu_healthKnown p).
Definition held (p : Puller) : Z := pu_lastVersion p.
Definition checkNodeID (p : Puller) (got : string) : result poll_error unit :=
  if bool_decide (got = pc_Pinned (pu_cfg p)) then Ok tt else Err (ENode got).
Definition pollHealth (reply : result string (gmap string string)) p : Puller :=
  match reply with Err _ => healthUnknown p | Ok m => with_health m true p end.
Definition Health (p : Puller) : gmap string string := (fun v => if pu_healthKnown p then v else healthUnknownState) <$> pu_health p.
Definition wait (p : Puller) : Z := pu_backoff p.
Record ReplStatus := mkReplStatus { rs_PrimaryNodeID : string; rs_LastSyncAt : option Z; rs_LastVersion : Z; rs_LastError : option poll_error; rs_Stale : bool }.
(** The zero time is centuries ago. *)
Definition Status (now : Z) (p : Puller) : ReplStatus :=
  mkReplStatus (pc_Pinned (pu_cfg p)) (pu_lastSyncAt p) (pu_lastVersion p) (pu_lastErr p)
    (match pu_lastSyncAt p with Some t => staleAfter <? now - t | None => true end).

(** What one tick meets: the dial if there is one, the replies to the three
    requests, whether the bookkeeping can be written, and the clock. *)
Record Tick := mkTick { tk_dial : result string unit; tk_version : result string VersionReply; tk_health : result string (gmap string string);
  tk_snapshot : result string WireSnapshot; tk_state : option string; tk_now : Z }.
Definition connect (t : Tick) (p : Puller) : result string Puller :=
  if pu_conn p then Ok p else match tk_dial t with Err e => Err e | Ok _ => Ok (with_conn true p) end.

Section Poll.
Context {W : Type} `{RN : ReplicaNode W}.
(** The second half of a tick: the document, applied and recorded. *)
Definition pull (t : Tick) (p : Puller) (w : W) : Puller * W :=
  match tk_snapshot t with
  | Err e => (fail_ (ERequest e) (dropConn p), w)
  | Ok snap =>
      match checkNodeID p (sw_NodeID snap) with
      | Err e => (fail_ e (dropConn p), w)
      | Ok _ =>
          if negb (sw_SchemaVersion snap =? SchemaVersion) then (fail_ (ESchema (sw_SchemaVersion snap)) p, w)
          else match Apply (sw_Config snap) w with
          | (w, Err e) => (fail_ (EApply e) p, w)
          | (w, Ok _) =>
              match tk_state t with
              | Some e => (fail_ (EState e) p, w)
              | None => (synced (sw_ConfigVersion snap) (tk_now t) p,
                         with_db (SetReplicaState (pc_Pinned (pu_cfg p)) (sw_ConfigVersion snap) (node_db w)).1 w)
              end
          end
      end
  end.
Definition poll (t : Tick) (p : Puller) (w : W) : Puller * W :=
  match connect t p with
  | Err e => (healthUnknown (unreachable (EDial e) p), w)
  | Ok p =>
      match tk_version t with
      | Err e => (healthUnknown (unreachable (ERequest e) (dropConn p)), w)
      | Ok v =>
          match checkNodeID p (vr_NodeID v) with
          | Err e => (healthUnknown (reject e (dropConn p)), w)
          | Ok _ =>
              let p := reachable p in
              if negb (vr_SchemaVersion v =? SchemaVersion) then (healthUnknown (fail_ (ESchema (vr_SchemaVersion v)) p), w)
              else
                let p := pollHealth (tk_health t) p in
                if vr_ConfigVersion v =? held p then (synced (vr_ConfigVersion v) (tk_now t) p, w)
                else pull t p w
          end
      end
  end.
End Poll.

(** ** A replica's own view of service health *)
Definition localHealthState (wire : string) : HealthState :=
  if bool_decide (wire = wireHealthy) then StateUp else if bool_decide (wire = wireUnhealthy) then StateDown else StateUnknown.
(** No puller is a replica that was never paired. *)
Definition replicaHealth (db : DB) (p : option Puller) : list (Z * string * HealthState) :=
  let states := match p with Some p => Health p | None => ∅ end in
  match Services db with
  | Err _ => []
  | Ok ss => (fun s => (s_ID s, s_Name s, localHealthState (default "" (states !! s_Name s)))) <$> ss
  end.

(** ** Lemmas: one tick *)
(** The primary answered as the pinned node. *)
Definition answered (t : Tick) (p : Puller) : bool :=
  match connect t p with
  | Err _ => false
  | Ok _ => match tk_version t with Err _ => false | Ok v => bool_decide (vr_NodeID v = pc_Pinned (pu_cfg p)) end
  end.
(** The health a tick heard: that of a primary that answered and speaks this schema. *)
Definition heard (t : Tick) (p : Puller) : option (gmap string string) :=
  if answered t p then
    match tk_version t, tk_health t with
    | Ok v, Ok m => if vr_SchemaVersion v =? SchemaVersion then Some m else None
    | _, _ => None
    end
  else None.
Lemma connect_cfg t p p' : connect t p = Ok p' -> pu_cfg p' = pu_cfg p /\ pu_health p' = pu_health p /\ pu_backoff p' = pu_backoff p /\
  pu_lastVersion p' = pu_lastVersion p.
Proof. unfold connect. destruct (pu_conn p); [by intros [= <-]|]. destruct (tk_dial t); [|done]. by intros [= <-]. Qed.

Section PollProps.
Context {W : Type} `{RN : ReplicaNode W}.
Lemma pull_health t p w : let p' := (pull t p w).1 in
  Health p' = Health p /\ pu_cfg p' = pu_cfg p /\ pu_backoff p' = pu_backoff p.
Proof.
  unfold pull. destruct (tk_snapshot t) as [s|]; [|done]. destruct (checkNodeID p _); [|done]. destruct (negb _); [done|].
  destruct (Apply _ w) as [w' [[]|]]; [|done]. by destruct (tk_state t).
Qed.
Lemma poll_cases t p w :
  let '(p', w') := poll t p w in
  pu_cfg p' = pu_cfg p /\
  Health p' = match heard t p with Some m => m | None => (fun _ => healthUnknownState) <$> pu_health p end /\
  pu_backoff p' = if answered t p then pc_Interval (pu_cfg p) else backoff_next p.
Proof.
  unfold poll, heard, answered. destruct (connect t p) as [q|e] eqn:C.
  2: { split; [done|]. split; [done|]. done. }
  apply connect_cfg in C as (C1 & C2 & C3 & C4). destruct (tk_version t) as [v|e].
  2: { cbn. rewrite C1. split; [done|]. unfold Health. cbn. rewrite C2. split; [done|]. unfold backoff_next. cbn. by rewrite C1, C3. }
  unfold checkNodeID. rewrite C1. destruct (bool_decide_reflect (vr_NodeID v = pc_Pinned (pu_cfg p))) as [E|E].
  2: { cbn. rewrite C1. split; [done|]. unfold Health. cbn. rewrite C2. split; [done|]. unfold backoff_next. cbn. by rewrite C1, C3. }
  destruct (Z.eqb_spec (vr_SchemaVersion v) SchemaVersion) as [S|S]; cbn [negb].
  2: { cbn. rewrite C1. split; [done|]. unfold Health. cbn. rewrite C2. split; [by destruct (tk_health t)|done]. }
  set (q' := pollHealth (tk_health t) (reachable q)).
  assert (Hq : pu_cfg q' = pu_cfg p /\ Health q' = match tk_health t with Ok m => m | Err _ => (fun _ => healthUnknownState) <$> pu_health p end /\
    pu_backoff q' = pc_Interval (pu_cfg p)).
  { unfold q', pollHealth, Health. destruct (tk_health t) as [m|]; cbn; rewrite C1, ?C2; [|done]. split; [done|]. split; [|done].
    apply map_fmap_id. }
  destruct Hq as (H1 & H2 & H3). destruct (vr_ConfigVersion v =? held q').
  - cbn. rewrite H1. split; [done|]. split; [|done]. unfold Health in *. cbn. rewrite H2. by destruct (tk_health t).
  - pose proof (pull_health t q' w) as (P1 & P2 & P3). destruct (pull t q' w) as [p' w']. cbn [fst] in *. rewrite P2, H1. split; [done|].
    split; [|by rewrite P3, H3]. rewrite P1, H2. by destruct (tk_health t).
Qed.

(** service health is never stale and green.  After any tick, whatever failed in
    it, the verdicts a replica shows are exactly those of this tick's health reply if
    the pinned primary answered in this schema, and otherwise unknown for every
    service it ever heard of. *)
Theorem health_never_stale t p w :
  Health (poll t p w).1 = match heard t p with Some m => m | None => (fun _ => healthUnknownState) <$> pu_health p end.
Proof. pose proof (poll_cases t p w) as H. destruct (poll t p w). apply H. Qed.

(** ** Backing off *)
Fixpoint polls (ts : list Tick) (p : Puller) (w : W) : Puller * W :=
  match ts with [] => (p, w) | t :: ts => let '(p, w) := poll t p w in polls ts p w end.
(** How many ticks in a row the primary has not answered, [n] before the first. *)
Fixpoint missed (ts : list Tick) (p : Puller) (w : W) (n : nat) : nat :=
  match ts with [] => n | t :: ts => let '(p', w') := poll t p w in missed ts p' w' (if answered t p then O else S n) end.
Lemma polls_backoff ts : forall p w n, 0 < pc_Interval (pu_cfg p) <= pc_Ceiling (pu_cfg p) -> pc_Ceiling (pu_cfg p) < 2 ^ 62 ->
  pu_backoff p = Z.min (pc_Ceiling (pu_cfg p)) (pc_Interval (pu_cfg p) * 2 ^ Z.of_nat n) ->
  pu_backoff (polls ts p w).1 = Z.min (pc_Ceiling (pu_cfg p)) (pc_Interval (pu_cfg p) * 2 ^ Z.of_nat (missed ts p w n)).
Proof.
  induction ts as [|t ts IH]; intros p w n Hi Hc Hb; [done|]. cbn [polls missed]. pose proof (poll_cases t p w) as P.
  destruct (poll t p w) as [p' w']. destruct P as (E & _ & Hb'). rewrite <- E. apply IH; rewrite ?E; [done|done|]. rewrite Hb'.
  destruct (answered t p); [rewrite Z.mul_1_r; lia|]. unfold backoff_next. rewrite Hb. rewrite Nat2Z.inj_succ, Z.pow_succ_r by lia.
  assert (0 < 2 ^ Z.of_nat n) by (apply Z.pow_pos_nonneg; lia). set (x := pc_Interval (pu_cfg p) * 2 ^ Z.of_nat n) in *.
  assert (Hx : pc_Interval (pu_cfg p) * (2 * 2 ^ Z.of_nat n) = 2 * x) by (unfold x; lia). rewrite Hx. assert (0 < x) by (unfold x; nia).
  unfold int64. rewrite Z.mod_small by lia.
  destruct (Z.ltb_spec (pc_Ceiling (pu_cfg p)) (Z.min (pc_Ceiling (pu_cfg p)) x * 2 + 2 ^ 63 - 2 ^ 63)); lia.
Qed.
(** how long a replica waits.  After any ticks the wait is the interval doubled
    once for every tick in a row that the pinned primary has not answered, and never
    more than the ceiling; an answer of the pinned node brings it back to the
    interval at once, and the doubling does not overflow. *)
Theorem backoff_doubles_to_ceiling cfg st ts w : 0 < pc_Interval cfg <= pc_Ceiling cfg -> pc_Ceiling cfg < 2 ^ 62 ->
  wait (polls ts (NewPuller cfg st) w).1 = Z.min (pc_Ceiling cfg) (pc_Interval cfg * 2 ^ Z.of_nat (missed ts (NewPuller cfg st) w 0)).
Proof.
  intros Hi Hc. assert (E : pu_cfg (NewPuller cfg st) = cfg) by (unfold NewPuller; by destruct st as [[]|]).
  rewrite <- E at 2 3. apply polls_backoff; rewrite ?E; [done|done|]. unfold NewPuller. rewrite Z.mul_1_r. destruct st as [[]|]; cbn; lia.
Qed.
End PollProps.

(** ** Lemmas: what a tick writes *)
Section PollWrites.
Context {W : Type} `{RN : ReplicaNode W, RL : !ReplicaNodeLaws W}.
(** A document of the pinned primary, in this schema, that the store took. *)
Definition took (t : Tick) (p : Puller) (w : W) (x : WireSnapshot) (d : DB) : Prop :=
  (exists v, tk_version t = Ok v /\ vr_NodeID v = pc_Pinned (pu_cfg p) /\ vr_SchemaVersion v = SchemaVersion /\ vr_ConfigVersion v <> held p) /\
  tk_snapshot t = Ok x /\ sw_NodeID x = pc_Pinned (pu_cfg p) /\ sw_SchemaVersion x = SchemaVersion /\
  exists i, sw_Config x = Some i /\ ApplySnapshot i (node_db w) = (d, Ok tt).
Lemma poll_writes_lemma t p w :
  let '(p', w') := poll t p w in
  pu_cfg p' = pu_cfg p /\
  ((held p' = held p /\ node_db w' = node_db w) \/
   exists x d, took t p w x d /\
     ((held p' = held p /\ node_db w' = d) \/
      (held p' = sw_ConfigVersion x /\ node_db w' = (SetReplicaState (pc_Pinned (pu_cfg p)) (sw_ConfigVersion x) d).1))).
Proof.
  unfold poll. destruct (connect t p) as [q|e] eqn:C; [|split; [done|by left]].
  apply connect_cfg in C as (C1 & _ & _ & C4). destruct (tk_version t) as [v|e] eqn:V; [|split; [done|left; split; [done|done]]].
  unfold checkNodeID at 1. rewrite C1. destruct (bool_decide_reflect (vr_NodeID v = pc_Pinned (pu_cfg p))) as [E|E];
    [|split; [done|left; split; [done|done]]].
  destruct (Z.eqb_spec (vr_SchemaVersion v) SchemaVersion) as [S|S]; cbn [negb]; [|split; [done|left; split; [done|done]]].
  set (q' := pollHealth (tk_health t) (reachable q)).
  assert (Hq : pu_cfg q' = pu_cfg p /\ held q' = held p) by (unfold q', pollHealth; destruct (tk_health t); by split).
  destruct Hq as [Q1 Q2]. destruct (Z.eqb_spec (vr_ConfigVersion v) (held q')) as [H|H].
  { split; [done|]. left. split; [|done]. by rewrite <- Q2, <- H. }
  unfold pull. destruct (tk_snapshot t) as [x|] eqn:X; [|split; [done|left; split; [done|done]]].
  unfold checkNodeID. rewrite Q1. destruct (bool_decide_reflect (sw_NodeID x = pc_Pinned (pu_cfg p))) as [E'|E'];
    [|split; [done|left; split; [done|done]]].
  destruct (Z.eqb_spec (sw_SchemaVersion x) SchemaVersion) as [S'|S']; cbn [negb]; [|split; [done|left; split; [done|done]]].
  rewrite Q2 in H. assert (Htook : forall i d, sw_Config x = Some i -> ApplySnapshot i (node_db w) = (d, Ok tt) -> took t p w x d).
  { intros i d Hi Ha. split; [by exists v|]. do 3 (split; [done|]). by exists i. }
  destruct (Apply (sw_Config x) w) as [w' [[]|e]] eqn:A.
  - apply apply_ok in A as (i & Hi & Ha). destruct (tk_state t).
    + split; [done|]. right. exists x, (node_db w'). split; [by apply (Htook i)|]. by left.
    + split; [done|]. right. exists x, (node_db w'). split; [by apply (Htook i)|]. right. split; [done|]. by rewrite node_with_db.
  - split; [done|]. apply apply_err in A as [A|(i & Hi & Ha)]; [left; by split|].
    right. exists x, (node_db w'). split; [by apply (Htook i)|]. by left.
Qed.
(** what a tick may write.  The database of a replica changes only by a document
    that came, as did the version before it, under the node ID of the pinned primary
    and in this schema, and that the store applied whole; the version it claims to
    hold moves only to that document's, after the application, and what is recorded
    next to it is the pinned key, never one a reply named. *)
Theorem only_pinned_documents_applied t p w :
  let '(p', w') := poll t p w in
  (held p' = held p /\ node_db w' = node_db w) \/
  exists x d, took t p w x d /\
    ((held p' = held p /\ node_db w' = d) \/
     (held p' = sw_ConfigVersion x /\ node_db w' = (SetReplicaState (pc_Pinned (pu_cfg p)) (sw_ConfigVersion x) d).1)).
Proof. pose proof (poll_writes_lemma t p w) as H. destruct (poll t p w). apply H. Qed.
End PollWrites.

(** ** A primary that is written to and a replica that follows it *)
Definition later (p p' : DB) : Prop := exists ops, p' = foldl (fun d op => exec op d) p ops.
Section System.
Context {W : Type} `{RN : ReplicaNode W, RL : !ReplicaNodeLaws W} (cfg : PullerConfig).
Record Sys := mkSys { sy_primary : DB; sy_puller : Puller; sy_node : W }.
Inductive sys_step : Sys -> Sys -> Prop :=
  (* the primary is written to, through any method of its store *)
  | SWrite op s : sys_step s (mkSys (exec op (sy_primary s)) (sy_puller s) (sy_node s))
  (* the replica writes what is its own: leases, tokens, downloaded lists, its DHCP fields *)
  | SLocal op s : replicated (conf (exec op (node_db (sy_node s)))) = replicated (conf (node_db (sy_node s))) ->
      ReplicaState (exec op (node_db (sy_node s))) = ReplicaState (node_db (sy_node s)) ->
      sys_step s (mkSys (sy_primary s) (sy_puller s) (with_db (exec op (node_db (sy_node s))) (sy_node s)))
  (* a tick: any of its requests may fail or be answered by someone else, and the
     primary may be written to between any two of its reads *)
  | SPoll t v r p' s : later (sy_primary s) v -> later v (r 0%nat) -> (forall i, later (r i) (r (S i))) -> (forall i, later (r i) p') ->
      (forall x, tk_version t = Ok x -> vr_NodeID x = pc_Pinned cfg -> x = SourceVersion (pc_Pinned cfg) v) ->
      (forall x, tk_snapshot t = Ok x -> sw_NodeID x = pc_Pinned cfg -> SourceSnapshot (pc_Pinned cfg) r = Some x) ->
      sys_step s (mkSys p' (poll t (sy_puller s) (sy_node s)).1 (poll t (sy_puller s) (sy_node s)).2)
  (* the replica restarts *)
  | SRestart s : sys_step s (mkSys (sy_primary s) (NewPuller cfg (Ok (ReplicaState (node_db (sy_node s))))) (sy_node s)).
Definition same_content (p r : DB) : Prop :=
  exists sp sr, TakeSnapshot p = Some sp /\ TakeSnapshot r = Some sr /\ content sr = content sp.
Record sys_inv (s : Sys) : Prop := {
  si_primary : wf_conf (conf (sy_primary s));
  si_replica : wf_conf (conf (node_db (sy_node s)));
  si_cfg : pu_cfg (sy_puller s) = cfg;
  si_state : ReplicaState (node_db (sy_node s)) = (pc_Pinned cfg, held (sy_puller s));
  si_held : held (sy_puller s) <= ConfigVersion (sy_primary s);
  si_same : held (sy_puller s) <> 0 -> held (sy_puller s) = ConfigVersion (sy_primary s) -> same_content (sy_primary s) (node_db (sy_node s)) }.

Lemma later_steps p p' : later p p' -> steps (conf p) (conf p') /\ (wf_conf (conf p) -> wf_conf (conf p')).
Proof.
  intros [ops ->]. revert p. induction ops as [|op ops IH]; intros p; [done|]. cbn [foldl]. destruct (IH (exec op p)) as [H1 H2].
  split; [etrans; [apply exec_steps|done]|]. intros H. by apply H2, exec_wf.
Qed.
Lemma same_content_replicated p p' r r' : wf_conf (conf p') -> wf_conf (conf r') -> replicated (conf p) = replicated (conf p') ->
  replicated (conf r) = replicated (conf r') -> same_content p r -> same_content p' r'.
Proof.
  intros Hp Hr Ep Er (sp & sr & H1 & H2 & E).
  destruct (reads_of_one_state (fun _ => p) p' sp Hp (fun _ => Ep) H1) as (_ & sp' & H1' & E1).
  destruct (reads_of_one_state (fun _ => r) r' sr Hr (fun _ => Er) H2) as (_ & sr' & H2' & E2).
  exists sp', sr'. do 2 (split; [done|]). congruence.
Qed.
(** A document read while the primary moved from [r 0] to [p'], if the version did not. *)
Lemma document_content r p' i db d : wf_conf (conf p') -> wf_conf (conf db) -> (forall j, later (r j) (r (S j))) -> (forall j, later (r j) p') ->
  SnapshotReads r = Some i -> ConfigVersion (r 0%nat) = ConfigVersion p' -> ApplySnapshot i db = (d, Ok tt) -> same_content p' d.
Proof.
  intros Hp Hd Hc Hl Hr Hv Ha. assert (H0 : forall j, steps (conf (r 0%nat)) (conf (r j))).
  { intros j. induction j as [|j IH]; [done|]. etrans; [exact IH|]. by apply later_steps. }
  assert (Hrep : forall j, replicated (conf (r j)) = replicated (conf p')).
  { intros j. destruct (H0 j) as [A1 _]. destruct (later_steps _ _ (Hl j)) as [[B1 B2] _]. unfold ConfigVersion in Hv. symmetry. apply B2. lia. }
  destruct (reads_of_one_state r p' i Hp Hrep Hr) as (Hread & sp & Hsp & Ec).
  destruct (install_snapshot db i Hd Hread) as (d' & s' & E1 & E2 & E3). rewrite Ha in E1. injection E1 as ->.
  exists sp, s'. do 2 (split; [done|]). congruence.
Qed.
Lemma poll_inv t v r p' s : sys_inv s -> later (sy_primary s) v -> later v (r 0%nat) -> (forall i, later (r i) (r (S i))) -> (forall i, later (r i) p') ->
  (forall x, tk_version t = Ok x -> vr_NodeID x = pc_Pinned cfg -> x = SourceVersion (pc_Pinned cfg) v) ->
  (forall x, tk_snapshot t = Ok x -> sw_NodeID x = pc_Pinned cfg -> SourceSnapshot (pc_Pinned cfg) r = Some x) ->
  sys_inv (mkSys p' (poll t (sy_puller s) (sy_node s)).1 (poll t (sy_puller s) (sy_node s)).2).
Proof.
  intros [Hp Hr Hcfg Hst Hh Hsame] L1 L2 Lc Lp Hv Hs. pose proof (poll_writes_lemma t (sy_puller s) (sy_node s)) as H.
  destruct (poll t (sy_puller s) (sy_node s)) as [pu w]. cbn [fst snd]. destruct H as [Ecfg H]. rewrite Hcfg in *.
  destruct (later_steps _ _ L1) as [[V1 V1'] W1], (later_steps _ _ L2) as [[V2 V2'] W2], (later_steps _ _ (Lp 0%nat)) as [[V3 V3'] W3].
  assert (Hwf : wf_conf (conf p')) by auto. unfold ConfigVersion in *. destruct H as [[E1 E2]|(x & d & (Hver & Hsnap & Hid & _ & i & Hi & Ha) & Hcase)].
  - constructor; cbn [sy_primary sy_puller sy_node]; unfold ConfigVersion; rewrite ?E1, ?E2; try done; [lia|]. intros Hn He.
    apply (same_content_replicated (sy_primary s) p' (node_db (sy_node s)) (node_db (sy_node s))); [done..| |done|apply Hsame; lia].
    symmetry. rewrite V3', V2', V1'; [done|lia..].
  - destruct Hver as (y & Hy & Hyid & _ & Hne). rewrite Hcfg in Hyid, Hid. specialize (Hv y Hy Hyid). specialize (Hs x Hsnap Hid).
    subst y. cbn in Hne. unfold ConfigVersion in Hne. unfold SourceSnapshot in Hs. destruct (SnapshotReads r) as [i'|] eqn:R; [|done].
    injection Hs as <-. cbn in Hi. injection Hi as ->. cbn [sw_ConfigVersion] in Hcase.
    assert (Hd : wf_conf (conf d) /\ node d = node (node_db (sy_node s))).
    { pose proof (exec_wf (OpApplySnapshot i) (node_db (sy_node s)) Hr) as H1. pose proof (tx_node (applySnapshot i) (node_db (sy_node s))) as H2.
      change (tx (applySnapshot i)) with (ApplySnapshot i) in H2. cbn [exec] in H1. rewrite Ha in H1, H2. split; [exact H1|exact H2]. }
    destruct Hd as [Hd1 Hd2]. destruct Hcase as [[E1 E2]|[E1 E2]].
    + constructor; cbn [sy_primary sy_puller sy_node]; unfold ConfigVersion; rewrite ?E1, ?E2; try done; [|lia|intros; exfalso; lia].
      unfold ReplicaState in *. by rewrite Hd2.
    + constructor; cbn [sy_primary sy_puller sy_node]; unfold ConfigVersion; rewrite ?E1, ?E2; try done. intros _ He.
      assert (S : same_content p' d) by (by apply (document_content r p' i (node_db (sy_node s)) d)). destruct S as (sp & sr & S1 & S2 & S3).
      exists sp, sr. split; [exact S1|]. split; [exact S2|exact S3].
Qed.
Lemma NewPuller_held v : held (NewPuller cfg (Ok (pc_Pinned cfg, v))) = v.
Proof. unfold NewPuller, held. cbn. by rewrite bool_decide_eq_true_2. Qed.
Lemma sys_step_inv s s' : sys_step s s' -> sys_inv s -> sys_inv s'.
Proof.
  intros Hstep. destruct Hstep as [op s|op s Hrep Hrs|t v r p' s L1 L2 Lc Lp Hv Hs|s]; intros Hinv; [| |by eapply poll_inv|];
    destruct Hinv as [Hp Hr Hcfg Hst Hh Hsame]; constructor; cbn [sy_primary sy_puller sy_node]; rewrite ?node_with_db; try done.
  - by apply exec_wf.
  - pose proof (exec_steps op (sy_primary s)) as [V _]. unfold ConfigVersion in *. lia.
  - intros Hn He. pose proof (exec_steps op (sy_primary s)) as [V V']. unfold ConfigVersion in *.
    assert (E : c_version (conf (exec op (sy_primary s))) = c_version (conf (sy_primary s))) by lia.
    apply (same_content_replicated (sy_primary s) _ (node_db (sy_node s)) _); [by apply exec_wf|done|symmetry; by apply V'|done|].
    apply Hsame; [done|lia].
  - by apply exec_wf.
  - by rewrite Hrs.
  - intros Hn He. apply (same_content_replicated (sy_primary s) _ (node_db (sy_node s)) _); [done|by apply exec_wf|done|done|by apply Hsame].
  - by rewrite Hst.
  - by rewrite Hst, NewPuller_held.
  - by rewrite Hst, NewPuller_held.
  - by rewrite Hst, NewPuller_held.
Qed.
(** A replica that was just paired: nothing held. *)
Definition paired (s : Sys) : Prop :=
  wf_conf (conf (sy_primary s)) /\ wf_conf (conf (node_db (sy_node s))) /\ 0 <= ConfigVersion (sy_primary s) /\
  ReplicaState (node_db (sy_node s)) = (pc_Pinned cfg, 0) /\ sy_puller s = NewPuller cfg (Ok (pc_Pinned cfg, 0)).
Lemma paired_inv s : paired s -> sys_inv s.
Proof.
  intros (Hp & Hr & Hv & Hst & Hpu). assert (E : held (sy_puller s) = 0) by (rewrite Hpu; cbn; by rewrite bool_decide_eq_true_2).
  constructor; rewrite ?E; try done. by rewrite Hpu.
Qed.
Lemma reachable_inv s s' : sys_inv s -> rtc sys_step s s' -> sys_inv s'.
Proof. intros H Hs. induction Hs as [s|s t s' H1 _ IH]; [done|]. by apply IH, (sys_step_inv s). Qed.

(** C14: a replica holds what it says it holds.  From pairing on, through any writes on
    the primary, also between the reads of one snapshot, any failed or foreign reply,
    any local write and any restart of the replica: the version it holds is never
    ahead of the primary, and whenever the two are equal the replica reads the
    primary's views, services, records, replicated settings, block list definitions
    and rules, so it stops asking only when there is nothing to ask for. *)
Theorem replica_holds_what_it_claims s s' : paired s -> rtc sys_step s s' ->
  held (sy_puller s') <= ConfigVersion (sy_primary s') /\
  (held (sy_puller s') <> 0 -> held (sy_puller s') = ConfigVersion (sy_primary s') -> same_content (sy_primary s') (node_db (sy_node s'))).
Proof. intros H Hs. destruct (reachable_inv s s' (paired_inv s H) Hs). done. Qed.

(** The node rebuilds from whatever configuration its store takes. *)
Definition rebuilds (w : W) : Prop := forall i d, ApplySnapshot i (node_db w) = (d, Ok tt) -> exists w', Apply (Some i) w = (w', Ok tt).
Lemma clean_poll t p s x : sys_inv s -> rebuilds (sy_node s) -> p = sy_primary s ->
  tk_dial t = Ok tt -> tk_version t = Ok (SourceVersion (pc_Pinned cfg) p) -> SourceSnapshot (pc_Pinned cfg) (fun _ => p) = Some x ->
  tk_snapshot t = Ok x -> tk_state t = None ->
  let '(pu, _) := poll t (sy_puller s) (sy_node s) in
  held pu = ConfigVersion p /\ pu_lastErr pu = None /\ wait pu = pc_Interval cfg /\ rs_Stale (Status (tk_now t) pu) = false.
Proof.
  intros [Hp Hr Hcfg Hst Hh Hsame] Hrb -> Hd Hv Hx Hs Ht. unfold poll.
  assert (C : exists q, connect t (sy_puller s) = Ok q) by (unfold connect; rewrite Hd; destruct (pu_conn (sy_puller s)); by eexists).
  destruct C as [q C]. rewrite C. apply connect_cfg in C as (C1 & _ & _ & C4). rewrite Hcfg in C1. rewrite Hv. unfold checkNodeID at 1.
  cbn [vr_NodeID vr_SchemaVersion vr_ConfigVersion SourceVersion]. rewrite C1, bool_decide_eq_true_2 by done.
  change (negb (SchemaVersion =? SchemaVersion)) with false. cbv iota. set (q' := pollHealth (tk_health t) (reachable q)).
  assert (Hq : pu_cfg q' = cfg /\ held q' = held (sy_puller s) /\ wait q' = pc_Interval cfg).
  { unfold q', pollHealth, wait. destruct (tk_health t); cbn; rewrite C1; by repeat split. }
  destruct Hq as (Q1 & Q2 & Q3).
  assert (Hfresh : rs_Stale (Status (tk_now t) (synced (ConfigVersion (sy_primary s)) (tk_now t) q')) = false).
  { cbn. rewrite Z.sub_diag. done. }
  destruct (Z.eqb_spec (ConfigVersion (sy_primary s)) (held q')) as [E|E]; [done|].
  unfold SourceSnapshot in Hx. destruct (SnapshotReads (fun _ => sy_primary s)) as [i|] eqn:R; [|done]. injection Hx as <-.
  unfold pull. rewrite Hs. unfold checkNodeID. cbn [sw_NodeID sw_SchemaVersion sw_Config sw_ConfigVersion]. rewrite Q1, bool_decide_eq_true_2 by done.
  change (negb (SchemaVersion =? SchemaVersion)) with false. cbv iota.
  destruct (install_snapshot (node_db (sy_node s)) i Hr (TakeSnapshot_read _ i Hp R)) as (d & s' & Ha & _).
  destruct (Hrb i d Ha) as [w' Hw]. rewrite Hw, Ht. done.
Qed.
(** C36: a reachable primary is followed.  Whatever went wrong before, one tick in which
    the pinned primary answers every request, and the node can rebuild from what it
    pulled, leaves the replica holding the primary's version and content, with no
    error, not stale, and waiting one plain interval for the next. *)
Theorem clean_poll_converges t s s' x : paired s -> rtc sys_step s s' -> rebuilds (sy_node s') ->
  tk_dial t = Ok tt -> tk_version t = Ok (SourceVersion (pc_Pinned cfg) (sy_primary s')) ->
  SourceSnapshot (pc_Pinned cfg) (fun _ => sy_primary s') = Some x -> tk_snapshot t = Ok x -> tk_state t = None ->
  let '(pu, w) := poll t (sy_puller s') (sy_node s') in
  held pu = ConfigVersion (sy_primary s') /\ (ConfigVersion (sy_primary s') <> 0 -> same_content (sy_primary s') (node_db w)) /\
  pu_lastErr pu = None /\ wait pu = pc_Interval cfg /\ rs_Stale (Status (tk_now t) pu) = false.
Proof.
  intros Hpair Hrt Hrb Hd Hv Hx Hs Ht. pose proof (reachable_inv s s' (paired_inv s Hpair) Hrt) as Hinv.
  pose proof (clean_poll t _ s' x Hinv Hrb eq_refl Hd Hv Hx Hs Ht) as H.
  assert (L : forall p, later p p) by (intros p; by exists []).
  assert (Hinv' : sys_inv (mkSys (sy_primary s') (poll t (sy_puller s') (sy_node s')).1 (poll t (sy_puller s') (sy_node s')).2)).
  { apply (poll_inv t (sy_primary s') (fun _ => sy_primary s')); auto; intros y Hy _; [congruence|]. rewrite Hs in Hy. by injection Hy as <-. }
  destruct (poll t (sy_puller s') (sy_node s')) as [pu w]. cbn [fst snd] in Hinv'. destruct H as (H1 & H2 & H3 & H4), Hinv' as [_ _ _ _ _ Hsame'].
  cbn [sy_primary sy_puller sy_node] in Hsame'. split; [done|]. split; [|done]. intros Hn. apply Hsame'; [by rewrite H1|done].
Qed.
End System.
Arguments mkSys {W}.

(** A primary that has ever had settings has a version to be asked for. *)
Lemma settings_row_versioned ops : let db := foldl (fun d op => exec op d) db0 ops in GetSettings db <> None -> 0 < ConfigVersion db.
Proof.
  cbv zeta. assert (H : forall p, 0 <= ConfigVersion p -> (GetSettings p <> None -> 0 < ConfigVersion p) ->
    let db := foldl (fun d op => exec op d) p ops in GetSettings db <> None -> 0 < ConfigVersion db); [|by apply H].
  induction ops as [|op ops IH]; intros p H0 H1; [done|]. apply IH; pose proof (exec_steps op p) as [V V']; unfold ConfigVersion, GetSettings in *; [lia|].
  intros Hs. destruct (decide (c_version (conf (exec op p)) = c_version (conf p))) as [E|E]; [|lia]. rewrite E. apply H1. specialize (V' E).
  unfold replicated in V'. injection V' as _ _ _ _ _ _ _ _ _ Es. by destruct (c_settings (conf (exec op p))), (c_settings (conf p)).
Qed.

(** ** Concrete runs *)
Definition ex_cfg : PullerConfig := mkPC "primary-key" 5 60.
Definition ex_replica : DB := (SetReplicaState "primary-key" 0 db0).1.
Definition ex_sys : Sys := mkSys ex_primary (NewPuller ex_cfg (Ok ("primary-key", 0))) ex_replica.
Definition ex_tick (p : DB) : Tick := mkTick (Ok tt) (Ok (SourceVersion "primary-key" p)) (Err "timeout")
  (match SourceSnapshot "primary-key" (fun _ => p) with Some x => Ok x | None => Err "no snapshot" end) None 100.
Lemma ex_paired : paired ex_cfg ex_sys.
Proof.
  split; [apply exec_wf, wf_conf0|]. split; [apply (exec_wf (OpSetReplica "primary-key" 0) db0), wf_conf0|].
  split; [by apply Z.leb_le; vm_compute|]. by split.
Qed.
Lemma store_rebuilds (db : DB) : rebuilds db.
Proof. intros i d E. exists d. cbn. cbn in E. by rewrite E. Qed.
Definition ex_write : store_op := OpPutRecord (mkRecord 0 "nas.home.arpa." "A" "10.0.0.9" "").
Definition ex_sys' : Sys := mkSys (exec ex_write (sy_primary ex_sys)) (sy_puller ex_sys) (sy_node ex_sys).
Lemma ex_written : rtc (sys_step ex_cfg) ex_sys ex_sys'.
Proof. apply rtc_once, SWrite. Qed.
Lemma clean_poll_converges_witness : let t := ex_tick (sy_primary ex_sys') in
  held (poll t (sy_puller ex_sys') (sy_node ex_sys')).1 = ConfigVersion (sy_primary ex_sys') /\
  wait (poll t (sy_puller ex_sys') (sy_node ex_sys')).1 = pc_Interval ex_cfg.
Proof.
  intros t. destruct (SourceSnapshot "primary-key" (fun _ => sy_primary ex_sys')) as [x|] eqn:X; [|vm_compute in X; discriminate X].
  assert (Hs : tk_snapshot t = Ok x) by (unfold t, ex_tick, tk_snapshot; rewrite X; reflexivity).
  assert (Hd : tk_dial t = Ok tt) by reflexivity. assert (Ht : tk_state t = None) by reflexivity.
  assert (Hv : tk_version t = Ok (SourceVersion (pc_Pinned ex_cfg) (sy_primary ex_sys'))) by reflexivity.
  pose proof (clean_poll_converges ex_cfg t ex_sys ex_sys' x ex_paired ex_written (store_rebuilds _) Hd Hv X Hs Ht) as H.
  destruct (poll t (sy_puller ex_sys') (sy_node ex_sys')) as [pu w].
  split; [exact (proj1 H)|exact (proj1 (proj2 (proj2 (proj2 H))))].
Defined.
Lemma replica_holds_what_it_claims_witness : held (sy_puller ex_sys') <= ConfigVersion (sy_primary ex_sys').
Proof. exact (proj1 (replica_holds_what_it_claims ex_cfg ex_sys ex_sys' ex_paired ex_written)). Defined.
Lemma backoff_doubles_to_ceiling_witness :
  let down := mkTick (Err "refused") (Err "") (Err "") (Err "") None 0 in
  wait (polls [down; down; down; down; down] (NewPuller ex_cfg (Ok ("primary-key", 0))) ex_replica).1 = 60.
Proof.
  intros down. etransitivity.
  - apply (backoff_doubles_to_ceiling ex_cfg (Ok ("primary-key", 0)) [down; down; down; down; down] ex_replica); cbn; [split; reflexivity || discriminate|reflexivity].
  - vm_compute. reflexivity.
Defined.
Lemma only_pinned_documents_applied_witness :
  let liar := mkTick (Ok tt) (Ok (SourceVersion "other-key" ex_primary)) (Err "") (Err "") None 0 in
  node_db (poll liar (sy_puller ex_sys) ex_replica).2 = ex_replica.
Proof.
  intros liar. pose proof (only_pinned_documents_applied liar (sy_puller ex_sys) ex_replica) as H.
  destruct (poll liar (sy_puller ex_sys) ex_replica) as [p' w'] eqn:E.
  destruct H as [[_ H]|(x & d & ((v & V & N & _) & _) & _)]; [exact H|].
  injection V as <-. discriminate N.
Defined.
