(* ===== verification/Pairing.v ===== *)
(** * Pairing and the replication listener

    [internal/replica/pairing.go], [pairing_exchange.go] and [server.go]: the codes
    an operator types, the exchange that pins two nodes to each other, and the
    routes a pinned peer may call.  A request carries the fingerprint its TLS
    handshake proved; keys, certificates and the network are outside the model. *)
From S2P Require Import Prelude GoStr NetIP Model Store StoreNode Upstream ReplicaSync Replica.

(** ** pairing.go: codes *)
Definition codeAlphabet : string := "ABCDEFGHJKMNPQRSTVWXYZ0123456789".
Definition code_char (d : Z) : ascii := nth (Z.to_nat d) (bytes codeAlphabet) "A"%char.
(** Base 32, most significant digit first. *)
Fixpoint digits32 (k : nat) (v : Z) : list Z :=
  match k with O => [] | S k => digits32 k (Z.shiftr v 5) ++ [Z.land v 31] end.
Definition bytes_value (b : list Z) : Z := foldl (fun acc x => Z.shiftl acc 8 + x) 0 b.
(** [EncodeToString] of ten bytes, which need no padding. *)
Definition NewPairingCode (b : list Z) : string := str (code_char <$> digits32 16 (bytes_value b)).
Record Invite := mkInvite { i_Code : string; i_ExpiresAt : Z }.
Record InviteBook := mkBook { ib_ttl : Z; ib_out : gmap string Z }.
Definition NewInviteBook (ttl : Z) : InviteBook := mkBook ttl ∅.
Definition Mint (random : list Z) (now : Z) (b : InviteBook) : InviteBook * Invite :=
  let code := NewPairingCode random in
  let exp := now + ib_ttl b in
  (mkBook (ib_ttl b) (<[code := exp]> (ib_out b)), mkInvite code exp).
Definition Redeem (typed : string) (now : Z) (b : InviteBook) : InviteBook * bool :=
  let code := ToUpper (TrimSpace typed) in
  (mkBook (ib_ttl b) (filter (fun x => ~ x.2 < now /\ x.1 <> code) (ib_out b)),
   match ib_out b !! code with Some exp => negb (exp <? now) | None => false end).

(** ** server.go: the routes *)
Record Request := mkRequest { rq_Method : string; rq_Path : string; rq_peer : option string; rq_version : string; rq_code : option string }.
Inductive Reply :=
  | Forbidden | NotFound | MethodNotAllowed | Unavailable | PairingFailed
  | VersionReplied (v : VersionReply) | SnapshotReplied (s : WireSnapshot) | HealthReplied (m : gmap string string) | Paired (nodeID : string).
Record Server := mkServer { sv_NodeID : string; sv_db : DB; sv_book : InviteBook; sv_health : list Health.HealthStatus }.
Definition unpinnedPaths : list string := ["/replica/pair"].
Definition reportedVersion (q : string) : option Z := if bool_decide (q = "") then None else ParseInt q.
Definition with_db_book (db : DB) (b : InviteBook) (s : Server) : Server := mkServer (sv_NodeID s) db b (sv_health s).
(** [write]: last-seen bookkeeping whose failure is dropped, and the body. *)
Definition write_reply (now : Z) (r : Request) (body : Reply) (s : Server) : Server * Reply :=
  match rq_peer r with
  | Some fp => (with_db_book (TouchPeer fp now (reportedVersion (rq_version r)) (sv_db s)).1 (sv_book s) s, body)
  | None => (s, body)
  end.
Definition handleVersion now r s := write_reply now r (VersionReplied (SourceVersion (sv_NodeID s) (sv_db s))) s.
Definition handleSnapshot now r s :=
  match SourceSnapshot (sv_NodeID s) (fun _ => sv_db s) with
  | None => (s, Unavailable)
  | Some x => write_reply now r (SnapshotReplied x) s
  end.
Definition handleHealthStatus now r s := write_reply now r (HealthReplied (SourceHealth (sv_health s))) s.
(** [fp[:12]]. *)
Definition label_of (fp : string) : string := String.substring 0 12 fp.
Definition handlePair (now : Z) (r : Request) (s : Server) : Server * Reply :=
  match rq_peer r with
  | None => (s, Forbidden)
  | Some fp =>
      match rq_code r with
      | None => (s, Forbidden)
      | Some code =>
          let '(b, ok) := Redeem code now (sv_book s) in
          if negb ok then (with_db_book (sv_db s) b s, Forbidden)
          else match PairPeer (mkPeer fp (label_of fp) "" now 0 0) (sv_db s) with
          | (db, Err _) => (with_db_book db b s, PairingFailed)
          | (db, Ok _) => (with_db_book db b s, Paired (sv_NodeID s))
          end
      end
  end.
Definition is_get (m : string) : bool := bool_decide (m = "GET" \/ m = "HEAD").
(** The mux: unknown paths and other methods are refused. *)
Definition route (now : Z) (r : Request) (s : Server) : Server * Reply :=
  if bool_decide (rq_Path r = "/replica/version") then (if is_get (rq_Method r) then handleVersion now r s else (s, MethodNotAllowed))
  else if bool_decide (rq_Path r = "/replica/snapshot") then (if is_get (rq_Method r) then handleSnapshot now r s else (s, MethodNotAllowed))
  else if bool_decide (rq_Path r = "/replica/health-status") then (if is_get (rq_Method r) then handleHealthStatus now r s else (s, MethodNotAllowed))
  else if bool_decide (rq_Path r = "/replica/pair") then (if bool_decide (rq_Method r = "POST") then handlePair now r s else (s, MethodNotAllowed))
  else (s, NotFound).
Definition pinnedExcept (now : Z) (r : Request) (s : Server) : Server * Reply :=
  if bool_decide (rq_Path r ∈ unpinnedPaths) then route now r s
  else match rq_peer r with
  | None => (s, Forbidden)
  | Some fp => match GetPeer (sv_db s) fp with Err _ => (s, Forbidden) | Ok _ => route now r s end
  end.

(** ** pairing_exchange.go: the replica's half *)
(** [net.ParseIP]: an address without a zone. *)
Definition ParseIP (s : string) : option Addr := a ← ParseAddr s; if Addr.has_zone a then None else Some a.
Inductive pair_error := BadPeerAddress | PeekFailed (e : string) | ConfirmFailed (e : string) | ErrFingerprintRejected | PostFailed (e : string) | WrongNode (got : string) | RecordFailed (e : string).
Definition peerAddress (raw : string) : result pair_error string :=
  match SplitHostPort raw with
  | None => Err BadPeerAddress
  | Some (host, port) =>
      match ParseIP host, Atoi port with
      | Some _, Some n => if (n <? 1) || (65535 <? n) then Err BadPeerAddress else Ok (JoinHostPort host (itoa n))
      | _, _ => Err BadPeerAddress
      end
  end.
(** [peek] is the handshake that reads a fingerprint, [confirm] the operator's
    decision, [post] the request on a connection pinned to the second argument
    (it follows redirects, as the client of [Identity] does).  What is sent first is
    returned with the result. *)
Definition PairAsReplica (peek : string -> result string string) (confirm : string -> result string bool)
    (post : string -> string -> string -> result string string) (record : DB -> option string)
    (address code : string) (db : DB) : DB * list (string * string) * result pair_error string :=
  match peerAddress address with
  | Err e => (db, [], Err e)
  | Ok address =>
      match peek address with
      | Err e => (db, [], Err (PeekFailed e))
      | Ok fingerprint =>
          match confirm fingerprint with
          | Err e => (db, [], Err (ConfirmFailed e))
          | Ok false => (db, [], Err ErrFingerprintRejected)
          | Ok true =>
              match post address fingerprint code with
              | Err e => (db, [(fingerprint, code)], Err (PostFailed e))
              | Ok nodeID =>
                  if negb (bool_decide (nodeID = fingerprint)) then (db, [(fingerprint, code)], Err (WrongNode nodeID))
                  else match record db with
                  | Some e => (db, [(fingerprint, code)], Err (RecordFailed e))
                  | None => ((FollowPrimary fingerprint 0 db).1, [(fingerprint, code)], Ok fingerprint)
                  end
              end
          end
      end
  end.
(** [replicaJoiner.Join]: the operator confirmed one fingerprint. *)
Definition Join (peek : string -> result string string) (post : string -> string -> string -> result string string) (record : DB -> option string)
    (address code fingerprint : string) : DB -> DB * list (string * string) * result pair_error string :=
  PairAsReplica peek (fun presented => Ok (bool_decide (presented = fingerprint))) post record address code.

(** ** Lemmas: codes *)
Definition digits_value (l : list Z) : Z := foldl (fun acc d => acc * 32 + d) 0 l.
Lemma digits32_value k : forall v, 0 <= v -> digits_value (digits32 k v) = v mod 32 ^ Z.of_nat k.
Proof.
  induction k as [|k IH]; intros v Hv; [by rewrite Z.mod_1_r|]. cbn [digits32]. unfold digits_value in *. rewrite foldl_app. cbn [foldl].
  rewrite IH by (apply Z.shiftr_nonneg; lia). rewrite Z.shiftr_div_pow2 by lia. change (Z.land v 31) with (Z.land v (Z.ones 5)).
  rewrite Z.land_ones by lia. change (2 ^ 5) with 32. rewrite Nat2Z.inj_succ, Z.pow_succ_r by lia.
  rewrite (Z.rem_mul_r v 32 (32 ^ Z.of_nat k)) by (try lia; apply Z.pow_pos_nonneg; lia). lia.
Qed.
Lemma digits32_length k v : length (digits32 k v) = k.
Proof. revert v. induction k as [|k IH]; intros v; [done|]. cbn [digits32]. rewrite length_app, IH. cbn. lia. Qed.
Lemma digits32_range k : forall v, Forall (fun d => 0 <= d < 32) (digits32 k v).
Proof.
  induction k as [|k IH]; intros v; [constructor|]. cbn [digits32]. apply Forall_app. split; [apply IH|]. constructor; [|constructor].
  change (Z.land v 31) with (Z.land v (Z.ones 5)). rewrite Z.land_ones by lia. apply Z.mod_pos_bound. lia.
Qed.
Lemma code_char_inj d d' : 0 <= d < 32 -> 0 <= d' < 32 -> code_char d = code_char d' -> d = d'.
Proof.
  intros H H' E. assert (N : List.NoDup (bytes codeAlphabet)) by (apply NoDup_ListNoDup, (bool_decide_unpack _); by vm_compute).
  assert (Hl : length (bytes codeAlphabet) = 32%nat) by reflexivity.
  apply Z2Nat.inj; [lia..|]. apply (proj1 (List.NoDup_nth _ "A"%char) N); [lia..|done].
Qed.
(** What an operator may do to a code without changing it. *)
Lemma code_char_plain d : 0 <= d < 32 -> is_space (code_char d) = false /\ upper_char (code_char d) = code_char d /\
  upper_char (lower_char (code_char d)) = code_char d.
Proof.
  intros H. assert (F : forallb (fun c => negb (is_space c) && bool_decide (upper_char c = c) && bool_decide (upper_char (lower_char c) = c)) (bytes codeAlphabet) = true)
    by (by vm_compute).
  rewrite forallb_forall in F. specialize (F (code_char d)). rewrite !andb_true_iff, !bool_decide_eq_true, negb_true_iff in F. destruct F as [[? ?] ?]; [|done].
  apply nth_In. change (length (bytes codeAlphabet)) with 32%nat. lia.
Qed.
Lemma bytes_NewPairingCode b : bytes (NewPairingCode b) = code_char <$> digits32 16 (bytes_value b).
Proof. apply bytes_str. Qed.
Lemma code_chars_Forall (P : ascii -> Prop) b : (forall d, 0 <= d < 32 -> P (code_char d)) -> Forall P (bytes (NewPairingCode b)).
Proof. intros HP. rewrite bytes_NewPairingCode. apply Forall_fmap. eapply Forall_impl; [apply digits32_range|]. intros d Hd. by apply HP. Qed.
Lemma fmap_id_Forall {A} (f : A -> A) l : Forall (fun x => f x = x) l -> f <$> l = l.
Proof. induction 1 as [|x l H _ IH]; [done|]. cbn [fmap list_fmap]. by rewrite H, IH. Qed.
Lemma code_normal b : ToUpper (TrimSpace (NewPairingCode b)) = NewPairingCode b.
Proof.
  rewrite TrimSpace_no_space by (apply code_chars_Forall; intros d Hd; by apply code_char_plain). unfold ToUpper.
  rewrite fmap_id_Forall; [apply str_bytes|]. apply code_chars_Forall. intros d Hd. by apply code_char_plain.
Qed.
Lemma upper_lower_code b : ToUpper (ToLower (NewPairingCode b)) = NewPairingCode b.
Proof.
  unfold ToUpper. rewrite bytes_ToLower, <- list_fmap_compose. rewrite fmap_id_Forall; [apply str_bytes|].
  apply code_chars_Forall. intros d Hd. by apply code_char_plain.
Qed.
Definition is_byte_value (x : Z) : Prop := 0 <= x < 256.
Lemma bytes_value_app b x : bytes_value (b ++ [x]) = bytes_value b * 256 + x.
Proof. unfold bytes_value. rewrite foldl_app. cbn [foldl]. rewrite Z.shiftl_mul_pow2 by lia. done. Qed.
Lemma bytes_value_bound b : Forall is_byte_value b -> 0 <= bytes_value b < 256 ^ Z.of_nat (length b).
Proof.
  induction b as [|x b IH] using rev_ind; intros H; [cbn; lia|]. apply Forall_app in H as [H1 H2]. apply Forall_cons in H2 as [H2 _].
  rewrite bytes_value_app, length_app. cbn [length]. rewrite Nat.add_1_r, Nat2Z.inj_succ, Z.pow_succ_r by lia.
  specialize (IH H1). unfold is_byte_value in H2. revert IH. generalize (256 ^ Z.of_nat (length b)) as m. intros m IH. lia.
Qed.
Lemma bytes_value_inj b : forall b', Forall is_byte_value b -> Forall is_byte_value b' -> length b = length b' -> bytes_value b = bytes_value b' -> b = b'.
Proof.
  induction b as [|x b IH] using rev_ind; intros b' H H' L E.
  - by destruct b'.
  - destruct b' as [|x' b' _] using rev_ind; [rewrite length_app in L; cbn in L; lia|]. rewrite !length_app in L. cbn in L.
    apply Forall_app in H as [H1 H2], H' as [H1' H2']. apply Forall_cons in H2 as [H2 _], H2' as [H2' _]. rewrite !bytes_value_app in E. unfold is_byte_value in *.
    assert (x = x') as -> by lia. f_equal. apply IH; [done|done|lia|lia].
Qed.
Lemma fmap_inj_Forall {A B} (f : A -> B) (P : A -> Prop) l : forall l', (forall x y, P x -> P y -> f x = f y -> x = y) -> Forall P l -> Forall P l' ->
  f <$> l = f <$> l' -> l = l'.
Proof.
  induction l as [|x l IH]; intros [|y l'] Hf Hl Hl' E; try done. cbn [fmap list_fmap] in E. injection E as E1 E2.
  apply Forall_cons in Hl as [? ?], Hl' as [? ?]. f_equal; [by apply Hf|by apply IH].
Qed.

(** a pairing code carries all its eighty random bits and survives being typed.
    Different random bytes give different codes of sixteen characters, and a code in
    any letter case, with spaces around it, redeems the invite it was minted for
    until its life is over. *)
Theorem pairing_code_roundtrip b now later_ bk : Forall is_byte_value b -> length b = 10%nat ->
  len (NewPairingCode b) = 16 /\
  (forall b', Forall is_byte_value b' -> length b' = 10%nat -> NewPairingCode b' = NewPairingCode b -> b' = b) /\
  forall typed, TrimSpace typed = NewPairingCode b \/ TrimSpace typed = ToLower (NewPairingCode b) ->
    (Redeem typed later_ (Mint b now bk).1).2 = negb (now + ib_ttl bk <? later_).
Proof.
  intros Hb Hl. split; [|split].
  - unfold len. rewrite bytes_NewPairingCode, length_fmap, digits32_length. done.
  - intros b' Hb' Hl' E. apply (f_equal bytes) in E. rewrite !bytes_NewPairingCode in E.
    apply (fmap_inj_Forall code_char (fun d => 0 <= d < 32)) in E; [|apply code_char_inj|apply digits32_range|apply digits32_range].
    apply (f_equal digits_value) in E. pose proof (bytes_value_bound b Hb) as B. pose proof (bytes_value_bound b' Hb') as B'. rewrite Hl in B. rewrite Hl' in B'.
    assert (P : 32 ^ Z.of_nat 16 = 256 ^ Z.of_nat 10) by (by vm_compute). rewrite !digits32_value, !P, !Z.mod_small in E by lia.
    apply bytes_value_inj; [done|done|lia|done].
  - intros typed [E|E]; unfold Redeem, Mint; cbn [ib_out snd fst].
    + assert (T : ToUpper (TrimSpace typed) = NewPairingCode b).
      { rewrite E. rewrite <- (TrimSpace_no_space (NewPairingCode b)) at 1; [apply code_normal|]. apply code_chars_Forall. intros d Hd. by apply code_char_plain. }
      by rewrite T, lookup_insert_eq.
    + by rewrite E, upper_lower_code, lookup_insert_eq.
Qed.
Lemma pairing_code_roundtrip_witness :
  (Redeem " aaaaaaaaaaaaaaab " 1600 (Mint [0; 0; 0; 0; 0; 0; 0; 0; 0; 1] 1000 (NewInviteBook 600)).1).2 = true.
Proof.
  assert (Hb : Forall is_byte_value [0; 0; 0; 0; 0; 0; 0; 0; 0; 1]) by (unfold is_byte_value; repeat (apply Forall_cons; split; [lia|]); constructor).
  pose proof (pairing_code_roundtrip [0; 0; 0; 0; 0; 0; 0; 0; 0; 1] 1000 1600 (NewInviteBook 600) Hb eq_refl) as H.
  rewrite (proj2 (proj2 H) " aaaaaaaaaaaaaaab "); [reflexivity|right; vm_compute; reflexivity].
Defined.
(** The alphabet leaves out I, L, O and U but keeps the digits that look like them. *)
Lemma lookalike_digits_stay_in :
  forallb (fun c => negb (bool_decide (c ∈ bytes codeAlphabet))) (bytes "ILOU") = true /\
  forallb (fun c => bool_decide (c ∈ bytes codeAlphabet)) (bytes "01") = true /\
  NewPairingCode [206; 115; 156; 231; 57; 206; 115; 156; 231; 57] = "3333333333333333".
Proof. by vm_compute. Qed.

(** ** The listener over time *)
Inductive SrvEvent := EvRequest (r : Request) (now : Z) | EvMint (random : list Z) (now : Z) | EvUnpair (nodeID : string).
Definition srv_step (s : Server) (ev : SrvEvent) : Server :=
  match ev with
  | EvRequest r now => (pinnedExcept now r s).1
  | EvMint b now => with_db_book (sv_db s) (Mint b now (sv_book s)).1 s
  | EvUnpair id => with_db_book (DeletePeer id (sv_db s)).1 (sv_book s) s
  end.
Definition srv_run (evs : list SrvEvent) (s : Server) : Server := foldl srv_step s evs.
Definition peer_ids (s : Server) : list string := p_NodeID <$> n_peers (node (sv_db s)).
(** A reply that tells anything about this node. *)
Definition discloses (r : Reply) : bool :=
  match r with VersionReplied _ | SnapshotReplied _ | HealthReplied _ | Paired _ => true | _ => false end.
Definition is_pair_reply (r : Reply) : bool := match r with Paired _ => true | _ => false end.

Lemma GetPeer_elem db id : (exists p, GetPeer db id = Ok p) <-> id ∈ p_NodeID <$> n_peers (node db).
Proof.
  unfold GetPeer. split.
  - intros [p H]. destruct (List.find _ _) as [q|] eqn:F; [|done]. apply find_some in F as [Hq E%bool_decide_eq_true]. rewrite <- E.
    by apply list_elem_of_fmap_2, list_elem_of_In.
  - intros (q & -> & Hq)%list_elem_of_fmap. destruct (List.find _ _) as [x|] eqn:F; [by exists x|].
    pose proof (find_none _ _ F q (proj1 (list_elem_of_In _ _) Hq)) as N. by apply bool_decide_eq_false in N.
Qed.
Lemma TouchPeer_ids id at_ v db : p_NodeID <$> n_peers (node (TouchPeer id at_ v db).1) = p_NodeID <$> n_peers (node db).
Proof.
  unfold TouchPeer, local. case_bool_decide; [|done]. cbn. rewrite <- list_fmap_compose. apply list_fmap_ext. intros i p _. unfold compose.
  by case_bool_decide.
Qed.
Lemma PairPeer_ok p db : exists db', PairPeer p db = (db', Ok tt) /\ forall id, id ∈ p_NodeID <$> n_peers (node db') <-> id = p_NodeID p \/ id ∈ p_NodeID <$> n_peers (node db).
Proof.
  eexists. split; [reflexivity|]. intros id. cbn. case_bool_decide as H.
  - rewrite <- list_fmap_compose. assert (E : p_NodeID ∘ (fun o => if bool_decide (p_NodeID o = p_NodeID p)
      then mkPeer (p_NodeID o) (p_Label o) (p_Address p) (p_PairedAt p) (p_LastSyncAt o) (p_LastVersion o) else o) <$> n_peers (node db) = p_NodeID <$> n_peers (node db)).
    { apply list_fmap_ext. intros i o _. unfold compose. by case_bool_decide. }
    rewrite E. split; [by right|]. by intros [->|?].
  - rewrite fmap_app, elem_of_app. cbn [fmap list_fmap]. rewrite list_elem_of_singleton. tauto.
Qed.
(** One request: who was answered, and what it did to the peers and the book. *)
Lemma request_cases now r s :
  let '(s', rep) := pinnedExcept now r s in
  sv_NodeID s' = sv_NodeID s /\
  ((peer_ids s' = peer_ids s /\ sv_book s' = sv_book s /\ is_pair_reply rep = false /\
    (discloses rep = true -> exists fp, rq_peer r = Some fp /\ fp ∈ peer_ids s)) \/
   exists fp code, rq_Path r = "/replica/pair" /\ rq_Method r = "POST" /\ rq_peer r = Some fp /\ rq_code r = Some code /\
     sv_book s' = (Redeem code now (sv_book s)).1 /\
     if (Redeem code now (sv_book s)).2 then rep = Paired (sv_NodeID s) /\ (forall id, id ∈ peer_ids s' <-> id = fp \/ id ∈ peer_ids s)
     else rep = Forbidden /\ peer_ids s' = peer_ids s).
Proof.
  unfold pinnedExcept. destruct (bool_decide_reflect (rq_Path r ∈ unpinnedPaths)) as [P|P].
  - apply list_elem_of_singleton in P. unfold route. rewrite P. cbn [bool_decide]. rewrite !bool_decide_eq_false_2 by done.
    rewrite (bool_decide_eq_true_2 ("/replica/pair" = "/replica/pair")) by done.
    destruct (bool_decide_reflect (rq_Method r = "POST")) as [M|M]; [|split; [done|left; by repeat split]]. unfold handlePair.
    destruct (rq_peer r) as [fp|] eqn:F; [|split; [done|left; by repeat split]].
    destruct (rq_code r) as [code|] eqn:C; [|split; [done|left; by repeat split]].
    destruct (Redeem code now (sv_book s)) as [b ok] eqn:R. destruct ok; cbn [negb].
    + destruct (PairPeer_ok (mkPeer fp (label_of fp) "" now 0 0) (sv_db s)) as (db' & E & H). rewrite E. split; [done|]. right.
      exists fp, code. do 4 (split; [done|]). rewrite R. split; [done|]. split; [done|]. exact H.
    + split; [done|]. right. exists fp, code. do 4 (split; [done|]). rewrite R. done.
  - destruct (rq_peer r) as [fp|] eqn:F; [|split; [done|left; by repeat split]].
    destruct (GetPeer (sv_db s) fp) as [p|] eqn:G; [|split; [done|left; by repeat split]].
    assert (Hfp : fp ∈ peer_ids s) by (apply GetPeer_elem; by exists p).
    assert (Hw : forall body, is_pair_reply body = false -> let '(s', rep) := write_reply now r body s in sv_NodeID s' = sv_NodeID s /\
      ((peer_ids s' = peer_ids s /\ sv_book s' = sv_book s /\ is_pair_reply rep = false /\ (discloses rep = true -> exists fp, rq_peer r = Some fp /\ fp ∈ peer_ids s)))).
    { intros body Hb. unfold write_reply. rewrite F. split; [done|]. split; [apply TouchPeer_ids|]. split; [done|]. split; [done|]. intros _. by exists fp. }
    assert (Hn : forall rep, discloses rep = false -> is_pair_reply rep = false -> peer_ids s = peer_ids s /\ sv_book s = sv_book s /\ is_pair_reply rep = false /\
      (discloses rep = true -> exists fp, Some fp = Some fp /\ fp ∈ peer_ids s)) by (intros rep Hd Hp; do 3 (split; [done|]); by rewrite Hd).
    unfold route. destruct (bool_decide_reflect (rq_Path r = "/replica/version")); [|destruct (bool_decide_reflect (rq_Path r = "/replica/snapshot"));
      [|destruct (bool_decide_reflect (rq_Path r = "/replica/health-status")); [|destruct (bool_decide_reflect (rq_Path r = "/replica/pair"));
        [destruct P; rewrite e; by left|]]]].
    + destruct (is_get _); [|split; [done|left; by repeat split]]. unfold handleVersion. specialize (Hw (VersionReplied (SourceVersion (sv_NodeID s) (sv_db s))) eq_refl).
      destruct (write_reply _ _ _ _). destruct Hw as [H1 H2]. rewrite F in H2. split; [done|]. by left.
    + destruct (is_get _); [|split; [done|left; by repeat split]]. unfold handleSnapshot. destruct (SourceSnapshot _ _) as [x|]; [|split; [done|left; by repeat split]].
      specialize (Hw (SnapshotReplied x) eq_refl). destruct (write_reply _ _ _ _). destruct Hw as [H1 H2]. rewrite F in H2. split; [done|]. by left.
    + destruct (is_get _); [|split; [done|left; by repeat split]]. unfold handleHealthStatus. specialize (Hw (HealthReplied (SourceHealth (sv_health s))) eq_refl).
      destruct (write_reply _ _ _ _). destruct Hw as [H1 H2]. rewrite F in H2. split; [done|]. by left.
    + split; [done|]. left. by repeat split.
Qed.

(** A node enrolled itself: its own key redeemed a code that had been minted no
    longer ago than its life, and the operator has not unpaired it since. *)
Definition enrolled (ttl : Z) (evs : list SrvEvent) (s : Server) (fp : string) : Prop :=
  exists pre q t post typed b t0, evs = pre ++ EvRequest q t :: post /\ rq_peer q = Some fp /\ rq_code q = Some typed /\
    is_pair_reply (pinnedExcept t q (srv_run pre s)).2 = true /\
    EvMint b t0 ∈ pre /\ ToUpper (TrimSpace typed) = NewPairingCode b /\ t <= t0 + ttl /\ EvUnpair fp ∉ post.
Definition is_mint (ev : SrvEvent) : bool := match ev with EvMint _ _ => true | _ => false end.
(** The enrolments of a run. *)
Fixpoint enrolments (evs : list SrvEvent) (s : Server) : Z :=
  match evs with
  | [] => 0
  | ev :: evs => (match ev with EvRequest r now => Z.b2z (is_pair_reply (pinnedExcept now r s).2) | _ => 0 end) + enrolments evs (srv_step s ev)
  end.
Lemma Redeem_size code now b : Z.of_nat (size (ib_out (Redeem code now b).1)) + Z.b2z (Redeem code now b).2 <= Z.of_nat (size (ib_out b)).
Proof.
  unfold Redeem. cbn [fst snd ib_out]. set (c := ToUpper (TrimSpace code)).
  set (f := filter (fun x : string * Z => ~ x.2 < now /\ x.1 <> c) (ib_out b)).
  assert (Hf : f ⊆ ib_out b) by apply map_filter_subseteq.
  destruct (ib_out b !! c) as [exp|] eqn:E.
  - assert (Hd : f ⊆ delete c (ib_out b)).
    { apply map_subseteq_spec. intros k v Hk. apply map_lookup_filter_Some in Hk as [Hk [_ Hn]]. by rewrite lookup_delete_ne. }
    apply map_subseteq_size in Hd. rewrite map_size_delete, E in Hd. assert (size (ib_out b) <> 0%nat).
    { intros Z0. apply map_size_empty_iff in Z0. by rewrite Z0, lookup_empty in E. }
    destruct (negb (exp <? now)); cbn; lia.
  - apply map_subseteq_size in Hf. cbn. lia.
Qed.
Lemma srv_step_enrolments ev s : Z.of_nat (size (ib_out (sv_book (srv_step s ev)))) +
  (match ev with EvRequest r now => Z.b2z (is_pair_reply (pinnedExcept now r s).2) | _ => 0 end) <= Z.of_nat (size (ib_out (sv_book s))) + Z.b2z (is_mint ev).
Proof.
  destruct ev as [r now|b now|id]; cbn [srv_step is_mint Z.b2z].
  - pose proof (request_cases now r s) as H. destruct (pinnedExcept now r s) as [s' rep]. cbn [fst snd].
    destruct H as [_ [(_ & -> & -> & _)|(fp & code & _ & _ & _ & _ & -> & H)]]; [cbn; lia|].
    pose proof (Redeem_size code now (sv_book s)). destruct (Redeem code now (sv_book s)).2; destruct H as [-> _]; cbn [is_pair_reply Z.b2z] in *; lia.
  - cbn [with_db_book sv_book Mint fst ib_out]. rewrite map_size_insert. destruct (_ !! _); cbn; lia.
  - cbn. lia.
Qed.
Lemma enrolments_minted evs : forall s, enrolments evs s <= Z.of_nat (size (ib_out (sv_book s))) + countb is_mint evs.
Proof.
  induction evs as [|ev evs IH]; intros s; [unfold countb; cbn; lia|]. cbn [enrolments]. rewrite countb_cons.
  pose proof (srv_step_enrolments ev s). specialize (IH (srv_step s ev)). lia.
Qed.
Record srv_inv (ttl : Z) (evs : list SrvEvent) (s s' : Server) : Prop := {
  vi_ttl : ib_ttl (sv_book s') = ttl;
  vi_codes : forall c exp, ib_out (sv_book s') !! c = Some exp -> exists b t, EvMint b t ∈ evs /\ c = NewPairingCode b /\ exp = t + ttl;
  vi_peers : forall id, id ∈ peer_ids s' -> enrolled ttl evs s id }.
Lemma enrolled_snoc ttl evs ev s fp : ev <> EvUnpair fp -> enrolled ttl evs s fp -> enrolled ttl (evs ++ [ev]) s fp.
Proof.
  intros Hev (pre & q & t & post & typed & b & t0 & -> & H1 & H2 & H3 & H4 & H5 & H6 & H7). exists pre, q, t, (post ++ [ev]), typed, b, t0.
  split; [by rewrite <- app_assoc|]. do 6 (split; [done|]). by intros [?|E%list_elem_of_singleton]%elem_of_app.
Qed.
Lemma DeletePeer_ids id db x : x ∈ p_NodeID <$> n_peers (node (DeletePeer id db).1) -> x <> id /\ x ∈ p_NodeID <$> n_peers (node db).
Proof.
  unfold DeletePeer, local. case_bool_decide as E; [|by split; [intros ->|]]. cbn. intros (p & -> & [Hi Hp]%list_elem_of_filter)%list_elem_of_fmap.
  split; [exact Hi|by apply list_elem_of_fmap_2].
Qed.
Lemma srv_step_inv ttl evs s ev : srv_inv ttl evs s (srv_run evs s) -> srv_inv ttl (evs ++ [ev]) s (srv_step (srv_run evs s) ev).
Proof.
  intros [Ht Hc Hp]. assert (Hc' : forall m : gmap string Z, m ⊆ ib_out (sv_book (srv_run evs s)) ->
    forall c exp, m !! c = Some exp -> exists b t, EvMint b t ∈ evs ++ [ev] /\ c = NewPairingCode b /\ exp = t + ttl).
  { intros m Hm c exp H. rewrite map_subseteq_spec in Hm. apply Hm, Hc in H as (b & t & H & H'). exists b, t. split; [apply elem_of_app; by left|done]. }
  destruct ev as [r now|b now|id]; cbn [srv_step].
  - pose proof (request_cases now r (srv_run evs s)) as H. destruct (pinnedExcept now r (srv_run evs s)) as [s' rep] eqn:R. cbn [fst].
    destruct H as [_ [(E1 & E2 & _)|(fp & code & _ & _ & Hfp & Hcode & E2 & H)]].
    + constructor; rewrite ?E1, ?E2; [done|by apply Hc'|]. intros id Hid. by apply enrolled_snoc, Hp.
    + constructor; rewrite ?E2; [done|apply Hc'; cbn; apply map_filter_subseteq|]. intros id Hid.
      unfold Redeem in H. cbn [fst snd] in H. destruct (ib_out _ !! _) as [exp|] eqn:L.
      2: { apply enrolled_snoc, Hp; [done|]. by rewrite <- (proj2 H). }
      destruct (Z.ltb_spec exp now) as [L'|L']; cbn [negb] in H; [apply enrolled_snoc, Hp; [done|]; by rewrite <- (proj2 H)|].
      destruct H as [-> H]. apply H in Hid as [->|Hid]; [|by apply enrolled_snoc, Hp]. apply Hc in L as (b & t & Hm & Hb & ->).
      exists evs, r, now, [], code, b, t. split; [done|]. do 2 (split; [done|]). rewrite R. do 4 (split; [done|]). apply not_elem_of_nil.
  - constructor; cbn [with_db_book sv_book sv_db Mint fst ib_ttl ib_out]; [done| |].
    + intros c exp H. destruct (decide (c = NewPairingCode b)) as [->|Hne].
      * rewrite lookup_insert_eq in H. injection H as <-. exists b, now. split; [apply elem_of_app; right; by left|]. by rewrite Ht.
      * rewrite lookup_insert_ne in H by done. by apply (Hc' _ (reflexivity _)).
    + intros id Hid. by apply enrolled_snoc, Hp.
  - constructor; cbn [with_db_book sv_book sv_db]; [done|by apply Hc'|]. intros x [Hx Hin]%DeletePeer_ids. apply enrolled_snoc, Hp; [congruence|done].
Qed.
(** C15: nothing is disclosed without an invitation.  From a listener with no peers and
    no codes on, whatever any keys ask for and whatever an operator mints and unpairs:
    a node is told the version, the configuration or the health of services only if
    it asks under a key that itself redeemed, within its life, a code minted before,
    and that the operator has not unpaired since; and there are never more enrolments than codes. *)
Theorem configuration_needs_invitation evs r now s : peer_ids s = [] -> ib_out (sv_book s) = ∅ ->
  let rep := (pinnedExcept now r (srv_run evs s)).2 in
  (discloses rep = true -> is_pair_reply rep = false -> exists fp, rq_peer r = Some fp /\ enrolled (ib_ttl (sv_book s)) evs s fp) /\
  enrolments evs s <= countb is_mint evs.
Proof.
  intros Hp Hb rep. split; [|pose proof (enrolments_minted evs s) as H; rewrite Hb, map_size_empty in H; lia].
  assert (I : srv_inv (ib_ttl (sv_book s)) evs s (srv_run evs s)).
  { induction evs as [|ev evs IH] using rev_ind.
    - constructor; cbn; [done|rewrite Hb; by intros c exp; rewrite lookup_empty|rewrite Hp; by intros id ?%not_elem_of_nil].
    - unfold srv_run. rewrite foldl_app. by apply srv_step_inv. }
  intros Hd Hr. pose proof (request_cases now r (srv_run evs s)) as H. unfold rep in *. destruct (pinnedExcept now r (srv_run evs s)) as [s' x].
  destruct H as [_ [(_ & _ & _ & H)|(fp & code & _ & _ & _ & _ & _ & H)]].
  - destruct (H Hd) as (fp & Hfp & Hin). exists fp. split; [done|]. by apply I.
  - destruct (Redeem _ _ _).2; destruct H as [-> _]; done.
Qed.
Lemma configuration_needs_invitation_witness :
  let s := mkServer "primary" ex_primary (NewInviteBook 600) [] in
  let code := NewPairingCode [1; 2; 3; 4; 5; 6; 7; 8; 9; 10] in
  let evs := [EvMint [1; 2; 3; 4; 5; 6; 7; 8; 9; 10] 0; EvRequest (mkRequest "POST" "/replica/pair" (Some "replica-key") "" (Some code)) 30] in
  discloses (pinnedExcept 40 (mkRequest "GET" "/replica/version" (Some "replica-key") "0" None) (srv_run evs s)).2 = true /\
  enrolled 600 evs s "replica-key".
Proof.
  intros s code evs. assert (Hd : discloses (pinnedExcept 40 (mkRequest "GET" "/replica/version" (Some "replica-key") "0" None) (srv_run evs s)).2 = true)
    by (vm_compute; reflexivity).
  split; [exact Hd|].
  destruct (proj1 (configuration_needs_invitation evs (mkRequest "GET" "/replica/version" (Some "replica-key") "0" None) 40 s eq_refl eq_refl) Hd) as (fp & E & H);
    [vm_compute; reflexivity|]. injection E as <-. exact H.
Defined.

(** ** Lemmas: the replica's half *)
(** a node pins only what its operator confirmed.  Whatever the far end presents
    and answers: nothing is sent before the operator confirmed the fingerprint, the
    code is sent, if at all, to a connection pinned to that fingerprint first (where the
    key's holder redirects the request is beyond it), and
    the database changes only if the far end then named itself by it, to follow
    exactly that key from version zero, with any promotion undone. *)
Theorem only_confirmed_key_pinned peek post record address code fingerprint db :
  let '(db', sent, r) := Join peek post record address code fingerprint db in
  (sent = [] \/ (sent = [(fingerprint, code)] /\ exists a, peerAddress address = Ok a /\ peek a = Ok fingerprint)) /\
  match r with
  | Err _ => db' = db
  | Ok fp => fp = fingerprint /\ sent = [(fingerprint, code)] /\ conf db' = conf db /\ ReplicaState db' = (fingerprint, 0) /\ Promotion db' = 0 /\
      exists a, peerAddress address = Ok a /\ peek a = Ok fingerprint /\ post a fingerprint code = Ok fingerprint
  end.
Proof.
  unfold Join, PairAsReplica. destruct (peerAddress address) as [a|]; [|split; [by left|done]].
  destruct (peek a) as [fp|] eqn:P; [|split; [by left|done]].
  destruct (bool_decide_reflect (fp = fingerprint)) as [->|]; [|split; [by left|done]].
  destruct (post a fingerprint code) as [id|] eqn:Q; [|split; [right; split; [done|by exists a]|done]].
  destruct (bool_decide_reflect (id = fingerprint)) as [->|]; cbn [negb]; [|split; [right; split; [done|by exists a]|done]].
  destruct (record db); [split; [right; split; [done|by exists a]|done]|].
  split; [right; split; [done|by exists a]|]. do 5 (split; [done|]). by exists a.
Qed.
