(* ===== verification/Role.v ===== *)
(** * What a node is: [internal/app/role.go] and promotion

    The role a process boots with, the live role, the promotion of a replica
    ([replicaPromoter] of [internal/app/replication.go]) with a crash after any of its
    steps, and what the status says. *)
From S2P Require Import Prelude GoStr Model Store StoreNode Replica Pairing.

Inductive Role := RolePrimary | RoleReplica | RoleStandalone.
#[export] Instance Role_eq_dec : EqDecision Role.
Proof. solve_decision. Defined.
Record ReplicationConfig := mkRC { rc_Listen : string; rc_Primary : string }.
Definition RoleFrom (cfg : ReplicationConfig) : Role :=
  if bool_decide (rc_Listen cfg <> "") then RolePrimary
  else if bool_decide (rc_Primary cfg <> "") then RoleReplica else RoleStandalone.
Definition RoleAtBoot (cfg : ReplicationConfig) (promoted : bool) : Role :=
  let role := RoleFrom cfg in
  if promoted && bool_decide (role = RoleReplica) then RolePrimary else role.
(** The role [Serve] starts with. *)
Definition boot_role (cfg : ReplicationConfig) (db : DB) : Role := RoleAtBoot cfg (negb (Promotion db =? 0)).
(** [primaryFingerprint]: the key a replica follows, if it is paired. *)
Definition primaryFingerprint (db : DB) : option string :=
  let '(nodeID, _) := ReplicaState db in if bool_decide (nodeID = "") then None else Some nodeID.
(** Whose configuration a process that starts now pulls, if anyone's: what
    [startReplication] builds a puller for. *)
Definition follows_at_boot (cfg : ReplicationConfig) (db : DB) : option string :=
  if bool_decide (rc_Listen cfg = "" /\ rc_Primary cfg = "") then None
  else if bool_decide (boot_role cfg db = RoleReplica) then primaryFingerprint db else None.

(** A running node: its database, its live role, whether the pull loop runs, and how
    often the promotion callback ran. *)
Record NodeState := mkNS { ns_db : DB; ns_role : Role; ns_pulling : bool; ns_promoted : Z }.
Inductive promote_step := PRecord (at_ : Z) | PStop | PForget | PRole | PCallback.
Definition run_step (n : NodeState) (st : promote_step) : NodeState :=
  match st with
  | PRecord at_ => mkNS (RecordPromotion at_ (ns_db n)).1 (ns_role n) (ns_pulling n) (ns_promoted n)
  | PStop => mkNS (ns_db n) (ns_role n) false (ns_promoted n)
  | PForget => mkNS (SetReplicaState "" 0 (ns_db n)).1 (ns_role n) (ns_pulling n) (ns_promoted n)
  | PRole => mkNS (ns_db n) RolePrimary (ns_pulling n) (ns_promoted n)
  | PCallback => mkNS (ns_db n) (ns_role n) (ns_pulling n) (ns_promoted n + 1)
  end.
Definition promote_steps (now : Z) : list promote_step := [PRecord now; PStop; PForget; PRole; PCallback].
(** [Promote], with the two writes that can fail. *)
Definition Promote (now : Z) (record_fails forget_fails : bool) (n : NodeState) : NodeState * result string bool :=
  if negb (bool_decide (ns_role n = RoleReplica)) then (n, Ok false)
  else if record_fails then (n, Err "record promotion")
  else
    let n := run_step (run_step n (PRecord now)) PStop in
    if forget_fails then (n, Err "forget primary")
    else (run_step (run_step (run_step n PForget) PRole) PCallback, Ok true).

(** ** The status *)
Record ReplicaStatus := mkRS { rst_Role : Role; rst_PrimaryAddr : string; rst_PrimaryNodeID : string; rst_NodeID : string; rst_LastSyncUnix : Z;
  rst_LastVersion : Z; rst_LastError : option (option poll_error); rst_Stale : bool }.
(** The error is [Some None] for a replica that is not paired. *)
Definition replicaStatus (role : Role) (primaryAddr nodeID : string) (now : Z) (p : option Puller) : ReplicaStatus :=
  let addr := if bool_decide (role = RoleReplica) then primaryAddr else "" in
  match p with
  | None => if bool_decide (role = RoleReplica) then mkRS role addr "" nodeID 0 0 (Some None) true else mkRS role addr "" nodeID 0 0 None false
  | Some p =>
      let st := Status now p in
      mkRS role addr (rs_PrimaryNodeID st) nodeID (match rs_LastSyncAt st with Some t => unix t | None => 0 end) (rs_LastVersion st)
        (Some <$> rs_LastError st) (rs_Stale st)
  end.

(** ** Lemmas *)
Lemma promotion_recorded now db : 0 < now -> Promotion (RecordPromotion now db).1 = now.
Proof. done. Qed.
Lemma boot_role_promoted cfg db : Promotion db <> 0 -> boot_role cfg db <> RoleReplica.
Proof.
  intros H. unfold boot_role, RoleAtBoot. destruct (Z.eqb_spec (Promotion db) 0); [done|]. cbn [negb andb].
  by destruct (bool_decide_reflect (RoleFrom cfg = RoleReplica)).
Qed.
Lemma follows_at_boot_promoted cfg db : Promotion db <> 0 -> follows_at_boot cfg db = None.
Proof.
  intros H. unfold follows_at_boot. case_bool_decide; [done|]. rewrite bool_decide_eq_false_2; [done|]. by apply boot_role_promoted.
Qed.
Lemma promote_prefixes now n k : 0 < now -> (0 < k)%nat ->
  Promotion (ns_db (foldl run_step n (take k (promote_steps now)))) = now.
Proof. intros Hn Hk. destruct k as [|[|[|[|[|[|k]]]]]]; [lia|done..]. Qed.

(** C16: promotion survives a crash.  Wherever a promotion stops, at a crash between any
    two of its steps or at a write that fails, the node comes back either exactly as
    it was or as one that follows nobody; once its first write landed it never starts
    as a replica again, and no pull can land after the role is primary.  A promotion
    that succeeds leaves the node a primary with its loop stopped, and a second one
    changes nothing. *)
Theorem promotion_survives_crash cfg now n k rf ff : 0 < now -> ns_role n = RoleReplica ->
  let crashed := foldl run_step n (take k (promote_steps now)) in
  (crashed = n \/ (boot_role cfg (ns_db crashed) <> RoleReplica /\ follows_at_boot cfg (ns_db crashed) = None)) /\
  (ns_role crashed = RolePrimary -> ns_pulling crashed = false) /\
  let '(n', r) := Promote now rf ff n in
  match r with
  | Err _ => n' = n \/ follows_at_boot cfg (ns_db n') = None
  | Ok b => b = true /\ n' = foldl run_step n (promote_steps now) /\ ns_role n' = RolePrimary /\ ns_pulling n' = false /\
      follows_at_boot cfg (ns_db n') = None /\ Promote now rf ff n' = (n', Ok false)
  end.
Proof.
  intros Hn Hr crashed. split; [|split].
  - destruct k as [|k]; [by left|right]. assert (H : Promotion (ns_db crashed) <> 0) by (unfold crashed; rewrite promote_prefixes; lia).
    split; [by apply boot_role_promoted|by apply follows_at_boot_promoted].
  - unfold crashed. destruct k as [|[|[|[|[|[|k]]]]]]; cbn; rewrite ?Hr; done.
  - unfold Promote. rewrite Hr, bool_decide_eq_true_2 by done. cbn [negb]. destruct rf; [by left|]. destruct ff.
    + right. apply follows_at_boot_promoted. cbn. lia.
    + split; [done|]. split; [done|]. split; [done|]. split; [done|]. split; [apply follows_at_boot_promoted; cbn; lia|]. done.
Qed.
Lemma promotion_survives_crash_witness :
  let n := mkNS ex_replica RoleReplica true 0 in
  boot_role (mkRC "" "10.0.0.1:8443") (ns_db (foldl run_step n (take 1 (promote_steps 5)))) = RolePrimary /\
  follows_at_boot (mkRC "" "10.0.0.1:8443") (ns_db (foldl run_step n (take 1 (promote_steps 5)))) = None.
Proof.
  intros n. split; [reflexivity|].
  destruct (promotion_survives_crash (mkRC "" "10.0.0.1:8443") 5 n 1 false false eq_refl eq_refl) as [[H|[_ H]] _]; [|exact H].
  apply (f_equal (fun n => n_promotion (node (ns_db n)))) in H. discriminate H.
Defined.
(** Pairing again demotes: a promoted node whose file names a primary and which joins
    it follows it from the next start, and the pull system starts from [paired]. *)
Lemma joining_demotes cfg fp db : rc_Listen cfg = "" -> rc_Primary cfg <> "" -> fp <> "" ->
  let db' := (FollowPrimary fp 0 db).1 in boot_role cfg db' = RoleReplica /\ follows_at_boot cfg db' = Some fp.
Proof.
  intros H1 H2 H3 db'. assert (B : boot_role cfg db' = RoleReplica).
  { unfold boot_role, RoleAtBoot, RoleFrom. cbn. rewrite H1, (bool_decide_eq_false_2 ("" <> "")) by (intros H; by apply H).
    by rewrite bool_decide_eq_true_2. }
  split; [done|]. unfold follows_at_boot. rewrite B, bool_decide_eq_false_2 by (intros [_ ?]; done).
  rewrite bool_decide_eq_true_2 by done. unfold primaryFingerprint. cbn. by rewrite bool_decide_eq_false_2.
Qed.
(** What a status never does: look healthy on a replica that is not paired. *)
Lemma unpaired_replica_shows addr nodeID now : let s := replicaStatus RoleReplica addr nodeID now None in
  rst_Stale s = true /\ rst_LastError s = Some None /\ rst_PrimaryNodeID s = "".
Proof. done. Qed.
