(* ===== verification/DhcpRunner.v ===== *)
(** * The DHCP listener's lifecycle: [internal/app/dhcp.go]

    [dhcpRunner]: when the built-in server runs, what it is built from, what a refusal
    leaves alone, and how reservations are refreshed while nothing serializes the
    refreshes.  The host (interfaces, sockets, the segment) is an argument of each
    reconcile.  The allocator and subnet the code keeps next to the running server
    are those of the listener.  A step is one critical section of the code's lock. *)
From S2P Require Import Prelude GoStr NetIP Model Store StoreNode DhcpAlloc DhcpReserve DhcpServer Role.

Record IfaceInfo := mkIface { if_Name : string; if_Addr : Addr; if_Subnet : Prefix; if_Gateway : Addr; if_HasGlobalIPv6 : bool }.
(** A built server; [ln_id] is its identity. *)
Record Listener := mkListener { ln_id : Z; ln_opts : Options; ln_alloc : Allocator; ln_subnet : Prefix }.
Inductive runner_error :=
  | ErrReplicaNoDHCP | ServicesUnreadable (e : string) | NotQualified (e : string) | NoInterface (e : string) | BadSetting (key : string)
  | RangeOutside | ProbeFailed (e : string) | ForeignServer (found : list Foreign) | BindFailed (e : string) | RestoreFailed (e : store_error).
(** The host as one reconcile meets it. *)
Record Host := mkHost { h_qualifies : string -> option string; h_inspect : string -> result string IfaceInfo;
  h_detect : string -> result string (list Foreign); h_bind : Listener -> option string; h_now : Z }.
Inductive lease_src := SrcBuiltin (id : Z) | SrcFile (path : string).
Record Runner := mkRunner { rn_running : option Listener; rn_current : Settings; rn_lastError : option runner_error; rn_foreign : list Foreign;
  rn_watch : bool; rn_gen : Z; rn_problems : list ReservationProblem; rn_source : option lease_src; rn_db : DB; rn_next : Z }.
Definition NewRunner (db : DB) (src : option lease_src) : Runner := mkRunner None settings0 None [] false 0 [] src db 0.

Definition dhcpWanted (v : Settings) (role : Role) : bool :=
  DHCPEnabled v && negb (bool_decide (DHCPInterface v = "")) && negb (bool_decide (role = RoleReplica)).
Definition roleRefusal (v : Settings) (role : Role) : option runner_error :=
  if DHCPEnabled v && negb (bool_decide (DHCPInterface v = "")) && bool_decide (role = RoleReplica) then Some ErrReplicaNoDHCP else None.
Definition dhcpConfigEqual (a b : Settings) : bool :=
  bool_decide (DHCPEnabled a = DHCPEnabled b /\ DHCPInterface a = DHCPInterface b /\ DHCPRangeStart a = DHCPRangeStart b /\
    DHCPRangeEnd a = DHCPRangeEnd b /\ DHCPGateway a = DHCPGateway b /\ DHCPLeaseSeconds a = DHCPLeaseSeconds b /\
    DHCPSecondaryDNS a = DHCPSecondaryDNS b /\ PrivateDomain a = PrivateDomain b).
Definition foreignVerdict (probe : result string (list Foreign)) (allow : bool) : option runner_error :=
  if allow then None
  else match probe with Err e => Some (ProbeFailed e) | Ok [] => None | Ok found => Some (ForeignServer found) end.
Definition parseSetting (key value : string) : result runner_error Addr :=
  match ParseAddr (TrimSpace value) with Some a => Ok a | None => Err (BadSetting key) end.
(** Start, end and gateway of the pool, inside the interface's subnet. *)
Definition listener_range (info : IfaceInfo) (v : Settings) : result runner_error (Addr * Addr * Addr) :=
  start <-? parseSetting "dhcp.range_start" (DHCPRangeStart v) ;;
  end_ <-? parseSetting "dhcp.range_end" (DHCPRangeEnd v) ;;
  gateway <-? parseSetting "dhcp.gateway" (DHCPGateway v) ;;
  if negb (Pfx.Contains (if_Subnet info) start) || negb (Pfx.Contains (if_Subnet info) end_) then Err RangeOutside
  else Ok (start, end_, gateway).
Definition listener_dns (info : IfaceInfo) (v : Settings) : result runner_error (list Addr) :=
  if bool_decide (TrimSpace (DHCPSecondaryDNS v) <> "")
  then a <-? parseSetting "dhcp.secondary_dns" (DHCPSecondaryDNS v) ;; Ok [if_Addr info; a] else Ok [if_Addr info].
(** [verdict] is the rogue check's, if it ran. *)
Definition assemble (info : IfaceInfo) (v : Settings) (verdict : option runner_error) (id : Z) : result runner_error Listener :=
  rng <-? listener_range info v ;;
  match verdict with
  | Some e => Err e
  | None =>
      let '(start, end_, gateway) := rng in
      let cfg := mkConfig (if_Subnet info) start end_ (if_Addr info) gateway (int64 (seconds (DHCPLeaseSeconds v))) in
      dns <-? listener_dns info v ;;
      Ok (mkListener id (mkOptions (if_Addr info) cfg dns (PrivateDomain v)) (NewAllocator cfg) (if_Subnet info))
  end.
Definition build (h : Host) (v : Settings) (probe : bool) (id : Z) : result runner_error Listener :=
  match h_qualifies h (DHCPInterface v) with
  | Some e => Err (NotQualified e)
  | None =>
      match h_inspect h (DHCPInterface v) with
      | Err e => Err (NoInterface e)
      | Ok info => assemble info v (if probe then foreignVerdict (h_detect h (DHCPInterface v)) (DHCPAllowForeign v) else None) id
      end
  end.
Definition needsProbe (v : Settings) (r : Runner) : bool :=
  match rn_running r with None => true | Some _ => negb (bool_decide (DHCPInterface (rn_current r) = DHCPInterface v)) end.

Definition stopLocked (r : Runner) : Runner :=
  mkRunner None (rn_current r) (rn_lastError r) [] false (rn_gen r) [] (match rn_running r with Some _ => None | None => rn_source r end) (rn_db r) (rn_next r).
Definition fail_runner (v : Settings) (e : runner_error) (r : Runner) : Runner :=
  mkRunner (rn_running r) (match rn_running r with None => v | Some _ => rn_current r end) (Some e) (rn_foreign r) (rn_watch r) (rn_gen r)
    (rn_problems r) (rn_source r) (rn_db r) (rn_next r).
(** [Server.Start]: the stored leases are loaded before the socket opens. *)
Definition start_listener (h : Host) (l : Listener) (db : DB) : DB * result runner_error Listener :=
  match restore (h_now h) (mkWorld (ln_alloc l) db ∅ [] 0) with
  | (w, Err e) => (w_store w, Err (RestoreFailed e))
  | (w, Ok _) =>
      let l := mkListener (ln_id l) (ln_opts l) (w_alloc w) (ln_subnet l) in
      match h_bind h l with Some e => (w_store w, Err (BindFailed e)) | None => (w_store w, Ok l) end
  end.
Definition arm_subnet (subnet : Prefix) (svcs : list Service) (l : Listener) : Listener :=
  mkListener (ln_id l) (ln_opts l) (SetReservations (Reservations svcs subnet).1 (ln_alloc l)) (ln_subnet l).
Definition arm (svcs : list Service) (l : Listener) : Listener := arm_subnet (ln_subnet l) svcs l.
Definition allow_foreign (b : bool) (v : Settings) : Settings :=
  with_dhcp v (mkSettings (PrivateDomain v) (ReverseZones v) (Upstreams v) (AllowQuery v) (AllowTailscale v) (TTL v) (CacheMinTTL v) (CacheMaxTTL v)
    (NegativeMaxTTL v) (CacheEntries v) (LogQueries v) (LogClientIP v) (DHCPLeaseFile v) (DiscoveryInterval v) (HealthInterval v) (HealthTimeout v)
    (HealthWorkers v) (DHCPEnabled v) (DHCPInterface v) (DHCPRangeStart v) (DHCPRangeEnd v) (DHCPGateway v) (DHCPLeaseSeconds v) (DHCPSecondaryDNS v) b).
Definition reconcile (h : Host) (v : Settings) (role : Role) (svcs : result string (list Service)) (r : Runner) : Runner :=
  if negb (dhcpWanted v role) then
    let r := stopLocked r in
    mkRunner (rn_running r) v (roleRefusal v role) (rn_foreign r) (rn_watch r) (rn_gen r) (rn_problems r) (rn_source r) (rn_db r) (rn_next r)
  else if bool_decide (is_Some (rn_running r)) && dhcpConfigEqual (rn_current r) v then
    mkRunner (rn_running r) (allow_foreign (DHCPAllowForeign v) (rn_current r)) None (rn_foreign r) (rn_watch r) (rn_gen r) (rn_problems r)
      (rn_source r) (rn_db r) (rn_next r)
  else match svcs with
  | Err e => fail_runner v (ServicesUnreadable e) r
  | Ok svcs =>
      match build h v (needsProbe v r) (rn_next r) with
      | Err e => fail_runner v e r
      | Ok l =>
          let r := stopLocked r in
          match start_listener h (arm svcs l) (rn_db r) with
          | (db, Err e) => fail_runner v e (mkRunner None (rn_current r) (rn_lastError r) [] false (rn_gen r) [] (rn_source r) db (rn_next r + 1))
          | (db, Ok l) => mkRunner (Some l) v None [] true (rn_gen r) [] (Some (SrcBuiltin (ln_id l))) db (rn_next r + 1)
          end
      end
  end.
(** The two critical sections of a refresh around its read of the services. *)
Definition refresh_begin (r : Runner) : Runner * option (Z * Listener) :=
  let gen := u64w (rn_gen r + 1) in
  (mkRunner (rn_running r) (rn_current r) (rn_lastError r) (rn_foreign r) (rn_watch r) gen (rn_problems r) (rn_source r) (rn_db r) (rn_next r),
   (fun l => (gen, l)) <$> rn_running r).
Definition refresh_end (gen : Z) (l : Listener) (svcs : result string (list Service)) (r : Runner) : Runner :=
  match svcs, rn_running r with
  | Ok svcs, Some cur =>
      if bool_decide (ln_id cur = ln_id l) && (rn_gen r =? gen)
      then mkRunner (Some (arm_subnet (ln_subnet l) svcs cur)) (rn_current r) (rn_lastError r) (rn_foreign r) (rn_watch r) (rn_gen r)
             (Reservations svcs (ln_subnet l)).2 (rn_source r) (rn_db r) (rn_next r)
      else r
  | _, _ => r
  end.
Definition RefreshReservations (svcs : result string (list Service)) (r : Runner) : Runner :=
  match refresh_begin r with (r, None) => r | (r, Some (gen, l)) => refresh_end gen l svcs r end.
(** The services are read once before the lock and once by the refresh. *)
Definition Reconcile (h : Host) (v : Settings) (role : Role) (svcs svcs' : result string (list Service)) (r : Runner) : Runner :=
  RefreshReservations svcs' (reconcile h v role (if dhcpWanted v role then svcs else Ok []) r).
Definition RunnerStatus (r : Runner) : bool * option runner_error := (bool_decide (is_Some (rn_running r)), rn_lastError r).
(** A periodic probe of the listener [id]; its context ends with that listener. *)
Definition checkForeign (id : Z) (found : result string (list Foreign)) (r : Runner) : Runner :=
  match found, rn_running r with
  | Ok found, Some l => if ln_id l =? id then mkRunner (rn_running r) (rn_current r) (rn_lastError r) found (rn_watch r) (rn_gen r)
      (rn_problems r) (rn_source r) (rn_db r) (rn_next r) else r
  | _, _ => r
  end.
(** What [liveComponents.Apply] does to the poller's source after its reconcile. *)
Definition follow_source (v : Settings) (r : Runner) : Runner :=
  match rn_running r with
  | Some _ => r
  | None => mkRunner None (rn_current r) (rn_lastError r) (rn_foreign r) (rn_watch r) (rn_gen r) (rn_problems r)
      (if bool_decide (DHCPLeaseFile v <> "") then Some (SrcFile (DHCPLeaseFile v)) else None) (rn_db r) (rn_next r)
  end.

(** ** Lemmas: what a listener is built from *)
(** The listener is what [v] describes, on some interface. *)
Definition built_from (v : Settings) (l : Listener) : Prop :=
  exists info l0, assemble info v None (ln_id l) = Ok l0 /\ ln_opts l = ln_opts l0 /\ ln_subnet l = ln_subnet l0.
Lemma assemble_verdict info v verdict id l : assemble info v verdict id = Ok l -> verdict = None /\ assemble info v None id = Ok l.
Proof. unfold assemble. rewrite rbind_ok. intros (rng & E & H). rewrite E. cbn [rbind]. by destruct verdict. Qed.
Lemma assemble_parts info v id l : assemble info v None id = Ok l ->
  ln_id l = id /\ ln_subnet l = if_Subnet info /\ ln_alloc l = NewAllocator (o_Cfg (ln_opts l)) /\ cf_Subnet (o_Cfg (ln_opts l)) = if_Subnet info /\
  Pfx.Contains (if_Subnet info) (cf_Start (o_Cfg (ln_opts l))) = true /\ Pfx.Contains (if_Subnet info) (cf_End (o_Cfg (ln_opts l))) = true.
Proof.
  unfold assemble, listener_range. rewrite rbind_ok. intros ([[s e] g] & H & H2).
  apply rbind_ok in H as (s' & _ & H). apply rbind_ok in H as (e' & _ & H). apply rbind_ok in H as (g' & _ & H).
  destruct (Pfx.Contains (if_Subnet info) s') eqn:C1, (Pfx.Contains (if_Subnet info) e') eqn:C2; try discriminate H. injection H as -> -> ->.
  apply rbind_ok in H2 as (dns & _ & [= <-]). done.
Qed.
Lemma build_ok h v probe id l : build h v probe id = Ok l ->
  exists info, h_qualifies h (DHCPInterface v) = None /\ h_inspect h (DHCPInterface v) = Ok info /\ assemble info v None id = Ok l /\
    (probe = true -> DHCPAllowForeign v = true \/ h_detect h (DHCPInterface v) = Ok []).
Proof.
  unfold build. destruct (h_qualifies _ _); [done|]. destruct (h_inspect _ _) as [info|]; [|done]. intros H.
  apply assemble_verdict in H as [V H]. exists info. do 3 (split; [done|]). intros ->. unfold foreignVerdict in V.
  destruct (DHCPAllowForeign v); [by left|]. right. by destruct (h_detect _ _) as [[|]|].
Qed.
(** Two settings the runner takes for the same build the same listener. *)
Lemma equal_settings_build_equal a b info id : dhcpConfigEqual a b = true -> assemble info a None id = assemble info b None id.
Proof.
  unfold dhcpConfigEqual. rewrite bool_decide_eq_true. intros (_ & _ & H1 & H2 & H3 & H4 & H5 & H6).
  unfold assemble, listener_range, listener_dns. by rewrite H1, H2, H3, H4, H5, H6.
Qed.
Lemma built_from_equal a b l : dhcpConfigEqual a b = true -> built_from a l -> built_from b l.
Proof. intros E (info & l0 & H & H'). exists info, l0. by rewrite <- (equal_settings_build_equal a b info). Qed.
Lemma start_listener_ok h l db db' l' : start_listener h l db = (db', Ok l') ->
  ln_id l' = ln_id l /\ ln_opts l' = ln_opts l /\ ln_subnet l' = ln_subnet l /\ cfg (ln_alloc l') = cfg (ln_alloc l) /\ reserved (ln_alloc l') = reserved (ln_alloc l) /\
  h_bind h l' = None.
Proof.
  unfold start_listener, restore. cbn. destruct (h_bind h _) eqn:B; [done|]. intros [= _ <-]. done.
Qed.

(** ** The invariant *)
(** The listener, the settings on record, the lease source, the watch and the banner
    belong together. *)
Record runner_ok (r : Runner) : Prop := {
  ro_listener : forall l, rn_running r = Some l ->
    dhcpWanted (rn_current r) RolePrimary = true /\ built_from (rn_current r) l /\ rn_source r = Some (SrcBuiltin (ln_id l)) /\ rn_watch r = true /\
    ln_id l < rn_next r /\ cfg (ln_alloc l) = o_Cfg (ln_opts l) /\
    exists svcs, reserved (ln_alloc l) = (Reservations svcs (ln_subnet l)).1 /\ (rn_problems r = [] \/ rn_problems r = (Reservations svcs (ln_subnet l)).2);
  ro_stopped : rn_running r = None -> rn_watch r = false /\ rn_foreign r = [] /\ rn_problems r = [] /\ forall id, rn_source r <> Some (SrcBuiltin id) }.
Lemma wanted_primary v role : dhcpWanted v role = true -> dhcpWanted v RolePrimary = true /\ role <> RoleReplica.
Proof. unfold dhcpWanted. rewrite !andb_true_iff, !negb_true_iff. intros [[-> ->] H]. apply bool_decide_eq_false in H. done. Qed.
Lemma stopLocked_ok r : runner_ok r -> runner_ok (stopLocked r) /\ rn_running (stopLocked r) = None.
Proof.
  intros [H1 H2]. split; [|done]. constructor; [done|]. intros _. do 3 (split; [done|]). cbn. destruct (rn_running r) eqn:E; [done|]. by apply H2.
Qed.
Lemma fail_ok v e r : runner_ok r -> runner_ok (fail_runner v e r).
Proof.
  intros [H1 H2]. constructor; cbn; [|done]. intros l Hl. rewrite Hl. by apply H1.
Qed.
Lemma allow_foreign_equal b v : dhcpConfigEqual v (allow_foreign b v) = true.
Proof. unfold dhcpConfigEqual. by rewrite bool_decide_eq_true_2. Qed.
Lemma reconcile_ok h v role svcs r : runner_ok r -> runner_ok (reconcile h v role svcs r).
Proof.
  intros Hr. unfold reconcile. destruct (dhcpWanted v role) eqn:W; cbn [negb].
  2: { destruct (stopLocked_ok r Hr) as [[_ H2] _]. constructor; [done|]. exact H2. }
  apply wanted_primary in W as [W Hrole].
  destruct (bool_decide_reflect (is_Some (rn_running r))) as [[l Hl]|Hn]; cbn [andb].
  1: destruct (dhcpConfigEqual (rn_current r) v) eqn:E.
  1: { destruct Hr as [H1 H2]. constructor; cbn; [|by rewrite Hl]. intros l' Hl'. destruct (H1 l' Hl') as (A1 & A2 & A3).
       split; [done|]. split; [|done]. eapply built_from_equal; [apply allow_foreign_equal|done]. }
  all: destruct svcs as [svcs|e]; [|by apply fail_ok].
  all: destruct (build h v (needsProbe v r) (rn_next r)) as [nl|e] eqn:B; [|by apply fail_ok].
  all: destruct (start_listener h (arm svcs nl) (rn_db (stopLocked r))) as [db [l'|e]] eqn:S.
  2,4: apply fail_ok; destruct (stopLocked_ok r Hr) as [[_ H2] _]; constructor; [done|exact H2].
  all: apply start_listener_ok in S as (S1 & S2 & S3 & S4 & S5 & _); apply build_ok in B as (info & _ & _ & B & _);
    destruct (assemble_parts _ _ _ _ B) as (P1 & P2 & P3 & _); constructor; [|done]; cbn; intros ? [= <-]; split; [done|];
    (split; [exists info, nl; rewrite S1; cbn; rewrite P1; done|]); do 2 (split; [done|]); rewrite S1; cbn; (split; [lia|]);
    (split; [rewrite S4, S2; cbn; by rewrite P3|]); exists svcs; rewrite S5, S3; cbn; (split; [done|by left]).
Qed.
Lemma refresh_begin_ok r : runner_ok r -> runner_ok (refresh_begin r).1.
Proof. by intros [H1 H2]. Qed.
Lemma refresh_end_ok gen l svcs r : runner_ok r -> (forall cur, rn_running r = Some cur -> ln_id cur = ln_id l -> ln_subnet cur = ln_subnet l) ->
  runner_ok (refresh_end gen l svcs r).
Proof.
  intros H Hl. unfold refresh_end. destruct svcs as [svcs|]; [|done]. destruct (rn_running r) as [cur|] eqn:Hc; [|done].
  destruct (bool_decide_reflect (ln_id cur = ln_id l)) as [E|]; cbn [andb]; [|done]. destruct (rn_gen r =? gen); [|done].
  destruct H as [H1 H2]. constructor; cbn; [|done]. intros ? [= <-]. destruct (H1 cur Hc) as (A1 & A2 & A3 & A4 & A5 & A6 & _).
  do 6 (split; [done|]). exists svcs. cbn. rewrite (Hl cur eq_refl E). split; [done|by right].
Qed.

(** ** Steps and histories *)
(** The runner and the refreshes that took a number and have not published. *)
Record RunWorld := mkRW { rw_runner : Runner; rw_pending : list (Z * Listener) }.
Inductive run_event :=
  | REReconcile (h : Host) (v : Settings) (role : Role) (svcs : result string (list Service))
  | REBegin                                                  (* a refresh takes its number *)
  | REEnd (k : nat) (svcs : result string (list Service))    (* and the [k]th publishes what it read *)
  | REForeign (id : Z) (found : result string (list Foreign))
  | REFollow (v : Settings).                                 (* a settings change without a listener *)
Definition run_step (w : RunWorld) (ev : run_event) : RunWorld :=
  let r := rw_runner w in
  match ev with
  | REReconcile h v role svcs => mkRW (reconcile h v role svcs r) (rw_pending w)
  | REBegin => let '(r, t) := refresh_begin r in mkRW r (rw_pending w ++ option_list t)
  | REEnd k svcs => match rw_pending w !! k with
                    | Some (gen, l) => mkRW (refresh_end gen l svcs r) (delete k (rw_pending w))
                    | None => w
                    end
  | REForeign id found => mkRW (checkForeign id found r) (rw_pending w)
  | REFollow v => mkRW (follow_source v r) (rw_pending w)
  end.
(** A number taken under a listener stays that listener's. *)
Definition token_ok (r : Runner) (t : Z * Listener) : Prop :=
  ln_id t.2 < rn_next r /\ forall cur, rn_running r = Some cur -> ln_id cur = ln_id t.2 -> ln_subnet cur = ln_subnet t.2.
Definition run_ok (w : RunWorld) : Prop := runner_ok (rw_runner w) /\ Forall (token_ok (rw_runner w)) (rw_pending w).
(** A step that keeps the listeners' identities apart keeps the tokens. *)
Lemma tokens_kept r r' ts : rn_next r <= rn_next r' ->
  (forall cur, rn_running r' = Some cur -> rn_next r <= ln_id cur \/ exists old, rn_running r = Some old /\ ln_id old = ln_id cur /\ ln_subnet old = ln_subnet cur) ->
  Forall (token_ok r) ts -> Forall (token_ok r') ts.
Proof.
  intros Hn Hr Ht. eapply Forall_impl; [exact Ht|]. intros t [H1 H2]. split; [lia|]. intros cur Hc E. destruct (Hr cur Hc) as [H|(old & Ho & E1 & E2)]; [lia|].
  rewrite <- E2. apply H2; [done|congruence].
Qed.
Lemma reconcile_tokens h v role svcs r : rn_next r <= rn_next (reconcile h v role svcs r) /\
  forall cur, rn_running (reconcile h v role svcs r) = Some cur ->
    rn_next r <= ln_id cur \/ exists old, rn_running r = Some old /\ ln_id old = ln_id cur /\ ln_subnet old = ln_subnet cur.
Proof.
  assert (K : forall cur, rn_running r = Some cur -> exists old, rn_running r = Some old /\ ln_id old = ln_id cur /\ ln_subnet old = ln_subnet cur) by (intros cur Hc; by exists cur).
  unfold reconcile. destruct (negb (dhcpWanted v role)); [split; [done|done]|].
  destruct (_ && _); [split; [done|by intros cur Hc; right; apply K]|]. destruct svcs as [svcs|e]; [|split; [done|by intros cur Hc; right; apply K]].
  destruct (build h v (needsProbe v r) (rn_next r)) as [l|e] eqn:B; [|split; [done|by intros cur Hc; right; apply K]].
  destruct (start_listener h (arm svcs l) (rn_db (stopLocked r))) as [db [l'|e]] eqn:S; cbn; (split; [lia|]); [|done].
  intros cur [= <-]. left. apply start_listener_ok in S as (-> & _). apply build_ok in B as (info & _ & _ & B & _).
  destruct (assemble_parts _ _ _ _ B) as (P & _). cbn. lia.
Qed.
Lemma run_step_ok w ev : run_ok w -> run_ok (run_step w ev).
Proof.
  intros [H Ht]. destruct ev as [h v role svcs| |k svcs|id found|v]; cbn [run_step].
  - split; [by apply reconcile_ok|]. cbn. destruct (reconcile_tokens h v role svcs (rw_runner w)) as [T1 T2]. by eapply tokens_kept.
  - split; [by apply (refresh_begin_ok (rw_runner w))|]. cbn. apply Forall_app. split.
    + apply (tokens_kept (rw_runner w)); [done| |done]. intros cur Hc. right. by exists cur.
    + destruct (rn_running (rw_runner w)) as [l|] eqn:E; cbn; [|constructor]. apply Forall_singleton. destruct H as [H1 _].
      destruct (H1 l E) as (_ & _ & _ & _ & A & _). split; [done|]. cbn. intros cur Hc _. congruence.
  - destruct (rw_pending w !! k) as [[gen l]|] eqn:P; [|by split]. pose proof (Forall_lookup_1 _ _ _ _ Ht P) as [_ Htok]. cbn in Htok.
    split; [by apply refresh_end_ok|]. cbn. apply Forall_delete. apply (tokens_kept (rw_runner w)); [| |done].
    + unfold refresh_end. destruct svcs; [|done]. destruct (rn_running _); [|done]. by destruct (_ && _).
    + unfold refresh_end. destruct svcs as [ss|]; [|intros cur Hc; right; by exists cur]. destruct (rn_running (rw_runner w)) as [c|] eqn:E; [|by rewrite E].
      destruct (_ && _); [|rewrite E; intros cur Hc; right; by exists cur]. cbn. intros cur [= <-]. right. by exists c.
  - unfold checkForeign. destruct found as [f|]; [|by split]. destruct (rn_running (rw_runner w)) as [l|] eqn:E; [|by split].
    destruct (ln_id l =? id); [|by split]. destruct H as [H1 H2]. split.
    + constructor; cbn; [|done]. intros ? [= <-]. by apply H1.
    + cbn. apply (tokens_kept (rw_runner w)); [done| |done]. cbn. intros cur [= <-]. right. by exists l.
  - unfold follow_source. destruct (rn_running (rw_runner w)) as [l|] eqn:E; [by split|]. destruct H as [H1 H2]. destruct (H2 E) as (A1 & A2 & A3 & A4).
    split; [|cbn; by apply (tokens_kept (rw_runner w))]. constructor; cbn; [done|]. intros _. do 3 (split; [done|]). intros id. by case_bool_decide.
Qed.
(** The settings and the role of the last reconcile. *)
Definition last_reconcile (evs : list run_event) : option (Settings * Role) :=
  last (omap (fun ev => match ev with REReconcile _ v role _ => Some (v, role) | _ => None end) evs).
Lemma running_wanted w ev : is_Some (rn_running (rw_runner (run_step w ev))) ->
  match ev with REReconcile _ v role _ => dhcpWanted v role = true | _ => is_Some (rn_running (rw_runner w)) end.
Proof.
  destruct ev as [h v role svcs| |k svcs|id found|v]; cbn [run_step].
  - cbn. unfold reconcile. by destruct (dhcpWanted v role); [|intros [? ?]].
  - done.
  - destruct (rw_pending w !! k) as [[gen l]|]; [|done]. cbn. unfold refresh_end. destruct svcs as [svcs|]; [|done].
    destruct (rn_running (rw_runner w)) as [cur|] eqn:E; [intros _; by eexists|by rewrite E].
  - cbn. unfold checkForeign. destruct found as [f|]; [|done]. destruct (rn_running (rw_runner w)) as [l|] eqn:E; [intros _; by eexists|by rewrite E].
  - cbn. unfold follow_source. destruct (rn_running (rw_runner w)) as [l|] eqn:E; [intros _; by eexists|]. done.
Qed.

(** the lifecycle of the listener.  After any interleaving of reconciles, refreshes,
    probes and settings changes: a listener runs only if the last reconcile found DHCP
    enabled on an interface on a node that is not a replica; it is what the recorded
    settings describe, its pool lies in the interface's subnet, it is the only source
    of leases, and its reservations are those of one reading of the services, the same
    that is reported; and when none runs, nothing of it is left behind. *)
Theorem listener_lifecycle evs db src : (forall id, src <> Some (SrcBuiltin id)) ->
  let r := rw_runner (foldl run_step (mkRW (NewRunner db src) []) evs) in
  match rn_running r with
  | None => rn_watch r = false /\ rn_foreign r = [] /\ rn_problems r = [] /\ forall id, rn_source r <> Some (SrcBuiltin id)
  | Some l =>
      (exists v role, last_reconcile evs = Some (v, role) /\ dhcpWanted v role = true /\ role <> RoleReplica) /\
      built_from (rn_current r) l /\ rn_source r = Some (SrcBuiltin (ln_id l)) /\
      Pfx.Contains (ln_subnet l) (cf_Start (cfg (ln_alloc l))) = true /\ Pfx.Contains (ln_subnet l) (cf_End (cfg (ln_alloc l))) = true /\
      exists svcs, reserved (ln_alloc l) = (Reservations svcs (ln_subnet l)).1 /\ (rn_problems r = [] \/ rn_problems r = (Reservations svcs (ln_subnet l)).2)
  end.
Proof.
  intros Hsrc r. assert (H : run_ok (foldl run_step (mkRW (NewRunner db src) []) evs)).
  { apply (foldl_inv run_ok run_step); [by intros; apply run_step_ok|]. split; [by constructor|constructor]. }
  destruct H as [[H1 H2] _]. fold r in H1, H2. destruct (rn_running r) as [l|] eqn:E; [|by apply H2]. destruct (H1 l eq_refl) as (_ & A2 & A3 & _ & _ & A6 & A7).
  split; [|split; [done|split; [done|]]].
  - assert (Hl : is_Some (rn_running r)) by (by eexists). clear E H1 H2 A2 A3 A6 A7. unfold r in *. clear r.
    induction evs as [|ev evs IH] using rev_ind; [by destruct Hl|]. rewrite foldl_app in Hl. cbn [foldl] in Hl.
    apply running_wanted in Hl. unfold last_reconcile. rewrite omap_app. destruct ev as [h v role svcs| |k svcs|id found|v]; cbn [omap list_omap];
      [|rewrite app_nil_r; by apply IH..].
    rewrite last_snoc. exists v, role. split; [done|]. split; [done|]. exact (proj2 (wanted_primary _ _ Hl)).
  - destruct A2 as (info & l0 & A & B & C). destruct (assemble_parts _ _ _ _ A) as (_ & P2 & _ & _ & P5 & P6).
    split; [by rewrite A6, B, C, P2|]. split; [by rewrite A6, B, C, P2|exact A7].
Qed.

(** what one reconcile does.  If DHCP is not wanted the listener stops, and a replica
    says why.  If it is and nothing the server is built from changed, the running
    listener is left alone.  Otherwise a reading of the services that failed, or
    anything the build refuses, leaves a running listener, its lease source and its
    settings exactly as they were and only reports the reason; and a listener that
    does come up was armed with the reservations of the services it was given before
    its socket opened, on an interface that qualified and a segment that was clear. *)
Theorem reconcile_outcome h v role svcs r :
  let r' := reconcile h v role svcs r in
  (dhcpWanted v role = false -> rn_running r' = None /\ rn_lastError r' = roleRefusal v role) /\
  (dhcpWanted v role = true -> dhcpConfigEqual (rn_current r) v = true -> is_Some (rn_running r) ->
     rn_running r' = rn_running r /\ rn_source r' = rn_source r /\ rn_lastError r' = None) /\
  (dhcpWanted v role = true -> (is_Some (rn_running r) -> dhcpConfigEqual (rn_current r) v = false) ->
   match svcs with
   | Err e => rn_lastError r' = Some (ServicesUnreadable e) /\ rn_running r' = rn_running r /\ rn_source r' = rn_source r /\
       (is_Some (rn_running r) -> rn_current r' = rn_current r)
   | Ok svcs =>
       match build h v (needsProbe v r) (rn_next r) with
       | Err e => rn_lastError r' = Some e /\ rn_running r' = rn_running r /\ rn_source r' = rn_source r /\ rn_problems r' = rn_problems r /\
           (is_Some (rn_running r) -> rn_current r' = rn_current r)
       | Ok l =>
           match rn_running r' with
           | None => exists e, rn_lastError r' = Some e
           | Some l' => rn_lastError r' = None /\ rn_current r' = v /\ built_from v l' /\ h_bind h l' = None /\
               reserved (ln_alloc l') = (Reservations svcs (ln_subnet l')).1 /\ h_qualifies h (DHCPInterface v) = None /\
               (rn_running r = None -> DHCPAllowForeign v = true \/ h_detect h (DHCPInterface v) = Ok [])
           end
       end
   end).
Proof.
  intros r'. unfold r', reconcile. destruct (dhcpWanted v role); cbn [negb]; (split; [done|]); [|by split].
  split.
  - intros _ E Hs. rewrite bool_decide_eq_true_2 by done. rewrite E. done.
  - intros _ Hne. assert (Hf : bool_decide (is_Some (rn_running r)) && dhcpConfigEqual (rn_current r) v = false).
    { destruct (bool_decide_reflect (is_Some (rn_running r))); [by rewrite Hne|done]. }
    rewrite Hf. destruct svcs as [svcs|e].
    2: { do 3 (split; [done|]). cbn. by intros [l ->]. }
    destruct (build h v (needsProbe v r) (rn_next r)) as [l|e] eqn:B.
    2: { do 4 (split; [done|]). cbn. by intros [l ->]. }
    destruct (start_listener h (arm svcs l) (rn_db (stopLocked r))) as [db [l'|e]] eqn:S; cbn; [|by eexists].
    apply start_listener_ok in S as (S1 & S2 & S3 & _ & S5 & S6). apply build_ok in B as (info & Q & _ & B & D).
    destruct (assemble_parts _ _ _ _ B) as (P1 & P2 & _). do 2 (split; [done|]).
    split; [exists info, l; rewrite S1; cbn; rewrite P1; done|]. split; [done|]. split; [by rewrite S5, S3|]. split; [done|].
    intros Hn. apply D. unfold needsProbe. by rewrite Hn.
Qed.

(** an overtaken refresh publishes nothing.  A refresh that began with some number
    changes the runner only if no refresh began since and the listener it began under
    still runs, and then it replaces the reservations and the report together by those
    of the services it read. *)
Theorem overtaken_refresh_publishes_nothing gen l svcs r :
  let r' := refresh_end gen l svcs r in
  r' = r \/
  exists ss cur, svcs = Ok ss /\ rn_running r = Some cur /\ ln_id cur = ln_id l /\ rn_gen r = gen /\
    rn_running r' = Some (arm_subnet (ln_subnet l) ss cur) /\ rn_problems r' = (Reservations ss (ln_subnet l)).2 /\ rn_source r' = rn_source r /\ rn_current r' = rn_current r /\
    rn_lastError r' = rn_lastError r.
Proof.
  cbv zeta. unfold refresh_end. destruct svcs as [ss|]; [|by left]. destruct (rn_running r) as [cur|]; [|by left].
  destruct (bool_decide_reflect (ln_id cur = ln_id l)) as [E|E]; cbn [andb]; [|by left]. destruct (Z.eqb_spec (rn_gen r) gen); [|by left].
  right. exists ss, cur. done.
Qed.

(** ** Concrete runs *)
Definition ex_info : IfaceInfo := mkIface "eth0" (Addr4 3232235777) (mkPrefix (Addr4 3232235776) 24) (Addr4 3232235777) false.
Definition ex_host : Host := mkHost (fun _ => None) (fun _ => Ok ex_info) (fun _ => Ok []) (fun _ => None) 0.
Definition ex_dhcp : Settings :=
  mkSettings "home.arpa" [] [] ["192.168.1.0/24"] false 300 0 0 0 0 false false "" 30 30 5 8 true "eth0" "192.168.1.10" "192.168.1.99" "192.168.1.1" 86400 "" false.
Definition ex_reserved : Service := mkService 1 "nas" [mkAddress 1 "192.168.1.20" ""] [] "" false "" false "aa:bb:cc:dd:ee:ff".
Definition ex_runner : Runner := NewRunner db0 None.
Lemma listener_lifecycle_witness :
  let w := foldl run_step (mkRW ex_runner []) [REReconcile ex_host ex_dhcp RolePrimary (Ok [ex_reserved])] in
  match rn_running (rw_runner w) with
  | Some l => built_from (rn_current (rw_runner w)) l /\ reserved (ln_alloc l) !! "aa:bb:cc:dd:ee:ff" = Some (Addr4 3232235796)
  | None => False
  end.
Proof.
  intros w. assert (Hs : forall id, None <> Some (SrcBuiltin id)) by discriminate.
  pose proof (listener_lifecycle [REReconcile ex_host ex_dhcp RolePrimary (Ok [ex_reserved])] db0 None Hs) as H. cbv zeta in H. fold ex_runner in H. fold w in H.
  destruct (rn_running (rw_runner w)) as [l|] eqn:E; [|vm_compute in E; discriminate E]. split; [exact (proj1 (proj2 H))|].
  vm_compute in E. injection E as <-. vm_compute. reflexivity.
Defined.
Lemma reconcile_outcome_witness :
  let r' := reconcile ex_host (allow_foreign true ex_dhcp) RolePrimary (Err "locked") ex_runner in
  rn_lastError r' = Some (ServicesUnreadable "locked") /\ rn_running r' = None.
Proof.
  intros r'. pose proof (reconcile_outcome ex_host (allow_foreign true ex_dhcp) RolePrimary (Err "locked") ex_runner) as H.
  destruct H as (_ & _ & H). destruct H as (H1 & H2 & _).
  - vm_compute. reflexivity.
  - intros [l Hl]. vm_compute in Hl. discriminate Hl.
  - split; [exact H1|exact H2].
Defined.
(** A reconcile reads the role before it takes the lock: one that read it before a
    promotion and runs after the promotion's own takes the new primary's listener
    down, and nothing starts it again. *)
Lemma stale_role_stops_listener :
  let before := reconcile ex_host ex_dhcp RoleReplica (Ok []) ex_runner in
  let promoted := reconcile ex_host ex_dhcp RolePrimary (Ok []) before in
  let after := reconcile ex_host ex_dhcp RoleReplica (Ok []) promoted in
  is_Some (rn_running promoted) /\ rn_running after = None /\ rn_lastError after = Some ErrReplicaNoDHCP.
Proof. split; [apply (bool_decide_unpack _); by vm_compute|]. split; by vm_compute. Qed.
(** A refresh that read the services is thrown away because a later one began, even
    when the later one then cannot read them: the reservations stay as they were. *)
Lemma failed_refresh_discards_a_good_one :
  let r := reconcile ex_host ex_dhcp RolePrimary (Ok []) ex_runner in
  let w := foldl run_step (mkRW r []) [REBegin; REBegin; REEnd 1 (Err "locked"); REEnd 0 (Ok [ex_reserved])] in
  (fun l => reserved (ln_alloc l)) <$> rn_running (rw_runner w) = Some ∅.
Proof. by vm_compute. Qed.
(** Any listener's lease time is positive and does not overflow for accepted settings. *)
Lemma lease_time_exact v : 300 <= DHCPLeaseSeconds v <= 604800 -> int64 (seconds (DHCPLeaseSeconds v)) = DHCPLeaseSeconds v * 1000000000.
Proof. intros H. unfold int64, seconds, nanos_per_sec. rewrite Z.mod_small by lia. lia. Qed.
