(* ===== verification/GoDuration.v ===== *)
(** * Durations as text: [time.ParseDuration]

    A sign and then terms, each a decimal number and its unit, read the way the standard
    library reads them, with its checks that nothing leaves 64 bits.  The fraction of a unit is
    taken exactly and rounded down; the library computes it in float64. *)
From S2P Require Import Prelude GoStr.

Definition max63 : Z := 2 ^ 63.
Definition dec_val (c : ascii) : Z := code c - 48.
Definition number_char (c : ascii) : bool := is_digit c || bool_decide (c = "."%char).

(** [leadingInt]: the digits at the front, or nothing when they overflow. *)
Fixpoint leadingInt (x : Z) (l : list ascii) : option (Z * list ascii) :=
  match l with
  | c :: l' => if negb (is_digit c) then Some (x, l)
               else if max63 / 10 <? x then None
               else let y := x * 10 + dec_val c in if max63 <? y then None else leadingInt y l'
  | [] => Some (x, [])
  end.
(** [leadingFraction]: digits past the point; those that no longer fit are read and
    dropped. *)
Fixpoint leadingFraction (x scale : Z) (overflow : bool) (l : list ascii) : Z * Z * list ascii :=
  match l with
  | c :: l' => if negb (is_digit c) then (x, scale, l)
               else if overflow then leadingFraction x scale true l'
               else if (max63 - 1) / 10 <? x then leadingFraction x scale true l'
               else let y := x * 10 + dec_val c in
                    if max63 <? y then leadingFraction x scale true l' else leadingFraction y (scale * 10) false l'
  | [] => (x, scale, [])
  end.
(** The unit is everything up to the next digit or point. *)
Fixpoint take_unit (l : list ascii) : list ascii * list ascii :=
  match l with
  | c :: l' => if number_char c then ([], l) else let '(u, rest) := take_unit l' in (c :: u, rest)
  | [] => ([], [])
  end.
Definition micro_sign : string := str [chr 194; chr 181; "s"%char].
Definition greek_mu : string := str [chr 206; chr 188; "s"%char].
Definition unitMap (u : string) : option Z :=
  if bool_decide (u = "ns") then Some 1
  else if bool_decide (u = "us" \/ u = micro_sign \/ u = greek_mu) then Some 1000
  else if bool_decide (u = "ms") then Some 1000000
  else if bool_decide (u = "s") then Some nanos_per_sec
  else if bool_decide (u = "m") then Some (seconds 60)
  else if bool_decide (u = "h") then Some (seconds 3600) else None.

(** The value of a number and its fraction in the unit that follows. *)
Definition with_unit (v f scale : Z) (l : list ascii) : option (Z * list ascii) :=
  let '(u, rest) := take_unit l in
  if bool_decide (u = []) then None
  else
    unit ← unitMap (str u);
    if max63 / unit <? v then None
    else if 0 <? f then let v := v * unit + f * unit / scale in if max63 <? v then None else Some (v, rest)
    else Some (v * unit, rest).
(** One number with its unit, and what follows it. *)
Definition one_term (l : list ascii) : option (Z * list ascii) :=
  if negb (match l with c :: _ => number_char c | [] => false end) then None
  else
    '(v, l1) ← leadingInt 0 l;
    let pre := negb (bool_decide (length l1 = length l)) in
    if bool_decide (head l1 = Some "."%char) then
      let '(f, scale, l2) := leadingFraction 0 1 false (tail l1) in
      if negb pre && bool_decide (length l2 = length (tail l1)) then None else with_unit v f scale l2
    else if negb pre then None else with_unit v 0 1 l1.
Fixpoint terms (fuel : nat) (d : Z) (l : list ascii) : option Z :=
  match l, fuel with
  | [], _ => Some d
  | _, O => None
  | _, S fuel => '(v, rest) ← one_term l; if max63 <? d + v then None else terms fuel (d + v) rest
  end.
Definition ParseDuration (s : string) : option Z :=
  let '(neg, l) := match bytes s with "-"%char :: l => (true, l) | "+"%char :: l => (false, l) | l => (false, l) end in
  if bool_decide (l = ["0"%char]) then Some 0
  else if bool_decide (l = []) then None
  else d ← terms (length l) 0 l; if (neg : bool) then Some (- d) else if max63 - 1 <? d then None else Some d.

Example duration_day : ParseDuration "24h" = Some (seconds 86400). Proof. reflexivity. Qed.
Example duration_mixed : ParseDuration "-1h15m30.5s" = Some (- seconds 4530 - 500000000). Proof. reflexivity. Qed.
Example duration_no_unit : ParseDuration "15" = None. Proof. reflexivity. Qed.
Example duration_overflow : ParseDuration "2562048h" = None. Proof. reflexivity. Qed.
Example duration_least : ParseDuration "-9223372036854775808ns" = Some (- 2 ^ 63). Proof. reflexivity. Qed.

(** ** Each term consumes something, so the fuel is enough *)
Lemma leadingInt_length x l y r : leadingInt x l = Some (y, r) -> (length r <= length l)%nat.
Proof. revert x. induction l as [|c l IH]; cbn; intros x; [by intros [= _ <-]|]. repeat case_match; try done; [by intros [= _ <-]|]. intros Hr%IH. lia. Qed.
Lemma leadingFraction_length x s o l : (length (leadingFraction x s o l).2 <= length l)%nat.
Proof. revert x s o. induction l as [|c l IH]; cbn; intros x s o; [done|]. repeat case_match; cbn; try lia; match goal with |- context [leadingFraction ?x ?s ?o l] => pose proof (IH x s o); lia end. Qed.
Lemma take_unit_length l u r : take_unit l = (u, r) -> (length u + length r = length l)%nat.
Proof. revert u r. induction l as [|c l IH]; cbn; intros u r; [by intros [= <- <-]|]. destruct (number_char c); [by intros [= <- <-]|]. destruct (take_unit l) as [u' r'] eqn:E. intros [= <- <-]. specialize (IH _ _ eq_refl). cbn. lia. Qed.
Lemma with_unit_length x f scale l v r : with_unit x f scale l = Some (v, r) -> (length r < length l)%nat.
Proof.
  unfold with_unit. destruct (take_unit l) as [u rest] eqn:U. apply take_unit_length in U. case_bool_decide as B; [done|].
  destruct (unitMap (str u)); [|done]. cbn. destruct u; [done|]. cbn in U. repeat case_match; intros E; inversion E; subst; lia.
Qed.
Lemma one_term_length l v r : one_term l = Some (v, r) -> (length r < length l)%nat.
Proof.
  unfold one_term. destruct (negb _) in |- *; [done|]. destruct (leadingInt 0 l) as [[x l1]|] eqn:L; [|done]. apply leadingInt_length in L. cbn.
  case_bool_decide as D; cbn.
  - pose proof (leadingFraction_length 0 1 false (tail l1)) as F. destruct (leadingFraction 0 1 false (tail l1)) as [[f scale] l2]. cbn in F.
    case_match; [done|]. intros Hr%with_unit_length. destruct l1; cbn in *; lia.
  - case_match; [done|]. intros Hr%with_unit_length. lia.
Qed.
Lemma terms_fuel n m d l : (length l <= n)%nat -> (length l <= m)%nat -> terms n d l = terms m d l.
Proof.
  revert m d l. induction n as [|n IH]; intros m d l Hn Hm; (destruct l as [|c l]; [by destruct m|]); cbn [length] in *; [lia|].
  destruct m as [|m]; [lia|]. cbn [terms]. destruct (one_term (c :: l)) as [[v r]|] eqn:E; [|done]. cbn. case_match; [done|]. apply one_term_length in E. cbn in E. apply IH; lia.
Qed.

(** ** What is read fits in 64 bits *)
Lemma dec_val_nonneg c : is_digit c = true -> 0 <= dec_val c.
Proof. destruct c as [[][][][][][][][]]; vm_compute; done. Qed.
Lemma leadingInt_nonneg x l y r : 0 <= x -> leadingInt x l = Some (y, r) -> 0 <= y.
Proof.
  revert x. induction l as [|c l IH]; cbn; intros x Hx; [by intros [= <- _]|]. destruct (is_digit c) eqn:D; cbn; [|by intros [= <- _]].
  repeat case_match; try done. apply IH. apply dec_val_nonneg in D. lia.
Qed.
Lemma leadingFraction_nonneg x s o l : 0 <= x -> 0 < s -> 0 <= (leadingFraction x s o l).1.1 /\ 0 < (leadingFraction x s o l).1.2.
Proof.
  revert x s o. induction l as [|c l IH]; cbn; intros x s o Hx Hs; [done|]. destruct (is_digit c) eqn:D; cbn; [|done]. apply dec_val_nonneg in D.
  repeat case_match; apply IH; lia.
Qed.
Lemma unitMap_pos u n : unitMap u = Some n -> 0 < n.
Proof. unfold unitMap. repeat case_bool_decide; intros [= <-]; done. Qed.
Lemma with_unit_nonneg x f scale l v r : 0 <= x -> 0 <= f -> 0 < scale -> with_unit x f scale l = Some (v, r) -> 0 <= v.
Proof.
  intros Hx Hf Hs. unfold with_unit. destruct (take_unit l) as [u rest]. case_bool_decide; [done|]. destruct (unitMap (str u)) as [n|] eqn:U; [|done]. apply unitMap_pos in U. cbn.
  pose proof (Z.div_pos (f * n) scale). repeat case_match; intros E; inversion E; subst; nia.
Qed.
Lemma one_term_nonneg l v r : one_term l = Some (v, r) -> 0 <= v.
Proof.
  unfold one_term. destruct (negb _) in |- *; [done|]. destruct (leadingInt 0 l) as [[x l1]|] eqn:L; [|done]. apply leadingInt_nonneg in L; [|done]. cbn.
  case_bool_decide as D; cbn.
  - pose proof (leadingFraction_nonneg 0 1 false (tail l1)) as F. destruct (leadingFraction 0 1 false (tail l1)) as [[f scale] l2]. cbn in F.
    case_match; [done|]. apply with_unit_nonneg; [done|apply F; lia..].
  - case_match; [done|]. by apply with_unit_nonneg.
Qed.
Lemma terms_range n d l x : 0 <= d <= max63 -> terms n d l = Some x -> 0 <= x <= max63.
Proof.
  revert d l. induction n as [|n IH]; intros d l Hd; (destruct l as [|c l]; [cbn; by intros [= <-]|]); [done|]. cbn [terms].
  destruct (one_term _) as [[v r]|] eqn:E; [|done]. cbn. apply one_term_nonneg in E. case_match eqn:B; [done|]. apply Z.ltb_ge in B. apply IH. lia.
Qed.
Lemma ParseDuration_range s d : ParseDuration s = Some d -> - 2 ^ 63 <= d < 2 ^ 63.
Proof.
  unfold ParseDuration. destruct (match bytes s with "-"%char :: l => (true, l) | "+"%char :: l => (false, l) | l => (false, l) end) as [neg l].
  case_bool_decide; [by intros [= <-]|]. case_bool_decide; [done|]. destruct (terms _ _ _) as [x|] eqn:E; [|done]. apply terms_range in E; [|done]. cbn. unfold max63 in *.
  destruct neg; [intros [= <-]; lia|]. case_match eqn:B; [done|]. apply Z.ltb_ge in B. intros [= <-]. lia.
Qed.
