(* ===== verification/Config.v ===== *)
(** * The process configuration: [config/config.go]

    The file, the environment that overlays five of its keys, the defaults, the four
    backup variables and the checks, as [Load] runs them.  What the YAML library reads
    off a document is a parameter, once into [Config] and once into the probe that
    tells an empty [private_domain] from an absent one; a file that cannot be read and
    the process environment are arguments. *)
From S2P Require Import Prelude GoStr GoDuration Model Role Upstream.

(** ** What the file says *)
Record DNSConfig := mkDNSC {
  dc_Listen : string; dc_PrivateDomain : string; dc_ReverseZones : list string; dc_Upstreams : list string; dc_AllowQuery : list string; dc_AllowTailscale : bool;
  dc_TTL : Z; dc_CacheMinTTL : Z; dc_CacheMaxTTL : Z; dc_NegativeMaxTTL : Z; dc_CacheEntries : Z; dc_LogQueries : bool; dc_LogClientIP : bool }.
Record AdminConfig := mkAdminC { adc_Listen : string }.
Record DiscoveryConfig := mkDiscC { dcc_DHCPLeaseFile : string; dcc_Interval : Z }.
Record HealthConfig := mkHealthC { hc_Interval : Z; hc_Timeout : Z; hc_Workers : Z }.
Record Config := mkConfig {
  cf_DNS : DNSConfig; cf_Admin : AdminConfig; cf_Discovery : DiscoveryConfig; cf_Health : HealthConfig; cf_DataDir : string;
  cf_BackupDepositInterval : Z; cf_BackupDir : string; cf_BackupKeep : Z; cf_BackupAllowPrivateRecovery : bool;
  cf_Replication : ReplicationConfig; cf_explicitEmptyDomain : bool; cf_envApplied : list string }.

Inductive config_error := CfRead | CfParse | CfDepositInterval | CfBackupDir | CfBackupKeep | CfAllowPrivate
  | CfDataDir | CfListen (key : string) | CfBothRoles (listen primary : string) | CfPrimary.

(** ** Updates of the fields that are written after the file is read *)
Definition with_listen (v : string) (d : DNSConfig) : DNSConfig :=
  mkDNSC v (dc_PrivateDomain d) (dc_ReverseZones d) (dc_Upstreams d) (dc_AllowQuery d) (dc_AllowTailscale d) (dc_TTL d) (dc_CacheMinTTL d) (dc_CacheMaxTTL d) (dc_NegativeMaxTTL d)
    (dc_CacheEntries d) (dc_LogQueries d) (dc_LogClientIP d).
Definition with_owned (dir dns admin : string) (r : ReplicationConfig) (c : Config) : Config :=
  mkConfig (with_listen dns (cf_DNS c)) (mkAdminC admin) (cf_Discovery c) (cf_Health c) dir (cf_BackupDepositInterval c) (cf_BackupDir c) (cf_BackupKeep c)
    (cf_BackupAllowPrivateRecovery c) r (cf_explicitEmptyDomain c) (cf_envApplied c).
Definition with_marks (empty : bool) (env : list string) (c : Config) : Config :=
  mkConfig (cf_DNS c) (cf_Admin c) (cf_Discovery c) (cf_Health c) (cf_DataDir c) (cf_BackupDepositInterval c) (cf_BackupDir c) (cf_BackupKeep c)
    (cf_BackupAllowPrivateRecovery c) (cf_Replication c) empty env.
Definition with_backup (interval : Z) (dir : string) (keep : Z) (allow : bool) (c : Config) : Config :=
  mkConfig (cf_DNS c) (cf_Admin c) (cf_Discovery c) (cf_Health c) (cf_DataDir c) interval dir keep allow (cf_Replication c) (cf_explicitEmptyDomain c) (cf_envApplied c).

Section Env.
(** The variables of the process. *)
Context (LookupEnv : string -> option string).
Definition Getenv (k : string) : string := default "" (LookupEnv k).

(** ** overlayEnv *)
Definition env_table : list (string * (string -> Config -> Config)) :=
  [("KYDNS_DATA_DIR", fun v c => with_owned v (dc_Listen (cf_DNS c)) (adc_Listen (cf_Admin c)) (cf_Replication c) c);
   ("KYDNS_DNS_LISTEN", fun v c => with_owned (cf_DataDir c) v (adc_Listen (cf_Admin c)) (cf_Replication c) c);
   ("KYDNS_ADMIN_LISTEN", fun v c => with_owned (cf_DataDir c) (dc_Listen (cf_DNS c)) v (cf_Replication c) c);
   ("KYDNS_REPLICATION_LISTEN", fun v c => with_owned (cf_DataDir c) (dc_Listen (cf_DNS c)) (adc_Listen (cf_Admin c)) (mkRC v (rc_Primary (cf_Replication c))) c);
   ("KYDNS_REPLICATION_PRIMARY", fun v c => with_owned (cf_DataDir c) (dc_Listen (cf_DNS c)) (adc_Listen (cf_Admin c)) (mkRC (rc_Listen (cf_Replication c)) v) c)].
Definition overlay_one (c : Config) (o : string * (string -> Config -> Config)) : Config :=
  let v := TrimSpace (Getenv o.1) in
  if bool_decide (v = "") then c
  else let c := o.2 v c in with_marks (cf_explicitEmptyDomain c) (cf_envApplied c ++ [o.1]) c.
Definition overlayEnv (c : Config) : Config := foldl overlay_one c env_table.
Definition EnvOverrides (c : Config) : list string := cf_envApplied c.
Definition source (env : string) (c : Config) : string := if bool_decide (env ∈ cf_envApplied c) then env else "the config file".

(** ** applyDefaults *)
Definition set (p v : string) : string := if bool_decide (p = "") then v else p.
Definition setInt (p v : Z) : Z := if p =? 0 then v else p.
Definition set_list (p v : list string) : list string := if bool_decide (p = []) then v else p.
Definition defaultAllowQuery : list string :=
  ["127.0.0.0/8"; "::1/128"; "10.0.0.0/8"; "172.16.0.0/12"; "192.168.0.0/16"; "169.254.0.0/16"; "fe80::/10"; "fc00::/7"].
Definition applyDefaults (c : Config) : Config :=
  let d := cf_DNS c in
  mkConfig
    (mkDNSC (set (dc_Listen d) ":53")
      (if bool_decide (dc_PrivateDomain d = "") && negb (cf_explicitEmptyDomain c) then "home.arpa" else dc_PrivateDomain d)
      (dc_ReverseZones d) (set_list (dc_Upstreams d) ["tls://1.1.1.1:853"; "tls://9.9.9.9:853"]) (set_list (dc_AllowQuery d) defaultAllowQuery) (dc_AllowTailscale d)
      (setInt (dc_TTL d) 60) (setInt (dc_CacheMinTTL d) 5) (setInt (dc_CacheMaxTTL d) 3600) (setInt (dc_NegativeMaxTTL d) 300) (setInt (dc_CacheEntries d) 10000)
      (dc_LogQueries d) (dc_LogClientIP d))
    (mkAdminC (set (adc_Listen (cf_Admin c)) "127.0.0.1:8053"))
    (mkDiscC (dcc_DHCPLeaseFile (cf_Discovery c)) (setInt (dcc_Interval (cf_Discovery c)) 30))
    (mkHealthC (setInt (hc_Interval (cf_Health c)) 30) (setInt (hc_Timeout (cf_Health c)) 5) (setInt (hc_Workers (cf_Health c)) 8))
    (cf_DataDir c) (cf_BackupDepositInterval c) (cf_BackupDir c) (cf_BackupKeep c) (cf_BackupAllowPrivateRecovery c) (cf_Replication c) (cf_explicitEmptyDomain c) (cf_envApplied c).

(** ** applyBackupEnv *)
Definition MinBackupDepositInterval : Z := seconds (15 * 60).
(** [strconv.ParseBool]. *)
Definition ParseBool (s : string) : option bool :=
  if bool_decide (s ∈ ["1"; "t"; "T"; "true"; "TRUE"; "True"]) then Some true
  else if bool_decide (s ∈ ["0"; "f"; "F"; "false"; "FALSE"; "False"]) then Some false else None.
(** [filepath.IsAbs] on Unix. *)
Definition IsAbs (p : string) : bool := HasPrefix p "/".
Definition deposit_interval : result config_error Z :=
  match LookupEnv "KYDNS_BACKUP_DEPOSIT_INTERVAL" with
  | None => Ok (seconds (24 * 3600))
  | Some raw =>
      if bool_decide (TrimSpace raw = "") then Ok (seconds (24 * 3600))
      else match ParseDuration (TrimSpace raw) with
      | None => Err CfDepositInterval
      | Some d => if (d <? 0) || ((0 <? d) && (d <? MinBackupDepositInterval)) then Err CfDepositInterval else Ok d
      end
  end.
Definition backup_dir : result config_error string :=
  let v := TrimSpace (Getenv "KYDNS_BACKUP_DIR") in
  if bool_decide (v = "") then Ok "" else if IsAbs v then Ok v else Err CfBackupDir.
Definition backup_keep : result config_error Z :=
  let v := TrimSpace (Getenv "KYDNS_BACKUP_KEEP") in
  if bool_decide (v = "") then Ok 7
  else match Atoi v with Some n => if n <? 1 then Err CfBackupKeep else Ok n | None => Err CfBackupKeep end.
Definition backup_allow : result config_error bool :=
  let v := TrimSpace (Getenv "KYDNS_BACKUP_ALLOW_PRIVATE_RECOVERY") in
  if bool_decide (v = "") then Ok false else match ParseBool v with Some b => Ok b | None => Err CfAllowPrivate end.
Definition applyBackupEnv (c : Config) : result config_error Config :=
  interval <-? deposit_interval ;; dir <-? backup_dir ;; keep <-? backup_keep ;; allow <-? backup_allow ;;
  Ok (with_backup interval dir keep allow c).

(** ** validate *)
Definition dialAddress (raw : string) : bool :=
  match SplitHostPort raw with
  | None => false
  | Some (host, port) =>
      negb (bool_decide (host = "")) && match Atoi port with Some n => negb ((n <? 1) || (65535 <? n)) | None => false end
  end.
Definition splits (addr : string) : bool := bool_decide (is_Some (SplitHostPort addr)).
Definition validate (c : Config) : result config_error unit :=
  let r := cf_Replication c in
  if bool_decide (cf_DataDir c = "") then Err CfDataDir
  else if negb (splits (dc_Listen (cf_DNS c))) then Err (CfListen "dns.listen")
  else if negb (splits (adc_Listen (cf_Admin c))) then Err (CfListen "admin.listen")
  else if negb (bool_decide (rc_Listen r = "")) && negb (bool_decide (rc_Primary r = "")) then
    Err (CfBothRoles (source "KYDNS_REPLICATION_LISTEN" c) (source "KYDNS_REPLICATION_PRIMARY" c))
  else if negb (bool_decide (rc_Listen r = "")) && negb (splits (rc_Listen r)) then Err (CfListen "replication.listen")
  else if negb (bool_decide (rc_Primary r = "")) && negb (dialAddress (rc_Primary r)) then Err CfPrimary
  else Ok tt.

(** ** Load *)
(** What the YAML library reads: the struct, and [dns.private_domain] if the key is there.
    Fields the file cannot set are zero. *)
Context (Unmarshal : string -> option Config) (probe : string -> option string).
Definition Load (file : option string) : result config_error Config :=
  match file with
  | None => Err CfRead
  | Some raw =>
      match Unmarshal raw with
      | None => Err CfParse
      | Some c =>
          let c := with_marks (bool_decide (probe raw = Some "")) [] c in
          c <-? applyBackupEnv (applyDefaults (overlayEnv c)) ;;
          _ <-? validate c ;;
          Ok c
      end
  end.
End Env.

Definition SeedSettings (c : Config) : Settings :=
  let d := cf_DNS c in
  mkSettings (dc_PrivateDomain d) (dc_ReverseZones d) (dc_Upstreams d) (dc_AllowQuery d) (dc_AllowTailscale d) (dc_TTL d) (dc_CacheMinTTL d) (dc_CacheMaxTTL d) (dc_NegativeMaxTTL d)
    (dc_CacheEntries d) (dc_LogQueries d) (dc_LogClientIP d) (dcc_DHCPLeaseFile (cf_Discovery c)) (dcc_Interval (cf_Discovery c))
    (hc_Interval (cf_Health c)) (hc_Timeout (cf_Health c)) (hc_Workers (cf_Health c)) false "" "" "" "" 0 "" false.

(** ** The closed form of the overlay *)
Section Props.
Context (LookupEnv : string -> option string).
(** The value of a key the environment may replace. *)
Definition effective (name file : string) : string := set (TrimSpace (Getenv LookupEnv name)) file.
Definition env_set (name : string) : bool := negb (bool_decide (TrimSpace (Getenv LookupEnv name) = "")).
(** A configuration by its owned keys and the variables that replaced one. *)
Definition owned (c : Config) (dir dns admin l p : string) (env : list string) : Config :=
  with_marks (cf_explicitEmptyDomain c) env (with_owned dir dns admin (mkRC l p) c).
Definition overlaid (name : string) : list string := if env_set name then [name] else [].
Ltac overlay_tac := intros; unfold overlay_one, owned, overlaid, env_set, effective, set; cbn [fst snd];
  destruct (bool_decide (TrimSpace _ = "")); cbn [negb]; [rewrite app_nil_r|]; reflexivity.
Lemma overlay_dir c dir dns admin l p env : overlay_one LookupEnv (owned c dir dns admin l p env) (nth 0 env_table ("", fun _ c => c)) =
  owned c (effective "KYDNS_DATA_DIR" dir) dns admin l p (env ++ overlaid "KYDNS_DATA_DIR").
Proof. overlay_tac. Qed.
Lemma overlay_dns c dir dns admin l p env : overlay_one LookupEnv (owned c dir dns admin l p env) (nth 1 env_table ("", fun _ c => c)) =
  owned c dir (effective "KYDNS_DNS_LISTEN" dns) admin l p (env ++ overlaid "KYDNS_DNS_LISTEN").
Proof. overlay_tac. Qed.
Lemma overlay_admin c dir dns admin l p env : overlay_one LookupEnv (owned c dir dns admin l p env) (nth 2 env_table ("", fun _ c => c)) =
  owned c dir dns (effective "KYDNS_ADMIN_LISTEN" admin) l p (env ++ overlaid "KYDNS_ADMIN_LISTEN").
Proof. overlay_tac. Qed.
Lemma overlay_serve c dir dns admin l p env : overlay_one LookupEnv (owned c dir dns admin l p env) (nth 3 env_table ("", fun _ c => c)) =
  owned c dir dns admin (effective "KYDNS_REPLICATION_LISTEN" l) p (env ++ overlaid "KYDNS_REPLICATION_LISTEN").
Proof. overlay_tac. Qed.
Lemma overlay_primary c dir dns admin l p env : overlay_one LookupEnv (owned c dir dns admin l p env) (nth 4 env_table ("", fun _ c => c)) =
  owned c dir dns admin l (effective "KYDNS_REPLICATION_PRIMARY" p) (env ++ overlaid "KYDNS_REPLICATION_PRIMARY").
Proof. overlay_tac. Qed.
Lemma overlay_closed c : cf_envApplied c = [] -> overlayEnv LookupEnv c =
  owned c (effective "KYDNS_DATA_DIR" (cf_DataDir c)) (effective "KYDNS_DNS_LISTEN" (dc_Listen (cf_DNS c))) (effective "KYDNS_ADMIN_LISTEN" (adc_Listen (cf_Admin c)))
    (effective "KYDNS_REPLICATION_LISTEN" (rc_Listen (cf_Replication c))) (effective "KYDNS_REPLICATION_PRIMARY" (rc_Primary (cf_Replication c))) (List.filter env_set env_table.*1).
Proof.
  intros E. set (dir := cf_DataDir c). set (dns := dc_Listen (cf_DNS c)). set (admin := adc_Listen (cf_Admin c)). set (l := rc_Listen (cf_Replication c)). set (p := rc_Primary (cf_Replication c)).
  assert (C : c = owned c dir dns admin l p []) by (subst dir dns admin l p; destruct c as [[] [] ? ? ? ? ? ? ? [] ? env]; cbn in E; by subst env).
  rewrite C at 1. change overlayEnv with (fun e c => foldl (overlay_one e) c ((fun i => nth i env_table ("", fun _ c => c)) <$> [0; 1; 2; 3; 4]%nat)). cbv beta.
  cbn [foldl fmap list_fmap]. rewrite overlay_dir, overlay_dns, overlay_admin, overlay_serve, overlay_primary. f_equal. unfold overlaid. cbn [fmap list_fmap List.filter env_table fst].
  by destruct (env_set "KYDNS_DATA_DIR"), (env_set "KYDNS_DNS_LISTEN"), (env_set "KYDNS_ADMIN_LISTEN"), (env_set "KYDNS_REPLICATION_LISTEN"), (env_set "KYDNS_REPLICATION_PRIMARY").
Qed.
Context (Unmarshal : string -> option Config) (probe : string -> option string).
Abbreviation Load := (Load LookupEnv Unmarshal probe).
Lemma Load_inv raw c : Load (Some raw) = Ok c -> exists f interval dir keep allow, Unmarshal raw = Some f /\
  deposit_interval LookupEnv = Ok interval /\ backup_dir LookupEnv = Ok dir /\ backup_keep LookupEnv = Ok keep /\ backup_allow LookupEnv = Ok allow /\
  c = with_backup interval dir keep allow (applyDefaults (overlayEnv LookupEnv (with_marks (bool_decide (probe raw = Some "")) [] f))) /\ validate c = Ok tt.
Proof.
  unfold Config.Load. destruct (Unmarshal raw) as [f|] eqn:U; [|done]. cbv zeta. unfold applyBackupEnv.
  destruct (deposit_interval LookupEnv) as [interval|]; [cbn [rbind]|done]. destruct (backup_dir LookupEnv) as [dir|]; [cbn [rbind]|done].
  destruct (backup_keep LookupEnv) as [keep|]; [cbn [rbind]|done]. destruct (backup_allow LookupEnv) as [allow|]; [cbn [rbind]|done].
  destruct (validate _) as [[]|] eqn:V; [|done]. cbn. intros [= <-]. by exists f, interval, dir, keep, allow.
Qed.

(** each of the five keys the file owns is the environment's if the variable is
    not blank, else the file's, else the default; the variables that replaced one are
    recorded in the order of the table; and what seeds the settings of a fresh database
    is the file's with the defaults filled in, whatever the environment holds. *)
Theorem effective_configuration raw f c : Unmarshal raw = Some f -> Load (Some raw) = Ok c ->
  cf_DataDir c = effective "KYDNS_DATA_DIR" (cf_DataDir f) /\
  dc_Listen (cf_DNS c) = set (effective "KYDNS_DNS_LISTEN" (dc_Listen (cf_DNS f))) ":53" /\
  adc_Listen (cf_Admin c) = set (effective "KYDNS_ADMIN_LISTEN" (adc_Listen (cf_Admin f))) "127.0.0.1:8053" /\
  rc_Listen (cf_Replication c) = effective "KYDNS_REPLICATION_LISTEN" (rc_Listen (cf_Replication f)) /\
  rc_Primary (cf_Replication c) = effective "KYDNS_REPLICATION_PRIMARY" (rc_Primary (cf_Replication f)) /\
  EnvOverrides c = List.filter env_set env_table.*1 /\
  SeedSettings c = SeedSettings (applyDefaults (with_marks (bool_decide (probe raw = Some "")) [] f)).
Proof.
  intros U (f' & interval & dir & keep & allow & U' & _ & _ & _ & _ & -> & _)%Load_inv. rewrite U in U'. injection U' as <-. rewrite overlay_closed by done.
  destruct f as [[] [] [] [] ? ? ? ? ? [] ? env]. cbn. split_and!; reflexivity.
Qed.

Lemma deposit_interval_range d : deposit_interval LookupEnv = Ok d -> d = 0 \/ MinBackupDepositInterval <= d < 2 ^ 63.
Proof.
  unfold deposit_interval. destruct (LookupEnv _) as [raw|]; [|intros [= <-]; right; vm_compute; split; congruence].
  case_bool_decide; [intros [= <-]; right; vm_compute; split; congruence|]. destruct (ParseDuration _) as [x|] eqn:P; [|done]. apply ParseDuration_range in P.
  destruct (_ || _) eqn:B; [done|]. intros [= <-]. apply orb_false_iff in B as [B C]. apply Z.ltb_ge in B. apply andb_false_iff in C as [C|C]; apply Z.ltb_ge in C; lia.
Qed.
Lemma ParseInt_upper s n : Atoi s = Some n -> - 2 ^ 63 <= n < 2 ^ 63.
Proof. unfold Atoi, ParseInt. repeat case_match; intros E; inversion E; subst; match goal with H : _ && _ = true |- _ => apply andb_prop in H as [?%Z.leb_le ?%Z.ltb_lt] end; lia. Qed.
(** C31: a configuration that loads can be run: it has a data directory, both listen
    addresses split into host and port, at most one of the two replication addresses is
    there, the primary's is a host with a port from 1 to 65535, deposits are off or at
    least fifteen minutes apart, at least one copy is kept, and a backup directory is
    absolute. *)
Theorem loaded_config_usable file c : Load file = Ok c ->
  cf_DataDir c <> "" /\ is_Some (SplitHostPort (dc_Listen (cf_DNS c))) /\ is_Some (SplitHostPort (adc_Listen (cf_Admin c))) /\
  (rc_Listen (cf_Replication c) = "" \/ rc_Primary (cf_Replication c) = "" /\ is_Some (SplitHostPort (rc_Listen (cf_Replication c)))) /\
  (rc_Primary (cf_Replication c) <> "" -> exists host port n, SplitHostPort (rc_Primary (cf_Replication c)) = Some (host, port) /\ host <> "" /\ Atoi port = Some n /\ 1 <= n <= 65535) /\
  (cf_BackupDepositInterval c = 0 \/ MinBackupDepositInterval <= cf_BackupDepositInterval c < 2 ^ 63) /\
  1 <= cf_BackupKeep c < 2 ^ 63 /\ (cf_BackupDir c = "" \/ IsAbs (cf_BackupDir c) = true).
Proof.
  destruct file as [raw|]; [|done]. intros (f & interval & dir & keep & allow & _ & Hi & Hd & Hk & _ & E & V)%Load_inv.
  assert (I : cf_BackupDepositInterval c = interval /\ cf_BackupDir c = dir /\ cf_BackupKeep c = keep) by (by subst c). clear E. destruct I as (-> & -> & ->).
  apply deposit_interval_range in Hi. unfold validate, splits in V.
  case_bool_decide as D; [done|]. case_bool_decide as L1; cbn [negb] in V; [|done]. case_bool_decide as L2; cbn [negb] in V; [|done].
  split; [exact D|]. split; [exact L1|]. split; [exact L2|]. split; [|split; [|split; [exact Hi|split]]].
  - case_bool_decide as E1; [by left|]. right. cbn [negb andb] in V. case_bool_decide as E2; cbn [negb andb] in V; [|done]. split; [done|]. by case_bool_decide as S; cbn in V.
  - intros N. rewrite (bool_decide_false _ N) in V. cbn [negb andb] in V. rewrite andb_true_r in V.
    case_bool_decide as E1; cbn [negb andb] in V; [|done]. destruct (dialAddress _) eqn:A; [|done]. unfold dialAddress in A. destruct (SplitHostPort _) as [[host port]|]; [|done].
    apply andb_prop in A as [A B]. apply negb_true_iff, bool_decide_eq_false in A. destruct (Atoi port) as [n|] eqn:P; [|done]. apply negb_true_iff, orb_false_iff in B as [B1%Z.ltb_ge B2%Z.ltb_ge].
    exists host, port, n. done.
  - clear V. unfold backup_keep in Hk. case_bool_decide; [injection Hk as <-; lia|]. destruct (Atoi _) as [n|] eqn:P; [|done]. apply ParseInt_upper in P. case_match eqn:B; [done|].
    injection Hk as <-. apply Z.ltb_ge in B. lia.
  - clear V. unfold backup_dir in Hd. case_bool_decide; [injection Hd as <-; by left|]. destruct (IsAbs _) eqn:A; [|done]. injection Hd as <-. by right.
Qed.
End Props.

(** ** A blank variable is one that is not set *)
Definition env_equiv (e1 e2 : string -> option string) : Prop := forall k, TrimSpace (Getenv e1 k) = TrimSpace (Getenv e2 k).
#[export] Instance env_equiv_equivalence : Equivalence env_equiv.
Proof. split; [done| |]; intros e1 e2; [intros H k; by rewrite (H k)|intros e3 H1 H2 k; by rewrite (H1 k), (H2 k)]. Qed.
#[export] Instance overlay_one_proper : Proper (env_equiv ==> (=) ==> (=) ==> (=)) overlay_one.
Proof. intros e1 e2 H c _ <- o _ <-. unfold overlay_one. by rewrite (H o.1). Qed.
#[export] Instance overlayEnv_proper : Proper (env_equiv ==> (=) ==> (=)) overlayEnv.
Proof.
  intros e1 e2 H c _ <-. unfold overlayEnv. generalize env_table as t. intros t. revert c. induction t as [|o t IH]; intros c; [done|]. cbn [foldl].
  by rewrite IH, (overlay_one_proper e1 e2 H c c eq_refl o o eq_refl).
Qed.
Lemma deposit_interval_getenv e : deposit_interval e =
  let v := TrimSpace (Getenv e "KYDNS_BACKUP_DEPOSIT_INTERVAL") in
  if bool_decide (v = "") then Ok (seconds (24 * 3600))
  else match ParseDuration v with
  | None => Err CfDepositInterval
  | Some d => if (d <? 0) || ((0 <? d) && (d <? MinBackupDepositInterval)) then Err CfDepositInterval else Ok d
  end.
Proof. unfold deposit_interval, Getenv. by destruct (e "KYDNS_BACKUP_DEPOSIT_INTERVAL"). Qed.
#[export] Instance applyBackupEnv_proper : Proper (env_equiv ==> (=) ==> (=)) applyBackupEnv.
Proof. intros e1 e2 H c _ <-. unfold applyBackupEnv, backup_dir, backup_keep, backup_allow. rewrite !deposit_interval_getenv. cbv zeta. by rewrite !H. Qed.
(** environments that agree up to space around the values, a blank variable and an
    absent one counting as the same, load the same configuration or fail alike. *)
Theorem blank_variable_is_unset Unmarshal probe file e1 e2 : env_equiv e1 e2 -> Load e1 Unmarshal probe file = Load e2 Unmarshal probe file.
Proof. intros H. unfold Load. destruct file as [raw|]; [|done]. destruct (Unmarshal raw); [|done]. by rewrite H. Qed.

(** ** A concrete start *)
Definition ex_file_config (dir primary : string) : Config :=
  mkConfig (mkDNSC "" "" [] [] [] false 0 0 0 0 0 false false) (mkAdminC "0.0.0.0:8053") (mkDiscC "" 0) (mkHealthC 0 0 0) dir 0 "" 0 false (mkRC "" primary) false [].
(** The reading of three documents: a data directory, one with a primary, one with an
    empty domain. *)
Definition ex_Unmarshal (raw : string) : option Config :=
  if bool_decide (raw = "replica") then Some (ex_file_config "/data" "10.0.0.2:8443") else if bool_decide (raw = "") then None else Some (ex_file_config "/data" "").
Definition ex_probe (raw : string) : option string := if bool_decide (raw = "empty-domain") then Some "" else None.
Definition ex_vars (l : list (string * string)) (k : string) : option string := snd <$> List.find (fun kv => bool_decide (kv.1 = k)) l.
Definition ex_vars1 : string -> option string := ex_vars [("KYDNS_DNS_LISTEN", " :5353 "); ("KYDNS_ADMIN_LISTEN", "  "); ("KYDNS_BACKUP_DEPOSIT_INTERVAL", "15m")].
Definition ex_vars2 : string -> option string := ex_vars [("KYDNS_DNS_LISTEN", ":5353"); ("KYDNS_BACKUP_DEPOSIT_INTERVAL", "15m ")].
Abbreviation ex_Load e := (Load e ex_Unmarshal ex_probe (Some "replica")).
Example ex_both_roles : Load (ex_vars [("KYDNS_REPLICATION_LISTEN", ":8443")]) ex_Unmarshal ex_probe (Some "replica") = Err (CfBothRoles "KYDNS_REPLICATION_LISTEN" "the config file").
Proof. vm_compute. reflexivity. Qed.
Lemma effective_configuration_witness : exists c, ex_Load ex_vars1 = Ok c /\ dc_Listen (cf_DNS c) = ":5353" /\ adc_Listen (cf_Admin c) = "0.0.0.0:8053" /\
  EnvOverrides c = ["KYDNS_DNS_LISTEN"] /\ PrivateDomain (SeedSettings c) = "home.arpa".
Proof.
  destruct (ex_Load ex_vars1) as [c|] eqn:E; [|exfalso; vm_compute in E; discriminate E]. exists c. split; [reflexivity|].
  destruct (effective_configuration ex_vars1 ex_Unmarshal ex_probe "replica" (ex_file_config "/data" "10.0.0.2:8443") c) as (_ & Hd & Ha & _ & _ & He & Hs); [vm_compute; reflexivity|exact E|].
  rewrite Hd, Ha, He, Hs. split_and!; vm_compute; reflexivity.
Defined.
Lemma loaded_config_usable_witness : exists c host port n, ex_Load ex_vars1 = Ok c /\ cf_BackupDepositInterval c = MinBackupDepositInterval /\
  SplitHostPort (rc_Primary (cf_Replication c)) = Some (host, port) /\ Atoi port = Some n /\ 1 <= n <= 65535.
Proof.
  destruct (ex_Load ex_vars1) as [c|] eqn:E; [|exfalso; vm_compute in E; discriminate E].
  destruct (loaded_config_usable ex_vars1 ex_Unmarshal ex_probe (Some "replica") c E) as (_ & _ & _ & _ & Hp & _).
  assert (Ec : Ok c = ex_Load ex_vars1) by (symmetry; exact E). vm_compute in Ec. injection Ec as Ec.
  destruct Hp as (host & port & n & Hs & _ & Ha & Hn); [subst c; discriminate|]. exists c, host, port, n. split; [reflexivity|]. split; [subst c; reflexivity|]. repeat split; assumption || apply Hn.
Defined.
Lemma blank_variable_is_unset_witness : ex_Load ex_vars1 = ex_Load ex_vars2.
Proof.
  apply blank_variable_is_unset. intros k. unfold ex_vars1, ex_vars2, ex_vars, Getenv. cbn [List.find fst].
  repeat (destruct (decide (_ = k)) as [<-|] || case_bool_decide); reflexivity || (subst; discriminate).
Defined.
