(* ===== verification/Identity.v ===== *)
(** * A node's key and the transport pinned to one: [replica/identity.go], [transport.go]

    The key file, the fingerprint that names a node, the rule a TLS handshake of the
    replication transport enforces in place of a certificate authority, and the client a
    replica pulls with.  Deriving an Ed25519 key from a seed, SHA-256, reading an X.509
    certificate, parsing a URL and decoding JSON are parameters; what the peers of the
    requests present and answer are arguments. *)
From S2P Require Import Prelude GoStr.

(** ** The data directory *)
(** The files by name, those that cannot be read although they are there, and those that
    cannot be written. *)
Record Disk := mkDisk { dk_files : gmap string string; dk_unreadable : string -> bool; dk_unwritable : string -> bool }.
Inductive disk_error := NotExist | ReadFailed | WriteFailed.
Definition ReadFile (name : string) (d : Disk) : result disk_error string :=
  if dk_unreadable d name then Err ReadFailed else match dk_files d !! name with Some s => Ok s | None => Err NotExist end.
Definition WriteFile (name content : string) (d : Disk) : Disk * result disk_error unit :=
  if dk_unwritable d name then (d, Err WriteFailed) else (mkDisk (<[name := content]> (dk_files d)) (dk_unreadable d) (dk_unwritable d), Ok tt).
(** A file that was not touched reads the same. *)
Definition same_file (name : string) (d d' : Disk) : Prop := dk_files d' !! name = dk_files d !! name /\ dk_unreadable d' = dk_unreadable d.
Lemma same_read name d d' : same_file name d d' -> ReadFile name d' = ReadFile name d.
Proof. unfold ReadFile. by intros [-> ->]. Qed.
#[export] Instance same_file_preorder name : PreOrder (same_file name).
Proof. split; [done|]. intros x y z [A B] [C D]. split; congruence. Qed.
Lemma write_keeps name name' content d : name <> name' -> same_file name' d (WriteFile name content d).1.
Proof. intros N. unfold WriteFile. destruct (dk_unwritable d name); [done|]. split; [cbn; by rewrite lookup_insert_ne|done]. Qed.
Lemma write_unreadable name content d : dk_unreadable (WriteFile name content d).1 = dk_unreadable d.
Proof. unfold WriteFile. by destruct (dk_unwritable d name). Qed.
Lemma written name content d d' : WriteFile name content d = (d', Ok tt) -> dk_files d' !! name = Some content.
Proof. unfold WriteFile. destruct (dk_unwritable d name); [done|]. intros [= <-]. apply lookup_insert_eq. Qed.

Section Identity.
Context (sha256 : string -> list Z) (NewKeyFromSeed public_key : string -> string).

(** ** identity.go *)
Definition node_key_file : string := "node_key".
Definition SeedSize : Z := 32.
Record Identity := mkIdentity { id_PrivateKey : string; id_PublicKey : string; id_NodeID : string }.
Definition Fingerprint (pub : string) : string := EncodeToString (sha256 pub).
Inductive identity_error := BadSeed (found : Z) | NoRandom | KeyNotWritten | KeyNotRead.
Definition identity_of (seed : string) : Identity :=
  let priv := NewKeyFromSeed seed in let pub := public_key priv in mkIdentity priv pub (Fingerprint pub).
(** [random] is what the random source yields, if it works. *)
Definition LoadOrCreateIdentity (random : option string) (d : Disk) : Disk * result identity_error Identity :=
  match ReadFile node_key_file d with
  | Ok seed => (d, if negb (len seed =? SeedSize) then Err (BadSeed (len seed)) else Ok (identity_of seed))
  | Err NotExist =>
      match random with
      | None => (d, Err NoRandom)
      | Some seed => match WriteFile node_key_file seed d with
                     | (d, Err _) => (d, Err KeyNotWritten)
                     | (d, Ok _) => (d, Ok (identity_of seed))
                     end
      end
  | Err _ => (d, Err KeyNotRead)
  end.

(** ** transport.go *)
Inductive PublicKey := Ed25519 (k : string) | OtherKey.
Context (ParseCertificate : string -> option PublicKey).
Inductive peer_error := NoCertificate | BadCertificate | NotEd25519 | NotAllowed (fp : string).
Definition leafFingerprint (rawCerts : list string) : result peer_error string :=
  match rawCerts with
  | [] => Err NoCertificate
  | raw :: _ => match ParseCertificate raw with
                | None => Err BadCertificate
                | Some (Ed25519 k) => Ok (Fingerprint k)
                | Some OtherKey => Err NotEd25519
                end
  end.
(** The callback that replaces the check against an authority. *)
Definition VerifyPeerCertificate (allowed : string -> bool) (rawCerts : list string) : result peer_error unit :=
  fp <-? leafFingerprint rawCerts ;; if allowed fp then Ok tt else Err (NotAllowed fp).

Definition maxReplyBytes : Z := 16 * 2 ^ 20.
Record Client := mkClient { cl_base : string; cl_want : string }.
Definition NewClient (address want : string) : Client := mkClient ("https://" +:+ address) want.
Inductive get_error := BadURL | Handshake (e : peer_error) | UnsupportedScheme | RequestFailed | BadLocation | TooManyRedirects | BadStatus (code : Z) | ReplyTooLarge | BadReply.
(** [net/http]'s client.  No [CheckRedirect] is set, so it follows redirects, ten
    requests at most; the pin is the TLS configuration's, so a request over plain http
    meets none.  [serve i u] is what the peer of the [i]th request presents and
    answers. *)
Record Url := mkUrl { url_Scheme : string; url_Rest : string }.
Record HttpReply := mkHttpReply { hr_StatusCode : Z; hr_Location : string; hr_Body : string }.
Context (url_Parse : string -> option Url) (resolve : Url -> string -> option Url).
Definition redirect_status : list Z := [301; 302; 303; 307; 308].
Definition redirects (r : HttpReply) : bool := bool_decide (hr_StatusCode r ∈ redirect_status) && negb (bool_decide (hr_Location r = "")).
Definition round_trip (want : string) (certs : list string) (reply : option HttpReply) (u : Url) : result get_error HttpReply :=
  let answered := match reply with Some r => Ok r | None => Err RequestFailed end in
  if bool_decide (url_Scheme u = "https") then
    match VerifyPeerCertificate (fun fp => bool_decide (fp = want)) certs with Err e => Err (Handshake e) | Ok _ => answered end
  else if bool_decide (url_Scheme u = "http") then answered
  else Err UnsupportedScheme.
Fixpoint http_Do (fuel i : nat) (want : string) (serve : nat -> Url -> list string * option HttpReply) (u : Url) : result get_error HttpReply :=
  match fuel with
  | O => Err TooManyRedirects
  | S fuel =>
      r <-? round_trip want (serve i u).1 (serve i u).2 u ;;
      if redirects r then match resolve u (hr_Location r) with None => Err BadLocation | Some u' => http_Do fuel (S i) want serve u' end
      else Ok r
  end.
Definition maxRequests : nat := 10.
Definition client_get {A} (decode : string -> option A) (c : Client) (path : string) (serve : nat -> Url -> list string * option HttpReply) : result get_error A :=
  match url_Parse (cl_base c +:+ path) with
  | None => Err BadURL
  | Some u =>
      r <-? http_Do maxRequests 0 (cl_want c) serve u ;;
      if negb (hr_StatusCode r =? 200) then Err (BadStatus (hr_StatusCode r))
      else let read := str (take (Z.to_nat (maxReplyBytes + 1)) (bytes (hr_Body r))) in
           if maxReplyBytes <? len read then Err ReplyTooLarge
           else match decode read with Some v => Ok v | None => Err BadReply end
  end.
Definition version_path (held : Z) : string := "/replica/version?version=" +:+ itoa held.
Definition snapshot_path : string := "/replica/snapshot".
Definition health_path : string := "/replica/health-status".

(** ** The key outlives the process *)
(** The data directory holds the key of [id]. *)
Definition key_stored (id : Identity) (d : Disk) : Prop := exists seed, ReadFile node_key_file d = Ok seed /\ len seed = SeedSize /\ id = identity_of seed.
Lemma stored_key_loads random id d : key_stored id d -> LoadOrCreateIdentity random d = (d, Ok id).
Proof. intros (seed & R & L & ->). unfold LoadOrCreateIdentity. rewrite R. by rewrite L. Qed.
Lemma loaded_key_stored random d d' id : LoadOrCreateIdentity random d = (d', Ok id) -> (forall r, random = Some r -> len r = SeedSize) -> dk_unreadable d node_key_file = false -> key_stored id d'.
Proof.
  unfold LoadOrCreateIdentity. intros E Hr Hd. destruct (ReadFile node_key_file d) as [seed|[]] eqn:R; try done.
  - destruct (Z.eqb_spec (len seed) SeedSize) as [L|]; cbn [negb] in E; [|done]. injection E as <- <-. by exists seed.
  - destruct random as [seed|]; [|done]. pose proof (write_unreadable node_key_file seed d) as U. destruct (WriteFile node_key_file seed d) as [d1 [[]|]] eqn:W; [|done].
    injection E as <- <-. apply written in W. cbn [fst] in U. exists seed. split; [unfold ReadFile; by rewrite U, Hd, W|]. split; [by apply Hr|done].
Qed.
Lemma load_keeps random name d : name <> node_key_file -> same_file name d (LoadOrCreateIdentity random d).1.
Proof.
  intros N. unfold LoadOrCreateIdentity. destruct (ReadFile _ _) as [|[]]; try done. destruct random as [seed|]; [|done].
  pose proof (write_keeps node_key_file name seed d (not_eq_sym N)) as H. by destruct (WriteFile _ _ _) as [d1 [u|]].
Qed.
(** a node keeps its identity.  A start that obtained one leaves the data directory
    such that every later start, whatever randomness it would draw, obtains the same and
    writes nothing; the node's name is the fingerprint of its key; and a key file that is
    there is never replaced, not even a malformed one. *)
Theorem identity_is_kept random random' d d' id : LoadOrCreateIdentity random d = (d', Ok id) -> (forall r, random = Some r -> len r = SeedSize) -> dk_unreadable d node_key_file = false ->
  LoadOrCreateIdentity random' d' = (d', Ok id) /\ id_NodeID id = Fingerprint (id_PublicKey id) /\
  (forall seed, dk_files d !! node_key_file = Some seed -> d' = d).
Proof.
  intros E Hr Hd. pose proof (loaded_key_stored _ _ _ _ E Hr Hd) as K. split; [by apply stored_key_loads|]. split; [by destruct K as (seed & _ & _ & ->)|].
  intros seed Hs. unfold LoadOrCreateIdentity, ReadFile in E. rewrite Hd, Hs in E. by injection E.
Qed.
Lemma malformed_key_refused random d seed : dk_files d !! node_key_file = Some seed -> dk_unreadable d node_key_file = false -> len seed <> SeedSize ->
  LoadOrCreateIdentity random d = (d, Err (BadSeed (len seed))).
Proof. intros Hs Hd Hl. unfold LoadOrCreateIdentity, ReadFile. rewrite Hd, Hs. destruct (Z.eqb_spec (len seed) SeedSize); [done|reflexivity]. Qed.

(** ** What a pinned client accepts *)
Lemma accepted_peer allowed certs : VerifyPeerCertificate allowed certs = Ok tt ->
  exists raw rest k, certs = raw :: rest /\ ParseCertificate raw = Some (Ed25519 k) /\ allowed (Fingerprint k) = true.
Proof.
  unfold VerifyPeerCertificate, leafFingerprint. destruct certs as [|raw rest]; [done|]. destruct (ParseCertificate raw) as [[k|]|] eqn:P; try done. cbn [rbind].
  destruct (allowed _) eqn:A; [|done]. intros _. by exists raw, rest, k.
Qed.
(** The peer of request [i] holds the key [pub] was pinned by. *)
Definition pinned_at (serve : nat -> Url -> list string * option HttpReply) (pub : string) (i : nat) (u : Url) : Prop :=
  url_Scheme u = "https" /\ exists raw rest k, (serve i u).1 = raw :: rest /\ ParseCertificate raw = Some (Ed25519 k) /\ Fingerprint k = Fingerprint pub /\ (Inj (=) (=) Fingerprint -> k = pub).
(** [trail i u n v r]: redirects lead from request [i] for [u] to request [n] for [v],
    which is answered with [r]. *)
Inductive trail (serve : nat -> Url -> list string * option HttpReply) : nat -> Url -> nat -> Url -> HttpReply -> Prop :=
  | trail_here i u r : (serve i u).2 = Some r -> trail serve i u i u r
  | trail_on i u r u' n v r' : (serve i u).2 = Some r -> redirects r = true -> resolve u (hr_Location r) = Some u' ->
      trail serve (S i) u' n v r' -> trail serve i u n v r'.
(** Somebody with the pinned key sent the client from a request before [n] to plain http. *)
Definition sent_to_plain_http (serve : nat -> Url -> list string * option HttpReply) (pub : string) (start : Url) (n : nat) : Prop :=
  exists j u r u', (j < n)%nat /\ trail serve 0 start j u r /\ pinned_at serve pub j u /\ redirects r = true /\ resolve u (hr_Location r) = Some u' /\ url_Scheme u' = "http".
Lemma round_trip_ok want certs reply u r : round_trip want certs reply u = Ok r -> reply = Some r /\
  (url_Scheme u = "https" /\ VerifyPeerCertificate (fun fp => bool_decide (fp = want)) certs = Ok tt \/ url_Scheme u = "http").
Proof.
  unfold round_trip. assert (A : match reply with Some r => Ok r | None => Err RequestFailed end = Ok r -> reply = Some r) by (destruct reply; [by intros [= ->]|done]).
  case_bool_decide as E; [|case_bool_decide as E'; [|done]; intros H; split; [by apply A|by right]].
  destruct (VerifyPeerCertificate _ _) as [[]|]; [|done]. intros H. split; [by apply A|by left].
Qed.
Lemma verified_pinned serve pub i u : url_Scheme u = "https" -> VerifyPeerCertificate (fun fp => bool_decide (fp = Fingerprint pub)) (serve i u).1 = Ok tt -> pinned_at serve pub i u.
Proof. intros E (raw & rest & k & Hc & P & F%bool_decide_eq_true)%accepted_peer. split; [done|]. exists raw, rest, k. repeat (split; [done|]). intros I. by apply I. Qed.
Lemma http_Do_trail serve pub start fuel : forall i u r, http_Do fuel i (Fingerprint pub) serve u = Ok r ->
  (forall n v r', trail serve i u n v r' -> trail serve 0 start n v r') ->
  (url_Scheme u = "https" \/ sent_to_plain_http serve pub start i) ->
  exists n v, (n < i + fuel)%nat /\ trail serve i u n v r /\ (pinned_at serve pub n v \/ url_Scheme v = "http" /\ sent_to_plain_http serve pub start n).
Proof.
  induction fuel as [|fuel IH]; intros i u r; [done|]. cbn [http_Do]. rewrite rbind_ok. intros (r1 & Hr & H) Ht Hs.
  apply round_trip_ok in Hr as [Ha Hp]. assert (Hp' : pinned_at serve pub i u \/ url_Scheme u = "http").
  { destruct Hp as [[E V]|E]; [left; by apply verified_pinned|by right]. }
  destruct (redirects r1) eqn:R; cycle 1.
  - injection H as ->. exists i, u. split; [lia|]. split; [by constructor|]. destruct Hp' as [P|E]; [by left|]. right. split; [done|]. destruct Hs as [E'|Hs]; [congruence|done].
  - destruct (resolve u (hr_Location r1)) as [u'|] eqn:L; [|done].
    assert (Hon : forall n v r', trail serve (S i) u' n v r' -> trail serve i u n v r') by (intros n v r' T; by eapply trail_on).
    assert (Hplus : forall n, (i <= n)%nat -> sent_to_plain_http serve pub start i -> sent_to_plain_http serve pub start n).
    { intros n Hn (j & uj & rj & uj' & Hj & T). exists j, uj, rj, uj'. split; [lia|done]. }
    assert (Hs' : url_Scheme u' = "https" \/ url_Scheme u' <> "https") by (destruct (decide (url_Scheme u' = "https")); auto).
    destruct (IH _ _ _ H) as (n & v & Hn & T & C).
    + intros n v r' T. by apply Ht, Hon.
    + destruct Hs' as [?|Hne]; [by left|]. right. destruct Hs as [E|Hs]; [|by apply Hplus; [lia|]].
      destruct Hp' as [P|E']; [|congruence]. exists i, u, r1, u'. split; [lia|]. split; [apply Ht; by constructor|]. split; [done|]. split; [done|]. split; [done|].
      destruct fuel as [|fuel]; [done|]. cbn [http_Do] in H. apply rbind_ok in H as (r2 & Hr2 & _). apply round_trip_ok in Hr2 as [_ [[? _]|?]]; [done|done].
    + exists n, v. split; [lia|]. split; [by apply Hon|done].
Qed.
End Identity.

(** ** Concrete nodes *)
Definition ex_digest (s : string) : list Z := code <$> bytes s.
Definition ex_seed32 : string := str (replicate 32 "k"%char).
Definition ex_disk : Disk := mkDisk ∅ (fun _ => false) (fun _ => false).
Definition ex_cert (raw : string) : option PublicKey := if HasPrefix raw "cert:" then Some (Ed25519 (str (drop 5 (bytes raw)))) else None.
Abbreviation ex_identity := (LoadOrCreateIdentity ex_digest id id).
Lemma identity_is_kept_witness : exists d, ex_identity (Some ex_seed32) ex_disk = (d, Ok (identity_of ex_digest id id ex_seed32)) /\ ex_identity None d = (d, Ok (identity_of ex_digest id id ex_seed32)).
Proof.
  exists (WriteFile node_key_file ex_seed32 ex_disk).1. assert (E : ex_identity (Some ex_seed32) ex_disk = ((WriteFile node_key_file ex_seed32 ex_disk).1, Ok (identity_of ex_digest id id ex_seed32))) by reflexivity.
  split; [exact E|]. apply (identity_is_kept ex_digest id id (Some ex_seed32) None ex_disk _ _ E); [|reflexivity]. intros r [= <-]. reflexivity.
Defined.
(** A toy URL: its scheme ends at the first colon. *)
Definition ex_url (s : string) : option Url := '(a, b) ← cut_byte ":" (bytes s); Some (mkUrl (str a) (str b)).
Definition ex_resolve (_ : Url) (loc : string) : option Url := ex_url loc.
Lemma ex_url_https s u : ex_url ("https://" +:+ s) = Some u -> url_Scheme u = "https".
Proof. unfold ex_url. rewrite bytes_app. cbn. by intros [= <-]. Qed.
Abbreviation ex_get := (client_get ex_digest ex_cert ex_url ex_resolve (fun s => Some s) (NewClient "10.0.0.2:8443" (Fingerprint ex_digest "primary")) "/replica/snapshot").
Definition ex_serve (_ : nat) (_ : Url) : list string * option HttpReply := (["cert:primary"], Some (mkHttpReply 200 "" "{}")).
Example client_refuses_another : ex_get (fun _ _ => (["cert:other"], Some (mkHttpReply 200 "" "{}"))) = Err (Handshake (NotAllowed (Fingerprint ex_digest "other"))).
Proof. by vm_compute. Qed.
(** A redirect to https meets the pin again; a redirect of the pinned peer to plain http
    does not, and what the peer there says is believed although it presents no key. *)
Lemma redirect_leaves_the_pin :
  let serve loc (i : nat) (_ : Url) : list string * option HttpReply :=
    match i with O => (["cert:primary"], Some (mkHttpReply 307 loc "")) | _ => ([], Some (mkHttpReply 200 "" "forged")) end in
  ex_get (serve "https://10.0.0.9/snapshot") = Err (Handshake NoCertificate) /\ ex_get (serve "http://10.0.0.9/snapshot") = Ok "forged".
Proof. split; by vm_compute. Qed.
