(* ===== verification/Live.v ===== *)
(** * The running node: [internal/app/apply.go] and the wiring of [serve.go]

    [liveComponents.Apply] over the components it reaches, the callbacks [Serve]
    wires them with, the boot that builds them from the stored settings, and the
    history of a node whose settings, registry, leases and primary change while it
    answers queries.  The fan-out runs under one mutex and is one step here.  A query
    that reaches the forwarder is cut where a change can come between: its look at the
    cache, the moment it takes the list of upstreams, and its answer. *)
From S2P Require Import Prelude GoStr PolicyName Policy PolicyService RegistryValidate Registry.
From S2P Require Import NetIP NetIPPrint Model Zone ZoneHolder Store StoreNode StoreVersion StoreWf StoreProps DnsMsg DnsMetrics DnsCache DnsAuth DnsForward Upstream.
From S2P Require Import SettingsValidate Settings Ticker Health DhcpAlloc DhcpReserve DhcpServer ReplicaSync Replica Role DhcpRunner.

(** ** What is running *)
Record Live := mkLive {
  lv_acl : ACL; lv_fwd : Forwarder; lv_auth : Authoritative; lv_logs : bool * bool; lv_regzone : string; lv_checker : Checker;
  lv_interval : Z; lv_run : Runner; lv_leases : list Zone.Lease; lv_zone : Holder; lv_prev : list string }.
(** The settings service with its database, the components, and the block policy. *)
Record Node := mkNode { nd_sw : SettingsWorld; nd_live : Live; nd_policy : Policy.Holder }.

Definition with_acl a l := mkLive a (lv_fwd l) (lv_auth l) (lv_logs l) (lv_regzone l) (lv_checker l) (lv_interval l) (lv_run l) (lv_leases l) (lv_zone l) (lv_prev l).
Definition with_fwd f l := mkLive (lv_acl l) f (lv_auth l) (lv_logs l) (lv_regzone l) (lv_checker l) (lv_interval l) (lv_run l) (lv_leases l) (lv_zone l) (lv_prev l).
Definition with_auth a l := mkLive (lv_acl l) (lv_fwd l) a (lv_logs l) (lv_regzone l) (lv_checker l) (lv_interval l) (lv_run l) (lv_leases l) (lv_zone l) (lv_prev l).
Definition with_run r l := mkLive (lv_acl l) (lv_fwd l) (lv_auth l) (lv_logs l) (lv_regzone l) (lv_checker l) (lv_interval l) r (lv_leases l) (lv_zone l) (lv_prev l).
Definition with_zone z l := mkLive (lv_acl l) (lv_fwd l) (lv_auth l) (lv_logs l) (lv_regzone l) (lv_checker l) (lv_interval l) (lv_run l) (lv_leases l) z (lv_prev l).
Definition with_leases ls l := mkLive (lv_acl l) (lv_fwd l) (lv_auth l) (lv_logs l) (lv_regzone l) (lv_checker l) (lv_interval l) (lv_run l) ls (lv_zone l) (lv_prev l).
Definition on_cache (g : Cache -> Cache) (f : Forwarder) : Forwarder := mkFwd (f_state f) (g (f_cache f)).
Definition with_runner_db (db : DB) (r : Runner) : Runner :=
  mkRunner (rn_running r) (rn_current r) (rn_lastError r) (rn_foreign r) (rn_watch r) (rn_gen r) (rn_problems r) (rn_source r) db (rn_next r).
Definition with_sw_db (db : DB) (w : SettingsWorld) : SettingsWorld := mkSW db (sw_cur w) (sw_next w) (sw_applied w).

#[export] Instance upstream_eq_dec : EqDecision Upstream.
Proof. solve_decision. Defined.
Definition zoneChanged (running stored : string) : bool := negb (bool_decide (ZoneSuffix running = ZoneSuffix stored)).
Definition flushOnUpstreamChange (prev next : list string) (c : Cache) : Cache := if bool_decide (prev = next) then c else Flush c.
Definition secs (n : Z) : Z := int64 (seconds n).

Section Node.
Context (url_Parse : string -> option ParsedURL) (LookupPort : string -> option Z).
Context (IsDomainName : string -> bool) (SplitDomainName : string -> list string).
Context (Fqdn : string -> string) (RcodeToString : Z -> string).
Abbreviation Build := (Build url_Parse LookupPort).
Abbreviation Set_ := (Set_ url_Parse LookupPort IsDomainName SplitDomainName).
Abbreviation SettingsRebuild := (SettingsRebuild url_Parse LookupPort).
Abbreviation ValidateStored := (ValidateStored url_Parse LookupPort IsDomainName SplitDomainName).
Abbreviation settings_ok := (settings_ok url_Parse LookupPort IsDomainName SplitDomainName).
Abbreviation built := (built url_Parse LookupPort).

(** The source [Serve] gives the zone holder. *)
Definition zone_source (cur : option SettingsSnapshot) (leases : list Zone.Lease) (db : DB) : result store_error Input :=
  svcs <-? Services db ;;
  let s := default (mkSSnap settings0 [] [] []) cur in
  Ok (mkInput (Views db) svcs (Records db) leases (Fqdn (ToLower (PrivateDomain (ss_Raw s)))) (ss_ReverseZones s) 0).
Definition rebuild_zone (cur : option SettingsSnapshot) (db : DB) (l : Live) : Live :=
  with_zone (ZoneHolder.Rebuild (zone_source cur (lv_leases l) db) (lv_zone l)).1 l.
Definition node_services (db : DB) : result string (list Service) := match Services db with Ok ss => Ok ss | Err _ => Err "services" end.
(** The two callbacks: a registry write, and a change of the leases. *)
Definition registry_changed (cur : option SettingsSnapshot) (db : DB) (l : Live) : Live * option (rebuild_error store_error) :=
  let l := with_run (RefreshReservations (node_services db) (lv_run l)) l in
  let '(z, e) := ZoneHolder.Rebuild (zone_source cur (lv_leases l) db) (lv_zone l) in (with_zone z l, e).
Definition leases_changed (cur : option SettingsSnapshot) (leases : list Zone.Lease) (db : DB) (l : Live) : Live :=
  rebuild_zone cur db (with_leases leases l).

(** ** [Apply] *)
Definition apply_zone (s : SettingsSnapshot) (l : Live) : Live :=
  let d := PrivateDomain (ss_Raw s) in
  if zoneChanged (a_zone (lv_auth l)) d
  then mkLive (lv_acl l) (on_cache Flush (lv_fwd l)) (SetZone Fqdn d (lv_auth l)) (lv_logs l) (RegistryValidate.Normalize d) (lv_checker l) (lv_interval l)
         (lv_run l) (lv_leases l) (lv_zone l) (lv_prev l)
  else l.
Definition apply_dns (s : SettingsSnapshot) (l : Live) : Live :=
  let v := ss_Raw s in
  let f := FwdReplace (ss_Upstreams s) (lv_fwd l) in
  let f := on_cache (flushOnUpstreamChange (lv_prev l) (Upstreams v)) f in
  let f := on_cache (Retune (CacheEntries v) (CacheMinTTL v) (CacheMaxTTL v) (NegativeMaxTTL v)) f in
  mkLive (ACLReplace (ss_AllowQuery s) (lv_acl l)) f (SetReverseZones (ss_ReverseZones s) (SetTTL (u32w (TTL v)) (lv_auth l)))
    (LogQueries v, LogClientIP v) (lv_regzone l)
    (Reconfigure (secs (HealthInterval v)) (secs (HealthTimeout v)) (HealthWorkers v) (lv_checker l))
    (lv_interval l) (lv_run l) (lv_leases l) (lv_zone l) (Upstreams v).
Definition apply_monitors (h : Host) (role : Role) (s : SettingsSnapshot) (db : DB) (l : Live) : Live :=
  let v := ss_Raw s in
  let r := Reconcile h v role (node_services db) (node_services db) (with_runner_db db (lv_run l)) in
  mkLive (lv_acl l) (lv_fwd l) (lv_auth l) (lv_logs l) (lv_regzone l) (lv_checker l)
    (clampInterval (secs (DiscoveryInterval v))) (follow_source v r) (lv_leases l) (lv_zone l) (lv_prev l).
(** Starting the DHCP listener deletes expired leases, so the database is returned. *)
Definition LiveApply (h : Host) (role : Role) (cur : option SettingsSnapshot) (s : SettingsSnapshot) (db : DB) (l : Live) : DB * Live :=
  let l := apply_monitors h role s db (apply_dns s (apply_zone s l)) in
  let db := rn_db (lv_run l) in
  (db, rebuild_zone cur db l).
(** The snapshot the settings service published, applied. *)
Definition node_apply (h : Host) (role : Role) (w : SettingsWorld) (n : Node) : Node :=
  match sw_cur w with
  | None => mkNode w (nd_live n) (nd_policy n)
  | Some s => let '(db, l) := LiveApply h role (sw_cur w) s (sw_db w) (nd_live n) in mkNode (with_sw_db db w) l (nd_policy n)
  end.

(** ** The writes that reach it *)
(** [Service.Set] with [live.Apply] as its callback. *)
Definition node_set (h : Host) (role : Role) (v : Settings) (confirm : string) (n : Node) : Node * result set_error unit :=
  match Set_ (bool_decide (role = RoleReplica)) v confirm (nd_sw n) with
  | (w, Ok _) => (node_apply h role w n, Ok tt)
  | (w, Err e) => (mkNode w (nd_live n) (nd_policy n), Err e)
  end.
Definition policy_source (db : DB) : result store_error (BlacklistSettings * list BlacklistList * list BlacklistRule) :=
  Ok (GetBlacklistSettings db, BlacklistLists db, BlacklistRules db).
(** [replicaApplier.Apply]; only a replica pulls. *)
Definition node_pull (h : Host) (doc : option SnapshotInput) (n : Node) : Node * result apply_error unit :=
  match SnapshotApplier doc (sw_db (nd_sw n)) with
  | (db, Err e) => (mkNode (with_sw_db db (nd_sw n)) (nd_live n) (nd_policy n), Err e)
  | (db, Ok _) =>
      match SettingsRebuild (with_sw_db db (nd_sw n)) with
      | (w, Err e) => (mkNode w (nd_live n) (nd_policy n), Err (ApplyRebuild "settings"))
      | (w, Ok _) =>
          let n := node_apply h RoleReplica w n in
          let '(p, e) := Policy.Rebuild (policy_source (sw_db (nd_sw n))) (nd_policy n) in
          (mkNode (nd_sw n) (nd_live n) p, match e with None => Ok tt | Some _ => Err (ApplyRebuild "policy") end)
      end
  end.

(** ** Boot *)
Inductive boot_error := StoredInvalid (e : settings_error) | SeedInvalid (e : settings_error) | SeedFailed (e : store_error)
  | InitialSettings (e : set_error) | InitialSnapshot (e : rebuild_error store_error) | SeedBuiltinsFailed (e : PolicyService.policy_error).
Definition ensureSettings (seed : Settings) (db : DB) : DB * result boot_error Settings :=
  match GetSettings db with
  | Some cur => match ValidateStored cur with Err e => (db, Err (StoredInvalid e)) | Ok _ => (db, Ok cur) end
  | None =>
      match ValidateStored seed with
      | Err e => (db, Err (SeedInvalid e))
      | Ok _ => match PutSettings (Canonicalize seed) db with
                | (db, Err e) => (db, Err (SeedFailed e))
                | (db, Ok _) => (db, Ok (Canonicalize seed))
                end
      end
  end.
(** The components as [Serve] makes them; [boot] seeds them, the snapshot is live. *)
Definition NewLive (now : Z) (boot : Settings) (snap : SettingsSnapshot) (zone : Holder) (db : DB) : Live :=
  let fqdn := Fqdn (ToLower (PrivateDomain boot)) in
  mkLive (NewACL (ss_AllowQuery snap))
    (NewForwarder (ss_Upstreams snap) (NewCache (CacheEntries boot) (CacheMinTTL boot) (CacheMaxTTL boot) (NegativeMaxTTL boot)))
    (NewAuthoritative Fqdn fqdn (u32w (TTL boot)) (ss_ReverseZones snap)) (LogQueries boot, LogClientIP boot) (RegistryValidate.Normalize fqdn)
    (NewChecker (secs (HealthInterval boot)) (secs (HealthTimeout boot)) (HealthWorkers boot))
    (clampInterval (secs (DiscoveryInterval boot)))
    (NewRunner db (if bool_decide (DHCPLeaseFile boot <> "") then Some (SrcFile (DHCPLeaseFile boot)) else None))
    [] zone (Upstreams boot).
(** [Serve] in two halves.  The first opens what the components read: the settings, the
    zone, and the policy once the built-in lists are there. *)
Record Opened := mkOpened { op_boot : Settings; op_settings : SettingsWorld; op_zone : Holder; op_policy : Policy.Holder }.
Definition op_snap (o : Opened) : SettingsSnapshot := default (mkSSnap settings0 [] [] []) (sw_cur (op_settings o)).
Definition boot_stores (builtins : PolicyService.Manifest) (seed : Settings) (db : DB) : DB * result boot_error Opened :=
  match ensureSettings seed db with
  | (db, Err e) => (db, Err e)
  | (db, Ok boot) =>
      match SettingsRebuild (mkSW db None 0 []) with
      | (_, Err e) => (db, Err (InitialSettings e))
      | (w, Ok _) =>
          match ZoneHolder.Rebuild (zone_source (sw_cur w) [] db) holder0 with
          | (_, Some e) => (db, Err (InitialSnapshot e))
          | (zone, None) =>
              match PolicyService.SeedBuiltins builtins db with
              | (db, Err e) => (db, Err (SeedBuiltinsFailed e))
              | (db, Ok _) => (db, Ok (mkOpened boot w zone (Policy.Rebuild (policy_source db) Policy.NewHolder).1))
              end
          end
      end
  end.
(** The second makes the components and reconciles DHCP with the role. *)
Definition boot_node (h : Host) (role : Role) (now : Z) (o : Opened) (db : DB) : DB * Node :=
  let l := NewLive now (op_boot o) (op_snap o) (op_zone o) db in
  let r := Reconcile h (ss_Raw (op_snap o)) role (node_services db) (node_services db) (lv_run l) in
  (rn_db r, mkNode (with_sw_db (rn_db r) (op_settings o)) (with_run r l) (op_policy o)).
(** A start on which no token has to be written between the two. *)
Definition node_boot (h : Host) (role : Role) (builtins : PolicyService.Manifest) (now : Z) (seed : Settings) (db : DB) : DB * result boot_error Node :=
  match boot_stores builtins seed db with
  | (db, Err e) => (db, Err e)
  | (db, Ok o) => let '(db, n) := boot_node h role now o db in (db, Ok n)
  end.

(** ** A history *)
Inductive reg_op :=
  | RPutService (s : Service) | RDeleteService (id : Z) | RPutRecord (r : DnsRecord) | RDeleteRecord (id : Z)
  | RPutView (v : View) | RDeleteView (name : string) | RReplaceAll (vs : list View) (ss : list Service) (rs : list DnsRecord).
Definition reg_exec (cur : option SettingsSnapshot) (op : reg_op) (w : Registry.RegWorld Live) : Registry.RegWorld Live :=
  let f := registry_changed cur in
  match op with
  | RPutService s => (Registry.RegPutService f s w).1
  | RDeleteService id => (Registry.RegDeleteService f id w).1
  | RPutRecord r => (Registry.RegPutRecord f r w).1
  | RDeleteRecord id => (Registry.RegDeleteRecord f id w).1
  | RPutView v => (Registry.RegPutView f v w).1
  | RDeleteView n => (Registry.RegDeleteView f n w).1
  | RReplaceAll vs ss rs => (Registry.RegReplaceAll f vs ss rs w).1
  end.
Inductive node_event :=
  | NSet (h : Host) (role : Role) (v : Settings) (confirm : string)
  | NPull (h : Host) (doc : option SnapshotInput)
  | NRegistry (op : reg_op)
  | NLeases (leases : list Zone.Lease)
  | NFlush.
Definition node_step (n : Node) (ev : node_event) : Node :=
  match ev with
  | NSet h role v confirm => (node_set h role v confirm n).1
  | NPull h doc => (node_pull h doc n).1
  | NRegistry op =>
      let w := reg_exec (sw_cur (nd_sw n)) op (Registry.mkRegWorld (sw_db (nd_sw n)) (lv_regzone (nd_live n)) (nd_live n)) in
      mkNode (with_sw_db (Registry.rg_db w) (nd_sw n)) (Registry.rg_live w) (nd_policy n)
  | NLeases leases => mkNode (nd_sw n) (leases_changed (sw_cur (nd_sw n)) leases (sw_db (nd_sw n)) (nd_live n)) (nd_policy n)
  | NFlush => mkNode (nd_sw n) (with_fwd (on_cache Flush (lv_fwd (nd_live n))) (nd_live n)) (nd_policy n)
  end.

(** ** Queries between the changes *)
(** [Resolve] cut at its atomic steps: the look at the cache, a second one by the query
    that runs for its group, [acquireState], and the exchange with the [Put] behind it.
    [wq_state] is the upstream list the query took. *)
Record Waiting := mkWaiting { wq_question : Question; wq_do : bool; wq_state : option fwdState }.
Record Serving := mkServing { sv_node : Node; sv_waiting : gmap nat Waiting }.
Definition set_fwd (f : Forwarder) (n : Node) : Node := mkNode (nd_sw n) (with_fwd f (nd_live n)) (nd_policy n).
Definition node_fwd (n : Node) : Forwarder := lv_fwd (nd_live n).
Definition look (now : Z) (q : Question) (do : bool) (f : Forwarder) : Forwarder * option Msg :=
  let '(c, _, m) := DnsCache.Get Fqdn now q do (f_cache f) None in (mkFwd (f_state f) c, m).
(** What the exchange records goes to the list the query took, and is lost with it when
    it has been replaced: a list is known by its upstreams, which [Build] makes anew.
    The answer is cached either way. *)
Definition answered (exch : nat -> Upstream -> FReq -> result string (option Msg)) (clock : nat -> Z) (now : Z) (q : Question) (do : bool) (taken : fwdState) (f : Forwarder) : Forwarder :=
  let current := bool_decide (fs_ups taken = fs_ups (f_state f)) in
  let '(st, r) := exchange Fqdn RcodeToString exch clock q do (if current then f_state f else taken) in
  let c := match r with Ok m => Put Fqdn now q do (Some m) (f_cache f) | Err _ => f_cache f end in
  mkFwd (if current then st else f_state f) c.
Inductive serve_event :=
  | Change (ev : node_event)
  | QLook (now : Z) (q : Question) (do : bool)
  | QAsk (id : nat) (now : Z) (q : Question) (do : bool)
  | QAcquire (id : nat)
  | QAnswer (id : nat) (exch : nat -> Upstream -> FReq -> result string (option Msg)) (clock : nat -> Z) (now : Z).
Definition serve_step (w : Serving) (ev : serve_event) : Serving :=
  match ev with
  | Change ev => mkServing (node_step (sv_node w) ev) (sv_waiting w)
  | QLook now q do => mkServing (set_fwd (look now q do (node_fwd (sv_node w))).1 (sv_node w)) (sv_waiting w)
  | QAsk id now q do =>
      match sv_waiting w !! id with
      | Some _ => w
      | None =>
          let '(f, hit) := look now q do (node_fwd (sv_node w)) in
          mkServing (set_fwd f (sv_node w)) (match hit with Some _ => sv_waiting w | None => <[id := mkWaiting q do None]> (sv_waiting w) end)
      end
  | QAcquire id =>
      match sv_waiting w !! id with
      | Some (mkWaiting q do None) => mkServing (sv_node w) (<[id := mkWaiting q do (Some (f_state (node_fwd (sv_node w))))]> (sv_waiting w))
      | _ => w
      end
  | QAnswer id exch clock now =>
      match sv_waiting w !! id with
      | Some (mkWaiting q do (Some taken)) => mkServing (set_fwd (answered exch clock now q do taken (node_fwd (sv_node w))) (sv_node w)) (delete id (sv_waiting w))
      | _ => w
      end
  end.
Definition serve_run (evs : list serve_event) (w : Serving) : Serving := foldl serve_step w evs.
(** A node that has just booted: nothing waits. *)
Definition serving (n : Node) : Serving := mkServing n ∅.
Lemma element_removed id o : element id (list_remove id o) = None.
Proof.
  unfold element. destruct (List.find _ _) as [x|] eqn:E; [|done]. apply List.find_some in E as [H1 H2]. apply list_elem_of_In, list_remove_elem in H1 as [_ H1]. lia.
Qed.
Lemma lookup_twice now q do c : (lookup_ Fqdn now q do c).2 = None -> (lookup_ Fqdn now q do (lookup_ Fqdn now q do c).1).2 = None.
Proof.
  unfold lookup_ at 1 3. destruct (c_entries c !! keyFor Fqdn q do) as [id|] eqn:E; [|intros _; cbn [fst]; unfold lookup_; by rewrite E].
  destruct (element id (c_order c)) as [e|] eqn:El; [|intros _; cbn [fst]; unfold lookup_; by rewrite E, El]. destruct (negb _) eqn:X; [|done]. intros _.
  unfold lookup_, removeLocked. rewrite El. cbn [fst with_lru c_entries c_order]. destruct (delete _ _ !! _) as [id'|] eqn:D; [|done].
  apply lookup_delete_Some in D as [_ D]. assert (id' = id) as -> by congruence. by rewrite element_removed.
Qed.
(** A query that nothing comes between is [Resolve]. *)
Lemma query_taken_whole id now q do exch clock w : sv_waiting w !! id = None -> (look now q do (node_fwd (sv_node w))).2 = None ->
  serve_run [QLook now q do; QAsk id now q do; QAcquire id; QAnswer id exch clock now] w =
    mkServing (set_fwd (Resolve Fqdn RcodeToString exch clock now q do (node_fwd (sv_node w)) None).1.1 (sv_node w)) (sv_waiting w).
Proof.
  destruct w as [[sw l p] ws]. cbn [sv_waiting]. intros Hw. unfold look, DnsCache.Get, node_fwd, serve_run, Resolve. cbn [foldl serve_step sv_node sv_waiting nd_live].
  pose proof (lookup_twice now q do (f_cache (lv_fwd l))) as L. unfold look, DnsCache.Get, node_fwd, set_fwd. cbn [nd_live nd_sw with_fwd lv_fwd f_cache].
  destruct (lookup_ Fqdn now q do (f_cache (lv_fwd l))) as [c1 m1] eqn:L1. cbn [fst snd] in *. intros ->. specialize (L eq_refl). rewrite Hw.
  cbn [f_cache lv_fwd]. destruct (lookup_ Fqdn now q do c1) as [c2 m2] eqn:L2. cbn [snd] in L. subst m2. cbn [sv_waiting sv_node].
  rewrite lookup_insert_eq. cbn [sv_waiting sv_node nd_live lv_fwd f_state]. rewrite lookup_insert_eq. cbn [RecordCache nd_sw nd_policy].
  unfold answered. cbn [f_state f_cache with_fwd lv_fwd]. rewrite bool_decide_true by done. rewrite insert_insert_eq, delete_insert_id by done.
  by destruct (exchange _ _ _ _ _ _ (f_state (lv_fwd l))) as [st [m|e]].
Qed.

(** ** Lemmas: one zone, however it is written *)
(** [dns.Fqdn] appends the final dot when it is missing. *)
Hypothesis Fqdn_dot : forall s, Fqdn s = s \/ Fqdn s = s +:+ ".".
(** The labels of an accepted domain hold no white space. *)
Hypothesis accepted_no_space : forall v, settings_ok v -> no_space (PrivateDomain v).

Lemma TrimDots_dot s : TrimDots (s +:+ ".") = TrimDots s.
Proof.
  unfold TrimDots. rewrite bytes_app. change (bytes ".") with ["."%char]. do 2 f_equal. generalize (bytes s). intros l.
  assert (H : drop_dots (l ++ ["."%char]) = drop_dots l ++ ["."%char] \/ (drop_dots (l ++ ["."%char]) = [] /\ drop_dots l = [])).
  { induction l as [|c l IH]; [by right|]. cbn. case_bool_decide; [exact IH|by left]. }
  destruct H as [->|[-> ->]]; [|done]. by rewrite rev_app_distr.
Qed.
Lemma no_space_dot s : no_space s -> no_space (s +:+ ".").
Proof. unfold no_space. rewrite bytes_app, Forall_app. intros H. split; [done|]. by constructor. Qed.
Lemma no_space_lower s : no_space s -> no_space (ToLower s).
Proof. unfold no_space. rewrite bytes_ToLower, Forall_fmap. intros H. eapply Forall_impl; [exact H|]. intros c Hc. unfold compose. by rewrite is_space_lower. Qed.
Lemma zone_suffix_fqdn d d' : no_space d -> d' = d \/ d' = d +:+ "." -> ZoneSuffix d' = ZoneSuffix d.
Proof.
  intros Hd [->| ->]; [done|]. unfold ZoneSuffix. rewrite !TrimSpace_no_space by (done || by apply no_space_dot).
  rewrite ToLower_app. change (ToLower ".") with ".". by rewrite TrimDots_dot.
Qed.
Lemma zone_suffix_lower d : ZoneSuffix (ToLower d) = ZoneSuffix d.
Proof. unfold ZoneSuffix. by rewrite TrimSpace_ToLower, ToLower_idemp. Qed.
Lemma zone_suffix_set d : no_space d -> ZoneSuffix (ToLower (Fqdn d)) = ZoneSuffix d.
Proof. intros Hd. rewrite zone_suffix_lower. apply zone_suffix_fqdn; [done|]. apply Fqdn_dot. Qed.
Lemma zone_suffix_normalize d : no_space d -> ZoneSuffix (RegistryValidate.Normalize d) = ZoneSuffix d.
Proof.
  intros Hd. unfold RegistryValidate.Normalize. rewrite TrimSpace_no_space by done. case_bool_decide as E.
  { rewrite <- (zone_suffix_lower d), E. done. }
  destruct (negb _); [|apply zone_suffix_lower]. rewrite (zone_suffix_fqdn (ToLower d)); [apply zone_suffix_lower|by apply no_space_lower|by right].
Qed.

(** ** The running components are those the settings describe *)
Definition lease_source (v : Settings) : option lease_src := if bool_decide (DHCPLeaseFile v <> "") then Some (SrcFile (DHCPLeaseFile v)) else None.
(** A value of the settings in its machine type: the value itself when it fits, and what
    the conversion leaves of it when it does not. *)
Definition as_uint32 (n m : Z) : Prop := 0 <= n < 2 ^ 32 /\ m = n \/ ~ 0 <= n < 2 ^ 32 /\ m = n mod 2 ^ 32.
Definition as_duration (n d : Z) : Prop :=
  - 2 ^ 63 <= n * nanos_per_sec < 2 ^ 63 /\ d = n * nanos_per_sec \/ ~ - 2 ^ 63 <= n * nanos_per_sec < 2 ^ 63 /\ d = secs n.
Lemma u32w_as n : as_uint32 n (u32w n).
Proof. unfold as_uint32, u32w. destruct (decide (0 <= n < 2 ^ 32)); [left; split; [done|]; by rewrite Z.mod_small|by right]. Qed.
Lemma secs_as n : as_duration n (secs n).
Proof.
  unfold as_duration. destruct (decide (- 2 ^ 63 <= n * nanos_per_sec < 2 ^ 63)) as [H|H]; [left|by right]. split; [done|]. unfold secs, int64, seconds.
  rewrite Z.mod_small by lia. lia.
Qed.
Record follows (s : SettingsSnapshot) (l : Live) : Prop := {
  fl_acl : acl_allowed (lv_acl l) = Pfx.Masked <$> ss_AllowQuery s;
  fl_ups : fs_ups (f_state (lv_fwd l)) = ss_Upstreams s;
  fl_prev : lv_prev l = Upstreams (ss_Raw s);
  fl_ttl : as_uint32 (TTL (ss_Raw s)) (a_ttl (lv_auth l));
  fl_reverse : a_reverse (lv_auth l) = Pfx.Masked <$> ss_ReverseZones s;
  fl_zone : ZoneSuffix (a_zone (lv_auth l)) = ZoneSuffix (PrivateDomain (ss_Raw s));
  fl_regzone : ZoneSuffix (lv_regzone l) = ZoneSuffix (PrivateDomain (ss_Raw s));
  fl_logs : lv_logs l = (LogQueries (ss_Raw s), LogClientIP (ss_Raw s));
  fl_cache : let c := f_cache (lv_fwd l) in
    c_max c = Z.max 1 (CacheEntries (ss_Raw s)) /\ as_uint32 (CacheMinTTL (ss_Raw s)) (c_minTTL c) /\ as_uint32 (CacheMaxTTL (ss_Raw s)) (c_maxTTL c) /\
    as_uint32 (NegativeMaxTTL (ss_Raw s)) (c_negMaxTTL c);
  fl_health : (exists d, as_duration (HealthInterval (ss_Raw s)) d /\ hc_interval (lv_checker l) = clampInterval d) /\
    as_duration (HealthTimeout (ss_Raw s)) (hc_timeout (lv_checker l)) /\
    hc_workers (lv_checker l) = if HealthWorkers (ss_Raw s) <? 1 then 8 else HealthWorkers (ss_Raw s);
  fl_poll : exists d, as_duration (DiscoveryInterval (ss_Raw s)) d /\ lv_interval l = clampInterval d;
  (* A listener runs only when the settings ask for one; it is the source of leases and
     unless its last reconcile reports an error it is the one they describe.  None runs
     when they ask for one only if that error is reported; the lease file, if there is
     one, is the source then. *)
  fl_dhcp : match rn_running (lv_run l) with
    | Some x => dhcpWanted (ss_Raw s) RolePrimary = true /\ rn_source (lv_run l) = Some (SrcBuiltin (ln_id x)) /\
        (rn_lastError (lv_run l) = None -> built_from (ss_Raw s) x)
    | None => rn_source (lv_run l) = lease_source (ss_Raw s) /\ (rn_lastError (lv_run l) = None -> dhcpWanted (ss_Raw s) RolePrimary = false)
    end }.
(** The names that are served are those of the tables, the leases and the settings,
    unless the tables cannot be read or contradict each other. *)
Definition names_published (cur : option SettingsSnapshot) (db : DB) (l : Live) : Prop :=
  match zone_source cur (lv_leases l) db with
  | Err _ => True
  | Ok in_ => match Zone.Build (with_generation in_ (h_gen (lv_zone l))) with Err _ => True | Ok z => ZoneHolder.Current (lv_zone l) = Some z end
  end.
Lemma rebuilt_published cur db l : names_published cur db (rebuild_zone cur db l).
Proof.
  unfold names_published, rebuild_zone. cbn [with_zone lv_leases lv_zone]. destruct (zone_source cur (lv_leases l) db) as [in_|]; [|done].
  unfold ZoneHolder.Rebuild. destruct (Zone.Build (with_generation in_ (u32w (h_gen (lv_zone l) + 1)))) as [z|e] eqn:E; cbn [fst h_gen h_cur]; by rewrite E.
Qed.

(** ** The DHCP listener after a reconcile *)
Definition listener_follows (v : Settings) (r : Runner) : Prop :=
  match rn_running r with
  | Some x => dhcpWanted v RolePrimary = true /\ rn_source r = Some (SrcBuiltin (ln_id x)) /\ (rn_lastError r = None -> built_from v x)
  | None => rn_lastError r = None -> dhcpWanted v RolePrimary = false
  end.
Lemma fail_follows v e r : dhcpWanted v RolePrimary = true -> runner_ok r -> listener_follows v (fail_runner v e r).
Proof. intros W [H _]. unfold listener_follows. cbn. destruct (rn_running r) as [x|]; [|done]. split; [done|]. split; [|done]. by destruct (H x eq_refl) as (_ & _ & S & _). Qed.
Lemma reconcile_follows h v role svcs r : runner_ok r -> listener_follows v (reconcile h v role svcs r).
Proof.
  intros Hr. pose proof (reconcile_ok h v role svcs r Hr) as Ho. revert Ho. unfold reconcile. destruct (dhcpWanted v role) eqn:W; cbn [negb].
  2: { intros _. unfold listener_follows. cbn. unfold roleRefusal. revert W. unfold dhcpWanted. destruct (DHCPEnabled v), (bool_decide (DHCPInterface v = "")), role; done. }
  apply wanted_primary in W as [W _]. destruct (bool_decide (is_Some (rn_running r)) && dhcpConfigEqual (rn_current r) v) eqn:E.
  - intros _. apply andb_prop in E as [[x Hx]%bool_decide_eq_true E]. unfold listener_follows. cbn. rewrite Hx. destruct (ro_listener _ Hr x Hx) as (_ & B & S & _).
    split; [done|]. split; [done|]. intros _. by eapply built_from_equal.
  - destruct svcs as [ss|e]; [|by intros _; apply fail_follows]. destruct (build _ _ _ _) as [x|e]; [|by intros _; apply fail_follows].
    destruct (start_listener _ _ _) as [db [x'|e]]; cbn; [|done]. intros [H _]. unfold listener_follows. cbn. destruct (H x' eq_refl) as (_ & B & S & _). done.
Qed.
Lemma refreshed v svcs r : runner_ok r -> listener_follows v r ->
  runner_ok (RefreshReservations svcs r) /\ listener_follows v (RefreshReservations svcs r) /\ rn_source (RefreshReservations svcs r) = rn_source r /\
  rn_db (RefreshReservations svcs r) = rn_db r /\ (rn_running (RefreshReservations svcs r) = None <-> rn_running r = None) /\
  rn_lastError (RefreshReservations svcs r) = rn_lastError r.
Proof.
  intros Hr Hf. unfold RefreshReservations. pose proof (refresh_begin_ok r Hr) as Hb. unfold refresh_begin in *. destruct (rn_running r) as [x|] eqn:E; cbn [fmap option_fmap option_map fst] in *.
  - split; [apply refresh_end_ok; [done|]; cbn; intros c [= <-] _; done|]. unfold listener_follows in *. rewrite E in Hf. unfold refresh_end. cbn.
    destruct svcs as [ss|]; cbn; [|by split_and!; try apply Hf]. rewrite !bool_decide_true by done. rewrite Z.eqb_refl. cbn. by repeat split; try apply Hf.
  - unfold listener_follows in *. cbn. rewrite E in Hf. by repeat split; try apply Hb.
Qed.
Lemma rewired_ok db r : runner_ok r -> runner_ok (with_runner_db db r).
Proof. by intros [H1 H2]. Qed.
Lemma source_followed v r : runner_ok r -> runner_ok (follow_source v r).
Proof.
  intros [H1 H2]. unfold follow_source. destruct (rn_running r) as [x|] eqn:E; [by constructor; rewrite ?E|]. destruct (H2 eq_refl) as (A1 & A2 & A3 & _).
  constructor; cbn; [done|]. intros _. do 3 (split; [done|]). intros id. by case_bool_decide.
Qed.
(** [Reconcile] and the source after it, as a change of settings runs them. *)
Lemma reconciled_follows h v role svcs svcs' r : runner_ok r -> let r' := Reconcile h v role svcs svcs' r in runner_ok r' /\ listener_follows v r'.
Proof.
  intros Hr. cbv zeta. unfold Reconcile. set (r1 := reconcile _ _ _ _ _). assert (H1 : runner_ok r1) by by apply reconcile_ok.
  assert (H2 : listener_follows v r1) by by apply reconcile_follows. destruct (refreshed v svcs' r1 H1 H2) as (? & ? & _). done.
Qed.

Lemma evict_keeps fuel : forall c, c_max (evict fuel c) = c_max c /\ c_minTTL (evict fuel c) = c_minTTL c /\
  c_maxTTL (evict fuel c) = c_maxTTL c /\ c_negMaxTTL (evict fuel c) = c_negMaxTTL c.
Proof.
  induction fuel as [|fuel IH]; intros c; cbn [evict]; destruct (c_max c <? _); try done; destruct (last (c_order c)) as [[id e]|]; try done.
  destruct (IH (removeLocked id c)) as (-> & -> & -> & ->). unfold removeLocked. by destruct (element id _).
Qed.
Lemma retune_bounds a b d e c : c_max (Retune a b d e c) = Z.max 1 a /\ c_minTTL (Retune a b d e c) = u32w b /\
  c_maxTTL (Retune a b d e c) = u32w d /\ c_negMaxTTL (Retune a b d e c) = u32w e.
Proof.
  unfold Retune. set (c0 := mkCache _ _ _ _ _ _ _). destruct (evict_keeps (length (c_order c0)) c0) as (-> & -> & -> & ->).
  split; [|done]. cbn. destruct (Z.ltb_spec a 1); lia.
Qed.
Lemma follow_source_running v r : rn_running (follow_source v r) = rn_running r /\ rn_db (follow_source v r) = rn_db r /\
  (rn_running r = None -> rn_source (follow_source v r) = lease_source v).
Proof. unfold follow_source. destruct (rn_running r) as [l|] eqn:E; [by rewrite E|done]. Qed.
Lemma apply_runner h role s db l : runner_ok (lv_run l) -> let l' := apply_monitors h role s db l in runner_ok (lv_run l') /\
  match rn_running (lv_run l') with
  | Some x => dhcpWanted (ss_Raw s) RolePrimary = true /\ rn_source (lv_run l') = Some (SrcBuiltin (ln_id x)) /\ (rn_lastError (lv_run l') = None -> built_from (ss_Raw s) x)
  | None => rn_source (lv_run l') = lease_source (ss_Raw s) /\ (rn_lastError (lv_run l') = None -> dhcpWanted (ss_Raw s) RolePrimary = false)
  end.
Proof.
  intros Hr. cbv zeta. unfold apply_monitors. cbn [lv_run]. apply (rewired_ok db) in Hr.
  destruct (reconciled_follows h (ss_Raw s) role (node_services db) (node_services db) _ Hr) as [H1 H2]. split; [by apply source_followed|].
  unfold listener_follows in H2. set (r := Reconcile _ _ _ _ _ _) in *. unfold follow_source. destruct (rn_running r) as [x|] eqn:E; [by rewrite E|]. done.
Qed.
Lemma rebuilt_run cur db l : lv_run (rebuild_zone cur db l) = lv_run l.
Proof. done. Qed.
Lemma apply_follows h role cur s db l : no_space (PrivateDomain (ss_Raw s)) -> ZoneSuffix (lv_regzone l) = ZoneSuffix (a_zone (lv_auth l)) -> runner_ok (lv_run l) ->
  let l' := (LiveApply h role cur s db l).2 in follows s l' /\ runner_ok (lv_run l') /\ names_published cur (LiveApply h role cur s db l).1 l'.
Proof.
  intros Hd Hz Hr. cbv zeta. unfold LiveApply. cbn [fst snd]. set (v := ss_Raw s).
  assert (Hr' : runner_ok (lv_run (apply_dns s (apply_zone s l)))) by (unfold apply_zone; by destruct (zoneChanged _ _)).
  destruct (apply_runner h role s db _ Hr') as [A1 A2]. split; [|split; [rewrite rebuilt_run; exact A1|apply rebuilt_published]].
  assert (Hzone : let l' := apply_zone s l in ZoneSuffix (a_zone (lv_auth l')) = ZoneSuffix (PrivateDomain v) /\ ZoneSuffix (lv_regzone l') = ZoneSuffix (PrivateDomain v)).
  { unfold apply_zone, zoneChanged. fold v. destruct (bool_decide_reflect (ZoneSuffix (a_zone (lv_auth l)) = ZoneSuffix (PrivateDomain v))) as [E|E]; cbn [negb].
    - split; [done|]. by rewrite Hz.
    - split; [by apply zone_suffix_set|by apply zone_suffix_normalize]. }
  destruct Hzone as [Z1 Z2]. constructor; try reflexivity.
  - apply u32w_as.
  - exact Z1.
  - exact Z2.
  - cbv zeta. set (c := f_cache _). assert (B : c_max c = Z.max 1 (CacheEntries v) /\ c_minTTL c = u32w (CacheMinTTL v) /\
      c_maxTTL c = u32w (CacheMaxTTL v) /\ c_negMaxTTL c = u32w (NegativeMaxTTL v)) by (unfold c; cbn; apply retune_bounds).
    destruct B as (-> & -> & -> & ->). split; [done|]. split_and!; apply u32w_as.
  - split; [eexists; split; [apply secs_as|reflexivity]|]. split; [apply secs_as|reflexivity].
  - eexists. split; [apply secs_as|reflexivity].
  - rewrite rebuilt_run. exact A2.
Qed.
(** What a registry write, a change of leases or a query leaves alone. *)
Definition same_follow (l l' : Live) : Prop :=
  lv_acl l' = lv_acl l /\ fs_ups (f_state (lv_fwd l')) = fs_ups (f_state (lv_fwd l)) /\ lv_prev l' = lv_prev l /\ lv_auth l' = lv_auth l /\
  lv_regzone l' = lv_regzone l /\ lv_logs l' = lv_logs l /\ lv_checker l' = lv_checker l /\ lv_interval l' = lv_interval l /\
  (let c := f_cache (lv_fwd l) in let c' := f_cache (lv_fwd l') in
   c_max c' = c_max c /\ c_minTTL c' = c_minTTL c /\ c_maxTTL c' = c_maxTTL c /\ c_negMaxTTL c' = c_negMaxTTL c) /\
  (lv_run l' = lv_run l \/ exists svcs, lv_run l' = RefreshReservations svcs (lv_run l)).
Lemma same_follow_follows s l l' : same_follow l l' -> follows s l -> runner_ok (lv_run l) -> follows s l' /\ runner_ok (lv_run l').
Proof.
  intros (A1 & A2 & A3 & A4 & A5 & A6 & A7 & A8 & (B1 & B2 & B3 & B4) & C) [] Hr.
  assert (D : runner_ok (lv_run l') /\ match rn_running (lv_run l') with
    | Some x => dhcpWanted (ss_Raw s) RolePrimary = true /\ rn_source (lv_run l') = Some (SrcBuiltin (ln_id x)) /\ (rn_lastError (lv_run l') = None -> built_from (ss_Raw s) x)
    | None => rn_source (lv_run l') = lease_source (ss_Raw s) /\ (rn_lastError (lv_run l') = None -> dhcpWanted (ss_Raw s) RolePrimary = false) end).
  { destruct C as [->|[svcs ->]]; [done|]. assert (F : listener_follows (ss_Raw s) (lv_run l)) by (unfold listener_follows; by destruct (rn_running (lv_run l)); try apply fl_dhcp0).
    destruct (refreshed (ss_Raw s) svcs (lv_run l) Hr F) as (R1 & R2 & R3 & _ & R4 & R5). split; [done|]. unfold listener_follows in R2.
    destruct (rn_running (RefreshReservations svcs (lv_run l))) as [x|] eqn:E; [done|]. split; [|done]. rewrite R3. rewrite (proj1 R4 eq_refl) in fl_dhcp0. apply fl_dhcp0. }
  destruct D as [D1 D2]. split; [|done].
  constructor; rewrite ?A1, ?A2, ?A3, ?A4, ?A5, ?A6, ?A7, ?A8; try done. cbv zeta. by rewrite B1, B2, B3, B4.
Qed.
Lemma same_follow_refl l : same_follow l l.
Proof. repeat (split; [done|]). by left. Qed.
Lemma runner_refresh_keeps svcs r : rn_source (RefreshReservations svcs r) = rn_source r /\ rn_db (RefreshReservations svcs r) = rn_db r /\
  (rn_running (RefreshReservations svcs r) = None -> rn_running r = None).
Proof.
  unfold RefreshReservations, refresh_begin, refresh_end. destruct (rn_running r) as [l|] eqn:E; cbn; rewrite ?E; [|done].
  destruct svcs as [ss|]; cbn; rewrite ?E; [|done]. by destruct (bool_decide _ && _); cbn; rewrite ?E.
Qed.
Lemma registry_changed_keeps cur db l : same_follow l (registry_changed cur db l).1 /\ names_published cur db (registry_changed cur db l).1.
Proof.
  unfold registry_changed. set (l1 := with_run _ l). pose proof (rebuilt_published cur db l1) as P. unfold rebuild_zone in P.
  destruct (ZoneHolder.Rebuild _ _) as [z e]. split; [|exact P]. unfold same_follow. cbn [fst]. do 8 (split; [done|]). split; [done|]. right. by eexists.
Qed.
Lemma Put_keeps now q do m c : c_max (Put Fqdn now q do m c) = c_max c /\ c_minTTL (Put Fqdn now q do m c) = c_minTTL c /\
  c_maxTTL (Put Fqdn now q do m c) = c_maxTTL c /\ c_negMaxTTL (Put Fqdn now q do m c) = c_negMaxTTL c.
Proof.
  unfold Put. destruct m as [m|]; [|done]. destruct (ttlFor c m =? 0); [done|].
  assert (H : forall c1, c_max c1 = c_max c -> c_minTTL c1 = c_minTTL c -> c_maxTTL c1 = c_maxTTL c -> c_negMaxTTL c1 = c_negMaxTTL c ->
    let e := evict (length (c_order c1)) c1 in c_max e = c_max c /\ c_minTTL e = c_minTTL c /\ c_maxTTL e = c_maxTTL c /\ c_negMaxTTL e = c_negMaxTTL c).
  { intros c1 E1 E2 E3 E4. cbv zeta. destruct (evict_keeps (length (c_order c1)) c1) as (-> & -> & -> & ->). by rewrite E1, E2, E3, E4. }
  destruct (c_entries c !! keyFor Fqdn q do) as [id|]; apply H; try done; cbn; unfold removeLocked; by destruct (element id _).
Qed.
Lemma lookup_keeps now q do c : let c' := (lookup_ Fqdn now q do c).1 in c_max c' = c_max c /\ c_minTTL c' = c_minTTL c /\
  c_maxTTL c' = c_maxTTL c /\ c_negMaxTTL c' = c_negMaxTTL c.
Proof.
  unfold lookup_. destruct (c_entries c !! _) as [id|]; [|done]. destruct (element id _) as [e|] eqn:E; [|done].
  destruct (negb _); [|done]. cbn. unfold removeLocked. by rewrite E.
Qed.
(** A look at the cache, and an answer: only the status and the cache move, and what is
    cached is the answer of an upstream of the list the query took. *)
Lemma look_cache now q do f : let f' := (look now q do f).1 in f_state f' = f_state f /\ f_cache f' = (lookup_ Fqdn now q do (f_cache f)).1.
Proof. unfold look, DnsCache.Get. by destruct (lookup_ Fqdn now q do (f_cache f)) as [c m]. Qed.
Lemma answered_cases exch clock now q do taken f : let f' := answered exch clock now q do taken f in
  fs_ups (f_state f') = fs_ups (f_state f) /\
  (f_cache f' = f_cache f \/ exists i u m, fs_ups taken !! i = Some u /\ exch i u (request Fqdn q do) = Ok (Some m) /\ f_cache f' = Put Fqdn now q do (Some (strip u m)) (f_cache f)).
Proof.
  cbv zeta. unfold answered. set (st0 := if bool_decide _ then f_state f else taken).
  assert (H0 : fs_ups st0 = fs_ups taken /\ (bool_decide (fs_ups taken = fs_ups (f_state f)) = true -> fs_ups st0 = fs_ups (f_state f))).
  { unfold st0. case_bool_decide; split; congruence || done. }
  destruct H0 as [H0 H1]. pose proof (failover_first_usable_ups Fqdn RcodeToString exch clock q do st0) as Hu. revert Hu. unfold exchange.
  destruct (fs_ups st0) as [|u0 ups] eqn:E.
  { intros Hu. cbn. split; [|by left]. destruct (bool_decide _); [by rewrite E, H1|done]. }
  pose proof (try_all_spec Fqdn RcodeToString exch clock q do (u0 :: ups) 0 (fs_status st0) None) as H.
  destruct (try_all _ _ _ _ _ _ _ _) as [status [m|e]]; cbn [fst snd f_state f_cache] in *; intros _.
  - split; [by destruct (bool_decide _); [apply H1|]|]. right. destruct H as [_ (k & u & resp & Hk & Hr & -> & _)]. exists k, u, resp. rewrite <- H0. split; [done|]. split; [|done].
    unfold attempt, DnsForward.usable in Hr. cbn in Hr. destruct (exch k u _) as [[x|]|]; try done. by destruct (m_Rcode x =? RcodeServerFailure); simplify_eq.
  - split; [by destruct (bool_decide _); [apply H1|]|by left].
Qed.

(** ** Every event keeps the node in step *)
Definition row_ok (db : DB) : Prop := forall v, GetSettings db = Some v -> no_space (PrivateDomain v).
(** The stored row is one that nothing can be built from: a pull that wrote its tables and
    stopped there left it, and everything runs on with what was published before. *)
Definition row_unusable (db : DB) : Prop := match GetSettings db with Some v => forall k, is_ok (Build k v) = false | None => True end.
Record in_step (n : Node) : Prop := {
  is_snap : exists s, sw_cur (nd_sw n) = Some s /\ built s /\ follows s (nd_live n);
  is_row : row_ok (sw_db (nd_sw n));
  is_runner : runner_ok (lv_run (nd_live n));
  is_names : names_published (sw_cur (nd_sw n)) (sw_db (nd_sw n)) (nd_live n) \/ row_unusable (sw_db (nd_sw n)) }.
Lemma Build_any k k' v s : Build k v = Ok s -> is_ok (Build k' v) = true.
Proof.
  unfold Settings.Build. destruct (check_prefixes "allow_query" _) as [al|]; [|done]. destruct (check_prefixes "reverse_zones" _) as [rz|]; [|done]. cbn [rbind].
  unfold NewAll. by destruct (ParseAll _ _ _).
Qed.
Lemma unbuildable db k e : match GetSettings db with Some v => Build k v = Err e | None => True end -> row_unusable db.
Proof.
  unfold row_unusable. destruct (GetSettings db) as [v|]; [|done]. intros B k'. destruct (Build k' v) as [s|] eqn:B'; [|done]. apply (Build_any _ k) in B'. by rewrite B in B'.
Qed.
(** The tables the zone is made of. *)
Definition zone_tables (db : DB) := (c_views (conf db), c_subnets (conf db), c_services (conf db), c_addresses (conf db), c_aliases (conf db), c_records (conf db)).
Lemma same_zone_source cur ls db db' : zone_tables db' = zone_tables db -> zone_source cur ls db' = zone_source cur ls db.
Proof.
  unfold zone_tables. intros [= H1 H2 H3 H4 H5 H6]. unfold zone_source, Services, Views, Records. rewrite H1, H2, H3, H6.
  assert (E : forall id, Service_ db' id = Service_ db id).
  { intros id. unfold Service_. rewrite H3. destruct (List.find _ _); [|done]. unfold load_service, Store.addresses, Store.aliases. by rewrite H4, H5. }
  assert (E' : forall ids, mapR (Service_ db') ids = mapR (Service_ db) ids) by (induction ids as [|id ids IH]; [done|]; cbn; by rewrite E, IH). by rewrite E'.
Qed.
Lemma same_tables_names cur db db' l l' : zone_tables db' = zone_tables db -> lv_leases l' = lv_leases l -> lv_zone l' = lv_zone l ->
  names_published cur db l -> names_published cur db' l'.
Proof. intros H E1 E2. unfold names_published. by rewrite (same_zone_source _ _ _ _ H), E1, E2. Qed.
Lemma live_zones s l : follows s l -> ZoneSuffix (lv_regzone l) = ZoneSuffix (a_zone (lv_auth l)).
Proof. intros []. congruence. Qed.
Lemma restore_settings now w : GetSettings (w_store (restore now w).1) = GetSettings (w_store w).
Proof. by unfold restore. Qed.
Lemma start_settings h l db : GetSettings (start_listener h l db).1 = GetSettings db.
Proof.
  unfold start_listener. pose proof (restore_settings (h_now h) (mkWorld (ln_alloc l) db ∅ [] 0)) as H.
  destruct (restore _ _) as [w [[]|e]]; [|done]. by destruct (h_bind h _).
Qed.
Lemma reconcile_settings h v role svcs svcs' r : GetSettings (rn_db (Reconcile h v role svcs svcs' r)) = GetSettings (rn_db r).
Proof.
  unfold Reconcile. destruct (runner_refresh_keeps svcs' (reconcile h v role (if dhcpWanted v role then svcs else Ok []) r)) as (_ & -> & _).
  unfold reconcile. destruct (negb _); [done|]. destruct (_ && _); [done|]. destruct (if dhcpWanted v role then _ else _) as [ss|]; [|done].
  destruct (build _ _ _ _) as [l|]; [|done]. pose proof (start_settings h (arm ss l) (rn_db (stopLocked r))) as H.
  by destruct (start_listener _ _ _) as [db [l'|e]].
Qed.
Lemma apply_row h role cur s db l : GetSettings (LiveApply h role cur s db l).1 = GetSettings db.
Proof.
  unfold LiveApply. cbn [fst]. unfold apply_monitors. cbn [lv_run]. destruct (follow_source_running (ss_Raw s)
    (Reconcile h (ss_Raw s) role (node_services db) (node_services db) (with_runner_db db (lv_run (apply_dns s (apply_zone s l)))))) as (_ & -> & _).
  by rewrite reconcile_settings.
Qed.
Lemma node_apply_in_step h role w n : in_step n -> row_ok (sw_db w) ->
  (exists s, sw_cur w = Some s /\ built s /\ no_space (PrivateDomain (ss_Raw s))) -> in_step (node_apply h role w n).
Proof.
  intros [(s0 & _ & _ & H0) _ Hr0 _] Hrow (s & Hs & Hb & Hd). unfold node_apply. rewrite Hs.
  destruct (apply_follows h role (sw_cur w) s (sw_db w) (nd_live n) Hd (live_zones _ _ H0) Hr0) as (Hf & Hr' & Hn).
  pose proof (apply_row h role (sw_cur w) s (sw_db w) (nd_live n)) as Hr. rewrite Hs in *.
  destruct (LiveApply _ _ _ _ _ _) as [db l]. cbn [fst snd] in *. split; [by exists s| |done|left; cbn; by rewrite Hs]. intros v Hv. apply Hrow. cbn in Hv, Hr. by rewrite <- Hr.
Qed.

(** What a save leaves in the row, in the holder and in the tables. *)
Lemma set_cases rep v confirm w : row_ok (sw_db w) ->
  let '(w', r) := Set_ rep v confirm w in
  row_ok (sw_db w') /\
  match r with
  | Err _ => sw_cur w' = sw_cur w /\ (sw_db w' = sw_db w \/ row_unusable (sw_db w'))
  | Ok _ => exists s, sw_cur w' = Some s /\ built s /\ no_space (PrivateDomain (ss_Raw s))
  end.
Proof.
  intros Hrow. destruct rep.
  - unfold Settings.Set_, setDHCPOnly. destruct (negb _); [by split; [|split; [|left]]|].
    destruct (SettingsValidate.ValidateWrite _ _ _ _ _ _ _) as [u|]; [|by split; [|split; [|left]]].
    unfold PutDHCPSettings, tx, putDHCPSettings. destruct (c_settings (conf (sw_db w))) as [row|] eqn:R; [|by split; [|split; [|left; destruct w]]].
    assert (Hd : no_space (PrivateDomain (with_dhcp row v))) by by apply (Hrow row).
    unfold Settings.SettingsRebuild, GetSettings. cbn [sw_db conf with_settings c_settings sw_next].
    destruct (Build (sw_next w) (with_dhcp row v)) as [s|e] eqn:B.
    + split; [by intros x [= <-]|]. exists s. split; [done|]. split; [by eapply Build_built|]. by rewrite (Build_raw _ _ _ _ _ B).
    + split; [by intros x [= <-]|]. split; [done|]. right. apply (unbuildable _ (sw_next w) e). exact B.
  - destruct (Set_ false v confirm w) as [w' [[]|e]] eqn:E.
    + apply primary_ok in E as (Hok & _ & s & B & Hs & Hg & _). pose proof (accepted_no_space v Hok) as Hd.
      split; [intros x; rewrite Hg; by intros [= <-]|]. exists s. split; [done|]. split; [by eapply Build_built|].
      by rewrite (Build_raw _ _ _ _ _ B).
    + assert (Hw : sw_db w' = sw_db w /\ sw_cur w' = sw_cur w); [|destruct Hw as [-> ->]; split; [done|]; split; [done|by left]].
      unfold Settings.Set_ in E. destruct (SettingsValidate.ValidateWrite _ _ _ _ _ _ _); [|by injection E as <- _].
      destruct (Build _ _) as [s|]; [|by injection E as <- _]. pose proof (persist_row (Settings.running w) (Canonicalize v) (sw_db w)) as P.
      destruct (persist _ _ _) as [db [x|e']]; [done|]. injection E as <- _. by rewrite P.
Qed.
(** A step that leaves the components alone. *)
Lemma idle_in_step n db : in_step n -> row_ok db -> (db = sw_db (nd_sw n) \/ row_unusable db) -> in_step (mkNode (with_sw_db db (nd_sw n)) (nd_live n) (nd_policy n)).
Proof.
  intros [H1 H2 H3 H4] Hrow Hdb. split; [done|done|done|]. cbn. destruct Hdb as [->|Hu]; [done|by right].
Qed.
Lemma node_set_in_step h role v confirm n : in_step n -> in_step (node_set h role v confirm n).1.
Proof.
  intros H. pose proof H as [_ Hrow _ _]. unfold node_set. pose proof (set_cases (bool_decide (role = RoleReplica)) v confirm (nd_sw n) Hrow) as C.
  destruct (Set_ _ v confirm (nd_sw n)) as [w [[]|e]]; destruct C as [C1 C2]; [by apply node_apply_in_step|]. destruct C2 as [C2 C3].
  pose proof (idle_in_step n (sw_db w) H C1 C3) as [(s & E & Hs) K2 K3 K4]. split; [exists s; cbn; by rewrite C2|done|done|]. cbn in *. by rewrite C2.
Qed.
Lemma applied_row i db : match GetSettings (ApplySnapshot i db).1 with
  | Some v => GetSettings db = Some v \/ PrivateDomain v = PrivateDomain (sn_Settings i) | None => True end.
Proof.
  assert (Hsame : match GetSettings db with Some v => GetSettings db = Some v \/ PrivateDomain v = PrivateDomain (sn_Settings i) | None => True end).
  { destruct (GetSettings db); [by left|done]. }
  unfold ApplySnapshot, tx, applySnapshot. destruct (replaceAll _ _ _ (conf db)) as [c|]; cbn [rbind]; [|exact Hsame].
  destruct (replaceBlacklistDefinitions _ _ _ _) as [c'|] eqn:E; cbn [rbind]; [|exact Hsame].
  unfold replaceBlacklistDefinitions, replace_rules in E. cbv zeta in E. apply rbind_ok in E as (c1 & E1 & E2%putRules_spec).
  destruct E2 as [[= _ _ Es _] _].
  assert (Hc1 : c_settings c1 = c_settings (putSettings (match c_settings c with Some old => keep_local old (sn_Settings i) | None => sn_Settings i end) c)).
  { revert E1. apply (foldR_inv (fun d => c_settings d = _)); [|done]. intros d l d' Hd _ H%replace_list_blset. congruence. }
  rename Hc1 into E1'.
  cbn [c_settings with_lists with_rules] in Es. unfold GetSettings. cbn [fst conf]. rewrite Es, E1'. cbn. right. by destruct (c_settings c).
Qed.
Lemma node_pull_in_step h doc n : (forall i, doc = Some i -> no_space (PrivateDomain (sn_Settings i))) -> in_step n -> in_step (node_pull h doc n).1.
Proof.
  intros Hdoc H. pose proof H as [_ Hrow _ _]. unfold node_pull. assert (Hsame : in_step (mkNode (with_sw_db (sw_db (nd_sw n)) (nd_sw n)) (nd_live n) (nd_policy n))) by (apply idle_in_step; auto).
  destruct (SnapshotApplier doc (sw_db (nd_sw n))) as [db [[]|e]] eqn:E.
  2: { unfold SnapshotApplier in E. destruct doc as [i|]; [|by injection E as <- _]. unfold ApplySnapshot, tx in E. destruct (applySnapshot _ _) as [[u c]|]; [done|]. by injection E as <- _. }
  assert (Hrow' : row_ok db).
  { unfold SnapshotApplier in E. destruct doc as [i|]; [|done]. specialize (Hdoc i eq_refl). pose proof (applied_row i (sw_db (nd_sw n))) as Ha.
    destruct (ApplySnapshot i (sw_db (nd_sw n))) as [db' r]. cbn [fst] in Ha. assert (db' = db) as -> by by destruct r as [[]|]; injection E.
    intros v Hv. rewrite Hv in Ha. destruct Ha as [Ha|Ha]; [by apply Hrow|by rewrite Ha]. }
  unfold Settings.SettingsRebuild. cbn [with_sw_db sw_db sw_next].
  destruct (GetSettings db) as [v|] eqn:G; [|apply (idle_in_step n db); [done..|right; unfold row_unusable; by rewrite G]].
  destruct (Build (sw_next (nd_sw n)) v) as [s|e] eqn:B; [|apply (idle_in_step n db); [done..|right; apply (unbuildable _ (sw_next (nd_sw n)) e); by rewrite G]].
  set (w := Settings.publish _ _ _). assert (Hn : in_step (node_apply h RoleReplica w n)).
  { apply node_apply_in_step; [done|done|]. exists s. split; [done|]. split; [by eapply Build_built|]. rewrite (Build_raw _ _ _ _ _ B). by apply Hrow'. }
  by destruct (Policy.Rebuild _ _) as [p [e|]]; destruct Hn; split.
Qed.

Lemma tx_settings {A} (f : Conf -> result store_error (A * Conf)) db : (forall c x, f c = Ok x -> c_settings x.2 = c_settings c) ->
  GetSettings (tx f db).1 = GetSettings db.
Proof. intros H. unfold tx. destruct (f (conf db)) as [[a c]|] eqn:E; [|done]. by apply H in E. Qed.
(** A registry write keeps the settings row and the followers, and either nothing was
    written or the names are published anew. *)
Definition reg_kept (cur : option SettingsSnapshot) (w w' : Registry.RegWorld Live) : Prop :=
  GetSettings (Registry.rg_db w') = GetSettings (Registry.rg_db w) /\ same_follow (Registry.rg_live w) (Registry.rg_live w') /\
  (names_published cur (Registry.rg_db w') (Registry.rg_live w') \/ Registry.rg_db w' = Registry.rg_db w /\ Registry.rg_live w' = Registry.rg_live w).
Lemma reg_kept_refl cur w : reg_kept cur w w.
Proof. split; [done|]. split; [apply same_follow_refl|by right]. Qed.
(** A write that fails changes nothing. *)
Definition settings_kept {A} (f : DB -> DB * result store_error A) (db : DB) : Prop :=
  GetSettings (f db).1 = GetSettings db /\ match (f db).2 with Ok _ => True | Err _ => (f db).1 = db end.
Lemma tx_kept {A} (f : Conf -> result store_error (A * Conf)) db : (forall c x, f c = Ok x -> c_settings x.2 = c_settings c) -> settings_kept (tx f) db.
Proof. intros H. split; [by apply tx_settings|]. unfold tx. by destruct (f (conf db)) as [[a c]|]. Qed.
Lemma reg_write_keeps {A} cur (f : DB -> DB * result store_error A) (w : Registry.RegWorld Live) : settings_kept f (Registry.rg_db w) ->
  let w' := (Registry.write (registry_changed cur) f w).1 in
  reg_kept cur w w'.
Proof.
  intros [H He]. cbv zeta. unfold Registry.write. destruct (f (Registry.rg_db w)) as [db [a|e]]; cbn in H, He; [|rewrite He; destruct w; apply reg_kept_refl].
  pose proof (registry_changed_keeps cur db (Registry.rg_live w)) as [K1 K2]. destruct (registry_changed cur db (Registry.rg_live w)) as [l e].
  split; [done|]. split; [done|by left].
Qed.
Lemma reg_exec_keeps cur op (w : Registry.RegWorld Live) : reg_kept cur w (reg_exec cur op w).
Proof.
  pose proof (reg_kept_refl cur w) as Hid.
  destruct op as [sv|id|r|id|v|n|vs ss rs]; cbn [reg_exec].
  - unfold Registry.RegPutService. destruct (Registry.checkService _ _ _) as [sv'|[e|e]]; [|exact Hid|exact Hid].
    apply reg_write_keeps, tx_kept. intros c x Hx%putService_rest. by destruct Hx as [[= _ _ _ ->] _].
  - apply reg_write_keeps, tx_kept. intros c x. unfold deleteService. by destruct (svc_ok c id); intros [= <-].
  - unfold Registry.RegPutRecord, Registry.validated. destruct (RegistryValidate.validateRecord _ _ _) as [r'|]; [|exact Hid].
    apply reg_write_keeps, tx_kept. intros c x. unfold putRecord. by destruct (view_ok c _); intros [= <-].
  - apply reg_write_keeps, tx_kept. intros c x. unfold deleteRecord. by destruct (bool_decide _); intros [= <-].
  - unfold Registry.RegPutView, Registry.validated. destruct (RegistryValidate.validateView v) as [v'|]; [|exact Hid].
    apply reg_write_keeps, tx_kept. intros c x Hx%putView_rest. by destruct Hx as [[= _ _ _ ->] _].
  - apply reg_write_keeps, tx_kept. intros c x. unfold deleteView. destruct (0 <? _); [done|]. by destruct (bool_decide _); intros [= <-].
  - unfold Registry.RegReplaceAll, Registry.validated. destruct (Registry.checkDocument _ _ _ _) as [[[vs' ss'] rs']|]; [|exact Hid].
    apply reg_write_keeps, tx_kept. intros c x (c' & Hc%replaceAll_rest & [= <-])%rbind_ok. destruct Hc as [[= _ _ _ Hc] _]. exact Hc.
Qed.
Definition event_ok (ev : node_event) : Prop := match ev with NPull _ (Some i) => no_space (PrivateDomain (sn_Settings i)) | _ => True end.
Lemma keep_in_step n l' db : in_step n -> same_follow (nd_live n) l' -> GetSettings db = GetSettings (sw_db (nd_sw n)) ->
  (names_published (sw_cur (nd_sw n)) db l' \/ zone_tables db = zone_tables (sw_db (nd_sw n)) /\ lv_leases l' = lv_leases (nd_live n) /\ lv_zone l' = lv_zone (nd_live n)) ->
  in_step (mkNode (with_sw_db db (nd_sw n)) l' (nd_policy n)).
Proof.
  intros [(s & Hs & Hb & Hf) Hrow Hr Hn] Hk Hg Hz. destruct (same_follow_follows _ _ _ Hk Hf Hr) as [F1 F2].
  split; [exists s; by do 2 (split; [done|])|intros v Hv; apply Hrow; by rewrite <- Hg|exact F2|]. cbn.
  destruct Hz as [Hz|(Z1 & Z2 & Z3)]; [by left|]. destruct Hn as [Hn|Hu]; [left; by eapply same_tables_names|right]. unfold row_unusable. by rewrite Hg.
Qed.
(** A step that moves only the forwarder, and keeps its list and the bounds of its cache. *)
Lemma fwd_in_step n f : in_step n -> fs_ups (f_state f) = fs_ups (f_state (node_fwd n)) ->
  (let c := f_cache (node_fwd n) in let c' := f_cache f in c_max c' = c_max c /\ c_minTTL c' = c_minTTL c /\ c_maxTTL c' = c_maxTTL c /\ c_negMaxTTL c' = c_negMaxTTL c) ->
  in_step (set_fwd f n).
Proof.
  intros H Hu Hc. destruct n as [sw l p]. pose proof (keep_in_step _ (with_fwd f l) (sw_db sw) H) as K. cbn [nd_sw nd_live nd_policy] in K.
  replace (with_sw_db (sw_db sw) sw) with sw in K by by destruct sw. apply K; [|done|by right].
  unfold same_follow. split; [done|]. split; [exact Hu|]. do 6 (split; [done|]). split; [exact Hc|by left].
Qed.
Lemma node_step_in_step n ev : event_ok ev -> in_step n -> in_step (node_step n ev).
Proof.
  intros Hev H. destruct ev as [h role v confirm|h doc|op|leases|]; cbn [node_step].
  - by apply node_set_in_step.
  - apply node_pull_in_step; [|done]. by intros i ->.
  - destruct (reg_exec_keeps (sw_cur (nd_sw n)) op (Registry.mkRegWorld (sw_db (nd_sw n)) (lv_regzone (nd_live n)) (nd_live n))) as (H1 & H2 & H3).
    apply keep_in_step; [done..|]. destruct H3 as [H3|[-> ->]]; [by left|by right].
  - replace (nd_sw n) with (with_sw_db (sw_db (nd_sw n)) (nd_sw n)) at 1 by by destruct (nd_sw n). apply keep_in_step; [done| |done|].
    + unfold same_follow. do 9 (split; [done|]). by left.
    + left. apply rebuilt_published.
  - by apply fwd_in_step.
Qed.
Lemma look_in_step now q do n : in_step n -> in_step (set_fwd (look now q do (node_fwd n)).1 n).
Proof. intros H. destruct (look_cache now q do (node_fwd n)) as [E1 E2]. apply fwd_in_step; [done|by rewrite E1|]. cbv zeta. rewrite E2. apply lookup_keeps. Qed.
Definition served_ok (ev : serve_event) : Prop := match ev with Change ev => event_ok ev | _ => True end.
Lemma serve_step_in_step w ev : served_ok ev -> in_step (sv_node w) -> in_step (sv_node (serve_step w ev)).
Proof.
  intros Hev H. destruct ev as [ev|now q do|id now q do|id|id exch clock now]; cbn [serve_step sv_node].
  - by apply node_step_in_step.
  - by apply look_in_step.
  - destruct (sv_waiting w !! id); [done|]. pose proof (look_in_step now q do _ H) as L. by destruct (look _ _ _ _) as [f hit].
  - by destruct (sv_waiting w !! id) as [[q do [st|]]|].
  - destruct (sv_waiting w !! id) as [[q do [st|]]|]; [|done..]. cbn [sv_node].
    destruct (answered_cases exch clock now q do st (node_fwd (sv_node w))) as [A1 A2]. apply fwd_in_step; [done|done|]. cbv zeta.
    destruct A2 as [->|(i & u & m & _ & _ & ->)]; [done|apply Put_keeps].
Qed.
Lemma serve_run_in_step evs w : Forall served_ok evs -> in_step (sv_node w) -> in_step (sv_node (serve_run evs w)).
Proof.
  revert w. induction evs as [|ev evs IH]; intros w Hok H; [done|]. apply Forall_cons in Hok as [H1 H2]. cbn. apply IH; [done|]. by apply serve_step_in_step.
Qed.

(** ** Boot *)
Lemma ensure_ok seed db db' v : (GetSettings db = None -> Forall one_line (Upstreams seed)) -> ensureSettings seed db = (db', Ok v) ->
  settings_ok v /\ GetSettings db' = Some v /\ (GetSettings db = Some v /\ db' = db \/ GetSettings db = None /\ v = Canonicalize seed).
Proof.
  intros Hl. unfold ensureSettings. destruct (GetSettings db) as [cur|] eqn:G.
  - destruct (ValidateStored cur) as [u|] eqn:V; [|done]. intros [= <- <-]. split; [|split; [done|by left]].
    apply (is_ok_ValidateStored url_Parse LookupPort IsDomainName SplitDomainName). by rewrite V.
  - destruct (ValidateStored seed) as [u|] eqn:V; [|done]. assert (Hok : settings_ok seed).
    { apply (is_ok_ValidateStored url_Parse LookupPort IsDomainName SplitDomainName). by rewrite V. }
    intros [= <- <-]. split; [by apply canonical_ok|]. split; [|by right].
    unfold GetSettings. cbn. f_equal. apply (stored_canonical url_Parse LookupPort IsDomainName SplitDomainName); [done|by apply Hl].
Qed.
Lemma put_list_settings l db : GetSettings (PutBlacklistList l db).1 = GetSettings db.
Proof.
  apply tx_settings. intros c x. unfold putBlacklistList, insert_list. repeat case_match; intros; by simplify_eq.
Qed.
Lemma seed_settings m db : GetSettings (PolicyService.SeedBuiltins m db).1 = GetSettings db.
Proof.
  unfold PolicyService.SeedBuiltins. destruct (PolicyService.BuiltinManifest m) as [m'|]; [|done].
  generalize (bl_Name <$> BlacklistListMetas db). intros known. revert db. induction (PolicyService.mf_Lists m') as [|b bs IH]; intros db; [done|].
  cbn [PolicyService.seed]. destruct (bool_decide _); [apply IH|]. pose proof (put_list_settings (PolicyService.of_builtin b) db) as H.
  destruct (PutBlacklistList _ db) as [db' [id|e]]; [|done]. by rewrite IH.
Qed.
Lemma no_space_fqdn_lower d : no_space d -> no_space (Fqdn (ToLower d)).
Proof. intros H. destruct (Fqdn_dot (ToLower d)) as [->| ->]; [|apply no_space_dot]; by apply no_space_lower. Qed.
Lemma reconcile_idle_source h v role svcs svcs' r : rn_running r = None -> rn_running (Reconcile h v role svcs svcs' r) = None ->
  rn_source (Reconcile h v role svcs svcs' r) = rn_source r.
Proof.
  intros Hr. unfold Reconcile. destruct (runner_refresh_keeps svcs' (reconcile h v role (if dhcpWanted v role then svcs else Ok []) r)) as (-> & _ & H).
  intros Hn. apply H in Hn. revert Hn. unfold reconcile. destruct (negb _); [cbn; by rewrite Hr|].
  rewrite bool_decide_eq_false_2 by (rewrite Hr; by intros [? ?]). cbn [andb]. destruct (if dhcpWanted v role then _ else _) as [ss|]; [|done].
  destruct (build _ _ _ _) as [l|]; [|done]. destruct (start_listener _ _ _) as [db [l'|e]]; [done|]. cbn. by rewrite Hr.
Qed.
(** What a boot touches of the tables the zone is made of: nothing. *)
Lemma start_conf h l db : conf (start_listener h l db).1 = conf db.
Proof.
  unfold start_listener. assert (H : conf (w_store (restore (h_now h) (mkWorld (ln_alloc l) db ∅ [] 0)).1) = conf db) by by unfold restore.
  destruct (restore _ _) as [w [[]|e]]; [|done]. by destruct (h_bind h _).
Qed.
Lemma reconcile_conf h v role svcs svcs' r : conf (rn_db (Reconcile h v role svcs svcs' r)) = conf (rn_db r).
Proof.
  unfold Reconcile. destruct (runner_refresh_keeps svcs' (reconcile h v role (if dhcpWanted v role then svcs else Ok []) r)) as (_ & -> & _).
  unfold reconcile. destruct (negb _); [done|]. destruct (_ && _); [done|]. destruct (if dhcpWanted v role then _ else _) as [ss|]; [|done].
  destruct (build _ _ _ _) as [l|]; [|done]. pose proof (start_conf h (arm ss l) (rn_db (stopLocked r))) as H.
  by destruct (start_listener _ _ _) as [db [l'|e]].
Qed.
Lemma same_conf_tables db db' : conf db' = conf db -> zone_tables db' = zone_tables db.
Proof. intros H. unfold zone_tables. by rewrite H. Qed.
Lemma put_list_tables l db : zone_tables (PutBlacklistList l db).1 = zone_tables db.
Proof.
  unfold PutBlacklistList, tx, putBlacklistList, insert_list. unfold zone_tables. repeat case_match; simplify_eq; done.
Qed.
Lemma seed_tables m db : zone_tables (PolicyService.SeedBuiltins m db).1 = zone_tables db.
Proof.
  unfold PolicyService.SeedBuiltins. destruct (PolicyService.BuiltinManifest m) as [m'|]; [|done].
  generalize (bl_Name <$> BlacklistListMetas db). intros known. revert db. induction (PolicyService.mf_Lists m') as [|b bs IH]; intros db; [done|].
  cbn [PolicyService.seed]. destruct (bool_decide _); [apply IH|]. pose proof (put_list_tables (PolicyService.of_builtin b) db) as H.
  destruct (PutBlacklistList _ db) as [db' [id|e]]; [|done]. by rewrite IH.
Qed.
Lemma empty_cache_wf a b d e : cache_wf (NewCache a b d e).
Proof.
  constructor; simpl; [constructor|by intros ? ?%not_elem_of_nil|]. intros k id. rewrite lookup_empty. split; [done|]. by intros (x & ?%not_elem_of_nil & _).
Qed.
(** The names that are opened are those of the tables. *)
Definition zone_opened (o : Opened) (db : DB) : Prop :=
  match zone_source (sw_cur (op_settings o)) [] db with
  | Err _ => True
  | Ok in_ => match Zone.Build (with_generation in_ (h_gen (op_zone o))) with Err _ => True | Ok z => ZoneHolder.Current (op_zone o) = Some z end
  end.
Definition opened_ok (o : Opened) (db : DB) : Prop :=
  settings_ok (op_boot o) /\ GetSettings db = Some (op_boot o) /\ (exists s, sw_cur (op_settings o) = Some s /\ built s /\ ss_Raw s = op_boot o) /\ zone_opened o db.
Lemma same_tables_opened o db db' : zone_tables db' = zone_tables db -> zone_opened o db -> zone_opened o db'.
Proof. intros H. unfold zone_opened. by rewrite (same_zone_source _ _ _ _ H). Qed.
Lemma boot_stores_ok m seed db db' o : (GetSettings db = None -> Forall one_line (Upstreams seed)) -> boot_stores m seed db = (db', Ok o) -> opened_ok o db'.
Proof.
  intros Hl. unfold boot_stores. destruct (ensureSettings seed db) as [db1 [v|e]] eqn:E; [|done]. apply ensure_ok in E as (Hok & Hg & _); [|done].
  unfold Settings.SettingsRebuild. cbn [sw_db sw_next]. rewrite Hg. destruct (Build 0 v) as [s|] eqn:B; [|done]. cbn [Settings.publish sw_cur].
  destruct (ZoneHolder.Rebuild _ _) as [z [e|]] eqn:R; [done|]. pose proof (seed_settings m db1) as Hs. pose proof (seed_tables m db1) as Ht.
  destruct (PolicyService.SeedBuiltins m db1) as [db2 [[]|e]]; [|done]. cbn [fst] in Hs, Ht. intros [= <- <-]. split; [done|]. split; [by rewrite Hs|]. split.
  - exists s. split; [done|]. split; [by eapply Build_built|by eapply Build_raw].
  - apply (same_tables_opened _ db1); [done|]. unfold zone_opened. cbn [op_settings op_zone Settings.publish sw_cur]. unfold ZoneHolder.Rebuild in R.
    destruct (zone_source (Some s) [] db1) as [in_|]; [|done]. cbv zeta in R. generalize dependent (u32w (h_gen holder0 + 1)). intros g.
    destruct (Zone.Build (with_generation in_ g)) as [x|e] eqn:Z; [|done]. intros [= <-]. cbn. by rewrite Z.
Qed.
Lemma booted_runner db src : (forall id, src <> Some (SrcBuiltin id)) -> runner_ok (NewRunner db src).
Proof. intros H. by constructor. Qed.
Lemma boot_runner h v role db now s zone : ss_Raw s = v -> let l := NewLive now v s zone db in
  let r := Reconcile h v role (node_services db) (node_services db) (lv_run l) in
  runner_ok r /\ match rn_running r with
  | Some x => dhcpWanted v RolePrimary = true /\ rn_source r = Some (SrcBuiltin (ln_id x)) /\ (rn_lastError r = None -> built_from v x)
  | None => rn_source r = lease_source v /\ (rn_lastError r = None -> dhcpWanted v RolePrimary = false)
  end.
Proof.
  intros Hs l r. assert (H0 : runner_ok (lv_run l)) by (apply booted_runner; intros id; by case_bool_decide).
  destruct (reconciled_follows h v role (node_services db) (node_services db) _ H0) as [H1 H2]. split; [done|]. fold r in H1, H2. unfold listener_follows in H2.
  destruct (rn_running r) as [x|] eqn:E; [done|]. split; [|done]. by apply reconcile_idle_source.
Qed.
Lemma boot_node_in_step h role now o db db' n : opened_ok o db -> boot_node h role now o db = (db', n) ->
  in_step n /\ sw_db (nd_sw n) = db' /\ c_order (f_cache (lv_fwd (nd_live n))) = [] /\ cache_wf (f_cache (lv_fwd (nd_live n))) /\
  GetSettings db' = Some (op_boot o) /\ ss_Raw <$> sw_cur (nd_sw n) = Some (op_boot o).
Proof.
  destruct o as [v w z p]. intros (Hok & Hg & (s & Hc & Hb & Hraw) & Hz). unfold zone_opened in Hz. cbn [op_boot op_settings op_zone] in *. unfold boot_node, op_snap. cbn [op_boot op_settings op_zone op_policy].
  rewrite Hc in *. cbn [default from_option]. intros [= <- <-]. rewrite Hraw.
  set (l := NewLive now v s z db). destruct (boot_runner h v role db now s z Hraw) as [R1 R2]. fold l in R1, R2.
  pose proof (reconcile_settings h v role (node_services db) (node_services db) (lv_run l)) as Hrg. pose proof (reconcile_conf h v role (node_services db) (node_services db) (lv_run l)) as Hrc.
  set (r := Reconcile h v role (node_services db) (node_services db) (lv_run l)) in *. change (rn_db (lv_run l)) with db in *. rewrite Hg in Hrg.
  pose proof (accepted_no_space v Hok) as Hd. pose proof (so_positive _ _ _ _ _ Hok) as Hp. unfold positives in Hp. rewrite !Forall_cons in Hp. cbn [snd] in Hp.
  split; [|split; [done|split; [done|split; [apply empty_cache_wf|split; [exact Hrg|cbn; by rewrite Hc; cbn; rewrite Hraw]]]]].
  split; [|intros x Hx; change (GetSettings (rn_db r) = Some x) in Hx; rewrite Hrg in Hx; by injection Hx as <-|exact R1|].
  - exists s. split; [done|]. split; [done|]. constructor; try reflexivity; rewrite ?Hraw; try reflexivity.
    + apply u32w_as.
    + cbn. rewrite zone_suffix_set; [|by apply no_space_fqdn_lower]. rewrite <- (zone_suffix_lower (PrivateDomain v)).
      apply zone_suffix_fqdn; [by apply no_space_lower|apply Fqdn_dot].
    + cbn. rewrite zone_suffix_normalize by by apply no_space_fqdn_lower. rewrite <- (zone_suffix_lower (PrivateDomain v)).
      apply zone_suffix_fqdn; [by apply no_space_lower|apply Fqdn_dot].
    + cbn. split; [lia|]. split_and!; apply u32w_as.
    + split; [eexists; split; [apply secs_as|reflexivity]|]. split; [apply secs_as|reflexivity].
    + eexists. split; [apply secs_as|reflexivity].
    + exact R2.
  - left. cbn [nd_sw nd_live with_sw_db sw_cur sw_db]. rewrite Hc. apply (same_tables_names _ db _ l); [by apply same_conf_tables|done|done|]. exact Hz.
Qed.
Lemma boot_in_step h role m now seed db db' n : (GetSettings db = None -> Forall one_line (Upstreams seed)) ->
  node_boot h role m now seed db = (db', Ok n) ->
  in_step n /\ sw_db (nd_sw n) = db' /\ c_order (f_cache (lv_fwd (nd_live n))) = [] /\ cache_wf (f_cache (lv_fwd (nd_live n))) /\
  exists v, GetSettings db' = Some v /\ settings_ok v /\ ss_Raw <$> sw_cur (nd_sw n) = Some v.
Proof.
  intros Hl. unfold node_boot. destruct (boot_stores m seed db) as [db1 [o|e]] eqn:E; [|done]. apply boot_stores_ok in E; [|done].
  destruct (boot_node h role now o db1) as [db2 n'] eqn:B. intros [= <- <-]. apply (boot_node_in_step _ _ _ _ _ _ _ E) in B as (Hi & Hd & Ho & Hw & Hg & Hr).
  repeat (split; [done|]). exists (op_boot o). split; [done|]. by split; [apply E|].
Qed.

(** the first boot decides.  What it stores is valid, and every later start on that
    database, whatever its configuration file says, boots with the same settings and
    writes nothing. *)
Theorem boots_again seed seed' db db' v :
  (GetSettings db = None -> Forall one_line (Upstreams seed)) -> ensureSettings seed db = (db', Ok v) ->
  settings_ok v /\ is_ok (Build 0 v) = true /\ ensureSettings seed' db' = (db', Ok v).
Proof.
  intros Hl (Hok & Hg & _)%ensure_ok; [|done]. split; [done|].
  split; [by apply (settings_ok_builds url_Parse LookupPort IsDomainName SplitDomainName)|]. unfold ensureSettings. rewrite Hg.
  apply (is_ok_ValidateStored url_Parse LookupPort IsDomainName SplitDomainName) in Hok. by destruct (ValidateStored v).
Qed.

(** ** A pull into a running node *)
Lemma replica_apply_db h cur s db l : (LiveApply h RoleReplica cur s db l).1 = db.
Proof.
  unfold LiveApply. cbn [fst]. unfold apply_monitors. cbn [lv_run].
  set (r0 := with_runner_db db _). destruct (follow_source_running (ss_Raw s) (Reconcile h (ss_Raw s) RoleReplica (node_services db) (node_services db) r0)) as (_ & -> & _).
  unfold Reconcile. destruct (runner_refresh_keeps (node_services db) (reconcile h (ss_Raw s) RoleReplica
    (if dhcpWanted (ss_Raw s) RoleReplica then node_services db else Ok []) r0)) as (_ & -> & _).
  unfold reconcile, dhcpWanted. by rewrite andb_false_r.
Qed.
Lemma replica_apply_rn h s db l : rn_db (lv_run (apply_monitors h RoleReplica s db (apply_dns s (apply_zone s l)))) = db.
Proof. exact (replica_apply_db h None s db l). Qed.
Lemma node_pull_db h doc n : let '(n', r) := node_pull h doc n in
  match r with
  | Ok _ => exists i, doc = Some i /\ ApplySnapshot i (sw_db (nd_sw n)) = (sw_db (nd_sw n'), Ok tt)
  | Err _ => sw_db (nd_sw n') = sw_db (nd_sw n) \/ exists i, doc = Some i /\ ApplySnapshot i (sw_db (nd_sw n)) = (sw_db (nd_sw n'), Ok tt)
  end.
Proof.
  unfold node_pull. destruct (SnapshotApplier doc (sw_db (nd_sw n))) as [db [[]|e]] eqn:E.
  2: { exact (@apply_err DB store_node store_node_laws doc _ _ _ E). }
  assert (Ha := @apply_ok DB store_node store_node_laws doc _ _ E). cbn [node_db store_node] in Ha.
  unfold Settings.SettingsRebuild. cbn [with_sw_db sw_db sw_next]. destruct (GetSettings db) as [v|]; [|by right]. destruct (Build _ v) as [s|]; [|by right].
  unfold node_apply. cbn [Settings.publish sw_cur sw_db]. pose proof (replica_apply_db h (Some s) s db (nd_live n)) as Hd.
  destruct (LiveApply _ _ _ _ _ _) as [db' l]. cbn [fst] in Hd. subst db'. by destruct (Policy.Rebuild _ _) as [p [e|]]; cbn; [right|].
Qed.
(** The node as the pull loop of [Replica] sees it. *)
Definition node_replica (h : Host) : ReplicaNode Node :=
  {| node_db n := sw_db (nd_sw n); with_db d n := mkNode (with_sw_db d (nd_sw n)) (nd_live n) (nd_policy n); Apply := node_pull h |}.
Lemma node_replica_laws h : @ReplicaNodeLaws Node (node_replica h).
Proof.
  constructor; [done| |].
  - intros doc n n' E. pose proof (node_pull_db h doc n) as H. cbn in E. by rewrite E in H.
  - intros doc n n' e E. pose proof (node_pull_db h doc n) as H. cbn in E. by rewrite E in H.
Qed.
(** a pull reaches everything that serves.  When the applier reports success the
    database is the document applied, the running settings are the row it left, every
    component follows them, the block policy is built from the new tables, the DHCP
    listener does not run, and the names are those of the new tables unless they are
    contradictory, when the old ones stay. *)
Theorem pull_reaches_what_serves h doc n n' : in_step n -> event_ok (NPull h doc) -> node_pull h doc n = (n', Ok tt) ->
  let db := sw_db (nd_sw n') in
  (exists i, doc = Some i /\ ApplySnapshot i (sw_db (nd_sw n)) = (db, Ok tt)) /\
  (exists s, sw_cur (nd_sw n') = Some s /\ GetSettings db = Some (ss_Raw s) /\ follows s (nd_live n') /\
     lv_zone (nd_live n') = (ZoneHolder.Rebuild (zone_source (Some s) (lv_leases (nd_live n)) db) (lv_zone (nd_live n))).1) /\
  Policy.cur (nd_policy n') = Some (Policy.Build (GetBlacklistSettings db) (BlacklistLists db) (BlacklistRules db)) /\
  rn_running (lv_run (nd_live n')) = None.
Proof.
  intros Hn Hev E. pose proof (node_pull_db h doc n) as Hd. rewrite E in Hd. split; [exact Hd|].
  destruct Hd as (i & -> & Ha). assert (Hs : in_step n') by (pose proof (node_pull_in_step h (Some i) n) as H; rewrite E in H; apply H; [by intros j [= <-]|done]).
  unfold node_pull, SnapshotApplier in E. rewrite Ha in E. unfold Settings.SettingsRebuild in E. cbn [with_sw_db sw_db sw_next] in E.
  destruct (GetSettings (sw_db (nd_sw n'))) as [v|] eqn:G; [|done]. destruct (Build (sw_next (nd_sw n)) v) as [s|] eqn:B; [|done].
  unfold node_apply in E. cbn [Settings.publish sw_cur sw_db] in E. pose proof (replica_apply_db h (Some s) s (sw_db (nd_sw n')) (nd_live n)) as Hdb.
  destruct (LiveApply h RoleReplica (Some s) s (sw_db (nd_sw n')) (nd_live n)) as [db' l] eqn:L. cbn [fst] in Hdb. subst db'.
  unfold Policy.Rebuild, policy_source in E. injection E as E.
  assert (Es : sw_cur (nd_sw n') = Some s) by by rewrite <- E. assert (El : nd_live n' = l) by by rewrite <- E.
  assert (Ep : Policy.cur (nd_policy n') = Some (Policy.Build (GetBlacklistSettings (sw_db (nd_sw n'))) (BlacklistLists (sw_db (nd_sw n')))
    (BlacklistRules (sw_db (nd_sw n'))))) by by rewrite <- E at 1.
  rewrite Es, El. split; [|split; [exact Ep|]].
  - exists s. split; [done|]. split; [by rewrite (Build_raw _ _ _ _ _ B)|]. destruct Hs as [(s' & Es' & _ & Hf) _].
    assert (s = s') as <- by congruence. rewrite El in Hf. split; [exact Hf|].
    apply (f_equal snd) in L. cbn [snd] in L. rewrite <- L. unfold LiveApply. cbn [snd]. rewrite (replica_apply_rn h s _ (nd_live n)).
    cbn [lv_zone rebuild_zone with_zone apply_monitors lv_leases].
    unfold apply_zone. by destruct (zoneChanged _ _).
  - apply (f_equal snd) in L. cbn [snd] in L. rewrite <- L. unfold LiveApply. cbn [snd rebuild_zone with_zone lv_run]. unfold apply_monitors. cbn [lv_run].
    rewrite (proj1 (follow_source_running _ _)). unfold Reconcile, dhcpWanted. rewrite andb_false_r.
    unfold reconcile, dhcpWanted. rewrite andb_false_r. done.
Qed.
End Node.

(** ** Concrete runs *)
(** Domain functions that accept a name without white space. *)
Definition ex_IsDomainName (s : string) : bool := negb (bool_decide (s = "")) && forallb (fun c => negb (is_space c)) (bytes s).
Lemma ex_domain_no_space d : validDomainName ex_IsDomainName ex_names.2 d = true -> no_space d.
Proof.
  unfold validDomainName. intros [[_ H]%andb_prop _]%andb_prop. unfold no_space. rewrite forallb_forall in H. apply Forall_forall. intros c Hc%list_elem_of_In.
  specialize (H c Hc). by destruct (is_space c).
Qed.
Lemma ex_no_space v : SettingsValidate.settings_ok ex_url_parse ex_lookup ex_IsDomainName ex_names.2 v -> no_space (PrivateDomain v).
Proof. intros [[H _] _ _ _ _ _ _ _ _]. by apply ex_domain_no_space. Qed.
Lemma ex_Fqdn_dot s : ex_Fqdn s = s \/ ex_Fqdn s = s +:+ ".".
Proof. unfold ex_Fqdn. destruct (HasSuffix s "."); [by left|by right]. Qed.
Definition ex_seed (ups : list string) : Settings := ex_settings ups ["192.168.0.0/16"].
Definition ex_builtins : PolicyService.Manifest := PolicyService.mkManifest 1 [].
Abbreviation ex_boot := (node_boot ex_url_parse ex_lookup ex_IsDomainName ex_names.2 ex_Fqdn ex_host RolePrimary ex_builtins 0).
Definition ex_answer (i : nat) (u : Upstream) (r : FReq) : result string (option Msg) := Ok (Some ex_msg).
Definition ex_asked (id : nat) : list serve_event := [QAsk id (seconds 10) DnsCache.ex_q false; QAcquire id].
Definition ex_answered (id : nat) : serve_event := QAnswer id ex_answer (fun _ => seconds 10) (seconds 10).
Definition ex_replaced : serve_event := Change (NSet ex_host RolePrimary (ex_seed ["1.1.1.1"]) "").
(** One query before the upstream is replaced, one across it and one after it. *)
Definition ex_history : list serve_event := ex_asked 1 ++ [ex_answered 1; ex_replaced] ++ ex_asked 2 ++ [ex_answered 2].
Definition ex_late_history : list serve_event := ex_asked 1 ++ [ex_replaced; ex_answered 1].
Definition ex_booted : Node := match (ex_boot (ex_seed ["9.9.9.9"]) db0).2 with Ok n => n | Err _ => mkNode ex_world (mkLive (NewACL []) (NewForwarder [] (NewCache 0 0 0 0))
  (NewAuthoritative ex_Fqdn "" 0 []) (false, false) "" (NewChecker 0 0 0) 0 (NewRunner db0 None) [] holder0 []) Policy.NewHolder end.
Definition ex_booted_db : DB := (ex_boot (ex_seed ["9.9.9.9"]) db0).1.
Lemma ex_booted_ok : ex_boot (ex_seed ["9.9.9.9"]) db0 = (ex_booted_db, Ok ex_booted).
Proof.
  unfold ex_booted_db, ex_booted. destruct (ex_boot (ex_seed ["9.9.9.9"]) db0) as [db [n|e]] eqn:E; [done|].
  apply (f_equal (fun x => is_ok x.2)) in E. vm_compute in E. discriminate E.
Qed.
Lemma ex_seed_lines : GetSettings db0 = None -> Forall one_line (Upstreams (ex_seed ["9.9.9.9"])).
Proof. intros _. constructor; [|constructor]. unfold one_line. apply (bool_decide_unpack _). by vm_compute. Qed.
Lemma ex_history_ok : Forall served_ok ex_history.
Proof. by repeat constructor. Qed.
Definition ex_serve (evs : list serve_event) : Node :=
  sv_node (serve_run ex_url_parse ex_lookup ex_IsDomainName ex_names.2 ex_Fqdn ex_rcode evs (serving ex_booted)).
Abbreviation ex_ensure := (ensureSettings ex_url_parse ex_lookup ex_IsDomainName ex_names.2).
Lemma boots_again_witness : exists db' v, ex_ensure (ex_seed ["9.9.9.9"]) db0 = (db', Ok v) /\ ex_ensure (ex_seed ["tls://1.1.1.1"]) db' = (db', Ok v).
Proof.
  destruct (ex_ensure (ex_seed ["9.9.9.9"]) db0) as [db' r] eqn:E. destruct r as [v|e].
  - exists db', v. split; [reflexivity|].
    exact (proj2 (proj2 (boots_again ex_url_parse ex_lookup ex_IsDomainName ex_names.2 (ex_seed ["9.9.9.9"]) (ex_seed ["tls://1.1.1.1"]) db0 db' v ex_seed_lines E))).
  - apply (f_equal (fun x => is_ok x.2)) in E. vm_compute in E. discriminate E.
Defined.
Abbreviation ex_pull := (node_pull ex_url_parse ex_lookup ex_Fqdn ex_host (Some ex_snapshot)).
Lemma pull_reaches_what_serves_witness :
  exists n', ex_pull ex_booted = (n', Ok tt) /\ exists s, sw_cur (nd_sw n') = Some s /\ GetSettings (sw_db (nd_sw n')) = Some (ss_Raw s).
Proof.
  destruct (ex_pull ex_booted) as [n' r] eqn:E. assert (Er : r = Ok tt) by (apply (f_equal snd) in E; vm_compute in E; exact (eq_sym E)). subst r.
  assert (Hn : in_step ex_url_parse ex_lookup ex_Fqdn ex_booted).
  { destruct (boot_in_step ex_url_parse ex_lookup ex_IsDomainName ex_names.2 ex_Fqdn ex_Fqdn_dot ex_no_space ex_host RolePrimary ex_builtins 0
      (ex_seed ["9.9.9.9"]) db0 ex_booted_db ex_booted ex_seed_lines ex_booted_ok) as [H _]. exact H. }
  assert (He : event_ok (NPull ex_host (Some ex_snapshot))) by constructor.
  destruct (pull_reaches_what_serves ex_url_parse ex_lookup ex_Fqdn ex_Fqdn_dot ex_host (Some ex_snapshot) ex_booted n' Hn He E) as (_ & (s & Hs & Hg & _) & _).
  exists n'. split; [reflexivity|]. exists s. split; [exact Hs|exact Hg].
Defined.
(** A TTL that is accepted and stored is truncated to 32 bits where it is served: 2^32
    seconds are served as zero. *)
Lemma accepted_ttl_truncated :
  let v := mkSettings "home.lan" [] ["9.9.9.9"] ["10.0.0.0/8"] false (2 ^ 32) 30 3600 60 1000 false false "" 60 30 5 8 false "" "" "" "" 0 "" false in
  is_ok (SettingsValidate.ValidateStored ex_url_parse ex_lookup ex_IsDomainName ex_names.2 v) = true /\
  forall s l, ss_Raw s = v -> follows s l -> a_ttl (lv_auth l) = 0.
Proof. intros v. split; [by vm_compute|]. intros s l E []. rewrite E in fl_ttl0. cbn in fl_ttl0. destruct fl_ttl0 as [[? _]|[_ ->]]; [lia|done]. Qed.
(** An interval that is accepted can overflow the duration it is converted to: ten
    billion seconds between health checks become one millisecond. *)
Lemma accepted_interval_spins :
  let v := mkSettings "home.lan" [] ["9.9.9.9"] ["10.0.0.0/8"] false 300 30 3600 60 1000 false false "" 60 10000000000 5 8 false "" "" "" "" 0 "" false in
  is_ok (SettingsValidate.ValidateStored ex_url_parse ex_lookup ex_IsDomainName ex_names.2 v) = true /\
  forall s l, ss_Raw s = v -> follows s l -> hc_interval (lv_checker l) = 1000000.
Proof.
  intros v. split; [by vm_compute|]. intros s l E []. destruct fl_health0 as [(d & Hd & ->) _]. rewrite E in Hd. cbn in Hd.
  unfold as_duration, nanos_per_sec in Hd. destruct Hd as [[? _]|[_ ->]]; [lia|done].
Qed.
