(* ===== verification/LiveCache.v ===== *)
(** * Where cached answers come from: [Resolve] while [apply.go] replaces the upstreams

    Every answer in the forwarder's cache traced back through the history of the node:
    the query it replies to, the upstream that gave it, and the settings that named
    that upstream when the query took its list.  A save or a pull that changes the
    upstreams empties the cache, so what it holds was put there since; a query that was
    waiting across the change puts its answer back all the same. *)
From S2P Require Import Prelude GoStr PolicyName Policy PolicyService RegistryValidate Registry.
From S2P Require Import NetIP Model Zone ZoneHolder Store StoreNode DnsMsg DnsMetrics DnsCache DnsAuth DnsForward Upstream.
From S2P Require Import SettingsValidate Settings Ticker Health DhcpServer ReplicaSync Replica Role DhcpRunner Live.

Section Cache.
Context (url_Parse : string -> option ParsedURL) (LookupPort : string -> option Z).
Context (IsDomainName : string -> bool) (SplitDomainName : string -> list string).
Context (Fqdn : string -> string) (RcodeToString : Z -> string).
Abbreviation Build := (Build url_Parse LookupPort).
Abbreviation Set_ := (Set_ url_Parse LookupPort IsDomainName SplitDomainName).
Abbreviation SettingsRebuild := (SettingsRebuild url_Parse LookupPort).
Abbreviation settings_ok := (settings_ok url_Parse LookupPort IsDomainName SplitDomainName).
Abbreviation in_step := (in_step url_Parse LookupPort Fqdn).
Abbreviation LiveApply := (LiveApply Fqdn).
Abbreviation node_step := (node_step url_Parse LookupPort IsDomainName SplitDomainName Fqdn).
Abbreviation node_apply := (node_apply Fqdn).
Abbreviation reg_exec := (reg_exec Fqdn).
Abbreviation registry_changed := (registry_changed Fqdn).
Abbreviation serve_step := (serve_step url_Parse LookupPort IsDomainName SplitDomainName Fqdn RcodeToString).
Abbreviation serve_run := (serve_run url_Parse LookupPort IsDomainName SplitDomainName Fqdn RcodeToString).
Hypothesis Fqdn_dot : forall s, Fqdn s = s \/ Fqdn s = s +:+ ".".
Hypothesis accepted_no_space : forall v, settings_ok v -> no_space (PrivateDomain v).

(** ** A cached answer's past *)
Definition running_upstreams (n : Node) : option (list string) := (fun s => Upstreams (ss_Raw s)) <$> sw_cur (nd_sw n).
Definition upstreams_at (n : Node) (evs : list serve_event) : option (list string) := running_upstreams (sv_node (serve_run evs (serving n))).
(** The entry is the answer of [u] to a query of the history.  The settings named [u]
    when the query took its list; the settings name the same upstreams from the moment
    the answer was cached; and if they do not name [u] now, they were replaced while the
    query was waiting for it. *)
Definition accounted (n : Node) (evs : list serve_event) (e : cacheEntry) : Prop :=
  exists pre mid post id now0 now q do exch clock i u m listed,
    evs = pre ++ QAcquire id :: mid ++ QAnswer id exch clock now :: post /\ QAsk id now0 q do ∈ pre /\
    upstreams_at n pre = Some listed /\ u_spec u ∈ listed /\
    exch i u (request Fqdn q do) = Ok (Some m) /\ e_key e = keyFor Fqdn q do /\ e_msg e = map_sections (norm_rr (e_ttl e)) (strip u m) /\
    (forall post', post' `prefix_of` post -> upstreams_at n (pre ++ QAcquire id :: mid ++ QAnswer id exch clock now :: post') = upstreams_at n evs) /\
    (upstreams_at n evs = Some listed \/ exists mid', mid' `prefix_of` mid /\ upstreams_at n (pre ++ QAcquire id :: mid') <> Some listed).

(** ** The cache through a change *)
Lemma flush_wf c : cache_wf c -> cache_wf (Flush c).
Proof.
  intros _. constructor; simpl; [constructor|by intros ? ?%not_elem_of_nil|]. intros k id. rewrite lookup_empty. split; [done|]. by intros (x & ?%not_elem_of_nil & _).
Qed.
Definition fanned_cache (h : Host) (role : Role) (cur : option SettingsSnapshot) (s : SettingsSnapshot) (db : DB) (l : Live) : Cache :=
  f_cache (lv_fwd (LiveApply h role cur s db l).2).
(** The cache is emptied when the zone or the upstream list changed and otherwise keeps
    its newest entries, as many as the new limit allows. *)
Lemma apply_cache_exactly h role cur s db l : cache_wf (f_cache (lv_fwd l)) ->
  let v := ss_Raw s in
  c_order (fanned_cache h role cur s db l) =
    if zoneChanged (a_zone (lv_auth l)) (PrivateDomain v) || negb (bool_decide (lv_prev l = Upstreams v)) then []
    else take (Z.to_nat (Z.max 1 (CacheEntries v))) (c_order (f_cache (lv_fwd l))).
Proof.
  intros Hw. unfold fanned_cache, LiveApply. cbn -[Retune]. unfold Retune.
  set (c := flushOnUpstreamChange _ _ _). assert (Hc : cache_wf c /\ c_order c =
    if zoneChanged (a_zone (lv_auth l)) (PrivateDomain (ss_Raw s)) || negb (bool_decide (lv_prev l = Upstreams (ss_Raw s))) then [] else c_order (f_cache (lv_fwd l))).
  { unfold c, apply_zone, flushOnUpstreamChange. destruct (zoneChanged _ _); cbn -[Flush]; destruct (bool_decide _); cbn -[Flush]; (split; [by repeat apply flush_wf|done]). }
  destruct Hc as [Hc1 Hc2]. rewrite evict_order; cbn; [|constructor; apply Hc1|destruct (Z.ltb_spec (CacheEntries (ss_Raw s)) 1); lia|lia].
  rewrite Hc2. destruct (_ || _); [by rewrite take_nil|]. do 2 f_equal. destruct (Z.ltb_spec (CacheEntries (ss_Raw s)) 1); lia.
Qed.
Lemma build_specs n v s : Build n v = Ok s -> u_spec <$> ss_Upstreams s = Upstreams v.
Proof.
  unfold Settings.Build. intros (a & _ & H)%rbind_ok. apply rbind_ok in H as (r & _ & H).
  destruct (NewAll url_Parse LookupPort n (Upstreams v)) as [ups|] eqn:E; [|done]. injection H as <-. cbn [ss_Upstreams].
  unfold NewAll, ParseAll in E. apply rbind_ok in E as (specs & Hs & [= <-]). apply mapR_ok in Hs.
  revert n. induction Hs as [|raw sp raws sps Hp Hs IH]; intros n; [done|]. cbn. f_equal; [by apply upstream_dials_literal_raw in Hp|].
  rewrite <- (IH (n + 1)). f_equal. apply imap_ext. intros i x _. unfold compose. f_equal. lia.
Qed.
Lemma apply_wf h role cur s db l : cache_wf (f_cache (lv_fwd l)) -> cache_wf (fanned_cache h role cur s db l).
Proof.
  intros Hw. unfold fanned_cache, LiveApply. cbn -[Retune]. unfold Retune. set (c := flushOnUpstreamChange _ _ _).
  assert (Hc : cache_wf c).
  { unfold c, apply_zone, flushOnUpstreamChange. destruct (zoneChanged _ _); cbn -[Flush]; destruct (bool_decide _); cbn -[Flush]; by repeat apply flush_wf. }
  apply evict_spec; [constructor; apply Hc|cbn; destruct (Z.ltb_spec (CacheEntries (ss_Raw s)) 1); lia|done].
Qed.

Lemma in_step_upstreams n : in_step n -> running_upstreams n = Some (lv_prev (nd_live n)) /\ u_spec <$> fs_ups (f_state (node_fwd n)) = lv_prev (nd_live n) /\ 0 <= c_max (f_cache (node_fwd n)).
Proof.
  intros [(s & Hs & [k Hb] & Hf) _ _ _]. unfold running_upstreams, node_fwd. rewrite Hs. cbn. rewrite (fl_prev _ _ Hf). split; [done|].
  rewrite (fl_ups _ _ Hf), (build_specs _ _ _ Hb). split; [done|]. destruct (fl_cache _ _ Hf) as [-> _]. lia.
Qed.
(** What one change of the node does to the cache: it empties it, or only drops entries
    and leaves the upstreams alone. *)
Definition cache_kept (n n' : Node) : Prop :=
  cache_wf (f_cache (node_fwd n')) /\
  (c_order (f_cache (node_fwd n')) = [] \/ (forall x, x ∈ c_order (f_cache (node_fwd n')) -> x ∈ c_order (f_cache (node_fwd n))) /\ running_upstreams n' = running_upstreams n).
Lemma cache_kept_same n n' : cache_wf (f_cache (node_fwd n)) -> node_fwd n' = node_fwd n -> running_upstreams n' = running_upstreams n -> cache_kept n n'.
Proof. intros Hw E1 E2. split; [by rewrite E1|]. right. by rewrite E1. Qed.
Lemma node_apply_cache h role w n : in_step n -> cache_wf (f_cache (node_fwd n)) -> is_Some (sw_cur w) -> cache_kept n (node_apply h role w n).
Proof.
  intros Hn Hw [s Hs]. apply in_step_upstreams in Hn as (Hp & _). unfold Live.node_apply. rewrite Hs.
  pose proof (apply_cache_exactly h role (Some s) s (sw_db w) (nd_live n) Hw) as He. pose proof (apply_wf h role (Some s) s (sw_db w) (nd_live n) Hw) as Hw'.
  unfold fanned_cache in *. cbv zeta in He. destruct (LiveApply h role (Some s) s (sw_db w) (nd_live n)) as [db l]. cbn [snd] in *.
  unfold cache_kept, node_fwd, running_upstreams in *. cbn [nd_live nd_sw with_sw_db sw_cur]. split; [done|]. rewrite He, Hp, Hs.
  destruct (zoneChanged _ _); cbn [orb]; [by left|]. destruct (bool_decide_reflect (lv_prev (nd_live n) = Upstreams (ss_Raw s))) as [->|]; cbn [negb]; [|by left].
  right. split; [|done]. intros x (i & H & _)%elem_of_take. by eapply list_elem_of_lookup_2.
Qed.
Lemma reg_write_cache {A} cur (f : DB -> DB * result store_error A) (w : Registry.RegWorld Live) : let w' := (Registry.write (registry_changed cur) f w).1 in
  lv_fwd (Registry.rg_live w') = lv_fwd (Registry.rg_live w).
Proof.
  cbv zeta. unfold Registry.write. destruct (f (Registry.rg_db w)) as [db [a|e]]; [|done]. unfold registry_changed. by destruct (ZoneHolder.Rebuild _ _) as [z e].
Qed.
Lemma reg_exec_cache cur op w : lv_fwd (Registry.rg_live (reg_exec cur op w)) = lv_fwd (Registry.rg_live w).
Proof.
  destruct op as [sv|id|r|id|v|nm|vs ss rs]; cbn [reg_exec]; try apply reg_write_cache.
  - unfold Registry.RegPutService. destruct (Registry.checkService _ _ _) as [sv'|[e|e]]; [apply reg_write_cache|done|done].
  - unfold Registry.RegPutRecord, Registry.validated. destruct (RegistryValidate.validateRecord _ _ _); [apply reg_write_cache|done].
  - unfold Registry.RegPutView, Registry.validated. destruct (RegistryValidate.validateView v); [apply reg_write_cache|done].
  - unfold Registry.RegReplaceAll, Registry.validated. destruct (Registry.checkDocument _ _ _ _); [apply reg_write_cache|done].
Qed.

Lemma node_step_cache n ev : in_step n -> cache_wf (f_cache (node_fwd n)) -> cache_kept n (node_step n ev).
Proof.
  intros Hs Hw. destruct ev as [h role v confirm|h doc|op|leases|]; cbn [Live.node_step].
  - unfold node_set. pose proof (set_cases url_Parse LookupPort IsDomainName SplitDomainName accepted_no_space (bool_decide (role = RoleReplica)) v confirm (nd_sw n) (is_row _ _ _ _ Hs)) as C.
    destruct (Set_ _ v confirm (nd_sw n)) as [w [[]|e]]; destruct C as [_ C].
    + destruct C as (s & C & _). apply node_apply_cache; [done..|by rewrite C].
    + destruct C as [C _]. apply cache_kept_same; [done..|]. unfold running_upstreams. cbn. by rewrite C.
  - unfold node_pull. destruct (SnapshotApplier _ _) as [db [[]|e]]; [|by apply cache_kept_same].
    unfold Settings.SettingsRebuild. cbn [with_sw_db sw_db sw_next]. destruct (GetSettings db) as [v|]; [|by apply cache_kept_same].
    destruct (Build (sw_next (nd_sw n)) v) as [s|e]; [|by apply cache_kept_same]. set (w := Settings.publish _ _ _).
    assert (Hn : cache_kept n (node_apply h RoleReplica w n)) by (apply node_apply_cache; [done..|by eexists]).
    by destruct (Policy.Rebuild _ _) as [p [e|]].
  - apply cache_kept_same; [done| |done]. unfold node_fwd. cbn [nd_live]. by rewrite reg_exec_cache.
  - by apply cache_kept_same.
  - split; [by apply flush_wf|by left].
Qed.

(** ** The history *)
Lemma upstreams_at_snoc n evs ev : upstreams_at n (evs ++ [ev]) = running_upstreams (sv_node (serve_step (serve_run evs (serving n)) ev)).
Proof. unfold upstreams_at, Live.serve_run. by rewrite foldl_app. Qed.
(** A step that is not a change keeps the running settings. *)
Lemma query_keeps_settings w ev : (forall c, ev <> Change c) -> running_upstreams (sv_node (serve_step w ev)) = running_upstreams (sv_node w).
Proof.
  intros H. destruct ev as [c|now q do|id now q do|id|id exch clock now]; cbn [Live.serve_step]; [by destruct (H c)|done|..].
  - destruct (sv_waiting w !! id); [done|]. by destruct (look _ _ _ _ _) as [f hit].
  - by destruct (sv_waiting w !! id) as [[q do [st|]]|].
  - by destruct (sv_waiting w !! id) as [[q do [st|]]|].
Qed.
Lemma accounted_snoc n evs ev e : accounted n evs e -> upstreams_at n (evs ++ [ev]) = upstreams_at n evs -> accounted n (evs ++ [ev]) e.
Proof.
  intros (pre & mid & post & id & now0 & now & q & do & exch & clock & i & u & m & listed & E & H1 & H2 & H3 & H4 & H5 & H6 & H7 & H8) Hu.
  exists pre, mid, (post ++ [ev]), id, now0, now, q, do, exch, clock, i, u, m, listed. split; [rewrite E; by repeat (rewrite <- app_assoc; cbn)|].
  do 6 (split; [done|]). rewrite Hu. split; [|done]. intros post' [k Hk]. destruct k as [|x k _] using rev_ind.
  - rewrite app_nil_r in Hk. rewrite <- Hk, <- Hu. f_equal. rewrite E. by repeat (rewrite <- app_assoc; cbn).
  - rewrite app_assoc in Hk. apply app_inj_tail in Hk as [-> ->]. apply H7. by eexists.
Qed.
(** What is known of a query that waits. *)
Definition waits (n : Node) (evs : list serve_event) (id : nat) (q : Waiting) : Prop :=
  match wq_state q with
  | None => exists now0, QAsk id now0 (wq_question q) (wq_do q) ∈ evs
  | Some taken => exists pre mid now0 listed, evs = pre ++ QAcquire id :: mid /\ QAsk id now0 (wq_question q) (wq_do q) ∈ pre /\
      upstreams_at n pre = Some listed /\ u_spec <$> fs_ups taken = listed
  end.
Lemma waits_snoc n evs ev id q : waits n evs id q -> waits n (evs ++ [ev]) id q.
Proof.
  unfold waits. destruct (wq_state q) as [taken|].
  - intros (pre & mid & now0 & listed & -> & H). exists pre, (mid ++ [ev]), now0, listed. split; [by rewrite <- app_assoc|done].
  - intros [now0 H]. exists now0. apply elem_of_app. by left.
Qed.
Record cache_inv (n : Node) (evs : list serve_event) (w : Serving) : Prop := {
  ci_wf : cache_wf (f_cache (node_fwd (sv_node w)));
  ci_entries : forall x, x ∈ c_order (f_cache (node_fwd (sv_node w))) -> accounted n evs x.2;
  ci_waiting : forall id q, sv_waiting w !! id = Some q -> waits n evs id q }.
(** Entries stay accounted for when the cache shrinks and the settings stay. *)
Lemma kept_inv n evs ev w w' : w = serve_run evs (serving n) -> w' = serve_step w ev -> cache_inv n evs w -> cache_kept (sv_node w) (sv_node w') ->
  (forall id q, sv_waiting w' !! id = Some q -> waits n (evs ++ [ev]) id q) -> cache_inv n (evs ++ [ev]) w'.
Proof.
  intros Ew Ew' [H1 H2 H3] [K1 K2] Hq. split; [done| |done]. intros x Hx. destruct K2 as [K2|[K2 K3]]; [rewrite K2 in Hx; by apply not_elem_of_nil in Hx|].
  apply accounted_snoc; [by apply H2, K2|]. rewrite upstreams_at_snoc, <- Ew, <- Ew', K3. unfold upstreams_at. by rewrite <- Ew.
Qed.
Lemma look_kept now q do n : cache_wf (f_cache (node_fwd n)) -> cache_kept n (set_fwd (look Fqdn now q do (node_fwd n)).1 n).
Proof.
  intros Hw. destruct (look_cache Fqdn now q do (node_fwd n)) as [_ E]. destruct (lookup_wf Fqdn now q do _ Hw) as (W1 & _ & _ & I1).
  split; unfold node_fwd in *; cbn [set_fwd nd_live with_fwd lv_fwd] in *; rewrite E; [done|]. by right.
Qed.
(** The answer that arrives is accounted for. *)
Lemma answer_inv n evs id exch clock now w q do taken : w = serve_run evs (serving n) -> in_step (sv_node w) -> cache_inv n evs w ->
  sv_waiting w !! id = Some (mkWaiting q do (Some taken)) -> cache_inv n (evs ++ [QAnswer id exch clock now]) (serve_step w (QAnswer id exch clock now)).
Proof.
  intros Ew Hs H E. pose proof H as [Hw Hx Hq]. assert (Hu : upstreams_at n (evs ++ [QAnswer id exch clock now]) = upstreams_at n evs).
  { rewrite upstreams_at_snoc, query_keeps_settings by done. unfold upstreams_at. by rewrite <- Ew. }
  pose proof (Hq _ _ E) as (pre & mid & now0 & listed & He & Ha & Hl & Ht). cbn [wq_question wq_do] in *. apply in_step_upstreams in Hs as (_ & _ & Hmax).
  cbn [Live.serve_step]. rewrite E. assert (Hwait : forall id' q', delete id (sv_waiting w) !! id' = Some q' -> waits n (evs ++ [QAnswer id exch clock now]) id' q').
  { intros id' q' [_ D]%lookup_delete_Some. by apply waits_snoc, Hq. }
  assert (Hold : forall x, x ∈ c_order (f_cache (node_fwd (sv_node w))) -> accounted n (evs ++ [QAnswer id exch clock now]) x.2) by (intros x X; by apply accounted_snoc; [apply Hx|]).
  destruct (answered_cases Fqdn RcodeToString exch clock now q do taken (node_fwd (sv_node w))) as [_ A]. set (f' := answered _ _ _ _ _ _ _ _ _) in *.
  change (node_fwd (sv_node (mkServing (set_fwd f' (sv_node w)) (delete id (sv_waiting w))))) with f'.
  destruct A as [A|(i & u & m & Hi & Hm & A)]; [by split; cbn [sv_node sv_waiting]; [change (cache_wf (f_cache f')); rewrite A|change (forall x, x ∈ c_order (f_cache f') -> accounted n (evs ++ [QAnswer id exch clock now]) x.2); rewrite A|]|].
  set (c := f_cache (node_fwd (sv_node w))) in *. destruct (decide (ttlFor c (strip u m) = 0)) as [Z|Z].
  { assert (A' : f_cache f' = c) by (rewrite A; unfold Put; by rewrite Z).
    by split; cbn [sv_node sv_waiting]; [change (cache_wf (f_cache f')); rewrite A'|change (forall x, x ∈ c_order (f_cache f') -> accounted n (evs ++ [QAnswer id exch clock now]) x.2); rewrite A'|]. }
  destruct (Put_step Fqdn now q do (strip u m) c Hw Z) as (c1 & Hw1 & Hm1 & Hp & id1 & o & Eo & Ho). rewrite Hp in A.
  assert (Hm0 : 0 <= c_max c1) by by rewrite Hm1. split; cbn [sv_node sv_waiting]; [|intros x X|exact Hwait].
  - change (cache_wf (f_cache f')). rewrite A. by apply evict_spec.
  - change (x ∈ c_order (f_cache f')) in X. rewrite A in X. apply (evict_spec (length (c_order c1))) in X; [|done|done|done].
    rewrite Eo in X. apply elem_of_cons in X as [->|X]; [|apply Hold; rewrite Ho in X; by apply list_elem_of_filter in X as [_ X]].
    exists pre, mid, [], id, now0, now, q, do, exch, clock, i, u, m, listed. split; [rewrite He; by rewrite <- app_assoc|]. do 2 (split; [done|]).
    split; [rewrite <- Ht; apply list_elem_of_fmap_2; by eapply list_elem_of_lookup_2|]. do 3 (split; [done|]). split.
    + intros post' ->%prefix_nil_inv. f_equal. rewrite He. by rewrite <- app_assoc.
    + rewrite Hu. destruct (decide (upstreams_at n evs = Some listed)) as [|N]; [by left|]. right. exists mid. split; [done|]. by rewrite <- He.
Qed.
Lemma serve_step_inv n evs ev w : w = serve_run evs (serving n) -> in_step (sv_node w) -> cache_inv n evs w -> cache_inv n (evs ++ [ev]) (serve_step w ev).
Proof.
  intros Ew Hs H. pose proof H as [Hw _ Hq]. assert (Hq' : forall id q, sv_waiting w !! id = Some q -> waits n (evs ++ [ev]) id q) by (intros id q E; by apply waits_snoc, Hq).
  assert (Same : serve_step w ev = w -> cache_inv n (evs ++ [ev]) (serve_step w ev)) by (intros E; apply (kept_inv n evs ev w); [done..|rewrite E; by apply cache_kept_same|by rewrite E]).
  destruct ev as [c|now q do|id now q do|id|id exch clock now].
  - apply (kept_inv n evs _ w); [done..|by apply node_step_cache|done].
  - apply (kept_inv n evs _ w); [done..|by apply look_kept|done].
  - destruct (sv_waiting w !! id) eqn:E; [apply Same; cbn; by rewrite E|]. apply (kept_inv n evs _ w); [done..| |]; cbn [Live.serve_step]; rewrite E;
      pose proof (look_kept now q do (sv_node w) Hw) as L; destruct (look _ _ _ _ _) as [f hit]; [exact L|]. cbn [sv_waiting].
    destruct hit as [m|]; [done|]. intros id' q'. destruct (decide (id' = id)) as [->|N]; [rewrite lookup_insert_eq|rewrite lookup_insert_ne by done; by apply Hq'].
    intros [= <-]. exists now. apply elem_of_app. right. by left.
  - destruct (sv_waiting w !! id) as [[q do [st|]]|] eqn:E; [apply Same; cbn; by rewrite E| |apply Same; cbn; by rewrite E].
    apply (kept_inv n evs _ w); [done..| |]; cbn [Live.serve_step]; rewrite E; [by apply cache_kept_same|]. cbn [sv_waiting]. intros id' q'.
    destruct (decide (id' = id)) as [->|N]; [rewrite lookup_insert_eq|rewrite lookup_insert_ne by done; by apply Hq']. intros [= <-].
    apply in_step_upstreams in Hs as (Hr & Hu & _). destruct (Hq _ _ E) as [now0 Ha]. exists evs, [], now0, (lv_prev (nd_live (sv_node w))). split; [done|]. split; [done|].
    split; [|done]. unfold upstreams_at. by rewrite <- Ew.
  - destruct (sv_waiting w !! id) as [[q do [st|]]|] eqn:E; [by eapply answer_inv|apply Same; cbn; by rewrite E..].
Qed.
Lemma serve_run_inv n evs : Forall served_ok evs -> in_step n -> cache_inv n [] (serving n) ->
  in_step (sv_node (serve_run evs (serving n))) /\ cache_inv n evs (serve_run evs (serving n)).
Proof.
  intros Hok Hn H0. induction evs as [|ev evs IH] using rev_ind; [done|]. apply Forall_app in Hok as [Hok Hev]. destruct (IH Hok) as [I1 I2]. split.
  - apply (serve_run_in_step url_Parse LookupPort IsDomainName SplitDomainName); try done. by apply Forall_app.
  - assert (E : serve_run (evs ++ [ev]) (serving n) = serve_step (serve_run evs (serving n)) ev) by (unfold Live.serve_run; by rewrite foldl_app).
    rewrite E. by apply serve_step_inv.
Qed.

(** C18: every cached answer is accounted for.  After a boot and any history of changes
    with queries in flight between them, an entry of the cache is the answer, with the
    AD bit cleared if its upstream is not secure, that an upstream gave to the query it
    is stored under; the settings that ran when the query took its list named that
    upstream, and the upstreams have not been replaced since the answer was cached.  So
    unless the running settings name it, it was replaced while that very query waited:
    replacing the upstreams leaves nothing behind that was cached before. *)
Theorem cached_answers_are_accounted_for h role m now seed db db' n evs x :
  (GetSettings db = None -> Forall one_line (Upstreams seed)) ->
  node_boot url_Parse LookupPort IsDomainName SplitDomainName Fqdn h role m now seed db = (db', Ok n) -> Forall served_ok evs ->
  x ∈ c_order (f_cache (node_fwd (sv_node (serve_run evs (serving n))))) -> accounted n evs x.2.
Proof.
  intros Hl Hb Hok Hx. apply boot_in_step in Hb as (Hn & _ & Ho & Hw & _); [|done..].
  destruct (serve_run_inv n evs Hok Hn) as [_ [_ H _]]; [|by apply H]. split; [exact Hw| |done].
  unfold node_fwd. cbn [serving sv_node]. rewrite Ho. by intros y ?%not_elem_of_nil.
Qed.
End Cache.

(** ** Concrete histories *)
Definition ex_cached (evs : list serve_event) : list cacheEntry := (c_order (f_cache (node_fwd (ex_serve evs)))).*2.
Abbreviation ex_accounted := (accounted ex_url_parse ex_lookup ex_IsDomainName ex_names.2 ex_Fqdn ex_rcode ex_booted).
Lemma cached_answers_are_accounted_for_witness : length (ex_cached ex_history) = 1%nat /\ Forall (ex_accounted ex_history) (ex_cached ex_history).
Proof.
  split; [vm_compute; reflexivity|]. apply Forall_fmap, Forall_forall. intros x Hx.
  exact (cached_answers_are_accounted_for ex_url_parse ex_lookup ex_IsDomainName ex_names.2 ex_Fqdn ex_rcode ex_Fqdn_dot ex_no_space
    ex_host RolePrimary ex_builtins 0 (ex_seed ["9.9.9.9"]) db0 ex_booted_db ex_booted ex_history x ex_seed_lines ex_booted_ok ex_history_ok Hx).
Defined.
(** [Resolve] stores its answer without looking whether the list it asked is still the
    current one: a query that was waiting while the upstreams were replaced and the
    cache was emptied puts the old upstream's answer back, and it is served. *)
Lemma late_answer_survives_flush :
  running_upstreams (ex_serve ex_late_history) = Some ["1.1.1.1"] /\
  (exists e, ex_cached ex_late_history = [e] /\ e_key e = keyFor ex_Fqdn DnsCache.ex_q false) /\
  (look ex_Fqdn (seconds 11) DnsCache.ex_q false (node_fwd (ex_serve ex_late_history))).2 <> None /\
  (look ex_Fqdn (seconds 11) DnsCache.ex_q false (node_fwd (ex_serve (ex_asked 1 ++ [ex_answered 1; ex_replaced])))).2 = None.
Proof. split; [by vm_compute|]. split; [eexists; split; by vm_compute|]. split; by vm_compute. Qed.
