(* ===== verification/Json.v ===== *)
(** * JSON documents and how [encoding/json] maps them onto structs

    A value is what the text parses to; the text itself stays outside.  A decoder
    takes the value the target already holds, as [json.Unmarshal] decodes in place:
    an absent key keeps it, [null] leaves a scalar alone and empties a slice, an
    array is written over the elements that are there.  A mismatch makes the whole
    call fail, and every caller drops its target then.  Keys match exactly or
    folded.  Slices hold no spare capacity here: what a slice shortened and grown
    again within one document shows is left out. *)
From S2P Require Import Prelude GoStr.

Inductive JSON := JNull | JBool (b : bool) | JInt (n : Z) | JReal (literal : string) | JString (s : string)
  | JArray (l : list JSON) | JObject (l : list (string * JSON)).

(** ** Keys *)
(** [foldName]: upper case, with the two characters outside ASCII that fold into it
    (the long s and the Kelvin sign). *)
Fixpoint fold_bytes (l : list ascii) : list ascii :=
  match l with
  | [] => []
  | a :: l1 =>
      match l1 with
      | b :: l2 =>
          if (code a =? 197) && (code b =? 191) then "S"%char :: fold_bytes l2
          else match l2 with
               | c :: l3 => if (code a =? 226) && (code b =? 132) && (code c =? 170) then "K"%char :: fold_bytes l3 else upper_char a :: fold_bytes l1
               | [] => upper_char a :: fold_bytes l1
               end
      | [] => [upper_char a]
      end
  end.
Definition foldName (s : string) : string := str (fold_bytes (bytes s)).

(** ** Decoding *)
Definition Decoder (A : Type) : Type := JSON -> A -> option A.
Definition is_int64 (z : Z) : bool := (- 2 ^ 63 <=? z) && (z <? 2 ^ 63).
Definition dec_string : Decoder string := fun j s => match j with JNull => Some s | JString t => Some t | _ => None end.
Definition dec_bool : Decoder bool := fun j b => match j with JNull => Some b | JBool c => Some c | _ => None end.
Definition dec_int : Decoder Z := fun j z => match j with JNull => Some z | JInt n => if is_int64 n then Some n else None | _ => None end.
Section slice.
Context {A : Type} (zero : A) (dec : Decoder A).
Fixpoint dec_elems (js : list JSON) (old : list A) : option (list A) :=
  match js with
  | [] => Some []
  | j :: js =>
      a ← dec j (match old with a :: _ => a | [] => zero end);
      r ← dec_elems js (match old with _ :: t => t | [] => [] end);
      Some (a :: r)
  end.
Definition dec_slice : Decoder (list A) := fun j old => match j with JNull => Some [] | JArray js => dec_elems js old | _ => None end.
End slice.
(** A field of a struct: its JSON name and how a value is put into it. *)
Record Field (A : Type) := mkField { fd_name : string; fd_put : JSON -> A -> option A }.
Arguments mkField {A}. Arguments fd_name {A}. Arguments fd_put {A}.
Definition field {A B} (name : string) (get : A -> B) (set : B -> A -> A) (dec : Decoder B) : Field A :=
  mkField name (fun j a => b ← dec j (get a); Some (set b a)).
Definition find_field {A} (key : string) (fs : list (Field A)) : option (Field A) :=
  match List.find (fun f => bool_decide (fd_name f = key)) fs with
  | Some f => Some f
  | None => List.find (fun f => bool_decide (foldName (fd_name f) = foldName key)) fs
  end.
Definition put_key {A} (fs : list (Field A)) (kv : string * JSON) (a : A) : option A :=
  match find_field kv.1 fs with Some f => fd_put f kv.2 a | None => Some a end.
Fixpoint put_keys {A} (fs : list (Field A)) (kvs : list (string * JSON)) (a : A) : option A :=
  match kvs with [] => Some a | kv :: kvs => a' ← put_key fs kv a; put_keys fs kvs a' end.
Definition dec_struct {A} (fs : list (Field A)) : Decoder A := fun j a => match j with JNull => Some a | JObject kvs => put_keys fs kvs a | _ => None end.
(** [map[string]json.RawMessage]: the keys. *)
Definition dec_keys (j : JSON) : option (list string) := match j with JNull => Some [] | JObject kvs => Some kvs.*1 | _ => None end.

(** ** Encoding; [omitempty] drops a zero value *)
Definition opt_string (k s : string) : list (string * JSON) := if bool_decide (s = "") then [] else [(k, JString s)].
Definition opt_bool (k : string) (b : bool) : list (string * JSON) := if b then [(k, JBool true)] else [].
Definition opt_int (k : string) (z : Z) : list (string * JSON) := if z =? 0 then [] else [(k, JInt z)].
Definition enc_strings (l : list string) : JSON := JArray (JString <$> l).
Definition opt_strings (k : string) (l : list string) : list (string * JSON) := if bool_decide (l = []) then [] else [(k, enc_strings l)].

(** ** Lemmas *)
Lemma dec_elems_total {A} zero (dec : Decoder A) (js : list JSON) (l : list A) : Forall2 (fun j a => forall old, dec j old = Some a) js l ->
  forall old, dec_elems zero dec js old = Some l.
Proof. induction 1 as [|j a js l Hj _ IH]; intros old; [done|]. cbn. by rewrite Hj, IH. Qed.
Lemma dec_strings l old : dec_slice "" dec_string (enc_strings l) old = Some l.
Proof. unfold enc_strings. cbn. apply dec_elems_total. apply Forall2_fmap_l, Forall_Forall2_diag, Forall_forall. done. Qed.
Lemma put_keys_app {A} (fs : list (Field A)) k1 k2 a : put_keys fs (k1 ++ k2) a = a' ← put_keys fs k1 a; put_keys fs k2 a'.
Proof. revert a. induction k1 as [|kv k1 IH]; intros a; [done|]. cbn. destruct (put_key fs kv a); [apply IH|done]. Qed.
(** Encoding a struct and decoding it over any value: one step per field. *)
Definition writes {A} (fs : list (Field A)) (kvs : list (string * JSON)) (set : A -> A) : Prop := forall a, put_keys fs kvs a = Some (set a).
Lemma writes_app {A} (fs : list (Field A)) k1 k2 s1 s2 : writes fs k1 s1 -> writes fs k2 s2 -> writes fs (k1 ++ k2) (fun a => s2 (s1 a)).
Proof. intros H1 H2 a. rewrite put_keys_app, H1. apply H2. Qed.
Lemma is_int64_true z : - 2 ^ 63 <= z < 2 ^ 63 -> is_int64 z = true.
Proof. unfold is_int64. intros H. destruct (Z.leb_spec (- 2 ^ 63) z), (Z.ltb_spec z (2 ^ 63)); lia || done. Qed.

Example ex_fold : foldName (str [chr 97; chr 197; chr 191; chr 226; chr 132; chr 170]) = "ASK".
Proof. reflexivity. Qed.
