(* ===== verification/AdminDto.v ===== *)
(** * The wire forms: the DTOs of [internal/adminapi] and their conversions

    The structs of [api.go], [settings.go] and [blacklists.go] with their JSON
    fields, what each becomes on the wire, how a body is decoded onto one, and the
    conversions from and to the store's records.  Unmarshalling YAML is outside:
    [transfer] is what an import document decodes to. *)
From S2P Require Import Prelude GoStr Model Json.

Record addressDTO := mkAddressDTO { ad_address : string; ad_view : string }.
Record serviceDTO := mkServiceDTO {
  sd_id : Z; sd_name : string; sd_addresses : list addressDTO; sd_aliases : list string; sd_check_url : string; sd_check_insecure : bool;
  sd_proxy_address : string; sd_route_via_proxy : bool; sd_mac : string }.
Record recordDTO := mkRecordDTO { rd_id : Z; rd_name : string; rd_type : string; rd_value : string; rd_view : string }.
Record viewDTO := mkViewDTO { vd_name : string; vd_subnets : list string }.
Record blacklistListDTO := mkBlListDTO {
  bd_id : Z; bd_name : string; bd_url : string; bd_format : string; bd_description : string; bd_enabled : bool; bd_builtin : bool;
  bd_interval_seconds : Z; bd_entry_count : Z; bd_skipped_count : Z; bd_last_ok_at : Z; bd_last_attempt_at : Z; bd_last_error : string }.
Record blacklistRuleDTO := mkBlRuleDTO { ud_id : Z; ud_kind : string; ud_domain : string }.
(** The fields of the settings row, which it carries one for one, and the
    confirmation. *)
Record settingsDTO := mkSettingsDTO { st_row : Settings; st_confirm_public : string }.
Record blacklistDoc := mkBlDoc { bk_enabled : bool; bk_block_ttl : Z; bk_lists : list blacklistListDTO; bk_rules : list blacklistRuleDTO }.
Record transfer := mkTransfer {
  tr_views : list viewDTO; tr_services : list serviceDTO; tr_records : list recordDTO; tr_blacklist : option blacklistDoc; tr_settings : option settingsDTO }.
#[export] Instance addressDTO_eq_dec : EqDecision addressDTO.
Proof. solve_decision. Defined.
#[export] Instance serviceDTO_eq_dec : EqDecision serviceDTO.
Proof. solve_decision. Defined.

Definition addressDTO0 : addressDTO := mkAddressDTO "" "".
Definition serviceDTO0 : serviceDTO := mkServiceDTO 0 "" [] [] "" false "" false "".
Definition recordDTO0 : recordDTO := mkRecordDTO 0 "" "" "" "".
Definition viewDTO0 : viewDTO := mkViewDTO "" [].
Definition newBlacklistListDTO : blacklistListDTO := mkBlListDTO 0 "" "" "" "" true false 0 0 0 0 0 "".

(** ** Services *)
Definition toServiceDTO (s : Service) : serviceDTO :=
  mkServiceDTO (s_ID s) (s_Name s) ((fun a => mkAddressDTO (a_Address a) (a_View a)) <$> s_Addresses s) (s_Aliases s) (s_CheckURL s) (s_CheckInsecure s)
    (s_ProxyAddress s) (s_RouteViaProxy s) (s_MAC s).
Definition fromServiceDTO (d : serviceDTO) : Service :=
  mkService (sd_id d) (sd_name d) ((fun a => mkAddress 0 (ad_address a) (ad_view a)) <$> sd_addresses d) (sd_aliases d) (sd_check_url d) (sd_check_insecure d)
    (sd_proxy_address d) (sd_route_via_proxy d) (sd_mac d).
Definition svc_with_id (id : Z) (s : Service) : Service :=
  mkService id (s_Name s) (s_Addresses s) (s_Aliases s) (s_CheckURL s) (s_CheckInsecure s) (s_ProxyAddress s) (s_RouteViaProxy s) (s_MAC s).
Definition sd_with_addresses (l : list addressDTO) (d : serviceDTO) : serviceDTO :=
  mkServiceDTO (sd_id d) (sd_name d) l (sd_aliases d) (sd_check_url d) (sd_check_insecure d) (sd_proxy_address d) (sd_route_via_proxy d) (sd_mac d).
Definition address_fields : list (Field addressDTO) :=
  [field "address" ad_address (fun v a => mkAddressDTO v (ad_view a)) dec_string; field "view" ad_view (fun v a => mkAddressDTO (ad_address a) v) dec_string].
Definition service_fields : list (Field serviceDTO) :=
  [field "id" sd_id (fun v d => mkServiceDTO v (sd_name d) (sd_addresses d) (sd_aliases d) (sd_check_url d) (sd_check_insecure d) (sd_proxy_address d) (sd_route_via_proxy d) (sd_mac d)) dec_int;
   field "name" sd_name (fun v d => mkServiceDTO (sd_id d) v (sd_addresses d) (sd_aliases d) (sd_check_url d) (sd_check_insecure d) (sd_proxy_address d) (sd_route_via_proxy d) (sd_mac d)) dec_string;
   field "addresses" sd_addresses sd_with_addresses (dec_slice addressDTO0 (dec_struct address_fields));
   field "aliases" sd_aliases (fun v d => mkServiceDTO (sd_id d) (sd_name d) (sd_addresses d) v (sd_check_url d) (sd_check_insecure d) (sd_proxy_address d) (sd_route_via_proxy d) (sd_mac d)) (dec_slice "" dec_string);
   field "check_url" sd_check_url (fun v d => mkServiceDTO (sd_id d) (sd_name d) (sd_addresses d) (sd_aliases d) v (sd_check_insecure d) (sd_proxy_address d) (sd_route_via_proxy d) (sd_mac d)) dec_string;
   field "check_insecure" sd_check_insecure (fun v d => mkServiceDTO (sd_id d) (sd_name d) (sd_addresses d) (sd_aliases d) (sd_check_url d) v (sd_proxy_address d) (sd_route_via_proxy d) (sd_mac d)) dec_bool;
   field "proxy_address" sd_proxy_address (fun v d => mkServiceDTO (sd_id d) (sd_name d) (sd_addresses d) (sd_aliases d) (sd_check_url d) (sd_check_insecure d) v (sd_route_via_proxy d) (sd_mac d)) dec_string;
   field "route_via_proxy" sd_route_via_proxy (fun v d => mkServiceDTO (sd_id d) (sd_name d) (sd_addresses d) (sd_aliases d) (sd_check_url d) (sd_check_insecure d) (sd_proxy_address d) v (sd_mac d)) dec_bool;
   field "mac" sd_mac (fun v d => mkServiceDTO (sd_id d) (sd_name d) (sd_addresses d) (sd_aliases d) (sd_check_url d) (sd_check_insecure d) (sd_proxy_address d) (sd_route_via_proxy d) v) dec_string].
Definition enc_address (a : addressDTO) : JSON := JObject (("address", JString (ad_address a)) :: opt_string "view" (ad_view a)).
Definition enc_service (d : serviceDTO) : JSON :=
  JObject (opt_int "id" (sd_id d) ++ [("name", JString (sd_name d)); ("addresses", JArray (enc_address <$> sd_addresses d))] ++
    opt_strings "aliases" (sd_aliases d) ++ opt_string "check_url" (sd_check_url d) ++ opt_bool "check_insecure" (sd_check_insecure d) ++
    opt_string "proxy_address" (sd_proxy_address d) ++ opt_bool "route_via_proxy" (sd_route_via_proxy d) ++ opt_string "mac" (sd_mac d)).

(** ** Records and views *)
Definition toRecordDTO (r : DnsRecord) : recordDTO := mkRecordDTO (r_ID r) (r_Name r) (r_Type r) (r_Value r) (r_View r).
Definition fromRecordDTO (d : recordDTO) : DnsRecord := mkRecord 0 (rd_name d) (rd_type d) (rd_value d) (rd_view d).
Definition record_fields : list (Field recordDTO) :=
  [field "id" rd_id (fun v d => mkRecordDTO v (rd_name d) (rd_type d) (rd_value d) (rd_view d)) dec_int;
   field "name" rd_name (fun v d => mkRecordDTO (rd_id d) v (rd_type d) (rd_value d) (rd_view d)) dec_string;
   field "type" rd_type (fun v d => mkRecordDTO (rd_id d) (rd_name d) v (rd_value d) (rd_view d)) dec_string;
   field "value" rd_value (fun v d => mkRecordDTO (rd_id d) (rd_name d) (rd_type d) v (rd_view d)) dec_string;
   field "view" rd_view (fun v d => mkRecordDTO (rd_id d) (rd_name d) (rd_type d) (rd_value d) v) dec_string].
Definition enc_record (d : recordDTO) : JSON :=
  JObject (opt_int "id" (rd_id d) ++ [("name", JString (rd_name d)); ("type", JString (rd_type d)); ("value", JString (rd_value d))] ++ opt_string "view" (rd_view d)).
Definition toViewDTO (v : View) : viewDTO := mkViewDTO (v_Name v) (v_Subnets v).
Definition fromViewDTO (d : viewDTO) : View := mkView (vd_name d) (vd_subnets d).
Definition view_fields : list (Field viewDTO) :=
  [field "name" vd_name (fun v d => mkViewDTO v (vd_subnets d)) dec_string; field "subnets" vd_subnets (fun v d => mkViewDTO (vd_name d) v) (dec_slice "" dec_string)].
Definition enc_view (d : viewDTO) : JSON := JObject [("name", JString (vd_name d)); ("subnets", enc_strings (vd_subnets d))].

(** ** Blacklists *)
Definition toBlacklistListDTO (l : BlacklistList) : blacklistListDTO :=
  mkBlListDTO (bl_ID l) (bl_Name l) (bl_URL l) (bl_Format l) (bl_Description l) (bl_Enabled l) (bl_Builtin l) (bl_IntervalSeconds l)
    (bl_EntryCount l) (bl_SkippedCount l) (bl_LastOKAt l) (bl_LastAttemptAt l) (bl_LastError l).
Definition fromBlacklistListDTO (d : blacklistListDTO) : BlacklistList :=
  mkBlList (bd_id d) (bd_name d) (bd_url d) (bd_format d) (bd_description d) (bd_enabled d) (bd_builtin d) (bd_interval_seconds d) 0 0 "" "" "" 0 0 [].
Definition bd_with_id (id : Z) (d : blacklistListDTO) : blacklistListDTO :=
  mkBlListDTO id (bd_name d) (bd_url d) (bd_format d) (bd_description d) (bd_enabled d) (bd_builtin d) (bd_interval_seconds d)
    (bd_entry_count d) (bd_skipped_count d) (bd_last_ok_at d) (bd_last_attempt_at d) (bd_last_error d).
Definition list_fields : list (Field blacklistListDTO) :=
  [field "id" bd_id bd_with_id dec_int;
   field "name" bd_name (fun v d => mkBlListDTO (bd_id d) v (bd_url d) (bd_format d) (bd_description d) (bd_enabled d) (bd_builtin d) (bd_interval_seconds d) (bd_entry_count d) (bd_skipped_count d) (bd_last_ok_at d) (bd_last_attempt_at d) (bd_last_error d)) dec_string;
   field "url" bd_url (fun v d => mkBlListDTO (bd_id d) (bd_name d) v (bd_format d) (bd_description d) (bd_enabled d) (bd_builtin d) (bd_interval_seconds d) (bd_entry_count d) (bd_skipped_count d) (bd_last_ok_at d) (bd_last_attempt_at d) (bd_last_error d)) dec_string;
   field "format" bd_format (fun v d => mkBlListDTO (bd_id d) (bd_name d) (bd_url d) v (bd_description d) (bd_enabled d) (bd_builtin d) (bd_interval_seconds d) (bd_entry_count d) (bd_skipped_count d) (bd_last_ok_at d) (bd_last_attempt_at d) (bd_last_error d)) dec_string;
   field "description" bd_description (fun v d => mkBlListDTO (bd_id d) (bd_name d) (bd_url d) (bd_format d) v (bd_enabled d) (bd_builtin d) (bd_interval_seconds d) (bd_entry_count d) (bd_skipped_count d) (bd_last_ok_at d) (bd_last_attempt_at d) (bd_last_error d)) dec_string;
   field "enabled" bd_enabled (fun v d => mkBlListDTO (bd_id d) (bd_name d) (bd_url d) (bd_format d) (bd_description d) v (bd_builtin d) (bd_interval_seconds d) (bd_entry_count d) (bd_skipped_count d) (bd_last_ok_at d) (bd_last_attempt_at d) (bd_last_error d)) dec_bool;
   field "builtin" bd_builtin (fun v d => mkBlListDTO (bd_id d) (bd_name d) (bd_url d) (bd_format d) (bd_description d) (bd_enabled d) v (bd_interval_seconds d) (bd_entry_count d) (bd_skipped_count d) (bd_last_ok_at d) (bd_last_attempt_at d) (bd_last_error d)) dec_bool;
   field "interval_seconds" bd_interval_seconds (fun v d => mkBlListDTO (bd_id d) (bd_name d) (bd_url d) (bd_format d) (bd_description d) (bd_enabled d) (bd_builtin d) v (bd_entry_count d) (bd_skipped_count d) (bd_last_ok_at d) (bd_last_attempt_at d) (bd_last_error d)) dec_int;
   field "entry_count" bd_entry_count (fun v d => mkBlListDTO (bd_id d) (bd_name d) (bd_url d) (bd_format d) (bd_description d) (bd_enabled d) (bd_builtin d) (bd_interval_seconds d) v (bd_skipped_count d) (bd_last_ok_at d) (bd_last_attempt_at d) (bd_last_error d)) dec_int;
   field "skipped_count" bd_skipped_count (fun v d => mkBlListDTO (bd_id d) (bd_name d) (bd_url d) (bd_format d) (bd_description d) (bd_enabled d) (bd_builtin d) (bd_interval_seconds d) (bd_entry_count d) v (bd_last_ok_at d) (bd_last_attempt_at d) (bd_last_error d)) dec_int;
   field "last_ok_at" bd_last_ok_at (fun v d => mkBlListDTO (bd_id d) (bd_name d) (bd_url d) (bd_format d) (bd_description d) (bd_enabled d) (bd_builtin d) (bd_interval_seconds d) (bd_entry_count d) (bd_skipped_count d) v (bd_last_attempt_at d) (bd_last_error d)) dec_int;
   field "last_attempt_at" bd_last_attempt_at (fun v d => mkBlListDTO (bd_id d) (bd_name d) (bd_url d) (bd_format d) (bd_description d) (bd_enabled d) (bd_builtin d) (bd_interval_seconds d) (bd_entry_count d) (bd_skipped_count d) (bd_last_ok_at d) v (bd_last_error d)) dec_int;
   field "last_error" bd_last_error (fun v d => mkBlListDTO (bd_id d) (bd_name d) (bd_url d) (bd_format d) (bd_description d) (bd_enabled d) (bd_builtin d) (bd_interval_seconds d) (bd_entry_count d) (bd_skipped_count d) (bd_last_ok_at d) (bd_last_attempt_at d) v) dec_string].
Definition enc_list (d : blacklistListDTO) : JSON :=
  JObject (opt_int "id" (bd_id d) ++ [("name", JString (bd_name d)); ("url", JString (bd_url d)); ("format", JString (bd_format d))] ++
    opt_string "description" (bd_description d) ++ [("enabled", JBool (bd_enabled d))] ++ opt_bool "builtin" (bd_builtin d) ++
    [("interval_seconds", JInt (bd_interval_seconds d))] ++ opt_int "entry_count" (bd_entry_count d) ++ opt_int "skipped_count" (bd_skipped_count d) ++
    opt_int "last_ok_at" (bd_last_ok_at d) ++ opt_int "last_attempt_at" (bd_last_attempt_at d) ++ opt_string "last_error" (bd_last_error d)).
Definition enc_rule (d : blacklistRuleDTO) : JSON :=
  JObject (opt_int "id" (ud_id d) ++ [("kind", JString (ud_kind d)); ("domain", JString (ud_domain d))]).

(** ** Settings *)
Definition toSettingsDTO (v : Settings) : settingsDTO :=
  mkSettingsDTO (mkSettings (PrivateDomain v) (ReverseZones v) (Upstreams v) (AllowQuery v) (AllowTailscale v) (TTL v) (CacheMinTTL v) (CacheMaxTTL v) (NegativeMaxTTL v) (CacheEntries v) (LogQueries v) (LogClientIP v) (DHCPLeaseFile v) (DiscoveryInterval v) (HealthInterval v) (HealthTimeout v) (HealthWorkers v) (DHCPEnabled v) (DHCPInterface v) (DHCPRangeStart v) (DHCPRangeEnd v) (DHCPGateway v) (DHCPLeaseSeconds v) (DHCPSecondaryDNS v) (DHCPAllowForeign v)) "".
Definition fromSettingsDTO (d : settingsDTO) : Settings :=
  let v := st_row d in mkSettings (PrivateDomain v) (ReverseZones v) (Upstreams v) (AllowQuery v) (AllowTailscale v) (TTL v) (CacheMinTTL v) (CacheMaxTTL v) (NegativeMaxTTL v) (CacheEntries v) (LogQueries v) (LogClientIP v) (DHCPLeaseFile v) (DiscoveryInterval v) (HealthInterval v) (HealthTimeout v) (HealthWorkers v) (DHCPEnabled v) (DHCPInterface v) (DHCPRangeStart v) (DHCPRangeEnd v) (DHCPGateway v) (DHCPLeaseSeconds v) (DHCPSecondaryDNS v) (DHCPAllowForeign v).
Definition in_row {B} (name : string) (get : Settings -> B) (set : B -> Settings -> Settings) (dec : Decoder B) : Field settingsDTO :=
  field name (fun d => get (st_row d)) (fun v d => mkSettingsDTO (set v (st_row d)) (st_confirm_public d)) dec.
Definition settings_fields : list (Field settingsDTO) :=
  [in_row "private_domain" PrivateDomain (fun x v => mkSettings x (ReverseZones v) (Upstreams v) (AllowQuery v) (AllowTailscale v) (TTL v) (CacheMinTTL v) (CacheMaxTTL v) (NegativeMaxTTL v) (CacheEntries v) (LogQueries v) (LogClientIP v) (DHCPLeaseFile v) (DiscoveryInterval v) (HealthInterval v) (HealthTimeout v) (HealthWorkers v) (DHCPEnabled v) (DHCPInterface v) (DHCPRangeStart v) (DHCPRangeEnd v) (DHCPGateway v) (DHCPLeaseSeconds v) (DHCPSecondaryDNS v) (DHCPAllowForeign v)) dec_string;
   in_row "reverse_zones" ReverseZones (fun x v => mkSettings (PrivateDomain v) x (Upstreams v) (AllowQuery v) (AllowTailscale v) (TTL v) (CacheMinTTL v) (CacheMaxTTL v) (NegativeMaxTTL v) (CacheEntries v) (LogQueries v) (LogClientIP v) (DHCPLeaseFile v) (DiscoveryInterval v) (HealthInterval v) (HealthTimeout v) (HealthWorkers v) (DHCPEnabled v) (DHCPInterface v) (DHCPRangeStart v) (DHCPRangeEnd v) (DHCPGateway v) (DHCPLeaseSeconds v) (DHCPSecondaryDNS v) (DHCPAllowForeign v)) (dec_slice "" dec_string);
   in_row "upstreams" Upstreams (fun x v => mkSettings (PrivateDomain v) (ReverseZones v) x (AllowQuery v) (AllowTailscale v) (TTL v) (CacheMinTTL v) (CacheMaxTTL v) (NegativeMaxTTL v) (CacheEntries v) (LogQueries v) (LogClientIP v) (DHCPLeaseFile v) (DiscoveryInterval v) (HealthInterval v) (HealthTimeout v) (HealthWorkers v) (DHCPEnabled v) (DHCPInterface v) (DHCPRangeStart v) (DHCPRangeEnd v) (DHCPGateway v) (DHCPLeaseSeconds v) (DHCPSecondaryDNS v) (DHCPAllowForeign v)) (dec_slice "" dec_string);
   in_row "allow_query" AllowQuery (fun x v => mkSettings (PrivateDomain v) (ReverseZones v) (Upstreams v) x (AllowTailscale v) (TTL v) (CacheMinTTL v) (CacheMaxTTL v) (NegativeMaxTTL v) (CacheEntries v) (LogQueries v) (LogClientIP v) (DHCPLeaseFile v) (DiscoveryInterval v) (HealthInterval v) (HealthTimeout v) (HealthWorkers v) (DHCPEnabled v) (DHCPInterface v) (DHCPRangeStart v) (DHCPRangeEnd v) (DHCPGateway v) (DHCPLeaseSeconds v) (DHCPSecondaryDNS v) (DHCPAllowForeign v)) (dec_slice "" dec_string);
   in_row "allow_tailscale" AllowTailscale (fun x v => mkSettings (PrivateDomain v) (ReverseZones v) (Upstreams v) (AllowQuery v) x (TTL v) (CacheMinTTL v) (CacheMaxTTL v) (NegativeMaxTTL v) (CacheEntries v) (LogQueries v) (LogClientIP v) (DHCPLeaseFile v) (DiscoveryInterval v) (HealthInterval v) (HealthTimeout v) (HealthWorkers v) (DHCPEnabled v) (DHCPInterface v) (DHCPRangeStart v) (DHCPRangeEnd v) (DHCPGateway v) (DHCPLeaseSeconds v) (DHCPSecondaryDNS v) (DHCPAllowForeign v)) dec_bool;
   in_row "ttl" TTL (fun x v => mkSettings (PrivateDomain v) (ReverseZones v) (Upstreams v) (AllowQuery v) (AllowTailscale v) x (CacheMinTTL v) (CacheMaxTTL v) (NegativeMaxTTL v) (CacheEntries v) (LogQueries v) (LogClientIP v) (DHCPLeaseFile v) (DiscoveryInterval v) (HealthInterval v) (HealthTimeout v) (HealthWorkers v) (DHCPEnabled v) (DHCPInterface v) (DHCPRangeStart v) (DHCPRangeEnd v) (DHCPGateway v) (DHCPLeaseSeconds v) (DHCPSecondaryDNS v) (DHCPAllowForeign v)) dec_int;
   in_row "cache_min_ttl" CacheMinTTL (fun x v => mkSettings (PrivateDomain v) (ReverseZones v) (Upstreams v) (AllowQuery v) (AllowTailscale v) (TTL v) x (CacheMaxTTL v) (NegativeMaxTTL v) (CacheEntries v) (LogQueries v) (LogClientIP v) (DHCPLeaseFile v) (DiscoveryInterval v) (HealthInterval v) (HealthTimeout v) (HealthWorkers v) (DHCPEnabled v) (DHCPInterface v) (DHCPRangeStart v) (DHCPRangeEnd v) (DHCPGateway v) (DHCPLeaseSeconds v) (DHCPSecondaryDNS v) (DHCPAllowForeign v)) dec_int;
   in_row "cache_max_ttl" CacheMaxTTL (fun x v => mkSettings (PrivateDomain v) (ReverseZones v) (Upstreams v) (AllowQuery v) (AllowTailscale v) (TTL v) (CacheMinTTL v) x (NegativeMaxTTL v) (CacheEntries v) (LogQueries v) (LogClientIP v) (DHCPLeaseFile v) (DiscoveryInterval v) (HealthInterval v) (HealthTimeout v) (HealthWorkers v) (DHCPEnabled v) (DHCPInterface v) (DHCPRangeStart v) (DHCPRangeEnd v) (DHCPGateway v) (DHCPLeaseSeconds v) (DHCPSecondaryDNS v) (DHCPAllowForeign v)) dec_int;
   in_row "negative_max_ttl" NegativeMaxTTL (fun x v => mkSettings (PrivateDomain v) (ReverseZones v) (Upstreams v) (AllowQuery v) (AllowTailscale v) (TTL v) (CacheMinTTL v) (CacheMaxTTL v) x (CacheEntries v) (LogQueries v) (LogClientIP v) (DHCPLeaseFile v) (DiscoveryInterval v) (HealthInterval v) (HealthTimeout v) (HealthWorkers v) (DHCPEnabled v) (DHCPInterface v) (DHCPRangeStart v) (DHCPRangeEnd v) (DHCPGateway v) (DHCPLeaseSeconds v) (DHCPSecondaryDNS v) (DHCPAllowForeign v)) dec_int;
   in_row "cache_entries" CacheEntries (fun x v => mkSettings (PrivateDomain v) (ReverseZones v) (Upstreams v) (AllowQuery v) (AllowTailscale v) (TTL v) (CacheMinTTL v) (CacheMaxTTL v) (NegativeMaxTTL v) x (LogQueries v) (LogClientIP v) (DHCPLeaseFile v) (DiscoveryInterval v) (HealthInterval v) (HealthTimeout v) (HealthWorkers v) (DHCPEnabled v) (DHCPInterface v) (DHCPRangeStart v) (DHCPRangeEnd v) (DHCPGateway v) (DHCPLeaseSeconds v) (DHCPSecondaryDNS v) (DHCPAllowForeign v)) dec_int;
   in_row "log_queries" LogQueries (fun x v => mkSettings (PrivateDomain v) (ReverseZones v) (Upstreams v) (AllowQuery v) (AllowTailscale v) (TTL v) (CacheMinTTL v) (CacheMaxTTL v) (NegativeMaxTTL v) (CacheEntries v) x (LogClientIP v) (DHCPLeaseFile v) (DiscoveryInterval v) (HealthInterval v) (HealthTimeout v) (HealthWorkers v) (DHCPEnabled v) (DHCPInterface v) (DHCPRangeStart v) (DHCPRangeEnd v) (DHCPGateway v) (DHCPLeaseSeconds v) (DHCPSecondaryDNS v) (DHCPAllowForeign v)) dec_bool;
   in_row "log_client_ip" LogClientIP (fun x v => mkSettings (PrivateDomain v) (ReverseZones v) (Upstreams v) (AllowQuery v) (AllowTailscale v) (TTL v) (CacheMinTTL v) (CacheMaxTTL v) (NegativeMaxTTL v) (CacheEntries v) (LogQueries v) x (DHCPLeaseFile v) (DiscoveryInterval v) (HealthInterval v) (HealthTimeout v) (HealthWorkers v) (DHCPEnabled v) (DHCPInterface v) (DHCPRangeStart v) (DHCPRangeEnd v) (DHCPGateway v) (DHCPLeaseSeconds v) (DHCPSecondaryDNS v) (DHCPAllowForeign v)) dec_bool;
   in_row "dhcp_lease_file" DHCPLeaseFile (fun x v => mkSettings (PrivateDomain v) (ReverseZones v) (Upstreams v) (AllowQuery v) (AllowTailscale v) (TTL v) (CacheMinTTL v) (CacheMaxTTL v) (NegativeMaxTTL v) (CacheEntries v) (LogQueries v) (LogClientIP v) x (DiscoveryInterval v) (HealthInterval v) (HealthTimeout v) (HealthWorkers v) (DHCPEnabled v) (DHCPInterface v) (DHCPRangeStart v) (DHCPRangeEnd v) (DHCPGateway v) (DHCPLeaseSeconds v) (DHCPSecondaryDNS v) (DHCPAllowForeign v)) dec_string;
   in_row "discovery_interval" DiscoveryInterval (fun x v => mkSettings (PrivateDomain v) (ReverseZones v) (Upstreams v) (AllowQuery v) (AllowTailscale v) (TTL v) (CacheMinTTL v) (CacheMaxTTL v) (NegativeMaxTTL v) (CacheEntries v) (LogQueries v) (LogClientIP v) (DHCPLeaseFile v) x (HealthInterval v) (HealthTimeout v) (HealthWorkers v) (DHCPEnabled v) (DHCPInterface v) (DHCPRangeStart v) (DHCPRangeEnd v) (DHCPGateway v) (DHCPLeaseSeconds v) (DHCPSecondaryDNS v) (DHCPAllowForeign v)) dec_int;
   in_row "health_interval" HealthInterval (fun x v => mkSettings (PrivateDomain v) (ReverseZones v) (Upstreams v) (AllowQuery v) (AllowTailscale v) (TTL v) (CacheMinTTL v) (CacheMaxTTL v) (NegativeMaxTTL v) (CacheEntries v) (LogQueries v) (LogClientIP v) (DHCPLeaseFile v) (DiscoveryInterval v) x (HealthTimeout v) (HealthWorkers v) (DHCPEnabled v) (DHCPInterface v) (DHCPRangeStart v) (DHCPRangeEnd v) (DHCPGateway v) (DHCPLeaseSeconds v) (DHCPSecondaryDNS v) (DHCPAllowForeign v)) dec_int;
   in_row "health_timeout" HealthTimeout (fun x v => mkSettings (PrivateDomain v) (ReverseZones v) (Upstreams v) (AllowQuery v) (AllowTailscale v) (TTL v) (CacheMinTTL v) (CacheMaxTTL v) (NegativeMaxTTL v) (CacheEntries v) (LogQueries v) (LogClientIP v) (DHCPLeaseFile v) (DiscoveryInterval v) (HealthInterval v) x (HealthWorkers v) (DHCPEnabled v) (DHCPInterface v) (DHCPRangeStart v) (DHCPRangeEnd v) (DHCPGateway v) (DHCPLeaseSeconds v) (DHCPSecondaryDNS v) (DHCPAllowForeign v)) dec_int;
   in_row "health_workers" HealthWorkers (fun x v => mkSettings (PrivateDomain v) (ReverseZones v) (Upstreams v) (AllowQuery v) (AllowTailscale v) (TTL v) (CacheMinTTL v) (CacheMaxTTL v) (NegativeMaxTTL v) (CacheEntries v) (LogQueries v) (LogClientIP v) (DHCPLeaseFile v) (DiscoveryInterval v) (HealthInterval v) (HealthTimeout v) x (DHCPEnabled v) (DHCPInterface v) (DHCPRangeStart v) (DHCPRangeEnd v) (DHCPGateway v) (DHCPLeaseSeconds v) (DHCPSecondaryDNS v) (DHCPAllowForeign v)) dec_int;
   in_row "dhcp_enabled" DHCPEnabled (fun x v => mkSettings (PrivateDomain v) (ReverseZones v) (Upstreams v) (AllowQuery v) (AllowTailscale v) (TTL v) (CacheMinTTL v) (CacheMaxTTL v) (NegativeMaxTTL v) (CacheEntries v) (LogQueries v) (LogClientIP v) (DHCPLeaseFile v) (DiscoveryInterval v) (HealthInterval v) (HealthTimeout v) (HealthWorkers v) x (DHCPInterface v) (DHCPRangeStart v) (DHCPRangeEnd v) (DHCPGateway v) (DHCPLeaseSeconds v) (DHCPSecondaryDNS v) (DHCPAllowForeign v)) dec_bool;
   in_row "dhcp_interface" DHCPInterface (fun x v => mkSettings (PrivateDomain v) (ReverseZones v) (Upstreams v) (AllowQuery v) (AllowTailscale v) (TTL v) (CacheMinTTL v) (CacheMaxTTL v) (NegativeMaxTTL v) (CacheEntries v) (LogQueries v) (LogClientIP v) (DHCPLeaseFile v) (DiscoveryInterval v) (HealthInterval v) (HealthTimeout v) (HealthWorkers v) (DHCPEnabled v) x (DHCPRangeStart v) (DHCPRangeEnd v) (DHCPGateway v) (DHCPLeaseSeconds v) (DHCPSecondaryDNS v) (DHCPAllowForeign v)) dec_string;
   in_row "dhcp_range_start" DHCPRangeStart (fun x v => mkSettings (PrivateDomain v) (ReverseZones v) (Upstreams v) (AllowQuery v) (AllowTailscale v) (TTL v) (CacheMinTTL v) (CacheMaxTTL v) (NegativeMaxTTL v) (CacheEntries v) (LogQueries v) (LogClientIP v) (DHCPLeaseFile v) (DiscoveryInterval v) (HealthInterval v) (HealthTimeout v) (HealthWorkers v) (DHCPEnabled v) (DHCPInterface v) x (DHCPRangeEnd v) (DHCPGateway v) (DHCPLeaseSeconds v) (DHCPSecondaryDNS v) (DHCPAllowForeign v)) dec_string;
   in_row "dhcp_range_end" DHCPRangeEnd (fun x v => mkSettings (PrivateDomain v) (ReverseZones v) (Upstreams v) (AllowQuery v) (AllowTailscale v) (TTL v) (CacheMinTTL v) (CacheMaxTTL v) (NegativeMaxTTL v) (CacheEntries v) (LogQueries v) (LogClientIP v) (DHCPLeaseFile v) (DiscoveryInterval v) (HealthInterval v) (HealthTimeout v) (HealthWorkers v) (DHCPEnabled v) (DHCPInterface v) (DHCPRangeStart v) x (DHCPGateway v) (DHCPLeaseSeconds v) (DHCPSecondaryDNS v) (DHCPAllowForeign v)) dec_string;
   in_row "dhcp_gateway" DHCPGateway (fun x v => mkSettings (PrivateDomain v) (ReverseZones v) (Upstreams v) (AllowQuery v) (AllowTailscale v) (TTL v) (CacheMinTTL v) (CacheMaxTTL v) (NegativeMaxTTL v) (CacheEntries v) (LogQueries v) (LogClientIP v) (DHCPLeaseFile v) (DiscoveryInterval v) (HealthInterval v) (HealthTimeout v) (HealthWorkers v) (DHCPEnabled v) (DHCPInterface v) (DHCPRangeStart v) (DHCPRangeEnd v) x (DHCPLeaseSeconds v) (DHCPSecondaryDNS v) (DHCPAllowForeign v)) dec_string;
   in_row "dhcp_lease_seconds" DHCPLeaseSeconds (fun x v => mkSettings (PrivateDomain v) (ReverseZones v) (Upstreams v) (AllowQuery v) (AllowTailscale v) (TTL v) (CacheMinTTL v) (CacheMaxTTL v) (NegativeMaxTTL v) (CacheEntries v) (LogQueries v) (LogClientIP v) (DHCPLeaseFile v) (DiscoveryInterval v) (HealthInterval v) (HealthTimeout v) (HealthWorkers v) (DHCPEnabled v) (DHCPInterface v) (DHCPRangeStart v) (DHCPRangeEnd v) (DHCPGateway v) x (DHCPSecondaryDNS v) (DHCPAllowForeign v)) dec_int;
   in_row "dhcp_secondary_dns" DHCPSecondaryDNS (fun x v => mkSettings (PrivateDomain v) (ReverseZones v) (Upstreams v) (AllowQuery v) (AllowTailscale v) (TTL v) (CacheMinTTL v) (CacheMaxTTL v) (NegativeMaxTTL v) (CacheEntries v) (LogQueries v) (LogClientIP v) (DHCPLeaseFile v) (DiscoveryInterval v) (HealthInterval v) (HealthTimeout v) (HealthWorkers v) (DHCPEnabled v) (DHCPInterface v) (DHCPRangeStart v) (DHCPRangeEnd v) (DHCPGateway v) (DHCPLeaseSeconds v) x (DHCPAllowForeign v)) dec_string;
   in_row "dhcp_allow_foreign" DHCPAllowForeign (fun x v => mkSettings (PrivateDomain v) (ReverseZones v) (Upstreams v) (AllowQuery v) (AllowTailscale v) (TTL v) (CacheMinTTL v) (CacheMaxTTL v) (NegativeMaxTTL v) (CacheEntries v) (LogQueries v) (LogClientIP v) (DHCPLeaseFile v) (DiscoveryInterval v) (HealthInterval v) (HealthTimeout v) (HealthWorkers v) (DHCPEnabled v) (DHCPInterface v) (DHCPRangeStart v) (DHCPRangeEnd v) (DHCPGateway v) (DHCPLeaseSeconds v) (DHCPSecondaryDNS v) x) dec_bool;
   field "confirm_public" st_confirm_public (fun x d => mkSettingsDTO (st_row d) x) dec_string].
Definition enc_settings (d : settingsDTO) : JSON :=
  let v := st_row d in
  JObject ([("private_domain", JString (PrivateDomain v)); ("reverse_zones", enc_strings (ReverseZones v)); ("upstreams", enc_strings (Upstreams v)); ("allow_query", enc_strings (AllowQuery v)); ("allow_tailscale", JBool (AllowTailscale v));
    ("ttl", JInt (TTL v)); ("cache_min_ttl", JInt (CacheMinTTL v)); ("cache_max_ttl", JInt (CacheMaxTTL v)); ("negative_max_ttl", JInt (NegativeMaxTTL v)); ("cache_entries", JInt (CacheEntries v));
    ("log_queries", JBool (LogQueries v)); ("log_client_ip", JBool (LogClientIP v)); ("dhcp_lease_file", JString (DHCPLeaseFile v)); ("discovery_interval", JInt (DiscoveryInterval v)); ("health_interval", JInt (HealthInterval v));
    ("health_timeout", JInt (HealthTimeout v)); ("health_workers", JInt (HealthWorkers v)); ("dhcp_enabled", JBool (DHCPEnabled v)); ("dhcp_interface", JString (DHCPInterface v)); ("dhcp_range_start", JString (DHCPRangeStart v));
    ("dhcp_range_end", JString (DHCPRangeEnd v)); ("dhcp_gateway", JString (DHCPGateway v)); ("dhcp_lease_seconds", JInt (DHCPLeaseSeconds v)); ("dhcp_secondary_dns", JString (DHCPSecondaryDNS v)); ("dhcp_allow_foreign", JBool (DHCPAllowForeign v))] ++ opt_string "confirm_public" (st_confirm_public d)).

(** ** What goes out comes back in *)
Definition ints (d : settingsDTO) : list Z :=
  let v := st_row d in
  [TTL v; CacheMinTTL v; CacheMaxTTL v; NegativeMaxTTL v; CacheEntries v; DiscoveryInterval v; HealthInterval v; HealthTimeout v; HealthWorkers v; DHCPLeaseSeconds v].
Definition list_ints (d : blacklistListDTO) : list Z := [bd_id d; bd_interval_seconds d; bd_entry_count d; bd_skipped_count d; bd_last_ok_at d; bd_last_attempt_at d].
Lemma opt_string_step {A} (fs : list (Field A)) k s rest a b : (s <> "" -> put_key fs (k, JString s) a = Some b) -> (s = "" -> b = a) ->
  put_keys fs (opt_string k s ++ rest) a = put_keys fs rest b.
Proof. unfold opt_string. intros H1 H2. case_bool_decide as E; [by rewrite H2|]. cbn. by rewrite H1. Qed.
Lemma opt_bool_step {A} (fs : list (Field A)) k v rest a b : (v = true -> put_key fs (k, JBool true) a = Some b) -> (v = false -> b = a) ->
  put_keys fs (opt_bool k v ++ rest) a = put_keys fs rest b.
Proof. intros H1 H2. destruct v; cbn; [by rewrite H1|by rewrite H2]. Qed.
Lemma opt_int_step {A} (fs : list (Field A)) k z rest a b : (z <> 0 -> put_key fs (k, JInt z) a = Some b) -> (z = 0 -> b = a) ->
  put_keys fs (opt_int k z ++ rest) a = put_keys fs rest b.
Proof. unfold opt_int. intros H1 H2. destruct (Z.eqb_spec z 0); [by rewrite H2|]. cbn. by rewrite H1. Qed.
Lemma opt_strings_step {A} (fs : list (Field A)) k l rest a b : (l <> [] -> put_key fs (k, enc_strings l) a = Some b) -> (l = [] -> b = a) ->
  put_keys fs (opt_strings k l ++ rest) a = put_keys fs rest b.
Proof. unfold opt_strings. intros H1 H2. case_bool_decide as E; [by rewrite H2|]. cbn. by rewrite H1. Qed.
Lemma key_step {A} (fs : list (Field A)) k j rest a b : put_key fs (k, j) a = Some b -> put_keys fs ((k, j) :: rest) a = put_keys fs rest b.
Proof. intros H. cbn. by rewrite H. Qed.
Lemma dec_address_enc a old : dec_struct address_fields (enc_address a) old = Some (mkAddressDTO (ad_address a) (if bool_decide (ad_view a = "") then ad_view old else ad_view a)).
Proof. unfold enc_address, opt_string. by case_bool_decide; lazy. Qed.
Lemma dec_addresses_enc l : dec_slice addressDTO0 (dec_struct address_fields) (JArray (enc_address <$> l)) [] = Some l.
Proof.
  cbn. induction l as [|a l IH]; [done|]. cbn [fmap list_fmap dec_elems]. rewrite dec_address_enc. cbn [mbind option_bind]. rewrite IH. cbn.
  f_equal. f_equal. destruct a as [x v]. cbn. by case_bool_decide; subst.
Qed.
Lemma dec_int_enc z old : is_int64 z = true -> dec_int (JInt z) old = Some z.
Proof. intros H. cbn. by rewrite H. Qed.
Lemma put_key_field {A B} (fs : list (Field A)) k (get : A -> B) set (dec : Decoder B) j a v :
  find_field k fs = Some (field k get set dec) -> dec j (get a) = Some v -> put_key fs (k, j) a = Some (set v a).
Proof. unfold put_key. cbn. intros -> H. cbn. by rewrite H. Qed.
Ltac wire_key := lazy -[is_int64 dec_slice enc_strings]; rewrite ?dec_strings; try match goal with H : is_int64 ?z = true |- context [is_int64 ?z] => rewrite H end; reflexivity.
Ltac wire_opt := intros E; f_equal; rewrite E; symmetry; auto.
Ltac wire_step := first [eapply opt_string_step; [intros _; wire_key|wire_opt] | eapply opt_bool_step; [intros ->; wire_key|wire_opt]
  | eapply opt_int_step; [intros _; wire_key|wire_opt] | eapply opt_strings_step; [intros _; wire_key|wire_opt] | eapply key_step; wire_key].
(** A target that agrees with [d] wherever [d]'s form leaves the key out. *)
Record agrees_service (d a : serviceDTO) : Prop := {
  ag_id : sd_id d = 0 -> sd_id a = 0; ag_addresses : sd_addresses a = []; ag_aliases : sd_aliases d = [] -> sd_aliases a = [];
  ag_url : sd_check_url d = "" -> sd_check_url a = ""; ag_ins : sd_check_insecure d = false -> sd_check_insecure a = false;
  ag_proxy : sd_proxy_address d = "" -> sd_proxy_address a = ""; ag_route : sd_route_via_proxy d = false -> sd_route_via_proxy a = false;
  ag_mac : sd_mac d = "" -> sd_mac a = "" }.
Lemma service_wire d a : is_int64 (sd_id d) = true -> agrees_service d a -> dec_struct service_fields (enc_service d) a = Some d.
Proof.
  destruct d as [d1 d2 d3 d4 d5 d6 d7 d8 d9], a as [a1 a2 a3 a4 a5 a6 a7 a8 a9]. cbn [sd_id]. intros Hi [H1 H2 H3 H4 H5 H6 H7 H8].
  cbn in H1, H2, H3, H4, H5, H6, H7, H8. subst a3. unfold enc_service, dec_struct.
  cbn [sd_id sd_name sd_addresses sd_aliases sd_check_url sd_check_insecure sd_proxy_address sd_route_via_proxy sd_mac].
  rewrite <- (app_nil_r (opt_string "mac" d9)), <- ?app_assoc. cbn [app].
  etrans; [wire_step|]. etrans; [wire_step|].
  etrans; [eapply key_step, (put_key_field service_fields "addresses" sd_addresses sd_with_addresses); [reflexivity|apply dec_addresses_enc]|]. unfold sd_with_addresses. cbn.
  repeat (etrans; [wire_step|]). reflexivity.
Qed.
Lemma record_wire d a : is_int64 (rd_id d) = true -> (rd_id d = 0 -> rd_id a = 0) -> (rd_view d = "" -> rd_view a = "") -> dec_struct record_fields (enc_record d) a = Some d.
Proof.
  destruct d as [d1 d2 d3 d4 d5], a as [a1 a2 a3 a4 a5]. cbn [rd_id rd_view]. intros Hi H1 H2. unfold enc_record, dec_struct. cbn [rd_id rd_name rd_type rd_value rd_view].
  rewrite <- (app_nil_r (opt_string "view" d5)). cbn [app]. repeat (etrans; [wire_step|]). reflexivity.
Qed.
Lemma view_wire d a : dec_struct view_fields (enc_view d) a = Some d.
Proof.
  destruct d as [d1 d2], a as [a1 a2]. unfold enc_view, dec_struct. cbn [vd_name vd_subnets]. etrans; [wire_step|].
  etrans; [eapply key_step, (put_key_field view_fields "subnets" vd_subnets (fun v d => mkViewDTO (vd_name d) v)); [reflexivity|apply dec_strings]|]. reflexivity.
Qed.
Record agrees_list (d a : blacklistListDTO) : Prop := {
  al_id : bd_id d = 0 -> bd_id a = 0; al_desc : bd_description d = "" -> bd_description a = ""; al_builtin : bd_builtin d = false -> bd_builtin a = false;
  al_entries : bd_entry_count d = 0 -> bd_entry_count a = 0; al_skipped : bd_skipped_count d = 0 -> bd_skipped_count a = 0;
  al_ok : bd_last_ok_at d = 0 -> bd_last_ok_at a = 0; al_attempt : bd_last_attempt_at d = 0 -> bd_last_attempt_at a = 0;
  al_error : bd_last_error d = "" -> bd_last_error a = "" }.
Lemma list_wire d a : Forall (fun z => is_int64 z = true) (list_ints d) -> agrees_list d a -> dec_struct list_fields (enc_list d) a = Some d.
Proof.
  destruct d as [d1 d2 d3 d4 d5 d6 d7 d8 d9 d10 d11 d12 d13], a as [a1 a2 a3 a4 a5 a6 a7 a8 a9 a10 a11 a12 a13]. unfold list_ints.
  cbn [bd_id bd_interval_seconds bd_entry_count bd_skipped_count bd_last_ok_at bd_last_attempt_at]. rewrite !Forall_cons. intros (I1 & I2 & I3 & I4 & I5 & I6 & _) [].
  cbn in *. unfold enc_list, dec_struct. cbn [bd_id bd_name bd_url bd_format bd_description bd_enabled bd_builtin bd_interval_seconds bd_entry_count bd_skipped_count bd_last_ok_at bd_last_attempt_at bd_last_error].
  rewrite <- (app_nil_r (opt_string "last_error" d13)). cbn [app]. repeat (etrans; [wire_step|]). reflexivity.
Qed.
Lemma settings_wire d a : Forall (fun z => is_int64 z = true) (ints d) -> (st_confirm_public d = "" -> st_confirm_public a = "") -> dec_struct settings_fields (enc_settings d) a = Some d.
Proof.
  destruct d as [[v1 v2 v3 v4 v5 v6 v7 v8 v9 v10 v11 v12 v13 v14 v15 v16 v17 v18 v19 v20 v21 v22 v23 v24 v25] c], a as [[a1 a2 a3 a4 a5 a6 a7 a8 a9 a10 a11 a12 a13 a14 a15 a16 a17 a18 a19 a20 a21 a22 a23 a24 a25] e].
  unfold ints. cbn [st_row st_confirm_public TTL CacheMinTTL CacheMaxTTL NegativeMaxTTL CacheEntries DiscoveryInterval HealthInterval HealthTimeout HealthWorkers DHCPLeaseSeconds].
  rewrite !Forall_cons. intros (I1 & I2 & I3 & I4 & I5 & I6 & I7 & I8 & I9 & I10 & _) Hc. unfold enc_settings, dec_struct. cbn [st_row st_confirm_public].
  rewrite <- (app_nil_r (opt_string "confirm_public" c)). cbn -[put_keys settings_fields enc_strings opt_string]. repeat (etrans; [wire_step|]). reflexivity.
Qed.
Lemma to_settings v : toSettingsDTO v = mkSettingsDTO v "".
Proof. by destruct v. Qed.
Lemma from_settings d : fromSettingsDTO d = st_row d.
Proof. by destruct d as [[] c]. Qed.

(** ** A body changes the fields it names *)
Definition field_of {A} (fs : list (Field A)) (key : string) : option string := fd_name <$> find_field key fs.
Definition value_of {A} (fs : list (Field A)) (k : string) (kvs : list (string * JSON)) : option JSON :=
  snd <$> List.find (fun kv => bool_decide (field_of fs kv.1 = Some k)) kvs.
(** [get] of the result: decoded onto the old value if the body names the field, the
    old value if it does not. *)
Definition given {A B} (fs : list (Field A)) (kvs : list (string * JSON)) (a a' : A) (k : string) (dec : Decoder B) (get : A -> B) : Prop :=
  match value_of fs k kvs with Some j => dec j (get a) = Some (get a') | None => get a' = get a end.
Definition only {A B} (fs : list (Field A)) (k : string) (get : A -> B) : Prop :=
  forall f, f ∈ fs -> fd_name f <> k -> forall j a a', fd_put f j a = Some a' -> get a' = get a.
Definition puts {A B} (fs : list (Field A)) (k : string) (dec : Decoder B) (get : A -> B) : Prop :=
  forall f, f ∈ fs -> fd_name f = k -> forall j a a', fd_put f j a = Some a' -> dec j (get a) = Some (get a').
Lemma find_field_in {A} key (fs : list (Field A)) f : find_field key fs = Some f -> f ∈ fs.
Proof.
  unfold find_field. destruct (List.find _ fs) as [g|] eqn:E.
  - intros [= <-]. apply list_elem_of_In. by apply find_some in E as [H _].
  - intros H. apply list_elem_of_In. by apply find_some in H as [H _].
Qed.
Lemma put_keys_merge {A B} (fs : list (Field A)) k (dec : Decoder B) get kvs : only fs k get -> puts fs k dec get -> forall a a',
  NoDup (omap (field_of fs) kvs.*1) -> put_keys fs kvs a = Some a' -> given fs kvs a a' k dec get.
Proof.
  intros Ho Hp. induction kvs as [|[key j] kvs IH]; intros a a' Hnd H; cbn in H; [by injection H as <-|].
  destruct (put_key fs (key, j) a) as [b|] eqn:E; [|done]. cbn in H.
  assert (Hnd' : NoDup (omap (field_of fs) kvs.*1)) by (cbn in Hnd; destruct (field_of fs key); [by apply NoDup_cons in Hnd as [_ ?]|done]).
  specialize (IH b a' Hnd' H). unfold given, value_of in *. cbn [List.find fst]. unfold put_key in E. cbn [fst snd] in E.
  destruct (find_field key fs) as [f|] eqn:F; cycle 1.
  { injection E as <-. assert (Hk : field_of fs key = None) by (unfold field_of; by rewrite F). rewrite bool_decide_false by (by rewrite Hk). exact IH. }
  assert (Hk : field_of fs key = Some (fd_name f)) by (unfold field_of; by rewrite F).
  apply find_field_in in F. case_bool_decide as N.
  - rewrite Hk in N. injection N as N. cbn [fmap option_fmap option_map snd]. rewrite (Hp f F N j a b E).
    assert (Hno : List.find (fun kv => bool_decide (field_of fs kv.1 = Some k)) kvs = None).
    { destruct (List.find _ kvs) as [kv|] eqn:D; [|done]. exfalso. apply find_some in D as [D1 D2]. apply bool_decide_eq_true in D2.
      cbn in Hnd. rewrite Hk in Hnd. apply NoDup_cons in Hnd as [Hnd _]. apply Hnd. rewrite N. apply list_elem_of_omap. exists kv.1.
      split; [|done]. apply list_elem_of_fmap. exists kv. split; [done|by apply list_elem_of_In]. }
    rewrite Hno in IH. cbn in IH. by rewrite IH.
  - assert (Hg : get b = get a) by (eapply (Ho f F); [congruence|exact E]). destruct (List.find _ kvs) as [kv|]; cbn in *; congruence.
Qed.
Lemma only_cons {A B} f (fs : list (Field A)) k (get : A -> B) : (fd_name f <> k -> forall j a a', fd_put f j a = Some a' -> get a' = get a) -> only fs k get -> only (f :: fs) k get.
Proof. intros H1 H2 g [->|Hg]%elem_of_cons; [done|by apply H2]. Qed.
Lemma puts_cons {A B} f (fs : list (Field A)) k (dec : Decoder B) (get : A -> B) : (fd_name f = k -> forall j a a', fd_put f j a = Some a' -> dec j (get a) = Some (get a')) ->
  puts fs k dec get -> puts (f :: fs) k dec get.
Proof. intros H1 H2 g [->|Hg]%elem_of_cons; [done|by apply H2]. Qed.
Lemma field_put {A B} n (get : A -> B) set dec j a a' : fd_put (field n get set dec) j a = Some a' -> exists v, dec j (get a) = Some v /\ a' = set v a.
Proof. cbn. destruct (dec j (get a)) as [v|]; [|done]. intros [= <-]. by exists v. Qed.
Ltac merge_field := apply put_keys_merge; [
    repeat (apply only_cons; [try (by intros []); intros _ j x x' Hf; apply field_put in Hf as (v & _ & ->); reflexivity|]); by intros f Hf%not_elem_of_nil
  | repeat (apply puts_cons; [try done; intros _ j x x' Hf; apply field_put in Hf as (v & Hf & ->); exact Hf|]); by intros f Hf%not_elem_of_nil | done | done ].
Definition service_merge (kvs : list (string * JSON)) (d d' : serviceDTO) : Prop :=
  let g {B} := @given serviceDTO B service_fields kvs d d' in
  g "id" dec_int sd_id /\ g "name" dec_string sd_name /\ g "addresses" (dec_slice addressDTO0 (dec_struct address_fields)) sd_addresses /\
  g "aliases" (dec_slice "" dec_string) sd_aliases /\ g "check_url" dec_string sd_check_url /\ g "check_insecure" dec_bool sd_check_insecure /\
  g "proxy_address" dec_string sd_proxy_address /\ g "route_via_proxy" dec_bool sd_route_via_proxy /\ g "mac" dec_string sd_mac.
Lemma service_patch kvs d d' : NoDup (omap (field_of service_fields) kvs.*1) -> put_keys service_fields kvs d = Some d' -> service_merge kvs d d'.
Proof. intros Hn H. unfold service_merge. repeat split; merge_field. Qed.

(** Two ways a key escapes the reset [updateService] makes for a body that names the
    addresses: the long s folds into the field's name and not into its lower case, and
    [null] inside an array leaves the element it meets. *)
Definition long_s : string := str [chr 197; chr 191].
Lemma folded_key_merges :
  let kvs := [("addre" +:+ long_s +:+ long_s +:+ "e" +:+ "s", JArray [JObject [("address", JString "203.0.113.9")]])] in
  ("addresses" ∉ ToLower <$> kvs.*1) /\
  (sd_addresses <$> put_keys service_fields kvs (sd_with_addresses [mkAddressDTO "100.64.0.9" "vpn"] serviceDTO0)) = Some [mkAddressDTO "203.0.113.9" "vpn"].
Proof. cbv zeta. split; [by apply (bool_decide_unpack _); vm_compute|vm_compute; reflexivity]. Qed.
Lemma null_alias_keeps : forall d a l, sd_aliases d = a :: l -> (sd_aliases <$> put_keys service_fields [("aliases", JArray [JNull])] d) = Some [a].
Proof. intros [] a l H. cbn in H. subst. reflexivity. Qed.
