(* ===== verification/AdminApi.v ===== *)
(** * The admin API: [internal/adminapi/]

    Every handler over the services it calls, the route table, the bearer-token check
    and the write gate.  A request carries its decoded path segments, and its body as
    what [encoding/json] and [yaml.v3] make of it.  The world is the running node of
    [Live] with its role, pull loop and invitation book; what a request reads from
    outside (the clock, random bytes, the host, the network, the lease source) is an
    environment.  The backup handlers write local settings and the
    audit log only and are a parameter here, which [BackupApi] instantiates.  Bodies of [stats] and of an export stay structured. *)
From S2P Require Import Prelude GoStr PolicyName Policy PolicyService RegistryValidate Registry.
From S2P Require Import NetIP NetIPPrint Model Zone ZoneHolder Store StoreNode StoreProps DnsMsg DnsMetrics DnsCache DnsAuth DnsForward Upstream.
From S2P Require Import SettingsValidate Settings Ticker Health DhcpAlloc DhcpReserve DhcpServer ReplicaSync Replica Pairing Role DhcpRunner Live Json AdminDto.

(** ** Requests, responses, the world *)
Record Body := mkBody { bo_readable : bool; bo_json : option JSON; bo_doc : option transfer }.
Record ApiRequest := mkApiRequest { ar_Method : string; ar_segs : list string; ar_clean : bool; ar_Authorization : string;
  ar_query : list (string * string); ar_body : Body }.
Definition URLPath (r : ApiRequest) : string := "/" +:+ GoStr.Join (ar_segs r) "/".
Definition QueryGet (k : string) (r : ApiRequest) : string := default "" (snd <$> List.find (fun p => bool_decide (p.1 = k)) (ar_query r)).
Record StatsBody := mkStatsBody { sb_metrics : option Metrics; sb_refusals : option RefusalStats; sb_entries : option Z;
  sb_blocked : option (Z * gmap string Z * list (string * Z)) }.
Record DHCPStatus := mkDHCPStatus { ds_running : bool; ds_error : option runner_error; ds_supported : bool; ds_reason : option string;
  ds_foreign : list (string * string); ds_problems : list ReservationProblem; ds_dual_stack : bool }.
Inductive Response :=
  | RErr (status : Z) (code field : string) | RJson (status : Z) (body : JSON) | RNoContent
  | RStatus (st : ReplicaStatus) | RStats (s : StatsBody) | RExport (json : bool) (doc : transfer) | RDHCP (s : DHCPStatus) | RBackup (status : Z) (body : string)
  | RHealthz | RMoved | RNotFound | RMethodNotAllowed.
(** Which optional parts the API was built with, this node's configured primary and
    its own key. *)
Record API := mkAPI { ap_leases : bool; ap_discoveryOn : bool; ap_health : bool; ap_policy : bool; ap_settings : bool; ap_metrics : bool; ap_acl : bool;
  ap_cache : bool; ap_dhcp : bool; ap_status : bool; ap_admin : bool; ap_joiner : bool; ap_promoter : bool; ap_primary : string; ap_nodeID : string }.
Record ApiWorld := mkAW { aw_node : Node; aw_role : Role; aw_pulling : bool; aw_book : option InviteBook }.
Record Env := mkEnv { en_now : Z; en_random : list Z; en_host : Host; en_leases : list SourceLease; en_puller : option Puller; en_metrics : Metrics;
  en_HTTPDo : HTTPRequest -> result string HTTPResponse; en_fetched : BlacklistList -> Z;
  en_peek : string -> result string string; en_post : string -> string -> string -> result string string; en_record : DB -> option string;
  en_fails : bool * bool }.

(** A route of [http.ServeMux]: a segment in braces stands for any non-empty one, whose
    value the handler is given. *)
Record Route (H : Type) := mkRoute { rt_Method : string; rt_pat : list string; rt_handler : H }.
Arguments mkRoute {H}. Arguments rt_Method {H}. Arguments rt_pat {H}. Arguments rt_handler {H}.
Fixpoint match_pat (pat segs : list string) : option (list string) :=
  match pat, segs with
  | [], [] => Some []
  | p :: pat, s :: segs =>
      if HasPrefix p "{" then (if bool_decide (s = "") then None else (fun args => s :: args) <$> match_pat pat segs)
      else if bool_decide (p = s) then match_pat pat segs else None
  | _, _ => None
  end.
Definition method_match (pattern method : string) : bool := bool_decide (pattern = method) || (bool_decide (pattern = "GET") && bool_decide (method = "HEAD")).
Definition find_route {H} (method : string) (segs : list string) (rs : list (Route H)) : option (H * list string) :=
  head (omap (fun rt => if method_match (rt_Method rt) method then (fun args => (rt_handler rt, args)) <$> match_pat (rt_pat rt) segs else None) rs).

(** ** Errors *)
Inductive api_err := AInvalid (field code : string) | AStore (e : store_error) | AOther.
Definition of_reg {E} (e : reg_error E) : api_err :=
  match e with RegInvalid v => AInvalid (ve_Field v) (ve_Code v) | RegStore e => AStore e | RegChange _ => AOther end.
Definition of_policy (e : policy_error) : api_err :=
  match e with PolicyService.Invalid f c => AInvalid f c | PolicyService.StoreFailed e => AStore e | BadManifest | RefreshFailed _ => AOther end.
Definition of_set (e : set_error) : api_err := match e with Settings.StoreFailed e => AStore e | _ => AOther end.
Definition writeRegistryErr (e : api_err) : Response :=
  match e with
  | AInvalid f c => RErr 400 c f
  | AStore ErrNotFound => RErr 404 "not_found" ""
  | AStore ErrViewInUse => RErr 409 "view_in_use" "name"
  | AStore ErrDuplicateName | AStore ErrDuplicateCIDR => RErr 409 "conflict" "name"
  | AStore _ | AOther => RErr 500 "internal" ""
  end.
Definition writeSettingsErr (e : set_error) : Response :=
  match e with
  | Rule (FieldError f) => RErr 400 "invalid" f
  | ReadOnlyReplica => RErr 409 "read_only_replica" ""
  | e => writeRegistryErr (of_set e)
  end.

(** ** Reading a request *)
Definition bodyBytes (r : ApiRequest) : result Response Body := if bo_readable (ar_body r) then Ok (ar_body r) else Err (RErr 400 "malformed_json" "").
Definition unmarshal {A} (dec : Decoder A) (a : A) (b : Body) : result Response A :=
  match bo_json b ≫= (fun j => dec j a) with Some x => Ok x | None => Err (RErr 400 "malformed_json" "") end.
Definition body_keys (b : Body) : result Response (list string) :=
  match bo_json b with
  | Some j => match dec_keys j with Some ks => Ok ks | None => Err (RErr 400 "malformed_json" "") end
  | None => Err (RErr 400 "malformed_json" "")
  end.
Definition decode {A} (dec : Decoder A) (a : A) (r : ApiRequest) : result Response A := b <-? bodyBytes r ;; unmarshal dec a b.
Definition pathID (s : string) : result Response Z := match ParseInt s with Some id => Ok id | None => Err (RErr 400 "id_invalid" "id") end.
Definition ruleKind (s : string) : result Response string :=
  let kind := ToLower s in
  if negb (bool_decide (kind = PolicyAllow)) && negb (bool_decide (kind = PolicyDeny)) then Err (RErr 404 "not_found" "kind") else Ok kind.
Definition jid (id : Z) : JSON := JObject [("id", JInt id)].

Section AdminApi.
Context (backup_handler : string -> ApiRequest -> DB -> gmap string string * Response).
Context (url_Parse : string -> option ParsedURL) (LookupPort : string -> option Z).
Context (IsDomainName : string -> bool) (SplitDomainName : string -> list string).
Context (Fqdn : string -> string) (sha256 : list ascii -> list Z).
Context (toASCII : string -> option string) (list_url : string -> option PolicyService.URL) (manifest : Manifest).
Abbreviation W := ApiWorld.
Abbreviation node_set := (node_set url_Parse LookupPort IsDomainName SplitDomainName Fqdn).
Abbreviation CheckWrite := (CheckWrite url_Parse LookupPort IsDomainName SplitDomainName).
Implicit Types (w : W).

(** The parts of the world a service call sees. *)
Definition db_of w : DB := sw_db (nd_sw (aw_node w)).
Definition with_node (n : Node) w : W := mkAW n (aw_role w) (aw_pulling w) (aw_book w).
Definition with_aw_db (db : DB) w : W := with_node (mkNode (with_sw_db db (nd_sw (aw_node w))) (nd_live (aw_node w)) (nd_policy (aw_node w))) w.
Definition reg_call {A} (f : (DB -> Live -> Live * option (rebuild_error store_error)) -> RegWorld Live -> RegWorld Live * result (reg_error (rebuild_error store_error)) A) w
    : W * result api_err A :=
  let n := aw_node w in
  let '(g, r) := f (registry_changed Fqdn (sw_cur (nd_sw n))) (mkRegWorld (sw_db (nd_sw n)) (lv_regzone (nd_live n)) (nd_live n)) in
  (with_node (mkNode (with_sw_db (rg_db g) (nd_sw n)) (rg_live g) (nd_policy n)) w, match r with Ok a => Ok a | Err e => Err (of_reg e) end).
Definition pol_call {A} (f : PolicyWorld -> PolicyWorld * result policy_error A) w : W * result policy_error A :=
  let n := aw_node w in
  let '(p, r) := f (mkPW (sw_db (nd_sw n)) (nd_policy n)) in
  (with_node (mkNode (with_sw_db (pw_db p) (nd_sw n)) (nd_live n) (pw_holder p)) w, r).
Definition pol_api {A} (x : W * result policy_error A) : W * result api_err A :=
  (x.1, match x.2 with Ok a => Ok a | Err e => Err (of_policy e) end).
(** A failed step answers; a step that succeeds goes on. *)
Definition answer {A} (r : result Response A) w (k : A -> W * Response) : W * Response := match r with Ok a => k a | Err resp => (w, resp) end.
Definition then_ {A} (x : W * result api_err A) (k : A -> W -> W * Response) : W * Response :=
  match x with (w, Ok a) => k a w | (w, Err e) => (w, writeRegistryErr e) end.
Definition Handler : Type := Env -> ApiRequest -> list string -> W -> W * Response.
Definition path_value (args : list string) : string := default "" (head args).

(** ** api.go: services, records, views *)
Definition listServices : Handler := fun e r args w =>
  match Services (db_of w) with
  | Err e => (w, writeRegistryErr (AStore e))
  | Ok svcs => (w, RJson 200 (JObject [("services", JArray ((fun s => enc_service (toServiceDTO s)) <$> svcs))]))
  end.
Definition createService : Handler := fun e r args w =>
  answer (decode (dec_struct service_fields) serviceDTO0 r) w (fun d =>
  then_ (reg_call (fun onChange => RegPutService onChange (fromServiceDTO d)) w) (fun id w => (w, RJson 201 (jid id)))).
Definition getService : Handler := fun e r args w =>
  answer (pathID (path_value args)) w (fun id =>
  match Service_ (db_of w) id with
  | Err e => (w, writeRegistryErr (AStore e))
  | Ok svc => (w, RJson 200 (enc_service (toServiceDTO svc)))
  end).
Definition updateService : Handler := fun e r args w =>
  answer (pathID (path_value args)) w (fun id =>
  match Service_ (db_of w) id with
  | Err e => (w, writeRegistryErr (AStore e))
  | Ok cur =>
      answer (bodyBytes r) w (fun body =>
      answer (body_keys body) w (fun keys =>
      let d := toServiceDTO cur in
      let d := if bool_decide ("addresses" ∈ ToLower <$> keys) then sd_with_addresses [] d else d in
      answer (unmarshal (dec_struct service_fields) d body) w (fun d =>
      then_ (reg_call (fun onChange => RegPutService onChange (svc_with_id id (fromServiceDTO d))) w) (fun _ w => (w, RJson 200 (jid id))))))
  end).
Definition deleteService : Handler := fun e r args w =>
  answer (pathID (path_value args)) w (fun id =>
  then_ (reg_call (fun onChange => RegDeleteService onChange id) w) (fun _ w => (w, RNoContent))).
Definition listRecords : Handler := fun e r args w =>
  (w, RJson 200 (JObject [("records", JArray ((fun x => enc_record (toRecordDTO x)) <$> Records (db_of w)))])).
Definition createRecord : Handler := fun e r args w =>
  answer (decode (dec_struct record_fields) recordDTO0 r) w (fun d =>
  then_ (reg_call (fun onChange => RegPutRecord onChange (fromRecordDTO d)) w) (fun id w => (w, RJson 201 (jid id)))).
Definition deleteRecord : Handler := fun e r args w =>
  answer (pathID (path_value args)) w (fun id =>
  then_ (reg_call (fun onChange => RegDeleteRecord onChange id) w) (fun _ w => (w, RNoContent))).
Definition listViews : Handler := fun e r args w =>
  (w, RJson 200 (JObject [("views", JArray ((fun v => enc_view (toViewDTO v)) <$> Views (db_of w)))])).
Definition createView : Handler := fun e r args w =>
  answer (decode (dec_struct view_fields) viewDTO0 r) w (fun d =>
  then_ (reg_call (fun onChange => RegPutView onChange (fromViewDTO d)) w) (fun _ w => (w, RJson 201 (JObject [("name", JString (vd_name d))])))).
Definition deleteView : Handler := fun e r args w =>
  then_ (reg_call (fun onChange => RegDeleteView onChange (path_value args)) w) (fun _ w => (w, RNoContent)).

(** ** Tokens *)
Definition listTokens : Handler := fun e r args w =>
  (w, RJson 200 (JObject [("tokens", JArray ((fun t => JObject [("created_at", JInt (t_CreatedAt t)); ("id", JInt (t_ID t)); ("label", JString (t_Label t));
    ("last_used_at", JInt (t_LastUsedAt t))]) <$> Tokens (db_of w)))])).
Definition label_fields : list (Field string) := [field "label" (fun s => s) (fun v _ => v) dec_string].
Definition createToken : Handler := fun e r args w =>
  answer (decode (dec_struct label_fields) "" r) w (fun label =>
  match CreateToken sha256 (unix (en_now e)) (en_random e) label (db_of w) with
  | (db, Err e) => (with_aw_db db w, writeRegistryErr (AStore e))
  | (db, Ok plaintext) => (with_aw_db db w, RJson 201 (JObject [("label", JString label); ("token", JString plaintext)]))
  end).
Definition deleteToken : Handler := fun e r args w =>
  answer (pathID (path_value args)) w (fun id =>
  match DeleteToken id (db_of w) with
  | (db, Err e) => (with_aw_db db w, writeRegistryErr (AStore e))
  | (db, Ok _) => (with_aw_db db w, RNoContent)
  end).

(** ** Leases, health, statistics *)
Definition discoveryEnabled (api : API) w : bool := ap_discoveryOn api && bool_decide (is_Some (rn_source (lv_run (nd_live (aw_node w))))).
Definition leaseList (api : API) (e : Env) : list SourceLease := if ap_leases api then en_leases e else [].
Definition listLeases (api : API) : Handler := fun e r args w =>
  (w, RJson 200 (JObject [("leases", JArray ((fun l => JObject [("address", JString (sl_IP l)); ("expires", JInt (unix (sl_Expires l)));
    ("hostname", JString (sl_Hostname l)); ("mac", JString (sl_MAC l))]) <$> leaseList api e))])).
Definition promoteLease (api : API) : Handler := fun e r args w =>
  let ip := path_value args in
  if negb (discoveryEnabled api w) then (w, RErr 404 "not_found" "ip")
  else match List.find (fun l => bool_decide (sl_IP l = ip)) (leaseList api e) with
  | None => (w, RErr 404 "not_found" "ip")
  | Some l =>
      then_ (reg_call (fun onChange => RegPutService onChange (mkService 0 (sl_Hostname l) [mkAddress 0 (sl_IP l) ""] [] "" false "" false "")) w)
        (fun id w => (w, RJson 201 (JObject [("id", JInt id); ("name", JString (sl_Hostname l))])))
  end.
Definition state_text (s : HealthState) : string := match s with StateUp => "up" | StateDown => "down" | StateUnknown => "unknown" end.
(** What [Serve] wires as the statuses: a replica shows its primary's verdict. *)
Definition healthFn (e : Env) w : list (Z * string * HealthState * Z * string) :=
  if bool_decide (aw_role w = RoleReplica) then (fun x => (x, 0, "")) <$> replicaHealth (db_of w) (en_puller e)
  else (fun s => (hs_ServiceID s, hs_Name s, hs_State s, unix (hs_Since s), hs_LastError s)) <$> Statuses (lv_checker (nd_live (aw_node w))).
Definition listHealth (api : API) : Handler := fun e r args w =>
  (w, RJson 200 (JObject [("health", JArray ((fun '(id, name, st, since, err) => JObject [("last_error", JString err); ("name", JString name);
    ("service_id", JInt id); ("since", JInt since); ("state", JString (state_text st))]) <$> if ap_health api then healthFn e w else []))])).
Definition topBlockedShown : nat := 10.
Definition stats (api : API) : Handler := fun e r args w =>
  let l := nd_live (aw_node w) in
  (w, RStats (mkStatsBody (if ap_metrics api then Some (en_metrics e) else None) (if ap_acl api then Some (Stats (lv_acl l)) else None)
    (if ap_cache api then Some (Len (f_cache (lv_fwd l))) else None)
    (if ap_policy api then let p := nd_policy (aw_node w) in Some (Counters p, TopBlocked p topBlockedShown) else None))).
Definition flushCache (api : API) : Handler := fun e r args w =>
  let n := aw_node w in
  (if ap_cache api then with_node (mkNode (nd_sw n) (with_fwd (on_cache Flush (lv_fwd (nd_live n))) (nd_live n)) (nd_policy n)) w else w, RNoContent).

(** ** blacklists.go *)
Definition requirePolicy (api : API) (h : Handler) : Handler := fun e r args w => if ap_policy api then h e r args w else (w, RErr 404 "not_found" "").
Definition set_body (b : bool) (ttl : Z) : JSON := JObject [("block_ttl", JInt ttl); ("enabled", JBool b)].
Definition getBlacklistSettings : Handler := fun e r args w =>
  let s := GetBlacklistSettings (db_of w) in (w, RJson 200 (set_body (bs_Enabled s) (bs_BlockTTL s))).
Definition blset_fields : list (Field BlacklistSettings) :=
  [field "enabled" bs_Enabled (fun v s => mkBlSettings v (bs_BlockTTL s)) dec_bool; field "block_ttl" bs_BlockTTL (fun v s => mkBlSettings (bs_Enabled s) v) dec_int].
Definition patchBlacklistSettings : Handler := fun e r args w =>
  answer (decode (dec_struct blset_fields) (GetBlacklistSettings (db_of w)) r) w (fun d =>
  then_ (pol_api (pol_call (SetSettings (bs_Enabled d) (bs_BlockTTL d)) w)) (fun _ w => (w, RJson 200 (set_body (bs_Enabled d) (bs_BlockTTL d))))).
Definition listBlacklistLists : Handler := fun e r args w =>
  (w, RJson 200 (JObject [("lists", JArray ((fun l => enc_list (toBlacklistListDTO l)) <$> BlacklistListMetas (db_of w)))])).
Definition createBlacklistList : Handler := fun e r args w =>
  answer (decode (dec_struct list_fields) newBlacklistListDTO r) w (fun d =>
  then_ (pol_api (pol_call (PutList list_url (fromBlacklistListDTO (bd_with_id 0 d))) w)) (fun id w => (w, RJson 201 (jid id)))).
Definition updateBlacklistList : Handler := fun e r args w =>
  answer (pathID (path_value args)) w (fun id =>
  match last (filter (fun l => bl_ID l = id) (BlacklistListMetas (db_of w))) with
  | None => (w, RErr 404 "not_found" "id")
  | Some cur =>
      answer (decode (dec_struct list_fields) (toBlacklistListDTO cur) r) w (fun d =>
      then_ (pol_api (pol_call (PutList list_url (fromBlacklistListDTO (bd_with_id id d))) w)) (fun _ w => (w, RJson 200 (jid id))))
  end).
Definition deleteBlacklistList : Handler := fun e r args w =>
  answer (pathID (path_value args)) w (fun id => then_ (pol_api (pol_call (DeleteList id) w)) (fun _ w => (w, RNoContent))).
(** [Service.Refresh]: every list for the id 0, one list otherwise. *)
Definition Refresh (e : Env) (id : Z) (p : PolicyWorld) : PolicyWorld * result policy_error unit :=
  if id =? 0 then
    match RefreshAll toASCII list_url (en_HTTPDo e) (en_fetched e) p with (p, []) => (p, Ok tt) | (p, _) => (p, Err (RefreshFailed "some lists failed")) end
  else RefreshList toASCII list_url (en_HTTPDo e) (unix (en_now e)) id p.
Definition refreshBlacklistList : Handler := fun e r args w =>
  let arg := path_value args in
  answer (if bool_decide (arg = "all") then Ok 0 else pathID arg) w (fun id =>
  match pol_call (Refresh e id) w with
  | (w, Ok _) => (w, RJson 200 (JObject [("refreshed", JString arg)]))
  | (w, Err (PolicyService.StoreFailed ErrNotFound)) => (w, writeRegistryErr (AStore ErrNotFound))
  | (w, Err _) => (w, RErr 502 "refresh_failed" "")
  end).
Definition listBlacklistRules : Handler := fun e r args w =>
  answer (ruleKind (path_value args)) w (fun kind =>
  (w, RJson 200 (JObject [("rules", JArray ((fun x => enc_rule (mkBlRuleDTO (br_ID x) (br_Kind x) (br_Domain x))) <$>
    filter (fun x => br_Kind x = kind) (BlacklistRules (db_of w))))]))).
Definition domain_fields : list (Field string) := [field "domain" (fun s => s) (fun v _ => v) dec_string].
Definition createBlacklistRule : Handler := fun e r args w =>
  answer (ruleKind (path_value args)) w (fun kind =>
  answer (decode (dec_struct domain_fields) "" r) w (fun domain =>
  then_ (pol_api (pol_call (AddRule toASCII kind domain) w)) (fun id w => (w, RJson 201 (jid id))))).
Definition deleteBlacklistRule : Handler := fun e r args w =>
  answer (ruleKind (path_value args)) w (fun _ =>
  answer (pathID (path_value (tail args))) w (fun id =>
  then_ (pol_api (pol_call (DeleteRule id) w)) (fun _ w => (w, RNoContent)))).
Definition testBlacklist : Handler := fun e r args w =>
  let name := QueryGet "name" r in
  if bool_decide (TrimSpace name = "") then (w, RErr 400 "name_required" "name")
  else match TestName toASCII name (mkPW (db_of w) (nd_policy (aw_node w))) with
  | Err e => (w, writeRegistryErr (of_policy e))
  | Ok d => (w, RJson 200 (JObject [("blocked", JBool (Blocked d)); ("name", JString name); ("policy", JString (d_Policy d))]))
  end.

(** ** settings.go *)
Definition getSettings (api : API) : Handler := fun e r args w =>
  if negb (ap_settings api) then (w, RErr 503 "unavailable" "")
  else match Get (nd_sw (aw_node w)) with
  | Err e => (w, writeRegistryErr (of_set e))
  | Ok cur => (w, RJson 200 (enc_settings (toSettingsDTO cur)))
  end.
Definition settings_Set (e : Env) (v : Settings) (confirm : string) w : W * result set_error unit :=
  let '(n, r) := node_set (en_host e) (aw_role w) v confirm (aw_node w) in (with_node n w, r).
Definition patchSettings (api : API) : Handler := fun e r args w =>
  if negb (ap_settings api) then (w, RErr 503 "unavailable" "")
  else match Get (nd_sw (aw_node w)) with
  | Err e => (w, writeRegistryErr (of_set e))
  | Ok cur =>
      answer (decode (dec_struct settings_fields) (toSettingsDTO cur) r) w (fun d =>
      match settings_Set e (fromSettingsDTO d) (st_confirm_public d) w with
      | (w, Err e) => (w, writeSettingsErr e)
      | (w, Ok _) =>
          match Get (nd_sw (aw_node w)) with
          | Err e => (w, writeRegistryErr (of_set e))
          | Ok out => (w, RJson 200 (enc_settings (toSettingsDTO out)))
          end
      end)
  end.

(** ** Export and import *)
Definition snapshotDoc (api : API) w : result api_err transfer :=
  let db := db_of w in
  match Services db with
  | Err e => Err (AStore e)
  | Ok svcs =>
      let views := toViewDTO <$> Views db in
      let services := (fun s => toServiceDTO (svc_with_id 0 s)) <$> svcs in
      let records := (fun r => mkRecordDTO 0 (r_Name r) (r_Type r) (r_Value r) (r_View r)) <$> Records db in
      let bl := if ap_policy api then
          let s := GetBlacklistSettings db in
          Some (mkBlDoc (bs_Enabled s) (bs_BlockTTL s)
            ((fun l => mkBlListDTO 0 (bl_Name l) (bl_URL l) (bl_Format l) (bl_Description l) (bl_Enabled l) (bl_Builtin l) (bl_IntervalSeconds l) 0 0 0 0 "") <$> BlacklistListMetas db)
            ((fun x => mkBlRuleDTO 0 (br_Kind x) (br_Domain x)) <$> BlacklistRules db))
        else None in
      if ap_settings api then
        match Get (nd_sw (aw_node w)) with
        | Err e => Err (of_set e)
        | Ok cur => Ok (mkTransfer views services records bl (Some (toSettingsDTO cur)))
        end
      else Ok (mkTransfer views services records bl None)
  end.
Definition export (api : API) : Handler := fun e r args w =>
  match snapshotDoc api w with
  | Err _ => (w, RErr 500 "encode" "")
  | Ok doc => (w, RExport (bool_decide (QueryGet "format" r = "json")) doc)
  end.
(** A loop that stops at the first error and keeps what it did. *)
Fixpoint each {A T} (f : A -> W -> W * result api_err T) (l : list A) w : W * result api_err unit :=
  match l with
  | [] => (w, Ok tt)
  | a :: l => match f a w with (w, Ok _) => each f l w | (w, Err e) => (w, Err e) end
  end.
Definition seq {A T} (x : W * result api_err A) (k : W -> W * result api_err T) : W * result api_err T := match x with (w, Ok _) => k w | (w, Err e) => (w, Err e) end.
Definition applyBlacklistDoc (api : API) (doc : option blacklistDoc) (replace : bool) w : W * result api_err unit :=
  match doc with
  | None => (w, Ok tt)
  | Some doc =>
      if negb (ap_policy api) then (w, Ok tt)
      else
        let lists := fromBlacklistListDTO <$> bk_lists doc in
        let rules := (fun x => mkBlRule 0 (ud_kind x) (ud_domain x)) <$> bk_rules doc in
        if replace then pol_api (pol_call (ReplacePolicy toASCII list_url manifest (mkBlSettings (bk_enabled doc) (bk_block_ttl doc)) lists rules) w)
        else
          seq (pol_api (pol_call (SetSettings (bk_enabled doc) (bk_block_ttl doc)) w)) (fun w =>
          seq (each (fun l w => pol_api (pol_call (PutList list_url l) w)) lists w) (fun w =>
          each (fun x w => pol_api (pol_call (AddRule toASCII (br_Kind x) (br_Domain x)) w)) rules w))
  end.
Definition applySettingsDoc (api : API) (e : Env) (doc : option settingsDTO) w : W * result set_error unit :=
  match doc with Some d => if ap_settings api then settings_Set e (fromSettingsDTO d) "" w else (w, Ok tt) | None => (w, Ok tt) end.
Definition import_registry (doc : transfer) (replace : bool) w : W * result api_err unit :=
  if replace then
    reg_call (fun onChange => RegReplaceAll onChange (fromViewDTO <$> tr_views doc) (fromServiceDTO <$> tr_services doc) (fromRecordDTO <$> tr_records doc)) w
  else
    seq (each (fun v w => reg_call (fun onChange => RegPutView onChange (fromViewDTO v)) w) (tr_views doc) w) (fun w =>
    seq (each (fun s w => reg_call (fun onChange => RegPutService onChange (fromServiceDTO s)) w) (tr_services doc) w) (fun w =>
    each (fun x w => reg_call (fun onChange => RegPutRecord onChange (fromRecordDTO x)) w) (tr_records doc) w)).
Definition import_check (api : API) (doc : transfer) w : result set_error unit :=
  match tr_settings doc with Some d => if ap_settings api then CheckWrite (fromSettingsDTO d) "" (nd_sw (aw_node w)) else Ok tt | None => Ok tt end.
Definition importDoc (api : API) : Handler := fun e r args w =>
  if negb (bo_readable (ar_body r)) then (w, RErr 400 "read_failed" "")
  else match bo_doc (ar_body r) with
  | None => (w, RErr 400 "malformed_document" "")
  | Some doc =>
      match import_check api doc w with
      | Err e => (w, writeSettingsErr e)
      | Ok _ =>
          let replace := bool_decide (QueryGet "mode" r = "replace") in
          then_ (seq (import_registry doc replace w) (applyBlacklistDoc api (tr_blacklist doc) replace)) (fun _ w =>
          match applySettingsDoc api e (tr_settings doc) w with
          | (w, Err e) => (w, writeSettingsErr e)
          | (w, Ok _) => (w, RJson 200 (JObject [("mode", JString (if replace then "replace" else "merge"))]))
          end)
      end
  end.

(** ** dhcp.go *)
Definition addrText (a : Addr) : string := if Addr.IsValid a then addr_string a else "".
Definition DHCPStatus_ (api : API) (e : Env) w : DHCPStatus :=
  let r := lv_run (nd_live (aw_node w)) in
  let '(running, err) := if ap_dhcp api then RunnerStatus r else (false, None) in
  let foreign := if ap_dhcp api then (fun f => (addrText (ServerID f), addrText (Offered f))) <$> rn_foreign r else [] in
  let problems := if ap_dhcp api then rn_problems r else [] in
  let base := mkDHCPStatus running err false None foreign problems false in
  if negb (ap_settings api) then base
  else match Get (nd_sw (aw_node w)) with
  | Err _ => base
  | Ok v =>
      if bool_decide (DHCPInterface v = "") then base
      else match h_qualifies (en_host e) (DHCPInterface v) with
      | Some reason => mkDHCPStatus running err false (Some reason) foreign problems false
      | None => mkDHCPStatus running err true None foreign problems
                  (match h_inspect (en_host e) (DHCPInterface v) with Ok info => if_HasGlobalIPv6 info | Err _ => false end)
      end
  end.
Definition getDHCPStatus (api : API) : Handler := fun e r args w => (w, RDHCP (DHCPStatus_ api e w)).
Definition SuggestedLeaseSeconds : Z := 86400.
Definition DHCPSuggest (h : Host) (name : string) : option JSON :=
  if bool_decide (name = "") then None
  else match h_qualifies h name with
  | Some _ => None
  | None =>
      match h_inspect h name with
      | Err _ => None
      | Ok info =>
          match SuggestRange (if_Subnet info) with
          | None => None
          | Some (start, end_) =>
              Some (JObject [("interface", JString name); ("subnet", JString (Pfx.to_string (if_Subnet info))); ("range_start", JString (addr_string start));
                ("range_end", JString (addr_string end_)); ("gateway", JString (addrText (if_Gateway info))); ("lease_seconds", JInt SuggestedLeaseSeconds);
                ("dual_stack", JBool (if_HasGlobalIPv6 info))])
          end
      end
  end.
Definition dhcpSuggest : Handler := fun e r args w =>
  match DHCPSuggest (en_host e) (QueryGet "interface" r) with Some j => (w, RJson 200 j) | None => (w, RErr 400 "invalid" "interface") end.

(** ** replicas.go *)
Definition status_of (api : API) (e : Env) w : ReplicaStatus :=
  replicaStatus (aw_role w) (ap_primary api) (ap_nodeID api) (en_now e) (if bool_decide (aw_role w = RoleReplica) then en_puller e else None).
Definition getReplicaStatus (api : API) : Handler := fun e r args w =>
  (w, RStatus (if ap_status api then status_of api e w else mkRS RoleStandalone "" "" "" 0 0 None false)).
Definition role_text (r : Role) : string := match r with RolePrimary => "primary" | RoleReplica => "replica" | RoleStandalone => "standalone" end.
(** The callback of a promotion: the DHCP listener under the new role. *)
Definition onPromote (e : Env) w : W :=
  let n := aw_node w in
  match sw_cur (nd_sw n) with
  | None => w
  | Some s =>
      let db := sw_db (nd_sw n) in
      let r := Reconcile (en_host e) (ss_Raw s) (aw_role w) (node_services db) (node_services db) (with_runner_db db (lv_run (nd_live n))) in
      with_node (mkNode (with_sw_db (rn_db r) (nd_sw n)) (with_run r (nd_live n)) (nd_policy n)) w
  end.
Definition promote_world (e : Env) w : W * result string bool :=
  let '(s, r) := Promote (unix (en_now e)) (en_fails e).1 (en_fails e).2 (mkNS (db_of w) (aw_role w) (aw_pulling w) 0) in
  let w := with_aw_db (ns_db s) w in
  let w := mkAW (aw_node w) (ns_role s) (ns_pulling s) (aw_book w) in
  (if 0 <? ns_promoted s then onPromote e w else w, r).
Definition PromoteThisNode (api : API) (e : Env) w : W * option (result string (Role * bool)) :=
  if negb (ap_promoter api) then (w, None)
  else match promote_world e w with
  | (w, Err msg) => (w, Some (Err msg))
  | (w, Ok promoted) => (w, Some (Ok (if ap_status api then aw_role w else RolePrimary, promoted)))
  end.
Definition promoteThisNode (api : API) : Handler := fun e r args w =>
  match PromoteThisNode api e w with
  | (w, None) => (w, RErr 409 "replication_disabled" "")
  | (w, Some (Err _)) => (w, RErr 500 "promote_failed" "")
  | (w, Some (Ok (role, promoted))) => (w, RJson 200 (JObject [("promoted", JBool promoted); ("role", JString (role_text role))]))
  end.
Definition join_fields : list (Field (string * string * string)) :=
  [field "address" (fun q => q.1.1) (fun v q => (v, q.1.2, q.2)) dec_string; field "code" (fun q => q.1.2) (fun v q => (q.1.1, v, q.2)) dec_string;
   field "fingerprint" (fun q => q.2) (fun v q => (q.1.1, q.1.2, v)) dec_string].
Definition peek_fields : list (Field string) := [field "address" (fun s => s) (fun v _ => v) dec_string].
Definition pairingRequest {A} (api : API) (fields : list (Field A)) (zero : A) (address : A -> string) (r : ApiRequest) : result Response A :=
  if negb (ap_joiner api) then Err (RErr 409 "replication_disabled" "")
  else q <-? decode (dec_struct fields) zero r ;; if bool_decide (TrimSpace (address q) = "") then Err (RErr 400 "address_required" "address") else Ok q.
Definition PeekFingerprint (e : Env) (address : string) : result pair_error string :=
  address <-? peerAddress address ;; match en_peek e address with Ok fp => Ok fp | Err x => Err (PeekFailed x) end.
Definition peekPrimary (api : API) : Handler := fun e r args w =>
  answer (pairingRequest api peek_fields "" (fun a => a) r) w (fun address =>
  match PeekFingerprint e address with
  | Ok fp => (w, RJson 200 (JObject [("fingerprint", JString fp)]))
  | Err _ => (w, RErr 502 "peek_failed" "address")
  end).
Inductive join_error := ErrReplicationDisabled | ErrFingerprintRequired | PairFailed (e : pair_error).
Definition JoinPrimary (api : API) (e : Env) (address code fingerprint : string) w : W * result join_error string :=
  if negb (ap_joiner api) then (w, Err ErrReplicationDisabled)
  else if bool_decide (TrimSpace fingerprint = "") then (w, Err ErrFingerprintRequired)
  else match Pairing.Join (en_peek e) (en_post e) (en_record e) address code (TrimSpace fingerprint) (db_of w) with
  | (db, _, Ok id) => (with_aw_db db w, Ok id)
  | (db, _, Err x) => (with_aw_db db w, Err (PairFailed x))
  end.
Definition joinPrimary (api : API) : Handler := fun e r args w =>
  answer (pairingRequest api join_fields ("", "", "") (fun q => q.1.1) r) w (fun q =>
  match JoinPrimary api e q.1.1 q.1.2 q.2 w with
  | (w, Ok id) => (w, RJson 200 (JObject [("primary_node_id", JString id)]))
  | (w, Err ErrFingerprintRequired) => (w, RErr 400 "fingerprint_required" "fingerprint")
  | (w, Err (PairFailed ErrFingerprintRejected)) => (w, RErr 409 "fingerprint_mismatch" "fingerprint")
  | (w, Err _) => (w, RErr 502 "pair_failed" "address")
  end).
Definition thisNodeID (api : API) : string := if ap_status api then ap_nodeID api else "".
Definition InviteReplica (api : API) (e : Env) w : W * option (Invite * string) :=
  if negb (ap_admin api) then (w, None)
  else if bool_decide (thisNodeID api = "") then (w, None)
  else match aw_book w with
  | None => (w, None)
  | Some b => let '(b, inv) := Mint (en_random e) (en_now e) b in (mkAW (aw_node w) (aw_role w) (aw_pulling w) (Some b), Some (inv, thisNodeID api))
  end.
Definition inviteReplica (api : API) : Handler := fun e r args w =>
  match InviteReplica api e w with
  | (w, None) => (w, RErr 409 "replication_disabled" "")
  | (w, Some (inv, id)) => (w, RJson 201 (JObject [("code", JString (i_Code inv)); ("expires_at", JInt (unix (i_ExpiresAt inv))); ("node_id", JString id)]))
  end.
Inductive replica_status := StatusNeverSynced | StatusBehind | StatusInSync.
Definition status_text (s : replica_status) : string := match s with StatusNeverSynced => "never_synced" | StatusBehind => "behind" | StatusInSync => "in_sync" end.
Record ReplicaRow := mkRow { rr_peer : Peer; rr_lag : Z; rr_status : replica_status }.
Definition toReplicaRow (p : Peer) (version : Z) : ReplicaRow :=
  let lag := int64 (version - p_LastVersion p) in
  let lag := if lag <? 0 then 0 else lag in
  mkRow p lag (if p_LastSyncAt p =? 0 then StatusNeverSynced else if 0 <? lag then StatusBehind else StatusInSync).
Definition ReplicaRows (api : API) w : list ReplicaRow * Z :=
  if negb (ap_admin api) then ([], 0) else let v := ConfigVersion (db_of w) in ((fun p => toReplicaRow p v) <$> Peers (db_of w), v).
Definition enc_row (x : ReplicaRow) : JSON :=
  let p := rr_peer x in
  JObject ([("node_id", JString (p_NodeID p))] ++ opt_string "label" (p_Label p) ++ opt_string "address" (p_Address p) ++ opt_int "paired_at" (p_PairedAt p) ++
    [("last_sync_at", JInt (p_LastSyncAt p)); ("last_version", JInt (p_LastVersion p)); ("lag", JInt (rr_lag x)); ("status", JString (status_text (rr_status x)))]).
Definition listReplicas (api : API) : Handler := fun e r args w =>
  let '(rows, version) := ReplicaRows api w in (w, RJson 200 (JObject [("config_version", JInt version); ("replicas", JArray (enc_row <$> rows))])).
Definition RemoveReplica (api : API) (id : string) w : W * option (result store_error unit) :=
  if negb (ap_admin api) then (w, None) else let '(db, r) := DeletePeer id (db_of w) in (with_aw_db db w, Some r).
Definition removeReplica (api : API) : Handler := fun e r args w =>
  match RemoveReplica api (path_value args) w with
  | (w, None) => (w, RErr 404 "not_found" "node_id")
  | (w, Some (Err x)) => (w, writeRegistryErr (AStore x))
  | (w, Some (Ok _)) => (w, RNoContent)
  end.

(** ** Tokens, routes and the gate *)
Definition authenticated (e : Env) (r : ApiRequest) w : W * bool :=
  let token := TrimPrefix (ar_Authorization r) "Bearer " in
  if bool_decide (token = "") then (w, false)
  else let '(db, ok) := AuthenticateToken sha256 (unix (en_now e)) token (db_of w) in (with_aw_db db w, ok).
Definition auth (h : Handler) : Handler := fun e r args w =>
  let '(w, ok) := authenticated e r w in if ok then h e r args w else (w, RErr 401 "unauthenticated" "").
Definition with_local (l : gmap string string) (db : DB) : DB := mkDB (conf db) (set_local (node db) l).
Definition backup (op : string) : Handler := fun e r args w =>
  let db := db_of w in
  let '(l, resp) := backup_handler op r db in (with_aw_db (with_local l db) w, resp).
Definition healthz : Handler := fun e r args w => (w, RHealthz).
Definition v1 (method : string) (pat : list string) (h : Handler) : Route Handler := mkRoute method ("api" :: "v1" :: pat) (auth h).
Definition routes (api : API) : list (Route Handler) :=
  [mkRoute "GET" ["healthz"] healthz; mkRoute "GET" ["api"; "v1"; "healthz"] healthz;
   v1 "GET" ["services"] listServices; v1 "POST" ["services"] createService; v1 "GET" ["services"; "{id}"] getService;
   v1 "PATCH" ["services"; "{id}"] updateService; v1 "DELETE" ["services"; "{id}"] deleteService;
   v1 "GET" ["records"] listRecords; v1 "POST" ["records"] createRecord; v1 "DELETE" ["records"; "{id}"] deleteRecord;
   v1 "GET" ["views"] listViews; v1 "POST" ["views"] createView; v1 "DELETE" ["views"; "{name}"] deleteView;
   v1 "GET" ["tokens"] listTokens; v1 "POST" ["tokens"] createToken; v1 "DELETE" ["tokens"; "{id}"] deleteToken;
   v1 "GET" ["export"] (export api); v1 "POST" ["import"] (importDoc api);
   v1 "GET" ["leases"] (listLeases api); v1 "POST" ["leases"; "{ip}"; "promote"] (promoteLease api);
   v1 "GET" ["dhcp"; "status"] (getDHCPStatus api); v1 "GET" ["dhcp"; "suggest"] dhcpSuggest;
   v1 "GET" ["health"] (listHealth api); v1 "GET" ["stats"] (stats api); v1 "POST" ["cache"; "flush"] (flushCache api);
   v1 "GET" ["blacklists"; "settings"] (requirePolicy api getBlacklistSettings); v1 "PATCH" ["blacklists"; "settings"] (requirePolicy api patchBlacklistSettings);
   v1 "GET" ["blacklists"; "lists"] (requirePolicy api listBlacklistLists); v1 "POST" ["blacklists"; "lists"] (requirePolicy api createBlacklistList);
   v1 "PATCH" ["blacklists"; "lists"; "{id}"] (requirePolicy api updateBlacklistList); v1 "DELETE" ["blacklists"; "lists"; "{id}"] (requirePolicy api deleteBlacklistList);
   v1 "POST" ["blacklists"; "lists"; "{id}"; "refresh"] (requirePolicy api refreshBlacklistList);
   v1 "GET" ["blacklists"; "rules"; "{kind}"] (requirePolicy api listBlacklistRules); v1 "POST" ["blacklists"; "rules"; "{kind}"] (requirePolicy api createBlacklistRule);
   v1 "DELETE" ["blacklists"; "rules"; "{kind}"; "{id}"] (requirePolicy api deleteBlacklistRule); v1 "GET" ["blacklists"; "test"] (requirePolicy api testBlacklist);
   v1 "GET" ["settings"] (getSettings api); v1 "PATCH" ["settings"] (patchSettings api);
   v1 "GET" ["replica"; "status"] (getReplicaStatus api);
   v1 "POST" ["backup"; "drill"] (backup "drill"); v1 "GET" ["backup"; "export-capsule"] (backup "export-capsule"); v1 "POST" ["backup"; "pair-remote"] (backup "pair-remote");
   v1 "POST" ["backup"; "pin-key"] (backup "pin-key"); v1 "DELETE" ["backup"; "pairing"] (backup "pairing"); v1 "PUT" ["backup"; "schedule"] (backup "schedule");
   v1 "POST" ["backup"; "deposit"] (backup "deposit"); v1 "GET" ["backup"; "status"] (backup "status");
   v1 "POST" ["replica"; "pair"; "peek"] (peekPrimary api); v1 "POST" ["replica"; "join"] (joinPrimary api); v1 "POST" ["replica"; "promote"] (promoteThisNode api);
   v1 "POST" ["replicas"; "invite"] (inviteReplica api); v1 "GET" ["replicas"] (listReplicas api); v1 "DELETE" ["replicas"; "{node_id}"] (removeReplica api)].
(** [http.ServeMux]: the route of the method and path, or why there is none. *)
Definition mux (api : API) (e : Env) (r : ApiRequest) w : W * Response :=
  if negb (ar_clean r) then (w, RMoved)
  else match find_route (ar_Method r) (ar_segs r) (routes api) with
  | Some (h, args) => h e r args w
  | None => (w, if existsb (fun rt => bool_decide (is_Some (match_pat (rt_pat rt) (ar_segs r)))) (routes api) then RMethodNotAllowed else RNotFound)
  end.
Definition writeExempt : list string := ["/api/v1/replica/pair/peek"; "/api/v1/replica/join"; "/api/v1/replica/promote"; "/api/v1/settings"].
Definition PathPrefix : string := "/api/v1/".
Definition WriteGate (api : API) (next : Env -> ApiRequest -> W -> W * Response) (e : Env) (r : ApiRequest) w : W * Response :=
  if negb (HasPrefix (URLPath r) PathPrefix) || is_get (ar_Method r) || bool_decide (URLPath r ∈ writeExempt) || negb (ap_status api) then next e r w
  else if negb (bool_decide (rst_Role (status_of api e w) = RoleReplica)) then next e r w
  else
    let '(w, ok) := authenticated e r w in
    if ok then (w, RErr 409 "read_only_replica" "") else next e r w.
(** [API.Handler]. *)
Definition ApiHandler (api : API) : Env -> ApiRequest -> W -> W * Response := WriteGate api (mux api).
End AdminApi.
