(* ===== verification/AdminApiProps.v ===== *)
(** * What the admin API guarantees: theorems about [AdminApi]

    Who may change what, what a patch and an import do, and that every request leaves
    the running components as the settings describe them. *)
From S2P Require Import Prelude GoStr PolicyName Policy PolicyService RegistryValidate Registry.
From S2P Require Import NetIP NetIPPrint Model Zone ZoneHolder Store StoreNode StoreVersion StoreProps DnsMsg DnsMetrics DnsCache DnsAuth DnsForward Upstream.
From S2P Require Import SettingsValidate Settings Ticker Health DhcpAlloc DhcpReserve DhcpServer ReplicaSync Replica Pairing Role DhcpRunner Live Json AdminDto AdminApi.

(** ** Lemmas: what the DHCP runner and the settings leave alone *)
Lemma live_apply_conf Fqdn h role cur s db l : conf (LiveApply Fqdn h role cur s db l).1 = conf db.
Proof.
  unfold LiveApply. cbn [fst]. unfold apply_monitors. cbn [lv_run]. destruct (follow_source_running (ss_Raw s)
    (Reconcile h (ss_Raw s) role (node_services db) (node_services db) (with_runner_db db (lv_run (apply_dns s (apply_zone Fqdn s l)))))) as (_ & -> & _).
  by rewrite reconcile_conf.
Qed.
Lemma node_apply_conf Fqdn h role w n : conf (sw_db (nd_sw (node_apply Fqdn h role w n))) = conf (sw_db w).
Proof.
  unfold node_apply. destruct (sw_cur w) as [s|] eqn:E; [|done]. rewrite <- E. pose proof (live_apply_conf Fqdn h role (sw_cur w) s (sw_db w) (nd_live n)) as H.
  by destruct (LiveApply _ _ _ _ _ _ _) as [db l].
Qed.

Section Props.
Context (backup_handler : string -> ApiRequest -> DB -> gmap string string * Response).
Context (url_Parse : string -> option ParsedURL) (LookupPort : string -> option Z).
Context (IsDomainName : string -> bool) (SplitDomainName : string -> list string).
Context (Fqdn : string -> string) (sha256 : list ascii -> list Z).
Context (toASCII : string -> option string) (list_url : string -> option PolicyService.URL) (manifest : Manifest).
Abbreviation W := ApiWorld.
Abbreviation authenticated := (authenticated sha256).
Abbreviation auth := (auth sha256).
Abbreviation routes := (routes backup_handler url_Parse LookupPort IsDomainName SplitDomainName Fqdn sha256 toASCII list_url manifest).
Abbreviation mux := (mux backup_handler url_Parse LookupPort IsDomainName SplitDomainName Fqdn sha256 toASCII list_url manifest).
Abbreviation ApiHandler := (ApiHandler backup_handler url_Parse LookupPort IsDomainName SplitDomainName Fqdn sha256 toASCII list_url manifest).
Abbreviation WriteGate := (WriteGate sha256).
Implicit Types (w : W).

(** ** Lemmas: tokens and routes *)
Lemma authenticated_spec e r w : let '(w', ok) := authenticated e r w in
  conf (db_of w') = conf (db_of w) /\ aw_role w' = aw_role w /\ (ok = false -> w' = w).
Proof.
  unfold AdminApi.authenticated. case_bool_decide; [done|].
  destruct (authenticate_spec sha256 (unix (en_now e)) (TrimPrefix (ar_Authorization r) "Bearer ") (db_of w)) as (_ & _ & H1 & H2).
  destruct (AuthenticateToken _ _ _ _) as [db ok]. split; [done|]. split; [done|]. intros Hok. specialize (H2 Hok). cbn [fst] in H2. subst db.
  by destruct w as [[[] ? ?] ? ? ?].
Qed.
Lemma find_route_elem {H} m segs (rs : list (Route H)) h args : find_route m segs rs = Some (h, args) ->
  exists rt, rt ∈ rs /\ method_match (rt_Method rt) m = true /\ match_pat (rt_pat rt) segs = Some args /\ rt_handler rt = h.
Proof.
  unfold find_route. intros Hh. apply head_Some_elem_of in Hh. apply list_elem_of_omap in Hh as (rt & Hrt & Hm). exists rt. split; [done|].
  destruct (method_match _ _); [|done]. destruct (match_pat _ _) as [a|]; cbn in Hm; [|done]. by simplify_eq.
Qed.
(** The pattern of an exempt route holds no wildcard, so the path decides it. *)
Definition exempt_pats : list (list string) := [["api"; "v1"; "replica"; "pair"; "peek"]; ["api"; "v1"; "replica"; "join"]; ["api"; "v1"; "replica"; "promote"]; ["api"; "v1"; "settings"]].
Inductive guarded (rt : Route Handler) : Prop :=
  | g_open : rt_pat rt = ["healthz"] \/ rt_pat rt = ["api"; "v1"; "healthz"] -> rt_Method rt = "GET" -> rt_handler rt = healthz -> guarded rt
  | g_token h : rt_handler rt = auth h -> (exists t p, rt_pat rt = "api" :: "v1" :: t :: p) -> guarded rt.
Lemma routes_guarded api : Forall guarded (routes api).
Proof.
  unfold AdminApi.routes. repeat apply Forall_cons_2; try apply Forall_nil_2.
  1: by apply g_open; [left|..]. 1: by apply g_open; [right|..].
  all: eapply g_token; [reflexivity|eexists _, _; reflexivity].
Qed.

(** ** No token, no effect *)
Definition anonymous_reply (resp : Response) : Prop := resp = RErr 401 "unauthenticated" "" \/ resp = RHealthz \/ resp = RMoved \/ resp = RNotFound \/ resp = RMethodNotAllowed.
Lemma route_anonymous api e r w h args : find_route (ar_Method r) (ar_segs r) (routes api) = Some (h, args) -> (authenticated e r w).2 = false -> (h e r args w).1 = w /\ anonymous_reply (h e r args w).2.
Proof.
  intros F Ha. pose proof (authenticated_spec e r w) as S.
  apply find_route_elem in F as (rt & Hrt & _ & _ & Hh). pose proof (routes_guarded api) as G. rewrite Forall_forall in G. apply G in Hrt.
  destruct Hrt as [_ _ Hz|h' Hz _]; rewrite <- Hh, Hz.
  - split; [done|unfold anonymous_reply; cbn; tauto].
  - unfold AdminApi.auth. destruct (authenticated e r w) as [w' ok]. cbn in Ha. subst ok. destruct S as (_ & _ & S). rewrite S by done. split; [done|by left].
Qed.
Lemma mux_anonymous api e r w : (authenticated e r w).2 = false -> (mux api e r w).1 = w /\ anonymous_reply (mux api e r w).2.
Proof.
  intros Ha. unfold AdminApi.mux. destruct (ar_clean r); cbn [negb]; [|split; [done|unfold anonymous_reply; cbn; tauto]].
  destruct (find_route _ _ _) as [[h args]|] eqn:F; [by apply (route_anonymous api)|].
  - cbn [fst snd]. split; [done|]. unfold anonymous_reply. destruct (existsb _ _); tauto.
Qed.
Lemma gate_anonymous api e r w : (authenticated e r w).2 = false -> ApiHandler api e r w = mux api e r w.
Proof.
  intros Ha. unfold AdminApi.ApiHandler, AdminApi.WriteGate. destruct (_ || _); [done|]. destruct (negb _); [done|].
  pose proof (authenticated_spec e r w) as S. destruct (authenticated e r w) as [w' ok]. cbn in Ha. subst ok. destruct S as (_ & _ & S). by rewrite S.
Qed.
(** a request that shows no valid token changes nothing and learns nothing: the
    whole node is as it was, and the reply is a refusal, the health probe, or what the
    router says of a path it has no handler for. *)
Theorem anonymous_request_inert api e r w : (authenticated e r w).2 = false ->
  (ApiHandler api e r w).1 = w /\ anonymous_reply (ApiHandler api e r w).2.
Proof. intros Ha. rewrite gate_anonymous by done. by apply mux_anonymous. Qed.

(** ** A replica is read-only *)
(** What replicas copy, and the version they poll, are as they were. *)
Definition same_shared w w' : Prop := replicated (conf (db_of w')) = replicated (conf (db_of w)) /\ ConfigVersion (db_of w') = ConfigVersion (db_of w).
#[local] Instance same_shared_po : PreOrder same_shared.
Proof. split; [by intros w|]. intros w1 w2 w3 [A1 A2] [B1 B2]. split; congruence. Qed.
Lemma same_conf w w' : conf (db_of w') = conf (db_of w) -> same_shared w w'.
Proof. intros H. unfold same_shared, ConfigVersion. by rewrite H. Qed.
Lemma then_same {A} (x : W * result api_err A) k w : same_shared w x.1 -> (forall a w1, same_shared w w1 -> same_shared w (k a w1).1) -> same_shared w (then_ x k).1.
Proof. intros H1 H2. destruct x as [w1 [a|e]]; [by apply H2|done]. Qed.
Lemma answer_same {A} (r : result Response A) w k : (forall a, same_shared w (k a).1) -> same_shared w (answer r w k).1.
Proof. intros H. destruct r; [apply H|done]. Qed.
(** A handler that leaves them alone on a replica. *)
Definition harmless (h : Handler) : Prop := forall e r args w, aw_role w = RoleReplica -> same_shared w (h e r args w).1.
Lemma set_same e v confirm w : aw_role w = RoleReplica -> same_shared w (settings_Set url_Parse LookupPort IsDomainName SplitDomainName Fqdn e v confirm w).1.
Proof.
  intros Hr. unfold settings_Set, node_set. rewrite Hr, bool_decide_true by done. unfold Set_.
  assert (H : let x := setDHCPOnly url_Parse LookupPort IsDomainName SplitDomainName v (Settings.running (nd_sw (aw_node w))) confirm (nd_sw (aw_node w)) in
    replicated (conf (sw_db x.1)) = replicated (conf (db_of w)) /\ ConfigVersion (sw_db x.1) = ConfigVersion (db_of w)).
  { unfold setDHCPOnly, db_of. destruct (negb _); [done|]. destruct (SettingsValidate.ValidateWrite _ _ _ _ _ _ _); [|done].
    unfold PutDHCPSettings, tx, putDHCPSettings. destruct (c_settings _) as [row|] eqn:R; [|done]. unfold Settings.SettingsRebuild, GetSettings. cbn [sw_db conf with_settings c_settings sw_next].
    assert (E : forall n, replicated (conf (mkDB (with_settings (conf (sw_db (nd_sw (aw_node w)))) (Some (with_dhcp row v)) 0) n)) = replicated (conf (sw_db (nd_sw (aw_node w)))) /\
      ConfigVersion (mkDB (with_settings (conf (sw_db (nd_sw (aw_node w)))) (Some (with_dhcp row v)) 0) n) = ConfigVersion (sw_db (nd_sw (aw_node w)))).
    { intros n. unfold replicated, ConfigVersion. cbn. rewrite R. split; [done|lia]. }
    destruct (Settings.Build _ _ _ _); apply E. }
  cbv zeta in H. destruct (setDHCPOnly _ _ _ _ _ _ _ _) as [w' [[]|x]]; [|exact H].
  pose proof (node_apply_conf Fqdn (en_host e) RoleReplica w' (aw_node w)) as C. cbn [fst] in *. unfold same_shared, db_of, with_node, ConfigVersion in *. cbn [aw_node].
  by rewrite C.
Qed.
Lemma settings_harmless api : harmless (patchSettings url_Parse LookupPort IsDomainName SplitDomainName Fqdn api).
Proof.
  intros e r args w Hr. unfold patchSettings. destruct (negb _); [done|]. destruct (Get _); [|done]. apply answer_same. intros d.
  pose proof (set_same e (fromSettingsDTO d) (st_confirm_public d) w Hr) as H. destruct (settings_Set _ _ _ _ _ _ _ _ _) as [w' [[]|x]]; [|exact H].
  by destruct (Get _).
Qed.
Lemma join_conf peek post record a c f db : conf (Pairing.Join peek post record a c f db).1.1 = conf db.
Proof.
  unfold Pairing.Join, PairAsReplica. destruct (peerAddress a); [|done]. destruct (peek _); [|done]. destruct (bool_decide _); [|done].
  destruct (post _ _ _); [|done]. destruct (negb _); [done|]. by destruct (record db).
Qed.
Lemma JoinPrimary_conf api e a c f w : conf (db_of (JoinPrimary api e a c f w).1) = conf (db_of w).
Proof.
  unfold JoinPrimary. destruct (negb _); [done|]. case_bool_decide; [done|]. pose proof (join_conf (en_peek e) (en_post e) (en_record e) a c (TrimSpace f) (db_of w)) as Hj.
  by destruct (Pairing.Join _ _ _ _ _ _ _) as [[db sent] [id|x]].
Qed.
Lemma join_harmless api : harmless (joinPrimary api).
Proof.
  intros e r args w Hr. apply answer_same. intros q. pose proof (JoinPrimary_conf api e q.1.1 q.1.2 q.2 w) as H.
  destruct (JoinPrimary _ _ _ _ _ _) as [w' [id|[| |[]]]]; by apply same_conf.
Qed.
Lemma onPromote_conf e w : conf (db_of (onPromote e w)) = conf (db_of w).
Proof. unfold onPromote. destruct (sw_cur _); [|done]. unfold db_of. cbn [aw_node with_node nd_sw with_sw_db sw_db]. by rewrite reconcile_conf. Qed.
Lemma promote_conf api e w : aw_role w = RoleReplica -> conf (db_of (PromoteThisNode api e w).1) = conf (db_of w).
Proof.
  intros Hr. assert (H : conf (db_of (promote_world e w).1) = conf (db_of w)).
  { unfold promote_world, Promote. cbn [ns_role]. rewrite Hr, bool_decide_true by done. cbn [negb].
    destruct (en_fails e) as [[] []]; try done. cbn [fst snd]. match goal with |- context [0 <? ?x] => change (0 <? x) with true end. cbn [fst]. by rewrite onPromote_conf. }
  unfold PromoteThisNode. destruct (negb _); [done|]. by destruct (promote_world e w) as [w' [p|m]].
Qed.
Lemma promote_harmless api : harmless (promoteThisNode api).
Proof.
  intros e r args w Hr. pose proof (promote_conf api e w Hr) as H. unfold promoteThisNode.
  destruct (PromoteThisNode _ _ _) as [w' [[[]|]|]]; by apply same_conf.
Qed.
(** The handlers behind [GET] write nothing but local tables. *)
Definition reads (h : Handler) : Prop := forall e r args w, conf (db_of (h e r args w).1) = conf (db_of w).
Lemma reads_auth h : reads h -> reads (auth h).
Proof.
  intros H e r args w. unfold AdminApi.auth. pose proof (authenticated_spec e r w) as S. destruct (authenticated e r w) as [w' []]; destruct S as (S & _); [|done].
  by rewrite H.
Qed.
Lemma reads_policy api h : reads h -> reads (requirePolicy api h).
Proof. intros H e r args w. unfold requirePolicy. destruct (ap_policy api); [apply H|done]. Qed.
Lemma reads_backup op : reads (backup backup_handler op).
Proof. intros e r args w. unfold backup. by destruct (backup_handler op r (db_of w)). Qed.
Lemma harmless_auth h : harmless h -> harmless (auth h).
Proof.
  intros H e r args w Hr. unfold AdminApi.auth. pose proof (authenticated_spec e r w) as S. destruct (authenticated e r w) as [w' []]; destruct S as (S1 & S2 & _); [|by apply same_conf].
  etrans; [apply same_conf; exact S1|]. apply H. by rewrite S2.
Qed.
Lemma reads_harmless h : reads h -> harmless h.
Proof. intros H e r args w _. apply same_conf, H. Qed.
(** The third segment keeps a path apart from every exempt one. *)
Definition gated (t : string) (p : list string) : bool :=
  negb (HasPrefix t "{") &&
  match p with
  | [] => negb (bool_decide ("/api/v1/" +:+ t ∈ writeExempt))
  | _ => forallb (fun x => negb (HasPrefix x ("/api/v1/" +:+ t +:+ "/"))) writeExempt
  end.
(** Each route is a read, or an exempt write, or any write behind the token check. *)
Inductive replica_route (rt : Route Handler) : Prop :=
  | rr_read : reads (rt_handler rt) -> rt_Method rt = "GET" -> replica_route rt
  | rr_exempt : rt_pat rt ∈ exempt_pats -> harmless (rt_handler rt) -> rt_Method rt <> "GET" -> replica_route rt
  | rr_write t p : is_get (rt_Method rt) = false -> rt_pat rt = "api" :: "v1" :: t :: p -> gated t p = true -> replica_route rt.
Ltac read_route := apply rr_read; [|reflexivity]; unfold v1; cbn [rt_handler]; repeat first [apply reads_auth | apply reads_policy | apply reads_backup];
  intros ? ? ? ?; unfold healthz, listServices, getService, listRecords, listViews, listTokens, export, listLeases, getDHCPStatus, dhcpSuggest, listHealth, stats,
    getBlacklistSettings, listBlacklistLists, listBlacklistRules, testBlacklist, getSettings, getReplicaStatus, listReplicas, answer;
  repeat case_match; reflexivity.
Lemma routes_replica api : Forall replica_route (routes api).
Proof.
  unfold AdminApi.routes. repeat apply Forall_cons_2; try apply Forall_nil_2.
  all: first [ apply rr_exempt; [first [by apply (list_elem_of_lookup_2 _ 0)|by apply (list_elem_of_lookup_2 _ 1)|by apply (list_elem_of_lookup_2 _ 2)|by apply (list_elem_of_lookup_2 _ 3)]| |done]; unfold v1; cbn [rt_handler]; apply harmless_auth
             | by (eapply rr_write; [done|reflexivity|vm_compute; reflexivity]) | read_route ].
  - apply settings_harmless.
  - apply reads_harmless. intros e r args w. unfold peekPrimary, answer. destruct (pairingRequest _ _ _ _ _); [|done]. by destruct (PeekFingerprint _ _).
  - apply join_harmless.
  - apply promote_harmless.
Qed.
Lemma match_lit p pat segs args : HasPrefix p "{" = false -> match_pat (p :: pat) segs = Some args -> exists s', segs = p :: s' /\ match_pat pat s' = Some args.
Proof. intros Hp. destruct segs as [|s segs]; [done|]. cbn [match_pat]. rewrite Hp. case_bool_decide as E; [|done]. subst. eauto. Qed.
Lemma api_path r s : ar_segs r = "api" :: "v1" :: s -> s <> [] -> URLPath r = "/api/v1/" +:+ GoStr.Join s "/".
Proof. unfold URLPath. intros -> Hs. by destruct s. Qed.
Lemma HasPrefix_app p x : HasPrefix (p +:+ x) p = true.
Proof. unfold HasPrefix. rewrite bytes_app. induction (bytes p) as [|a l IH]; [done|]. cbn. rewrite bool_decide_true by done. exact IH. Qed.
Lemma route_path (rt : Route Handler) segs t p args r : rt_pat rt = "api" :: "v1" :: t :: p -> gated t p = true -> match_pat (rt_pat rt) segs = Some args -> ar_segs r = segs ->
  HasPrefix (URLPath r) PathPrefix = true /\ URLPath r ∉ writeExempt.
Proof.
  intros Hp Hg Hm Hr. rewrite Hp in Hm. apply match_lit in Hm as (s1 & -> & Hm); [|done]. apply match_lit in Hm as (s2 & -> & Hm); [|done].
  unfold gated in Hg. apply andb_true_iff in Hg as [Ht Hg]. apply negb_true_iff in Ht. apply match_lit in Hm as (s3 & -> & Hm); [|done].
  rewrite (api_path r _ Hr) by done. split; [apply HasPrefix_app|]. destruct p as [|p0 p].
  - destruct s3; [|done]. apply negb_true_iff, bool_decide_eq_false in Hg. exact Hg.
  - destruct s3 as [|x s3]; [done|]. intros Hin. rewrite forallb_forall in Hg. apply list_elem_of_In, Hg, negb_true_iff in Hin.
    change (GoStr.Join (t :: x :: s3) "/") with (t +:+ "/" +:+ GoStr.Join (x :: s3) "/") in Hin.
    assert (E : "/api/v1/" +:+ t +:+ "/" +:+ GoStr.Join (x :: s3) "/" = ("/api/v1/" +:+ t +:+ "/") +:+ GoStr.Join (x :: s3) "/") by by rewrite !app_assoc_str.
    rewrite E in Hin. by rewrite HasPrefix_app in Hin.
Qed.
Lemma mux_replica api e r w : (forall rt, rt ∈ routes api -> method_match (rt_Method rt) (ar_Method r) = true ->
    is_Some (match_pat (rt_pat rt) (ar_segs r)) -> harmless (rt_handler rt)) -> aw_role w = RoleReplica -> same_shared w (mux api e r w).1.
Proof.
  intros H Hr. unfold AdminApi.mux. destruct (negb _); [done|]. destruct (find_route _ _ _) as [[h args]|] eqn:F; [|done].
  apply find_route_elem in F as (rt & Hrt & Hm & Hp & <-). apply H; [done|done|by eexists|done].
Qed.
Lemma replica_api_lemma api e r w : ap_status api = true -> aw_role w = RoleReplica -> same_shared w (ApiHandler api e r w).1.
Proof.
  intros Hs Hr. pose proof (routes_replica api) as R. rewrite Forall_forall in R. unfold AdminApi.ApiHandler, AdminApi.WriteGate. rewrite Hs, orb_false_r.
  destruct (_ || _) eqn:P.
  - apply mux_replica; [|done]. intros rt Hrt Hm [args Ha]. destruct (R rt Hrt) as [Hread _|_ Hh _|t p Hg Hp Ht]; [by apply reads_harmless|done|]. exfalso.
    destruct (route_path rt (ar_segs r) t p args r) as [H1 H2]; [done..|]. rewrite H1, bool_decide_false, orb_false_r in P by done. cbn [negb orb] in P.
    unfold method_match in Hm. apply orb_true_iff in Hm as [Hm|Hm].
    + apply bool_decide_eq_true in Hm. by rewrite Hm, P in Hg.
    + apply andb_true_iff in Hm as [Hm%bool_decide_eq_true _]. by rewrite Hm in Hg.
  - assert (Hrole : rst_Role (status_of api e w) = RoleReplica).
    { unfold status_of, replicaStatus. rewrite Hr, bool_decide_true by done. by destruct (en_puller e). }
    rewrite Hrole, bool_decide_true by done. cbn [negb].
    pose proof (authenticated_spec e r w) as S. pose proof (mux_anonymous api e r w) as A. destruct (authenticated e r w) as [w' []]; destruct S as (S1 & S2 & S3); [by apply same_conf|].
    rewrite S3 by done. destruct A as [-> _]; done.
Qed.
(** on a replica no request through the API changes what replicas copy or the
    version they poll.  A write is refused by the gate, an exempt one (pairing, joining,
    promotion, the settings) touches local columns only, reads do not write, and a path
    the gate lets through never reaches the handler of another write. *)
Theorem replica_api_read_only api e r w : ap_status api = true -> aw_role w = RoleReplica -> same_shared w (ApiHandler api e r w).1.
Proof. apply replica_api_lemma. Qed.

(** ** A patch *)
(** an accepted [PATCH] of a service writes the current service with exactly the
    fields the body names replaced.  Each named field is what its value decodes to over
    the old one, every other field is the old one, the id is the one in the path; under
    its plain name an address list is decoded over nothing, so no old view leaks into a
    new address. *)
Theorem patch_changes_what_it_names e r args w w' id kvs :
  updateService Fqdn e r args w = (w', RJson 200 (jid id)) -> bo_json (ar_body r) = Some (JObject kvs) -> NoDup (omap (field_of service_fields) kvs.*1) ->
  exists cur d', Service_ (db_of w) id = Ok cur /\
    service_merge kvs (if bool_decide ("addresses" ∈ ToLower <$> kvs.*1) then sd_with_addresses [] (toServiceDTO cur) else toServiceDTO cur) d' /\
    exists x, reg_call Fqdn (fun onChange => RegPutService onChange (svc_with_id id (fromServiceDTO d'))) w = (w', Ok x).
Proof.
  intros H Hj Hn. unfold updateService in H. destruct (pathID _) as [id'|] eqn:P; [|unfold pathID in P; destruct (ParseInt _); [done|]; by injection P as <-]. cbn [answer] in H.
  destruct (Service_ (db_of w) id') as [cur|x] eqn:S; [|by destruct x].
  unfold bodyBytes in H. destruct (bo_readable _); [|done]. cbn [answer] in H. unfold body_keys in H. rewrite Hj in H. cbn [dec_keys answer] in H.
  unfold unmarshal in H. rewrite Hj in H. cbn [mbind option_bind] in H. set (base := if bool_decide _ then _ else _) in *.
  change (dec_struct service_fields (JObject kvs) base) with (put_keys service_fields kvs base) in H.
  destruct (put_keys service_fields kvs base) as [d'|] eqn:D; [|done]. cbn [answer] in H.
  destruct (reg_call _ _ _) as [w1 [x|x]] eqn:R; cbn [then_] in H; [|by destruct x as [| []|]].
  injection H as -> ->. exists cur, d'. split; [done|]. split; [by apply service_patch|]. by exists x.
Qed.

(** ** An import *)
(** The registry and the policy leave the running settings and the role alone. *)
Definition same_settings w w' : Prop := sw_cur (nd_sw (aw_node w')) = sw_cur (nd_sw (aw_node w)) /\ sw_next (nd_sw (aw_node w')) = sw_next (nd_sw (aw_node w)) /\ aw_role w' = aw_role w.
Lemma same_settings_trans w1 w2 w3 : same_settings w1 w2 -> same_settings w2 w3 -> same_settings w1 w3.
Proof. intros (A1 & A2 & A3) (B1 & B2 & B3). repeat split; congruence. Qed.
Lemma reg_call_settings {A} (f : _ -> _ -> _ * result _ A) w : same_settings w (reg_call Fqdn f w).1.
Proof. unfold reg_call. by destruct (f _ _). Qed.
Lemma pol_call_settings {A} (f : PolicyWorld -> PolicyWorld * result policy_error A) w : same_settings w (pol_call f w).1.
Proof. unfold pol_call. by destruct (f _). Qed.
Lemma each_settings {A T} (f : A -> W -> W * result api_err T) l : (forall a w, same_settings w (f a w).1) -> forall w, same_settings w (each f l w).1.
Proof.
  intros Hf. induction l as [|a l IH]; intros w; [done|]. cbn [each]. pose proof (Hf a w) as H. destruct (f a w) as [w1 [t|x]]; [|done].
  eapply same_settings_trans; [exact H|apply IH].
Qed.
Lemma seq_settings {A T} (x : W * result api_err A) (k : W -> W * result api_err T) w : same_settings w x.1 -> (forall w1, same_settings w1 (k w1).1) -> same_settings w (seq x k).1.
Proof. intros H1 H2. destruct x as [w1 [a|x]]; cbn [seq]; [|done]. eapply same_settings_trans; [exact H1|apply H2]. Qed.
Lemma import_registry_settings doc rep w : same_settings w (import_registry Fqdn doc rep w).1.
Proof.
  unfold import_registry. destruct rep; [apply reg_call_settings|].
  repeat (apply seq_settings; [apply each_settings; intros; apply reg_call_settings|intros ?]). apply each_settings. intros. apply reg_call_settings.
Qed.
Lemma applyBlacklistDoc_settings api doc rep w : same_settings w (applyBlacklistDoc toASCII list_url manifest api doc rep w).1.
Proof.
  unfold applyBlacklistDoc. destruct doc as [doc|]; [|done]. destruct (negb _); [done|]. destruct rep; [apply pol_call_settings|].
  apply seq_settings; [apply pol_call_settings|intros w1]. apply seq_settings; [apply each_settings; intros; apply pol_call_settings|intros w2].
  apply each_settings. intros. apply pol_call_settings.
Qed.
Lemma set_after_check v w w1 e x : CheckWrite url_Parse LookupPort IsDomainName SplitDomainName v "" (nd_sw (aw_node w)) = Ok tt -> same_settings w w1 -> aw_role w <> RoleReplica ->
  (settings_Set url_Parse LookupPort IsDomainName SplitDomainName Fqdn e v "" w1).2 = Err x -> exists s, x = Settings.StoreFailed s.
Proof.
  intros Hc (S1 & S2 & S3) Hr. unfold settings_Set, node_set. rewrite bool_decide_false by congruence. unfold Set_.
  assert (Hrun : Settings.running (nd_sw (aw_node w1)) = Settings.running (nd_sw (aw_node w))) by (unfold Settings.running; by rewrite S1). rewrite Hrun.
  unfold CheckWrite in Hc. destruct (SettingsValidate.ValidateWrite _ _ _ _ _ _ _) as [u|] eqn:V; cbn [lift_rule rbind] in Hc; [|done].
  apply ValidateWrite_ok in V as [Hok _]. pose proof (settings_ok_builds url_Parse LookupPort IsDomainName SplitDomainName (sw_next (nd_sw (aw_node w1))) (Canonicalize v)
    (proj2 (canonical_ok _ _ _ _ v) Hok)) as B. destruct (Settings.Build _ _ _ (Canonicalize v)) as [s|]; [|done].
  destruct (persist _ _ _) as [db [y|y]]; cbn; intros [= <-]; by exists y.
Qed.
(** C29: an import looks at the settings first.  Refused settings leave the node as it
    was, whatever else the document holds; settings the check let through are not
    refused by a rule any more once the registry and the policy have been written, so an
    import on a primary never stops half way because of its settings. *)
Theorem import_checks_settings_first api e r args w doc : bo_readable (ar_body r) = true -> bo_doc (ar_body r) = Some doc -> aw_role w <> RoleReplica ->
  let importDoc := importDoc url_Parse LookupPort IsDomainName SplitDomainName Fqdn toASCII list_url manifest api in
  match import_check url_Parse LookupPort IsDomainName SplitDomainName api doc w with
  | Err x => importDoc e r args w = (w, writeSettingsErr x)
  | Ok _ => forall rep x, let written := (AdminApi.seq (import_registry Fqdn doc rep w) (applyBlacklistDoc toASCII list_url manifest api (tr_blacklist doc) rep)).1 in
      (applySettingsDoc url_Parse LookupPort IsDomainName SplitDomainName Fqdn api e (tr_settings doc) written).2 = Err x -> exists s, x = Settings.StoreFailed s
  end.
Proof.
  intros Hb Hd Hr. cbv zeta. unfold importDoc. rewrite Hb, Hd. cbn [negb]. destruct (import_check _ _ _ _ _ _ _) as [u|x] eqn:C; [|done].
  intros rep x. set (w1 := (AdminApi.seq _ _).1).
  assert (Hs : same_settings w w1) by (apply seq_settings; [apply import_registry_settings|intros; apply applyBlacklistDoc_settings]).
  unfold applySettingsDoc, import_check in *. destruct (tr_settings doc) as [d|]; [|done]. destruct (ap_settings api); [|done].
  destruct u. by apply (set_after_check (fromSettingsDTO d) w w1).
Qed.
End Props.

(** ** A concrete node *)
Definition ex_sha (l : list ascii) : list Z := code <$> l.
Definition ex_token : string := "kydns_0102".
Definition ex_api : API := mkAPI true true true true true true true true true true true true true "192.0.2.1:8853" "node-b".
Definition ex_env : Env := mkEnv (seconds 100) [1; 2] ex_host [] None (newMetrics 0) (fun _ => Err "offline") (fun _ => 0)
  (fun _ => Err "unreachable") (fun _ _ _ => Err "unreachable") (fun _ => None) (false, false).
(** The booted node of [Live] with one token, as a primary or a replica. *)
Definition ex_api_world (role : Role) : ApiWorld :=
  with_aw_db (CreateToken ex_sha 0 [1; 2] "cli" (db_of (mkAW ex_booted role false None))).1 (mkAW ex_booted role false None).
Definition ex_req (method : string) (segs : list string) (token : string) (body : option JSON) : ApiRequest :=
  mkApiRequest method segs true ("Bearer " +:+ token) [] (mkBody true body None).
Definition ex_backup (op : string) (r : ApiRequest) (db : DB) : gmap string string * Response := (n_local (node db), RBackup 200 op).
Abbreviation ex_handle := (ApiHandler ex_backup ex_url_parse ex_lookup ex_IsDomainName ex_names.2 ex_Fqdn ex_sha Some (fun _ => None) ex_builtins).
Definition ex_service_json : JSON := JObject [("name", JString "nas"); ("addresses", JArray [JObject [("address", JString "192.168.1.20")]])].
Definition ex_create : ApiRequest := ex_req "POST" ["api"; "v1"; "services"] ex_token (Some ex_service_json).
(** With its token the request creates the service on a primary; a replica refuses it. *)
Example ex_created : (ex_handle ex_api ex_env ex_create (ex_api_world RolePrimary)).2 = RJson 201 (jid 1).
Proof. vm_compute. reflexivity. Qed.
Example ex_refused : (ex_handle ex_api ex_env ex_create (ex_api_world RoleReplica)).2 = RErr 409 "read_only_replica" "".
Proof. vm_compute. reflexivity. Qed.
Lemma anonymous_request_inert_witness : let r := ex_req "POST" ["api"; "v1"; "services"] "kydns_wrong" (Some ex_service_json) in
  (ex_handle ex_api ex_env r (ex_api_world RolePrimary)).1 = ex_api_world RolePrimary /\
  anonymous_reply (ex_handle ex_api ex_env r (ex_api_world RolePrimary)).2.
Proof.
  intros r. apply (anonymous_request_inert ex_backup ex_url_parse ex_lookup ex_IsDomainName ex_names.2 ex_Fqdn ex_sha Some (fun _ => None) ex_builtins).
  vm_compute. reflexivity.
Defined.
Lemma replica_api_read_only_witness : let w := ex_api_world RoleReplica in
  same_shared w (ex_handle ex_api ex_env ex_create w).1 /\ same_shared w (ex_handle ex_api ex_env (ex_req "POST" ["api"; "v1"; "replica"; "promote"] ex_token None) w).1.
Proof.
  intros w. split; apply (replica_api_read_only ex_backup ex_url_parse ex_lookup ex_IsDomainName ex_names.2 ex_Fqdn ex_sha Some (fun _ => None) ex_builtins);
    reflexivity.
Defined.
Definition ex_served : ApiWorld := (ex_handle ex_api ex_env ex_create (ex_api_world RolePrimary)).1.
Definition ex_rename : list (string * JSON) := [("Name", JString "files")].
Lemma patch_changes_what_it_names_witness : exists w' cur d', Service_ (db_of ex_served) 1 = Ok cur /\
  service_merge ex_rename (toServiceDTO cur) d' /\
  updateService ex_Fqdn ex_env (ex_req "PATCH" ["api"; "v1"; "services"; "1"] ex_token (Some (JObject ex_rename))) ["1"] ex_served = (w', RJson 200 (jid 1)).
Proof.
  set (r := ex_req "PATCH" ["api"; "v1"; "services"; "1"] ex_token (Some (JObject ex_rename))).
  destruct (updateService ex_Fqdn ex_env r ["1"] ex_served) as [w' resp] eqn:E.
  assert (Er : resp = RJson 200 (jid 1)) by (pose proof (f_equal snd E) as E2; cbn [snd] in E2; rewrite <- E2; vm_compute; reflexivity). subst resp.
  assert (Hn : NoDup (omap (field_of service_fields) ex_rename.*1)) by (apply (bool_decide_unpack _); vm_compute; exact I).
  destruct (patch_changes_what_it_names ex_Fqdn ex_env r ["1"] ex_served w' 1 ex_rename E eq_refl Hn) as (cur & d' & Hc & Hm & _).
  exists w', cur, d'. split; [exact Hc|]. split; [|reflexivity].
  assert (Eb : bool_decide ("addresses" ∈ ToLower <$> ex_rename.*1) = false) by (vm_compute; reflexivity). rewrite Eb in Hm. exact Hm.
Defined.
Definition ex_doc (allow : list string) : transfer := mkTransfer [] [mkServiceDTO 0 "tv" [mkAddressDTO "192.168.1.30" ""] [] "" false "" false ""] [] None
  (Some (mkSettingsDTO (ex_settings ["9.9.9.9"] allow) "")).
Definition ex_import (allow : list string) : ApiRequest := mkApiRequest "POST" ["api"; "v1"; "import"] true ("Bearer " +:+ ex_token) [] (mkBody true None (Some (ex_doc allow))).
Lemma import_checks_settings_first_witness : let w := ex_api_world RolePrimary in
  importDoc ex_url_parse ex_lookup ex_IsDomainName ex_names.2 ex_Fqdn Some (fun _ => None) ex_builtins ex_api ex_env (ex_import ["0.0.0.0/0"]) [] w =
    (w, RErr 400 "invalid" "allow_query").
Proof.
  intros w. pose proof (import_checks_settings_first ex_url_parse ex_lookup ex_IsDomainName ex_names.2 ex_Fqdn Some (fun _ => None) ex_builtins ex_api ex_env
    (ex_import ["0.0.0.0/0"]) [] w (ex_doc ["0.0.0.0/0"]) eq_refl eq_refl ltac:(discriminate)) as H. cbv zeta in H.
  assert (E : import_check ex_url_parse ex_lookup ex_IsDomainName ex_names.2 ex_api (ex_doc ["0.0.0.0/0"]) w = Err (Rule (FieldError "allow_query"))) by (vm_compute; reflexivity).
  rewrite E in H. exact H.
Defined.
