(* ===== verification/AdminWire.v ===== *)
(** * What the admin API shows, it takes back: [internal/adminapi/]

    The conversions between the store's records and the wire ([toServiceDTO] and the
    like), the encoding and the decoding, through the handlers that use them: a body or
    a document one handler answered, given to the handler that writes. *)
From S2P Require Import Prelude GoStr PolicyName Policy PolicyService RegistryValidate Registry.
From S2P Require Import NetIP NetIPPrint Model Zone ZoneHolder Store StoreNode StoreProps DnsMsg DnsMetrics DnsCache DnsAuth DnsForward Upstream.
From S2P Require Import SettingsValidate Settings Ticker Health DhcpAlloc DhcpReserve DhcpServer ReplicaSync Replica Pairing Role DhcpRunner Live Json AdminDto AdminApi AdminApiProps.

(** ** The same content *)
(** Everything an operator sees of a service; the ids belong to the rows. *)
Definition same_service (s s' : Service) : Prop :=
  s_Name s' = s_Name s /\ (fun a => (a_Address a, a_View a)) <$> s_Addresses s' = (fun a => (a_Address a, a_View a)) <$> s_Addresses s /\
  s_Aliases s' = s_Aliases s /\ s_CheckURL s' = s_CheckURL s /\ s_CheckInsecure s' = s_CheckInsecure s /\ s_ProxyAddress s' = s_ProxyAddress s /\
  s_RouteViaProxy s' = s_RouteViaProxy s /\ s_MAC s' = s_MAC s.
Definition same_record (r r' : DnsRecord) : Prop := r_Name r' = r_Name r /\ r_Type r' = r_Type r /\ r_Value r' = r_Value r /\ r_View r' = r_View r.
(** How a list is subscribed to; what was fetched of it is not part of a definition. *)
Definition same_list (l l' : BlacklistList) : Prop :=
  bl_Name l' = bl_Name l /\ bl_URL l' = bl_URL l /\ bl_Format l' = bl_Format l /\ bl_Description l' = bl_Description l /\ bl_Enabled l' = bl_Enabled l /\
  bl_Builtin l' = bl_Builtin l /\ bl_IntervalSeconds l' = bl_IntervalSeconds l.
Definition same_rule (r r' : BlacklistRule) : Prop := br_Kind r' = br_Kind r /\ br_Domain r' = br_Domain r.
(** The body of a request is the JSON value, its document the export. *)
Definition carries (r : ApiRequest) (j : JSON) : Prop := bo_readable (ar_body r) = true /\ bo_json (ar_body r) = Some j.
Definition carries_doc (r : ApiRequest) (doc : transfer) : Prop := bo_readable (ar_body r) = true /\ bo_doc (ar_body r) = Some doc.
(** The integers of Go's [int] and SQLite's rows. *)
Definition in_int64 (l : list Z) : Prop := Forall (fun z => is_int64 z = true) l.

(** ** Lemmas *)
Lemma service_back s : same_service s (fromServiceDTO (toServiceDTO s)).
Proof. repeat split. cbn. by rewrite <- !list_fmap_compose. Qed.
Lemma service_back_id id s : same_service s (fromServiceDTO (toServiceDTO (svc_with_id id s))).
Proof. repeat split. cbn. by rewrite <- !list_fmap_compose. Qed.
Lemma same_with_id id s s' : same_service s s' -> same_service s (svc_with_id id s').
Proof. done. Qed.
Lemma named_addresses d : exists keys, dec_keys (enc_service d) = Some keys /\ "addresses" ∈ ToLower <$> keys.
Proof.
  eexists. split; [reflexivity|]. apply list_elem_of_fmap. exists "addresses". split; [done|]. apply list_elem_of_fmap. exists ("addresses", JArray (enc_address <$> sd_addresses d)). split; [done|].
  apply elem_of_app. right. apply elem_of_app. left. right. by left.
Qed.
Lemma Forall2_back {A B C} (P : A -> C -> Prop) (f : A -> B) (g : B -> C) l : (forall a, P a (g (f a))) -> Forall2 P l (g <$> (f <$> l)).
Proof. intros H. rewrite <- list_fmap_compose. apply Forall2_fmap_r, Forall_Forall2_diag, Forall_forall. intros a _. apply H. Qed.
Lemma decode_carried {A} (dec : Decoder A) a r j x : carries r j -> dec j a = Some x -> decode dec a r = Ok x.
Proof. intros [C1 C2] H. unfold decode, bodyBytes, unmarshal. rewrite C1. cbn [rbind]. by rewrite C2; cbn; rewrite H. Qed.
Lemma head_answer {A} (r : result Response A) (w : ApiWorld) k x : answer r w k = x -> (forall e, r = Err e -> (w, e) <> x) -> exists a, r = Ok a /\ k a = x.
Proof. intros H N. destruct r as [a|e]; [by exists a|]. by destruct (N e eq_refl). Qed.
Lemma then_world {A} (x : ApiWorld * result api_err A) k : (forall a w, (k a w).1 = w) -> (then_ x k).1 = x.1.
Proof. intros H. destruct x as [w [a|e]]; [apply H|done]. Qed.

Section Wire.
Context (url_Parse : string -> option ParsedURL) (LookupPort : string -> option Z).
Context (IsDomainName : string -> bool) (SplitDomainName : string -> list string).
Context (Fqdn : string -> string).
Context (toASCII : string -> option string) (list_url : string -> option PolicyService.URL) (manifest : Manifest).
Abbreviation settings_Set := (settings_Set url_Parse LookupPort IsDomainName SplitDomainName Fqdn).
Abbreviation patchSettings := (patchSettings url_Parse LookupPort IsDomainName SplitDomainName Fqdn).
Abbreviation importDoc := (importDoc url_Parse LookupPort IsDomainName SplitDomainName Fqdn toASCII list_url manifest).
Abbreviation applySettingsDoc := (applySettingsDoc url_Parse LookupPort IsDomainName SplitDomainName Fqdn).
Abbreviation applyBlacklistDoc := (applyBlacklistDoc toASCII list_url manifest).
Implicit Types (w : ApiWorld).

Lemma settings_sent_back api e e' r r' args args' w j : getSettings api e r args w = (w, RJson 200 j) -> carries r' j ->
  (forall cur, Get (nd_sw (aw_node w)) = Ok cur -> in_int64 (ints (toSettingsDTO cur))) ->
  exists cur, Get (nd_sw (aw_node w)) = Ok cur /\ (patchSettings api e' r' args' w).1 = (settings_Set e' cur "" w).1.
Proof.
  unfold getSettings, AdminApi.patchSettings. destruct (negb _); [done|]. destruct (Get (nd_sw (aw_node w))) as [cur|x]; [|by destruct (of_set x) as [f c|[]|]].
  intros [= <-] C Hi. exists cur. split; [done|]. rewrite (decode_carried _ _ _ _ _ C (settings_wire _ (toSettingsDTO cur) (Hi cur eq_refl) (fun H => H))). cbn [answer].
  rewrite from_settings, to_settings. cbn [st_row st_confirm_public]. destruct (settings_Set e' cur "" w) as [w' [u|x]]; [|done]. by destruct (Get _).
Qed.
Lemma service_sent_back e e' r r' args w j : getService e r args w = (w, RJson 200 j) -> carries r' j ->
  (forall id s, Service_ (db_of w) id = Ok s -> s_ID s = id /\ is_int64 id = true) ->
  exists s s', Service_ (db_of w) (s_ID s) = Ok s /\ s_ID s' = s_ID s /\ same_service s s' /\
    (updateService Fqdn e' r' args w).1 = (reg_call Fqdn (fun onChange => RegPutService onChange s') w).1.
Proof.
  intros H C Hid. unfold getService, updateService in *. destruct (pathID _) as [id|x] eqn:P; cbn [answer] in *; [|by unfold pathID in P; destruct (ParseInt _); [|injection P as <-]].
  destruct (Service_ (db_of w) id) as [s|x] eqn:E; [|by destruct x]. injection H as <-. destruct (Hid id s E) as [<- Hi].
  exists s, (svc_with_id (s_ID s) (fromServiceDTO (toServiceDTO s))). split; [done|]. split; [done|]. split; [apply same_with_id, service_back|].
  destruct C as [C1 C2]. unfold bodyBytes. rewrite C1. cbn [answer]. destruct (named_addresses (toServiceDTO s)) as (keys & K1 & K2).
  unfold body_keys. rewrite C2, K1. cbn [answer]. rewrite bool_decide_true by done. unfold unmarshal. rewrite C2. cbn [mbind option_bind].
  rewrite service_wire by (done || by constructor). cbn [answer]. by apply then_world.
Qed.
Lemma record_sent_back e r' args w x : is_int64 (r_ID x) = true -> carries r' (enc_record (toRecordDTO x)) ->
  exists x', same_record x x' /\ (createRecord Fqdn e r' args w).1 = (reg_call Fqdn (fun onChange => RegPutRecord onChange x') w).1.
Proof.
  intros Hi C. exists (fromRecordDTO (toRecordDTO x)). split; [done|]. unfold createRecord.
  rewrite (decode_carried _ _ _ _ _ C (record_wire (toRecordDTO x) recordDTO0 Hi (fun _ => eq_refl) (fun _ => eq_refl))). by apply then_world.
Qed.
Lemma view_sent_back e r' args w v : carries r' (enc_view (toViewDTO v)) ->
  (createView Fqdn e r' args w).1 = (reg_call Fqdn (fun onChange => RegPutView onChange v) w).1.
Proof. intros C. unfold createView. rewrite (decode_carried _ _ _ _ _ C (view_wire (toViewDTO v) viewDTO0)). cbn [answer]. rewrite then_world by done. by destruct v. Qed.
Lemma list_sent_back e r' args w l id : pathID (path_value args) = Ok id -> last (filter (fun l => bl_ID l = id) (BlacklistListMetas (db_of w))) = Some l ->
  in_int64 (list_ints (toBlacklistListDTO l)) -> carries r' (enc_list (toBlacklistListDTO l)) ->
  exists l', bl_ID l' = id /\ same_list l l' /\ (updateBlacklistList list_url e r' args w).1 = (pol_call (PutList list_url l') w).1.
Proof.
  intros P L Hi C. unfold updateBlacklistList. rewrite P. cbn [answer]. rewrite L. rewrite (decode_carried _ _ _ _ _ C (list_wire (toBlacklistListDTO l) (toBlacklistListDTO l) Hi ltac:(by constructor))).
  cbn [answer]. eexists. split; [|split; [|by rewrite then_world]]; done.
Qed.
(** The document an export holds, part by part. *)
Definition same_document (api : API) (w : ApiWorld) (doc : transfer) : Prop :=
  fromViewDTO <$> tr_views doc = Views (db_of w) /\
  (exists svcs, Services (db_of w) = Ok svcs /\ Forall2 same_service svcs (fromServiceDTO <$> tr_services doc)) /\
  Forall2 same_record (Records (db_of w)) (fromRecordDTO <$> tr_records doc) /\
  (if ap_policy api then exists b, tr_blacklist doc = Some b /\ mkBlSettings (bk_enabled b) (bk_block_ttl b) = GetBlacklistSettings (db_of w) /\
     Forall2 same_list (BlacklistListMetas (db_of w)) (fromBlacklistListDTO <$> bk_lists b) /\
     Forall2 same_rule (BlacklistRules (db_of w)) ((fun x => mkBlRule 0 (ud_kind x) (ud_domain x)) <$> bk_rules b)
   else tr_blacklist doc = None) /\
  (if ap_settings api then exists cur, Get (nd_sw (aw_node w)) = Ok cur /\ fromSettingsDTO <$> tr_settings doc = Some cur else tr_settings doc = None).
Lemma exported_document api w doc : snapshotDoc api w = Ok doc -> same_document api w doc.
Proof.
  unfold snapshotDoc. destruct (Services (db_of w)) as [svcs|] eqn:S; [|done]. set (bl := if ap_policy api then _ else _).
  assert (B : if ap_policy api then exists b, bl = Some b /\ mkBlSettings (bk_enabled b) (bk_block_ttl b) = GetBlacklistSettings (db_of w) /\
     Forall2 same_list (BlacklistListMetas (db_of w)) (fromBlacklistListDTO <$> bk_lists b) /\
     Forall2 same_rule (BlacklistRules (db_of w)) ((fun x => mkBlRule 0 (ud_kind x) (ud_domain x)) <$> bk_rules b) else bl = None).
  { unfold bl. destruct (ap_policy api); [|done]. eexists. split; [reflexivity|]. cbn [bk_enabled bk_block_ttl bk_lists bk_rules].
    split; [by destruct (GetBlacklistSettings _)|]. split; by apply Forall2_back. }
  assert (D : forall st, (if ap_settings api then exists cur, Get (nd_sw (aw_node w)) = Ok cur /\ fromSettingsDTO <$> st = Some cur else st = None) ->
    same_document api w (mkTransfer (toViewDTO <$> Views (db_of w)) ((fun s => toServiceDTO (svc_with_id 0 s)) <$> svcs)
      ((fun r => mkRecordDTO 0 (r_Name r) (r_Type r) (r_Value r) (r_View r)) <$> Records (db_of w)) bl st)).
  { intros st Hst. unfold same_document. cbn [tr_views tr_services tr_records tr_blacklist tr_settings]. split.
    { rewrite <- list_fmap_compose. generalize (Views (db_of w)). intros l. induction l as [|[n s] l IH]; [done|]. cbn. by rewrite IH. }
    split; [exists svcs; split; [done|]; apply Forall2_back, service_back_id|]. split; [by apply Forall2_back|]. by split. }
  destruct (ap_settings api).
  - destruct (Get (nd_sw (aw_node w))) as [cur|] eqn:G; [|done]. intros [= <-]. apply D. exists cur. split; [done|]. cbn [fmap option_fmap option_map]. by rewrite from_settings, to_settings.
  - intros [= <-]. by apply D.
Qed.
Lemma import_writes api e r args w doc : carries_doc r doc -> QueryGet "mode" r = "replace" -> is_ok (import_check url_Parse LookupPort IsDomainName SplitDomainName api doc w) = true ->
  (importDoc api e r args w).1 =
    let x := AdminApi.seq (reg_call Fqdn (fun onChange => RegReplaceAll onChange (fromViewDTO <$> tr_views doc) (fromServiceDTO <$> tr_services doc) (fromRecordDTO <$> tr_records doc)) w)
      (applyBlacklistDoc api (tr_blacklist doc) true) in
    match x.2 with Ok _ => (applySettingsDoc api e (tr_settings doc) x.1).1 | Err _ => x.1 end.
Proof.
  intros [C1 C2] M K. unfold AdminApi.importDoc. rewrite C1, C2, M. cbn [negb]. destruct (import_check _ _ _ _ _ _ _) as [u|]; [|done]. rewrite bool_decide_true by done.
  unfold import_registry. destruct (AdminApi.seq _ _) as [w1 [[]|x]]; cbn [then_ fst snd]; [|done]. by destruct (applySettingsDoc _ _ _ _) as [w2 [[]|x]].
Qed.

End Wire.

(** ** A node with a service *)
Definition ex_shown : JSON := match (getService ex_env ex_create ["1"] ex_served).2 with RJson _ j => j | _ => JNull end.
