(* ===== verification/Session.v ===== *)
(** * Sessions and login backoff: [internal/auth/session.go], [internal/auth/password.go]

    The in-memory session store with its idle and absolute deadlines, and the delay
    that grows with failed logins.  Identifiers and CSRF tokens are the random hex the
    caller drew; [now] is the clock.  Hashing is third-party and enters where it is
    used.  The store drops an expired session only when somebody asks for it; what is
    proved is that nobody can tell. *)
From S2P Require Import Prelude GoStr.

Definition CookieName : string := "kydns_session".
Record Session := mkSession { ss_ID : string; ss_CSRF : string; ss_Created : Z; ss_LastSeen : Z }.
Record Sessions := mkSessions { byID : gmap string Session; idle : Z; absolute : Z }.
Definition NewSessions (idle absolute : Z) : Sessions := mkSessions ∅ idle absolute.
Definition with_byID (m : gmap string Session) (s : Sessions) : Sessions := mkSessions m (idle s) (absolute s).
(** The two draws of 32 random bytes in hex are [id] and [csrf]. *)
Definition Create (now : Z) (id csrf : string) (s : Sessions) : Sessions * Session :=
  let sess := mkSession id csrf now now in (with_byID (<[id := sess]> (byID s)) s, sess).
Definition expired (now : Z) (x : Session) (s : Sessions) : bool := (idle s <? now - ss_LastSeen x) || (absolute s <? now - ss_Created x).
Definition touch (now : Z) (x : Session) : Session := mkSession (ss_ID x) (ss_CSRF x) (ss_Created x) now.
Definition GetSession (now : Z) (id : string) (s : Sessions) : Sessions * option Session :=
  match byID s !! id with
  | None => (s, None)
  | Some x => if expired now x s then (with_byID (delete id (byID s)) s, None)
              else (with_byID (<[id := touch now x]> (byID s)) s, Some (touch now x))
  end.
Definition Destroy (id : string) (s : Sessions) : Sessions := with_byID (delete id (byID s)) s.
Definition LenSessions (s : Sessions) : Z := Z.of_nat (size (byID s)).
Definition ValidCSRF (now : Z) (id token : string) (s : Sessions) : Sessions * bool :=
  match GetSession now id s with
  | (s, None) => (s, false)
  | (s, Some x) => (s, negb (bool_decide (token = "")) && bool_decide (ss_CSRF x = token))
  end.

(** ** Login backoff *)
Definition MinPasswordLen : Z := 12.
Definition backoffBase : Z := 100 * 1000000.
Definition backoffCap : Z := seconds 30.
Definition backoffMaxShift : Z := 18.
(** [failures[key]] reads zero where there is no entry. *)
Record Backoff := mkBackoff { bf_failures : gmap string Z }.
Definition NewBackoff : Backoff := mkBackoff ∅.
Definition failures (key : string) (b : Backoff) : Z := default 0 (bf_failures b !! key).
Definition Delay (key : string) (b : Backoff) : Z :=
  let n := failures key b in
  if n =? 0 then 0
  else if backoffMaxShift <? n then backoffCap
  else let d := int64 (Z.shiftl backoffBase (n - 1)) in if backoffCap <? d then backoffCap else d.
Definition FailLogin (key : string) (b : Backoff) : Backoff := mkBackoff (<[key := failures key b + 1]> (bf_failures b)).
Definition ResetLogin (key : string) (b : Backoff) : Backoff := mkBackoff (delete key (bf_failures b)).

(** ** The store as a sequence of calls *)
Inductive sess_op := SCreate (id csrf : string) | SGet (id : string) | SDestroy (id : string) | SValid (id token : string).
Inductive sess_out := SNew | SSeen (x : option Session) | SGone | SCheck (ok : bool).
Definition sess_exec (now : Z) (op : sess_op) (s : Sessions) : Sessions * sess_out :=
  match op with
  | SCreate id csrf => ((Create now id csrf s).1, SNew)
  | SGet id => let '(s, x) := GetSession now id s in (s, SSeen x)
  | SDestroy id => (Destroy id s, SGone)
  | SValid id token => let '(s, ok) := ValidCSRF now id token s in (s, SCheck ok)
  end.
Fixpoint sess_run (ops : list (Z * sess_op)) (s : Sessions) : Sessions * list sess_out :=
  match ops with
  | [] => (s, [])
  | (now, op) :: ops => let '(s, o) := sess_exec now op s in let '(s, os) := sess_run ops s in (s, o :: os)
  end.

(** The specification: one session at a time, as a function of the calls that named it.
    Nothing is ever dropped for being old; a dead session is merely not shown. *)
Definition alive (idle absolute now : Z) (x : Session) : bool := (now - ss_LastSeen x <=? idle) && (now - ss_Created x <=? absolute).
Definition op_id (op : sess_op) : string := match op with SCreate id _ | SGet id | SDestroy id | SValid id _ => id end.
Definition track (i a now : Z) (op : sess_op) (x : option Session) : option Session :=
  match op with
  | SCreate id csrf => Some (mkSession id csrf now now)
  | SDestroy _ => None
  | SGet _ | SValid _ _ => (fun x => if alive i a now x then touch now x else x) <$> x
  end.
Definition shown (i a now : Z) (x : option Session) : option Session := y ← x; if alive i a now y then Some (touch now y) else None.
Definition answer_of (i a now : Z) (op : sess_op) (x : option Session) : sess_out :=
  match op with
  | SCreate _ _ => SNew
  | SDestroy _ => SGone
  | SGet _ => SSeen (shown i a now x)
  | SValid _ token => SCheck (match shown i a now x with Some y => negb (bool_decide (token = "")) && bool_decide (ss_CSRF y = token) | None => false end)
  end.
(** What the calls before made of the session [id]. *)
Definition history (i a : Z) (id : string) (log : list (Z * sess_op)) : option Session :=
  foldl (fun x '(now, op) => if bool_decide (op_id op = id) then track i a now op x else x) None log.
Fixpoint spec_run (i a : Z) (log ops : list (Z * sess_op)) : list sess_out :=
  match ops with
  | [] => []
  | (now, op) :: ops => answer_of i a now op (history i a (op_id op) log) :: spec_run i a (log ++ [(now, op)]) ops
  end.
(** The clock does not run backwards. *)
Fixpoint monotone (from : Z) (ops : list (Z * sess_op)) : Prop := match ops with [] => True | (now, _) :: ops => from <= now /\ monotone now ops end.

(** ** Lemmas *)
Lemma expired_alive now x s : expired now x s = negb (alive (idle s) (absolute s) now x).
Proof. unfold expired, alive. rewrite negb_andb. f_equal; by rewrite Z.ltb_antisym. Qed.
Lemma dead_stays now now' i a x : now <= now' -> alive i a now x = false -> alive i a now' x = false.
Proof. unfold alive. intros Hn H. apply andb_false_iff in H. apply andb_false_iff. rewrite !Z.leb_gt in *. lia. Qed.
Lemma history_snoc i a id log now op : history i a id (log ++ [(now, op)]) =
  (if bool_decide (op_id op = id) then track i a now op (history i a id log) else history i a id log).
Proof. unfold history. by rewrite foldl_app. Qed.
(** The store holds what the history says, or has dropped it because it is dead. *)
Definition agrees (now : Z) (s : Sessions) (log : list (Z * sess_op)) : Prop := forall id,
  byID s !! id = history (idle s) (absolute s) id log \/
  byID s !! id = None /\ exists x, history (idle s) (absolute s) id log = Some x /\ alive (idle s) (absolute s) now x = false.
Definition same_limits (s s' : Sessions) : Prop := idle s' = idle s /\ absolute s' = absolute s.
Lemma GetSession_spec now id s : let '(s', r) := GetSession now id s in
  same_limits s s' /\ (forall k, k <> id -> byID s' !! k = byID s !! k) /\ r = shown (idle s) (absolute s) now (byID s !! id) /\
  byID s' !! id = r.
Proof.
  unfold GetSession, shown. destruct (byID s !! id) as [x|] eqn:E; cbn; [|by rewrite E]. rewrite expired_alive.
  destruct (alive _ _ now x); cbn; (split; [done|]); (split; [intros k Hk; by simplify_map_eq|]); by simplify_map_eq.
Qed.
Lemma exec_limits now op s : same_limits s (sess_exec now op s).1.
Proof.
  destruct op as [id csrf|id|id|id token]; cbn; [done| |done|]; unfold ValidCSRF; pose proof (GetSession_spec now id s) as G; destruct (GetSession now id s) as [s' [x|]]; by destruct G.
Qed.
Lemma exec_others now op s k : k <> op_id op -> byID (sess_exec now op s).1 !! k = byID s !! k.
Proof.
  intros Hk. destruct op as [id csrf|id|id|id token]; cbn in *; [by simplify_map_eq| |by simplify_map_eq|]; unfold ValidCSRF; pose proof (GetSession_spec now id s) as G;
    destruct (GetSession now id s) as [s' [x|]]; destruct G as (_ & G & _); by apply G.
Qed.
Lemma exec_answer now op s : (sess_exec now op s).2 = answer_of (idle s) (absolute s) now op (byID s !! op_id op).
Proof.
  destruct op as [id csrf|id|id|id token]; cbn; [done| |done|]; unfold ValidCSRF; pose proof (GetSession_spec now id s) as G; destruct (GetSession now id s) as [s' r];
    destruct G as (_ & _ & <- & _); by destruct r.
Qed.
Lemma exec_own now op s : byID (sess_exec now op s).1 !! op_id op =
  match op with SCreate id csrf => Some (mkSession id csrf now now) | SDestroy _ => None | SGet _ | SValid _ _ => shown (idle s) (absolute s) now (byID s !! op_id op) end.
Proof.
  destruct op as [id csrf|id|id|id token]; cbn; [by simplify_map_eq| |by simplify_map_eq|]; unfold ValidCSRF; pose proof (GetSession_spec now id s) as G;
    destruct (GetSession now id s) as [s' [x|]]; destruct G as (_ & _ & <- & <-); done.
Qed.
Lemma shown_agrees now s log id : agrees now s log -> shown (idle s) (absolute s) now (byID s !! id) = shown (idle s) (absolute s) now (history (idle s) (absolute s) id log).
Proof. intros H. destruct (H id) as [->|(-> & x & -> & Hd)]; [done|]. unfold shown. cbn. by rewrite Hd. Qed.
Lemma answer_agrees now op s log : agrees now s log ->
  answer_of (idle s) (absolute s) now op (byID s !! op_id op) = answer_of (idle s) (absolute s) now op (history (idle s) (absolute s) (op_id op) log).
Proof. intros H. destruct op; cbn; [done| |done|]; by rewrite (shown_agrees _ _ _ _ H). Qed.
Lemma agrees_later now now' s log : now <= now' -> agrees now s log -> agrees now' s log.
Proof. intros Hn H id. destruct (H id) as [->|(-> & x & -> & Hd)]; [by left|right]. split; [done|]. exists x. split; [done|by eapply dead_stays]. Qed.
Lemma agrees_step now op s log : agrees now s log -> agrees now (sess_exec now op s).1 (log ++ [(now, op)]).
Proof.
  intros H id. destruct (exec_limits now op s) as [-> ->]. rewrite history_snoc. case_bool_decide as E; [subst id|by rewrite exec_others].
  rewrite exec_own. destruct op as [id csrf|id|id|id token]; cbn [track op_id]; [by left| |by left|]; rewrite (shown_agrees _ _ _ _ H);
    (destruct (history _ _ _ log) as [x|]; cbn; [|by left]); (destruct (alive _ _ now x) eqn:A; cbn; [by left|right; eauto]).
Qed.
Lemma run_agrees ops : forall now s log, agrees now s log -> monotone now ops -> (sess_run ops s).2 = spec_run (idle s) (absolute s) log ops.
Proof.
  induction ops as [|[t op] ops IH]; intros now s log H M; [done|]. destruct M as [Ht M]. cbn [sess_run spec_run].
  apply (agrees_later _ t) in H; [|done]. rewrite <- (answer_agrees t op s log H), <- exec_answer.
  pose proof (agrees_step t op s log H) as H'. pose proof (exec_limits t op s) as [L1 L2]. destruct (sess_exec t op s) as [s' o]. cbn [fst snd] in *.
  specialize (IH t s' _ H' M). rewrite L1, L2 in IH. destruct (sess_run ops s') as [s'' os]. cbn [snd] in *. by rewrite IH.
Qed.

(** ** Theorems *)
(** C12: the session store refines its specification.  Over any sequence of calls on a
    clock that does not run backwards, every answer is the one the history of that one
    session gives: another session never matters, dropping expired entries cannot be
    observed, and a session once expired never comes back. *)
Theorem sessions_refine_history ops i a from : monotone from ops -> (sess_run ops (NewSessions i a)).2 = spec_run i a [] ops.
Proof. intros M. apply (run_agrees ops from (NewSessions i a) []); [|done]. intros id. left. unfold NewSessions. cbn. by rewrite lookup_empty. Qed.

(** What an accepted session proves about the past: who opened it and when, and that
    nobody has closed or replaced it since. *)
Definition history_ok (id : string) (log : list (Z * sess_op)) (x : Session) : Prop :=
  ss_ID x = id /\ (exists l1 l2, log = l1 ++ (ss_Created x, SCreate id (ss_CSRF x)) :: l2 /\
    Forall (fun '(_, op) => op_id op = id -> op <> SDestroy id /\ forall c, op <> SCreate id c) l2) /\
  exists op, op_id op = id /\ (ss_LastSeen x, op) ∈ log.
Lemma history_ok_snoc id log x now op t : history_ok id log x -> (op_id op = id -> op <> SDestroy id /\ forall c, op <> SCreate id c) ->
  (t = ss_LastSeen x \/ t = now /\ op_id op = id) -> history_ok id (log ++ [(now, op)]) (touch t x).
Proof.
  intros (H1 & (l1 & l2 & -> & H2) & op' & H4 & H5) Hop Ht. split; [done|]. split.
  - exists l1, (l2 ++ [(now, op)]). split; [by rewrite <- app_assoc|]. apply Forall_app. by split; [|apply Forall_singleton].
  - destruct Ht as [->|[-> Ho]]; [exists op'|exists op]; (split; [done|]); apply elem_of_app; cbn; [by left|right; set_solver].
Qed.
Lemma touch_same x : touch (ss_LastSeen x) x = x. Proof. by destruct x. Qed.
Lemma history_sound i a id log x : history i a id log = Some x -> history_ok id log x.
Proof.
  revert x. induction log as [|[now op] log IH] using rev_ind; intros x; [done|]. rewrite history_snoc.
  case_bool_decide as E; [|intros H; rewrite <- (touch_same x); apply history_ok_snoc; [by apply IH|done|by left]].
  destruct op as [id' csrf|id'|id'|id' token]; cbn in E; subst id'; cbn [track]; [|..|].
  - intros [= <-]. split; [done|]. split; [exists log, []; done|]. exists (SCreate id csrf). split; [done|set_solver].
  - intros (y & Hy & Hx)%fmap_Some. destruct (alive i a now y); subst x; [|rewrite <- (touch_same y)]; (apply history_ok_snoc; [by apply IH|done|auto]).
  - done.
  - intros (y & Hy & Hx)%fmap_Some. destruct (alive i a now y); subst x; [|rewrite <- (touch_same y)]; (apply history_ok_snoc; [by apply IH|done|auto]).
Qed.
Lemma run_state ops : forall from s log, agrees from s log -> monotone from ops -> let s' := (sess_run ops s).1 in
  same_limits s s' /\ agrees (default from (last ops.*1)) s' (log ++ ops).
Proof.
  induction ops as [|[t op] ops IH]; intros from s log H M; [by rewrite app_nil_r|]. destruct M as [Ht M]. cbn [sess_run].
  apply (agrees_later _ t), (agrees_step t op) in H; [|done]. pose proof (exec_limits t op s) as [L1 L2]. destruct (sess_exec t op s) as [s' o]. cbn [fst] in *.
  specialize (IH t s' _ H M). destruct (sess_run ops s') as [s'' os]. cbn [fst] in *. destruct IH as [[I1 I2] I3].
  split; [split; congruence|]. rewrite <- app_assoc in I3.
  replace (default from (last ((t, op) :: ops).*1)) with (default t (last ops.*1)) by (rewrite fmap_cons, last_cons; by destruct (last ops.*1)). exact I3.
Qed.
(** a session the store accepts was opened by a login at most the absolute limit
    ago, has been used within the idle limit, and nobody has destroyed or replaced it
    in between; the CSRF token it carries is the one drawn when it was opened. *)
Theorem accepted_session_is_fresh log i a from now id x : monotone from log -> default from (last log.*1) <= now ->
  (GetSession now id (sess_run log (NewSessions i a)).1).2 = Some x ->
  (exists l1 created l2, log = l1 ++ (created, SCreate id (ss_CSRF x)) :: l2 /\ now - created <= a /\
    Forall (fun '(_, op) => op_id op = id -> op <> SDestroy id /\ forall c, op <> SCreate id c) l2) /\
  exists t op, (t, op) ∈ log /\ op_id op = id /\ now - t <= i.
Proof.
  intros M Hn H. destruct (run_state log from (NewSessions i a) []) as [[L1 L2] A]; [intros k; left; cbn; by rewrite lookup_empty|done|].
  destruct (sess_run log (NewSessions i a)) as [s os]. cbn [fst] in *. pose proof (GetSession_spec now id s) as G. destruct (GetSession now id s) as [s' r].
  cbn in H. subst r. destruct G as (_ & _ & G & _). apply (agrees_later _ now) in A; [|done]. rewrite (shown_agrees _ _ _ _ A), L1, L2 in G. cbn [app NewSessions idle absolute] in G.
  destruct (history i a id log) as [y|] eqn:E; [|done]. cbn in G. destruct (alive i a now y) eqn:Al; [|done]. injection G as ->.
  destruct (history_sound _ _ _ _ _ E) as (_ & (l1 & l2 & -> & F) & op & Ho & Hin). apply andb_true_iff in Al as [A1%Z.leb_le A2%Z.leb_le].
  split; [by exists l1, (ss_Created y), l2|by exists (ss_LastSeen y), op].
Qed.
Definition ex_log : list (Z * sess_op) := [(0, SCreate "a" "t"); (5, SGet "b"); (6, SGet "a")].
Lemma accepted_session_is_fresh_witness :
  (exists l1 created l2, ex_log = l1 ++ (created, SCreate "a" (ss_CSRF (mkSession "a" "t" 0 8))) :: l2 /\ 8 - created <= 12 /\
    Forall (fun '(_, op) => op_id op = "a" -> op <> SDestroy "a" /\ forall c, op <> SCreate "a" c) l2) /\
  exists t op, (t, op) ∈ ex_log /\ op_id op = "a" /\ 8 - t <= 7.
Proof. apply (accepted_session_is_fresh ex_log 7 12 0 8 "a" (mkSession "a" "t" 0 8)); [cbn; lia|cbn; lia|by vm_compute]. Defined.
Lemma sessions_refine_history_witness : (sess_run ex_log (NewSessions 3 12)).2 = spec_run 3 12 [] ex_log.
Proof. apply (sessions_refine_history ex_log 3 12 0). cbn. lia. Defined.

(** ** The backoff over a sequence of logins: [true] is a failure, [false] a success *)
Definition login_run (log : list (string * bool)) : Backoff := foldl (fun b '(key, failed) => if (failed : bool) then FailLogin key b else ResetLogin key b) NewBackoff log.
(** The failures of a source since its last success. *)
Fixpoint streak (key : string) (recent : list (string * bool)) : Z :=
  match recent with
  | [] => 0
  | (k, failed) :: recent => if bool_decide (k = key) then (if (failed : bool) then 1 + streak key recent else 0) else streak key recent
  end.
Lemma streak_nonneg key l : 0 <= streak key l.
Proof. induction l as [|[k []] l IH]; cbn; [lia|..]; case_bool_decide; lia. Qed.
Lemma failures_streak key log : failures key (login_run log) = streak key (rev log).
Proof.
  induction log as [|[k failed] log IH] using rev_ind; [done|].
  unfold login_run in *. rewrite foldl_app, rev_app_distr. cbn. rewrite <- IH. unfold failures, FailLogin, ResetLogin.
  case_bool_decide as E; [subst k|]; destruct failed; cbn [bf_failures]; simplify_map_eq; unfold failures; lia || done.
Qed.
(** The delay as arithmetic without overflow. *)
Definition delay_spec (n : Z) : Z := if n =? 0 then 0 else Z.min backoffCap (backoffBase * 2 ^ (n - 1)).
Lemma delay_spec_ok key b : 0 <= failures key b -> Delay key b = delay_spec (failures key b).
Proof.
  unfold Delay, delay_spec. generalize (failures key b). intros n Hn. destruct (Z.eqb_spec n 0) as [E|E]; [done|]. destruct (Z.ltb_spec backoffMaxShift n) as [L|L].
  - assert (2 ^ 18 <= 2 ^ (n - 1)) by (apply Z.pow_le_mono_r; unfold backoffMaxShift in L; lia). unfold backoffCap, backoffBase, seconds, nanos_per_sec. lia.
  - rewrite Z.shiftl_mul_pow2 by lia. assert (1 <= 2 ^ (n - 1) <= 2 ^ 17) by (split; [apply (Z.pow_le_mono_r 2 0)|apply Z.pow_le_mono_r]; unfold backoffMaxShift in L; lia).
    assert (E' : int64 (backoffBase * 2 ^ (n - 1)) = backoffBase * 2 ^ (n - 1)) by (unfold int64, backoffBase; rewrite Z.mod_small; lia). rewrite E'.
    destruct (Z.ltb_spec backoffCap (backoffBase * 2 ^ (n - 1))); lia.
Qed.
Lemma delay_spec_mono n : 0 <= n -> delay_spec n <= delay_spec (1 + n).
Proof.
  intros Hn. unfold delay_spec. destruct (Z.eqb_spec n 0) as [->|E]; [by vm_compute|]. destruct (Z.eqb_spec (1 + n) 0); [lia|].
  assert (2 ^ (n - 1) <= 2 ^ (1 + n - 1)) by (apply Z.pow_le_mono_r; lia). unfold backoffBase. lia.
Qed.
(** after any sequence of logins the delay of a source is a tenth of a second
    doubled for each failure since its last success, never over thirty seconds and
    without overflow, however many failures there were.  Another failure never shortens
    it, a success clears it, and what other sources do never changes it, so no source
    can lock another out, or itself for good. *)
Theorem backoff_follows_failures log key failed k : let d := Delay key (login_run log) in
  d = delay_spec (streak key (rev log)) /\ 0 <= d <= backoffCap /\
  d <= Delay key (login_run (log ++ [(key, true)])) /\ Delay key (login_run (log ++ [(key, false)])) = 0 /\
  (k = key \/ Delay key (login_run (log ++ [(k, failed)])) = d).
Proof.
  cbv zeta. assert (D : forall l, Delay key (login_run l) = delay_spec (streak key (rev l))).
  { intros l. rewrite delay_spec_ok; rewrite failures_streak; [done|apply streak_nonneg]. }
  rewrite !D. pose proof (streak_nonneg key (rev log)) as Hs. rewrite !rev_app_distr. cbn [rev app streak]. rewrite bool_decide_true by done.
  split; [done|]. split; [|split; [by apply delay_spec_mono|split; [done|]]].
  - unfold delay_spec. destruct (Z.eqb_spec (streak key (rev log)) 0); [by vm_compute|]. assert (0 < 2 ^ (streak key (rev log) - 1)) by (apply Z.pow_pos_nonneg; lia).
    unfold backoffCap, backoffBase, seconds, nanos_per_sec. lia.
  - case_bool_decide as E; [by left|by right].
Qed.
Example ex_delays : (fun n => Delay "h" (login_run (repeat ("h", true) n)) / 1000000) <$> [0; 1; 2; 9; 10; 60]%nat = [0; 100; 200; 25600; 30000; 30000].
Proof. by vm_compute. Qed.
