(* ===== verification/SSO.v ===== *)
(** * Single sign-on: [internal/auth/sso.go]

    What KyDNS itself does around the OpenID Connect library: the authorization URL
    with its PKCE challenge, the checks on the exchanged token, and reading a role out
    of the claims providers send.  Discovery, the code exchange, signature verification
    and the userinfo call are the library's and the provider's: a record of operations
    the definitions take as an argument, with the two documented facts the theorem
    needs of it as named laws.  [net/url] escaping is written out. *)
From S2P Require Import Prelude GoStr Json.

(** ** [net/url] and [encoding/base64] *)
Definition upper_hex (n : Z) : ascii := if n <? 10 then chr (48 + n) else chr (55 + n).
Definition unreserved (c : ascii) : bool := is_lower c || is_upper c || is_digit c || is_byte "-" c || is_byte "_" c || is_byte "." c || is_byte "~" c.
Definition QueryEscape (s : string) : string :=
  str (concat ((fun c => if unreserved c then [c] else if is_byte " " c then ["+"%char] else ["%"%char; upper_hex (code c / 16); upper_hex (code c mod 16)]) <$> bytes s)).
(** [url.Values.Encode] of single-valued parameters: sorted by key. *)
Definition key_le (a b : string * string) : Prop := str_le a.1 b.1.
#[export] Instance key_le_dec : RelDecision key_le.
Proof. intros a b. unfold key_le. apply _. Defined.
Definition Encode (q : list (string * string)) : string :=
  GoStr.Join ((fun '(k, v) => QueryEscape k +:+ "=" +:+ QueryEscape v) <$> merge_sort key_le q) "&".
Definition b64_char (n : Z) : ascii :=
  if n <? 26 then chr (65 + n) else if n <? 52 then chr (71 + n) else if n <? 62 then chr (n - 4) else if n =? 62 then "-"%char else "_"%char.
(** [base64.RawURLEncoding]: no padding. *)
Fixpoint RawURLEncode (l : list Z) : list ascii :=
  match l with
  | [] => []
  | [a] => [b64_char (a / 4); b64_char (a mod 4 * 16)]
  | [a; b] => [b64_char (a / 4); b64_char (a mod 4 * 16 + b / 16); b64_char (b mod 16 * 4)]
  | a :: b :: c :: l => b64_char (a / 4) :: b64_char (a mod 4 * 16 + b / 16) :: b64_char (b mod 16 * 4 + c / 64) :: b64_char (c mod 64) :: RawURLEncode l
  end.

(** ** Claims *)
Record SSOTokenClaims := mkClaims { Sub : string; Username : string; PreferredUsername : string; Email : string; DisplayName : string;
  cl_Role : string; Roles : list string; Groups : list string; Issuer : string; RawClaims : gmap string JSON }.
(** [strings.EqualFold] against a constant in ASCII. *)
Definition EqualFold (s t : string) : bool := bool_decide (foldName s = foldName t).
Definition admin_groups : list string := ["admin"; "admins"; "kydns_admin"; "kydns-admin"; "kydns_admins"; "authentik default admins"].
Definition admin_roles : list string := ["admin"; "administrator"; "kydns_admin"].
Definition clean (s : string) : string := ToLower (TrimSpace s).
Definition IsAdmin (c : SSOTokenClaims) : bool :=
  EqualFold (cl_Role c) "admin" || EqualFold (cl_Role c) "administrator" ||
  existsb (fun g => bool_decide (clean g ∈ admin_groups)) (Groups c) || existsb (fun r => bool_decide (clean r ∈ admin_roles)) (Roles c).
Definition claim_string (m : gmap string JSON) (k : string) : string := match m !! k with Some (JString s) => s | _ => "" end.
(** [extractStrings]: an array's strings, or a comma-separated string. *)
Definition extractStrings (v : JSON) : list string :=
  match v with
  | JArray l => omap (fun j => match j with JString s => Some s | _ => None end) l
  | JString s => filter (fun x => x <> "") (TrimSpace <$> Split s ",")
  | _ => []
  end.
Definition claim_list (m : gmap string JSON) (k : string) : list string := match m !! k with Some v => extractStrings v | None => [] end.
(** Decoding an object into a Go map: the last of equal keys wins. *)
Definition object_map (kvs : list (string * JSON)) : gmap string JSON := list_to_map (rev kvs).
Definition parseClaimsMap (m : gmap string JSON) : SSOTokenClaims :=
  let username := claim_string m "username" in
  let preferred := claim_string m "preferred_username" in
  let email := claim_string m "email" in
  let realm := match m !! "realm_access" with Some (JObject ra) => claim_list (object_map ra) "roles" | _ => [] end in
  let username := if bool_decide (username = "") then preferred else username in
  let username := if bool_decide (username = "") then email else username in
  mkClaims (claim_string m "sub") username preferred email (claim_string m "name") (claim_string m "role")
    (claim_list m "roles" ++ realm) (claim_list m "groups" ++ claim_list m "ak_groups") (claim_string m "iss") m.

(** ** The client *)
Record SSOClient := mkSSOClient { IssuerURL : string; ClientID : string; ClientSecret : string }.
Fixpoint drop_slashes (l : list ascii) : list ascii := match l with c :: l' => if is_byte "/" c then drop_slashes l' else l | [] => [] end.
Definition TrimRightSlash (s : string) : string := str (rev (drop_slashes (rev (bytes s)))).
Definition NewSSOClient (issuerURL clientID clientSecret : string) : SSOClient := mkSSOClient (TrimRightSlash issuerURL) clientID clientSecret.
Record OIDCEndpoints := mkEndpoints { AuthorizationEndpoint : string; TokenEndpoint : string; UserinfoEndpoint : string; JWKSURI : string }.
Definition endpoint_fields : list (Field OIDCEndpoints) :=
  [field "authorization_endpoint" AuthorizationEndpoint (fun v e => mkEndpoints v (TokenEndpoint e) (UserinfoEndpoint e) (JWKSURI e)) dec_string;
   field "token_endpoint" TokenEndpoint (fun v e => mkEndpoints (AuthorizationEndpoint e) v (UserinfoEndpoint e) (JWKSURI e)) dec_string;
   field "userinfo_endpoint" UserinfoEndpoint (fun v e => mkEndpoints (AuthorizationEndpoint e) (TokenEndpoint e) v (JWKSURI e)) dec_string;
   field "jwks_uri" JWKSURI (fun v e => mkEndpoints (AuthorizationEndpoint e) (TokenEndpoint e) (UserinfoEndpoint e) v) dec_string].
Definition or_default (s d : string) : string := if bool_decide (s = "") then d else s.
(** [fetch url] is the document a GET answers with status 200 and JSON, if it does. *)
Definition DiscoverEndpoints (fetch : string -> option JSON) (c : SSOClient) : OIDCEndpoints :=
  let defaults := mkEndpoints (IssuerURL c +:+ "/oauth/authorize") (IssuerURL c +:+ "/oauth/token") (IssuerURL c +:+ "/oauth/userinfo") "" in
  match fetch (IssuerURL c +:+ "/.well-known/openid-configuration") ≫= (fun j => dec_struct endpoint_fields j (mkEndpoints "" "" "" "")) with
  | None => defaults
  | Some d => mkEndpoints (or_default (AuthorizationEndpoint d) (AuthorizationEndpoint defaults)) (or_default (TokenEndpoint d) (TokenEndpoint defaults))
      (or_default (UserinfoEndpoint d) (UserinfoEndpoint defaults)) (JWKSURI d)
  end.
(** Both are made from random bytes: 32 for the verifier, 16 for a state or a nonce. *)
Definition GeneratePKCE (sha256 : list ascii -> list Z) (random : list Z) : string * string :=
  let verifier := RawURLEncode random in (str verifier, str (RawURLEncode (sha256 verifier))).
Definition GenerateState (random : list Z) : string := EncodeToString random.
Definition AuthURL (fetch : string -> option JSON) (c : SSOClient) (redirectURI state nonce codeChallenge : string) : string :=
  let endpoint := AuthorizationEndpoint (DiscoverEndpoints fetch c) in
  endpoint +:+ (if Contains endpoint "?" then "&" else "?") +:+
  Encode [("response_type", "code"); ("client_id", ClientID c); ("redirect_uri", redirectURI); ("scope", "openid profile email groups");
    ("state", state); ("nonce", nonce); ("code_challenge", codeChallenge); ("code_challenge_method", "S256")].

(** What go-oidc and oauth2 do, with the network behind them. *)
Record IDToken := mkIDToken { it_Nonce : string; it_Subject : string; it_Claims : option (gmap string JSON) }.
Record UserInfo := mkUserInfo { ui_Subject : string; ui_Claims : option (gmap string JSON) }.
Record OAuthToken := mkOAuthToken { ot_access : string; ot_id_token : option string }.
Record OIDC := mkOIDC { oi_NewProvider : string -> bool;
  oi_Exchange : SSOClient -> string -> string -> string -> option OAuthToken;
  oi_Verify : SSOClient -> string -> option IDToken;
  oi_UserInfo : SSOClient -> OAuthToken -> option UserInfo }.
Inductive sso_error := DiscoverFailed | ExchangeFailed | NoIDToken | VerifyFailed | NonceMismatch | ClaimsUndecodable | SubjectEmpty | SubjectMismatch.
Definition rejects_nonce (idNonce nonce : string) : bool := bool_decide (nonce = "") || negb (bool_decide (idNonce = nonce)).
Definition ExchangeCode (o : OIDC) (c : SSOClient) (redirectURI code codeVerifier nonce : string) : result sso_error SSOTokenClaims :=
  if negb (oi_NewProvider o (IssuerURL c)) then Err DiscoverFailed
  else match oi_Exchange o c redirectURI code codeVerifier with
  | None => Err ExchangeFailed
  | Some token =>
      let raw := default "" (ot_id_token token) in
      if bool_decide (raw = "") then Err NoIDToken
      else match oi_Verify o c raw with
      | None => Err VerifyFailed
      | Some id =>
          if rejects_nonce (it_Nonce id) nonce then Err NonceMismatch
          else match it_Claims id with
          | None => Err ClaimsUndecodable
          | Some claims =>
              if bool_decide (it_Subject id = "") then Err SubjectEmpty
              else match oi_UserInfo o c token with
              | None => Ok (parseClaimsMap claims)
              | Some u =>
                  if negb (bool_decide (ui_Subject u = it_Subject id)) then Err SubjectMismatch
                  else Ok (parseClaimsMap (match ui_Claims u with Some m => m ∪ claims | None => claims end))
              end
          end
      end
  end.

(** ** Theorems *)
(** The subject of a token and of a userinfo reply is their [sub] claim. *)
Definition subject_is_sub (o : OIDC) : Prop := forall c,
  (forall raw id m, oi_Verify o c raw = Some id -> it_Claims id = Some m -> m !! "sub" = Some (JString (it_Subject id))) /\
  (forall t u m, oi_UserInfo o c t = Some u -> ui_Claims u = Some m -> m !! "sub" = Some (JString (ui_Subject u))).
Lemma parse_sub m s : m !! "sub" = Some (JString s) -> Sub (parseClaimsMap m) = s.
Proof. intros H. unfold parseClaimsMap, claim_string. cbn [Sub]. by rewrite H. Qed.
(** C38: an identity the exchange accepts is one the provider vouched for: the subject
    is that of an ID token the library verified for this client, the token carries the
    nonce of this browser's own sign-in, which is not empty, and the userinfo reply can
    add claims but not another subject. *)
Theorem exchanged_identity_is_verified o c redirectURI code codeVerifier nonce claims : subject_is_sub o ->
  ExchangeCode o c redirectURI code codeVerifier nonce = Ok claims ->
  exists token raw id, oi_Exchange o c redirectURI code codeVerifier = Some token /\ ot_id_token token = Some raw /\
    oi_Verify o c raw = Some id /\ it_Nonce id = nonce /\ nonce <> "" /\ Sub claims = it_Subject id /\ it_Subject id <> "".
Proof.
  intros L H. unfold ExchangeCode in H. destruct (negb _); [done|]. destruct (oi_Exchange _ _ _ _ _) as [token|] eqn:X; [|done].
  case_bool_decide as R; [done|]. destruct (oi_Verify _ _ _) as [id|] eqn:V; [|done]. destruct (rejects_nonce _ _) eqn:N; [done|].
  destruct (it_Claims id) as [m|] eqn:C; [|done]. case_bool_decide as S; [done|]. exists token, (default "" (ot_id_token token)), id.
  apply orb_false_iff in N as [N1%bool_decide_eq_false N2%negb_false_iff%bool_decide_eq_true]. destruct (L c) as [L1 L2].
  split; [done|]. split; [by destruct (ot_id_token token)|]. split; [done|]. split; [done|]. split; [done|]. split; [|done].
  destruct (oi_UserInfo _ _ _) as [u|] eqn:U; [|injection H as <-; by eapply parse_sub, L1].
  destruct (bool_decide (ui_Subject u = it_Subject id)) eqn:E; [|done]. apply bool_decide_eq_true in E. injection H as <-.
  destruct (ui_Claims u) as [m'|] eqn:C'; [|by eapply parse_sub, L1].
  apply parse_sub. rewrite <- E. apply lookup_union_Some_l. by eapply L2.
Qed.

Definition ex_claims : gmap string JSON := list_to_map [("sub", JString "u1"); ("groups", JString "staff, KyDNS_Admin"); ("email", JString "a@x")].
Definition ex_oidc : OIDC := mkOIDC (fun _ => true) (fun _ _ code _ => if bool_decide (code = "good") then Some (mkOAuthToken "at" (Some "jwt")) else None)
  (fun _ _ => Some (mkIDToken "n" "u1" (Some ex_claims))) (fun _ _ => Some (mkUserInfo "u1" (Some {[ "sub" := JString "u1"; "name" := JString "Ann" ]}))).
Lemma ex_oidc_law : subject_is_sub ex_oidc.
Proof.
  intros c. split.
  - intros raw id m [= <-] [= <-]. by vm_compute.
  - intros t u m [= <-] [= <-]. by vm_compute.
Qed.
Example ex_exchange : (fun c => (Sub c, Username c, DisplayName c, IsAdmin c)) <$> ok_opt (ExchangeCode ex_oidc (NewSSOClient "https://idp//" "kydns" "") "r" "good" "v" "n") =
  Some ("u1", "a@x", "Ann", true).
Proof. by vm_compute. Qed.
Lemma exchanged_identity_is_verified_witness : exists token raw id, oi_Exchange ex_oidc (NewSSOClient "https://idp" "kydns" "") "r" "good" "v" = Some token /\ ot_id_token token = Some raw /\
    oi_Verify ex_oidc (NewSSOClient "https://idp" "kydns" "") raw = Some id /\ it_Nonce id = "n" /\ "n" <> "" /\
    Sub (parseClaimsMap ({[ "sub" := JString "u1"; "name" := JString "Ann" ]} ∪ ex_claims)) = it_Subject id /\ it_Subject id <> "".
Proof.
  apply (exchanged_identity_is_verified ex_oidc (NewSSOClient "https://idp" "kydns" "") "r" "good" "v" "n"); [exact ex_oidc_law|by vm_compute].
Defined.
Example ex_auth_url : AuthURL (fun _ => None) (NewSSOClient "https://idp/" "ky dns" "") "http://h/cb" "s" "n" "c" =
  "https://idp/oauth/authorize?client_id=ky+dns&code_challenge=c&code_challenge_method=S256&nonce=n&redirect_uri=http%3A%2F%2Fh%2Fcb&response_type=code&scope=openid+profile+email+groups&state=s".
Proof. by vm_compute. Qed.
Example ex_b64 : str (RawURLEncode (code <$> bytes "Man?~")) = "TWFuP34".
Proof. by vm_compute. Qed.
