(* ===== verification/WebPages.v ===== *)
(** * What the administration pages show: the page data of [internal/web/]

    The rows, banners and summaries the templates range over, as functions of what the
    node holds.  The HTML itself, and the sentences of the banners, stay outside. *)
From S2P Require Import Prelude GoStr PolicyName Policy RegistryValidate.
From S2P Require Import NetIP NetIPPrint Model Store StoreNode DnsMsg DnsMetrics DnsForward.
From S2P Require Import SettingsValidate Settings Health DhcpReserve DhcpServer Replica Role Json.

(** ** humanize.go: durations in nanoseconds *)
Definition minute : Z := seconds 60.
Definition hour : Z := seconds 3600.
Definition shortDuration (d : Z) : string :=
  if d <? minute then itoa (Z.quot d (seconds 1)) +:+ "s"
  else if d <? hour then itoa (Z.quot d minute) +:+ "m"
  else if d <? 24 * hour then itoa (Z.quot d hour) +:+ "h"
  else itoa (Z.quot (Z.quot d hour) 24) +:+ "d " +:+ itoa (Z.rem (Z.quot d hour) 24) +:+ "h".
(** [Time.Sub] saturates. *)
Definition time_sub (a b : Z) : Z := Z.max (- 2 ^ 63) (Z.min (2 ^ 63 - 1) (a - b)).
Definition sinceText (unix now : Z) : string :=
  if unix =? 0 then "never"
  else let d := time_sub now (time_unix unix) in if d <? seconds 1 then "just now" else shortDuration d +:+ " ago".
Definition leaseExpiry (at_ now : Z) : string := if at_ <=? now then "expired" else "in " +:+ shortDuration (time_sub at_ now).

(** ** banner.go *)
Inductive Banner :=
  | TailscaleRefused (cgnat : Z) | ViewNeverMatches (views : list string) | PlaintextUpstream (specs : list string)
  | UpstreamsDown (reasons : list (string * string)) | ReplicaStale (managedBy : string) (since : option string) (last : option (option poll_error)).
(** Whether two prefixes share an address: [Prefix.Overlaps]. *)
Definition Overlaps (p q : Prefix) : bool :=
  Bool.eqb (Addr.Is4 (p_addr p)) (Addr.Is4 (p_addr q)) &&
  (let b := Z.min (p_bits p) (p_bits q) in
   if b =? 0 then true else bool_decide (p_addr (Pfx.Masked (mkPrefix (p_addr p) b)) = p_addr (Pfx.Masked (mkPrefix (p_addr q) b)))).
Definition cgnatPrefix : Prefix := mkPrefix (Addr4 (100 * 2 ^ 24 + 64 * 2 ^ 16)) 10.
Definition covers_cgnat (v : View) : bool := existsb (fun c => match ParsePrefix c with Some p => Overlaps cgnatPrefix p | None => false end) (v_Subnets v).
Definition unreachableViews (views : list View) (allowTailscale : bool) : list string :=
  if allowTailscale then [] else v_Name <$> filter (fun v => covers_cgnat v = true) views.
Definition TailscaleBanner (acl : option ACL) (views : list View) (allowTailscale : bool) (now window : Z) : option Banner :=
  if allowTailscale then None
  else match (match acl with Some a => if RecentCGNATRefusal now window a then Some (TailscaleRefused (rs_CGNAT (Stats a))) else None | None => None end) with
  | Some b => Some b
  | None => match unreachableViews views allowTailscale with [] => None | names => Some (ViewNeverMatches names) end
  end.
Definition PlaintextUpstreamBanner (st : list UpstreamStatus) : option Banner :=
  match us_Spec <$> filter (fun s => us_Secure s = false) st with [] => None | names => Some (PlaintextUpstream names) end.
Definition UpstreamsDownBanner (st : list UpstreamStatus) : option Banner :=
  if bool_decide (st = []) then None
  else if existsb (fun s => bool_decide (us_LastError s = "")) st then None
  else Some (UpstreamsDown ((fun s => (us_Spec s, us_LastError s)) <$> st)).
Definition managedBy (s : ReplicaStatus) : string := if bool_decide (rst_PrimaryAddr s = "") then "its primary" else rst_PrimaryAddr s.
(** A pinned primary is what a pairing leaves: [toWeb]. *)
Definition Paired (s : ReplicaStatus) : bool := negb (bool_decide (rst_PrimaryNodeID s = "")).
Definition ReplicaStaleBanner (st : ReplicaStatus) (now : Z) : option Banner :=
  if negb (bool_decide (rst_Role st = RoleReplica)) || negb (rst_Stale st) then None
  else Some (ReplicaStale (managedBy st) (if rst_LastSyncUnix st =? 0 then None else Some (shortDuration (time_sub now (time_unix (rst_LastSyncUnix st))))) (rst_LastError st)).

(** ** services.go *)
Record addressRow := mkAddressRow { ar_Address : string; ar_View : string; ar_Tagged : bool }.
Record serviceRow := mkServiceRow { sr_ID : Z; sr_Name : string; sr_Addresses : list addressRow; sr_Aliases : string; sr_Health : HealthState;
  sr_ProxyAddress : string; sr_RouteViaProxy : bool }.
Definition allViews : string := "all views".
Definition HealthRow : Type := Z * string * HealthState * Z * string.
Definition states_of (h : list HealthRow) : gmap Z HealthState := list_to_map ((fun '(id, _, st, _, _) => (id, st)) <$> rev h).
Definition service_row (states : gmap Z HealthState) (s : Service) : serviceRow :=
  mkServiceRow (s_ID s) (s_Name s)
    ((fun a => if bool_decide (a_View a = "") then mkAddressRow (a_Address a) allViews false else mkAddressRow (a_Address a) (a_View a) true) <$> s_Addresses s)
    (GoStr.Join (s_Aliases s) ", ") (default StateUnknown (states !! s_ID s)) (s_ProxyAddress s) (s_RouteViaProxy s).
(** What [Registry.Services] returned, or that it failed. *)
Definition rows_of {A} (r : result store_error A) (d : A) : A := match r with Ok a => a | Err _ => d end.
Definition serviceRows (db : DB) (h : list HealthRow) : list serviceRow := service_row (states_of h) <$> rows_of (Services db) [].

(** ** settings.go *)
Record viewRow := mkViewRow { vr_Name : string; vr_Subnets : string; vr_Unreachable : bool; vr_References : Z }.
Definition view_row (unreachable : list string) (svcs : list Service) (recs : list DnsRecord) (v : View) : viewRow :=
  mkViewRow (v_Name v) (GoStr.Join (v_Subnets v) ", ") (bool_decide (v_Name v ∈ unreachable))
    (countb (fun a => bool_decide (a_View a = v_Name v)) (svcs ≫= s_Addresses) + countb (fun r => bool_decide (r_View r = v_Name v)) recs).
Definition viewRows (db : DB) (allowTailscale : bool) : list viewRow :=
  view_row (unreachableViews (Views db) allowTailscale) (rows_of (Services db) []) (Records db) <$> Views db.

(** ** serversettings.go *)
(** Trimmed entries, blank ones dropped. *)
Definition entries (c : ascii) (s : string) : list string := filter (fun x => x <> "") (TrimSpace <$> Split s c).
Definition lines (s : string) : list string := entries "010"%char s.
Record renameRow := mkRenameRow { rw_From : string; rw_To : string }.
Record zoneRename := mkZoneRename { zr_From : string; zr_To : string; zr_Confirm : string; zr_Rows : list renameRow; zr_Count : Z; zr_More : Z }.
Definition renamePreview : nat := 12.
Definition arrow : string := " → ".
Definition rename_row (from to : string) (r : DnsRecord) : option renameRow :=
  let name := RenameInZone (r_Name r) from to in
  let value := if bool_decide (r_Type r = "CNAME" \/ r_Type r = "PTR") then RenameInZone (r_Value r) from to else None in
  match name, value with
  | None, None => None
  | _, None => Some (mkRenameRow (r_Name r) (default (r_Name r) name))
  | _, Some v => Some (mkRenameRow (r_Name r +:+ arrow +:+ r_Value r) (default (r_Name r) name +:+ arrow +:+ v))
  end.
Definition planZoneRename (recs : list DnsRecord) (from to : string) : option zoneRename :=
  let fromZ := ZoneSuffix from in let toZ := ZoneSuffix to in
  if bool_decide (fromZ = "" \/ toZ = "" \/ fromZ = toZ) then None
  else
    let all := omap (rename_row fromZ toZ) recs in
    let rows := take renamePreview all in
    let n := Z.of_nat (length all) in
    if n =? 0 then None else Some (mkZoneRename fromZ toZ to rows n (n - Z.of_nat (length rows))).

(** ** discovered.go *)
Record leaseRow := mkLeaseRow { lr_Hostname : string; lr_IP : string; lr_MAC : string; lr_Shadowed : bool }.
(** The first label of a name that has more than one. *)
Definition first_label (name : string) : option string :=
  match cut_byte "." (bytes (TrimSuffix name ".")) with Some (l, _) => Some (str l) | None => None end.
Definition taken_names (svcs : list Service) (recs : list DnsRecord) : list string :=
  (svcs ≫= (fun s => s_Name s :: s_Aliases s)) ++ omap (fun r => first_label (r_Name r)) recs.
Definition leaseRows (on : bool) (db : DB) (leases : list SourceLease) : result store_error (list leaseRow) :=
  if negb on then Ok []
  else svcs <-? Services db ;;
    let taken := taken_names svcs (Records db) in
    Ok ((fun l => mkLeaseRow (sl_Hostname l) (sl_IP l) (sl_MAC l) (bool_decide (sl_Hostname l ∈ taken))) <$> leases).
(** The MAC to promote with: none the registry would reject or another service holds. *)
Definition reservableMAC (db : DB) (mac : string) : string :=
  if bool_decide (mac = "") || negb (is_ok (ValidateMAC mac)) then ""
  else match Services db with
  | Err _ => ""
  | Ok svcs => if bool_decide (NormalizeMAC mac ∈ s_MAC <$> svcs) then "" else mac
  end.

(** ** dhcp.go *)
Record dhcpForm := mkDhcpForm { df_Enabled : bool; df_Interface : string; df_RangeStart : string; df_RangeEnd : string; df_Gateway : string;
  df_LeaseSeconds : Z; df_SecondaryDNS : string; df_AllowForeign : bool }.
Definition dhcpFormOf (suggested : Z) (v : Settings) : dhcpForm :=
  mkDhcpForm (DHCPEnabled v) (DHCPInterface v) (DHCPRangeStart v) (DHCPRangeEnd v) (DHCPGateway v)
    (if DHCPLeaseSeconds v =? 0 then suggested else DHCPLeaseSeconds v) (DHCPSecondaryDNS v) (DHCPAllowForeign v).
(** [apply]: the form over the running settings. *)
Definition df_apply (f : dhcpForm) (v : Settings) : Settings :=
  mkSettings (PrivateDomain v) (ReverseZones v) (Upstreams v) (AllowQuery v) (AllowTailscale v) (TTL v) (CacheMinTTL v) (CacheMaxTTL v) (NegativeMaxTTL v)
    (CacheEntries v) (LogQueries v) (LogClientIP v) (DHCPLeaseFile v) (DiscoveryInterval v) (HealthInterval v) (HealthTimeout v) (HealthWorkers v)
    (df_Enabled f) (df_Interface f) (df_RangeStart f) (df_RangeEnd f) (df_Gateway f) (df_LeaseSeconds f) (df_SecondaryDNS f) (df_AllowForeign f).
Record dhcpLeaseRow := mkDhcpLeaseRow { dr_MAC : string; dr_IP : string; dr_Hostname : string; dr_Expires : string; dr_Reserved : bool }.
Definition dhcpLeaseRows (now : Z) (db : DB) (leases : list SourceLease) : result store_error (list dhcpLeaseRow) :=
  svcs <-? Services db ;;
  let reserved := filter (fun m => m <> "") (s_MAC <$> svcs) in
  Ok ((fun l => mkDhcpLeaseRow (sl_MAC l) (sl_IP l) (sl_Hostname l) (leaseExpiry (sl_Expires l) now) (bool_decide (NormalizeMAC (sl_MAC l) ∈ reserved))) <$> leases).

(** ** blacklists.go; [LastOK] stays a unix second *)
Record blacklistRow := mkBlacklistRow { kr_ID : Z; kr_Name : string; kr_Description : string; kr_URL : string; kr_Format : string; kr_Enabled : bool; kr_Builtin : bool;
  kr_Interval : string; kr_Entries : Z; kr_Skipped : Z; kr_LastOK : Z; kr_Stale : bool; kr_NeverLoaded : bool; kr_LastError : string }.
Definition blacklist_row (l : BlacklistList) : blacklistRow :=
  mkBlacklistRow (bl_ID l) (bl_Name l) (bl_Description l) (bl_URL l) (bl_Format l) (bl_Enabled l) (bl_Builtin l)
    (itoa (Z.quot (bl_IntervalSeconds l) 60) +:+ " min") (bl_EntryCount l) (bl_SkippedCount l) (bl_LastOKAt l)
    (negb (bool_decide (bl_LastError l = "")) && negb (bl_LastOKAt l =? 0)) (bl_LastOKAt l =? 0) (bl_LastError l).
Definition staleAny (rows : list blacklistRow) : bool := existsb (fun r => kr_Stale r || (kr_NeverLoaded r && kr_Enabled r)) rows.
Definition allow_rules (rs : list BlacklistRule) : list BlacklistRule := filter (fun r => br_Kind r = "allow") rs.
Definition deny_rules (rs : list BlacklistRule) : list BlacklistRule := filter (fun r => br_Kind r <> "allow") rs.
