(* ===== verification/Web.v ===== *)
(** * The administration pages: [internal/web/]

    Every form handler and screen over the services it calls, the sign-in flows, the
    session, CSRF and setup guards, the write gate, the routes, and the one handler
    [Serve] listens with: both gates around the mux both transports share.  A request
    is the one the admin API sees, with its cookies and form.  Password hashing and
    verification, the OpenID library and the backup pages are parameters; random draws
    come with the request's environment.  A page is its data. *)
From S2P Require Import Prelude GoStr PolicyName Policy PolicyService RegistryValidate Registry Session SSO.
From S2P Require Import NetIP NetIPPrint Model Zone ZoneHolder Store StoreNode StoreProps DnsMsg DnsMetrics DnsCache DnsAuth DnsForward DnsServer Upstream.
From S2P Require Import SettingsValidate Settings Ticker Health DhcpAlloc DhcpReserve DhcpServer ReplicaSync Replica Pairing Role DhcpRunner Live Json AdminDto AdminApi WebPages.

(** ** Requests and responses *)
Record WebRequest := mkWebRequest { wq_http : ApiRequest; wq_Cookies : list (string * string); wq_Form : option (list (string * string)); wq_TLS : bool;
  wq_Host : string; wq_XProto : string; wq_XHost : string; wq_RemoteAddr : string }.
Definition first_of (k : string) (l : list (string * string)) : option string := snd <$> List.find (fun p => bool_decide (p.1 = k)) l.
Definition CookieOf (k : string) (r : WebRequest) : option string := first_of k (wq_Cookies r).
Definition PostFormValue (k : string) (r : WebRequest) : string := default "" (wq_Form r ≫= first_of k).
Definition checked (k : string) (r : WebRequest) : bool := negb (bool_decide (PostFormValue k r = "")).
(** A cookie with a negative age is deleted; age 0 lasts as long as the browser. *)
Record SetCookie := mkSetCookie { ck_Name : string; ck_Value : string; ck_Path : string; ck_MaxAge : Z; ck_Secure : bool }.

Inductive web_error :=
  | WSetupToken | WShortPassword | WPasswordMismatch | WHashFailed | WWrongPassword | WQueryText (s : string)
  | WBadState | WSignInExpired | WExchange (e : sso_error) | WNotAdmin | WNotLinked
  | WReg (e : api_err) | WBadID | WNoLease (ip : string) | WField (name : string) | WSet (e : set_error) | WUnread | WPolicy (e : policy_error) | WNoSuchList
  | WReplicationOff | WNotServing | WPeer (e : store_error) | WPromoteUnconfirmed | WPromote (msg : string) | WJoinUnconfirmed | WNotReplica
  | WFingerprint | WFingerprintRejected | WPair (e : pair_error) | WNoProposal | WBackup (msg : string).
Record peerRow := mkPeerRow { pr_NodeID : string; pr_Label : string; pr_Address : string; pr_LastSync : string; pr_Status : replica_status; pr_Lag : Z; pr_Synced : bool }.
Inductive replication_view := VReplica (primary age : string) (last : option (option poll_error)) (paired canPair : bool) | VPeers (rows : list peerRow).
Inductive replication_extra := XNone | XError (e : web_error) | XInvite (code fingerprint expires : string) | XPromoted (promoted : bool) (after : Role) | XJoined.
Record replicationLine := mkReplicationLine { rl_Role : Role; rl_Detail : string; rl_Label : string }.
Record settingsPage := mkSettingsPage { sg_Views : list viewRow; sg_Tokens : list Token; sg_NewToken : string; sg_Config : list (string * string); sg_Error : option web_error;
  sg_Upstreams : list UpstreamStatus; sg_Public : list string; sg_Identity : option AdminIdentity; sg_SSO : SSOSettings; sg_Server : option Settings;
  sg_Rename : option zoneRename; sg_ServerError : option web_error }.
Record dashboardPage := mkDashboardPage { dg_Public : list string; dg_Line : option replicationLine; dg_Upstreams : option (list UpstreamStatus); dg_Banners : list Banner;
  dg_Services : Z; dg_Records : Z; dg_Views : Z; dg_Refused : option (Z * Z); dg_CacheEntries : option Z; dg_Metrics : Metrics; dg_AvgMS : Z; dg_HitRate : Z;
  dg_Uptime : string; dg_LastQuery : string; dg_TopBlocked : option (list (string * Z)); dg_Error : option web_error }.
Record blacklistPage := mkBlacklistPage { kg_Enabled : bool; kg_BlockTTL : Z; kg_Lists : list blacklistRow; kg_StaleAny : bool; kg_Allow : list BlacklistRule; kg_Deny : list BlacklistRule;
  kg_Counters : Z * gmap string Z }.
Inductive Page :=
  | PSetup (e : option web_error) | PLogin (sso : bool) (e : option web_error) | PReadOnly (managedBy : string) | PLicense
  | PDashboard (d : dashboardPage) | PServices (rows : list serviceRow) (views : list View) (e : option web_error)
  | PRecords (recs : list DnsRecord) (views : list View) (types : list string) (e : option web_error)
  | PDiscovered (rows : list leaseRow) (enabled : bool) (e : option web_error)
  | PDHCP (form : dhcpForm) (leases : list dhcpLeaseRow) (st : DHCPStatus) (e : option web_error)
  | PBlacklists (d : option blacklistPage) (result : option (string * bool * string)) (e : option web_error)
  | PReplication (r : Role) (v : replication_view) (x : replication_extra)
  | PSettings (d : settingsPage).
(** What [render] adds: the CSRF token, the replication entry and a replica's notice. *)
Record Chrome := mkChrome { ch_CSRF : option string; ch_ShowReplication : bool; ch_ReadOnly : option (string * option Banner) }.
Inductive WebBody := BRedirect (to : string) | BBare (p : Page) | BPage (p : Page) (c : Chrome) | BText | BSignedOut | BJSON (j : JSON) | BStats (s : StatsBody)
  | BExport (json : bool) (doc : option transfer) | BCapsule (raw : string) | BStatic | BApi (r : Response).
Record WebResponse := mkResp { rp_Status : Z; rp_Body : WebBody; rp_Cookies : list SetCookie; rp_Delay : Z }.
Definition reply (status : Z) (b : WebBody) : WebResponse := mkResp status b [] 0.
Definition redirect (to : string) : WebResponse := reply 303 (BRedirect to).
Definition with_cookies (l : list SetCookie) (r : WebResponse) : WebResponse := mkResp (rp_Status r) (rp_Body r) l (rp_Delay r).

(** ** The server *)
(** Which optional parts it was wired with, the setup token and the file-owned keys. *)
Record WebOptions := mkWebOptions { wo_api : bool; wo_settings : bool; wo_policy : bool; wo_cache : bool; wo_acl : bool; wo_upstreams : bool; wo_health : bool; wo_leases : bool;
  wo_discovery : bool; wo_replication : bool; wo_backup : bool; wo_SetupToken : string; wo_Config : list (string * string) }.
Record WebWorld := mkWW { ww_api : ApiWorld; ww_sessions : Sessions; ww_backoff : Backoff }.
(** The clock and the rest of the API's environment, the session id and CSRF token a
    login would draw, what hashing returns, the draws of a sign-in, the provider. *)
Record WebEnv := mkWebEnv { we_env : Env; we_id : string; we_csrf : string; we_hash : string -> option string; we_pkce : list Z; we_state : list Z; we_nonce : list Z;
  we_fetch : string -> option JSON; we_oidc : OIDC }.
Definition we_now (e : WebEnv) : Z := en_now (we_env e).
Definition WebHandler : Type := WebEnv -> WebRequest -> WebWorld -> WebWorld * WebResponse.
Definition with_api (a : ApiWorld) (w : WebWorld) : WebWorld := mkWW a (ww_sessions w) (ww_backoff w).
Definition with_sessions (s : Sessions) (w : WebWorld) : WebWorld := mkWW (ww_api w) s (ww_backoff w).
Definition with_backoff (b : Backoff) (w : WebWorld) : WebWorld := mkWW (ww_api w) (ww_sessions w) b.
Definition on_api {A} (f : ApiWorld -> ApiWorld * A) (w : WebWorld) : WebWorld * A := let '(a, r) := f (ww_api w) in (with_api a w, r).
Definition web_db (w : WebWorld) : DB := db_of (ww_api w).
Definition with_web_db (db : DB) (w : WebWorld) : WebWorld := with_api (with_aw_db db (ww_api w)) w.

Definition PathSetup : string := "/setup".
Definition PathLogin : string := "/login".
Definition PathLogout : string := "/logout".
Definition PathPromote : string := "/replication/promote".
Definition PathJoin : string := "/replication/join".
Definition PathDHCPSettings : string := "/dhcp/settings".
Definition PathDHCPSuggest : string := "/dhcp/suggest".
Definition webWriteExempt : list string := [PathSetup; PathLogin; PathLogout; PathPromote; PathJoin; PathDHCPSettings; PathDHCPSuggest].
Definition cookieSSOState : string := "kydns_sso_state".
Definition cookieSSOVerifier : string := "kydns_sso_verifier".
Definition cookieSSONonce : string := "kydns_sso_nonce".
Definition cookieSSOLink : string := "kydns_sso_link".
Definition bannerWindow : Z := hour.

Section Web.
Context (sha256 : list ascii -> list Z).
(** The hash and the password typed; a malformed hash is a refusal. *)
Context (VerifyPassword : string -> string -> bool).
Context (api : API) (o : WebOptions).
Abbreviation W := WebWorld.
Implicit Types (w : W) (e : WebEnv) (r : WebRequest).

(** *** middleware.go *)
Definition web_status e w : ReplicaStatus := status_of api (we_env e) (ww_api w).
Definition replica e w : option ReplicaStatus :=
  if wo_replication o then let st := web_status e w in if bool_decide (rst_Role st = RoleReplica) then Some st else None else None.
Definition hasAdmin w : bool := HasAdmin (web_db w).
Definition session e r w : W * option Session :=
  match CookieOf CookieName r with
  | None => (w, None)
  | Some c => let '(s, x) := GetSession (we_now e) c (ww_sessions w) in (with_sessions s w, x)
  end.
Definition requireSetup (next : WebHandler) : WebHandler := fun e r w => if negb (hasAdmin w) then (w, redirect "/setup") else next e r w.
Definition requireSession (next : WebHandler) : WebHandler := requireSetup (fun e r w =>
  match session e r w with (w, None) => (w, redirect "/login") | (w, Some _) => next e r w end).
Definition requireSessionJSON (next : WebHandler) : WebHandler := fun e r w =>
  match session e r w with (w, None) => (w, reply 401 BSignedOut) | (w, Some _) => next e r w end.
Definition requireCSRF (next : WebHandler) : WebHandler := requireSetup (fun e r w =>
  match session e r w with
  | (w, None) => (w, redirect "/login")
  | (w, Some sess) =>
      match wq_Form r with
      | None => (w, reply 400 BText)
      | Some _ =>
          let '(s, ok) := ValidCSRF (we_now e) (ss_ID sess) (PostFormValue "csrf_token" r) (ww_sessions w) in
          let w := with_sessions s w in if ok then next e r w else (w, reply 403 BText)
      end
  end).
Definition sessionCookie r (sess : Session) : SetCookie := mkSetCookie CookieName (ss_ID sess) "/" 0 (wq_TLS r).
Definition sourceKey r : string := match SplitHostPort (wq_RemoteAddr r) with Some (host, _) => host | None => wq_RemoteAddr r end.
(** A new session, with the cookie that carries it. *)
Definition sign_in (now : Z) e r w : W * WebResponse :=
  let '(s, sess) := Create now (we_id e) (we_csrf e) (ww_sessions w) in (with_sessions s w, with_cookies [sessionCookie r sess] (redirect "/")).

(** *** render.go, replication.go: what every page needs *)
Definition role e w : Role := if wo_replication o then rst_Role (web_status e w) else RoleStandalone.
Definition replicating e w : bool := negb (bool_decide (role e w = RoleStandalone)).
Definition render (status : Z) (p : Page) : WebHandler := fun e r w =>
  let '(w, sess) := session e r w in
  (w, reply status (BPage p (mkChrome (ss_CSRF <$> sess) (replicating e w)
    ((fun st => (managedBy st, ReplicaStaleBanner st (we_now e))) <$> replica e w)))).
Definition renderBare (status : Z) (p : Page) : WebResponse := reply status (BBare p).

(** *** auth_handlers.go: setup and passwords *)
Definition getSetup : WebHandler := fun e r w => (w, if hasAdmin w then redirect "/login" else renderBare 200 (PSetup None)).
Definition postSetup : WebHandler := fun e r w =>
  let fail m := (w, renderBare 400 (PSetup (Some m))) in
  if hasAdmin w then (w, redirect "/login")
  else match wq_Form r with
  | None => (w, reply 400 BText)
  | Some _ =>
      let password := PostFormValue "password" r in
      if negb (bool_decide (PostFormValue "token" r = wo_SetupToken o)) then fail WSetupToken
      else if len password <? MinPasswordLen then fail WShortPassword
      else if negb (bool_decide (password = PostFormValue "confirm" r)) then fail WPasswordMismatch
      else match we_hash e password with
      | None => fail WHashFailed
      | Some hash =>
          match SetAdminPassword (unix (we_now e)) hash (web_db w) with
          | (db, Err x) => (with_web_db db w, renderBare 400 (PSetup (Some (WReg (AStore x)))))
          | (db, Ok _) => sign_in (we_now e) e r (with_web_db db w)
          end
      end
  end.
(** The button of the sign-in page. *)
Definition ssoOffered (db : DB) : bool :=
  sso_Enabled (GetSSOSettings db) || match GetAdminIdentity db with Ok i => negb (bool_decide (SSOSub i = "")) | Err _ => false end.
Definition query_error r : option web_error := let m := QueryGet "error" (wq_http r) in if bool_decide (m = "") then None else Some (WQueryText m).
Definition getLogin : WebHandler := fun e r w =>
  match session e r w with
  | (w, Some _) => (w, redirect "/")
  | (w, None) => (w, renderBare 200 (PLogin (ssoOffered (web_db w)) (query_error r)))
  end.
(** The wait happens before the answer, so the session starts after it. *)
Definition postLogin : WebHandler := fun e r w =>
  match wq_Form r with
  | None => (w, reply 400 BText)
  | Some _ =>
      let key := sourceKey r in
      let d := Delay key (ww_backoff w) in
      let ok := match AdminHash (web_db w) with Ok hash => VerifyPassword hash (PostFormValue "password" r) | Err _ => false end in
      let '(w, resp) := if ok then sign_in (we_now e + d) e r (with_backoff (ResetLogin key (ww_backoff w)) w)
                        else (with_backoff (FailLogin key (ww_backoff w)) w, renderBare 401 (PLogin (ssoOffered (web_db w)) (Some WWrongPassword))) in
      (w, mkResp (rp_Status resp) (rp_Body resp) (rp_Cookies resp) d)
  end.
Definition postLogout : WebHandler := fun e r w =>
  (match CookieOf CookieName r with Some c => with_sessions (Destroy c (ww_sessions w)) w | None => w end,
   with_cookies [mkSetCookie CookieName "" "/" (-1) (wq_TLS r)] (redirect "/login")).

(** *** auth_handlers.go: single sign-on *)
Definition ssoSecure r : bool := wq_TLS r || bool_decide (wq_XProto r = "https").
Definition setSSOCookie r (name value : string) (maxAge : Z) : SetCookie := mkSetCookie name value "/auth/sso/" maxAge (ssoSecure r).
Definition clearSSOCookie r (name : string) : SetCookie := setSSOCookie r name "" (-1).
Definition clearSSOCookies r : list SetCookie := clearSSOCookie r <$> [cookieSSOState; cookieSSOVerifier; cookieSSONonce; cookieSSOLink].
Definition ssoRedirectURI r : string :=
  (if ssoSecure r then "https" else "http") +:+ "://" +:+ (if bool_decide (wq_XHost r = "") then wq_Host r else wq_XHost r) +:+ "/auth/sso/callback".
Definition ssoClient (s : SSOSettings) : SSOClient := NewSSOClient (Store.IssuerURL s) (Store.ClientID s) (Store.ClientSecret s).
Definition getSSOLogin : WebHandler := fun e r w =>
  let isLink := bool_decide (QueryGet "link" (wq_http r) = "true") in
  if negb (ssoOffered (web_db w) || isLink) then (w, redirect "/login?error=SSO+is+not+enabled")
  else
    let '(verifier, challenge) := GeneratePKCE sha256 (we_pkce e) in
    let state := GenerateState (we_state e) in
    let nonce := GenerateState (we_nonce e) in
    (w, with_cookies [setSSOCookie r cookieSSOState state 300; setSSOCookie r cookieSSOVerifier verifier 300; setSSOCookie r cookieSSONonce nonce 300;
          if isLink then setSSOCookie r cookieSSOLink "1" 300 else clearSSOCookie r cookieSSOLink]
        (redirect (AuthURL (we_fetch e) (ssoClient (GetSSOSettings (web_db w))) (ssoRedirectURI r) state nonce challenge))).
Definition link_identity (now : Z) (c : SSOTokenClaims) : DB -> DB * result store_error unit := LinkAdminSSO now (Sub c) (Username c) (Email c).
(** The switch a linked identity turns on, over the settings read before. *)
Definition enable_sso (s : SSOSettings) (db : DB) : DB := (SetSSOSettings (mkSSO true (Store.IssuerURL s) (Store.ClientID s) (Store.ClientSecret s)) db).1.
Definition cookie_set (k : string) r : option string := match CookieOf k r with Some v => if bool_decide (v = "") then None else Some v | None => None end.
Definition getSSOCallback : WebHandler := fun e r w =>
  let db := web_db w in
  let sso := GetSSOSettings db in
  let now := unix (we_now e) in
  let cleared := with_cookies (clearSSOCookies r) in
  let expired := (w, cleared (renderBare 400 (PLogin (sso_Enabled sso) (Some WSignInExpired)))) in
  let state_ok := match cookie_set cookieSSOState r with Some v => bool_decide (v = QueryGet "state" (wq_http r)) | None => false end in
  if negb state_ok then (w, cleared (renderBare 400 (PLogin (sso_Enabled sso) (Some WBadState))))
  else match cookie_set cookieSSOVerifier r, cookie_set cookieSSONonce r with
  | Some verifier, Some nonce =>
      let isLink := bool_decide (CookieOf cookieSSOLink r = Some "1") in
      match ExchangeCode (we_oidc e) (ssoClient sso) (ssoRedirectURI r) (QueryGet "code" (wq_http r)) verifier nonce with
      | Err x => (w, cleared (renderBare 401 (PLogin (sso_Enabled sso) (Some (WExchange x)))))
      | Ok claims =>
          match GetAdminIdentity db with
          | Err _ => (w, cleared (reply 500 BText))
          | Ok ident =>
              let linked := negb (bool_decide (SSOSub ident = "")) in
              if negb isLink && negb (linked && bool_decide (SSOSub ident = Sub claims)) && negb (IsAdmin claims)
              then (w, cleared (renderBare 403 (PLogin true (Some WNotAdmin))))
              else if isLink then
                match session e r w with
                | (w, None) => (w, cleared (redirect "/login?error=Session+expired+during+linking"))
                | (w, Some _) =>
                    match link_identity now claims (web_db w) with
                    | (db, Err _) => (with_web_db db w, cleared (redirect "/settings?error=Failed+to+link+identity"))
                    | (db, Ok _) => (with_web_db (enable_sso sso db) w, cleared (redirect "/settings"))
                    end
                end
              else if linked && negb (bool_decide (SSOSub ident = Sub claims)) then (w, cleared (renderBare 401 (PLogin true (Some WNotLinked))))
              else
                let w := if linked then w else with_web_db (enable_sso sso (link_identity now claims db).1) w in
                let '(w, resp) := sign_in (we_now e) e r w in (w, with_cookies (clearSSOCookies r ++ rp_Cookies resp) resp)
          end
      end
  | _, _ => expired
  end.
End Web.
