(* ===== verification/WebForms.v ===== *)
(** * The screens and forms of [internal/web/], the routes and the server's handler

    One definition per handler (those of the backup card are a parameter, which
    [BackupApi] instantiates), over the guards of [Web] and the services the admin API
    calls, then the routes of both transports on one mux and both write gates around it. *)
From S2P Require Import Prelude GoStr PolicyName Policy PolicyService RegistryValidate Registry Session SSO.
From S2P Require Import NetIP NetIPPrint Model Zone ZoneHolder Store StoreNode StoreProps DnsMsg DnsMetrics DnsCache DnsAuth DnsForward DnsServer Upstream.
From S2P Require Import SettingsValidate Settings Ticker Health DhcpAlloc DhcpReserve DhcpServer ReplicaSync Replica Pairing Role DhcpRunner Live Json AdminDto AdminApi WebPages Web.

Section WebForms.
Context (backup_handler : string -> ApiRequest -> DB -> gmap string string * Response).
Context (url_Parse : string -> option ParsedURL) (LookupPort : string -> option Z).
Context (IsDomainName : string -> bool) (SplitDomainName : string -> list string).
Context (Fqdn : string -> string) (sha256 : list ascii -> list Z).
Context (toASCII : string -> option string) (list_url : string -> option PolicyService.URL) (manifest : Manifest).
Context (VerifyPassword : string -> string -> bool).
(** A backup form: the local settings it leaves and the failure to show, if any; the
    export: the local settings, the status and the body. *)
Context (backup_form : string -> WebRequest -> DB -> gmap string string * option string) (backup_export : WebRequest -> DB -> gmap string string * (Z * WebBody)).
Context (api : API) (o : WebOptions).
Abbreviation W := WebWorld.
Abbreviation reg_call := (reg_call Fqdn).
Abbreviation settings_Set := (settings_Set url_Parse LookupPort IsDomainName SplitDomainName Fqdn).
Abbreviation render := (render api o).
Abbreviation replica := (replica api o).
Abbreviation web_status := (web_status api).
Abbreviation role := (role api o).
Abbreviation replicating := (replicating api o).
Implicit Types (w : W) (e : WebEnv) (r : WebRequest).

Definition web_health e w : list HealthRow := if wo_health o then healthFn (we_env e) (ww_api w) else [].
Definition web_live w : Live := nd_live (aw_node (ww_api w)).
Definition web_policy w : Policy.Holder := nd_policy (aw_node (ww_api w)).
(** A step of a service, then a page for its error or the next step. *)
Definition or_page {A} (x : W * result web_error A) (bad : web_error -> WebHandler) (good : A -> WebHandler) : WebEnv -> WebRequest -> W * WebResponse :=
  fun e r => match x with (w, Ok a) => good a e r w | (w, Err m) => bad m e r w end.
Definition to_redirect {A} (to : string) : A -> WebHandler := fun _ e r w => (w, redirect to).
Definition web_reg {A} (f : _ -> _ -> _ * result _ A) w : W * result web_error A :=
  let '(w, x) := on_api (reg_call f) w in (w, match x with Ok a => Ok a | Err m => Err (WReg m) end).
Definition web_pol {A} (f : PolicyWorld -> PolicyWorld * result policy_error A) w : W * result web_error A :=
  let '(w, x) := on_api (pol_call f) w in (w, match x with Ok a => Ok a | Err m => Err (WPolicy m) end).
Definition web_set e (v : Settings) (confirm : string) w : W * result web_error unit :=
  let '(w, x) := on_api (settings_Set (we_env e) v confirm) w in (w, match x with Ok a => Ok a | Err m => Err (WSet m) end).
Definition fail_with {A} w (m : web_error) : W * result web_error A := (w, Err m).
(** The service calls of a [strconv.ParseInt] of the id field. *)
Definition form_id r : option Z := ParseInt (PostFormValue "id" r).
Definition with_id {A} r w (f : Z -> W * result web_error A) : W * result web_error A := match form_id r with Some id => f id | None => (w, Err WBadID) end.

(** ** services.go *)
Definition getHealthJSON : WebHandler := fun e r w =>
  (w, reply 200 (BJSON (JObject [("health", JArray ((fun '(id, _, st, _, _) => JObject [("service_id", JInt id); ("state", JString (state_text st))]) <$> web_health e w))]))).
Definition services_page (m : option web_error) e w : Page :=
  let m := match Services (web_db w), m with Err x, None => Some (WReg (AStore x)) | _, _ => m end in
  PServices (serviceRows (web_db w) (web_health e w)) (Views (web_db w)) m.
Definition getServices : WebHandler := fun e r w => render 200 (services_page None e w) e r w.
Definition renderServicesError (m : web_error) : WebHandler := fun e r w => render 400 (services_page (Some m) e w) e r w.
Definition new_service r : Service :=
  mkService 0 (PostFormValue "name" r) [mkAddress 0 (PostFormValue "address" r) (PostFormValue "view" r)]
    (let a := TrimSpace (PostFormValue "aliases" r) in if bool_decide (a = "") then [] else entries "," a)
    (PostFormValue "check_url" r) (checked "check_insecure" r) (TrimSpace (PostFormValue "proxy_address" r)) (checked "route_via_proxy" r) "".
Definition postServiceNew : WebHandler := fun e r w =>
  or_page (web_reg (fun onChange => RegPutService onChange (new_service r)) w) renderServicesError (to_redirect "/services") e r.
(** Read a service, change it, store it. *)
Definition edit_service (f : Service -> Service) : WebHandler := fun e r w =>
  or_page (with_id r w (fun id => match Service_ (web_db w) id with
    | Err x => fail_with w (WReg (AStore x))
    | Ok svc => web_reg (fun onChange => RegPutService onChange (f svc)) w
    end)) renderServicesError (to_redirect "/services") e r.
Definition add_address r (s : Service) : Service :=
  mkService (s_ID s) (s_Name s) (s_Addresses s ++ [mkAddress 0 (PostFormValue "address" r) (PostFormValue "view" r)]) (s_Aliases s) (s_CheckURL s) (s_CheckInsecure s)
    (s_ProxyAddress s) (s_RouteViaProxy s) (s_MAC s).
Definition set_routing r (s : Service) : Service :=
  mkService (s_ID s) (s_Name s) (s_Addresses s) (s_Aliases s) (s_CheckURL s) (s_CheckInsecure s) (TrimSpace (PostFormValue "proxy_address" r)) (checked "route_via_proxy" r) (s_MAC s).
Definition postServiceAddress : WebHandler := fun e r w => edit_service (add_address r) e r w.
Definition postServiceRouting : WebHandler := fun e r w => edit_service (set_routing r) e r w.
Definition postServiceDelete : WebHandler := fun e r w =>
  or_page (with_id r w (fun id => web_reg (fun onChange => RegDeleteService onChange id) w)) renderServicesError (to_redirect "/services") e r.

(** ** records.go *)
Definition records_page (m : option web_error) w : Page := PRecords (Records (web_db w)) (Views (web_db w)) recordTypes m.
Definition getRecords : WebHandler := fun e r w => render 200 (records_page None w) e r w.
Definition renderRecordsError (m : web_error) : WebHandler := fun e r w => render 400 (records_page (Some m) w) e r w.
Definition postRecordNew : WebHandler := fun e r w =>
  or_page (web_reg (fun onChange => RegPutRecord onChange (mkRecord 0 (PostFormValue "name" r) (PostFormValue "type" r) (PostFormValue "value" r) (PostFormValue "view" r))) w)
    renderRecordsError (to_redirect "/records") e r.
Definition postRecordDelete : WebHandler := fun e r w =>
  or_page (with_id r w (fun id => web_reg (fun onChange => RegDeleteRecord onChange id) w)) renderRecordsError (to_redirect "/records") e r.

(** ** discovered.go *)
Definition discoveryOn w : bool := wo_discovery o && bool_decide (is_Some (rn_source (lv_run (web_live w)))).
Definition web_leases e : list SourceLease := if wo_leases o then en_leases (we_env e) else [].
Definition discovered_page (m : option web_error) e w : Page :=
  let rows := leaseRows (discoveryOn w) (web_db w) (web_leases e) in
  PDiscovered (rows_of rows []) (discoveryOn w) (match rows, m with Err x, None => Some (WReg (AStore x)) | _, _ => m end).
Definition getDiscovered : WebHandler := fun e r w => render 200 (discovered_page None e w) e r w.
Definition promoteLease (ip : string) e w : W * result web_error Z :=
  match (if discoveryOn w then List.find (fun l => bool_decide (sl_IP l = ip) && negb (bool_decide (sl_Hostname l = ""))) (web_leases e) else None) with
  | None => fail_with w (WNoLease ip)
  | Some l =>
      web_reg (fun onChange => RegPutService onChange (mkService 0 (sl_Hostname l) [mkAddress 0 (sl_IP l) ""] [] "" false "" false (reservableMAC (web_db w) (sl_MAC l)))) w
  end.
Definition postPromote : WebHandler := fun e r w =>
  or_page (promoteLease (PostFormValue "ip" r) e w) (fun m e r w => render 400 (discovered_page (Some m) e w) e r w) (to_redirect "/services") e r.

(** ** settings.go, serversettings.go *)
Definition liveSettings w : option Settings := if wo_settings o then ok_opt (Get (nd_sw (aw_node (ww_api w)))) else None.
Definition allowTailscale w : bool := match liveSettings w with Some v => AllowTailscale v | None => false end.
Definition publicRanges w : list string := match liveSettings w with Some v => PublicPrefixes (AllowQuery v) | None => [] end.
Definition upstreams w : list UpstreamStatus := if wo_upstreams o then FwdStatus (lv_fwd (web_live w)) else [].
Definition settings_data (m : option web_error) (newToken : string) w : settingsPage :=
  let db := web_db w in
  mkSettingsPage (viewRows db (allowTailscale w)) (Tokens db) newToken (wo_Config o) m (upstreams w) (publicRanges w) (ok_opt (GetAdminIdentity db)) (GetSSOSettings db)
    (liveSettings w) None None.
Definition getSettings : WebHandler := fun e r w => render 200 (PSettings (settings_data None "" w)) e r w.
Definition settingsError (m : web_error) : WebHandler := fun e r w => render 400 (PSettings (settings_data (Some m) "" w)) e r w.
Definition postViewNew : WebHandler := fun e r w =>
  or_page (web_reg (fun onChange => RegPutView onChange (mkView (PostFormValue "name" r) (entries "," (PostFormValue "subnets" r)))) w) settingsError (to_redirect "/settings") e r.
Definition postViewDelete : WebHandler := fun e r w =>
  or_page (web_reg (fun onChange => RegDeleteView onChange (PostFormValue "name" r)) w) settingsError (to_redirect "/settings") e r.
(** A call on the node-local tables. *)
Definition web_local {A} (f : DB -> DB * result store_error A) w : W * result web_error A :=
  let '(db, x) := f (web_db w) in (with_web_db db w, match x with Ok a => Ok a | Err m => Err (WReg (AStore m)) end).
Definition postTokenNew : WebHandler := fun e r w =>
  or_page (web_local (CreateToken sha256 (unix (we_now e)) (en_random (we_env e)) (PostFormValue "label" r)) w) settingsError
    (fun plaintext e r w => render 200 (PSettings (settings_data None plaintext w)) e r w) e r.
Definition postTokenDelete : WebHandler := fun e r w => or_page (with_id r w (fun id => web_local (DeleteToken id) w)) settingsError (to_redirect "/settings") e r.
Definition flush_node (n : Live.Node) : Live.Node := Live.mkNode (nd_sw n) (with_fwd (on_cache Flush (lv_fwd (nd_live n))) (nd_live n)) (nd_policy n).
Definition postCacheFlush : WebHandler := fun e r w =>
  (if wo_cache o then with_api (with_node (flush_node (aw_node (ww_api w))) (ww_api w)) w else w, redirect "/settings").
(** [WriteExport] sets its headers before it can fail, and the page logs the failure. *)
Definition getExport : WebHandler := fun e r w =>
  (w, if wo_api o then reply 200 (BExport (bool_decide (QueryGet "format" (wq_http r) = "json")) (ok_opt (snapshotDoc api (ww_api w)))) else reply 500 BText).
Definition sso_form r : SSOSettings :=
  mkSSO (bool_decide (PostFormValue "enabled" r = "1")) (or_default (TrimSpace (PostFormValue "issuer_url" r)) "https://auth.urlxl.com")
    (or_default (TrimSpace (PostFormValue "client_id" r)) "kydns") (TrimSpace (PostFormValue "client_secret" r)).
Definition postSSOSettings : WebHandler := fun e r w => or_page (web_local (SetSSOSettings (sso_form r)) w) settingsError (to_redirect "/settings") e r.
Definition postSSOUnlink : WebHandler := fun e r w => or_page (web_local (UnlinkAdminSSO (unix (we_now e))) w) settingsError (to_redirect "/settings") e r.

Definition with_server (v : Settings) (plan : option zoneRename) (m : option web_error) (d : settingsPage) : settingsPage :=
  mkSettingsPage (sg_Views d) (sg_Tokens d) (sg_NewToken d) (sg_Config d) (sg_Error d) (sg_Upstreams d) (sg_Public d) (sg_Identity d) (sg_SSO d) (Some v) plan m.
Definition serverSettingsError (v : Settings) (m : web_error) : WebHandler := fun e r w => render 400 (PSettings (with_server v None (Some m) (settings_data None "" w))) e r w.
Definition serverSettingsRename (v : Settings) (plan : zoneRename) : WebHandler := fun e r w => render 200 (PSettings (with_server v (Some plan) None (settings_data None "" w))) e r w.
Definition intField (name : string) r : result web_error Z := match Atoi (TrimSpace (PostFormValue name r)) with Some n => Ok n | None => Err (WField name) end.
(** The numbers read in order, up to the first that is none. *)
Definition int_names : list string := ["ttl"; "cache_min_ttl"; "cache_max_ttl"; "negative_max_ttl"; "cache_entries"; "discovery_interval"; "health_interval"; "health_timeout"; "health_workers"].
Fixpoint read_ints (names : list string) r : list Z * option web_error :=
  match names with
  | [] => ([], None)
  | k :: names => match intField k r with Err m => ([], Some m) | Ok n => let '(ns, m) := read_ints names r in (n :: ns, m) end
  end.
(** The form with the numbers read so far and without the DHCP fields it does not carry. *)
Definition server_form r (n : list Z) : Settings :=
  let num i := nth i n 0 in
  mkSettings (TrimSpace (PostFormValue "private_domain" r)) (lines (PostFormValue "reverse_zones" r)) (lines (PostFormValue "upstreams" r)) (lines (PostFormValue "allow_query" r))
    (checked "allow_tailscale" r) (num 0%nat) (num 1%nat) (num 2%nat) (num 3%nat) (num 4%nat) (checked "log_queries" r) (checked "log_client_ip" r)
    (TrimSpace (PostFormValue "dhcp_lease_file" r)) (num 5%nat) (num 6%nat) (num 7%nat) (num 8%nat) false "" "" "" "" 0 "" false.
Definition postServerSettings : WebHandler := fun e r w =>
  if negb (wo_settings o) then (w, reply 500 BText)
  else match read_ints int_names r with
  | (n, Some m) => serverSettingsError (server_form r n) m e r w
  | (n, None) =>
      match liveSettings w with
      | None => serverSettingsError (server_form r n) WUnread e r w
      | Some cur =>
          let v := with_dhcp (server_form r n) cur in
          match planZoneRename (Records (web_db w)) (PrivateDomain cur) (PrivateDomain v) with
          | Some plan => if negb (bool_decide (PostFormValue "confirm_rename" r = PrivateDomain v)) then serverSettingsRename v plan e r w
                         else or_page (web_set e v (TrimSpace (PostFormValue "confirm_public" r)) w) (serverSettingsError v) (to_redirect "/settings") e r
          | None => or_page (web_set e v (TrimSpace (PostFormValue "confirm_public" r)) w) (serverSettingsError v) (to_redirect "/settings") e r
          end
      end
  end.

(** ** dhcp.go *)
Definition dhcpStatus e w : DHCPStatus := if wo_api o then DHCPStatus_ api (we_env e) (ww_api w) else mkDHCPStatus false None false None [] [] false.
(** A lease time that does not parse is zero. *)
Definition dhcpFormFrom r : dhcpForm * option web_error :=
  let n := intField "lease_seconds" r in
  (mkDhcpForm (checked "enabled" r) (TrimSpace (PostFormValue "interface" r)) (TrimSpace (PostFormValue "range_start" r)) (TrimSpace (PostFormValue "range_end" r))
    (TrimSpace (PostFormValue "gateway" r)) (default 0 (ok_opt n)) (TrimSpace (PostFormValue "secondary_dns" r)) (checked "allow_foreign" r),
   match n with Ok _ => None | Err m => Some m end).
Definition dhcp_page (form : dhcpForm) (m : option web_error) e w : Page :=
  let rows := dhcpLeaseRows (we_now e) (web_db w) (web_leases e) in
  PDHCP form (rows_of rows []) (dhcpStatus e w) (match rows, m with Err x, None => Some (WReg (AStore x)) | _, _ => m end).
Definition renderDHCP (status : Z) (form : dhcpForm) (m : option web_error) : WebHandler := fun e r w => render status (dhcp_page form m e w) e r w.
Definition formOf (v : Settings) : dhcpForm := dhcpFormOf SuggestedLeaseSeconds v.
Definition getDHCP : WebHandler := fun e r w =>
  match liveSettings w with Some v => renderDHCP 200 (formOf v) None e r w | None => renderDHCP 200 (formOf settings0) (Some WUnread) e r w end.
(** What the API's suggestion holds, for the form. *)
Definition suggestion (h : Host) (name : string) : option (string * string * string) :=
  if bool_decide (name = "") then None
  else match h_qualifies h name with
  | Some _ => None
  | None =>
      match h_inspect h name with
      | Err _ => None
      | Ok info => match SuggestRange (if_Subnet info) with
          | None => None
          | Some (start, end_) => Some (addr_string start, addr_string end_, addrText (if_Gateway info))
          end
      end
  end.
Definition postDHCPSuggest : WebHandler := fun e r w =>
  let form := (dhcpFormFrom r).1 in
  match suggestion (en_host (we_env e)) (df_Interface form) with
  | None => renderDHCP 400 form (Some WNoProposal) e r w
  | Some (start, end_, gateway) =>
      renderDHCP 200 (mkDhcpForm (df_Enabled form) (df_Interface form) start end_ gateway SuggestedLeaseSeconds (df_SecondaryDNS form) (df_AllowForeign form)) None e r w
  end.
Definition dhcpSaveRefusal (m : web_error) : Z := match m with WSet ReadOnlyReplica => 409 | _ => 400 end.
Definition postDHCPSettings : WebHandler := fun e r w =>
  if negb (wo_settings o) then (w, reply 500 BText)
  else match dhcpFormFrom r with
  | (form, Some m) => renderDHCP 400 form (Some m) e r w
  | (form, None) =>
      match liveSettings w with
      | None => renderDHCP 400 form (Some WUnread) e r w
      | Some cur => or_page (web_set e (df_apply form cur) "" w) (fun m => renderDHCP (dhcpSaveRefusal m) form (Some m)) (to_redirect "/dhcp") e r
      end
  end.
Definition postDHCPReserve : WebHandler := fun e r w =>
  or_page (promoteLease (PostFormValue "ip" r) e w) (fun m e r w => renderDHCP 400 (formOf (default settings0 (liveSettings w))) (Some m) e r w) (to_redirect "/dhcp") e r.

(** ** blacklists.go *)
Definition blacklists_page (result : option (string * bool * string)) (m : option web_error) w : Page :=
  if negb (wo_policy o) then PBlacklists None result m
  else
    let db := web_db w in
    let set := GetBlacklistSettings db in
    let rows := blacklist_row <$> BlacklistListMetas db in
    PBlacklists (Some (mkBlacklistPage (bs_Enabled set) (bs_BlockTTL set) rows (staleAny rows) (allow_rules (BlacklistRules db)) (deny_rules (BlacklistRules db)) (Counters (web_policy w)))) result m.
Definition getBlacklists : WebHandler := fun e r w => render 200 (blacklists_page None None w) e r w.
Definition blacklistsError (m : web_error) : WebHandler := fun e r w => render 400 (blacklists_page None (Some m) w) e r w.
Definition web_requirePolicy (h : WebHandler) : WebHandler := fun e r w => if wo_policy o then h e r w else (w, reply 404 BText).
(** A call on the policy service, back to its screen. *)
Definition policy_form {A} (f : WebEnv -> WebRequest -> W -> W * result web_error A) : WebHandler :=
  web_requirePolicy (fun e r w => or_page (f e r w) blacklistsError (to_redirect "/blacklists") e r).
Definition postBlacklistToggle : WebHandler := policy_form (fun e r w =>
  let set := GetBlacklistSettings (web_db w) in web_pol (PolicyService.SetSettings (negb (bs_Enabled set)) (bs_BlockTTL set)) w).
(** [strconv.ParseInt] with its error dropped: zero for what is no number, the nearest
    int64 for one out of range. *)
Fixpoint scan_uint (acc : Z) (l : list ascii) : option Z :=
  match l with
  | [] => Some acc
  | c :: l => if negb (is_digit c) then None else let n := acc * 10 + digit_val c in if 2 ^ 64 <=? n then Some (2 ^ 64 - 1) else scan_uint n l
  end.
Definition ParseInt_value (s : string) : Z :=
  let clamp n := Z.max (- 2 ^ 63) (Z.min (2 ^ 63 - 1) n) in
  let value l := match l with [] => 0 | _ => default 0 (scan_uint 0 l) end in
  match bytes s with
  | "+"%char :: l => clamp (value l)
  | "-"%char :: l => clamp (- value l)
  | l => clamp (value l)
  end.
Definition postBlacklistListNew : WebHandler := policy_form (fun e r w =>
  web_pol (PutList list_url (mkBlList 0 (PostFormValue "name" r) (PostFormValue "url" r) (PostFormValue "format" r) "" true false
    (ParseInt_value (TrimSpace (PostFormValue "interval" r))) 0 0 "" "" "" 0 0 [])) w).
Definition toggle_list (l : BlacklistList) : BlacklistList :=
  mkBlList (bl_ID l) (bl_Name l) (bl_URL l) (bl_Format l) (bl_Description l) (negb (bl_Enabled l)) (bl_Builtin l) (bl_IntervalSeconds l) (bl_LastAttemptAt l) (bl_LastOKAt l)
    (bl_LastError l) (bl_ETag l) (bl_LastModified l) (bl_EntryCount l) (bl_SkippedCount l) (bl_Snapshot l).
Definition postBlacklistListToggle : WebHandler := policy_form (fun e r w => with_id r w (fun id =>
  match List.find (fun l => bl_ID l =? id) (BlacklistListMetas (web_db w)) with
  | None => fail_with w WNoSuchList
  | Some l => web_pol (PutList list_url (toggle_list l)) w
  end)).
Definition postBlacklistListDelete : WebHandler := policy_form (fun e r w => with_id r w (fun id => web_pol (DeleteList id) w)).
Definition postBlacklistRefresh : WebHandler := policy_form (fun e r w =>
  let raw := TrimSpace (PostFormValue "id" r) in
  match (if bool_decide (raw = "") then Some 0 else ParseInt raw) with
  | None => fail_with w WBadID
  | Some id => web_pol (AdminApi.Refresh toASCII list_url (we_env e) id) w
  end).
Definition postBlacklistRuleNew : WebHandler := policy_form (fun e r w => web_pol (AddRule toASCII (PostFormValue "kind" r) (PostFormValue "domain" r)) w).
Definition postBlacklistRuleDelete : WebHandler := policy_form (fun e r w => with_id r w (fun id => web_pol (DeleteRule id) w)).
Definition postBlacklistTest : WebHandler := web_requirePolicy (fun e r w =>
  let name := TrimSpace (PostFormValue "name" r) in
  match TestName toASCII name (mkPW (web_db w) (web_policy w)) with
  | Err m => blacklistsError (WPolicy m) e r w
  | Ok d => render 200 (blacklists_page (Some (name, Blocked d, d_Policy d)) None w) e r w
  end).

(** ** replication.go *)
Definition peerRows e w : list peerRow :=
  if wo_api o then (fun x => let p := rr_peer x in mkPeerRow (p_NodeID p) (p_Label p) (p_Address p) (sinceText (p_LastSyncAt p) (we_now e)) (rr_status x) (rr_lag x)
    (negb (p_LastSyncAt p =? 0))) <$> (ReplicaRows api (ww_api w)).1 else [].
Definition replicationData e w : replication_view :=
  match replica e w with
  | Some st => VReplica (managedBy st) (sinceText (rst_LastSyncUnix st) (we_now e)) (rst_LastError st) (Paired st) (wo_api o && ap_joiner api)
  | None => VPeers (peerRows e w)
  end.
Definition renderReplication (status : Z) (x : replication_extra) : WebHandler := fun e r w =>
  if negb (replicating e w) then (w, redirect "/") else render status (PReplication (role e w) (replicationData e w) x) e r w.
Definition getReplication : WebHandler := renderReplication 200 XNone.
Definition postReplicaInvite : WebHandler := fun e r w =>
  if negb (wo_api o) then renderReplication 409 (XError WReplicationOff) e r w
  else match on_api (InviteReplica api (we_env e)) w with
  | (w, None) => renderReplication 409 (XError WNotServing) e r w
  | (w, Some (inv, id)) => renderReplication 200 (XInvite (i_Code inv) id (shortDuration (time_sub (i_ExpiresAt inv) (we_now e)))) e r w
  end.
Definition postReplicaRemove : WebHandler := fun e r w =>
  if negb (wo_api o) then renderReplication 409 (XError WReplicationOff) e r w
  else match on_api (RemoveReplica api (PostFormValue "node_id" r)) w with
  | (w, None) => renderReplication 400 (XError (WPeer ErrNotFound)) e r w
  | (w, Some (Err m)) => renderReplication 400 (XError (WPeer m)) e r w
  | (w, Some (Ok _)) => (w, redirect "/replication")
  end.
Definition postReplicaPromote : WebHandler := fun e r w =>
  if bool_decide (PostFormValue "confirm" r = "") then renderReplication 400 (XError WPromoteUnconfirmed) e r w
  else if negb (wo_api o) then renderReplication 409 (XError WReplicationOff) e r w
  else match on_api (PromoteThisNode api (we_env e)) w with
  | (w, None) => renderReplication 409 (XError WReplicationOff) e r w
  | (w, Some (Err m)) => renderReplication 409 (XError (WPromote m)) e r w
  | (w, Some (Ok (after, promoted))) => renderReplication 200 (XPromoted promoted after) e r w
  end.
Definition postReplicaJoin : WebHandler := fun e r w =>
  if negb (wo_api o) then renderReplication 409 (XError WReplicationOff) e r w
  else match replica e w with
  | None => renderReplication 409 (XError WNotReplica) e r w
  | Some st =>
      if Paired st && bool_decide (PostFormValue "confirm" r = "") then renderReplication 400 (XError WJoinUnconfirmed) e r w
      else match on_api (JoinPrimary api (we_env e) (rst_PrimaryAddr st) (PostFormValue "code" r) (PostFormValue "fingerprint" r)) w with
      | (w, Ok _) => renderReplication 200 XJoined e r w
      | (w, Err ErrFingerprintRequired) => renderReplication 400 (XError WFingerprint) e r w
      | (w, Err ErrReplicationDisabled) => renderReplication 409 (XError WReplicationOff) e r w
      | (w, Err (PairFailed ErrFingerprintRejected)) => renderReplication 409 (XError WFingerprintRejected) e r w
      | (w, Err (PairFailed x)) => renderReplication 502 (XError (WPair x)) e r w
      end
  end.
Definition replicationSummary e w : option replicationLine :=
  if negb (replicating e w) then None
  else match replica e w with
  | Some st => Some (mkReplicationLine RoleReplica ("synced " +:+ sinceText (rst_LastSyncUnix st) (we_now e)) ("Following " +:+ managedBy st))
  | None => let n := cnt (peerRows e w) in Some (mkReplicationLine (role e w) (if n =? 1 then "1 replica" else itoa n +:+ " replicas") "Replicas")
  end.

(** ** dashboard.go, stats.go *)
Definition to_list {A} (x : option A) : list A := match x with Some a => [a] | None => [] end.
Definition dashboard e w : dashboardPage :=
  let db := web_db w in
  let up := upstreams w in
  let acl := if wo_acl o then Some (lv_acl (web_live w)) else None in
  let m := en_metrics (we_env e) in
  mkDashboardPage (publicRanges w) (replicationSummary e w) (if wo_upstreams o then Some up else None)
    ((if wo_upstreams o then to_list (UpstreamsDownBanner up) ++ to_list (PlaintextUpstreamBanner up) else []) ++
      to_list (TailscaleBanner acl (Views db) (allowTailscale w) (we_now e) bannerWindow))
    (cnt (rows_of (Services db) [])) (cnt (Records db)) (cnt (Views db)) ((fun a => (rs_Total (Stats a), rs_CGNAT (Stats a))) <$> acl)
    (if wo_cache o then Some (DnsCache.Len (f_cache (lv_fwd (web_live w)))) else None) m (AvgMS m) (CacheHitRate m)
    (shortDuration (Z.quot (we_now e - started m) (seconds 1) * seconds 1)) (sinceText (lastQuery m) (we_now e))
    (if wo_policy o then Some (TopBlocked (web_policy w) 10) else None)
    (match Services db with Err x => Some (WReg (AStore x)) | Ok _ => None end).
Definition getDashboard : WebHandler := fun e r w => render 200 (PDashboard (dashboard e w)) e r w.
Definition statsPayload e w : StatsBody :=
  mkStatsBody (Some (en_metrics (we_env e))) (if wo_acl o then Some (Stats (lv_acl (web_live w))) else None)
    (if wo_cache o then Some (DnsCache.Len (f_cache (lv_fwd (web_live w)))) else None)
    (if wo_policy o then Some (0, ∅, TopBlocked (web_policy w) 10) else None).
Definition getStatsJSON : WebHandler := fun e r w => (w, reply 200 (BStats (statsPayload e w))).

(** ** Backup pages: parameters that write local settings only *)
Definition backup_page (op : string) : WebHandler := fun e r w =>
  if negb (wo_backup o) then settingsError (WBackup "backup service is unavailable") e r w
  else let '(n, m) := backup_form op r (web_db w) in
    let w := with_web_db (with_local n (web_db w)) w in
    match m with None => (w, redirect "/settings") | Some m => settingsError (WBackup m) e r w end.
Definition getBackupExport : WebHandler := fun e r w =>
  if negb (wo_backup o) then (w, reply 503 BText)
  else let '(n, (status, body)) := backup_export r (web_db w) in (with_web_db (with_local n (web_db w)) w, reply status body).
Definition getLicense : WebHandler := fun e r w => (w, renderBare 200 PLicense).
Definition static : WebHandler := fun e r w => (w, reply 200 BStatic).

(** ** Routes *)
Definition get (pat : list string) (h : WebHandler) : Route WebHandler := mkRoute "GET" pat (requireSession h).
Definition post (pat : list string) (h : WebHandler) : Route WebHandler := mkRoute "POST" pat (requireCSRF h).
Definition web_routes : list (Route WebHandler) :=
  [mkRoute "GET" ["setup"] getSetup; mkRoute "POST" ["setup"] (postSetup o);
   mkRoute "GET" ["login"] (requireSetup getLogin); mkRoute "POST" ["login"] (requireSetup (postLogin VerifyPassword)); post ["logout"] postLogout;
   mkRoute "GET" ["auth"; "sso"; "login"] (getSSOLogin sha256); mkRoute "GET" ["auth"; "sso"; "callback"] getSSOCallback;
   mkRoute "GET" ["license"] getLicense; mkRoute "GET" ["stats.json"] (requireSessionJSON getStatsJSON); mkRoute "GET" ["services"; "health.json"] (requireSessionJSON getHealthJSON);
   get ["services"] getServices; post ["services"; "new"] postServiceNew; post ["services"; "address"] postServiceAddress; post ["services"; "routing"] postServiceRouting;
   post ["services"; "delete"] postServiceDelete; get ["records"] getRecords; post ["records"; "new"] postRecordNew; post ["records"; "delete"] postRecordDelete;
   get ["discovered"] getDiscovered; post ["discovered"; "promote"] postPromote;
   get ["dhcp"] getDHCP; post ["dhcp"; "settings"] postDHCPSettings; post ["dhcp"; "suggest"] postDHCPSuggest; post ["dhcp"; "reserve"] postDHCPReserve;
   get ["blacklists"] getBlacklists; post ["blacklists"; "toggle"] postBlacklistToggle; post ["blacklists"; "lists"; "new"] postBlacklistListNew;
   post ["blacklists"; "lists"; "toggle"] postBlacklistListToggle; post ["blacklists"; "lists"; "delete"] postBlacklistListDelete; post ["blacklists"; "refresh"] postBlacklistRefresh;
   post ["blacklists"; "rules"; "new"] postBlacklistRuleNew; post ["blacklists"; "rules"; "delete"] postBlacklistRuleDelete; post ["blacklists"; "test"] postBlacklistTest;
   get ["replication"] getReplication; post ["replication"; "invite"] postReplicaInvite; post ["replication"; "remove"] postReplicaRemove;
   post ["replication"; "promote"] postReplicaPromote; post ["replication"; "join"] postReplicaJoin;
   get ["settings"] getSettings; get ["settings"; "export"] getExport; get ["settings"; "backup"; "export"] getBackupExport;
   post ["settings"; "backup"; "pair"] (backup_page "pair"); post ["settings"; "backup"; "deposit"] (backup_page "deposit"); post ["settings"; "backup"; "drill"] (backup_page "drill");
   post ["settings"; "backup"; "pin-key"] (backup_page "pin-key"); post ["settings"; "backup"; "unpair"] (backup_page "unpair"); post ["settings"; "backup"; "schedule"] (backup_page "schedule");
   post ["settings"; "server"] postServerSettings; post ["settings"; "views"; "new"] postViewNew; post ["settings"; "views"; "delete"] postViewDelete;
   post ["settings"; "tokens"; "new"] postTokenNew; post ["settings"; "tokens"; "delete"] postTokenDelete; post ["settings"; "cache"; "flush"] postCacheFlush;
   post ["settings"; "sso"] postSSOSettings; post ["settings"; "sso"; "unlink"] postSSOUnlink].
(** An answer of the API carries its own status.  The shared mux: the routes of both transports, the embedded files, and the
    dashboard, whose [GET /] takes every other path. *)
Definition api_routes : list (Route Handler) := routes backup_handler url_Parse LookupPort IsDomainName SplitDomainName Fqdn sha256 toASCII list_url manifest api.
Definition serve_mux : WebHandler := fun e r w =>
  let h := wq_http r in
  if negb (ar_clean h) then (w, reply 301 (BApi RMoved))
  else match find_route (ar_Method h) (ar_segs h) api_routes with
  | Some (f, args) => let '(a, resp) := f (we_env e) h args (ww_api w) in (with_api a w, reply 0 (BApi resp))
  | None =>
      match find_route (ar_Method h) (ar_segs h) web_routes with
      | Some (f, _) => f e r w
      | None =>
          if is_get (ar_Method h) then
            if bool_decide (ar_segs h = ["static"]) then (w, reply 301 (BApi RMoved))
            else if bool_decide (head (ar_segs h) = Some "static") then static e r w
            else requireSession getDashboard e r w
          else (w, reply 405 (BApi RMethodNotAllowed))
      end
  end.
(** The write gate of the pages. *)
Definition WebWriteGate (next : WebHandler) : WebHandler := fun e r w =>
  let h := wq_http r in
  if is_get (ar_Method h) || HasPrefix (URLPath h) PathPrefix || bool_decide (URLPath h ∈ webWriteExempt) then next e r w
  else match replica e w with
  | None => next e r w
  | Some st => match session e r w with (w, None) => next e r w | (w, Some _) => (w, renderBare 409 (PReadOnly (managedBy st))) end
  end.
(** The write gate of the API, around anything. *)
Definition ApiWriteGate (next : WebHandler) : WebHandler := fun e r w =>
  let h := wq_http r in
  if negb (HasPrefix (URLPath h) PathPrefix) || is_get (ar_Method h) || bool_decide (URLPath h ∈ writeExempt) || negb (ap_status api) then next e r w
  else if negb (bool_decide (rst_Role (web_status e w) = RoleReplica)) then next e r w
  else
    let '(a, ok) := authenticated sha256 (we_env e) h (ww_api w) in
    let w := with_api a w in if ok then (w, reply 409 (BApi (RErr 409 "read_only_replica" ""))) else next e r w.
(** What [Serve] listens with. *)
Definition ServeHTTP : WebHandler := ApiWriteGate (WebWriteGate serve_mux).
End WebForms.
