(* ===== verification/WebProps.v ===== *)
(** * What the administration server guarantees: theorems about [ServeHTTP]

    What it takes to change the node through HTTP, who is given a session, and that a
    replica stays read-only whichever transport a request uses. *)
From S2P Require Import Prelude GoStr PolicyName Policy PolicyService RegistryValidate Registry Session SSO.
From S2P Require Import NetIP NetIPPrint Model Zone ZoneHolder Store StoreNode StoreProps DnsMsg DnsMetrics DnsCache DnsAuth DnsForward DnsServer Upstream.
From S2P Require Import SettingsValidate Settings Ticker Health DhcpAlloc DhcpReserve DhcpServer ReplicaSync Replica Pairing Role DhcpRunner Live Json AdminDto AdminApi AdminApiProps WebPages Web WebForms.

(** ** Lemmas: the guards *)
(** The session the request's cookie names, and the token its form shows for it. *)
Definition signed_in (e : WebEnv) (r : WebRequest) (w : WebWorld) (x : Session) : Prop :=
  exists c, CookieOf CookieName r = Some c /\ (GetSession (we_now e) c (ww_sessions w)).2 = Some x.
Definition form_authorized (e : WebEnv) (r : WebRequest) (w : WebWorld) : Prop :=
  exists x, signed_in e r w x /\ PostFormValue "csrf_token" r = ss_CSRF x /\ ss_CSRF x <> "".
(** Sessions are kept under their own id. *)
Definition sessions_wf (s : Sessions) : Prop := 0 <= idle s /\ forall id x, byID s !! id = Some x -> ss_ID x = id.
Lemma wf_get now id s : sessions_wf s -> sessions_wf (GetSession now id s).1.
Proof.
  intros [Hi H]. unfold GetSession. destruct (byID s !! id) as [y|] eqn:E; [|done]. destruct (expired _ _ _); (split; [done|]); cbn; intros k x.
  - intros [_ Hk]%lookup_delete_Some. by apply H.
  - intros [[<- <-]|[_ Hk]]%lookup_insert_Some; [by apply H in E|by apply H].
Qed.
Lemma get_again now id s x : 0 <= idle s -> (GetSession now id s).2 = Some x -> (GetSession now id (GetSession now id s).1).2 = Some x.
Proof.
  intros Hi. unfold GetSession. destruct (byID s !! id) as [y|] eqn:E; [|done]. destruct (expired now y s) eqn:X; [done|]. intros [= <-]. cbn. rewrite lookup_insert_eq.
  assert (X' : expired now (touch now y) (with_byID (<[id:=touch now y]> (byID s)) s) = false); [|by rewrite X'].
  unfold expired in *. cbn. apply orb_false_iff in X as [_ ->]. rewrite orb_false_r. lia.
Qed.
Lemma get_gone now id s : (GetSession now id s).2 = None -> (GetSession now id (GetSession now id s).1).2 = None.
Proof. unfold GetSession. destruct (byID s !! id) as [y|] eqn:E; [|cbn; by rewrite E]. destruct (expired now y s); [|done]. intros _. cbn. by rewrite lookup_delete_eq. Qed.
Lemma get_id now id s x : sessions_wf s -> (GetSession now id s).2 = Some x -> ss_ID x = id.
Proof. intros [_ H]. unfold GetSession. destruct (byID s !! id) as [y|] eqn:E; [|done]. destruct (expired _ _ _); [done|]. intros [= <-]. by apply H in E. Qed.
(** Looking a session up never opens one. *)
Definition no_new (s s' : Sessions) : Prop := (forall id, byID s !! id = None -> byID s' !! id = None) /\ (sessions_wf s -> sessions_wf s').
#[local] Instance no_new_po : PreOrder no_new.
Proof. split; [by intros s|]. intros s1 s2 s3 [H1 V1] [H2 V2]. split; [intros id H; by apply H2, H1|auto]. Qed.
Lemma get_no_new now id s : no_new s (GetSession now id s).1.
Proof.
  split; [|apply wf_get]. intros k Hk. unfold GetSession. destruct (byID s !! id) as [y|] eqn:E; [|done]. destruct (expired _ _ _); cbn; [by apply lookup_delete_None; right|].
  apply lookup_insert_None. split; [done|]. intros ->. congruence.
Qed.
Lemma csrf_no_new now id t s : no_new s (ValidCSRF now id t s).1.
Proof. unfold ValidCSRF. pose proof (get_no_new now id s) as H. by destruct (GetSession now id s) as [s' [x|]]. Qed.
Lemma destroy_no_new id s : no_new s (Destroy id s).
Proof.
  split; [intros k H; by apply lookup_delete_None; right|]. intros [Hi H]. split; [done|]. intros k x Hk. cbn in Hk. apply lookup_delete_Some in Hk as [_ Hk]. by apply H.
Qed.
Lemma create_wf now id csrf s : sessions_wf s -> sessions_wf (Create now id csrf s).1.
Proof. intros [Hi H]. split; [done|]. intros k x Hk. cbn in Hk. apply lookup_insert_Some in Hk as [[<- <-]|[_ Hk]]; [done|by apply H]. Qed.

Section Guards.
Context (sha256 : list ascii -> list Z) (VerifyPassword : string -> string -> bool) (api : API) (o : WebOptions).
Implicit Types (w : WebWorld) (e : WebEnv) (r : WebRequest) (h : WebHandler).
Lemma session_spec e r w : let '(w', x) := session e r w in
  ww_api w' = ww_api w /\ ww_backoff w' = ww_backoff w /\ no_new (ww_sessions w) (ww_sessions w') /\ idle (ww_sessions w') = idle (ww_sessions w) /\
  (sessions_wf (ww_sessions w) -> sessions_wf (ww_sessions w')) /\ (forall y, x = Some y -> signed_in e r w y) /\ (forall y, signed_in e r w y -> x = Some y).
Proof.
  unfold session, signed_in. destruct (CookieOf CookieName r) as [c|]; [|by split_and!; [..|intros y (c & H & _)]].
  pose proof (get_no_new (we_now e) c (ww_sessions w)) as N. pose proof (wf_get (we_now e) c (ww_sessions w)) as V. pose proof (GetSession_spec (we_now e) c (ww_sessions w)) as S.
  destruct (GetSession (we_now e) c (ww_sessions w)) as [s x] eqn:E. destruct S as ([S _] & _). cbn. split_and!; try done.
  - intros y Hy. exists c. by rewrite E.
  - intros z (c' & Hc & Hz). injection Hc as <-. by rewrite E in Hz.
Qed.
Lemma session_again e r w : 0 <= idle (ww_sessions w) -> forall y, signed_in e r (session e r w).1 y <-> signed_in e r w y.
Proof.
  intros Hi y. unfold session, signed_in. destruct (CookieOf CookieName r) as [c|]; [|done].
  pose proof (get_again (we_now e) c (ww_sessions w)) as G. pose proof (get_gone (we_now e) c (ww_sessions w)) as N. destruct (GetSession (we_now e) c (ww_sessions w)) as [s [x|]] eqn:E; cbn [fst snd with_sessions ww_sessions] in *.
  - specialize (G x Hi eq_refl). split; intros (c' & [= <-] & H); exists c; (split; [done|]).
    + rewrite E. cbn. congruence. + rewrite E in H. cbn in H. congruence.
  - specialize (N eq_refl). split; intros (c' & [= <-] & H); [congruence|]. by rewrite E in H.
Qed.
(** A handler leaves the node as it was. *)
Definition quiet h : Prop := forall e r w, ww_api (h e r w).1 = ww_api w.
Lemma render_quiet status p : quiet (render api o status p).
Proof. intros e r w. unfold render. pose proof (session_spec e r w) as S. destruct (session e r w) as [w' x]. by destruct S. Qed.
Lemma requireSetup_quiet h e r w : ww_api (h e r w).1 = ww_api w -> ww_api (requireSetup h e r w).1 = ww_api w.
Proof. intros H. unfold requireSetup. by destruct (negb _). Qed.
Lemma requireSetup_changes h e r w : ww_api (requireSetup h e r w).1 <> ww_api w -> ww_api (h e r w).1 <> ww_api w.
Proof. unfold requireSetup. by destruct (negb _). Qed.
Lemma session_changes h e r w : ww_api (requireSession h e r w).1 <> ww_api w -> exists x, signed_in e r w x.
Proof.
  intros H%requireSetup_changes. pose proof (session_spec e r w) as S. destruct (session e r w) as [w' [x|]]; destruct S as (S & _ & _ & _ & _ & S' & _).
  - exists x. by apply S'.
  - by cbn in H.
Qed.
Lemma csrf_changes h e r w : sessions_wf (ww_sessions w) -> ww_api (requireCSRF h e r w).1 <> ww_api w -> form_authorized e r w.
Proof.
  intros V H%requireSetup_changes. pose proof (session_spec e r w) as S.
  assert (A : forall x, signed_in e r w x -> signed_in e r (session e r w).1 x) by (intros x; apply session_again, V).
  destruct (session e r w) as [w' [x|]]; destruct S as (S0 & _ & _ & _ & V' & S & _); [|by cbn in H]. cbn [fst] in A. specialize (V' V). specialize (S x eq_refl).
  destruct (wq_Form r); [|by cbn in H]. unfold ValidCSRF in H. destruct (A x S) as (c & Hc & Hg).
  assert (Hid : ss_ID x = c) by (destruct S as (c' & Hc' & Hg'); rewrite Hc in Hc'; injection Hc' as <-; by eapply get_id). rewrite Hid in H.
  destruct (GetSession (we_now e) c (ww_sessions w')) as [s y]. cbn in Hg. subst y. destruct (_ && _) eqn:B; [|by cbn in H]. exists x. split; [done|].
  apply andb_true_iff in B as [B1%negb_true_iff%bool_decide_eq_false B2%bool_decide_eq_true]. split; [done|]. by rewrite B2.
Qed.
End Guards.

Section Serve.
Context (backup_handler : string -> ApiRequest -> DB -> gmap string string * Response).
Context (url_Parse : string -> option ParsedURL) (LookupPort : string -> option Z).
Context (IsDomainName : string -> bool) (SplitDomainName : string -> list string).
Context (Fqdn : string -> string) (sha256 : list ascii -> list Z).
Context (toASCII : string -> option string) (list_url : string -> option PolicyService.URL) (manifest : Manifest).
Context (VerifyPassword : string -> string -> bool).
Context (backup_form : string -> WebRequest -> DB -> gmap string string * option string) (backup_export : WebRequest -> DB -> gmap string string * (Z * WebBody)).
Context (api : API) (o : WebOptions).
Abbreviation web_routes := (web_routes url_Parse LookupPort IsDomainName SplitDomainName Fqdn sha256 toASCII list_url VerifyPassword backup_form backup_export api o).
Abbreviation api_routes := (api_routes backup_handler url_Parse LookupPort IsDomainName SplitDomainName Fqdn sha256 toASCII list_url manifest api).
Abbreviation serve_mux := (serve_mux backup_handler url_Parse LookupPort IsDomainName SplitDomainName Fqdn sha256 toASCII list_url manifest VerifyPassword backup_form backup_export api o).
Abbreviation ServeHTTP := (ServeHTTP backup_handler url_Parse LookupPort IsDomainName SplitDomainName Fqdn sha256 toASCII list_url manifest VerifyPassword backup_form backup_export api o).
Implicit Types (w : WebWorld) (e : WebEnv) (r : WebRequest) (h : WebHandler).

(** ** What a request can show *)
Definition bearer_ok e r w : Prop := (authenticated sha256 (we_env e) (wq_http r) (ww_api w)).2 = true.
Definition setup_ok e r w : Prop := hasAdmin w = false /\ PostFormValue "token" r = wo_SetupToken o /\ MinPasswordLen <= len (PostFormValue "password" r).
(** The identity the provider vouches for, for the sign-in this browser started. *)
Definition sso_identity e r w (claims : SSOTokenClaims) : Prop := exists verifier nonce,
  cookie_set cookieSSOState r = Some (QueryGet "state" (wq_http r)) /\ cookie_set cookieSSOVerifier r = Some verifier /\ cookie_set cookieSSONonce r = Some nonce /\
  ExchangeCode (we_oidc e) (ssoClient (GetSSOSettings (web_db w))) (ssoRedirectURI r) (QueryGet "code" (wq_http r)) verifier nonce = Ok claims.
Definition sso_link_ok e r w : Prop := exists claims ident, sso_identity e r w claims /\ GetAdminIdentity (web_db w) = Ok ident /\
  ((CookieOf cookieSSOLink r = Some "1" /\ exists x, signed_in e r w x) \/ (IsAdmin claims = true /\ SSOSub ident = "")).
Definition sso_login_ok e r w : Prop := exists claims ident, sso_identity e r w claims /\ GetAdminIdentity (web_db w) = Ok ident /\
  (SSOSub ident = Sub claims /\ SSOSub ident <> "" \/ IsAdmin claims = true /\ SSOSub ident = "").
Definition authorized e r w : Prop := bearer_ok e r w \/ (exists x, signed_in e r w x) /\ is_get (ar_Method (wq_http r)) = true \/ form_authorized e r w \/
  setup_ok e r w \/ sso_link_ok e r w.
Definition password_ok r w : Prop := exists hash, AdminHash (web_db w) = Ok hash /\ VerifyPassword hash (PostFormValue "password" r) = true.

(** ** Lemmas: the routes *)
Inductive route_kind (rt : Route WebHandler) : Prop :=
  | k_quiet : quiet (rt_handler rt) -> route_kind rt
  | k_session h : rt_handler rt = requireSession h -> rt_Method rt = "GET" -> route_kind rt
  | k_csrf h : rt_handler rt = requireCSRF h -> route_kind rt
  | k_setup : rt_handler rt = postSetup o -> route_kind rt
  | k_callback : rt_handler rt = getSSOCallback -> route_kind rt.
Lemma getSetup_quiet : quiet getSetup.
Proof. intros e r w. unfold getSetup. by destruct (hasAdmin w). Qed.
Lemma getLogin_quiet : quiet (requireSetup getLogin).
Proof.
  intros e r w. apply requireSetup_quiet. unfold getLogin. pose proof (session_spec e r w) as S. destruct (session e r w) as [w' [x|]]; by destruct S.
Qed.
Lemma sign_in_api now e r w : ww_api (sign_in now e r w).1 = ww_api w.
Proof. done. Qed.
Lemma postLogin_quiet : quiet (requireSetup (postLogin VerifyPassword)).
Proof.
  intros e r w. apply requireSetup_quiet. unfold postLogin. destruct (wq_Form r); [|done].
  by destruct (match AdminHash (web_db w) with Ok hash => VerifyPassword hash (PostFormValue "password" r) | Err _ => false end).
Qed.
Lemma getSSOLogin_quiet : quiet (getSSOLogin sha256).
Proof. intros e r w. unfold getSSOLogin. destruct (negb _); [done|]. by destruct (GeneratePKCE _ _). Qed.
Lemma sessionJSON_quiet h : quiet h -> quiet (requireSessionJSON h).
Proof.
  intros H e r w. unfold requireSessionJSON. pose proof (session_spec e r w) as S. destruct (session e r w) as [w' [x|]]; destruct S as (<- & _); [apply H|done].
Qed.
Lemma web_routes_kind : Forall route_kind web_routes.
Proof.
  unfold WebForms.web_routes. repeat apply Forall_cons_2; try apply Forall_nil_2.
  all: first [ eapply k_session; [reflexivity|reflexivity] | eapply k_csrf; reflexivity | by apply k_setup | by apply k_callback | apply k_quiet; cbn [rt_handler] ].
  - apply getSetup_quiet.
  - apply getLogin_quiet.
  - apply postLogin_quiet.
  - apply getSSOLogin_quiet.
  - by intros e r w.
  - by apply sessionJSON_quiet.
  - by apply sessionJSON_quiet.
Qed.
Lemma setup_changes e r w : ww_api (postSetup o e r w).1 <> ww_api w -> setup_ok e r w.
Proof.
  unfold postSetup. destruct (hasAdmin w) eqn:A; [done|]. destruct (wq_Form r); [|done]. case_bool_decide as T; cbn [negb]; [|done].
  destruct (Z.ltb_spec (len (PostFormValue "password" r)) MinPasswordLen) as [L|L]; [done|]. intros _. by split_and!.
Qed.
Lemma callback_changes e r w : ww_api (getSSOCallback e r w).1 <> ww_api w -> sso_link_ok e r w.
Proof.
  unfold getSSOCallback. destruct (cookie_set cookieSSOState r) as [st|] eqn:C1; [|done]. case_bool_decide as B1; cbn [negb]; [|done].
  destruct (cookie_set cookieSSOVerifier r) as [v|] eqn:C2; [|done]. destruct (cookie_set cookieSSONonce r) as [n|] eqn:C3; [|done].
  destruct (ExchangeCode _ _ _ _ _ _) as [claims|] eqn:X; [|done]. destruct (GetAdminIdentity _) as [ident|] eqn:I; [|done].
  assert (Hid : sso_identity e r w claims) by (exists v, n; split_and!; congruence).
  destruct (_ && negb (IsAdmin claims)) eqn:Hadm; [done|]. case_bool_decide as L.
  - pose proof (session_spec e r w) as S. destruct (session e r w) as [w' [x|]]; destruct S as (S0 & _ & _ & _ & _ & S & _); [|cbn; congruence].
    intros _. exists claims, ident. split; [done|]. split; [done|]. left. split; [done|]. exists x. by apply S.
  - case_bool_decide as E; cbn [negb andb] in *; [|by case_bool_decide].
    intros _. exists claims, ident. split; [done|]. split; [done|]. right. split; [|done]. by apply negb_false_iff in Hadm.
Qed.
Lemma authorized_session e r w : sessions_wf (ww_sessions w) -> authorized e r (session e r w).1 -> authorized e r w.
Proof.
  intros [Hi _]. pose proof (session_again e r w Hi) as A. pose proof (session_spec e r w) as S. destruct (session e r w) as [w' x]. destruct S as (S & _). cbn [fst] in *.
  unfold authorized, bearer_ok, form_authorized, setup_ok, sso_link_ok, sso_identity, hasAdmin, web_db. setoid_rewrite A. by rewrite S.
Qed.
Lemma get_method m : method_match "GET" m = true -> is_get m = true.
Proof. unfold method_match, is_get. intros [H%bool_decide_eq_true|[_ H%bool_decide_eq_true]%andb_true_iff]%orb_true_iff; apply bool_decide_eq_true; auto. Qed.
Lemma mux_changes e r w : sessions_wf (ww_sessions w) -> ww_api (serve_mux e r w).1 <> ww_api w -> authorized e r w.
Proof.
  intros V. unfold WebForms.serve_mux. destruct (negb _); [done|]. destruct (find_route _ _ api_routes) as [[f args]|] eqn:F.
  - intros H. left. unfold bearer_ok. destruct (authenticated _ _ _ _).2 eqn:A; [done|]. exfalso. apply H.
    apply (route_anonymous backup_handler url_Parse LookupPort IsDomainName SplitDomainName Fqdn sha256 toASCII list_url manifest api (we_env e) (wq_http r) (ww_api w) f args F) in A as [A _].
    destruct (f _ _ _ _) as [a resp]. exact A.
  - destruct (find_route _ _ web_routes) as [[f args]|] eqn:G.
    + apply find_route_elem in G as (rt & Hrt & Hm & Hp & <-). pose proof web_routes_kind as K. rewrite Forall_forall in K. destruct (K rt Hrt) as [Q|h Hh Hg|h Hh|Hh|Hh]; rewrite ?Hh.
      * by rewrite Q.
      * intros H%session_changes. right. left. split; [done|]. rewrite Hg in Hm. by apply get_method.
      * intros H%csrf_changes; [|done]. right. right. by left.
      * intros H%setup_changes. do 3 right. by left.
      * intros H%callback_changes. by do 4 right.
    + destruct (is_get _) eqn:I; [|done]. case_bool_decide; [done|]. case_bool_decide; [done|]. intros C%session_changes. right. by left.
Qed.
Lemma web_gate_changes e r w : sessions_wf (ww_sessions w) -> ww_api (WebWriteGate api o serve_mux e r w).1 <> ww_api w -> authorized e r w.
Proof.
  intros V. unfold WebWriteGate. destruct (_ || _); [by apply mux_changes|]. destruct (replica api o e w); [|by apply mux_changes].
  pose proof (session_spec e r w) as S. pose proof (authorized_session e r w V) as A. destruct (session e r w) as [w' [x|]]; destruct S as (S & _ & _ & _ & V' & _); [by cbn|].
  rewrite <- S. intros H. by apply A, mux_changes; [apply V'|].
Qed.
(** C5: nothing a request does through HTTP changes the node unless it shows one of
    these: a valid API token; a live session, with the CSRF token of that session for
    anything but a read; before there is an administrator, the setup token with a long
    enough password; or an identity the provider vouches for, for the sign-in this
    browser started, that an open session asked to link or that is an administrator's
    while no identity is linked. *)
Theorem changes_need_credentials e r w : sessions_wf (ww_sessions w) -> ww_api (ServeHTTP e r w).1 <> ww_api w -> authorized e r w.
Proof.
  intros V. unfold WebForms.ServeHTTP, ApiWriteGate. destruct (_ || _); [by apply web_gate_changes|]. destruct (negb _); [by apply web_gate_changes|].
  pose proof (authenticated_spec sha256 (we_env e) (wq_http r) (ww_api w)) as S. destruct (authenticated _ _ _ _) as [a ok] eqn:A. destruct ok; [left; unfold bearer_ok; by rewrite A|].
  destruct S as (_ & _ & S). rewrite S by done. intros H. assert (E : with_api (ww_api w) w = w) by by destruct w. rewrite E in H. by apply web_gate_changes in H.
Qed.

(** ** A replica is read-only *)
(** A handler that leaves alone, on a replica, what replicas copy. *)
Definition calm h : Prop := forall e r w, aw_role (ww_api w) = RoleReplica -> same_shared (ww_api w) (ww_api (h e r w).1).
Lemma quiet_calm h : quiet h -> calm h.
Proof. intros H e r w _. by rewrite H. Qed.
Lemma calm_setup h : calm h -> calm (requireSetup h).
Proof. intros H e r w Hr. unfold requireSetup. destruct (negb _); [done|by apply H]. Qed.
Lemma calm_session h : calm h -> calm (requireSession h).
Proof.
  intros H. apply calm_setup. intros e r w Hr. pose proof (session_spec e r w) as S. destruct (session e r w) as [w' [x|]]; destruct S as (S & _); rewrite <- S; [|done].
  apply H. by rewrite S.
Qed.
Lemma calm_csrf h : calm h -> calm (requireCSRF h).
Proof.
  intros H. apply calm_setup. intros e r w Hr. pose proof (session_spec e r w) as S. destruct (session e r w) as [w' [x|]]; destruct S as (S & _); rewrite <- S; [|done].
  destruct (wq_Form r); [|done]. destruct (ValidCSRF _ _ _ _) as [s []]; [|done]. apply (H e r (with_sessions s w')). cbn. by rewrite S.
Qed.
Lemma render_calm status p e r w w' : same_shared (ww_api w') (ww_api w) -> same_shared (ww_api w') (ww_api (render api o status p e r w).1).
Proof. by rewrite render_quiet. Qed.
Lemma renderReplication_quiet status x : quiet (renderReplication api o status x).
Proof. intros e r w. unfold renderReplication. destruct (negb _); [done|]. apply render_quiet. Qed.
Lemma web_set_calm e v confirm w : aw_role (ww_api w) = RoleReplica ->
  same_shared (ww_api w) (ww_api (web_set url_Parse LookupPort IsDomainName SplitDomainName Fqdn e v confirm w).1).
Proof.
  intros Hr. unfold web_set, on_api. pose proof (set_same url_Parse LookupPort IsDomainName SplitDomainName Fqdn (we_env e) v confirm (ww_api w) Hr) as H.
  by destruct (settings_Set _ _ _ _ _ _ _ _ _) as [a x].
Qed.
Lemma dhcp_settings_calm : calm (postDHCPSettings url_Parse LookupPort IsDomainName SplitDomainName Fqdn api o).
Proof.
  intros e r w Hr. unfold postDHCPSettings, renderDHCP. destruct (negb _); [done|]. destruct (dhcpFormFrom r) as [form [m|]]; [by rewrite render_quiet|].
  destruct (liveSettings o w) as [cur|]; [|by rewrite render_quiet]. unfold or_page. pose proof (web_set_calm e (df_apply form cur) "" w Hr) as H.
  destruct (web_set _ _ _ _ _ _ _ _ _) as [w' [[]|m]]; [done|]. by rewrite render_quiet.
Qed.
Lemma dhcp_suggest_calm : calm (postDHCPSuggest api o).
Proof. apply quiet_calm. intros e r w. unfold postDHCPSuggest, renderDHCP. destruct (suggestion _ _) as [[[a b] c]|]; apply render_quiet. Qed.
Lemma web_promote_calm : calm (postReplicaPromote api o).
Proof.
  intros e r w Hr. unfold postReplicaPromote. case_bool_decide as B; [by rewrite renderReplication_quiet|]. destruct (negb _); [by rewrite renderReplication_quiet|].
  unfold on_api. pose proof (promote_conf api (we_env e) (ww_api w) Hr) as H. destruct (PromoteThisNode _ _ _) as [a [[[after p]|m]|]]; rewrite renderReplication_quiet; by apply same_conf.
Qed.
Lemma web_join_calm : calm (postReplicaJoin api o).
Proof.
  intros e r w Hr. unfold postReplicaJoin. destruct (negb _); [by rewrite renderReplication_quiet|]. destruct (replica api o e w) as [st|]; [|by rewrite renderReplication_quiet].
  destruct (_ && _); [by rewrite renderReplication_quiet|]. unfold on_api.
  pose proof (JoinPrimary_conf api (we_env e) (rst_PrimaryAddr st) (PostFormValue "code" r) (PostFormValue "fingerprint" r) (ww_api w)) as H.
  destruct (JoinPrimary _ _ _ _ _ _) as [a [id|[| |[]]]]; rewrite renderReplication_quiet; by apply same_conf.
Qed.
Lemma local_shared db w : conf db = conf (web_db w) -> same_shared (ww_api w) (ww_api (with_web_db db w)).
Proof. intros H. apply same_conf. exact H. Qed.
Lemma setup_calm : calm (postSetup o).
Proof.
  intros e r w Hr. unfold postSetup. destruct (hasAdmin w); [done|]. destruct (wq_Form r); [|done]. destruct (negb _); [done|]. destruct (_ <? _); [done|].
  destruct (negb _); [done|]. destruct (we_hash e _); [|done]. by apply local_shared.
Qed.
Lemma link_conf now c db : conf (link_identity now c db).1 = conf db.
Proof. unfold link_identity, LinkAdminSSO, local. by destruct (n_admin _). Qed.
Lemma callback_calm : calm getSSOCallback.
Proof.
  intros e r w Hr. unfold getSSOCallback. destruct (negb _); [done|]. destruct (cookie_set cookieSSOVerifier r); [|done]. destruct (cookie_set cookieSSONonce r); [|done].
  destruct (ExchangeCode _ _ _ _ _ _) as [c|]; [|done]. destruct (GetAdminIdentity _) as [i|]; [|done]. destruct (_ && _); [done|]. case_bool_decide as B.
  - pose proof (session_spec e r w) as S. destruct (session e r w) as [w' [x|]]; destruct S as (S & _); rewrite <- S; [|done].
    pose proof (link_conf (unix (we_now e)) c (web_db w')) as L. destruct (link_identity _ _ _) as [db [u|]]; by apply local_shared.
  - destruct (_ && _); [done|]. destruct (bool_decide (SSOSub i = "")); [|done]. apply local_shared. exact (link_conf (unix (we_now e)) c (web_db w)).
Qed.
(** Every other form sits behind the session check, on a path the gate does not let by. *)
Definition plain_path (pat : list string) : bool := forallb (fun p => negb (HasPrefix p "{")) pat.
Inductive replica_kind (rt : Route WebHandler) : Prop :=
  | rk_calm : calm (rt_handler rt) -> replica_kind rt
  | rk_gated h : rt_handler rt = requireCSRF h -> rt_Method rt = "POST" -> plain_path (rt_pat rt) = true ->
      HasPrefix ("/" +:+ GoStr.Join (rt_pat rt) "/") PathPrefix = false -> ("/" +:+ GoStr.Join (rt_pat rt) "/") ∉ webWriteExempt -> replica_kind rt.
Ltac page_calm := apply calm_session, quiet_calm; intros ? ? ?; solve [apply render_quiet | apply renderReplication_quiet | reflexivity].
Lemma web_routes_replica : Forall replica_kind web_routes.
Proof.
  unfold WebForms.web_routes. repeat apply Forall_cons_2; try apply Forall_nil_2.
  all: first [ apply rk_calm; cbn [rt_handler get]; page_calm
             | by (eapply rk_gated; [reflexivity|reflexivity|vm_compute; reflexivity|vm_compute; reflexivity|apply (bool_decide_eq_false_1 _); vm_compute; reflexivity])
             | apply rk_calm; cbn [rt_handler get post] ].
  - apply quiet_calm, getSetup_quiet.
  - apply setup_calm.
  - apply quiet_calm, getLogin_quiet.
  - apply quiet_calm, postLogin_quiet.
  - apply calm_csrf, quiet_calm. intros e r w. unfold postLogout. by destruct (CookieOf _ _).
  - apply quiet_calm, getSSOLogin_quiet.
  - apply callback_calm.
  - by apply quiet_calm.
  - by apply quiet_calm, sessionJSON_quiet.
  - by apply quiet_calm, sessionJSON_quiet.
  - apply calm_session, quiet_calm. intros e r w. unfold getDHCP, renderDHCP. destruct (liveSettings _ _); apply render_quiet.
  - apply calm_csrf, dhcp_settings_calm.
  - apply calm_csrf, dhcp_suggest_calm.
  - apply calm_csrf, web_promote_calm.
  - apply calm_csrf, web_join_calm.
  - apply calm_session. intros e r w _. unfold getBackupExport. destruct (negb _); [done|]. destruct (backup_export _ _) as [l [st b]]. by apply local_shared.
Qed.
Lemma plain_match pat segs args : plain_path pat = true -> match_pat pat segs = Some args -> segs = pat.
Proof.
  revert segs args. induction pat as [|p pat IH]; intros [|s segs] args; cbn; try done. intros [Hp%negb_true_iff Hl]%andb_true_iff. rewrite Hp.
  case_bool_decide as E; [|done]. intros H. by rewrite E, (IH segs args).
Qed.
Lemma csrf_anonymous h e r w : (forall x, ~ signed_in e r w x) -> ww_api (requireCSRF h e r w).1 = ww_api w.
Proof.
  intros H. apply requireSetup_quiet. pose proof (session_spec e r w) as S. destruct (session e r w) as [w' [x|]]; destruct S as (S & _ & _ & _ & _ & S' & _); [|done].
  by destruct (H x (S' x eq_refl)).
Qed.
(** The gate let the request by because of its path, or because nobody is signed in. *)
Definition let_by e r w : Prop := is_get (ar_Method (wq_http r)) = true \/ HasPrefix (URLPath (wq_http r)) PathPrefix = true \/ URLPath (wq_http r) ∈ webWriteExempt \/
  forall x, ~ signed_in e r w x.
Lemma pages_calm e r w : ar_clean (wq_http r) = true -> find_route (ar_Method (wq_http r)) (ar_segs (wq_http r)) api_routes = None -> let_by e r w ->
  aw_role (ww_api w) = RoleReplica -> same_shared (ww_api w) (ww_api (serve_mux e r w).1).
Proof.
  intros Hc Ha L Hr. unfold WebForms.serve_mux. rewrite Hc, Ha. cbn [negb]. destruct (find_route _ _ web_routes) as [[f args]|] eqn:G.
  - apply find_route_elem in G as (rt & Hrt & Hm & Hp & <-). pose proof web_routes_replica as K. rewrite Forall_forall in K.
    destruct (K rt Hrt) as [C|h Hh Hg Hl Hx He]; [by apply C|]. rewrite Hh. apply plain_match in Hp; [|done]. unfold let_by, URLPath in L. rewrite Hp in L.
    destruct L as [L|[L|[L|L]]]; [|congruence|done|by rewrite csrf_anonymous].
    rewrite Hg in Hm. unfold method_match in Hm. apply orb_true_iff in Hm as [Hm%bool_decide_eq_true|Hm]; [rewrite <- Hm in L; by vm_compute in L|by apply andb_true_iff in Hm as [Hm%bool_decide_eq_true _]].
  - destruct (is_get _); [|done]. case_bool_decide as B1; [done|]. case_bool_decide as B2; [done|]. apply (calm_session (getDashboard api o)); [|done].
    apply quiet_calm. intros e' r' w'. apply render_quiet.
Qed.
Lemma web_gate_calm e r w : sessions_wf (ww_sessions w) -> wo_replication o = true -> ap_status api = true -> ar_clean (wq_http r) = true ->
  find_route (ar_Method (wq_http r)) (ar_segs (wq_http r)) api_routes = None ->
  aw_role (ww_api w) = RoleReplica -> same_shared (ww_api w) (ww_api (WebWriteGate api o serve_mux e r w).1).
Proof.
  intros V Ho Hs Hc Ha Hr. unfold WebWriteGate. destruct (_ || _) eqn:G.
  - apply pages_calm; try done. unfold let_by. apply orb_true_iff in G as [[G|G]%orb_true_iff|G%bool_decide_eq_true]; auto.
  - assert (Hrep : is_Some (replica api o e w)).
    { assert (Hrole : rst_Role (web_status api e w) = RoleReplica).
      { unfold web_status, status_of, replicaStatus. rewrite Hr, bool_decide_true by done. by destruct (en_puller _). }
      exists (web_status api e w). unfold replica. rewrite Ho. by rewrite (bool_decide_true _ Hrole). }
    destruct Hrep as [st ->]. pose proof (session_spec e r w) as S. pose proof (session_again e r w (proj1 V)) as A.
    destruct (session e r w) as [w' [x|]]; destruct S as (S & _ & _ & _ & _ & _ & S'); cbn [fst] in A; [by cbn; rewrite S|].
    rewrite <- S. apply pages_calm; [done|done| |by rewrite S]. do 3 right. intros x Hx. apply A, S' in Hx. done.
Qed.
Lemma api_gate_serve e r w f args : ar_clean (wq_http r) = true -> find_route (ar_Method (wq_http r)) (ar_segs (wq_http r)) api_routes = Some (f, args) ->
  ww_api (ServeHTTP e r w).1 =
  (ApiHandler backup_handler url_Parse LookupPort IsDomainName SplitDomainName Fqdn sha256 toASCII list_url manifest api (we_env e) (wq_http r) (ww_api w)).1.
Proof.
  intros Hc F. assert (M : forall w, ww_api (WebWriteGate api o serve_mux e r w).1 =
    (mux backup_handler url_Parse LookupPort IsDomainName SplitDomainName Fqdn sha256 toASCII list_url manifest api (we_env e) (wq_http r) (ww_api w)).1).
  { intros w1. assert (P : is_get (ar_Method (wq_http r)) || HasPrefix (URLPath (wq_http r)) PathPrefix = true).
    { pose proof F as F'. apply find_route_elem in F' as (rt & Hrt & Hm & Hp & _).
      pose proof (routes_guarded backup_handler url_Parse LookupPort IsDomainName SplitDomainName Fqdn sha256 toASCII list_url manifest api) as G. rewrite Forall_forall in G.
      destruct (G rt Hrt) as [_ Hg _|h _ (t & p & Hpat)]; [rewrite Hg in Hm; by rewrite (get_method _ Hm)|].
      rewrite Hpat in Hp. apply match_lit in Hp as (s1 & H1 & Hp); [|done]. apply match_lit in Hp as (s2 & -> & Hp); [|done].
      rewrite (api_path (wq_http r) s2) by (exact H1 || (intros ->; by cbn in Hp)). unfold PathPrefix. by rewrite HasPrefix_app, orb_true_r. }
    unfold WebWriteGate. rewrite P. cbn [orb]. unfold WebForms.serve_mux, mux. rewrite Hc. cbn [negb]. unfold WebForms.api_routes in *. rewrite F. by destruct (f (we_env e) (wq_http r) args (ww_api w1)). }
  unfold WebForms.ServeHTTP, ApiWriteGate, ApiHandler, WriteGate. unfold web_status. destruct (_ || _); [apply M|]. destruct (negb _); [apply M|].
  destruct (authenticated _ _ _ _) as [a []]; [done|]. apply (M (with_api a w)).
Qed.
(** C6: on a replica no request to the server, to the API or to the pages, changes what
    replicas copy or the version they poll: a form is refused by the gate or by the
    session check behind it, and what the gate lets by (signing in and out, setup,
    promotion, pairing, this node's own DHCP settings) writes local columns only. *)
Theorem replica_serves_read_only e r w : sessions_wf (ww_sessions w) -> wo_replication o = true -> ap_status api = true -> aw_role (ww_api w) = RoleReplica ->
  same_shared (ww_api w) (ww_api (ServeHTTP e r w).1).
Proof.
  intros V Ho Hs Hr. destruct (ar_clean (wq_http r)) eqn:Hc.
  2: { assert (Q : forall w, ww_api (serve_mux e r w).1 = ww_api w) by (intros w1; unfold WebForms.serve_mux; by rewrite Hc).
    assert (Q' : forall w, ww_api (WebWriteGate api o serve_mux e r w).1 = ww_api w).
    { intros w1. unfold WebWriteGate. destruct (_ || _); [apply Q|]. destruct (replica _ _ _ _); [|apply Q]. pose proof (session_spec e r w1) as S.
      destruct (session e r w1) as [w' [x|]]; destruct S as (S & _); [done|]. by rewrite Q. }
    unfold WebForms.ServeHTTP, ApiWriteGate. destruct (_ || _); [by rewrite Q'|]. destruct (negb _); [by rewrite Q'|].
    pose proof (authenticated_spec sha256 (we_env e) (wq_http r) (ww_api w)) as S. destruct (authenticated _ _ _ _) as [a []]; destruct S as (S & _); [by apply same_conf|].
    rewrite Q'. by apply same_conf. }
  destruct (find_route (ar_Method (wq_http r)) (ar_segs (wq_http r)) api_routes) as [[f args]|] eqn:F.
  - rewrite (api_gate_serve e r w f args Hc F). by apply replica_api_lemma.
  - unfold WebForms.ServeHTTP, ApiWriteGate. destruct (_ || _); [by apply web_gate_calm|]. destruct (negb _); [by apply web_gate_calm|].
    pose proof (authenticated_spec sha256 (we_env e) (wq_http r) (ww_api w)) as S. destruct (authenticated _ _ _ _) as [a []]; destruct S as (S & S2 & S3); [by apply same_conf|].
    rewrite S3 by done. by apply (web_gate_calm e r (with_api (ww_api w) w)).
Qed.

(** ** Who is given a session *)
Definition opens_none h : Prop := forall e r w, no_new (ww_sessions w) (ww_sessions (h e r w).1).
Lemma session_no_new e r w : no_new (ww_sessions w) (ww_sessions (session e r w).1).
Proof. pose proof (session_spec e r w) as S. destruct (session e r w) as [w' x]. by destruct S as (_ & _ & S & _). Qed.
Lemma opens_setup h : opens_none h -> opens_none (requireSetup h).
Proof. intros H e r w. unfold requireSetup. destruct (negb _); [done|apply H]. Qed.
Lemma opens_session h : opens_none h -> opens_none (requireSession h).
Proof. intros H. apply opens_setup. intros e r w. pose proof (session_no_new e r w) as S. destruct (session e r w) as [w' [x|]]; [|done]. etrans; [exact S|apply H]. Qed.
Lemma opens_sessionJSON h : opens_none h -> opens_none (requireSessionJSON h).
Proof. intros H e r w. unfold requireSessionJSON. pose proof (session_no_new e r w) as S. destruct (session e r w) as [w' [x|]]; [|done]. etrans; [exact S|apply H]. Qed.
Lemma opens_csrf h : opens_none h -> opens_none (requireCSRF h).
Proof.
  intros H. apply opens_setup. intros e r w. pose proof (session_no_new e r w) as S. destruct (session e r w) as [w' [x|]]; [|done]. destruct (wq_Form r); [|done].
  pose proof (csrf_no_new (we_now e) (ss_ID x) (PostFormValue "csrf_token" r) (ww_sessions w')) as C. destruct (ValidCSRF _ _ _ _) as [s []]; (etrans; [exact S|]); [|exact C].
  etrans; [exact C|]. apply (H e r (with_sessions s w')).
Qed.
Lemma opens_render status p : opens_none (render api o status p).
Proof. intros e r w. unfold render. pose proof (session_no_new e r w) as S. by destruct (session e r w) as [w' x]. Qed.
Lemma opens_replication status x : opens_none (renderReplication api o status x).
Proof. intros e r w. unfold renderReplication. destruct (negb _); [done|apply opens_render]. Qed.
Lemma opens_dhcp status f m : opens_none (renderDHCP api o status f m).
Proof. intros e r w. apply opens_render. Qed.
Lemma or_page_opens {A} (x : WebWorld * result web_error A) bad good e r w : ww_sessions x.1 = ww_sessions w -> (forall m, opens_none (bad m)) -> (forall a, opens_none (good a)) ->
  no_new (ww_sessions w) (ww_sessions (or_page x bad good e r).1).
Proof. intros Hx Hb Hg. unfold or_page. destruct x as [w' [a|m]]; cbn [fst] in Hx; rewrite <- Hx; [apply Hg|apply Hb]. Qed.
Lemma with_id_sessions {A} r w (f : Z -> WebWorld * result web_error A) : (forall id, ww_sessions (f id).1 = ww_sessions w) -> ww_sessions (with_id r w f).1 = ww_sessions w.
Proof. intros H. unfold with_id. by destruct (form_id r). Qed.
Lemma web_reg_sessions {A} (f : _ -> _ -> _ * result _ A) w : ww_sessions (web_reg Fqdn f w).1 = ww_sessions w.
Proof. unfold web_reg, on_api. by destruct (reg_call _ _ _). Qed.
Lemma web_pol_sessions {A} (f : PolicyWorld -> PolicyWorld * result policy_error A) w : ww_sessions (web_pol f w).1 = ww_sessions w.
Proof. unfold web_pol, on_api. by destruct (pol_call _ _). Qed.
Lemma web_local_sessions {A} (f : DB -> DB * result store_error A) w : ww_sessions (web_local f w).1 = ww_sessions w.
Proof. unfold web_local. by destruct (f _). Qed.
Lemma web_set_sessions e v c w : ww_sessions (web_set url_Parse LookupPort IsDomainName SplitDomainName Fqdn e v c w).1 = ww_sessions w.
Proof. unfold web_set, on_api. by destruct (settings_Set _ _ _ _ _ _ _ _ _). Qed.
Ltac same_sessions := repeat (apply with_id_sessions; intros ?); unfold fail_with, promoteLease; repeat case_match;
  solve [reflexivity | apply web_reg_sessions | apply web_pol_sessions | apply web_local_sessions | apply web_set_sessions].
Ltac opens_page := first [ apply opens_render | apply opens_replication | apply opens_dhcp | (intros ? ? ?; apply opens_render) | (intros ? ? ?; apply opens_dhcp) | (intros ? ? ?; reflexivity) ].
Ltac opens_or := apply or_page_opens; [same_sessions|intros ?; opens_page|intros ?; opens_page].
Lemma opens_policy {A} (f : WebEnv -> WebRequest -> WebWorld -> WebWorld * result web_error A) : (forall e r w, ww_sessions (f e r w).1 = ww_sessions w) -> opens_none (policy_form api o f).
Proof. intros H e r w. unfold policy_form, web_requirePolicy. destruct (wo_policy o); [|done]. apply or_page_opens; [apply H|intros ?; opens_page..]. Qed.
(** The three ways in. *)
Inductive session_kind (rt : Route WebHandler) : Prop :=
  | sk_none : opens_none (rt_handler rt) -> session_kind rt
  | sk_setup : rt_handler rt = postSetup o -> session_kind rt
  | sk_login : rt_handler rt = requireSetup (postLogin VerifyPassword) -> session_kind rt
  | sk_callback : rt_handler rt = getSSOCallback -> session_kind rt.
Ltac opens_guard := first [apply opens_session | apply opens_csrf | apply opens_sessionJSON | apply opens_setup | idtac].
Lemma backup_opens op : opens_none (backup_page backup_form api o op).
Proof.
  intros e r w. unfold backup_page. destruct (negb _); [apply opens_render|]. destruct (backup_form _ _ _) as [l [m|]]; [|done].
  apply (opens_render _ _ e r (with_web_db _ w)).
Qed.
Lemma web_routes_sessions : Forall session_kind web_routes.
Proof.
  unfold WebForms.web_routes. repeat apply Forall_cons_2; try apply Forall_nil_2.
  all: first [ by apply sk_setup | by apply sk_login | by apply sk_callback | apply sk_none; cbn [rt_handler get post]; opens_guard;
    first [ opens_page
          | (apply opens_policy; intros ? ? ?; same_sessions)
          | (intros ? ? ?; unfold postServiceAddress, postServiceRouting, edit_service, postServiceNew, postServiceDelete, postRecordNew, postRecordDelete, postPromote, postViewNew, postViewDelete,
              postTokenNew, postTokenDelete, postSSOSettings, postSSOUnlink, postDHCPReserve; opens_or)
          | idtac ] ].
  - intros e r w. unfold getLogin. pose proof (session_no_new e r w) as S. by destruct (session e r w) as [w' [x|]].
  - intros e r w. unfold postLogout. destruct (CookieOf _ _); [|done]. apply destroy_no_new.
  - intros e r w. unfold getSSOLogin. destruct (negb _); [done|]. by destruct (GeneratePKCE _ _).
  - intros e r w. unfold getDHCP. destruct (liveSettings _ _); apply opens_dhcp.
  - intros e r w. unfold postDHCPSettings. destruct (negb _); [done|]. destruct (dhcpFormFrom r) as [form [m|]]; [apply opens_dhcp|]. destruct (liveSettings _ _); [opens_or|apply opens_dhcp].
  - intros e r w. unfold postDHCPSuggest. destruct (suggestion _ _) as [[[a b] c]|]; apply opens_dhcp.
  - intros e r w. unfold postBlacklistTest, web_requirePolicy. destruct (wo_policy o); [|done]. destruct (TestName _ _ _); apply opens_render.
  - intros e r w. unfold postReplicaInvite, on_api. destruct (negb _); [apply opens_replication|]. destruct (InviteReplica _ _ _) as [a [[inv id]|]]; apply (opens_replication _ _ e r (with_api a w)).
  - intros e r w. unfold postReplicaRemove, on_api. destruct (negb _); [apply opens_replication|]. destruct (RemoveReplica _ _ _) as [a [[u|m]|]]; [done|apply (opens_replication _ _ e r (with_api a w))..].
  - intros e r w. unfold postReplicaPromote, on_api. case_bool_decide as B; [apply opens_replication|]. destruct (negb _); [apply opens_replication|].
    destruct (PromoteThisNode _ _ _) as [a [[[after p]|m]|]]; apply (opens_replication _ _ e r (with_api a w)).
  - intros e r w. unfold postReplicaJoin, on_api. destruct (negb _); [apply opens_replication|]. destruct (replica _ _ _ _) as [st|]; [|apply opens_replication].
    destruct (_ && _); [apply opens_replication|]. destruct (JoinPrimary _ _ _ _ _ _) as [a [id|[| |[]]]]; apply (opens_replication _ _ e r (with_api a w)).
  - intros e r w. unfold getBackupExport. destruct (negb _); [done|]. by destruct (backup_export _ _) as [l [st b]].
  - apply backup_opens.
  - apply backup_opens.
  - apply backup_opens.
  - apply backup_opens.
  - apply backup_opens.
  - apply backup_opens.
  - intros e r w. unfold postServerSettings. destruct (negb _); [done|]. destruct (read_ints _ _) as [n [m|]]; [apply opens_render|]. destruct (liveSettings _ _) as [cur|]; [|apply opens_render].
    destruct (planZoneRename _ _ _); [destruct (negb _); [apply opens_render|]|]; opens_or.
  - intros e r w. unfold postCacheFlush. by destruct (wo_cache o).
Qed.
(** A new session is the one drawn for this request. *)
Definition opened e w w' id : Prop := byID (ww_sessions w) !! id = None /\ exists x, byID (ww_sessions w') !! id = Some x.
Lemma opened_refl e w id : ~ opened e w w id.
Proof. intros [H (x & Hx)]. congruence. Qed.
Lemma sign_in_opens now e r w id : opened e w (sign_in now e r w).1 id -> id = we_id e.
Proof. intros [H1 (x & H2)]. cbn in H2. apply lookup_insert_Some in H2 as [[<- _]|[_ H2]]; [done|congruence]. Qed.
Lemma setup_opens e r w id : opened e w (postSetup o e r w).1 id -> id = we_id e /\ setup_ok e r w.
Proof.
  intros H. assert (C : setup_ok e r w /\ id = we_id e); [|tauto]. revert H. unfold postSetup. destruct (hasAdmin w) eqn:A; [by intros []%opened_refl|]. destruct (wq_Form r); [|by intros []%opened_refl].
  case_bool_decide as T; cbn [negb]; [|by intros []%opened_refl]. destruct (Z.ltb_spec (len (PostFormValue "password" r)) MinPasswordLen) as [L|L]; [by intros []%opened_refl|].
  destruct (negb _); [by intros []%opened_refl|]. destruct (we_hash e _) as [hash|]; [|by intros []%opened_refl]. intros H. split; [by split_and!|].
  exact (sign_in_opens (we_now e) e r (with_web_db (SetAdminPassword (unix (we_now e)) hash (web_db w)).1 w) id H).
Qed.
Lemma login_opens e r w id : opened e w (requireSetup (postLogin VerifyPassword) e r w).1 id -> id = we_id e /\ password_ok r w.
Proof.
  unfold requireSetup, postLogin. destruct (negb _); [by intros []%opened_refl|]. destruct (wq_Form r); [|by intros []%opened_refl].
  destruct (AdminHash (web_db w)) as [hash|] eqn:A; [|by intros [H (x & Hx)]; cbn in Hx; congruence]. destruct (VerifyPassword _ _) eqn:P; [|by intros [H (x & Hx)]; cbn in Hx; congruence].
  intros H. split; [|by exists hash]. revert H. intros [H1 (x & H2)]. cbn in H2. apply lookup_insert_Some in H2 as [[<- _]|[_ H2]]; [done|congruence].
Qed.
Lemma callback_opens e r w id : opened e w (getSSOCallback e r w).1 id -> id = we_id e /\ sso_login_ok e r w.
Proof.
  unfold getSSOCallback. destruct (cookie_set cookieSSOState r) as [st|] eqn:C1; [|by intros []%opened_refl]. case_bool_decide as B1; cbn [negb]; [|by intros []%opened_refl].
  destruct (cookie_set cookieSSOVerifier r) as [v|] eqn:C2; [|by intros []%opened_refl]. destruct (cookie_set cookieSSONonce r) as [n|] eqn:C3; [|by intros []%opened_refl].
  destruct (ExchangeCode _ _ _ _ _ _) as [claims|] eqn:X; [|by intros []%opened_refl]. destruct (GetAdminIdentity _) as [ident|] eqn:I; [|by intros []%opened_refl].
  assert (Hid : sso_identity e r w claims) by (exists v, n; split_and!; congruence).
  destruct (_ && negb (IsAdmin claims)) eqn:Hadm; [by intros []%opened_refl|]. case_bool_decide as L.
  - pose proof (session_no_new e r w) as S. destruct (session e r w) as [w' [x|]]; cbn [fst] in S; [|intros [H (y & H2)]; cbn in H2; apply (proj1 S) in H; congruence].
    destruct (link_identity _ _ _) as [db [u|]]; intros [H (y & H2)]; cbn in H2; apply (proj1 S) in H; congruence.
  - destruct (bool_decide_reflect (SSOSub ident = "")) as [E|E]; cbn [negb andb] in *.
    + intros H. split; [exact (sign_in_opens (we_now e) e r (with_web_db (enable_sso (GetSSOSettings (web_db w)) (link_identity (unix (we_now e)) claims (web_db w)).1) w) id H)|].
      exists claims, ident. split; [done|]. split; [done|]. right. split; [by apply negb_false_iff in Hadm|done].
    + destruct (bool_decide_reflect (SSOSub ident = Sub claims)) as [E2|E2]; cbn [negb] in *; [|by intros []%opened_refl].
      intros H. split; [exact (sign_in_opens (we_now e) e r w id H)|]. exists claims, ident. split; [done|]. split; [done|]. by left.
Qed.
Definition let_in e r w : Prop := setup_ok e r w \/ password_ok r w \/ sso_login_ok e r w.
Lemma mux_opens e r w id : opened e w (serve_mux e r w).1 id -> id = we_id e /\ let_in e r w.
Proof.
  unfold WebForms.serve_mux, let_in. destruct (negb _); [by intros []%opened_refl|]. destruct (find_route _ _ api_routes) as [[f args]|].
  - destruct (f _ _ _ _) as [a resp]. intros [H (x & Hx)]. cbn in Hx. congruence.
  - destruct (find_route _ _ web_routes) as [[f args]|] eqn:G.
    + apply find_route_elem in G as (rt & Hrt & Hm & Hp & <-). pose proof web_routes_sessions as K. rewrite Forall_forall in K.
      destruct (K rt Hrt) as [N|Hh|Hh|Hh]; rewrite ?Hh.
      * intros [H (x & Hx)]. apply (proj1 (N e r w)) in H. congruence.
      * intros []%setup_opens. auto.
      * intros []%login_opens. auto.
      * intros []%callback_opens. auto.
    + destruct (is_get _); [|by intros []%opened_refl]. case_bool_decide; [by intros []%opened_refl|]. case_bool_decide; [by intros []%opened_refl|].
      intros [H' (x & Hx)]. assert (N : opens_none (requireSession (getDashboard api o))) by (apply opens_session; intros ? ? ?; apply opens_render). apply (proj1 (N e r w)) in H'. congruence.
Qed.
Lemma web_gate_opens e r w id : opened e w (WebWriteGate api o serve_mux e r w).1 id -> id = we_id e /\ let_in e r w.
Proof.
  unfold WebWriteGate. destruct (_ || _); [apply mux_opens|]. destruct (replica _ _ _ _); [|apply mux_opens].
  pose proof (session_spec e r w) as S. destruct (session e r w) as [w' [x|]] eqn:E; destruct S as (S & _ & S2 & _); intros [H (y & Hy)].
  - cbn in Hy. apply (proj1 S2) in H. congruence.
  - pose proof (proj1 S2 id H) as H'. destruct (mux_opens e r w' id) as [-> L]; [split; [done|by exists y]|]. split; [done|].
    unfold let_in, setup_ok, password_ok, sso_login_ok, sso_identity, hasAdmin, web_db in *. by rewrite S in L.
Qed.
(** C11: a request opens a session in three cases only, and then exactly the one drawn
    for it: the first setup, with the setup token; the password the stored hash
    verifies; and an identity the provider vouches for, for the sign-in this browser
    started, that is the linked one or, while none is linked, an administrator's. *)
Theorem sessions_need_credentials e r w id : byID (ww_sessions w) !! id = None -> is_Some (byID (ww_sessions (ServeHTTP e r w).1) !! id) ->
  id = we_id e /\ (setup_ok e r w \/ password_ok r w \/ sso_login_ok e r w).
Proof.
  intros H [x Hx]. assert (Hg : forall a, opened e w (WebWriteGate api o serve_mux e r (with_api a w)).1 id -> a = ww_api w -> id = we_id e /\ let_in e r w).
  { intros a Ho ->. assert (E : with_api (ww_api w) w = w) by by destruct w. rewrite E in Ho. by apply web_gate_opens. }
  unfold WebForms.ServeHTTP, ApiWriteGate in Hx. destruct (_ || _); [by apply web_gate_opens; split; [|exists x]|]. destruct (negb _); [by apply web_gate_opens; split; [|exists x]|].
  pose proof (authenticated_spec sha256 (we_env e) (wq_http r) (ww_api w)) as S. destruct (authenticated _ _ _ _) as [a []]; destruct S as (_ & _ & S); [cbn in Hx; congruence|].
  apply (Hg a); [|by apply S]. split; [done|by exists x].
Qed.

(** ** The sessions stay filed under their own id *)
Lemma mux_wf e r w : sessions_wf (ww_sessions w) -> sessions_wf (ww_sessions (serve_mux e r w).1).
Proof.
  intros V. unfold WebForms.serve_mux. destruct (negb _); [done|]. destruct (find_route _ _ api_routes) as [[f args]|]; [by destruct (f _ _ _ _)|].
  destruct (find_route _ _ web_routes) as [[f args]|] eqn:G.
  - apply find_route_elem in G as (rt & Hrt & Hm & Hp & <-). pose proof web_routes_sessions as K. rewrite Forall_forall in K. destruct (K rt Hrt) as [N|Hh|Hh|Hh]; rewrite ?Hh; [by apply N|..].
    + unfold postSetup. destruct (hasAdmin w); [done|]. destruct (wq_Form r); [|done]. destruct (negb _); [done|]. destruct (_ <? _); [done|]. destruct (negb _); [done|].
      destruct (we_hash e _); [|done]. by apply create_wf.
    + unfold requireSetup, postLogin. destruct (negb _); [done|]. destruct (wq_Form r); [|done].
      destruct (match AdminHash (web_db w) with Ok hash => VerifyPassword hash (PostFormValue "password" r) | Err _ => false end); [by apply create_wf|done].
    + unfold getSSOCallback. destruct (negb _); [done|]. destruct (cookie_set cookieSSOVerifier r); [|done]. destruct (cookie_set cookieSSONonce r); [|done].
      destruct (ExchangeCode _ _ _ _ _ _); [|done]. destruct (GetAdminIdentity _) as [i|]; [|done]. destruct (_ && _); [done|]. case_bool_decide as B.
      * pose proof (session_spec e r w) as S. destruct (session e r w) as [w' [x|]]; destruct S as (_ & _ & _ & _ & S & _); [|by apply S]. destruct (link_identity _ _ _) as [db [u|]]; by apply S.
      * destruct (_ && _); [done|]. destruct (negb (bool_decide (SSOSub i = ""))); by apply create_wf.
  - destruct (is_get _); [|done]. case_bool_decide as B1; [done|]. case_bool_decide as B2; [done|].
    assert (N : opens_none (requireSession (getDashboard api o))) by (apply opens_session; intros ? ? ?; apply opens_render). by apply N.
Qed.
Lemma serve_wf e r w : sessions_wf (ww_sessions w) -> sessions_wf (ww_sessions (ServeHTTP e r w).1).
Proof.
  intros V. assert (G : forall w, sessions_wf (ww_sessions w) -> sessions_wf (ww_sessions (WebWriteGate api o serve_mux e r w).1)).
  { intros w1 V1. unfold WebWriteGate. destruct (_ || _); [by apply mux_wf|]. destruct (replica _ _ _ _); [|by apply mux_wf]. pose proof (session_spec e r w1) as S.
    destruct (session e r w1) as [w' [x|]]; destruct S as (_ & _ & _ & _ & S & _); [by apply S|by apply mux_wf, S]. }
  unfold WebForms.ServeHTTP, ApiWriteGate. destruct (_ || _); [by apply G|]. destruct (negb _); [by apply G|].
  destruct (authenticated _ _ _ _) as [a []]; [done|]. by apply (G (with_api a w)).
Qed.
End Serve.
