(* ===== verification/WebFormProps.v ===== *)
(** * What the forms do: theorems about [WebForms], and a concrete server

    The settings form never moves records it has not shown, each settings form leaves
    the other's half alone, and concrete requests that exercise the guarantees of
    [WebProps]. *)
From S2P Require Import Prelude GoStr PolicyName Policy PolicyService RegistryValidate Registry Session SSO.
From S2P Require Import NetIP NetIPPrint Model Zone ZoneHolder Store StoreNode StoreProps StoreNodeProps DnsMsg DnsMetrics DnsCache DnsAuth DnsForward DnsServer Upstream.
From S2P Require Import SettingsValidate Settings Ticker Health DhcpAlloc DhcpReserve DhcpServer ReplicaSync Replica Pairing Role DhcpRunner Live Json AdminDto AdminApi AdminApiProps WebPages Web WebForms WebProps.

(** ** Lemmas: the zone of a domain *)
Definition head_undotted (l : list ascii) : Prop := match l with c :: _ => c <> "."%char | [] => True end.
Lemma drop_dots_head l : head_undotted (drop_dots l).
Proof. induction l as [|c l IH]; cbn; [done|]. case_bool_decide; done. Qed.
Lemma drop_dots_id l : head_undotted l -> drop_dots l = l.
Proof. destruct l as [|c l]; cbn; [done|]. intros H. by rewrite bool_decide_false. Qed.
Lemma drop_dots_suffix l : exists k, l = k ++ drop_dots l.
Proof. induction l as [|c l [k IH]]; [by exists []|]. cbn. case_bool_decide; [exists (c :: k); cbn; by f_equal|by exists []]. Qed.
Lemma drop_dots_rev_head l : head_undotted l -> head_undotted (rev (drop_dots (rev l))).
Proof.
  intros H. destruct (drop_dots_suffix (rev l)) as [k E]. apply (f_equal (@rev ascii)) in E. rewrite rev_involutive, rev_app_distr in E.
  destruct (rev (drop_dots (rev l))) as [|c r]; [done|]. rewrite E in H. exact H.
Qed.
Lemma TrimDots_idemp s : TrimDots (TrimDots s) = TrimDots s.
Proof.
  unfold TrimDots. rewrite bytes_str. f_equal. set (l := drop_dots (bytes s)). pose proof (drop_dots_rev_head l (drop_dots_head _)) as H.
  rewrite (drop_dots_id _ H), rev_involutive. by rewrite (drop_dots_id (drop_dots (rev l))) by apply drop_dots_head.
Qed.
Lemma TrimDots_bytes s : exists k1 k2, bytes s = k1 ++ bytes (TrimDots s) ++ k2.
Proof.
  unfold TrimDots. rewrite bytes_str. destruct (drop_dots_suffix (bytes s)) as [k1 E1]. destruct (drop_dots_suffix (rev (drop_dots (bytes s)))) as [k2 E2].
  apply (f_equal (@rev ascii)) in E2. rewrite rev_involutive, rev_app_distr in E2. exists k1, (rev k2). by rewrite <- E2.
Qed.
Lemma no_space_TrimDots s : no_space s -> no_space (TrimDots s).
Proof. unfold no_space. destruct (TrimDots_bytes s) as (k1 & k2 & ->). rewrite !Forall_app. tauto. Qed.
Lemma lower_TrimDots s : ToLower s = s -> ToLower (TrimDots s) = TrimDots s.
Proof.
  intros H. apply (f_equal bytes) in H. rewrite bytes_ToLower in H. destruct (TrimDots_bytes s) as (k1 & k2 & E). rewrite E, !fmap_app in H.
  apply app_inj_1 in H as [_ H]; [|by rewrite length_fmap]. apply app_inj_1 in H as [H _]; [|by rewrite length_fmap]. unfold ToLower. rewrite H. apply str_bytes.
Qed.
Lemma zone_suffix_idemp d : no_space d -> ZoneSuffix (ZoneSuffix d) = ZoneSuffix d.
Proof.
  intros Hd. set (z := TrimDots (ToLower d)). assert (Hz : no_space z) by by apply no_space_TrimDots, no_space_lower.
  assert (E : forall x, no_space x -> ZoneSuffix x = let e := TrimDots (ToLower x) in if bool_decide (e = "") then "" else e +:+ ".") by (intros x Hx; unfold ZoneSuffix; by rewrite TrimSpace_no_space).
  rewrite (E d Hd). cbv zeta. fold z. case_bool_decide as Z; [done|]. rewrite (zone_suffix_fqdn z (z +:+ ".")) by (done || by right). rewrite (E z Hz). cbv zeta.
  assert (Hl : ToLower z = z) by (apply lower_TrimDots, ToLower_idemp). rewrite Hl.
  assert (Ht : TrimDots z = z) by apply TrimDots_idemp. by rewrite Ht, (bool_decide_false _ Z).
Qed.

(** The preview counts what the rename moves: no plan, nothing to move. *)
Lemma rename_row_moves from to r : rename_row from to r = None -> rename_record from to r = None.
Proof. unfold rename_row, rename_record. by destruct (RenameInZone (r_Name r) from to), (if bool_decide _ then RenameInZone (r_Value r) from to else None). Qed.
Lemma no_plan_no_move recs from to r : planZoneRename recs from to = None -> r ∈ recs -> default r (rename_record (ZoneSuffix from) (ZoneSuffix to) r) = r.
Proof.
  unfold planZoneRename. intros H Hr. destruct (rename_record _ _ r) as [r'|] eqn:E; [|done]. exfalso.
  destruct (rename_row (ZoneSuffix from) (ZoneSuffix to) r) as [row|] eqn:R; [|apply rename_row_moves in R; congruence].
  case_bool_decide as B.
  - unfold rename_record, RenameInZone in E. assert (B' : bool_decide (ZoneSuffix from = "") || bool_decide (ZoneSuffix to = "") || bool_decide (ZoneSuffix from = ZoneSuffix to) = true).
    { destruct B as [B|[B|B]]; rewrite (bool_decide_true _ B); by rewrite ?orb_true_r. }
    rewrite B' in E. by destruct (bool_decide (r_Type r = "CNAME" \/ r_Type r = "PTR")).
  - destruct (Z.eqb_spec (Z.of_nat (length (omap (rename_row (ZoneSuffix from) (ZoneSuffix to)) recs))) 0) as [L|L]; [|done].
    assert (Hin : row ∈ omap (rename_row (ZoneSuffix from) (ZoneSuffix to)) recs) by (apply list_elem_of_omap; by exists r).
    destruct (omap _ recs); [by apply not_elem_of_nil in Hin|cbn in L; lia].
Qed.

Lemma plan_counts recs from to plan : planZoneRename recs from to = Some plan -> 0 < zr_Count plan /\ zr_Confirm plan = to.
Proof.
  unfold planZoneRename. destruct (bool_decide _); [done|]. case_if; [done|]. intros [= <-]. cbn. split; [|done].
  match goal with H : (?n =? 0) = false |- _ => apply Z.eqb_neq in H end. lia.
Qed.

Section Forms.
Context (url_Parse : string -> option ParsedURL) (LookupPort : string -> option Z).
Context (IsDomainName : string -> bool) (SplitDomainName : string -> list string) (Fqdn : string -> string).
Context (api : API) (o : WebOptions).
Abbreviation Set_ := (Set_ url_Parse LookupPort IsDomainName SplitDomainName).
Abbreviation settings_ok := (SettingsValidate.settings_ok url_Parse LookupPort IsDomainName SplitDomainName).
Abbreviation postServerSettings := (postServerSettings url_Parse LookupPort IsDomainName SplitDomainName Fqdn api o).
Abbreviation postDHCPSettings := (postDHCPSettings url_Parse LookupPort IsDomainName SplitDomainName Fqdn api o).
(** The labels of an accepted domain hold no white space. *)
Hypothesis accepted_no_space : forall v, settings_ok v -> no_space (PrivateDomain v).
Implicit Types (w : WebWorld) (e : WebEnv) (r : WebRequest).

Lemma set_keeps_records rep v confirm s : no_space (PrivateDomain (Settings.running s)) ->
  planZoneRename (Records (sw_db s)) (PrivateDomain (Settings.running s)) (PrivateDomain v) = None -> Records (sw_db (Set_ rep v confirm s).1) = Records (sw_db s).
Proof.
  intros Hs H. unfold Settings.Set_. destruct rep.
  - unfold setDHCPOnly. destruct (negb _); [done|]. destruct (SettingsValidate.ValidateWrite _ _ _ _ _ _ _); [|done].
    unfold PutDHCPSettings, tx, putDHCPSettings. destruct (c_settings _); [|done]. unfold Settings.SettingsRebuild. destruct (GetSettings _); [|done]. by destruct (Settings.Build _ _ _ _).
  - destruct (SettingsValidate.ValidateWrite _ _ _ _ _ _ _) as [u|] eqn:V; [|done]. apply ValidateWrite_ok in V as [Hok _]. apply accepted_no_space in Hok.
    destruct (Settings.Build _ _ _ _); [|done]. unfold persist. change (PrivateDomain (Canonicalize v)) with (PrivateDomain v). destruct (_ && _).
    + unfold PutSettingsRenamingZone, tx. cbn. rewrite !zone_suffix_idemp by done. unfold Records. cbn. f_equal. apply fmap_id_ext. intros r Hr. eapply no_plan_no_move; [exact H|].
      unfold Records. by rewrite merge_sort_Permutation.
    + done.
Qed.
Lemma web_set_records e v confirm w : no_space (PrivateDomain (Settings.running (nd_sw (aw_node (ww_api w))))) ->
  planZoneRename (Records (web_db w)) (PrivateDomain (Settings.running (nd_sw (aw_node (ww_api w))))) (PrivateDomain v) = None ->
  Records (web_db (web_set url_Parse LookupPort IsDomainName SplitDomainName Fqdn e v confirm w).1) = Records (web_db w).
Proof.
  intros Hs H. unfold web_set, on_api, settings_Set, node_set. pose proof (set_keeps_records (bool_decide (aw_role (ww_api w) = RoleReplica)) v confirm _ Hs H) as R.
  destruct (Settings.Set_ _ _ _ _ _ _ _ _) as [s [u|x]]; cbn in R; [|exact R]. unfold web_db, db_of, Records in *. cbn. by rewrite node_apply_conf.
Qed.
(** saving the server settings moves a record only after the operator has seen the
    move and typed the new domain: if the manual records are not what they were, the
    form carried [confirm_rename] equal to the new private domain, and the preview the
    page shows for the two domains is not empty. *)
Theorem records_move_only_when_confirmed e r w : no_space (PrivateDomain (Settings.running (nd_sw (aw_node (ww_api w))))) ->
  Records (web_db (postServerSettings e r w).1) <> Records (web_db w) ->
  let to := TrimSpace (PostFormValue "private_domain" r) in
  PostFormValue "confirm_rename" r = to /\
  exists plan, planZoneRename (Records (web_db w)) (PrivateDomain (Settings.running (nd_sw (aw_node (ww_api w))))) to = Some plan /\ 0 < zr_Count plan /\ zr_Confirm plan = to.
Proof.
  intros Hs. assert (Q : forall st p, Records (web_db (render api o st p e r w).1) = Records (web_db w)) by (intros st p; unfold web_db; by rewrite render_quiet).
  unfold WebForms.postServerSettings, serverSettingsError, serverSettingsRename. destruct (negb _); [done|]. destruct (read_ints int_names r) as [n [m|]]; [by rewrite Q|].
  unfold liveSettings, Get. destruct (wo_settings o); [|by rewrite Q]. cbv zeta. assert (P : forall cur, PrivateDomain (with_dhcp (server_form r n) cur) = TrimSpace (PostFormValue "private_domain" r)) by done.
  unfold Settings.running in *. destruct (sw_cur (nd_sw (aw_node (ww_api w)))) as [s|] eqn:C; cbn [ok_opt]; [|by rewrite Q].
  set (v := with_dhcp (server_form r n) (ss_Raw s)). assert (U : forall c, Records (web_db (web_set url_Parse LookupPort IsDomainName SplitDomainName Fqdn e v c w).1) <> Records (web_db w) ->
    exists plan, planZoneRename (Records (web_db w)) (PrivateDomain (ss_Raw s)) (PrivateDomain v) = Some plan).
  { intros c Hc. destruct (planZoneRename _ _ (PrivateDomain v)) as [plan|] eqn:E; [by exists plan|]. destruct Hc. apply web_set_records; unfold Settings.running; by rewrite C. }
  assert (S : forall c, Records (web_db (or_page (web_set url_Parse LookupPort IsDomainName SplitDomainName Fqdn e v c w) (fun m e r w => render api o 400 (PSettings (with_server v None (Some m) (settings_data o None "" w))) e r w) (to_redirect "/settings") e r).1) =
    Records (web_db (web_set url_Parse LookupPort IsDomainName SplitDomainName Fqdn e v c w).1)).
  { intros c. unfold or_page. destruct (web_set _ _ _ _ _ _ _ _ _) as [w' [u|m]]; [done|]. unfold web_db. by rewrite render_quiet. }
  destruct (planZoneRename _ _ (PrivateDomain v)) as [plan|] eqn:E.
  - case_bool_decide as B; cbn [negb]; [|by rewrite Q]. rewrite S. intros _. split; [exact B|]. exists plan. split; [exact E|].
    by apply plan_counts in E.
  - rewrite S. intros H%U. by destruct H.
Qed.

(** ** Each form leaves the other's half alone *)
Lemma web_set_running e v confirm w : aw_role (ww_api w) <> RoleReplica -> is_ok (web_set url_Parse LookupPort IsDomainName SplitDomainName Fqdn e v confirm w).2 = true ->
  wo_settings o = true -> liveSettings o (web_set url_Parse LookupPort IsDomainName SplitDomainName Fqdn e v confirm w).1 = Some (Canonicalize v).
Proof.
  intros Hr Hok Ho. unfold web_set, on_api, settings_Set, node_set in *. rewrite (bool_decide_false _ Hr) in *.
  destruct (Settings.Set_ _ _ _ _ _ _ _ _) as [s [[]|x]] eqn:E; [|done]. apply primary_ok in E as (_ & _ & snap & B & C & _).
  unfold liveSettings, Get. rewrite Ho. cbn. unfold node_apply. rewrite C. destruct (LiveApply _ _ _ _ _ _ _) as [db l]. cbn. rewrite C. cbn. by rewrite (Build_raw _ _ _ _ _ B).
Qed.
Lemma or_page_redirect {A} (x : WebWorld * result web_error A) (bad : web_error -> WebEnv -> WebWorld -> Page) status to e r :
  rp_Body (or_page x (fun m e r w => render api o status (bad m e w) e r w) (to_redirect to) e r).2 = BRedirect to ->
  is_ok x.2 = true /\ (or_page x (fun m e r w => render api o status (bad m e w) e r w) (to_redirect to) e r).1 = x.1.
Proof. unfold or_page. destruct x as [w [a|m]]; [done|]. unfold render. by destruct (session e r w). Qed.
Lemma render_no_redirect status p e r w to : rp_Body (render api o status p e r w).2 <> BRedirect to.
Proof. unfold render. by destruct (session e r w). Qed.
(** the two settings forms own disjoint halves of the document.  A save of the
    server settings that is accepted leaves the eight DHCP settings as they were
    running; a save of the DHCP settings leaves every other setting as it was running,
    up to the canonical form every save writes. *)
Theorem settings_forms_keep_the_rest e r w cur : liveSettings o w = Some cur -> aw_role (ww_api w) <> RoleReplica ->
  (rp_Body (postServerSettings e r w).2 = BRedirect "/settings" -> exists x, liveSettings o (postServerSettings e r w).1 = Some x /\ with_dhcp x cur = x) /\
  (rp_Body (postDHCPSettings e r w).2 = BRedirect "/dhcp" -> exists x, liveSettings o (postDHCPSettings e r w).1 = Some x /\ withoutDHCP x = withoutDHCP (Canonicalize cur)).
Proof.
  intros Hc Hr. assert (Ho : wo_settings o = true) by (unfold liveSettings in Hc; by destruct (wo_settings o)).
  unfold WebForms.postServerSettings, WebForms.postDHCPSettings, serverSettingsError, serverSettingsRename, renderDHCP. rewrite Ho, Hc. cbn [negb]. split.
  - destruct (read_ints int_names r) as [n [m|]]; [by intros ?%render_no_redirect|].
    destruct (planZoneRename _ _ _) as [plan|]; [destruct (negb _); [by intros ?%render_no_redirect|]|];
      (intros [Hk ->]%(or_page_redirect _ (fun m _ w => PSettings (with_server _ None (Some m) (settings_data o None "" w)))); eexists; split; [by apply web_set_running|done]).
  - destruct (dhcpFormFrom r) as [form [m|]]; [by intros ?%render_no_redirect|]. intros H.
    assert (H' : is_ok (web_set url_Parse LookupPort IsDomainName SplitDomainName Fqdn e (df_apply form cur) "" w).2 = true).
    { unfold or_page in H. destruct (web_set _ _ _ _ _ _ _ _ _) as [w' [u|m]]; [done|]. by apply render_no_redirect in H. }
    exists (Canonicalize (df_apply form cur)). split; [|done]. pose proof (web_set_running e (df_apply form cur) "" w Hr H' Ho) as L. unfold or_page.
    destruct (web_set _ _ _ _ _ _ _ _ _) as [w' [u|m]]; [exact L|done].
Qed.
End Forms.

(** ** A concrete server *)
Definition ex_options : WebOptions := mkWebOptions true true true true true true true true true true true "setup-token" [].
Definition ex_verify (hash password : string) : bool := bool_decide (hash = "argon2id:" +:+ password).
Definition ex_web_env : WebEnv := mkWebEnv ex_env "sid-new" "csrf-new" (fun p => Some ("argon2id:" +:+ p)) [1; 2; 3] [4; 5] [6; 7] (fun _ => None) ex_oidc.
(** The node of the API's examples; one open session, and the admin account if [admin]. *)
Definition ex_web_world (role : Role) (admin : bool) : WebWorld :=
  let a := ex_api_world role in
  let a := if admin then with_aw_db (SetAdminPassword 0 "argon2id:correct horse" (db_of a)).1 a else a in
  mkWW a (Create (seconds 90) "sid" "csrf" (NewSessions hour (12 * hour))).1 NewBackoff.
Definition ex_post (path : list string) (cookies form : list (string * string)) : WebRequest :=
  mkWebRequest (mkApiRequest "POST" path true "" [] (mkBody true None None)) cookies (Some form) true "dns.home" "" "" "192.168.1.7:5000".
Definition ex_get (path : list string) (cookies query : list (string * string)) : WebRequest :=
  mkWebRequest (mkApiRequest "GET" path true "" query (mkBody true None None)) cookies None true "dns.home" "" "" "192.168.1.7:5000".
Abbreviation ex_serve := (ServeHTTP ex_backup ex_url_parse ex_lookup ex_IsDomainName ex_names.2 ex_Fqdn ex_sha Some (fun _ => None) ex_builtins ex_verify
  (fun _ _ db => (n_local (node db), None)) (fun _ db => (n_local (node db), (200, BCapsule ""))) ex_api ex_options).
Definition ex_form : list (string * string) := [("csrf_token", "csrf"); ("name", "nas"); ("address", "192.168.1.20")].
Definition ex_new_service : WebRequest := ex_post ["services"; "new"] [("kydns_session", "sid")] ex_form.
Lemma ex_sessions_wf role admin : sessions_wf (ww_sessions (ex_web_world role admin)).
Proof. destruct role, admin; (split; [by vm_compute|]); intros id x Hx; unfold ex_web_world, Create, with_byID in Hx; cbn [byID fst ww_sessions] in Hx; apply lookup_insert_Some in Hx as [[<- <-]|[_ Hx]]; done. Qed.
Example ex_post_saved : rp_Body (ex_serve ex_web_env ex_new_service (ex_web_world RolePrimary true)).2 = BRedirect "/services".
Proof. vm_compute. reflexivity. Qed.
Lemma changes_need_credentials_witness : let w := ex_web_world RolePrimary true in authorized ex_sha ex_options ex_web_env ex_new_service w.
Proof.
  intros w. apply (changes_need_credentials ex_backup ex_url_parse ex_lookup ex_IsDomainName ex_names.2 ex_Fqdn ex_sha Some (fun _ => None) ex_builtins ex_verify
    (fun _ _ db => (n_local (node db), None)) (fun _ db => (n_local (node db), (200, BCapsule ""))) ex_api ex_options); [apply ex_sessions_wf|].
  intros H. apply (f_equal (fun a => length (c_services (conf (db_of a))))) in H. vm_compute in H. discriminate H.
Defined.
Lemma replica_serves_read_only_witness : let w := ex_web_world RoleReplica true in
  same_shared (ww_api w) (ww_api (ex_serve ex_web_env ex_new_service w).1) /\
  same_shared (ww_api w) (ww_api (ex_serve ex_web_env (ex_post ["replication"; "promote"] [("kydns_session", "sid")] [("csrf_token", "csrf"); ("confirm", "1")]) w).1).
Proof.
  intros w. split; apply (replica_serves_read_only ex_backup ex_url_parse ex_lookup ex_IsDomainName ex_names.2 ex_Fqdn ex_sha Some (fun _ => None) ex_builtins ex_verify
    (fun _ _ db => (n_local (node db), None)) (fun _ db => (n_local (node db), (200, BCapsule ""))) ex_api ex_options); (apply ex_sessions_wf || reflexivity).
Defined.
Definition ex_login : WebRequest := ex_post ["login"] [] [("password", "correct horse")].
Lemma sessions_need_credentials_witness : let w := ex_web_world RolePrimary true in
  "sid-new" = we_id ex_web_env /\ (setup_ok ex_options ex_web_env ex_login w \/ password_ok ex_verify ex_login w \/ sso_login_ok ex_web_env ex_login w).
Proof.
  intros w. apply (sessions_need_credentials ex_backup ex_url_parse ex_lookup ex_IsDomainName ex_names.2 ex_Fqdn ex_sha Some (fun _ => None) ex_builtins ex_verify
    (fun _ _ db => (n_local (node db), None)) (fun _ db => (n_local (node db), (200, BCapsule ""))) ex_api ex_options); vm_compute; [reflexivity|eexists; reflexivity].
Defined.

(** A node with a record of its own, asked to move to another domain, with and without
    the typed confirmation; and a save of the DHCP form that leaves it off. *)
Definition ex_record_form : list (string * string) := [("csrf_token", "csrf"); ("name", "printer.home.lan"); ("type", "A"); ("value", "192.168.1.20")].
Definition ex_recorded : WebWorld := (ex_serve ex_web_env (ex_post ["records"; "new"] [("kydns_session", "sid")] ex_record_form) (ex_web_world RolePrimary true)).1.
Definition ex_server_form (domain confirm : string) : list (string * string) :=
  [("csrf_token", "csrf"); ("private_domain", domain); ("reverse_zones", "192.168.1.0/24"); ("upstreams", "9.9.9.9"); ("allow_query", "192.168.0.0/16"); ("ttl", "300"); ("cache_min_ttl", "30");
   ("cache_max_ttl", "3600"); ("negative_max_ttl", "60"); ("cache_entries", "1000"); ("discovery_interval", "60"); ("health_interval", "30"); ("health_timeout", "5"); ("health_workers", "8");
   ("confirm_rename", confirm)].
Definition ex_settings_post (domain confirm : string) : WebRequest := ex_post ["settings"; "server"] [("kydns_session", "sid")] (ex_server_form domain confirm).
Definition ex_dhcp_post : WebRequest := ex_post ["dhcp"; "settings"] [("kydns_session", "sid")] [("csrf_token", "csrf"); ("lease_seconds", "3600"); ("gateway", "192.168.1.1")].
Definition ex_post_server (r : WebRequest) : WebWorld * WebResponse := postServerSettings ex_url_parse ex_lookup ex_IsDomainName ex_names.2 ex_Fqdn ex_api ex_options ex_web_env r ex_recorded.
Definition ex_post_dhcp : WebWorld * WebResponse := postDHCPSettings ex_url_parse ex_lookup ex_IsDomainName ex_names.2 ex_Fqdn ex_api ex_options ex_web_env ex_dhcp_post ex_recorded.
Example ex_rename_unconfirmed : Records (web_db (ex_post_server (ex_settings_post "lab.lan" "")).1) = Records (web_db ex_recorded) /\
  r_Name <$> Records (web_db ex_recorded) = ["printer.home.lan."].
Proof. vm_compute. split; reflexivity. Qed.
Lemma records_move_only_when_confirmed_witness : r_Name <$> Records (web_db (ex_post_server (ex_settings_post "lab.lan" "lab.lan")).1) = ["printer.lab.lan."] /\
  exists plan, planZoneRename (Records (web_db ex_recorded)) "home.lan" "lab.lan" = Some plan /\ 0 < zr_Count plan /\ zr_Confirm plan = "lab.lan".
Proof.
  split; [vm_compute; reflexivity|].
  refine (proj2 (records_move_only_when_confirmed ex_url_parse ex_lookup ex_IsDomainName ex_names.2 ex_Fqdn ex_api ex_options ex_no_space ex_web_env (ex_settings_post "lab.lan" "lab.lan") ex_recorded _ _)).
  - vm_compute; repeat constructor.
  - intros H. apply (f_equal (fmap r_Name)) in H. vm_compute in H. discriminate H.
Defined.
Lemma settings_forms_keep_the_rest_witness : exists cur x y, liveSettings ex_options ex_recorded = Some cur /\
  liveSettings ex_options (ex_post_server (ex_settings_post "lab.lan" "lab.lan")).1 = Some x /\ with_dhcp x cur = x /\
  liveSettings ex_options ex_post_dhcp.1 = Some y /\ withoutDHCP y = withoutDHCP (Canonicalize cur).
Proof.
  destruct (liveSettings ex_options ex_recorded) as [cur|] eqn:E; [|exfalso; vm_compute in E; discriminate E].
  destruct (settings_forms_keep_the_rest ex_url_parse ex_lookup ex_IsDomainName ex_names.2 ex_Fqdn ex_api ex_options ex_web_env (ex_settings_post "lab.lan" "lab.lan") ex_recorded cur E) as [H _]; [vm_compute; discriminate|].
  destruct (settings_forms_keep_the_rest ex_url_parse ex_lookup ex_IsDomainName ex_names.2 ex_Fqdn ex_api ex_options ex_web_env ex_dhcp_post ex_recorded cur E) as [_ H']; [vm_compute; discriminate|].
  destruct H as (x & Hx & Px); [vm_compute; reflexivity|]. destruct H' as (y & Hy & Py); [vm_compute; reflexivity|].
  exists cur, x, y. repeat split; assumption.
Defined.

(** ** Single sign-on that is off *)
(** With the switch off and no identity linked, the sign-in page offers no single
    sign-on and starting one is refused, yet starting one to link an identity is
    answered with the cookies of a sign-in to anybody, and the callback never looks at
    the switch: whoever is an administrator at the configured provider is signed in,
    linked, and the switch is turned on. *)
Definition ex_oidc_nonce : OIDC := mkOIDC (fun _ => true) (fun _ _ code _ => Some (mkOAuthToken "at" (Some "jwt")))
  (fun _ _ => Some (mkIDToken (GenerateState [6; 7]) "u1" (Some ex_claims))) (fun _ _ => None).
Definition ex_sso_env : WebEnv := mkWebEnv ex_env "sid-new" "csrf-new" (fun p => Some p) [1; 2; 3] [4; 5] [6; 7] (fun _ => None) ex_oidc_nonce.
Definition ex_callback : WebRequest :=
  ex_get ["auth"; "sso"; "callback"] [(cookieSSOState, GenerateState [4; 5]); (cookieSSOVerifier, str (RawURLEncode [1; 2; 3])); (cookieSSONonce, GenerateState [6; 7])]
    [("code", "c"); ("state", GenerateState [4; 5])].
Lemma sso_off_signs_in : let w := ex_web_world RolePrimary true in
  sso_Enabled (GetSSOSettings (web_db w)) = false /\
  rp_Body (ex_serve ex_sso_env (ex_get ["auth"; "sso"; "login"] [] []) w).2 = BRedirect "/login?error=SSO+is+not+enabled" /\
  (fun c => (ck_Name c, ck_Value c)) <$> take 3 (rp_Cookies (ex_serve ex_sso_env (ex_get ["auth"; "sso"; "login"] [] [("link", "true")]) w).2) = wq_Cookies ex_callback /\
  let w' := (ex_serve ex_sso_env ex_callback w).1 in
  byID (ww_sessions w') !! "sid-new" = Some (mkSession "sid-new" "csrf-new" (seconds 100) (seconds 100)) /\
  sso_Enabled (GetSSOSettings (web_db w')) = true /\ SSOSub <$> n_admin (node (web_db w')) = Some "u1".
Proof. vm_compute. split_and!; reflexivity. Qed.

(** ** The Discovered screen *)
(** A record deeper in the zone, or in another one, whose first label is a lease's
    hostname marks the lease as shadowed, though the lease answers for its own name. *)
Definition ex_deep_record : DnsRecord := mkRecord 1 "nas.dev.home.lan." "A" "192.168.1.9" "".
Definition ex_lease_db : DB := mkDB (with_records conf0 [ex_deep_record] 1) node0.
Lemma shadowed_lease_still_answers :
  leaseRows true ex_lease_db [mkSourceLease "aa:bb:cc:dd:ee:ff" "192.168.1.50" "nas" 0] = Ok [mkLeaseRow "nas" "192.168.1.50" "aa:bb:cc:dd:ee:ff" true] /\
  exists s, Zone.Build (mkInput [] [] [ex_deep_record] [Zone.mkLease "nas" "192.168.1.50"] "home.lan." [] 0) = Ok s /\ Zone.Lookup s "" "nas.home.lan." = [mkRR "nas.home.lan." "A" "192.168.1.50"].
Proof. split; [vm_compute; reflexivity|]. eexists. split; vm_compute; reflexivity. Qed.
