(* ===== verification/Backup.v ===== *)
(** * Backups: [backup/backup.go], the audit log, the scheduled deposit

    What a recovery capsule of this node holds and what the service promises the
    routes, the scheduler and the command line.  The recovery client (pairing, key
    pinning, sealing, delivery, the schedule and the drill's sandbox) is a library: a
    record of its operations on the settings rows and the data directory it is handed.
    Making the SQLite snapshot is one of them; its reading is in [Drill]. *)
From S2P Require Import Prelude GoStr Store StoreNode Identity Config Json.

Definition ServiceName : string := "KyDNS".
Definition keyFile : string := "backup_key".
Definition settingKeyID : string := "kyrecovery_key_id".
Definition settingURL : string := "kyrecovery_url".

(** ** The audit log: [store/backup.go] *)
Record AuditEvent := mkAudit { au_Actor : string; au_Action : string; au_Resource : string; au_Details : string; au_IP : string; au_Outcome : string }.
#[export] Instance AuditEvent_eq_dec : EqDecision AuditEvent.
Proof. solve_decision. Defined.
(** The database with its append-only log, and the data directory. *)
Record BackupWorld := mkBW { bw_db : DB; bw_audit : list AuditEvent; bw_disk : Disk }.
Definition locals (w : BackupWorld) : gmap string string := n_local (node (bw_db w)).
Definition with_locals (l : gmap string string) (w : BackupWorld) : BackupWorld :=
  mkBW (mkDB (conf (bw_db w)) (set_local (node (bw_db w)) l)) (bw_audit w) (bw_disk w).
(** [writable]: whether the insert succeeds. *)
Definition RecordAudit (writable : bool) (a : AuditEvent) (w : BackupWorld) : BackupWorld * bool :=
  if writable then (mkBW (bw_db w) (bw_audit w ++ [a]) (bw_disk w), true) else (w, false).

(** ** The recovery client *)
Inductive lib_error := ErrKeyPinMissing | ErrNotPaired | ErrNoDestination | ErrKeyMismatch | ErrExist | ErrInProgress | ErrBadInterval | ErrRemote (msg : string)
  | ErrReceiptUnrecorded | ErrPrivateDestination | ErrLib (msg : string).
#[export] Instance lib_error_eq_dec : EqDecision lib_error.
Proof. solve_decision. Defined.
Record RecoveryKey := mkRKey { rk_ID : string; rk_Threshold : Z; rk_TotalShares : Z }.
Definition rkey0 : RecoveryKey := mkRKey "" 0 0.
Record CapsuleFile := mkCapsuleFile { cf_Path : string; cf_Data : string; cf_Mode : Z }.
Record Payload := mkPayload { pl_ServiceName : string; pl_AppVersion : string; pl_Files : list CapsuleFile; pl_Dependencies : JSON; pl_Recipe : JSON }.
Record CapsuleManifest := mkCapsuleManifest { cm_CapsuleID : string; cm_ServiceName : string; cm_Files : list string; cm_Recipe : JSON }.
Definition manifest0 : CapsuleManifest := mkCapsuleManifest "" "" [] JNull.
Record Check := mkCheck { ck_name : string; ck_passed : bool }.
Record DrillResult := mkDrillResult { dr_Passed : bool; dr_ErrorMessage : string; dr_Checks : list Check }.
Record RunResult := mkRun { ru_Manifest : CapsuleManifest }.
(** One node of the directory a capsule is opened into. *)
Inductive FsNode := FDir | FFile (content : string) | FOther.
(** What reading the pinned key's file gives, the one file of the data directory the
    library looks at; storing a key yields its new content. *)
Definition PubFile : Type := result disk_error string.
Record RecoveryLib := mkLib {
  lib_ValidateURL : string -> bool -> option lib_error;
  lib_ClaimPairing : string -> string -> result lib_error (RecoveryKey * string);
  lib_ParsePinRequest : string -> Z -> Z -> result lib_error RecoveryKey;
  lib_LoadRecoveryKey : PubFile -> gmap string string -> result lib_error RecoveryKey;
  lib_StoreRecoveryKey : RecoveryKey -> PubFile -> gmap string string -> option string * gmap string string * result lib_error unit;
  lib_StorePairing : string -> string -> gmap string string -> gmap string string * result lib_error unit;
  lib_LoadPairing : PubFile -> gmap string string -> string -> result lib_error string;
  lib_ClearPairing : gmap string string -> gmap string string * result lib_error unit;
  lib_HasPairing : gmap string string -> bool;
  lib_LastDeposit : gmap string string -> result lib_error (option string);
  lib_ListLocalCopies : string -> result lib_error (list string);
  lib_SetInterval : Z -> gmap string string -> gmap string string * result lib_error unit;
  lib_Interval : Z -> gmap string string -> result lib_error Z;
  lib_NextRun : Z -> gmap string string -> result lib_error (option Z);
  lib_Seal : Payload -> RecoveryKey -> result lib_error (string * CapsuleManifest);
  lib_Run : result lib_error Payload -> PubFile -> gmap string string -> gmap string string * (RunResult * option lib_error);
  lib_Drill : Payload -> (gmap string FsNode -> CapsuleManifest -> list Check) -> result lib_error DrillResult;
  lib_Outcome : RunResult -> option lib_error -> string * string * string;
  lib_AuditSafe : string -> string;
  lib_error_text : lib_error -> string;
  lib_MaxInterval : Z;
  lib_recovery_pub : string }.

Section Service.
Context (lib : RecoveryLib) (cfg : Config) (Version : string).
(** The copy SQLite makes of the live database, and the YAML of the three keys a
    capsule's configuration carries. *)
Context (SQLiteSnapshot : DB -> option string) (Marshal : string -> string -> string -> string).
Implicit Types (w : BackupWorld).
Definition pub w : PubFile := ReadFile (lib_recovery_pub lib) (bw_disk w).

(** ** Collect *)
Definition db_member : string := "data/kydns.db".
Definition key_member : string := "data/" +:+ keyFile.
Definition config_member : string := "config/kydns.yaml".
Definition node_key_member : string := "data/node_key".
Definition recovery_member : string := "data/recovery.pub".
Definition optional_members : list (string * string) := [(node_key_member, node_key_file); (recovery_member, lib_recovery_pub lib)].
Definition jstrings (l : list string) : JSON := JArray (JString <$> l).
(** The members that are there; a file that is there but unreadable fails the capsule. *)
Fixpoint optional_files (ms : list (string * string)) (d : Disk) : result lib_error (list CapsuleFile) :=
  match ms with
  | [] => Ok []
  | (path, src) :: ms =>
      match ReadFile src d with
      | Err NotExist => optional_files ms d
      | Err _ => Err (ErrLib src)
      | Ok b => rest <-? optional_files ms d ;; Ok (mkCapsuleFile path b 384 :: rest)
      end
  end.
Definition recipe (required : list string) : JSON :=
  JObject [("check_sqlite_integrity", JBool true); ("sqlite_paths", jstrings [db_member]); ("required_files", jstrings required)].
Definition Collect w : result lib_error Payload :=
  match SQLiteSnapshot (bw_db w) with
  | None => Err (ErrLib "snapshot")
  | Some db =>
      match ReadFile keyFile (bw_disk w) with
      | Err _ => Err (ErrLib "required backup member")
      | Ok backupKey =>
          let listens := (dc_Listen (cf_DNS cfg), adc_Listen (cf_Admin cfg)) in
          let files := [mkCapsuleFile db_member db 384; mkCapsuleFile key_member backupKey 384; mkCapsuleFile config_member (Marshal (cf_DataDir cfg) listens.1 listens.2) 384] in
          opt <-? optional_files optional_members (bw_disk w) ;;
          let files := files ++ opt in
          Ok (mkPayload ServiceName Version files (JObject [("ports", jstrings [listens.1; listens.2])]) (recipe (cf_Path <$> files)))
      end
  end.

(** ** Operations *)
Definition svcRun w : BackupWorld * (RunResult * option lib_error) :=
  let '(l, res) := lib_Run lib (Collect w) (pub w) (locals w) in (with_locals l w, res).
Definition Export w : result (lib_error * CapsuleManifest) (string * CapsuleManifest) :=
  match lib_LoadRecoveryKey lib (pub w) (locals w) with
  | Err e => Err (e, manifest0)
  | Ok key => match Collect w with
              | Err e => Err (e, manifest0)
              | Ok p => match lib_Seal lib p key with Err e => Err (e, manifest0) | Ok x => Ok x end
              end
  end.
Definition with_pub (content : option string) w : BackupWorld :=
  match content with
  | None => w
  | Some c => let d := bw_disk w in mkBW (bw_db w) (bw_audit w) (mkDisk (<[lib_recovery_pub lib := c]> (dk_files d)) (dk_unreadable d) (dk_unwritable d))
  end.
Definition store_key (key : RecoveryKey) w : BackupWorld * result lib_error unit :=
  let '(content, l, res) := lib_StoreRecoveryKey lib key (pub w) (locals w) in (with_pub content (with_locals l w), res).
(** The key is returned with the error, as the audit row names it. *)
Definition svcPair (url code : string) w : BackupWorld * (RecoveryKey * option lib_error) :=
  match lib_ClaimPairing lib url code with
  | Err e => (w, (rkey0, Some e))
  | Ok (key, token) =>
      match store_key key w with
      | (w, Err e) => (w, (key, Some e))
      | (w, Ok _) => let '(l, res) := lib_StorePairing lib url token (locals w) in (with_locals l w, (key, match res with Err e => Some e | Ok _ => None end))
      end
  end.
Definition svcPinKey (publicKey : string) (k n : Z) w : BackupWorld * (RecoveryKey * option lib_error) :=
  match lib_ParsePinRequest lib publicKey k n with
  | Err e => (w, (rkey0, Some e))
  | Ok key => let '(w, res) := store_key key w in (w, (key, match res with Err e => Some e | Ok _ => None end))
  end.
Definition svcUnpair w : BackupWorld * option lib_error :=
  let '(l, res) := lib_ClearPairing lib (locals w) in (with_locals l w, match res with Err e => Some e | Ok _ => None end).
Definition SetSchedule (sec : Z) w : BackupWorld * (Z * option lib_error) :=
  match lib_SetInterval lib sec (locals w) with
  | (l, Err e) => (with_locals l w, (0, Some e))
  | (l, Ok _) => let w := with_locals l w in
                 (w, match lib_Interval lib (cf_BackupDepositInterval cfg) (locals w) with Err e => (0, Some e) | Ok d => (d, None) end)
  end.

(** ** Status *)
Record BackupStatus := mkBStatus {
  bs_KeyPinned : bool; bs_RecoveryKeyID : string; bs_Threshold : Z; bs_TotalShares : Z; bs_KeyPinMissing : bool; bs_Paired : bool; bs_RecoveryURL : string; bs_AllowPrivate : bool;
  bs_LastDeposit : option string; bs_LocalDir : string; bs_LocalKeep : Z; bs_LocalCopies : list string; bs_IntervalSec : Z; bs_NextRun : option Z; bs_HasDestination : bool }.
(** What is pinned: the key with its file, a pin whose file is missing or another's, or
    nothing. *)
Inductive PinState := Pinned (k : RecoveryKey) | PinBroken | NotPinned.
Definition pin_state w : result lib_error PinState :=
  match lib_LoadRecoveryKey lib (pub w) (locals w) with
  | Ok key => Ok (Pinned key)
  | Err (ErrKeyPinMissing | ErrKeyMismatch) => Ok PinBroken
  | Err ErrNotPaired =>
      match locals w !! settingKeyID with Some pinned => Ok (if bool_decide (pinned = "") then NotPinned else PinBroken) | None => Ok NotPinned end
  | Err e => Err e
  end.
Definition svcStatus w : result lib_error BackupStatus :=
  pin <-? pin_state w ;;
  let paired := lib_HasPairing lib (locals w) in
  let url := if paired then default "" (locals w !! settingURL) else "" in
  last <-? lib_LastDeposit lib (locals w) ;;
  copies <-? (if bool_decide (cf_BackupDir cfg = "") then Ok [] else lib_ListLocalCopies lib (cf_BackupDir cfg)) ;;
  interval <-? lib_Interval lib (cf_BackupDepositInterval cfg) (locals w) ;;
  next <-? lib_NextRun lib (cf_BackupDepositInterval cfg) (locals w) ;;
  let key := match pin with Pinned k => k | _ => rkey0 end in
  Ok (mkBStatus (match pin with NotPinned => false | _ => true end) (rk_ID key) (rk_Threshold key) (rk_TotalShares key) (match pin with PinBroken => true | _ => false end)
        paired url (cf_BackupAllowPrivateRecovery cfg) last (cf_BackupDir cfg) (cf_BackupKeep cfg) copies (Z.quot interval nanos_per_sec) next
        (paired || negb (bool_decide (cf_BackupDir cfg = "")))).

(** ** The scheduler: [app/serve.go] *)
Definition backupLoopOnce (now : Z) (writable : bool) w : BackupWorld :=
  match svcStatus w with
  | Err _ => w
  | Ok status =>
      match bs_NextRun status with
      | None => w
      | Some next =>
          if now <? next then w
          else
            let '(w, (res, err)) := svcRun w in
            if (bool_decide (err = Some ErrNotPaired) && negb (bs_KeyPinned status)) || bool_decide (err = Some ErrNoDestination) then w
            else let '(action, outcome, details) := lib_Outcome lib res err in
                 (RecordAudit writable (mkAudit "scheduler" action (lib_AuditSafe lib (cm_CapsuleID (ru_Manifest res))) details "" outcome) w).1
      end
  end.
End Service.
