(* ===== verification/Drill.v ===== *)
(** * The restore drill: [backup/drill.go], the snapshot checks of [store/backup.go]

    What the node checks of a capsule opened into a sandbox: the recipe of the manifest,
    each member it names, the database, the keys, the configuration and the pairing.
    SQLite's reading of a file, the key file's format and YAML are parameters; the
    sandbox is the tree of files the library extracts. *)
From S2P Require Import Prelude GoStr Store StoreNode Upstream Role Identity Config Json Backup.

(** ** [utf8.ValidString] *)
Definition cont (lo hi : Z) (c : ascii) : bool := (lo <=? code c) && (code c <=? hi).
Definition tail_byte (c : ascii) : bool := cont 128 191 c.
Fixpoint utf8_valid (l : list ascii) : bool :=
  match l with
  | [] => true
  | a :: l1 =>
      if code a <? 128 then utf8_valid l1
      else match l1 with
      | b :: l2 =>
          if cont 194 223 a then tail_byte b && utf8_valid l2
          else match l2 with
          | c :: l3 =>
              let second := if code a =? 224 then cont 160 191 b else if code a =? 237 then cont 128 159 b else tail_byte b in
              if cont 224 239 a then second && tail_byte c && utf8_valid l3
              else match l3 with
              | d :: l4 =>
                  let second := if code a =? 240 then cont 144 191 b else if code a =? 244 then cont 128 143 b else tail_byte b in
                  cont 240 244 a && second && tail_byte c && tail_byte d && utf8_valid l4
              | [] => false
              end
          | [] => false
          end
      | [] => false
      end
  end.
(** [fs.ValidPath]. *)
Definition ValidPath (name : string) : bool :=
  utf8_valid (bytes name) && (bool_decide (name = ".") || forallb (fun e => negb (bool_decide (e = "" \/ e = "." \/ e = ".."))) (Split name "/")).
Definition validDrillPath (name : string) : bool :=
  negb (bool_decide (name = ".")) && ValidPath name && negb (ContainsAny name (str ["\"%char; ":"%char; chr 0])).

(** ** The recipe *)
Inductive recipe_error := WrongService | NoIntegrity | BadManifestPath | BadList (field : string) | OmitsMember | OmitsDatabase.
(** A key of a decoded [map[string]any]: the last of its occurrences. *)
Definition map_get (k : string) (j : JSON) : option JSON := match j with JObject l => snd <$> List.find (fun kv => bool_decide (kv.1 = k)) (rev l) | _ => None end.
Fixpoint distinct_paths (seen l : list string) : bool :=
  match l with [] => true | p :: l => validDrillPath p && negb (bool_decide (p ∈ seen)) && distinct_paths (p :: seen) l end.
Fixpoint recipe_list (members out : list string) (vs : list JSON) : option (list string) :=
  match vs with
  | [] => Some out
  | JString name :: vs => if validDrillPath name && bool_decide (name ∈ members) && negb (bool_decide (name ∈ out)) then recipe_list members (out ++ [name]) vs else None
  | _ => None
  end.
Definition list_field (members : list string) (field : string) (j : JSON) : result recipe_error (list string) :=
  match map_get field j with
  | Some (JArray (v :: vs)) => match recipe_list members [] (v :: vs) with Some l => Ok l | None => Err (BadList field) end
  | _ => Err (BadList field)
  end.
Definition drillRecipe (m : CapsuleManifest) : result recipe_error (list string * list string) :=
  if negb (bool_decide (cm_ServiceName m = ServiceName)) then Err WrongService
  else match cm_Recipe m with
  | JObject _ =>
      match map_get "check_sqlite_integrity" (cm_Recipe m) with
      | Some (JBool true) =>
          let members := cm_Files m in
          if negb (distinct_paths [] members) then Err BadManifestPath
          else
            required <-? list_field members "required_files" (cm_Recipe m) ;;
            sqlitePaths <-? list_field members "sqlite_paths" (cm_Recipe m) ;;
            let mandatory := [db_member; key_member; config_member] ++ filter (fun n => n ∈ members) [node_key_member; recovery_member] in
            if negb (forallb (fun n => bool_decide (n ∈ required)) (mandatory ++ sqlitePaths)) then Err OmitsMember
            else if negb (bool_decide (db_member ∈ sqlitePaths)) then Err OmitsDatabase
            else Ok (required, sqlitePaths)
      | _ => Err NoIntegrity
      end
  | _ => Err NoIntegrity
  end.

(** ** The sandbox *)
(** A relative path of slashes, as a chain of the nodes it passes through. *)
Fixpoint regular_from (dir : gmap string FsNode) (at_ : string) (parts : list string) : bool :=
  match parts with
  | [] => true
  | p :: rest =>
      let at_ := if bool_decide (at_ = "") then p else at_ +:+ "/" +:+ p in
      match dir !! at_, rest with
      | Some (FFile _), [] => true
      | Some FDir, _ :: _ => regular_from dir at_ rest
      | _, _ => false
      end
  end.
Definition regularDrillFile (dir : gmap string FsNode) (name : string) : bool := regular_from dir "" (Split name "/").
Definition file_at (dir : gmap string FsNode) (name : string) : option string := match dir !! name with Some (FFile s) => Some s | _ => None end.


Section Checks.
Context (lib : RecoveryLib).
(** What SQLite says of a file: its integrity, how many of the two tables it has, and
    its settings rows; the reading of the key file; and the YAML of the configuration. *)
Context (integrity_check : string -> option string) (table_count : string -> Z) (snapshot_locals : string -> gmap string string).
Context (keyfile_Load : string -> Z -> option string) (Unmarshal : string -> option Config).

(** The pinned key's file under the sandbox's data directory. *)
Definition pub_at (dir : gmap string FsNode) : PubFile := match file_at dir ("data/" +:+ lib_recovery_pub lib) with Some s => Ok s | None => Err NotExist end.
Definition sqliteHeader : string := str (bytes "SQLite format 3" ++ [chr 0]).
Definition VerifySnapshot (content : option string) : bool :=
  match content with
  | None => false
  | Some s => negb (len s <? 100) && HasPrefix s sqliteHeader && bool_decide (integrity_check s = Some "ok") && negb (table_count s <? 2)
  end.
Definition drillPairing (dir : gmap string FsNode) (key : string) (hasPublicKey : bool) : bool :=
  match file_at dir db_member with
  | None => false
  | Some db =>
      VerifySnapshot (Some db) &&
      (let settings := snapshot_locals db in
       let present k := bool_decide (is_Some (settings !! k)) in
       let pinned := present settingKeyID in
       negb (pinned && negb hasPublicKey) &&
       (if pinned || hasPublicKey then
          match lib_LoadRecoveryKey lib (pub_at dir) settings with
          | Ok k => (2 <=? rk_Threshold k) && (rk_Threshold k <=? rk_TotalShares k) && (rk_TotalShares k <=? 255)
          | Err _ => false
          end
        else true) &&
       (if negb (present settingURL) && negb (present "kyrecovery_token_enc") then true
        else match lib_LoadPairing lib (pub_at dir) settings key with Ok token => negb (bool_decide (TrimSpace token = "")) | Err _ => false end))
  end.
Definition configuration_ok (content : option string) : bool :=
  match content with
  | None => false
  | Some raw =>
      match Unmarshal raw with
      | None => false
      | Some c => negb (bool_decide (cf_DataDir c = "")) && splits (dc_Listen (cf_DNS c)) && splits (adc_Listen (cf_Admin c))
      end
  end.
(** The checks in order; a failure of the first four stops the drill. *)
Fixpoint sqlite_checks (dir : gmap string FsNode) (paths : list string) : list Check * bool :=
  match paths with
  | [] => ([], true)
  | p :: rest => if VerifySnapshot (file_at dir p) then let '(cs, ok) := sqlite_checks dir rest in (mkCheck "sqlite integrity" true :: cs, ok) else ([mkCheck "sqlite integrity" false], false)
  end.
Definition drillChecks (dir : gmap string FsNode) (opened : CapsuleManifest) : list Check :=
  match drillRecipe opened with
  | Err _ => [mkCheck "verification recipe" false]
  | Ok (required, sqlitePaths) =>
      mkCheck "verification recipe" true ::
      if negb (forallb (regularDrillFile dir) required) then [mkCheck "required files" false]
      else mkCheck "required files" true ::
      let '(cs, ok) := sqlite_checks dir sqlitePaths in
      cs ++
      (if negb ok then []
       else match file_at dir key_member ≫= (fun raw => keyfile_Load raw 32) with
       | None => [mkCheck "backup key" false]
       | Some key =>
           [mkCheck "backup key" true; mkCheck "configuration" (configuration_ok (file_at dir config_member))] ++
           (if bool_decide (node_key_member ∈ required) then
              [mkCheck "node identity" (match file_at dir node_key_member with Some raw => len raw =? SeedSize | None => false end)] else []) ++
           [mkCheck "recovery pairing" (drillPairing dir key (bool_decide (recovery_member ∈ required)))]
       end)
  end.
Definition passed (cs : list Check) : bool := forallb ck_passed cs.

(** ** What a recipe must say *)
Lemma recipe_list_spec members out vs l : recipe_list members out vs = Some l -> NoDup out -> Forall (fun n => validDrillPath n = true /\ n ∈ members) out ->
  NoDup l /\ Forall (fun n => validDrillPath n = true /\ n ∈ members) l.
Proof.
  revert out. induction vs as [|v vs IH]; cbn; intros out; [by intros [= <-]|]. destruct v; try done. destruct (_ && _) eqn:B; [|done].
  apply andb_prop in B as [[B1 B2%bool_decide_eq_true]%andb_prop B3%negb_true_iff%bool_decide_eq_false]. intros H Hn Hf. apply (IH _ H).
  - apply NoDup_app. split; [done|]. split; [|apply NoDup_singleton]. by intros x Hx ->%list_elem_of_singleton.
  - apply Forall_app. split; [done|]. by repeat constructor.
Qed.
Lemma list_field_spec members field j l : list_field members field j = Ok l -> NoDup l /\ Forall (fun n => validDrillPath n = true /\ n ∈ members) l.
Proof.
  unfold list_field. destruct (map_get field j) as [[| | | | |[|v vs]|]|]; try done. destruct (recipe_list _ _ _) as [x|] eqn:E; [|done]. intros [= <-].
  by eapply recipe_list_spec; [exact E|constructor|constructor].
Qed.
Lemma drillRecipe_spec m required sqlitePaths : drillRecipe m = Ok (required, sqlitePaths) ->
  cm_ServiceName m = ServiceName /\ distinct_paths [] (cm_Files m) = true /\ NoDup required /\ Forall (fun n => validDrillPath n = true /\ n ∈ cm_Files m) required /\
  (forall n, n ∈ [db_member; key_member; config_member] -> n ∈ required) /\ (forall n, n ∈ [node_key_member; recovery_member] -> n ∈ cm_Files m -> n ∈ required) /\
  (forall n, n ∈ sqlitePaths -> n ∈ required) /\ db_member ∈ sqlitePaths.
Proof.
  unfold drillRecipe. case_bool_decide as S; cbn [negb]; [|done]. destruct (cm_Recipe m) as [| | | | | |kvs] eqn:J; try done. rewrite <- J.
  destruct (map_get "check_sqlite_integrity" _) as [[|[]| | | | |]|]; try done. destruct (distinct_paths [] (cm_Files m)) eqn:D; cbn [negb]; [|done].
  destruct (list_field _ "required_files" _) as [r|] eqn:R; [|done]. cbn [rbind]. destruct (list_field _ "sqlite_paths" _) as [q|] eqn:Q; [|done]. cbn [rbind].
  destruct (forallb _ _) eqn:F; cbn [negb]; [|done]. case_bool_decide as B; cbn [negb]; [|done]. intros [= <- <-]. apply list_field_spec in R as [R1 R2].
  rewrite forallb_forall in F. assert (G : forall n, n ∈ ([db_member; key_member; config_member] ++ filter (fun n => n ∈ cm_Files m) [node_key_member; recovery_member]) ++ q -> n ∈ r).
  { intros n Hn%list_elem_of_In. exact (bool_decide_eq_true_1 _ (F n Hn)). }
  repeat (split; [done|]). split; [|split; [|split; [|done]]].
  - intros n Hn. apply G. rewrite !elem_of_app. auto.
  - intros n Hn Hm. apply G. rewrite !elem_of_app. left. right. by apply list_elem_of_filter.
  - intros n Hn. apply G. rewrite !elem_of_app. auto.
Qed.
(** A valid path stays inside the directory: no component is empty, a dot or two. *)
Lemma valid_path_inside name : validDrillPath name = true -> Forall (fun e => e <> "" /\ e <> "." /\ e <> "..") (Split name "/") /\ contains_byte name ":" = false /\ contains_byte name "\" = false.
Proof.
  unfold validDrillPath, ValidPath, ContainsAny, contains_byte. rewrite bytes_str. intros [[H1%negb_true_iff%bool_decide_eq_false [_ V]%andb_prop]%andb_prop C%negb_true_iff]%andb_prop.
  apply orb_true_iff in V as [?%bool_decide_eq_true|V]; [done|]. split.
  - apply Forall_forall. intros e He%list_elem_of_In. rewrite forallb_forall in V. specialize (V e He). apply negb_true_iff, bool_decide_eq_false in V. tauto.
  - split; apply not_true_iff_false; intros [c [Hc ->%bool_decide_eq_true]]%existsb_exists;
      (apply not_true_iff_false in C; destruct C; apply existsb_exists; eexists; split; [exact Hc|by vm_compute]).
Qed.

(** ** What a passed drill means *)
Lemma sqlite_checks_spec dir paths cs ok : sqlite_checks dir paths = (cs, ok) ->
  if ok then cs = replicate (length paths) (mkCheck "sqlite integrity" true) /\ Forall (fun p => VerifySnapshot (file_at dir p) = true) paths else passed cs = false.
Proof.
  revert cs ok. induction paths as [|p paths IH]; cbn; intros cs ok; [by intros [= <- <-]|]. destruct (VerifySnapshot _) eqn:V; [|by intros [= <- <-]].
  destruct (sqlite_checks dir paths) as [cs' ok'] eqn:E. intros [= <- <-]. specialize (IH _ _ eq_refl). destruct ok'; [|done]. destruct IH as [-> IH]. split; [done|by constructor].
Qed.
Lemma passed_inv dir m : passed (drillChecks dir m) = true -> exists required sqlitePaths db raw key,
  drillRecipe m = Ok (required, sqlitePaths) /\ forallb (regularDrillFile dir) required = true /\ Forall (fun p => VerifySnapshot (file_at dir p) = true) sqlitePaths /\
  file_at dir db_member = Some db /\ file_at dir key_member = Some raw /\ keyfile_Load raw 32 = Some key /\ configuration_ok (file_at dir config_member) = true /\
  (node_key_member ∈ required -> exists seed, file_at dir node_key_member = Some seed /\ len seed = SeedSize) /\
  drillPairing dir key (bool_decide (recovery_member ∈ required)) = true.
Proof.
  unfold drillChecks. destruct (drillRecipe m) as [[required sqlitePaths]|] eqn:R; [|done]. destruct (forallb _ _) eqn:F; cbn [negb]; [|done].
  destruct (sqlite_checks dir sqlitePaths) as [cs ok] eqn:S. apply sqlite_checks_spec in S. unfold passed. cbn [forallb ck_passed andb]. rewrite forallb_app.
  destruct ok; cbn [negb]; [|fold (passed cs); by rewrite S]. destruct S as [_ S]. intros [_ H]%andb_prop.
  destruct (file_at dir key_member) as [raw|] eqn:K; [|done]. cbn [mbind option_bind] in H. destruct (keyfile_Load raw 32) as [key|] eqn:L; [|done].
  rewrite !forallb_app in H. cbn [forallb ck_passed] in H. apply andb_prop in H as [H1 H]. apply andb_prop in H as [H2 H3]. cbn in H1, H3. rewrite andb_true_r in H1, H3.
  assert (D : exists db, file_at dir db_member = Some db) by (unfold drillPairing in H3; destruct (file_at dir db_member) as [db|]; [by exists db|done]). destruct D as [db D].
  exists required, sqlitePaths, db, raw, key. repeat (split; [done|]). split; [|done].
  intros N. rewrite (bool_decide_true _ N) in H2. cbn in H2. destruct (file_at dir node_key_member) as [seed|]; [|done]. rewrite andb_true_r in H2. apply Z.eqb_eq in H2. by exists seed.
Qed.
(** C26: a drill that passes means the capsule restores the node.  Its manifest names this
    service; it holds a database that SQLite finds intact and that is KyDNS's, a backup
    key, a configuration with a data directory and two listen addresses; the node's key,
    if the manifest has one, is a key; a pin in the restored database comes with the
    pinned key, of a sane topology; and a pairing can be opened with the restored
    backup key. *)
Theorem passed_drill_restores dir m : passed (drillChecks dir m) = true ->
  cm_ServiceName m = ServiceName /\ (forall n, n ∈ [db_member; key_member; config_member] -> n ∈ cm_Files m /\ regularDrillFile dir n = true) /\
  exists db raw key, file_at dir db_member = Some db /\ VerifySnapshot (Some db) = true /\ file_at dir key_member = Some raw /\ keyfile_Load raw 32 = Some key /\
    (exists text c, file_at dir config_member = Some text /\ Unmarshal text = Some c /\ cf_DataDir c <> "" /\ is_Some (SplitHostPort (dc_Listen (cf_DNS c))) /\ is_Some (SplitHostPort (adc_Listen (cf_Admin c)))) /\
    (node_key_member ∈ cm_Files m -> exists seed, file_at dir node_key_member = Some seed /\ len seed = SeedSize) /\
    (is_Some (snapshot_locals db !! settingKeyID) \/ recovery_member ∈ cm_Files m ->
      exists k, lib_LoadRecoveryKey lib (pub_at dir) (snapshot_locals db) = Ok k /\ 2 <= rk_Threshold k <= rk_TotalShares k /\ rk_TotalShares k <= 255) /\
    (is_Some (snapshot_locals db !! settingURL) \/ is_Some (snapshot_locals db !! "kyrecovery_token_enc") ->
      exists token, lib_LoadPairing lib (pub_at dir) (snapshot_locals db) key = Ok token /\ TrimSpace token <> "").
Proof.
  intros H. apply passed_inv in H as (required & sqlitePaths & db & raw & key & R & F & S & D & K & L & C & N & P). apply drillRecipe_spec in R as (R1 & _ & _ & R4 & R5 & R6 & _ & R8).
  rewrite forallb_forall in F. rewrite Forall_forall in R4, S. assert (V : VerifySnapshot (Some db) = true) by (rewrite <- D; by apply S).
  split; [done|]. split; [intros n Hn%R5; split; [by apply R4|apply F; by apply list_elem_of_In]|]. exists db, raw, key. repeat (split; [done|]). split; [|split; [|split]].
  - unfold configuration_ok, splits in C. destruct (file_at dir config_member) as [text|]; [|done]. destruct (Unmarshal text) as [c|] eqn:U; [|done].
    apply andb_prop in C as [[C1%negb_true_iff%bool_decide_eq_false C2%bool_decide_eq_true]%andb_prop C3%bool_decide_eq_true]. by exists text, c.
  - intros Hn. apply N, R6; [|done]. by left.
  - intros Hp. unfold drillPairing in P. rewrite D in P. apply andb_prop in P as [_ P]. apply andb_prop in P as [P _]. apply andb_prop in P as [P1 P].
    assert (Hh : bool_decide (is_Some (snapshot_locals db !! settingKeyID)) || bool_decide (recovery_member ∈ required) = true).
    { destruct Hp as [Hp|Hp]; [by rewrite (bool_decide_true _ Hp)|]. rewrite (bool_decide_true (recovery_member ∈ required)), orb_true_r; [done|]. apply R6; [|done]. right. by left. }
    rewrite Hh in P. destruct (lib_LoadRecoveryKey _ _ _) as [k|]; [|done]. exists k. split; [done|]. apply andb_prop in P as [[?%Z.leb_le ?%Z.leb_le]%andb_prop ?%Z.leb_le]. lia.
  - intros Hp. unfold drillPairing in P. rewrite D in P. apply andb_prop in P as [_ P]. apply andb_prop in P as [_ P].
    assert (Hh : negb (bool_decide (is_Some (snapshot_locals db !! settingURL))) && negb (bool_decide (is_Some (snapshot_locals db !! "kyrecovery_token_enc"))) = false).
    { destruct Hp as [Hp|Hp]; rewrite (bool_decide_true _ Hp); [done|by rewrite andb_false_r]. }
    rewrite Hh in P. destruct (lib_LoadPairing _ _ _ _) as [token|]; [|done]. exists token. split; [done|]. by apply negb_true_iff, bool_decide_eq_false in P.
Qed.

(** ** What the node collects passes its own drill *)
(** The tree the members of a capsule are extracted to, and its manifest. *)
Definition extract (fs : list CapsuleFile) : gmap string FsNode :=
  <["data" := FDir]> (<["config" := FDir]> (list_to_map ((fun f => (cf_Path f, FFile (cf_Data f))) <$> fs))).
Definition manifest_of (id : string) (p : Payload) : CapsuleManifest := mkCapsuleManifest id (pl_ServiceName p) (cf_Path <$> pl_Files p) (pl_Recipe p).
Section Collected.
Context (cfg : Config) (Version : string) (SQLiteSnapshot : DB -> option string) (Marshal : string -> string -> string -> string).
Abbreviation Collect := (Collect lib cfg Version SQLiteSnapshot Marshal).
Definition opt_file (path : string) (s : option string) : list CapsuleFile := match s with Some b => [mkCapsuleFile path b 384] | None => [] end.
Definition read_opt (name : string) (d : Disk) (s : option string) : Prop := ReadFile name d = match s with Some b => Ok b | None => Err NotExist end.
Lemma Collect_inv w p : Collect w = Ok p -> exists db key nk rp, SQLiteSnapshot (bw_db w) = Some db /\ ReadFile keyFile (bw_disk w) = Ok key /\
  read_opt node_key_file (bw_disk w) nk /\ read_opt (lib_recovery_pub lib) (bw_disk w) rp /\
  let files := [mkCapsuleFile db_member db 384; mkCapsuleFile key_member key 384; mkCapsuleFile config_member (Marshal (cf_DataDir cfg) (dc_Listen (cf_DNS cfg)) (adc_Listen (cf_Admin cfg))) 384]
    ++ opt_file node_key_member nk ++ opt_file recovery_member rp in
  pl_ServiceName p = ServiceName /\ pl_Files p = files /\ pl_Recipe p = recipe (cf_Path <$> files).
Proof.
  unfold Backup.Collect. destruct (SQLiteSnapshot _) as [db|]; [|done]. destruct (ReadFile keyFile _) as [key|]; [|done]. unfold optional_members, read_opt. cbn [optional_files].
  destruct (ReadFile node_key_file _) as [nk|[]]; try done; (destruct (ReadFile (lib_recovery_pub lib) _) as [rp|[]]; try done); cbn [rbind]; intros [= <-];
    [exists db, key, (Some nk), (Some rp)|exists db, key, (Some nk), None|exists db, key, None, (Some rp)|exists db, key, None, None]; done.
Qed.
Lemma assembled id db raw conf nk rp :
  let files := [mkCapsuleFile db_member db 384; mkCapsuleFile key_member raw 384; mkCapsuleFile config_member conf 384] ++ opt_file node_key_member nk ++ opt_file recovery_member rp in
  let paths := cf_Path <$> files in let dir := extract files in
  drillRecipe (mkCapsuleManifest id ServiceName paths (recipe paths)) = Ok (paths, [db_member]) /\ forallb (regularDrillFile dir) paths = true /\
  file_at dir db_member = Some db /\ file_at dir key_member = Some raw /\ file_at dir config_member = Some conf /\ file_at dir node_key_member = nk /\ file_at dir recovery_member = rp /\
  bool_decide (node_key_member ∈ paths) = bool_decide (is_Some nk) /\ bool_decide (recovery_member ∈ paths) = bool_decide (is_Some rp).
Proof. destruct nk as [nk|], rp as [rp|]; split_and!; vm_compute; reflexivity. Qed.
(** what a node backs up restores.  If SQLite's copy is intact and holds the rows of
    the live database, the backup key's file is well formed, the configuration is one
    that loads and YAML reads back what it wrote, the node's key is whole, a pin has its
    key, of a sane topology, and a pairing can be opened, then the capsule the service
    collects, opened into a sandbox, passes every check of the drill. *)
Theorem collected_capsule_passes w p id : Collect w = Ok p ->
  lib_recovery_pub lib = "recovery.pub" ->
  (forall db, SQLiteSnapshot (bw_db w) = Some db -> VerifySnapshot (Some db) = true /\ snapshot_locals db = locals w) ->
  (forall raw, ReadFile keyFile (bw_disk w) = Ok raw -> is_Some (keyfile_Load raw 32)) ->
  (exists c, Unmarshal (Marshal (cf_DataDir cfg) (dc_Listen (cf_DNS cfg)) (adc_Listen (cf_Admin cfg))) = Some c /\
    cf_DataDir c = cf_DataDir cfg /\ dc_Listen (cf_DNS c) = dc_Listen (cf_DNS cfg) /\ adc_Listen (cf_Admin c) = adc_Listen (cf_Admin cfg)) ->
  cf_DataDir cfg <> "" -> splits (dc_Listen (cf_DNS cfg)) = true -> splits (adc_Listen (cf_Admin cfg)) = true ->
  (forall seed, ReadFile node_key_file (bw_disk w) = Ok seed -> len seed = SeedSize) ->
  (is_Some (locals w !! settingKeyID) -> is_ok (pub lib w) = true) ->
  (is_ok (pub lib w) = true -> exists k, lib_LoadRecoveryKey lib (pub lib w) (locals w) = Ok k /\ 2 <= rk_Threshold k <= rk_TotalShares k /\ rk_TotalShares k <= 255) ->
  (forall raw key, ReadFile keyFile (bw_disk w) = Ok raw -> keyfile_Load raw 32 = Some key -> is_Some (locals w !! settingURL) \/ is_Some (locals w !! "kyrecovery_token_enc") ->
    exists token, lib_LoadPairing lib (pub lib w) (locals w) key = Ok token /\ TrimSpace token <> "") ->
  passed (drillChecks (extract (pl_Files p)) (manifest_of id p)) = true.
Proof.
  intros HC Hpub Hsql Hkey Hyaml Hdir Hl1 Hl2 Hseed Hpin Hrk Hpair. apply Collect_inv in HC as (db & raw & nk & rp & HS & HK & Hnk & Hrp & E1 & E2 & E3).
  destruct (Hsql db HS) as [V L]. destruct (Hkey raw HK) as [key K]. destruct Hyaml as (c & U & U1 & U2 & U3).
  assert (Cfg : configuration_ok (Some (Marshal (cf_DataDir cfg) (dc_Listen (cf_DNS cfg)) (adc_Listen (cf_Admin cfg)))) = true).
  { unfold configuration_ok. by rewrite U, U1, U2, U3, (bool_decide_false _ Hdir), Hl1, Hl2. }
  assert (Pub : pub lib w = match rp with Some s => Ok s | None => Err NotExist end) by exact Hrp.
  set (dir := extract (pl_Files p)). assert (Pairing : forall has, has = bool_decide (is_Some rp) -> file_at dir db_member = Some db -> pub_at dir = pub lib w -> drillPairing dir key has = true).
  { intros has Hh D P. unfold drillPairing. rewrite D, V, L, P. cbn [andb]. apply andb_true_intro. split; [apply andb_true_intro; split|].
    - apply negb_true_iff, not_true_iff_false. intros [H1%bool_decide_eq_true H2%negb_true_iff]%andb_prop. apply Hpin in H1. rewrite Pub in H1. destruct rp; [by subst has|done].
    - destruct (bool_decide _ || has) eqn:O; [|done]. assert (R : is_ok (pub lib w) = true).
      { apply orb_true_iff in O as [O%bool_decide_eq_true|O]; [by apply Hpin|]. rewrite Pub. subst has. by destruct rp. }
      destruct (Hrk R) as (k & -> & [B1 B2] & B3). rewrite !andb_true_iff, !Z.leb_le. lia.
    - destruct (negb _ && negb _) eqn:O; [done|]. destruct (Hpair raw key HK K) as (token & -> & T); [|by rewrite (bool_decide_false _ T)].
      apply andb_false_iff in O as [O|O]; apply negb_false_iff, bool_decide_eq_true in O; auto. }
  destruct (assembled id db raw (Marshal (cf_DataDir cfg) (dc_Listen (cf_DNS cfg)) (adc_Listen (cf_Admin cfg))) nk rp) as (A1 & A2 & A3 & A4 & A5 & A6 & A7 & A8 & A9).
  unfold drillChecks, manifest_of. rewrite E1, E3, E2, A1. cbv zeta in A2, A3, A4, A5, A6, A7, A8, A9. subst dir. rewrite E2 in *.
  match type of A2 with forallb (regularDrillFile (extract ?fs)) _ = _ => set (files := fs) in * end. clearbody files. rewrite A2. cbn [negb sqlite_checks]. rewrite A3, V. cbn [negb app].
  rewrite A4. cbn [mbind option_bind]. rewrite K, A5, Cfg, A8, A9, A6. rewrite Pairing; [|done|exact A3|unfold pub_at; rewrite Hpub; change ("data/" +:+ "recovery.pub") with recovery_member; by rewrite A7, Pub].
  destruct nk as [seed|]; [|done]. unfold read_opt in Hnk. cbn. by rewrite (Hseed seed Hnk).
Qed.
End Collected.
End Checks.
Definition svcDrill (lib : RecoveryLib) (collected : result lib_error Payload) (checks : gmap string FsNode -> CapsuleManifest -> list Check) : result lib_error DrillResult :=
  match collected with Err e => Err e | Ok p => lib_Drill lib p checks end.

(** ** A concrete library and a paired node *)
Definition ex_lib : RecoveryLib := mkLib
  (fun url _ => if HasPrefix url "https://" then None else Some (ErrLib "scheme"))
  (fun _ code => if bool_decide (code = "123456") then Ok (mkRKey "key-1" 2 3, "token-1") else Err (ErrRemote "refused"))
  (fun pk k n => if (2 <=? k) && (k <=? n) then Ok (mkRKey pk k n) else Err (ErrLib "topology"))
  (fun file l => match file, l !! settingKeyID with Ok s, Some id => if bool_decide (s = id) then Ok (mkRKey id 2 3) else Err ErrKeyMismatch | _, _ => Err ErrNotPaired end)
  (fun k _ l => match l !! settingKeyID with
    | Some id => if bool_decide (id = rk_ID k) then (None, l, Ok tt) else (None, l, Err ErrExist)
    | None => (Some (rk_ID k), <[settingKeyID := rk_ID k]> l, Ok tt)
    end)
  (fun url token l => (<[settingURL := url]> (<["kyrecovery_token_enc" := "sealed:" +:+ token]> l), Ok tt))
  (fun _ l _ => match l !! "kyrecovery_token_enc" with Some t => Ok t | None => Err ErrNotPaired end)
  (fun l => (delete settingURL (delete "kyrecovery_token_enc" l), Ok tt))
  (fun l => bool_decide (is_Some (l !! settingURL))) (fun _ => Ok None) (fun _ => Ok [])
  (fun sec l => if sec <? 0 then (l, Err ErrBadInterval) else (<["interval" := itoa sec]> l, Ok tt))
  (fun d l => Ok (match l !! "interval" ≫= Atoi with Some n => seconds n | None => d end)) (fun _ _ => Ok None)
  (fun p k => Ok ("sealed", mkCapsuleManifest "capsule-1" (pl_ServiceName p) (cf_Path <$> pl_Files p) (pl_Recipe p)))
  (fun p file l => (l, (mkRun manifest0, Some ErrNoDestination)))
  (fun p checks => let cs := checks (extract (pl_Files p)) (manifest_of "capsule-1" p) in Ok (mkDrillResult (passed cs) "" cs))
  (fun _ err => match err with Some _ => ("backup.deposit_failed", "failure", "{}") | None => ("backup.deposited", "success", "{}") end)
  (fun s => s) (fun _ => "error") (seconds 86400) "recovery.pub".
Definition ex_backup_config : Config := mkConfig (mkDNSC ":53" "home.arpa" [] [] [] false 60 5 3600 300 10000 false false) (mkAdminC "127.0.0.1:8053") (mkDiscC "" 30) (mkHealthC 30 5 8)
  "/data" 0 "" 7 false (mkRC "" "") false [].
Definition ex_backup_disk : Disk := mkDisk (<["backup_key" := "k"]> (<["node_key" := ex_seed32]> ∅)) (fun _ => false) (fun _ => false).
Definition ex_unpaired : BackupWorld := mkBW db0 [] ex_backup_disk.
Definition ex_paired : BackupWorld := (svcPair ex_lib "https://recovery.example" "123456" ex_unpaired).1.
Definition ex_snapshot_file : string := str (bytes sqliteHeader ++ replicate 100 "x"%char).
Definition ex_keyfile (raw : string) (n : Z) : option string := if bool_decide (raw = "k") then Some raw else None.
Definition ex_yaml (s : string) : option Config := if bool_decide (s = "/data|:53|127.0.0.1:8053") then Some ex_backup_config else None.
Definition ex_marshal (a b c : string) : string := a +:+ "|" +:+ b +:+ "|" +:+ c.
Abbreviation ex_checks := (drillChecks ex_lib (fun _ => Some "ok") (fun _ => 2) (fun _ => locals ex_paired) ex_keyfile ex_yaml).
Definition ex_collected : result lib_error Payload := Collect ex_lib ex_backup_config "v1" (fun _ => Some ex_snapshot_file) ex_marshal ex_paired.
Lemma collected_capsule_passes_witness : exists p, ex_collected = Ok p /\ length (pl_Files p) = 5%nat /\ passed (ex_checks (extract (pl_Files p)) (manifest_of "c" p)) = true.
Proof.
  destruct ex_collected as [p|] eqn:E; [|exfalso; vm_compute in E; discriminate E]. exists p. split; [reflexivity|]. split.
  { apply (f_equal (fun x => match x with Ok p => length (pl_Files p) | Err _ => 0%nat end)) in E. vm_compute in E. symmetry. exact E. }
  apply (collected_capsule_passes ex_lib (fun _ => Some "ok") (fun _ => 2) (fun _ => locals ex_paired) ex_keyfile ex_yaml ex_backup_config "v1" (fun _ => Some ex_snapshot_file) ex_marshal ex_paired p "c" E).
  - reflexivity.
  - intros db [= <-]. split; [vm_compute; reflexivity|reflexivity].
  - intros raw H. vm_compute in H. injection H as <-. exists "k". vm_compute. reflexivity.
  - exists ex_backup_config. split; [vm_compute; reflexivity|]. repeat split.
  - discriminate.
  - vm_compute. reflexivity.
  - vm_compute. reflexivity.
  - intros seed H. vm_compute in H. injection H as <-. vm_compute. reflexivity.
  - intros _. vm_compute. reflexivity.
  - intros _. exists (mkRKey "key-1" 2 3). split; [vm_compute; reflexivity|]. vm_compute. repeat split; discriminate.
  - intros raw key _ _ _. exists "sealed:token-1". split; [vm_compute; reflexivity|]. vm_compute. discriminate.
Defined.
Definition ex_dir : gmap string FsNode := match ex_collected with Ok p => extract (pl_Files p) | Err _ => ∅ end.
Definition ex_opened : CapsuleManifest := match ex_collected with Ok p => manifest_of "c" p | Err _ => manifest0 end.
Lemma passed_drill_restores_witness : exists db, file_at ex_dir db_member = Some db /\ (is_Some (locals ex_paired !! settingURL) -> exists token, lib_LoadPairing ex_lib (pub_at ex_lib ex_dir) (locals ex_paired) "k" = Ok token /\ TrimSpace token <> "").
Proof.
  destruct (passed_drill_restores ex_lib (fun _ => Some "ok") (fun _ => 2) (fun _ => locals ex_paired) ex_keyfile ex_yaml ex_dir ex_opened) as (_ & _ & db & raw & key & D & _ & _ & _ & _ & _ & _ & P).
  - vm_compute. reflexivity.
  - exists db. split; [exact D|]. intros H. destruct (P (or_introl H)) as (token & T & N). exists token. split; [exact T|exact N].
Defined.
