(* ===== verification/BackupApi.v ===== *)
(** * The two transports of backups: [adminapi/backup.go], [web/backup.go]

    The routes of the JSON API and the forms of the settings page over one service, with
    the audit row each attempt leaves.  A reply keeps its status, code and the sentence
    it shows; the text of library errors and their shortening for the log are the
    library's. *)
From S2P Require Import Prelude GoStr Model Store StoreNode Identity Config Json AdminDto AdminApi Backup Drill Session SSO WebPages Web.

Inductive bk_error := BLib (e : lib_error) | BText (s : string).
(** The sentences both transports answer with. *)
Inductive bk_message := MPinMissing | MNoKey | MNoDestination | MOtherKey | MInProgress | MSafe (text : string) | MRaw (text : string) | MUnavailable | MAuditFailed.
#[export] Instance bk_message_eq_dec : EqDecision bk_message.
Proof. solve_decision. Defined.
Inductive BkReply := RpErr (status : Z) (code field : string) (m : bk_message) | RpJson (status : Z) (body : JSON) | RpStatus (s : BackupStatus) | RpCapsule (raw id : string)
  | RpRun (r : RunResult) | RpDrill (d : DrillResult) | RpDecode (r : Response).
Inductive BkPage := PgRedirect | PgError (m : bk_message) | PgHttp (status : Z) (m : bk_message) | PgCapsule (raw id : string).
Definition FormatBool (b : bool) : string := if b then "true" else "false".
Definition private_refusal : string := "recovery URL cannot target a private or reserved address; set KYDNS_BACKUP_ALLOW_PRIVATE_RECOVERY for a KyRecovery on your own network".
Definition unpaired_details : string := "url and sealed token rows removed; key pin kept".

Section Transports.
Context (lib : RecoveryLib) (cfg : Config) (Version : string) (SQLiteSnapshot : DB -> option string) (Marshal : string -> string -> string -> string).
Context (checks : gmap string FsNode -> CapsuleManifest -> list Check).
(** Whether the row can be written, and where the request came from. *)
Context (writable : bool) (ip : string).
Implicit Types (w : BackupWorld).
Abbreviation Safe := (lib_AuditSafe lib).
Definition error_text (e : bk_error) : string := match e with BLib e => lib_error_text lib e | BText s => s end.
Definition opt_error (e : option lib_error) : option bk_error := BLib <$> e.

(** ** adminapi/backup.go *)
Definition backupStatusCode (e : lib_error) : Z * bk_message :=
  match e with
  | ErrKeyPinMissing => (412, MPinMissing)
  | ErrNotPaired => (412, MNoKey)
  | ErrNoDestination => (412, MNoDestination)
  | ErrKeyMismatch | ErrExist => (409, MOtherKey)
  | ErrInProgress => (409, MInProgress)
  | ErrBadInterval => (400, MSafe (Safe (lib_error_text lib e)))
  | ErrRemote _ => (502, MSafe (Safe (lib_error_text lib e)))
  | _ => (500, MSafe (Safe (lib_error_text lib e)))
  end.
Definition backupFail (code : string) (e : lib_error) : BkReply := let '(status, m) := backupStatusCode e in RpErr status code "" m.
Definition outcomeOf (failed : bool) : string := if failed then "failure" else "success".
Definition backupAudit (action resource details outcome : string) w : BackupWorld * bool :=
  RecordAudit writable (mkAudit "admin" action (Safe resource) (Safe details) (Safe ip) outcome) w.
Definition pairURLError (raw : string) (allowPrivate : bool) : option bk_error :=
  match lib_ValidateURL lib raw allowPrivate with
  | Some ErrPrivateDestination => Some (BText private_refusal)
  | Some e => Some (BLib e)
  | None => None
  end.
Definition allow_text : string := " allow_private=" +:+ FormatBool (cf_BackupAllowPrivateRecovery cfg).
Definition with_error (details : string) (e : option bk_error) : string := match e with Some e => details +:+ " " +:+ error_text e | None => details end.

Definition api_status w : BackupWorld * BkReply :=
  match svcStatus lib cfg w with Err e => (w, backupFail "backup_status" e) | Ok s => (w, RpStatus s) end.
Definition api_pair (url code : string) w : BackupWorld * BkReply :=
  match pairURLError url (cf_BackupAllowPrivateRecovery cfg) with
  | Some e => ((backupAudit "backup.paired" "" (url +:+ allow_text +:+ " " +:+ error_text e) "failure" w).1, RpErr 400 "backup_pair" "recovery_url" (MRaw (error_text e)))
  | None =>
      let '(w, (key, err)) := svcPair lib url code w in
      let w := (backupAudit "backup.paired" (rk_ID key) (with_error (url +:+ allow_text) (opt_error err)) (outcomeOf (bool_decide (is_Some err))) w).1 in
      match err with
      | Some e => (w, backupFail "backup_pair" e)
      | None => (w, RpJson 200 (JObject [("paired", JBool true); ("recovery_key_id", JString (rk_ID key))]))
      end
  end.
Definition of_text (k n : Z) : string := itoa k +:+ "-of-" +:+ itoa n.
Definition api_pin_key (publicKey : string) (k n : Z) w : BackupWorld * BkReply :=
  let '(w, (key, err)) := svcPinKey lib publicKey k n w in
  let w := (backupAudit "backup.key_pinned" (rk_ID key) (with_error (of_text k n) (opt_error err)) (outcomeOf (bool_decide (is_Some err))) w).1 in
  match err with
  | Some e => (w, backupFail "backup_pin_key" e)
  | None => (w, RpJson 200 (JObject [("recovery_key_id", JString (rk_ID key)); ("threshold", JInt (rk_Threshold key)); ("total_shares", JInt (rk_TotalShares key))]))
  end.
Definition api_unpair w : BackupWorld * BkReply :=
  let '(w, err) := svcUnpair lib w in
  let w := (backupAudit "backup.unpaired" "" unpaired_details (outcomeOf (bool_decide (is_Some err))) w).1 in
  match err with Some e => (w, backupFail "backup_unpair" e) | None => (w, RpJson 200 (JObject [("unpaired", JBool true)])) end.
Definition api_schedule (sec : Z) w : BackupWorld * BkReply :=
  let '(w, (got, err)) := SetSchedule lib cfg sec w in
  let details := match err with Some e => itoa sec +:+ " " +:+ lib_error_text lib e | None => itoa (Z.quot got nanos_per_sec) end in
  let w := (backupAudit "backup.schedule" "" details (outcomeOf (bool_decide (is_Some err))) w).1 in
  match err with Some e => (w, backupFail "backup_schedule" e) | None => (w, RpJson 200 (JObject [("interval_sec", JInt (Z.quot got nanos_per_sec))])) end.
(** The row of a deposit is the library's own account of it. *)
Definition deposit_audit (res : RunResult) (err : option lib_error) w : BackupWorld :=
  let '(action, outcome, details) := lib_Outcome lib res err in
  (RecordAudit writable (mkAudit "admin" action (Safe (cm_CapsuleID (ru_Manifest res))) details (Safe ip) outcome) w).1.
Definition failed_run (err : option lib_error) : option lib_error := match err with Some ErrReceiptUnrecorded => None | _ => err end.
Definition api_deposit w : BackupWorld * BkReply :=
  let '(w, (res, err)) := svcRun lib cfg Version SQLiteSnapshot Marshal w in
  let w := deposit_audit res err w in
  match failed_run err with Some e => (w, backupFail "backup_run" e) | None => (w, RpRun res) end.
Definition api_export w : BackupWorld * BkReply :=
  match Export lib cfg Version SQLiteSnapshot Marshal w with
  | Err (e, m) => ((backupAudit "backup.export_failed" (cm_CapsuleID m) (lib_error_text lib e) "failure" w).1, backupFail "backup_export" e)
  | Ok (raw, m) =>
      match backupAudit "backup.exported" (cm_CapsuleID m) "" "success" w with
      | (w, false) => (w, RpErr 503 "audit_failed" "" MAuditFailed)
      | (w, true) => (w, RpCapsule raw (cm_CapsuleID m))
      end
  end.
Definition drill_outcome (d : result lib_error DrillResult) : string * string :=
  match d with
  | Err e => (lib_error_text lib e, "failure")
  | Ok r => if dr_Passed r then ("", "success") else (dr_ErrorMessage r, "failure")
  end.
Definition drill w : result lib_error DrillResult := svcDrill lib (Collect lib cfg Version SQLiteSnapshot Marshal w) checks.
Definition api_drill w : BackupWorld * BkReply :=
  let result := drill w in
  let '(details, outcome) := drill_outcome result in
  let w := (backupAudit "backup.drill" "" details outcome w).1 in
  match result with Err e => (w, backupFail "backup_drill" e) | Ok r => (w, RpDrill r) end.

(** The request bodies. *)
Definition pair_fields : list (Field (string * string)) :=
  [field "recovery_url" fst (fun b a => (b, a.2)) dec_string; field "pairing_code" snd (fun b a => (a.1, b)) dec_string].
Definition pin_fields : list (Field (string * Z * Z)) :=
  [field "public_key" (fun a => a.1.1) (fun b a => (b, a.1.2, a.2)) dec_string; field "threshold" (fun a => a.1.2) (fun b a => (a.1.1, b, a.2)) dec_int;
   field "total_shares" snd (fun b a => (a.1, b)) dec_int].
Definition schedule_fields : list (Field Z) := [field "interval_sec" id (fun b _ => b) dec_int].
(** A handler: the service if the API was built with one. *)
Definition api_backup (present : bool) (op : string) (r : ApiRequest) w : BackupWorld * BkReply :=
  if negb present then (w, RpErr 503 "backup_unavailable" "" MUnavailable)
  else if bool_decide (op = "status") then api_status w
  else if bool_decide (op = "pair-remote") then
    match decode (dec_struct pair_fields) ("", "") r with Err x => (w, RpDecode x) | Ok q => api_pair q.1 q.2 w end
  else if bool_decide (op = "pin-key") then
    match decode (dec_struct pin_fields) ("", 0, 0) r with Err x => (w, RpDecode x) | Ok q => api_pin_key q.1.1 q.1.2 q.2 w end
  else if bool_decide (op = "pairing") then api_unpair w
  else if bool_decide (op = "schedule") then
    match decode (dec_struct schedule_fields) 0 r with Err x => (w, RpDecode x) | Ok sec => api_schedule sec w end
  else if bool_decide (op = "deposit") then api_deposit w
  else if bool_decide (op = "export-capsule") then api_export w
  else api_drill w.

(** ** web/backup.go *)
Definition backupMessage (e : bk_error) : bk_message :=
  match e with
  | BLib ErrKeyPinMissing => MPinMissing
  | BLib ErrNotPaired => MNoKey
  | BLib ErrNoDestination => MNoDestination
  | BLib ErrKeyMismatch | BLib ErrExist => MOtherKey
  | BLib ErrInProgress => MInProgress
  | _ => MSafe (Safe (error_text e))
  end.
Definition backupError (e : bk_error) : BkPage := PgError (backupMessage e).
Definition auditBackup (action resource details : string) (err : option bk_error) w : BackupWorld :=
  (RecordAudit writable (mkAudit "admin" action (Safe resource) (Safe (with_error details err)) (Safe ip) (outcomeOf (bool_decide (is_Some err)))) w).1.
Definition or_redirect (err : option bk_error) w : BackupWorld * BkPage := (w, match err with Some e => backupError e | None => PgRedirect end).
Definition web_pair (url code : string) w : BackupWorld * BkPage :=
  match pairURLError url (cf_BackupAllowPrivateRecovery cfg) with
  | Some e => (auditBackup "backup.paired" "" (url +:+ allow_text) (Some e) w, backupError e)
  | None => let '(w, (key, err)) := svcPair lib url code w in or_redirect (opt_error err) (auditBackup "backup.paired" (rk_ID key) (url +:+ allow_text) (opt_error err) w)
  end.
Definition not_numbers : string := "threshold and total shares must be numbers".
Definition web_pin_key (publicKey threshold total : string) w : BackupWorld * BkPage :=
  match Atoi threshold, Atoi total with
  | Some k, Some n => let '(w, (key, err)) := svcPinKey lib publicKey k n w in or_redirect (opt_error err) (auditBackup "backup.key_pinned" (rk_ID key) (of_text k n) (opt_error err) w)
  | _, _ => (auditBackup "backup.key_pinned" "" (threshold +:+ "/" +:+ total) (Some (BText not_numbers)) w, backupError (BText not_numbers))
  end.
Definition web_unpair w : BackupWorld * BkPage :=
  let '(w, err) := svcUnpair lib w in or_redirect (opt_error err) (auditBackup "backup.unpaired" "" unpaired_details (opt_error err) w).
Definition web_schedule (raw : string) w : BackupWorld * BkPage :=
  let refuse := (auditBackup "backup.schedule" "" raw (Some (BLib ErrBadInterval)) w, backupError (BLib ErrBadInterval)) in
  match ParseInt raw with
  | None => refuse
  | Some minutes =>
      if (minutes <? 0) || (Z.quot (lib_MaxInterval lib) (seconds 60) <? minutes) then refuse
      else let '(w, (got, err)) := SetSchedule lib cfg (int64 (minutes * 60)) w in
           or_redirect (opt_error err) (auditBackup "backup.schedule" "" (itoa (Z.quot got nanos_per_sec)) (opt_error err) w)
  end.
Definition web_deposit w : BackupWorld * BkPage :=
  let '(w, (res, err)) := svcRun lib cfg Version SQLiteSnapshot Marshal w in or_redirect (opt_error (failed_run err)) (deposit_audit res err w).
Definition web_drill w : BackupWorld * BkPage :=
  let result := drill w in
  let '(details, outcome) := drill_outcome result in
  let w := (RecordAudit writable (mkAudit "admin" "backup.drill" "" (Safe details) (Safe ip) outcome) w).1 in
  match result with Err e => (w, backupError (BLib e)) | Ok _ => (w, PgRedirect) end.
Definition web_export (present : bool) w : BackupWorld * BkPage :=
  if negb present then (w, PgHttp 503 MUnavailable)
  else match Export lib cfg Version SQLiteSnapshot Marshal w with
  | Err (e, _) => (w, PgHttp (if bool_decide (e = ErrNotPaired \/ e = ErrKeyPinMissing \/ e = ErrKeyMismatch) then 412 else 500) (backupMessage (BLib e)))
  | Ok (raw, m) =>
      match RecordAudit writable (mkAudit "admin" "backup.exported" (cm_CapsuleID m) "" (Safe ip) "success") w with
      | (w, false) => (w, PgHttp 503 MAuditFailed)
      | (w, true) => (w, PgCapsule raw (cm_CapsuleID m))
      end
  end.
Definition web_backup (present : bool) (op : string) (r : WebRequest) w : BackupWorld * BkPage :=
  let v k := PostFormValue k r in
  if negb present then (w, backupError (BText "backup service is unavailable"))
  else if bool_decide (op = "pair") then web_pair (v "recovery_url") (v "pairing_code") w
  else if bool_decide (op = "pin-key") then web_pin_key (v "public_key") (v "threshold") (v "total_shares") w
  else if bool_decide (op = "unpair") then web_unpair w
  else if bool_decide (op = "schedule") then web_schedule (v "interval_minutes") w
  else if bool_decide (op = "deposit") then web_deposit w
  else web_drill w.

Lemma append_assoc (a b c : string) : a +:+ b +:+ c = (a +:+ b) +:+ c.
Proof. apply (inj bytes). by rewrite !bytes_app, app_assoc. Qed.

(** ** The service never writes the log, nor anything of the node but its settings rows *)
Definition same_log w w' : Prop := bw_audit w' = bw_audit w /\ conf (bw_db w') = conf (bw_db w) /\ node (bw_db w') = set_local (node (bw_db w)) (locals w').
#[local] Instance same_log_preorder : PreOrder same_log.
Proof.
  split; [intros w; split; [done|split; [done|unfold locals; by destruct (node (bw_db w))]]|]. intros a b c (A1 & A2 & A3) (B1 & B2 & B3).
  split; [congruence|]. split; [congruence|]. rewrite B3, A3. done.
Qed.
Lemma locals_log l w : same_log w (with_locals l w).
Proof. done. Qed.
Lemma pub_log c w : same_log w (with_pub lib c w).
Proof. destruct c; [|done]. split; [done|]. split; [done|]. unfold locals. cbn. by destruct (node (bw_db w)). Qed.
Lemma store_key_log key w : same_log w (store_key lib key w).1.
Proof. unfold store_key. destruct (lib_StoreRecoveryKey _ _ _ _) as [[c l] res]. cbn [fst]. etrans; [apply locals_log|apply pub_log]. Qed.
Lemma pair_log url code w : same_log w (svcPair lib url code w).1.
Proof.
  unfold svcPair. destruct (lib_ClaimPairing _ _ _) as [[key token]|]; [|done]. pose proof (store_key_log key w) as H. destruct (store_key _ _ _) as [w' [u|]]; [|exact H].
  destruct (lib_StorePairing _ _ _ _) as [l res]. cbn [fst] in *. etrans; [exact H|apply locals_log].
Qed.
Lemma pin_log pk k n w : same_log w (svcPinKey lib pk k n w).1.
Proof. unfold svcPinKey. destruct (lib_ParsePinRequest _ _ _ _) as [key|]; [|done]. pose proof (store_key_log key w) as H. by destruct (store_key _ _ _) as [w' u]. Qed.
Lemma unpair_log w : same_log w (svcUnpair lib w).1.
Proof. unfold svcUnpair. by destruct (lib_ClearPairing _ _) as [l res]. Qed.
Lemma schedule_log sec w : same_log w (SetSchedule lib cfg sec w).1.
Proof. unfold SetSchedule. by destruct (lib_SetInterval _ _ _) as [l [u|]]. Qed.
Lemma run_log w : same_log w (svcRun lib cfg Version SQLiteSnapshot Marshal w).1.
Proof. unfold svcRun. by destruct (lib_Run _ _ _ _) as [l res]. Qed.

(** ** Every attempt leaves one row *)
(** One row was added, with this outcome, and otherwise only settings rows changed. *)
Definition one_row outcome w w' : Prop := exists row, bw_audit w' = bw_audit w ++ [row] /\ au_Actor row = "admin" /\ au_Outcome row = outcome /\
  conf (bw_db w') = conf (bw_db w) /\ node (bw_db w') = set_local (node (bw_db w)) (locals w').
Lemma row_after w w1 row : writable = true -> same_log w w1 -> au_Actor row = "admin" -> one_row (au_Outcome row) w (RecordAudit writable row w1).1.
Proof. intros -> (A & B & C) Ha. exists row. cbn. by rewrite A. Qed.
Definition refused (p : BkReply) : bool := match p with RpErr _ _ _ _ => true | _ => false end.
Definition errored (p : BkPage) : bool := match p with PgError _ => true | _ => false end.
Lemma backupFail_refused code e : refused (backupFail code e) = true.
Proof. unfold backupFail. by destruct (backupStatusCode e). Qed.
Lemma or_redirect_errored err w : errored (or_redirect (opt_error err) w).2 = bool_decide (is_Some err).
Proof. by destruct err. Qed.
(** whoever touches this node's backups is on record.  An attempt to pair, to pin a
    key, to unpair or to set the schedule, over the API or from the page, refused ones
    included, adds exactly one row to the audit log, naming success if and only if the
    answer is no error, and changes nothing else of the database but settings rows. *)
Theorem every_attempt_is_recorded w : writable = true ->
  (forall url code, let x := api_pair url code w in one_row (outcomeOf (refused x.2)) w x.1) /\
  (forall pk k n, let x := api_pin_key pk k n w in one_row (outcomeOf (refused x.2)) w x.1) /\
  (let x := api_unpair w in one_row (outcomeOf (refused x.2)) w x.1) /\
  (forall sec, let x := api_schedule sec w in one_row (outcomeOf (refused x.2)) w x.1) /\
  (forall url code, let x := web_pair url code w in one_row (outcomeOf (errored x.2)) w x.1) /\
  (forall pk k n, let x := web_pin_key pk k n w in one_row (outcomeOf (errored x.2)) w x.1) /\
  (let x := web_unpair w in one_row (outcomeOf (errored x.2)) w x.1) /\
  (forall raw, let x := web_schedule raw w in one_row (outcomeOf (errored x.2)) w x.1).
Proof.
  intros W. cbv zeta. split_and!.
  - intros url code. unfold api_pair, backupAudit. destruct (pairURLError _ _); [by apply row_after|]. pose proof (pair_log url code w) as L.
    destruct (svcPair _ _ _ _) as [w1 [key [e|]]]; cbn [fst snd] in *; rewrite ?backupFail_refused; by apply row_after.
  - intros pk k n. unfold api_pin_key, backupAudit. pose proof (pin_log pk k n w) as L. destruct (svcPinKey _ _ _ _ _) as [w1 [key [e|]]]; cbn [fst snd] in *; rewrite ?backupFail_refused; by apply row_after.
  - unfold api_unpair, backupAudit. pose proof (unpair_log w) as L. destruct (svcUnpair _ _) as [w1 [e|]]; cbn [fst snd] in *; rewrite ?backupFail_refused; by apply row_after.
  - intros sec. unfold api_schedule, backupAudit. pose proof (schedule_log sec w) as L. destruct (SetSchedule _ _ _ _) as [w1 [got [e|]]]; cbn [fst snd] in *; rewrite ?backupFail_refused; by apply row_after.
  - intros url code. unfold web_pair, auditBackup. destruct (pairURLError _ _); [by apply row_after|]. pose proof (pair_log url code w) as L.
    destruct (svcPair _ _ _ _) as [w1 [key err]]; cbn [fst snd] in *. rewrite or_redirect_errored. destruct err; by apply row_after.
  - intros pk k n. unfold web_pin_key, auditBackup. destruct (Atoi k) as [k'|]; [|by apply row_after]. destruct (Atoi n) as [n'|]; [|by apply row_after]. pose proof (pin_log pk k' n' w) as L.
    destruct (svcPinKey _ _ _ _ _) as [w1 [key err]]; cbn [fst snd] in *. rewrite or_redirect_errored. destruct err; by apply row_after.
  - unfold web_unpair, auditBackup. pose proof (unpair_log w) as L. destruct (svcUnpair _ _) as [w1 err]; cbn [fst snd] in *. rewrite or_redirect_errored. destruct err; by apply row_after.
  - intros raw. unfold web_schedule, auditBackup. destruct (ParseInt raw) as [m|]; [|by apply row_after]. destruct (_ || _); [by apply row_after|]. pose proof (schedule_log (int64 (m * 60)) w) as L.
    destruct (SetSchedule _ _ _ _) as [w1 [got err]]; cbn [fst snd] in *. rewrite or_redirect_errored. destruct err; by apply row_after.
Qed.

(** ** A capsule is handed out only on record *)
(** C27: the capsule, which is the whole instance, leaves over either transport only after
    a row that says so was written: an answer with a capsule comes with exactly that row
    added and nothing else changed, and when the row cannot be written the answer holds
    no capsule. *)
Theorem capsules_are_accounted_for present w raw id :
  (forall r, (api_backup present "export-capsule" r w).2 = RpCapsule raw id -> writable = true /\
    (api_backup present "export-capsule" r w).1 = mkBW (bw_db w) (bw_audit w ++ [mkAudit "admin" "backup.exported" (Safe id) (Safe "") (Safe ip) "success"]) (bw_disk w)) /\
  ((web_export present w).2 = PgCapsule raw id -> writable = true /\
    (web_export present w).1 = mkBW (bw_db w) (bw_audit w ++ [mkAudit "admin" "backup.exported" id "" (Safe ip) "success"]) (bw_disk w)).
Proof.
  split.
  - intros r. destruct present; [|done]. change (api_backup true "export-capsule" r w) with (api_export w). unfold api_export. destruct (Export _ _ _ _ _ w) as [[raw' m]|[e m]].
    + unfold backupAudit, RecordAudit. destruct writable; [|done]. cbn. by intros [= <- <-].
    + unfold backupFail. by destruct (backupStatusCode e).
  - unfold web_export. destruct present; [|done]. destruct (Export _ _ _ _ _ w) as [[raw' m]|[e m]]; [|done]. unfold RecordAudit. destruct writable; [|done]. cbn. by intros [= <- <-].
Qed.

(** ** The transports agree *)
(** what the page does to a node is what the API does.  For the same request they
    leave the same rows, files and log, and an error of the service is shown with the
    same sentence; only a refused schedule or unpairing is recorded in other words. *)
Theorem transports_agree w : Safe "" = "" ->
  (forall e, (backupStatusCode e).2 = backupMessage (BLib e)) /\
  (forall url code, (api_pair url code w).1 = (web_pair url code w).1) /\
  (forall pk k n k' n', Atoi k = Some k' -> Atoi n = Some n' -> (api_pin_key pk k' n' w).1 = (web_pin_key pk k n w).1) /\
  (refused (api_unpair w).2 = false -> (api_unpair w).1 = (web_unpair w).1) /\ (api_deposit w).1 = (web_deposit w).1 /\ (api_drill w).1 = (web_drill w).1 /\
  (forall raw m, ParseInt raw = Some m -> 0 <= m <= Z.quot (lib_MaxInterval lib) (seconds 60) -> refused (api_schedule (int64 (m * 60)) w).2 = false ->
    (api_schedule (int64 (m * 60)) w).1 = (web_schedule raw w).1).
Proof.
  intros S. split_and!.
  - intros e. by destruct e.
  - intros url code. unfold api_pair, web_pair, backupAudit, auditBackup. destruct (pairURLError _ _) as [e|]; cbn [fst with_error]; [by rewrite append_assoc|].
    destruct (svcPair _ _ _ _) as [w1 [key [e|]]]; done.
  - intros pk k n k' n' Hk Hn. unfold api_pin_key, web_pin_key. rewrite Hk, Hn. destruct (svcPinKey _ _ _ _ _) as [w1 [key [e|]]]; done.
  - unfold api_unpair, web_unpair, backupAudit, auditBackup. destruct (svcUnpair _ _) as [w1 [e|]]; [cbn [snd]; by rewrite backupFail_refused|done].
  - unfold api_deposit, web_deposit. destruct (svcRun _ _ _ _ _ w) as [w1 [res err]]. by destruct (failed_run err).
  - unfold api_drill, web_drill, backupAudit. destruct (drill_outcome (drill w)) as [d o]. rewrite S. by destruct (drill w).
  - intros raw m Hm Hr. unfold api_schedule, web_schedule. rewrite Hm. destruct (_ || _) eqn:B; [apply orb_true_iff in B as [?%Z.ltb_lt|?%Z.ltb_lt]; lia|].
    destruct (SetSchedule _ _ _ _) as [w1 [got [e|]]]; [|done]. cbn [snd]. by rewrite backupFail_refused.
Qed.

(** ** The handlers the API and the pages were given *)
(** [AdminApi] and [WebForms] take the backup handlers as functions that return settings
    rows.  These are the ones, and nothing of the database is lost by that. *)
Definition api_response (p : BkReply) : Response :=
  match p with
  | RpErr status code f _ => RErr status code f
  | RpJson status body => RJson status body
  | RpDecode r => r
  | RpStatus _ => RBackup 200 "status"
  | RpCapsule raw _ => RBackup 200 raw
  | RpRun _ => RBackup 200 "deposit"
  | RpDrill _ => RBackup 200 "drill"
  end.
Definition handler_of (log : list AuditEvent) (d : Disk) (present : bool) (op : string) (r : ApiRequest) (db : DB) : gmap string string * Response :=
  let '(w, p) := api_backup present op r (mkBW db log d) in (locals w, api_response p).
Definition form_of (message_text : bk_message -> string) (log : list AuditEvent) (d : Disk) (op : string) (r : WebRequest) (db : DB) : gmap string string * option string :=
  let '(w, p) := web_backup true op r (mkBW db log d) in (locals w, match p with PgError m | PgHttp _ m => Some (message_text m) | _ => None end).
Lemma recorded_local row w w1 : same_log w w1 -> bw_db (RecordAudit writable row w1).1 = with_local (locals (RecordAudit writable row w1).1) (bw_db w).
Proof.
  intros (_ & A & B). assert (E : locals (RecordAudit writable row w1).1 = locals w1 /\ bw_db (RecordAudit writable row w1).1 = bw_db w1) by (unfold RecordAudit; by destruct writable).
  destruct E as [-> ->]. unfold with_local. rewrite <- A, <- B. by destruct (bw_db w1).
Qed.
Lemma drilled_local d o w : bw_db (RecordAudit writable (mkAudit "admin" "backup.drill" "" (Safe d) (Safe ip) o) w).1 = with_local (locals (RecordAudit writable (mkAudit "admin" "backup.drill" "" (Safe d) (Safe ip) o) w).1) (bw_db w).
Proof. by apply recorded_local. Qed.
Lemma same_local w : bw_db w = with_local (locals w) (bw_db w).
Proof. unfold with_local, locals. by destruct (bw_db w) as [c []]. Qed.
Lemma deposit_local res err w w1 : same_log w w1 -> bw_db (deposit_audit res err w1) = with_local (locals (deposit_audit res err w1)) (bw_db w).
Proof. intros L. unfold deposit_audit. destruct (lib_Outcome lib res err) as [[a o] t]. by apply recorded_local. Qed.
Lemma api_backup_local present op r w : bw_db (api_backup present op r w).1 = with_local (locals (api_backup present op r w).1) (bw_db w).
Proof.
  unfold api_backup. destruct (negb present); [apply same_local|]. destruct (bool_decide _); [unfold api_status; destruct (svcStatus _ _ w); apply same_local|].
  destruct (bool_decide _).
  { destruct (decode _ _ r) as [q|]; [|apply same_local]. unfold api_pair, backupAudit. destruct (pairURLError _ _); [by apply recorded_local|].
    pose proof (pair_log q.1 q.2 w) as L. destruct (svcPair _ _ _ w) as [w1 [key [e|]]]; by apply recorded_local. }
  destruct (bool_decide _).
  { destruct (decode _ _ r) as [q|]; [|apply same_local]. unfold api_pin_key, backupAudit. pose proof (pin_log q.1.1 q.1.2 q.2 w) as L. destruct (svcPinKey _ _ _ _ w) as [w1 [key [e|]]]; by apply recorded_local. }
  destruct (bool_decide _); [unfold api_unpair, backupAudit; pose proof (unpair_log w) as L; destruct (svcUnpair _ w) as [w1 [e|]]; by apply recorded_local|].
  destruct (bool_decide _).
  { destruct (decode _ _ r) as [sec|]; [|apply same_local]. unfold api_schedule, backupAudit. pose proof (schedule_log sec w) as L. destruct (SetSchedule _ _ _ w) as [w1 [got [e|]]]; by apply recorded_local. }
  destruct (bool_decide _).
  { unfold api_deposit. pose proof (run_log w) as L. destruct (svcRun _ _ _ _ _ w) as [w1 [res err]]. destruct (failed_run err); by apply deposit_local. }
  destruct (bool_decide _).
  { unfold api_export, backupAudit. destruct (Export _ _ _ _ _ w) as [[raw m]|[e m]]; [|by apply recorded_local].
    pose proof (recorded_local (mkAudit "admin" "backup.exported" (Safe (cm_CapsuleID m)) (Safe "") (Safe ip) "success") w w (reflexivity w)) as R. by destruct (RecordAudit _ _ _) as [w1 []]. }
  unfold api_drill, backupAudit. destruct (drill_outcome (drill w)) as [d o]. destruct (drill w); by apply recorded_local.
Qed.
Lemma api_handler_exact log d present op r db :
  with_local (handler_of log d present op r db).1 db = bw_db (api_backup present op r (mkBW db log d)).1.
Proof. unfold handler_of. pose proof (api_backup_local present op r (mkBW db log d)) as H. destruct (api_backup _ _ _ _) as [w p]. by rewrite H. Qed.
End Transports.

(** ** A concrete node *)
Definition ex_snap (db : DB) : option string := Some ex_snapshot_file.
Abbreviation ex_api_pair := (api_pair ex_lib ex_backup_config true "10.0.0.7").
Lemma every_attempt_is_recorded_witness : exists row, bw_audit (ex_api_pair "https://recovery.example" "wrong" ex_unpaired).1 = [row] /\ au_Outcome row = "failure".
Proof.
  destruct (every_attempt_is_recorded ex_lib ex_backup_config true "10.0.0.7" ex_unpaired eq_refl) as (H & _).
  destruct (H "https://recovery.example" "wrong") as (row & A & _ & O & _). exists row. split; [exact A|]. rewrite O. vm_compute. reflexivity.
Defined.
Lemma capsules_are_accounted_for_witness : let x := web_export ex_lib ex_backup_config "v1" ex_snap ex_marshal true "10.0.0.7" true ex_paired in
  x.2 = PgCapsule "sealed" "capsule-1" /\ bw_audit x.1 = [mkAudit "admin" "backup.exported" "capsule-1" "" "10.0.0.7" "success"].
Proof.
  intros x. assert (E : x.2 = PgCapsule "sealed" "capsule-1") by (vm_compute; reflexivity). split; [exact E|].
  destruct (capsules_are_accounted_for ex_lib ex_backup_config "v1" ex_snap ex_marshal ex_checks true "10.0.0.7" true ex_paired "sealed" "capsule-1") as [_ H].
  destruct (H E) as [_ W]. unfold x. rewrite W. reflexivity.
Defined.
Lemma transports_agree_witness : (ex_api_pair "https://recovery.example" "123456" ex_unpaired).1 = (web_pair ex_lib ex_backup_config true "10.0.0.7" "https://recovery.example" "123456" ex_unpaired).1.
Proof. apply (transports_agree ex_lib ex_backup_config "v1" ex_snap ex_marshal ex_checks true "10.0.0.7" ex_unpaired eq_refl). Defined.

(** ** Findings *)
(** A capsule that cannot be exported leaves a row over the API and none from the page. *)
Lemma page_export_failure_unrecorded : 
  bw_audit (api_export ex_lib ex_backup_config "v1" ex_snap ex_marshal true "10.0.0.7" ex_unpaired).1 = [mkAudit "admin" "backup.export_failed" "" "error" "10.0.0.7" "failure"] /\
  bw_audit (web_export ex_lib ex_backup_config "v1" ex_snap ex_marshal true "10.0.0.7" true ex_unpaired).1 = [].
Proof. split; by vm_compute. Qed.
