(* ===== verification/Start.v ===== *)
(** * A start of the process: [app/serve.go] up to the listeners, [app/adminreset.go]

    [Serve] from the configuration file to the two servers: the settings, zone and policy
    of [Live], the first API token, the role, the components, whichever half of
    replication the role calls for, the backup service's key and the setup token.  The
    data directory is the [Disk] of [Identity]; log lines are left out, except the two
    standing warnings, which are the lists they name. *)
From S2P Require Import Prelude GoStr NetIP Model Store StoreNode DnsMsg Zone ZoneHolder DnsAuth SettingsValidate Settings DhcpRunner DhcpReserve DhcpServer PolicyService Registry Upstream Role Identity Config Live Json AdminDto AdminApi AdminApiProps Session SSO WebPages Web WebForms WebProps WebFormProps.

Definition nl : string := str [chr 10].
Definition bootstrap_file : string := "bootstrap-token".
Definition setup_file : string := "setup-token".

(** ** Warnings *)
(** The public ranges of an ACL, and the subnets of views it is said to refuse. *)
Definition warnPublicACL (v : Settings) : list string := PublicPrefixes (AllowQuery v).
Definition warnUnreachableViews (db : DB) (allowTailscale : bool) : list (string * string) :=
  if allowTailscale then []
  else Views db ≫= (fun v => (fun c => (v_Name v, c)) <$> filter (fun c => match ParsePrefix c with Some p => Overlaps cgnatPrefix p | None => false end = true) (v_Subnets v)).

Section Start.
Context (url_Parse : string -> option ParsedURL) (LookupPort : string -> option Z).
Context (IsDomainName : string -> bool) (SplitDomainName : string -> list string) (Fqdn : string -> string).
Context (token_sha256 : list ascii -> list Z) (key_sha256 : string -> list Z) (NewKeyFromSeed public_key : string -> string).
Context (Unmarshal : string -> option Config) (probe : string -> option string).
Context (builtins : Manifest).

Implicit Types (db : DB) (d : Disk).

Inductive start_error := StConfig (e : config_error) | StDataDir | StOpen | StBoot (e : boot_error) | StToken (e : store_error) | StTokenFile
  | StIdentity (e : identity_error) | StListen | StBackupKey | StSetupRandom | StSetupFile.

(** ** bootstrapToken, ensureSetupToken *)
Definition bootstrapToken (now : Z) (buf : list Z) (db : DB) (d : Disk) : DB * Disk * result start_error unit :=
  match Tokens db with
  | _ :: _ => (db, d, Ok tt)
  | [] =>
      match CreateToken token_sha256 now buf "bootstrap" db with
      | (db, Err e) => (db, d, Err (StToken e))
      | (db, Ok plaintext) => match WriteFile bootstrap_file (plaintext +:+ nl) d with (d, Err _) => (db, d, Err StTokenFile) | (d, Ok _) => (db, d, Ok tt) end
      end
  end.
Definition ensureSetupToken (random : option (list Z)) (db : DB) (d : Disk) : Disk * result start_error string :=
  if HasAdmin db then (d, Ok "")
  else match random with
  | None => (d, Err StSetupRandom)
  | Some buf => let token := EncodeToString buf in
                match WriteFile setup_file (token +:+ nl) d with (d, Err _) => (d, Err StSetupFile) | (d, Ok _) => (d, Ok token) end
  end.

(** ** [backup.New] *)
(** The sealing key's file, and the row of an older format dropped. *)
Definition backup_key_file : string := "backup_key".
Definition backup_New (load : option string -> option string) (db : DB) (d : Disk) : DB * Disk * result start_error unit :=
  match load (dk_files d !! backup_key_file) with
  | None => (db, d, Err StBackupKey)
  | Some content => ((DeleteLocalSetting "kyrecovery_token" db).1, mkDisk (<[backup_key_file := content]> (dk_files d)) (dk_unreadable d) (dk_unwritable d), Ok tt)
  end.

(** ** startReplication *)
(** At most one of the listener and the pull loop, and the key if replication is
    configured at all. *)
Record replication := mkReplication { repl_srv : bool; repl_puller : option string; repl_id : option Identity }.
Definition startReplication (cfg : Config) (role : Role) (random : option string) (listens : bool) (db : DB) (d : Disk) : Disk * result start_error replication :=
  let r := cf_Replication cfg in
  if bool_decide (rc_Listen r = "") && bool_decide (rc_Primary r = "") then (d, Ok (mkReplication false None None))
  else match LoadOrCreateIdentity key_sha256 NewKeyFromSeed public_key random d with
  | (d, Err e) => (d, Err (StIdentity e))
  | (d, Ok id) =>
      if bool_decide (role = RoleReplica) then
        match primaryFingerprint db with
        | None => (d, Ok (mkReplication false None (Some id)))
        | Some fp => (d, Ok (mkReplication false (Some fp) (Some id)))
        end
      else if bool_decide (rc_Listen r = "") then (d, Ok (mkReplication false None (Some id)))
      else if negb listens then (d, Err StListen)
      else (d, Ok (mkReplication true None (Some id)))
  end.

(** ** Serve *)
(** What a start meets: the file, the variables, whether the data directory and the
    database open, the host, the clock, the randomness drawn, and whether the listener
    binds.  [se_backup_key] is the key library: from the key file, if
    there is one, what the file holds afterwards, unless it fails. *)
Record StartEnv := mkStart {
  se_file : option string; se_vars : string -> option string; se_mkdir : bool; se_opens : bool; se_host : Host; se_now : Z; se_token : list Z; se_seed : option string;
  se_listens : bool; se_backup_key : option string -> option string; se_setup : option (list Z) }.
Record Server := mkServer { sr_config : Config; sr_node : Node; sr_role : Role; sr_repl : replication; sr_SetupToken : string }.
Definition Serve (s : StartEnv) (db : DB) (d : Disk) : DB * Disk * result start_error Server :=
  match Load (se_vars s) Unmarshal probe (se_file s) with
  | Err e => (db, d, Err (StConfig e))
  | Ok cfg =>
      if negb (se_mkdir s) then (db, d, Err StDataDir)
      else if negb (se_opens s) then (db, d, Err StOpen)
      else match boot_stores url_Parse LookupPort IsDomainName SplitDomainName Fqdn builtins (SeedSettings cfg) db with
      | (db, Err e) => (db, d, Err (StBoot e))
      | (db, Ok o) =>
          match bootstrapToken (unix (se_now s)) (se_token s) db d with
          | (db, d, Err e) => (db, d, Err e)
          | (db, d, Ok _) =>
              let role := boot_role (cf_Replication cfg) db in
              let '(db, n) := boot_node Fqdn (se_host s) role (se_now s) o db in
              match startReplication cfg role (se_seed s) (se_listens s) db d with
              | (d, Err e) => (db, d, Err e)
              | (d, Ok repl) =>
                  match backup_New (se_backup_key s) db d with
                  | (db, d, Err e) => (db, d, Err e)
                  | (db, d, Ok _) =>
                    match ensureSetupToken (se_setup s) db d with
                    | (d, Err e) => (db, d, Err e)
                    | (d, Ok token) => (db, d, Ok (mkServer cfg (mkNode (with_sw_db db (nd_sw n)) (with_run (with_runner_db db (lv_run (nd_live n))) (nd_live n)) (nd_policy n)) role repl token))
                    end
                  end
              end
          end
      end
  end.

(** ** adminreset.go *)
(** What [TerminalPassword] yields at each of the two prompts. *)
Inductive reset_error := RsConfig (e : config_error) | RsNoDatabase | RsOpen | RsRead | RsShort | RsMismatch | RsHash | RsStore (e : store_error).
Definition ResetAdminPassword (vars : string -> option string) (file : option string) (db : option (option DB)) (first second : option string) (hash : string -> option string) (now : Z)
  : option DB * result reset_error unit :=
  match Load vars Unmarshal probe file with
  | Err e => (None, Err (RsConfig e))
  | Ok _ =>
      match db with
      | None => (None, Err RsNoDatabase)
      | Some None => (None, Err RsOpen)
      | Some (Some db) =>
          let fail e := (Some db, Err e) in
          match first with
          | None => fail RsRead
          | Some password =>
              if len password <? MinPasswordLen then fail RsShort
              else match second with
              | None => fail RsRead
              | Some confirm =>
                  if negb (bool_decide (password = confirm)) then fail RsMismatch
                  else match hash password with
                  | None => fail RsHash
                  | Some h => match SetAdminPassword now h db with (db, Err e) => (Some db, Err (RsStore e)) | (db, Ok _) => (Some db, Ok tt) end
                  end
              end
          end
      end
  end.

(** ** What a start leaves alone *)
(** The part of a node's own state that says who may enter and whom it follows. *)
Definition keys_of db := (n_tokens (node db), n_admin (node db), n_promotion (node db), n_replica (node db)).
Definition same_keys db db' : Prop := keys_of db' = keys_of db.
#[local] Instance same_keys_preorder : PreOrder same_keys.
Proof. split; [done|]. intros x y z A B. unfold same_keys in *. congruence. Qed.
Lemma same_keys_inv db db' : same_keys db db' -> n_tokens (node db') = n_tokens (node db) /\ n_admin (node db') = n_admin (node db) /\
  n_promotion (node db') = n_promotion (node db) /\ n_replica (node db') = n_replica (node db).
Proof. by intros [= -> -> -> ->]. Qed.
Lemma seed_keys m db : same_keys db (SeedBuiltins m db).1.
Proof.
  unfold SeedBuiltins. destruct (BuiltinManifest m) as [m'|]; [|done]. generalize (bl_Name <$> BlacklistListMetas db). intros known. revert db.
  induction (mf_Lists m') as [|b bs IH]; intros db; [done|]. cbn [seed]. destruct (bool_decide _); [apply IH|].
  assert (H : same_keys db (PutBlacklistList (of_builtin b) db).1) by (unfold PutBlacklistList, tx; by destruct (putBlacklistList _ _) as [[a c]|]).
  destruct (PutBlacklistList _ db) as [db' [id|e]]; [|done]. by etrans; [exact H|apply IH].
Qed.
Lemma ensure_keys seed db : same_keys db (ensureSettings url_Parse LookupPort IsDomainName SplitDomainName seed db).1.
Proof.
  unfold ensureSettings. destruct (GetSettings db); [by destruct (ValidateStored _ _ _ _ _)|]. destruct (ValidateStored _ _ _ _ _); [|done]. done.
Qed.
Lemma reconcile_keys h v role svcs svcs' r : same_keys (rn_db r) (rn_db (Reconcile h v role svcs svcs' r)).
Proof.
  unfold Reconcile. destruct (runner_refresh_keeps svcs' (reconcile h v role (if dhcpWanted v role then svcs else Ok []) r)) as (_ & -> & _).
  unfold reconcile. destruct (negb _); [done|]. destruct (_ && _); [done|]. destruct (if dhcpWanted v role then _ else _) as [ss|]; [|done].
  destruct (build _ _ _ _) as [l|]; [|done]. assert (H : same_keys (rn_db (stopLocked r)) (start_listener h (arm ss l) (rn_db (stopLocked r))).1).
  { unfold start_listener. assert (H : forall w, same_keys (w_store w) (w_store (restore (h_now h) w).1)) by (intros w; by unfold restore).
    specialize (H (mkWorld (ln_alloc (arm ss l)) (rn_db (stopLocked r)) ∅ [] 0)). destruct (restore _ _) as [w [[]|e]]; [|exact H]. by destruct (h_bind h _). }
  by destruct (start_listener _ _ _) as [db [l'|e]].
Qed.
Lemma boot_stores_keys m seed db : same_keys db (boot_stores url_Parse LookupPort IsDomainName SplitDomainName Fqdn m seed db).1.
Proof.
  unfold boot_stores. pose proof (ensure_keys seed db) as H. destruct (ensureSettings _ _ _ _ _ _) as [db1 [v|]]; [|done].
  destruct (SettingsRebuild _ _ _) as [w [u|]]; [|done]. destruct (ZoneHolder.Rebuild _ _) as [z [e|]]; [done|].
  pose proof (seed_keys m db1) as K. destruct (SeedBuiltins m db1) as [db2 [u'|]]; by etrans.
Qed.
Lemma boot_node_keys h role now o db : same_keys db (boot_node Fqdn h role now o db).1.
Proof. unfold boot_node. cbn [fst]. etrans; [|apply reconcile_keys]. done. Qed.
Lemma boot_node_settings h role now o db : GetSettings (boot_node Fqdn h role now o db).1 = GetSettings db.
Proof. unfold boot_node. cbn [fst]. by rewrite reconcile_settings. Qed.
Lemma bootstrap_spec now buf db d db' d' : bootstrapToken now buf db d = (db', d', Ok tt) ->
  n_admin (node db') = n_admin (node db) /\ GetSettings db' = GetSettings db /\ (forall name, name <> bootstrap_file -> same_file name d d') /\ dk_unreadable d' = dk_unreadable d /\
  if bool_decide (n_tokens (node db) = []) then
    let p := tokenPrefix +:+ EncodeToString buf in dk_files d' !! bootstrap_file = Some (p +:+ nl) /\ t_Hash <$> n_tokens (node db') = [HashToken token_sha256 p]
  else db' = db /\ d' = d.
Proof.
  unfold bootstrapToken, Tokens. destruct (n_tokens (node db)) as [|t ts] eqn:T; [|intros [= <- <-]; by rewrite bool_decide_false].
  rewrite bool_decide_true by done. unfold CreateToken, GenerateToken, PutToken, local. rewrite T. cbn -[WriteFile String.append tokenPrefix nl].
  rewrite bool_decide_false by (by intros ?%not_elem_of_nil). set (c := ((tokenPrefix +:+ EncodeToString buf) +:+ nl)). pose proof (fun name N => write_keeps bootstrap_file name c d (not_eq_sym N)) as K. pose proof (write_unreadable bootstrap_file c d) as U.
  destruct (WriteFile bootstrap_file c d) as [d1 [[]|]] eqn:W; [|done]. intros [= <- <-]. cbn [fst] in K, U. apply written in W. done.
Qed.
Lemma bootstrap_conf now buf db d : conf (bootstrapToken now buf db d).1.1 = conf db.
Proof.
  unfold bootstrapToken. destruct (Tokens db); [|done]. unfold CreateToken, PutToken, local. repeat case_match; simplify_eq; done.
Qed.
Lemma replication_spec cfg role random listens db d d' repl : startReplication cfg role random listens db d = (d', Ok repl) ->
  (forall name, name <> node_key_file -> same_file name d d') /\
  repl_puller repl = (if bool_decide (rc_Listen (cf_Replication cfg) = "" /\ rc_Primary (cf_Replication cfg) = "") then None
    else if bool_decide (role = RoleReplica) then primaryFingerprint db else None) /\
  (repl_srv repl = true -> role <> RoleReplica /\ rc_Listen (cf_Replication cfg) <> "" /\ listens = true) /\
  match repl_id repl with
  | None => rc_Listen (cf_Replication cfg) = "" /\ rc_Primary (cf_Replication cfg) = ""
  | Some id => LoadOrCreateIdentity key_sha256 NewKeyFromSeed public_key random d = (d', Ok id)
  end.
Proof.
  unfold startReplication. rewrite (bool_decide_and (rc_Listen _ = "")). destruct (_ && _) eqn:B.
  { intros [= <- <-]. apply andb_prop in B as [B1%bool_decide_eq_true B2%bool_decide_eq_true]. done. }
  pose proof (fun name => load_keeps key_sha256 NewKeyFromSeed public_key random name d) as K.
  destruct (LoadOrCreateIdentity _ _ _ _ _) as [d1 [id|]]; [|done]. cbn [fst] in K. destruct (bool_decide (role = RoleReplica)) eqn:R.
  - destruct (primaryFingerprint db); intros [= <- <-]; done.
  - apply bool_decide_eq_false in R. destruct (bool_decide (rc_Listen (cf_Replication cfg) = "")) eqn:L; [intros [= <- <-]; done|]. apply bool_decide_eq_false in L.
    destruct listens; [|done]. intros [= <- <-]. done.
Qed.
Lemma backup_New_spec load db d db' d' : backup_New load db d = (db', d', Ok tt) ->
  db' = (DeleteLocalSetting "kyrecovery_token" db).1 /\ forall name, name <> backup_key_file -> same_file name d d'.
Proof.
  unfold backup_New. destruct (load _) as [c|]; [|done]. intros [= <- <-]. split; [done|]. intros name N. split; [cbn; by rewrite lookup_insert_ne|done].
Qed.
Lemma setup_spec random db d d' token : ensureSetupToken random db d = (d', Ok token) ->
  (forall name, name <> setup_file -> same_file name d d') /\
  if HasAdmin db then d' = d /\ token = "" else exists buf, random = Some buf /\ token = EncodeToString buf /\ dk_files d' !! setup_file = Some (token +:+ nl).
Proof.
  unfold ensureSetupToken. destruct (HasAdmin db); [intros [= <- <-]; done|]. destruct random as [buf|]; [|done]. destruct (WriteFile _ _ d) as [d1 [[]|]] eqn:W; [|done].
  intros [= <- <-]. pose proof (fun name N => write_keeps setup_file name (EncodeToString buf +:+ nl) d (not_eq_sym N)) as K. rewrite W in K. split; [exact K|].
  apply written in W. by exists buf.
Qed.
(** A start that succeeds, taken apart. *)
Lemma Serve_inv s db d db' d' sv : Serve s db d = (db', d', Ok sv) -> exists cfg db1 o db2 d2 d3 d4 repl token,
  Load (se_vars s) Unmarshal probe (se_file s) = Ok cfg /\
  boot_stores url_Parse LookupPort IsDomainName SplitDomainName Fqdn builtins (SeedSettings cfg) db = (db1, Ok o) /\
  bootstrapToken (unix (se_now s)) (se_token s) db1 d = (db2, d2, Ok tt) /\
  let role := boot_role (cf_Replication cfg) db2 in let x := boot_node Fqdn (se_host s) role (se_now s) o db2 in
  startReplication cfg role (se_seed s) (se_listens s) x.1 d2 = (d3, Ok repl) /\
  db' = (DeleteLocalSetting "kyrecovery_token" x.1).1 /\ (forall name, name <> backup_key_file -> same_file name d3 d4) /\ ensureSetupToken (se_setup s) db' d4 = (d', Ok token) /\
  sv = mkServer cfg (mkNode (with_sw_db db' (nd_sw x.2)) (with_run (with_runner_db db' (lv_run (nd_live x.2))) (nd_live x.2)) (nd_policy x.2)) role repl token.
Proof.
  unfold Serve. destruct (Load _ _ _ _) as [cfg|]; [|done]. destruct (negb (se_mkdir s)); [done|]. destruct (negb (se_opens s)); [done|].
  destruct (boot_stores _ _ _ _ _ _ _ db) as [db1 [o|]] eqn:S; [|done]. destruct (bootstrapToken _ _ db1 d) as [[db2 d2] [[]|]] eqn:B; [|done].
  destruct (boot_node _ _ _ _ o db2) as [db3 n] eqn:N. destruct (startReplication _ _ _ _ db3 d2) as [d3 [repl|]] eqn:R; [|done]. destruct (backup_New _ db3 d3) as [[db4 d4] [[]|]] eqn:K; [|done]. apply backup_New_spec in K as [K1 K2].
  destruct (ensureSetupToken _ _ d4) as [d5 [token|]] eqn:T; [|done]. intros [= <- <- <-].
  exists cfg, db1, o, db2, d2, d3, d4, repl, token. cbv zeta. rewrite N. cbn [fst snd]. repeat (split; [done|]). done.
Qed.
Lemma key_not_tokens : bootstrap_file <> node_key_file /\ setup_file <> node_key_file /\ bootstrap_file <> setup_file.
Proof. done. Qed.
Lemma nl_inj a b : a +:+ nl = b +:+ nl -> a = b.
Proof. intros H. apply (f_equal bytes) in H. rewrite !bytes_app in H. apply app_inv_tail in H. by apply (inj bytes). Qed.

(** ** A way in *)
(** C25: a start that succeeds leaves a way in and only its own.  If the database had no
    API token, the data directory now holds one and the server accepts it; if it had
    one, neither the tokens nor that file changed.  If there is no administrator, the
    setup page asks for a token that the data directory holds, drawn at this start; if
    there is one, no token is made and no file written.  Nothing made or removed an
    administrator. *)
Theorem start_leaves_a_way_in s db d db' d' sv : Serve s db d = (db', d', Ok sv) ->
  (n_tokens (node db) = [] -> exists p, dk_files d' !! bootstrap_file = Some (p +:+ nl) /\ forall now, (AuthenticateToken token_sha256 now p db').2 = true) /\
  (n_tokens (node db) <> [] -> n_tokens (node db') = n_tokens (node db) /\ dk_files d' !! bootstrap_file = dk_files d !! bootstrap_file) /\
  n_admin (node db') = n_admin (node db) /\
  if HasAdmin db then sr_SetupToken sv = "" /\ dk_files d' !! setup_file = dk_files d !! setup_file
  else exists buf, se_setup s = Some buf /\ sr_SetupToken sv = EncodeToString buf /\ dk_files d' !! setup_file = Some (sr_SetupToken sv +:+ nl).
Proof.
  intros (cfg & db1 & o & db2 & d2 & d3 & d4 & repl & token & _ & BS & BT & R & E & Bk & T & ->)%Serve_inv. cbv zeta in R, E. cbn [sr_SetupToken].
  pose proof (boot_stores_keys builtins (SeedSettings cfg) db) as K. rewrite BS in K. apply same_keys_inv in K as (K1 & K2 & _). cbn [fst] in K1, K2.
  apply bootstrap_spec in BT as (B1 & _ & B3 & _ & B4). rewrite K1 in B4. apply replication_spec in R as (R & _).
  set (x := boot_node _ _ _ _ _ _) in *. pose proof (same_keys_inv _ _ (boot_node_keys (se_host s) (boot_role (cf_Replication cfg) db2) (se_now s) o db2)) as (N1 & N2 & N3 & N4). fold x in N1, N2, N3, N4.
  assert (M1 : n_tokens (node db') = n_tokens (node db2)) by by rewrite E. assert (M2 : n_admin (node db') = n_admin (node db)) by (rewrite E; transitivity (n_admin (node x.1)); [done|congruence]).
  apply setup_spec in T as (T1 & T2). assert (A : HasAdmin db' = HasAdmin db) by (unfold HasAdmin; by rewrite M2). rewrite A in T2.
  assert (F : dk_files d' !! bootstrap_file = dk_files d2 !! bootstrap_file) by (etrans; [by apply T1|]; etrans; [by apply Bk|by apply R]). split_and!; [| |exact M2|].
  - intros Z. rewrite (bool_decide_true _ Z) in B4. destruct B4 as [B4 B5]. exists (tokenPrefix +:+ EncodeToString (se_token s)). split; [by rewrite F|]. intros now. apply authenticate_spec.
    split; [apply HasPrefix_spec; by eexists|]. rewrite M1, B5. by left.
  - intros Z. rewrite (bool_decide_false _ Z) in B4. destruct B4 as [-> ->]. by rewrite M1, K1, F.
  - destruct (HasAdmin db); [|exact T2]. destruct T2 as [-> ->]. split; [done|]. etrans; [by apply Bk|]. etrans; [by apply R|]. by apply B3.
Qed.
Lemma boot_stores_settings m seed db db' o : boot_stores url_Parse LookupPort IsDomainName SplitDomainName Fqdn m seed db = (db', Ok o) ->
  is_Some (GetSettings db') /\ (is_Some (GetSettings db) -> GetSettings db' = GetSettings db).
Proof.
  unfold boot_stores. assert (H : forall db1 v, ensureSettings url_Parse LookupPort IsDomainName SplitDomainName seed db = (db1, Ok v) ->
    is_Some (GetSettings db1) /\ (is_Some (GetSettings db) -> GetSettings db1 = GetSettings db)).
  { intros db1 v. unfold ensureSettings. destruct (GetSettings db) as [cur|] eqn:G.
    - destruct (ValidateStored _ _ _ _ _); intros [= <- <-]. rewrite G. split; [by eexists|done].
    - destruct (ValidateStored _ _ _ _ _); [|done]. intros [= <- <-]. split; [by eexists|by intros [? ?]]. }
  destruct (ensureSettings _ _ _ _ _ _) as [db1 [v|]]; [|done]. destruct (H _ _ eq_refl) as [H1 H2].
  destruct (SettingsRebuild _ _ _) as [w [u|]]; [|done]. destruct (ZoneHolder.Rebuild _ _) as [z [e|]]; [done|].
  pose proof (seed_settings m db1) as K. destruct (SeedBuiltins m db1) as [db2 [u'|]]; [|done]. intros [= <- <-]. cbn [fst] in K. by rewrite K.
Qed.
(** What a successful start has put in place. *)
Lemma started_state s db d db' d' sv : Serve s db d = (db', d', Ok sv) -> (forall r, se_seed s = Some r -> len r = SeedSize) -> dk_unreadable d node_key_file = false ->
  is_Some (GetSettings db') /\ n_tokens (node db') <> [] /\ (forall id, repl_id (sr_repl sv) = Some id -> key_stored key_sha256 NewKeyFromSeed public_key id d').
Proof.
  intros (cfg & db1 & o & db2 & d2 & d3 & d4 & repl & token & _ & BS & BT & R & E & Bk & T & ->)%Serve_inv Hr Hd. cbv zeta in R, E. cbn [sr_repl].
  apply boot_stores_settings in BS as [S _]. apply bootstrap_spec in BT as (B1 & B2 & B3 & B4 & B5). apply replication_spec in R as (R & _ & _ & I).
  set (x := boot_node _ _ _ _ _ _) in *. pose proof (same_keys_inv _ _ (boot_node_keys (se_host s) (boot_role (cf_Replication cfg) db2) (se_now s) o db2)) as (N1 & N2 & N3 & N4). fold x in N1, N2, N3, N4.
  pose proof (boot_node_settings (se_host s) (boot_role (cf_Replication cfg) db2) (se_now s) o db2) as G. fold x in G.
  assert (M : GetSettings db' = GetSettings x.1 /\ n_tokens (node db') = n_tokens (node x.1)) by (by rewrite E). destruct M as [M1 M2]. split; [by rewrite M1, G, B2|]. split.
  - rewrite M2, N1. case_bool_decide as Z; [|by destruct B5 as [-> _]]. destruct B5 as [_ B5]. intros Z'. rewrite Z' in B5. done.
  - intros id Hid. rewrite Hid in I. apply loaded_key_stored in I; [|done|congruence]. apply setup_spec in T as (T & _). destruct I as (seed & I1 & I2 & I3). exists seed. split; [|done].
    rewrite <- I1. apply same_read. etrans; [by apply Bk|by apply T].
Qed.
(** starting again changes nothing that identifies the node.  A start that follows a
    successful one, with whatever configuration, keeps the stored settings, every API
    token, the administrator and the bootstrap token's file, and if the first start had
    a replication key and the second needs one, it is the same key. *)
Theorem restart_keeps_the_node s s2 db d db' d' sv db2 d2 sv2 : Serve s db d = (db', d', Ok sv) -> Serve s2 db' d' = (db2, d2, Ok sv2) ->
  (forall r, se_seed s = Some r -> len r = SeedSize) -> dk_unreadable d node_key_file = false ->
  GetSettings db2 = GetSettings db' /\ n_tokens (node db2) = n_tokens (node db') /\ n_admin (node db2) = n_admin (node db') /\
  dk_files d2 !! bootstrap_file = dk_files d' !! bootstrap_file /\
  (forall id, repl_id (sr_repl sv) = Some id -> repl_id (sr_repl sv2) = Some id \/ repl_id (sr_repl sv2) = None).
Proof.
  intros H1 H2 Hr Hd. destruct (started_state _ _ _ _ _ _ H1 Hr Hd) as (G1 & T1 & K1).
  apply Serve_inv in H2 as (cfg & db1 & o & db3 & d3 & d4 & d5 & repl & token & _ & BS & BT & R & E & Bk & T & ->). cbv zeta in R, E. cbn [sr_repl].
  pose proof (boot_stores_keys builtins (SeedSettings cfg) db') as S. rewrite BS in S. apply same_keys_inv in S as (S1 & S2 & _). cbn [fst] in S1, S2. apply boot_stores_settings in BS as [_ S3].
  apply bootstrap_spec in BT as (_ & _ & _ & _ & B). rewrite bool_decide_false in B by by rewrite S1. destruct B as [-> ->]. apply replication_spec in R as (R & _ & _ & I).
  set (x := boot_node _ _ _ _ _ _) in *. pose proof (same_keys_inv _ _ (boot_node_keys (se_host s2) (boot_role (cf_Replication cfg) db1) (se_now s2) o db1)) as (N1 & N2 & N3 & N4). fold x in N1, N2, N3, N4.
  pose proof (boot_node_settings (se_host s2) (boot_role (cf_Replication cfg) db1) (se_now s2) o db1) as G. fold x in G.
  assert (M : GetSettings db2 = GetSettings x.1 /\ n_tokens (node db2) = n_tokens (node x.1) /\ n_admin (node db2) = n_admin (node x.1)) by (by rewrite E). destruct M as (M1 & M2 & M3).
  apply setup_spec in T as (T & _). split_and!; [by rewrite M1, G, S3|congruence|congruence|etrans; [by apply T|]; etrans; [by apply Bk|by apply R]|].
  intros id Hid. destruct (repl_id repl) as [id'|]; [|by right]. left. apply K1 in Hid. rewrite (stored_key_loads _ _ _ _ _ _ Hid) in I. by injection I as _ ->.
Qed.

(** ** Whom a start follows, and what it runs *)
Lemma rewired_in_step db n : in_step url_Parse LookupPort Fqdn n -> conf db = conf (sw_db (nd_sw n)) ->
  in_step url_Parse LookupPort Fqdn (mkNode (with_sw_db db (nd_sw n)) (with_run (with_runner_db db (lv_run (nd_live n))) (nd_live n)) (nd_policy n)).
Proof.
  intros [(s & Hs & Hb & Hf) Hr Hw Hn] G. assert (G' : GetSettings db = GetSettings (sw_db (nd_sw n))) by (unfold GetSettings; by rewrite G). split.
  - exists s. split; [exact Hs|]. split; [exact Hb|]. destruct Hf; constructor; assumption.
  - intros v Hv. apply Hr. rewrite <- G'. exact Hv.
  - by apply rewired_ok.
  - destruct Hn as [Hn|Hu]; [left|right; unfold row_unusable in *; cbn; by rewrite G'].
    eapply same_tables_names; [|done|done|exact Hn]. by apply same_conf_tables.
Qed.
(** C10: a start runs the role its configuration and the recorded promotion call for.  It
    pulls from a primary exactly when [follows_at_boot] names one, and then from the
    paired key; it serves replicas only on a node that is not one, on the configured
    address; never both; and the node it serves with is in step with its settings. *)
Theorem start_runs_its_role s db d db' d' sv : Serve s db d = (db', d', Ok sv) ->
  (forall x, Fqdn x = x \/ Fqdn x = x +:+ ".") ->
  (forall v, SettingsValidate.settings_ok url_Parse LookupPort IsDomainName SplitDomainName v -> no_space (PrivateDomain v)) ->
  (GetSettings db = None -> Forall one_line (Upstreams (SeedSettings (sr_config sv)))) ->
  let r := cf_Replication (sr_config sv) in
  sr_role sv = boot_role r db' /\ repl_puller (sr_repl sv) = follows_at_boot r db' /\
  (repl_srv (sr_repl sv) = true -> sr_role sv <> RoleReplica /\ rc_Listen r <> "" /\ repl_puller (sr_repl sv) = None) /\
  in_step url_Parse LookupPort Fqdn (sr_node sv).
Proof.
  intros (cfg & db1 & o & db2 & d2 & d3 & d4 & repl & token & L & BS & BT & R & E & Bk & T & ->)%Serve_inv Hf Hn Hl. cbv zeta in *. cbn [sr_config sr_role sr_repl sr_node] in *.
  apply boot_stores_ok in BS; [|done..]. pose proof (bootstrap_conf (unix (se_now s)) (se_token s) db1 d) as B2. rewrite BT in B2. cbn [fst] in B2.
  apply replication_spec in R as (_ & R1 & R2 & _).
  pose proof (same_keys_inv _ _ (boot_node_keys (se_host s) (boot_role (cf_Replication cfg) db2) (se_now s) o db2)) as (_ & _ & N3 & N4).
  assert (O : opened_ok url_Parse LookupPort IsDomainName SplitDomainName Fqdn o db2).
  { destruct BS as (O1 & O2 & O3 & O4). split; [done|]. split; [unfold GetSettings in *; congruence|]. split; [done|]. eapply same_tables_opened; [|exact O4]. by apply same_conf_tables. }
  destruct (boot_node _ _ _ _ o db2) as [db3 n] eqn:N. cbn [fst snd] in *.
  eapply boot_node_in_step in N as (I & D & _); [|done..].
  assert (M : n_promotion (node db') = n_promotion (node db2) /\ n_replica (node db') = n_replica (node db3)) by (rewrite E; split; [exact N3|done]). destruct M as [M3 M4].
  assert (Rl : boot_role (cf_Replication cfg) db2 = boot_role (cf_Replication cfg) db') by (unfold boot_role, Promotion; by rewrite M3).
  assert (Fl : repl_puller repl = follows_at_boot (cf_Replication cfg) db').
  { rewrite R1. unfold follows_at_boot. rewrite <- Rl. unfold primaryFingerprint, ReplicaState. by rewrite M4. }
  split; [exact Rl|]. split; [exact Fl|]. split.
  - intros S. destruct (R2 S) as (S1 & S2 & _). split; [done|]. split; [done|]. rewrite R1. rewrite (bool_decide_false _ S1). by destruct (bool_decide _).
  - apply rewired_in_step; [exact I|]. by rewrite E, D.
Qed.

(** ** Resetting the password *)
(** the reset command sets the password that was typed twice or nothing.  It
    succeeds exactly when the configuration loads, the database is there and opens, a
    password of at least twelve bytes is typed twice alike and hashes; it then writes
    the hash and nothing else of the node's state, keeping a linked identity; and
    otherwise it writes nothing. *)
Theorem reset_sets_what_was_typed vars file db first second hash now db' res :
  ResetAdminPassword vars file (Some (Some db)) first second hash now = (Some db', res) ->
  if is_ok res then exists password h, first = Some password /\ second = Some password /\ MinPasswordLen <= len password /\ hash password = Some h /\
    AdminHash db' = Ok h /\ conf db' = conf db /\ n_tokens (node db') = n_tokens (node db) /\ n_sso (node db') = n_sso (node db) /\
    (forall i, GetAdminIdentity db = Ok i -> exists i', GetAdminIdentity db' = Ok i' /\ SSOSub i' = SSOSub i)
  else db' = db.
Proof.
  unfold ResetAdminPassword. destruct (Load _ _ _ _) as [cfg|]; [|done]. destruct first as [password|]; [|by intros [= <- <-]].
  destruct (Z.ltb_spec (len password) MinPasswordLen) as [|Hl]; [by intros [= <- <-]|]. destruct second as [confirm|]; [|by intros [= <- <-]].
  case_bool_decide as C; cbn [negb]; [|by intros [= <- <-]]. subst confirm. destruct (hash password) as [h|] eqn:H; [|by intros [= <- <-]].
  cbn. intros [= <- <-]. cbn. exists password, h. split_and!; try done; unfold AdminHash, GetAdminIdentity; cbn; destruct (n_admin (node db)); cbn; try done.
  intros i [= <-]. by eexists.
Qed.
End Start.

(** ** Findings *)
(** The first token is stored before its file is written: if the file cannot be, the
    start fails, and the next one finds a token and writes no file. *)
Lemma lost_bootstrap_token sha now buf db d : n_tokens (node db) = [] -> dk_unwritable d bootstrap_file = true ->
  exists db', bootstrapToken sha now buf db d = (db', d, Err StTokenFile) /\ forall now' buf' d', bootstrapToken sha now' buf' db' d' = (db', d', Ok tt).
Proof.
  intros T W. unfold bootstrapToken, Tokens at 1. rewrite T. unfold CreateToken, GenerateToken, PutToken, local. rewrite T. unfold WriteFile. rewrite W.
  rewrite bool_decide_false by (by intros ?%not_elem_of_nil). eexists. split; [reflexivity|]. done.
Qed.
(** A view that holds every address is said never to match because it overlaps the
    range the ACL refuses, and it matches a client that the ACL admits. *)
Definition ex_wide_view : DB := (PutView (mkView "all" ["0.0.0.0/0"]) db0).1.
Lemma warned_view_matches : warnUnreachableViews ex_wide_view false = [("all", "0.0.0.0/0")] /\
  exists p q a, ParsePrefix "192.168.0.0/16" = Some p /\ ParsePrefix "0.0.0.0/0" = Some q /\ ParseAddr "192.168.1.7" = Some a /\ (Allow 0 (NewACL [p]) a).2 = true /\ Pfx.Contains q a = true.
Proof.
  split; [by vm_compute|]. exists (mkPrefix (Addr4 (192 * 2 ^ 24 + 168 * 2 ^ 16)) 16), (mkPrefix (Addr4 0) 0), (Addr4 (192 * 2 ^ 24 + 168 * 2 ^ 16 + 256 + 7)).
  split_and!; by vm_compute.
Qed.

(** ** A concrete start, twice *)
Definition ex_start : StartEnv := mkStart (Some "replica") (fun _ => None) true true ex_host 0 [1; 2] (Some ex_seed32) true (fun f => Some (default "k" f)) (Some [3; 4]).
Definition ex_restart : StartEnv := mkStart (Some "replica") (fun _ => None) true true ex_host 9 [8; 8] None true (fun f => Some (default "k" f)) (Some [5; 6]).
(** [url.Parse] on the default upstreams. *)
Definition ex_tls (s : string) : option ParsedURL := if HasPrefix s "tls://" then Some (mkPURL "tls" None (TrimPrefix s "tls://") "" "") else None.
Abbreviation ex_Serve := (Serve ex_tls ex_lookup ex_IsDomainName ex_names.2 ex_Fqdn toy_hash ex_digest id id ex_Unmarshal ex_probe ex_builtins).
Definition ex_started := ex_Serve ex_start db0 ex_disk.
Definition ex_restarted := ex_Serve ex_restart ex_started.1.1 ex_started.1.2.
Lemma ex_started_ok : exists sv, ex_Serve ex_start db0 ex_disk = (ex_started.1.1, ex_started.1.2, Ok sv).
Proof.
  unfold ex_started. destruct (ex_Serve ex_start db0 ex_disk) as [[db d] [sv|e]] eqn:E; [by exists sv|]. apply (f_equal (fun x => is_ok x.2)) in E. vm_compute in E. discriminate E.
Qed.
Lemma ex_restarted_ok : exists sv, ex_Serve ex_restart ex_started.1.1 ex_started.1.2 = (ex_restarted.1.1, ex_restarted.1.2, Ok sv).
Proof.
  unfold ex_restarted. destruct (ex_Serve ex_restart ex_started.1.1 ex_started.1.2) as [[db d] [sv|e]] eqn:E; [by exists sv|]. apply (f_equal (fun x => is_ok x.2)) in E. vm_compute in E. discriminate E.
Qed.
Lemma start_leaves_a_way_in_witness : exists p buf, dk_files ex_started.1.2 !! bootstrap_file = Some (p +:+ nl) /\ (AuthenticateToken toy_hash 5 p ex_started.1.1).2 = true /\
  Some [3; 4] = Some buf /\ dk_files ex_started.1.2 !! setup_file = Some (EncodeToString buf +:+ nl).
Proof.
  destruct ex_started_ok as [sv H]. pose proof (start_leaves_a_way_in _ _ _ _ _ _ _ _ _ _ _ _ _ _ _ _ _ _ H) as (A & _ & _ & C).
  destruct A as (p & P1 & P2); [reflexivity|]. destruct C as (buf & C1 & C2 & C3). exists p, buf. rewrite C2 in C3. split; [exact P1|]. split; [apply P2|]. split; [exact C1|exact C3].
Defined.
Lemma restart_keeps_the_node_witness : n_tokens (node ex_restarted.1.1) = n_tokens (node ex_started.1.1) /\ dk_files ex_restarted.1.2 !! bootstrap_file = dk_files ex_started.1.2 !! bootstrap_file.
Proof.
  destruct ex_started_ok as [sv H]. destruct ex_restarted_ok as [sv2 H2].
  destruct (restart_keeps_the_node _ _ _ _ _ _ _ _ _ _ _ _ _ _ _ _ _ _ _ _ _ _ H H2) as (_ & T & _ & F & _); [intros r [= <-]; reflexivity|reflexivity|]. split; [exact T|exact F].
Defined.
Lemma start_runs_its_role_witness : exists sv, ex_started.2 = Ok sv /\ sr_role sv = RoleReplica /\ repl_puller (sr_repl sv) = None /\ in_step ex_tls ex_lookup ex_Fqdn (sr_node sv).
Proof.
  destruct ex_started_ok as [sv H]. exists sv. assert (E : ex_started.2 = Ok sv) by exact (f_equal snd H). split; [exact E|].
  destruct (start_runs_its_role _ _ _ _ _ _ _ _ _ _ _ _ _ _ _ _ _ _ H) as (R & P & _ & I).
  - exact ex_Fqdn_dot.
  - intros v [[D _] _ _ _ _ _ _ _ _]. apply ex_domain_no_space. exact D.
  - intros _. set (f x := match x : result start_error Server with Ok sv => Upstreams (SeedSettings (sr_config sv)) | Err _ => [] end). change (Forall one_line (f (Ok sv))). rewrite <- E.
    assert (L : f ex_started.2 = ["tls://1.1.1.1:853"; "tls://9.9.9.9:853"]) by (vm_compute; reflexivity). rewrite L.
    constructor; [|constructor; [|constructor]]; unfold one_line; apply (bool_decide_unpack _); by vm_compute.
  - set (f x := match x : result start_error Server with Ok sv => cf_Replication (sr_config sv) | Err _ => mkRC "" "" end). change (cf_Replication (sr_config sv)) with (f (Ok sv)) in R, P.
    rewrite <- E in R, P. split; [rewrite R; by vm_compute|]. split; [rewrite P; by vm_compute|exact I].
Defined.
Lemma reset_sets_what_was_typed_witness : exists db h, AdminHash db = Ok h /\ h = "argon2id:correct horse battery".
Proof.
  destruct (ResetAdminPassword ex_Unmarshal ex_probe (fun _ => None) (Some "replica") (Some (Some db0)) (Some "correct horse battery") (Some "correct horse battery")
    (fun p => Some ("argon2id:" +:+ p)) 7) as [[db|] res] eqn:E; [|exfalso; vm_compute in E; discriminate E].
  pose proof (reset_sets_what_was_typed _ _ _ _ _ _ _ _ _ _ _ E) as H. assert (R : is_ok res = true) by (apply (f_equal (fun x => is_ok x.2)) in E; vm_compute in E; symmetry; exact E).
  rewrite R in H. destruct H as (p & h & H1 & _ & _ & H4 & H5 & _). exists db, h. split; [exact H5|]. injection H1 as <-. injection H4 as <-. reflexivity.
Defined.
