(* ===== verification/Interact.v ===== *)
(** * Programs that interact with their surroundings

    What a command does is a tree: it stops with a value, or it performs an operation
    (a request, a line on the terminal, a file) and goes on with the answer.  An
    environment answers the operations; [run] plays a program against one, [outcome]
    says what it can do against any, and [wp] is how the theorems reason about it: a
    guard that every operation meets when it is performed and a postcondition of the
    whole log. *)
From S2P Require Import Prelude.

Section Interact.
Context {Op : Type} (Ans : Op -> Type).

Inductive Prog (A : Type) : Type :=
  | Return (a : A)
  | Perform (op : Op) (k : Ans op -> Prog A).
Fixpoint prog_bind {A B} (k : A -> Prog B) (p : Prog A) : Prog B :=
  match p with Return _ a => k a | Perform _ op j => Perform B op (fun x => prog_bind k (j x)) end.
Definition perform (op : Op) : Prog (Ans op) := Perform _ op (fun x => Return _ x).

(** What happened: each operation with its answer, oldest first. *)
Record Event := mkEvent { ev_op : Op; ev_ans : Ans ev_op }.

Fixpoint run {S A} (env : forall op, S -> S * Ans op) (p : Prog A) (s : S) : S * list Event * A :=
  match p with
  | Return _ a => (s, [], a)
  | Perform _ op k =>
      let '(s, x) := env op s in
      let '(s, t, a) := run env (k x) s in (s, mkEvent op x :: t, a)
  end.
Fixpoint outcome {A} (p : Prog A) (t : list Event) (a : A) : Prop :=
  match p with
  | Return _ b => t = [] /\ a = b
  | Perform _ op k => exists x t', t = mkEvent op x :: t' /\ outcome (k x) t' a
  end.
Fixpoint wp {A} (ok : list Event -> Op -> Prop) (p : Prog A) (past : list Event) (Q : list Event -> A -> Prop) : Prop :=
  match p with
  | Return _ a => Q past a
  | Perform _ op k => ok past op /\ forall x, wp ok (k x) (past ++ [mkEvent op x]) Q
  end.
End Interact.
Arguments Return {Op Ans A}. Arguments Perform {Op Ans A}. Arguments perform {Op Ans}. Arguments mkEvent {Op Ans}. Arguments ev_op {Op Ans}. Arguments ev_ans {Op Ans}.
Arguments run {Op Ans S A}. Arguments outcome {Op Ans A}. Arguments wp {Op Ans A}. Arguments prog_bind {Op Ans A B}.
#[export] Instance prog_mbind {Op} {Ans : Op -> Type} : MBind (Prog Ans) := fun A B => prog_bind.
#[export] Instance prog_mret {Op} {Ans : Op -> Type} : MRet (Prog Ans) := fun A a => Return a.

(** ** Rules *)
Section Rules.
Context {Op : Type} {Ans : Op -> Type}.
Implicit Types (t past : list (Event Ans)) (ok : list (Event Ans) -> Op -> Prop).

Lemma run_outcome {S A} (env : forall op, S -> S * Ans op) (p : Prog Ans A) s : outcome p (run env p s).1.2 (run env p s).2.
Proof.
  revert s. induction p as [a|op k IH]; intros s; [done|]. cbn. destruct (env op s) as [s1 x]. specialize (IH x s1).
  destruct (run env (k x) s1) as [[s2 t] a]. cbn in *. by exists x, t.
Qed.
Lemma wp_bind {A B} ok (p : Prog Ans A) (k : A -> Prog Ans B) past Q : wp ok p past (fun t a => wp ok (k a) t Q) -> wp ok (p ≫= k) past Q.
Proof.
  revert past. induction p as [a|op j IH]; intros past; [done|]. intros [H1 H2]. split; [done|]. intros x. apply IH, H2.
Qed.
Lemma wp_mono {A} ok (p : Prog Ans A) past (Q Q' : list (Event Ans) -> A -> Prop) : (forall t a, Q t a -> Q' t a) -> wp ok p past Q -> wp ok p past Q'.
Proof. intros HQ. revert past. induction p as [a|op k IH]; intros past; [apply HQ|]. intros [H1 H2]. split; [done|]. intros x. apply IH, H2. Qed.
Lemma wp_guard_mono {A} ok ok' (p : Prog Ans A) past Q : (forall t op, ok t op -> ok' t op) -> wp ok p past Q -> wp ok' p past Q.
Proof. intros Hok. revert past. induction p as [a|op k IH]; intros past; [done|]. intros [H1 H2]. split; [by apply Hok|]. intros x. apply IH, H2. Qed.
Lemma wp_perform ok op past (Q : list (Event Ans) -> Ans op -> Prop) : ok past op -> (forall x, Q (past ++ [mkEvent op x]) x) -> wp ok (perform op) past Q.
Proof. done. Qed.
(** Every log of the program meets the guard at each operation and the postcondition
    at its end. *)
Lemma wp_outcome {A} ok (p : Prog Ans A) past Q t a : wp ok p past Q -> outcome p t a ->
  Q (past ++ t) a /\ forall t1 e t2, t = t1 ++ e :: t2 -> ok (past ++ t1) (ev_op e).
Proof.
  revert past t. induction p as [b|op k IH]; intros past t; cbn.
  - intros HQ [-> ->]. rewrite app_nil_r. split; [done|]. by intros [] ??.
  - intros [Hok Hk] (x & t' & -> & Ho). destruct (IH x _ _ (Hk x) Ho) as [H1 H2]. rewrite <- app_assoc in H1. split; [done|].
    intros [|e1 t1] e t2; cbn; intros [= <- Ht]; [by rewrite app_nil_r|]. specialize (H2 _ _ _ Ht). by rewrite <- app_assoc in H2.
Qed.
Lemma wp_run {A} ok (p : Prog Ans A) Q t a : wp ok p [] Q -> outcome p t a -> Q t a.
Proof. intros H Ho. by destruct (wp_outcome ok p [] Q t a H Ho) as [? _]. Qed.
End Rules.
