(* ===== verification/GoFlag.v ===== *)
(** * The [flag] package, as the commands use it

    [FlagSet.Parse] under [ContinueOnError]: string, boolean and integer flags, where
    parsing stops, and what it refuses.  An integer flag takes a literal with a base
    prefix and underscores, as [strconv.ParseInt(s, 0, 64)] does. *)
From S2P Require Import Prelude GoStr Config.

(** ** [strconv.ParseInt(s, 0, 64)] *)
Definition lower_byte (c : ascii) : ascii := chr (Z.lor (code c) 32).
Definition base_digit (c : ascii) : option Z :=
  if is_digit c then Some (code c - 48) else if in_range "a" "z" (lower_byte c) then Some (code (lower_byte c) - 97 + 10) else None.
(** The value of the digits, skipping underscores. *)
Fixpoint base_digits (base acc : Z) (l : list ascii) : option Z :=
  match l with
  | [] => Some acc
  | c :: l =>
      if bool_decide (c = "_"%char) then base_digits base acc l
      else d ← base_digit c; if base <=? d then None else base_digits base (acc * base + d) l
  end.
Definition base_prefix (l : list ascii) : option (Z * list ascii) :=
  match l with
  | "0"%char :: c :: ((_ :: _) as t) =>
      let c := lower_byte c in
      if bool_decide (c = "b"%char) then Some (2, t) else if bool_decide (c = "o"%char) then Some (8, t)
      else if bool_decide (c = "x"%char) then Some (16, t) else None
  | _ => None
  end.
(** [underscoreOK]: an underscore only between digits, a base prefix counting as one.
    [i] is what was seen last: a digit, an underscore, the start, or something else. *)
Fixpoint underscores (hex : bool) (i : ascii) (l : list ascii) : bool :=
  match l with
  | [] => negb (bool_decide (i = "_"%char))
  | c :: l =>
      if is_digit c || (hex && in_range "a" "f" (lower_byte c)) then underscores hex "0" l
      else if bool_decide (c = "_"%char) then bool_decide (i = "0"%char) && underscores hex "_" l
      else negb (bool_decide (i = "_"%char)) && underscores hex "!" l
  end.
Definition underscoreOK (l : list ascii) : bool :=
  match l with
  | "0"%char :: c :: t =>
      let c := lower_byte c in
      if bool_decide (c ∈ ["b"; "o"; "x"]%char) then underscores (bool_decide (c = "x"%char)) "0" t else underscores false "^" l
  | _ => underscores false "^" l
  end.
Definition ParseUint0 (l : list ascii) : option Z :=
  match l with
  | [] => None
  | c :: t =>
      let '(base, ds) := match base_prefix l with Some x => x | None => if bool_decide (c = "0"%char) then (8, t) else (10, l) end in
      n ← base_digits base 0 ds;
      if (2 ^ 64 <=? n) || (contains_byte (str l) "_" && negb (underscoreOK l)) then None else Some n
  end.
Definition ParseInt0 (s : string) : option Z :=
  let go (neg : bool) l := n ← ParseUint0 l; if neg then (if n <=? 2 ^ 63 then Some (- n) else None) else (if n <? 2 ^ 63 then Some n else None) in
  match bytes s with "+"%char :: l => go false l | "-"%char :: l => go true l | l => go false l end.

(** ** [FlagSet.Parse] *)
Inductive FlagKind := FString | FBool | FInt.
Inductive FlagValue := VString (s : string) | VBool (b : bool) | VInt (z : Z).
Definition FlagSet := list (string * FlagKind).
Inductive flag_error := BadSyntax (arg : string) | NotDefined (name : string) | HelpRequested | NeedsArgument (name : string) | BadValue (name : string).
(** What one argument is: where the flags end, or a flag with the value after its [=]. *)
Inductive Word := WPositional | WTerminator | WBad | WFlag (name : string) (value : option string).
Definition flag_word (s : string) : Word :=
  match bytes s with
  | "-"%char :: c :: t =>
      if bool_decide (c = "-"%char) && bool_decide (t = []) then WTerminator
      else
        let name := if bool_decide (c = "-"%char) then t else c :: t in
        match name with
        | [] => WBad
        | a :: _ =>
            if bool_decide (a = "-"%char) || bool_decide (a = "="%char) then WBad
            else match cut_byte "=" name with Some (n, v) => WFlag (str n) (Some (str v)) | None => WFlag (str name) None end
        end
  | _ => WPositional
  end.
Definition kind_of (fs : FlagSet) (name : string) : option FlagKind := snd <$> List.find (fun f => bool_decide (f.1 = name)) fs.
Definition flag_value (k : FlagKind) (v : string) : option FlagValue :=
  match k with FString => Some (VString v) | FBool => VBool <$> ParseBool v | FInt => VInt <$> ParseInt0 v end.
Definition set_flag (name : string) (v : option FlagValue) (set : gmap string FlagValue) : result flag_error (gmap string FlagValue) :=
  match v with Some v => Ok (<[name := v]> set) | None => Err (BadValue name) end.
Fixpoint FlagParse (fs : FlagSet) (args : list string) (set : gmap string FlagValue) : result flag_error (gmap string FlagValue * list string) :=
  match args with
  | [] => Ok (set, [])
  | s :: rest =>
      match flag_word s with
      | WPositional => Ok (set, args)
      | WTerminator => Ok (set, rest)
      | WBad => Err (BadSyntax s)
      | WFlag name value =>
          match kind_of fs name with
          | None => Err (if bool_decide (name ∈ ["help"; "h"]) then HelpRequested else NotDefined name)
          | Some FBool =>
              set <-? set_flag name (match value with Some v => flag_value FBool v | None => Some (VBool true) end) set ;; FlagParse fs rest set
          | Some k =>
              match value with
              | Some v => set <-? set_flag name (flag_value k v) set ;; FlagParse fs rest set
              | None =>
                  match rest with
                  | [] => Err (NeedsArgument name)
                  | v :: rest => set <-? set_flag name (flag_value k v) set ;; FlagParse fs rest set
                  end
              end
          end
      end
  end.
Definition flag_string (set : gmap string FlagValue) (name dflt : string) : string := match set !! name with Some (VString s) => s | _ => dflt end.
Definition flag_bool (set : gmap string FlagValue) (name : string) : bool := match set !! name with Some (VBool b) => b | _ => false end.
Definition flag_int (set : gmap string FlagValue) (name : string) (dflt : Z) : Z := match set !! name with Some (VInt z) => z | _ => dflt end.

Example ex_int0 : ParseInt0 <$> ["0x1F"; "-0b101"; "1_000"; "1__0"; "017"; "0"; "08"; "9223372036854775808"; "-9223372036854775808"; ""; "0x"; "+7"] =
  [Some 31; Some (-5); Some 1000; None; Some 15; Some 0; None; None; Some (- 2 ^ 63); None; None; Some 7].
Proof. vm_compute. reflexivity. Qed.
Example ex_flags : FlagParse [("url", FString); ("n", FInt); ("yes", FBool)] ["--url"; "https://x"; "-n=0x10"; "--yes"; "rest"; "-n"; "3"] ∅ =
  Ok (<["yes" := VBool true]> (<["n" := VInt 16]> (<["url" := VString "https://x"]> ∅)), ["rest"; "-n"; "3"]).
Proof. vm_compute. reflexivity. Qed.
