(* ===== verification/Cli.v ===== *)
(** * The command line: [internal/cli/]

    A command is an interaction program: it sends requests to the admin API, reads
    files and the terminal, and prints.  What it prints is data, the columns of a line
    without their widths; a message on standard error is a constructor.  A request
    carries the address as it is put together, without escaping, and a reply the bytes
    of its body with what they parse to.  Arguments are valid UTF-8. *)
From S2P Require Import Prelude GoStr Json Config GoFlag Interact.

(** ** Operations *)
Inductive Payload := PJson (j : JSON) | PRaw (s : string).
Record Request := mkRequest { rq_Method : string; rq_URL : string; rq_Authorization : option string; rq_ContentType : option string;
  rq_body : option Payload; rq_timeout : Z }.
Record Reply := mkReply { rp_StatusCode : Z; rp_body : string; rp_json : option JSON }.
Inductive Cell := CStr (s : string) | CInt (z : Z) | CAny (j : JSON) | CTime (sec : Z).
(** [NotSent]: the request could not be made or was not answered. *)
Inductive cli_error := NotSent | APIError (code field message : string) | Refused (status : Z) | Undecodable | NotRead | NotWritten | Other | NoKey (address : string).
Inductive Complaint :=
  | Usage (cmd : string) | Flags (e : flag_error) | Failed (e : cli_error) | UnknownSubcommand (cmd name : string)
  | Withheld | Say (what : string) (cells : list Cell).
(** [Ask] prints a question on standard error and reads a line: [None] is a closed
    input with nothing on it.  The last five are what the binary itself does: running
    the server, the reset and the recovery library; an answer says whether it worked. *)
Inductive Op := Send (r : Request) | Ask (question : string) | Stdin | ReadFile (path : string) | WriteFile (path data : string)
  | Print (cells : list Cell) | Complain (c : Complaint)
  | Serve (config : string) | ResetAdmin (config : string) | DirEntries (path : string) | ReadShares | RestoreCapsule (capsule out service : string) (shares : list string).
Definition Ans (op : Op) : Type :=
  match op with Send _ => option Reply | Ask _ => option string | Stdin => option string | ReadFile _ => option string | WriteFile _ _ => bool
  | Print _ => unit | Complain _ => unit
  | Serve _ => bool | ResetAdmin _ => bool | DirEntries _ => option nat | ReadShares => option (list string) | RestoreCapsule _ _ _ _ => bool end.
Abbreviation CLI := (Prog Ans).
Definition send (r : Request) : CLI (option Reply) := perform (Send r).
Definition print (cells : list Cell) : CLI unit := perform (Print cells).
Definition complain (c : Complaint) : CLI unit := perform (Complain c).
Fixpoint each_ {A} (f : A -> CLI unit) (l : list A) : CLI unit := match l with [] => mret tt | a :: l => _ ← f a; each_ f l end.

(** ** The client *)
Record Client := mkClient { BaseURL : string; Token : string; Timeout : Z }.
Definition NewClient (Getenv : string -> string) : Client :=
  let base := Getenv "KYDNS_URL" in
  let base := if bool_decide (base = "") then "http://127.0.0.1:8053" else base in
  mkClient (TrimSuffix base "/") (Getenv "KYDNS_TOKEN") (seconds 10).
Definition bearer (c : Client) : option string := if bool_decide (Token c = "") then None else Some ("Bearer " +:+ Token c).
(** The API's error body, [code], [message] and [field] under [error]. *)
Definition error_fields : list (Field (string * string * string)) :=
  [field "Code" (fun e => e.1.1) (fun v e => (v, e.1.2, e.2)) dec_string; field "Message" (fun e => e.1.2) (fun v e => (e.1.1, v, e.2)) dec_string;
   field "Field" snd (fun v e => (e.1.1, e.1.2, v)) dec_string].
Definition error_body : Decoder (string * string * string) := dec_struct [field "error" (fun e => e) (fun v _ => v) (dec_struct error_fields)].
Definition read_reply {A} (dec : option (Decoder A)) (zero : A) (r : option Reply) : result cli_error A :=
  match r with
  | None => Err NotSent
  | Some r =>
      if 300 <=? rp_StatusCode r then
        match rp_json r ≫= (fun j => error_body j ("", "", "")) with
        | Some (code, message, fld) => Err (if bool_decide (message = "") then Refused (rp_StatusCode r) else APIError code fld message)
        | None => Err (Refused (rp_StatusCode r))
        end
      else match dec with
      | None => Ok zero
      | Some dec =>
          if bool_decide (rp_body r = "") then Ok zero
          else match rp_json r ≫= (fun j => dec j zero) with Some a => Ok a | None => Err Undecodable end
      end
  end.
Definition Do_ {A} (c : Client) (method path : string) (body : option JSON) (dec : option (Decoder A)) (zero : A) : CLI (result cli_error A) :=
  r ← send (mkRequest method (BaseURL c +:+ path) (bearer c) (Some "application/json") (PJson <$> body) (Timeout c));
  mret (read_reply dec zero r).
(** A call whose reply is not looked at, and one whose reply is decoded. *)
Definition call (c : Client) (method path : string) (body : option JSON) : CLI (result cli_error unit) := Do_ c method path body None tt.
Definition fetch {A} (c : Client) (method path : string) (body : option JSON) (dec : Decoder A) (zero : A) : CLI (result cli_error A) :=
  Do_ c method path body (Some dec) zero.
(** A request whose body is read as it is. *)
Definition plain_reply (r : option Reply) : result cli_error string :=
  match r with
  | None => Err NotSent
  | Some r => if 300 <=? rp_StatusCode r then Err (Refused (rp_StatusCode r)) else Ok (rp_body r)
  end.
Definition exchange (r : Request) : CLI (result cli_error string) := x ← send r; mret (plain_reply x).
Definition Download (c : Client) (path : string) : CLI (result cli_error string) :=
  exchange (mkRequest "GET" (BaseURL c +:+ path) (bearer c) None None (Timeout c)).

(** ** Leaving a command *)
Definition usage (cmd : string) : CLI Z := _ ← complain (Usage cmd); mret 2.
Definition fail (e : cli_error) : CLI Z := _ ← complain (Failed e); mret 1.
Definition unknown (cmd name : string) : CLI Z := _ ← complain (UnknownSubcommand cmd name); mret 2.
Definition done_ (cells : list Cell) : CLI Z := _ ← print cells; mret 0.
(** [if err := ...; err != nil { return fail(stderr, err) }] *)
Definition or_fail {A} (p : CLI (result cli_error A)) (k : A -> CLI Z) : CLI Z := r ← p; match r with Ok a => k a | Err e => fail e end.
(** [fs.Parse], which reports what it refuses itself. *)
Definition with_flags (fs : FlagSet) (args : list string) (k : gmap string FlagValue -> list string -> CLI Z) : CLI Z :=
  match FlagParse fs args ∅ with Ok (set, rest) => k set rest | Err e => _ ← complain (Flags e); mret 2 end.
Definition starts_with_dash (s : string) : bool := HasPrefix s "-".
Definition jstr (k v : string) : string * JSON := (k, JString v).
(** A map marshals with its keys in order. *)
Definition key_le (a b : string * JSON) : Prop := str_le a.1 b.1.
#[export] Instance map_key_le_dec : RelDecision key_le.
Proof. intros a b. unfold key_le. apply _. Defined.
Definition map_keys (m : gmap string JSON) : list (string * JSON) := merge_sort key_le (map_to_list m).
Definition jmap (m : gmap string JSON) : JSON := JObject (map_keys m).
Definition flagWasSet (set : gmap string FlagValue) (name : string) : bool := bool_decide (is_Some (set !! name)).

(** ** Backups *)
Definition backupDrillCmd (c : Client) (args : list string) : CLI Z :=
  match args with
  | _ :: _ => usage "backup-drill"
  | [] => or_fail (fetch c "POST" "/api/v1/backup/drill" None (fun j _ => Some j) JNull) (fun _ => done_ [CStr "backup drill passed"])
  end.
Definition pinned_fields : list (Field (string * Z * Z)) :=
  [field "recovery_key_id" (fun p => p.1.1) (fun v p => (v, p.1.2, p.2)) dec_string; field "threshold" (fun p => p.1.2) (fun v p => (p.1.1, v, p.2)) dec_int;
   field "total_shares" snd (fun v p => (p.1.1, p.1.2, v)) dec_int].
Definition pin_flags : FlagSet := [("public-key-file", FString); ("threshold", FInt); ("total-shares", FInt)].
Definition backupPinKeyCmd (c : Client) (args : list string) : CLI Z :=
  with_flags pin_flags args (fun set rest =>
  let path := flag_string set "public-key-file" "" in
  if bool_decide (path = "") || negb (bool_decide (rest = [])) then usage "backup-pin-key"
  else
    raw ← perform (ReadFile path);
    match raw with
    | None => fail NotRead
    | Some raw =>
        let body := jmap (list_to_map [jstr "public_key" (TrimSpace raw); ("threshold", JInt (flag_int set "threshold" 0)); ("total_shares", JInt (flag_int set "total-shares" 0))]) in
        or_fail (fetch c "POST" "/api/v1/backup/pin-key" (Some body) (dec_struct pinned_fields) ("", 0, 0)) (fun p =>
        done_ [CStr "pinned"; CStr p.1.1; CInt p.1.2; CInt p.2])
    end).
Definition one_string (name : string) : Decoder string := dec_struct [field name (fun s => s) (fun v _ => v) dec_string].
Definition one_int (name : string) : Decoder Z := dec_struct [field name (fun z => z) (fun v _ => v) dec_int].
Definition backupUnpairCmd (c : Client) (args : list string) : CLI Z :=
  match args with
  | _ :: _ => usage "backup-unpair"
  | [] => or_fail (fetch c "DELETE" "/api/v1/backup/pairing" None (one_string "note") "") (fun note => done_ [CStr note])
  end.
Definition backupScheduleCmd (c : Client) (args : list string) : CLI Z :=
  with_flags [("minutes", FInt)] args (fun set rest =>
  let minutes := flag_int set "minutes" (-1) in
  if (minutes <? 0) || negb (bool_decide (rest = [])) then usage "backup-schedule"
  else
    let body := jmap {[ "interval_sec" := JInt (int64 (minutes * 60)) ]} in
    or_fail (fetch c "PUT" "/api/v1/backup/schedule" (Some body) (one_int "interval_sec") 0) (fun secs =>
    if secs =? 0 then done_ [CStr "scheduled backups are off"] else done_ [CStr "every"; CInt (Z.quot secs 60); CStr "minutes"])).
Definition depositCmd (c : Client) (args : list string) : CLI Z :=
  match args with
  | _ :: _ => usage "deposit"
  | [] => or_fail (fetch c "POST" "/api/v1/backup/deposit" None (one_string "capsule_id") "") (fun id => done_ [CStr "deposited"; CStr id])
  end.
Definition exportCapsuleCmd (c : Client) (args : list string) : CLI Z :=
  with_flags [("out", FString)] args (fun set rest =>
  let out := flag_string set "out" "kydns-backup.kycap" in
  or_fail (Download c "/api/v1/backup/export-capsule") (fun raw =>
  written ← perform (WriteFile out raw);
  if (written : bool) then done_ [CStr out] else fail NotWritten)).
