(* ===== verification/CliRegistry.v ===== *)
(** * The registry's commands: services, records, views, tokens, export and import
    ([internal/cli/cli.go]) *)
From S2P Require Import Prelude GoStr Json Config GoFlag Interact Cli.

(** A reply that is a list of structs under one name. *)
Definition rows {A} (name : string) (zero : A) (fields : list (Field A)) : Decoder (list A) :=
  dec_struct [field name (fun l => l) (fun v _ => v) (dec_slice zero (dec_struct fields))].
Definition all_views (view : string) : string := if bool_decide (view = "") then "all views" else view.

(** ** service *)
Record ServiceRow := mkServiceRow { sr_ID : Z; sr_Name : string; sr_Addresses : list (string * string); sr_ProxyAddress : string; sr_RouteViaProxy : bool }.
Definition row_address_fields : list (Field (string * string)) :=
  [field "address" fst (fun v a => (v, a.2)) dec_string; field "view" snd (fun v a => (a.1, v)) dec_string].
Definition service_row_fields : list (Field ServiceRow) :=
  [field "id" sr_ID (fun v s => mkServiceRow v (sr_Name s) (sr_Addresses s) (sr_ProxyAddress s) (sr_RouteViaProxy s)) dec_int;
   field "name" sr_Name (fun v s => mkServiceRow (sr_ID s) v (sr_Addresses s) (sr_ProxyAddress s) (sr_RouteViaProxy s)) dec_string;
   field "addresses" sr_Addresses (fun v s => mkServiceRow (sr_ID s) (sr_Name s) v (sr_ProxyAddress s) (sr_RouteViaProxy s)) (dec_slice ("", "") (dec_struct row_address_fields));
   field "proxy_address" sr_ProxyAddress (fun v s => mkServiceRow (sr_ID s) (sr_Name s) (sr_Addresses s) v (sr_RouteViaProxy s)) dec_string;
   field "route_via_proxy" sr_RouteViaProxy (fun v s => mkServiceRow (sr_ID s) (sr_Name s) (sr_Addresses s) (sr_ProxyAddress s) v) dec_bool].
Definition print_service (s : ServiceRow) : CLI unit :=
  let suffix := if sr_RouteViaProxy s then " -> " +:+ sr_ProxyAddress s else "" in
  each_ (fun a => print [CInt (sr_ID s); CStr (sr_Name s); CStr a.1; CStr (all_views a.2 +:+ suffix)]) (sr_Addresses s).
Definition service_flags : FlagSet := [("address", FString); ("view", FString); ("alias", FString); ("check", FString); ("proxy", FString); ("via-proxy", FBool); ("mac", FString)].
Definition opt_key (k s : string) (m : gmap string JSON) : gmap string JSON := if bool_decide (s = "") then m else <[k := JString s]> m.
Definition service_body (name : string) (set : gmap string FlagValue) : JSON :=
  let alias := flag_string set "alias" "" in
  let m := <["name" := JString name]> {[ "addresses" := JArray [jmap (list_to_map [jstr "address" (flag_string set "address" ""); jstr "view" (flag_string set "view" "")])] ]} in
  let m := opt_key "check_url" (flag_string set "check" "") m in
  let m := if bool_decide (alias = "") then m else <["aliases" := enc_strings (Split alias ",")]> m in
  let m := opt_key "proxy_address" (flag_string set "proxy" "") m in
  let m := if flag_bool set "via-proxy" then <["route_via_proxy" := JBool true]> m else m in
  jmap (opt_key "mac" (flag_string set "mac" "") m).
Definition service_add (c : Client) (args : list string) : CLI Z :=
  match args with
  | name :: args =>
      if starts_with_dash name then usage "service add"
      else with_flags service_flags args (fun set _ =>
        if bool_decide (flag_string set "address" "" = "") then usage "service add"
        else or_fail (call c "POST" "/api/v1/services" (Some (service_body name set))) (fun _ => done_ [CStr "added service"; CStr name]))
  | [] => usage "service add"
  end.
Definition service_update (c : Client) (args : list string) : CLI Z :=
  match args with
  | id :: args =>
      if starts_with_dash id then usage "service update"
      else with_flags [("mac", FString)] args (fun set _ =>
        if negb (flagWasSet set "mac") then usage "service update"
        else or_fail (call c "PATCH" ("/api/v1/services/" +:+ id) (Some (jmap {[ "mac" := JString (flag_string set "mac" "") ]})))
               (fun _ => done_ [CStr "updated service"; CStr id]))
  | [] => usage "service update"
  end.
Definition serviceCmd (c : Client) (args : list string) : CLI Z :=
  match args with
  | [] => usage "service"
  | sub :: rest =>
      if bool_decide (sub = "list") then
        or_fail (fetch c "GET" "/api/v1/services" None (rows "services" (mkServiceRow 0 "" [] "" false) service_row_fields) []) (fun out =>
        _ ← each_ print_service out; mret 0)
      else if bool_decide (sub = "add") then service_add c rest
      else if bool_decide (sub = "update") then service_update c rest
      else if bool_decide (sub = "rm") then
        match rest with
        | [id] => or_fail (call c "DELETE" ("/api/v1/services/" +:+ id) None) (fun _ => done_ [CStr "removed service"; CStr id])
        | _ => usage "service rm"
        end
      else unknown "service" sub
  end.

(** ** record *)
Record RecordRow := mkRecordRow { rr_ID : Z; rr_Name : string; rr_Type : string; rr_Value : string; rr_View : string }.
Definition record_row_fields : list (Field RecordRow) :=
  [field "id" rr_ID (fun v r => mkRecordRow v (rr_Name r) (rr_Type r) (rr_Value r) (rr_View r)) dec_int;
   field "name" rr_Name (fun v r => mkRecordRow (rr_ID r) v (rr_Type r) (rr_Value r) (rr_View r)) dec_string;
   field "type" rr_Type (fun v r => mkRecordRow (rr_ID r) (rr_Name r) v (rr_Value r) (rr_View r)) dec_string;
   field "value" rr_Value (fun v r => mkRecordRow (rr_ID r) (rr_Name r) (rr_Type r) v (rr_View r)) dec_string;
   field "view" rr_View (fun v r => mkRecordRow (rr_ID r) (rr_Name r) (rr_Type r) (rr_Value r) v) dec_string].
Definition record_body (name type value : string) (more : list string) : JSON :=
  let m := list_to_map [jstr "name" name; jstr "type" (ToUpper type); jstr "value" value] in
  jmap (match more with [view] => <["view" := JString view]> m | _ => m end).
Definition recordCmd (c : Client) (args : list string) : CLI Z :=
  match args with
  | sub :: rest =>
      if bool_decide (sub = "list") then
        or_fail (fetch c "GET" "/api/v1/records" None (rows "records" (mkRecordRow 0 "" "" "" "") record_row_fields) []) (fun out =>
        _ ← each_ (fun r => print [CInt (rr_ID r); CStr (rr_Name r); CStr (rr_Type r); CStr (rr_Value r); CStr (all_views (rr_View r))]) out; mret 0)
      else match rest with
      | name :: type :: value :: more =>
          if bool_decide (sub = "add") then
            or_fail (call c "POST" "/api/v1/records" (Some (record_body name type value more))) (fun _ => done_ [CStr "added record"; CStr name])
          else usage "record"
      | [id] =>
          if bool_decide (sub = "rm") then or_fail (call c "DELETE" ("/api/v1/records/" +:+ id) None) (fun _ => done_ [CStr "removed record"; CStr id])
          else usage "record"
      | _ => usage "record"
      end
  | [] => usage "record"
  end.

(** ** view *)
Definition view_row_fields : list (Field (string * list string)) :=
  [field "name" fst (fun v r => (v, r.2)) dec_string; field "subnets" snd (fun v r => (r.1, v)) (dec_slice "" dec_string)].
Definition view_body (name subnets : string) : JSON := jmap (<["name" := JString name]> {[ "subnets" := enc_strings (Split subnets ",") ]}).
Definition viewCmd (c : Client) (args : list string) : CLI Z :=
  match args with
  | sub :: rest =>
      if bool_decide (sub = "list") then
        or_fail (fetch c "GET" "/api/v1/views" None (rows "views" ("", []) view_row_fields) []) (fun out =>
        _ ← each_ (fun v => print [CStr v.1; CStr (Join v.2 ", ")]) out; mret 0)
      else match rest with
      | [name; subnets] =>
          if bool_decide (sub = "add") then or_fail (call c "POST" "/api/v1/views" (Some (view_body name subnets))) (fun _ => done_ [CStr "added view"; CStr name])
          else usage "view"
      | [name] =>
          if bool_decide (sub = "rm") then or_fail (call c "DELETE" ("/api/v1/views/" +:+ name) None) (fun _ => done_ [CStr "removed view"; CStr name])
          else usage "view"
      | _ => usage "view"
      end
  | [] => usage "view"
  end.

(** ** token *)
(** [map[string]any]: the pairs as they are; a later one of the same key wins. *)
Definition dec_map : Decoder (list (string * JSON)) := fun j old => match j with JNull => Some [] | JObject kvs => Some (old ++ kvs) | _ => None end.
Definition any_at (k : string) (m : list (string * JSON)) : JSON := default JNull (snd <$> last (filter (fun kv => kv.1 = k) m)).
Definition tokens_reply : Decoder (list (list (string * JSON))) := dec_struct [field "tokens" (fun l => l) (fun v _ => v) (dec_slice [] dec_map)].
Definition tokenCmd (c : Client) (args : list string) : CLI Z :=
  match args with
  | sub :: rest =>
      if bool_decide (sub = "list") then
        or_fail (fetch c "GET" "/api/v1/tokens" None tokens_reply []) (fun out =>
        _ ← each_ (fun t => print [CAny (any_at "id" t); CAny (any_at "label" t)]) out; mret 0)
      else match rest with
      | [x] =>
          if bool_decide (sub = "add") then
            or_fail (fetch c "POST" "/api/v1/tokens" (Some (jmap {[ "label" := JString x ]})) (one_string "token") "") (fun token => done_ [CStr token])
          else if bool_decide (sub = "rm") then
            or_fail (call c "DELETE" ("/api/v1/tokens/" +:+ x) None) (fun _ => done_ [CStr "revoked token"; CStr x])
          else usage "token"
      | _ => usage "token"
      end
  | [] => usage "token"
  end.

(** ** export and import: these set the header even with no token *)
Definition exportCmd (c : Client) (args : list string) : CLI Z :=
  let format := match args with f :: _ => f | [] => "yaml" end in
  or_fail (exchange (mkRequest "GET" (BaseURL c +:+ "/api/v1/export?format=" +:+ format) (Some ("Bearer " +:+ Token c)) None None (Timeout c))) (fun body =>
  done_ [CStr body]).
Definition importCmd (c : Client) (args : list string) : CLI Z :=
  with_flags [("merge", FBool); ("replace", FBool)] args (fun set _ =>
  if bool_decide (flag_bool set "merge" = flag_bool set "replace") then usage "import"
  else
    let mode := if flag_bool set "replace" then "replace" else "merge" in
    body ← perform Stdin;
    match body with
    | None => fail NotRead
    | Some body =>
        or_fail (exchange (mkRequest "POST" (BaseURL c +:+ "/api/v1/import?mode=" +:+ mode) (Some ("Bearer " +:+ Token c)) (Some "application/yaml") (Some (PRaw body)) (Timeout c)))
          (fun _ => done_ [CStr "imported"; CStr mode])
    end).
