(* ===== verification/CliServer.v ===== *)
(** * The commands for filtering, settings and DHCP
    ([internal/cli/blacklist.go], [settings.go], [dhcp.go]) *)
From S2P Require Import Prelude GoStr Json Config GoFlag Interact Cli CliRegistry.

(** ** blacklist *)
Record blacklistListRow := mkListRow { lr_ID : Z; lr_Name : string; lr_URL : string; lr_Format : string; lr_Enabled : bool; lr_Builtin : bool; lr_IntervalSeconds : Z;
  lr_EntryCount : Z; lr_SkippedCount : Z; lr_LastOKAt : Z; lr_LastError : string }.
Definition listRow0 : blacklistListRow := mkListRow 0 "" "" "" false false 0 0 0 0 "".
Definition list_row_fields : list (Field blacklistListRow) :=
  [field "id" lr_ID (fun v l => mkListRow v (lr_Name l) (lr_URL l) (lr_Format l) (lr_Enabled l) (lr_Builtin l) (lr_IntervalSeconds l) (lr_EntryCount l) (lr_SkippedCount l) (lr_LastOKAt l) (lr_LastError l)) dec_int;
   field "name" lr_Name (fun v l => mkListRow (lr_ID l) v (lr_URL l) (lr_Format l) (lr_Enabled l) (lr_Builtin l) (lr_IntervalSeconds l) (lr_EntryCount l) (lr_SkippedCount l) (lr_LastOKAt l) (lr_LastError l)) dec_string;
   field "url" lr_URL (fun v l => mkListRow (lr_ID l) (lr_Name l) v (lr_Format l) (lr_Enabled l) (lr_Builtin l) (lr_IntervalSeconds l) (lr_EntryCount l) (lr_SkippedCount l) (lr_LastOKAt l) (lr_LastError l)) dec_string;
   field "format" lr_Format (fun v l => mkListRow (lr_ID l) (lr_Name l) (lr_URL l) v (lr_Enabled l) (lr_Builtin l) (lr_IntervalSeconds l) (lr_EntryCount l) (lr_SkippedCount l) (lr_LastOKAt l) (lr_LastError l)) dec_string;
   field "enabled" lr_Enabled (fun v l => mkListRow (lr_ID l) (lr_Name l) (lr_URL l) (lr_Format l) v (lr_Builtin l) (lr_IntervalSeconds l) (lr_EntryCount l) (lr_SkippedCount l) (lr_LastOKAt l) (lr_LastError l)) dec_bool;
   field "builtin" lr_Builtin (fun v l => mkListRow (lr_ID l) (lr_Name l) (lr_URL l) (lr_Format l) (lr_Enabled l) v (lr_IntervalSeconds l) (lr_EntryCount l) (lr_SkippedCount l) (lr_LastOKAt l) (lr_LastError l)) dec_bool;
   field "interval_seconds" lr_IntervalSeconds (fun v l => mkListRow (lr_ID l) (lr_Name l) (lr_URL l) (lr_Format l) (lr_Enabled l) (lr_Builtin l) v (lr_EntryCount l) (lr_SkippedCount l) (lr_LastOKAt l) (lr_LastError l)) dec_int;
   field "entry_count" lr_EntryCount (fun v l => mkListRow (lr_ID l) (lr_Name l) (lr_URL l) (lr_Format l) (lr_Enabled l) (lr_Builtin l) (lr_IntervalSeconds l) v (lr_SkippedCount l) (lr_LastOKAt l) (lr_LastError l)) dec_int;
   field "skipped_count" lr_SkippedCount (fun v l => mkListRow (lr_ID l) (lr_Name l) (lr_URL l) (lr_Format l) (lr_Enabled l) (lr_Builtin l) (lr_IntervalSeconds l) (lr_EntryCount l) v (lr_LastOKAt l) (lr_LastError l)) dec_int;
   field "last_ok_at" lr_LastOKAt (fun v l => mkListRow (lr_ID l) (lr_Name l) (lr_URL l) (lr_Format l) (lr_Enabled l) (lr_Builtin l) (lr_IntervalSeconds l) (lr_EntryCount l) (lr_SkippedCount l) v (lr_LastError l)) dec_int;
   field "last_error" lr_LastError (fun v l => mkListRow (lr_ID l) (lr_Name l) (lr_URL l) (lr_Format l) (lr_Enabled l) (lr_Builtin l) (lr_IntervalSeconds l) (lr_EntryCount l) (lr_SkippedCount l) (lr_LastOKAt l) v) dec_string].
Definition print_list (l : blacklistListRow) : CLI unit :=
  let state := if lr_Enabled l then "on" else "off" in
  let note := if lr_LastOKAt l =? 0 then " never loaded" else if bool_decide (lr_LastError l = "") then "" else " stale: " +:+ lr_LastError l in
  print [CInt (lr_ID l); CStr (lr_Name l); CStr state; CStr (lr_Format l); CInt (lr_EntryCount l); CStr ("entries" +:+ note)].
Definition blacklistList (c : Client) : CLI Z :=
  or_fail (fetch c "GET" "/api/v1/blacklists/lists" None (rows "lists" listRow0 list_row_fields) []) (fun out => _ ← each_ print_list out; mret 0).
Definition blacklist_settings_fields : list (Field (bool * Z)) :=
  [field "enabled" fst (fun v s => (v, s.2)) dec_bool; field "block_ttl" snd (fun v s => (s.1, v)) dec_int].
Definition blacklistStatus (c : Client) : CLI Z :=
  or_fail (fetch c "GET" "/api/v1/blacklists/settings" None (dec_struct blacklist_settings_fields) (false, 0)) (fun set =>
  _ ← print [CStr "filtering"; CStr (if set.1 then "on" else "off"); CStr "blocks cached for"; CInt set.2];
  blacklistList c).
Definition list_flags : FlagSet := [("url", FString); ("format", FString); ("interval", FInt)].
Definition list_body (name : string) (set : gmap string FlagValue) : JSON :=
  jmap (list_to_map [jstr "name" name; jstr "url" (flag_string set "url" ""); jstr "format" (flag_string set "format" "domains"); ("enabled", JBool true);
    ("interval_seconds", JInt (flag_int set "interval" 86400))]).
Definition blacklistAdd (c : Client) (args : list string) : CLI Z :=
  match args with
  | [] => usage "blacklist add"
  | name :: args =>
      if starts_with_dash name then usage "blacklist add"
      else with_flags list_flags args (fun set _ =>
        let url := flag_string set "url" "" in
        if bool_decide (url = "") then usage "blacklist add"
        else if negb (HasPrefix url "https://") then _ ← complain (Say "a list URL must be https" []); mret 1
        else or_fail (call c "POST" "/api/v1/blacklists/lists" (Some (list_body name set))) (fun _ => done_ [CStr "added list"; CStr name]))
  end.
Record RuleRow := mkRuleRow { ur_ID : Z; ur_Kind : string; ur_Domain : string }.
Definition rule_row_fields : list (Field RuleRow) :=
  [field "id" ur_ID (fun v r => mkRuleRow v (ur_Kind r) (ur_Domain r)) dec_int; field "kind" ur_Kind (fun v r => mkRuleRow (ur_ID r) v (ur_Domain r)) dec_string;
   field "domain" ur_Domain (fun v r => mkRuleRow (ur_ID r) (ur_Kind r) v) dec_string].
Fixpoint blacklistRules (c : Client) (kinds : list string) : CLI Z :=
  match kinds with
  | [] => mret 0
  | kind :: kinds =>
      or_fail (fetch c "GET" ("/api/v1/blacklists/rules/" +:+ kind) None (rows "rules" (mkRuleRow 0 "" "") rule_row_fields) []) (fun out =>
      _ ← each_ (fun r => print [CInt (ur_ID r); CStr (ur_Kind r); CStr (ur_Domain r)]) out; blacklistRules c kinds)
  end.
Definition test_fields : list (Field (string * bool * string)) :=
  [field "name" (fun t => t.1.1) (fun v t => (v, t.1.2, t.2)) dec_string; field "blocked" (fun t => t.1.2) (fun v t => (t.1.1, v, t.2)) dec_bool;
   field "policy" snd (fun v t => (t.1.1, t.1.2, v)) dec_string].
Definition blacklistCmd (c : Client) (args : list string) : CLI Z :=
  match args with
  | [] => usage "blacklist"
  | sub :: rest =>
      if bool_decide (sub = "status") then blacklistStatus c
      else if bool_decide (sub ∈ ["on"; "off"]) then
        or_fail (call c "PATCH" "/api/v1/blacklists/settings" (Some (jmap {[ "enabled" := JBool (bool_decide (sub = "on")) ]}))) (fun _ => done_ [CStr "filtering"; CStr sub])
      else if bool_decide (sub = "list") then blacklistList c
      else if bool_decide (sub = "add") then blacklistAdd c rest
      else if bool_decide (sub = "rm") then
        match rest with
        | [id] => or_fail (call c "DELETE" ("/api/v1/blacklists/lists/" +:+ id) None) (fun _ => done_ [CStr "removed list"; CStr id])
        | _ => usage "blacklist rm"
        end
      else if bool_decide (sub = "refresh") then
        let go target := or_fail (call c "POST" ("/api/v1/blacklists/lists/" +:+ target +:+ "/refresh") None) (fun _ => done_ [CStr "refreshed"; CStr target]) in
        match rest with [] => go "all" | [target] => go target | _ => usage "blacklist refresh" end
      else if bool_decide (sub ∈ ["allow"; "deny"]) then
        match rest with
        | [domain] =>
            or_fail (call c "POST" ("/api/v1/blacklists/rules/" +:+ sub) (Some (jmap {[ "domain" := JString domain ]}))) (fun _ => done_ [CStr "added"; CStr sub; CStr "rule for"; CStr domain])
        | _ => usage ("blacklist " +:+ sub)
        end
      else if bool_decide (sub = "rules") then blacklistRules c (match rest with [kind] => [kind] | _ => ["deny"; "allow"] end)
      else if bool_decide (sub = "unrule") then
        match rest with
        | [kind; id] => or_fail (call c "DELETE" ("/api/v1/blacklists/rules/" +:+ kind +:+ "/" +:+ id) None) (fun _ => done_ [CStr "removed"; CStr kind; CStr "rule"; CStr id])
        | _ => usage "blacklist unrule"
        end
      else if bool_decide (sub = "test") then
        match rest with
        | [name] =>
            or_fail (fetch c "GET" ("/api/v1/blacklists/test?name=" +:+ name) None (dec_struct test_fields) ("", false, "")) (fun out =>
            if out.1.2 then done_ [CStr out.1.1; CStr "blocked by"; CStr out.2] else done_ [CStr out.1.1; CStr "allowed"; CStr out.2])
        | _ => usage "blacklist test"
        end
      else unknown "blacklist" sub
  end.

(** ** settings *)
Inductive SettingKind := KString | KList | KBool | KInt.
Definition settingsKinds : list (string * SettingKind) :=
  [("private_domain", KString); ("dhcp_lease_file", KString); ("reverse_zones", KList); ("upstreams", KList); ("allow_query", KList);
   ("allow_tailscale", KBool); ("log_queries", KBool); ("log_client_ip", KBool); ("ttl", KInt); ("cache_min_ttl", KInt); ("cache_max_ttl", KInt);
   ("negative_max_ttl", KInt); ("cache_entries", KInt); ("discovery_interval", KInt); ("health_interval", KInt); ("health_timeout", KInt); ("health_workers", KInt);
   ("dhcp_enabled", KBool); ("dhcp_interface", KString); ("dhcp_range_start", KString); ("dhcp_range_end", KString); ("dhcp_gateway", KString);
   ("dhcp_lease_seconds", KInt); ("dhcp_secondary_dns", KString); ("dhcp_allow_foreign", KBool)].
Definition setting_kind (k : string) : option SettingKind := snd <$> List.find (fun x => bool_decide (x.1 = k)) settingsKinds.
Definition setting_value (kind : SettingKind) (raw : string) : option JSON :=
  match kind with
  | KInt => JInt <$> Atoi raw
  | KBool => JBool <$> ParseBool raw
  | KList => Some (enc_strings (filter (fun p => p <> "") (TrimSpace <$> Split raw ",")))
  | KString => Some (JString raw)
  end.
Definition cut_assignment (arg : string) : option (string * string) := (fun p => (str p.1, str p.2)) <$> cut_byte "=" (bytes arg).
Fixpoint settings_body (args : list string) (body : gmap string JSON) : result Complaint (gmap string JSON) :=
  match args with
  | [] => Ok body
  | arg :: args =>
      if bool_decide (arg = "--confirm-public") then
        match args with
        | [] => Err (Say "--confirm-public needs a CIDR" [])
        | cidr :: args => settings_body args (<["confirm_public" := JString cidr]> body)
        end
      else match cut_assignment arg with
      | None => Err (Say "not key=value" [CStr arg])
      | Some (k, raw) =>
          match setting_kind k with
          | None => Err (Say "unknown setting" [CStr k])
          | Some kind =>
              match setting_value kind raw with
              | None => Err (Say (match kind with KInt => "must be a whole number" | _ => "must be true or false" end) [CStr k; CStr raw])
              | Some v => settings_body args (<[k := v]> body)
              end
          end
      end
  end.
Definition settingsSet (c : Client) (args : list string) : CLI Z :=
  match args with
  | [] => usage "settings"
  | _ =>
      match settings_body args ∅ with
      | Err e => _ ← complain e; mret 2
      | Ok body => or_fail (fetch c "PATCH" "/api/v1/settings" (Some (jmap body)) (fun j _ => Some j) JNull) (fun _ => done_ [CStr "settings updated"])
      end
  end.
Definition print_setting (kv : string * JSON) : CLI unit :=
  match kv.2 with JArray l => print (CStr kv.1 :: (CAny <$> l)) | v => print [CStr kv.1; CAny v] end.
Definition settingsGet (c : Client) : CLI Z :=
  or_fail (fetch c "GET" "/api/v1/settings" None dec_map []) (fun got =>
  _ ← each_ print_setting (map_keys (list_to_map (rev got))); mret 0).
Definition settingsCmd (c : Client) (args : list string) : CLI Z :=
  match args with
  | [] => usage "settings"
  | sub :: rest => if bool_decide (sub = "get") then settingsGet c else if bool_decide (sub = "set") then settingsSet c rest else usage "settings"
  end.

(** ** dhcp *)
Definition dhcp_state_fields : list (Field (bool * string)) := [field "running" fst (fun v s => (v, s.2)) dec_bool; field "error" snd (fun v s => (s.1, v)) dec_string].
Definition dhcpStatus (c : Client) : CLI (result cli_error (bool * string)) := fetch c "GET" "/api/v1/dhcp/status" None (dec_struct dhcp_state_fields) (false, "").
Definition printDHCPStatus (st : bool * string) : CLI unit :=
  _ ← print [CStr "running"; CStr (if st.1 then "yes" else "no")];
  if bool_decide (st.2 = "") then mret tt else print [CStr "last error"; CStr st.2].
Record LeaseRow := mkLeaseRow { wr_Hostname : string; wr_Address : string; wr_MAC : string; wr_Expires : Z }.
Definition lease_row_fields : list (Field LeaseRow) :=
  [field "hostname" wr_Hostname (fun v l => mkLeaseRow v (wr_Address l) (wr_MAC l) (wr_Expires l)) dec_string;
   field "address" wr_Address (fun v l => mkLeaseRow (wr_Hostname l) v (wr_MAC l) (wr_Expires l)) dec_string;
   field "mac" wr_MAC (fun v l => mkLeaseRow (wr_Hostname l) (wr_Address l) v (wr_Expires l)) dec_string;
   field "expires" wr_Expires (fun v l => mkLeaseRow (wr_Hostname l) (wr_Address l) (wr_MAC l) v) dec_int].
Definition dhcpLeases (c : Client) : CLI Z :=
  or_fail (fetch c "GET" "/api/v1/leases" None (rows "leases" (mkLeaseRow "" "" "" 0) lease_row_fields) []) (fun out =>
  match out with
  | [] =>
      or_fail (dhcpStatus c) (fun st =>
      _ ← print [CStr "no leases"];
      _ ← (if st.1 then mret tt else print [CStr "the built-in DHCP server is not running"]);
      _ ← (if bool_decide (st.2 = "") then mret tt else print [CStr st.2]);
      mret 0)
  | _ => _ ← each_ (fun l => print [CStr (wr_Address l); CStr (wr_Hostname l); CStr (wr_MAC l); CTime (wr_Expires l)]) out; mret 0
  end).
Definition dhcpCmd (c : Client) (args : list string) : CLI Z :=
  match args with
  | [sub] =>
      if bool_decide (sub = "status") then or_fail (dhcpStatus c) (fun st => _ ← printDHCPStatus st; mret 0)
      else if bool_decide (sub = "leases") then dhcpLeases c
      else unknown "dhcp" sub
  | _ => usage "dhcp"
  end.
