(* ===== verification/CliReplica.v ===== *)
(** * The commands for replication: [internal/cli/replica.go]

    Joining is two calls with the operator's decision between them; joining a primary
    and promoting a replica ask once more.  [tty] says whether standard input is a
    terminal. *)
From S2P Require Import Prelude GoStr Json Config GoFlag Interact Cli CliRegistry.

Definition normalizeFingerprint (fp : string) : string := ToLower (TrimSpace fp).
(** [ask]: anything that is not an explicit yes is a no. *)
Definition is_yes (line : option string) : bool :=
  match line with None => false | Some l => bool_decide (ToLower (TrimSpace l) ∈ ["y"; "yes"]) end.
Definition ask (question : string) : CLI bool := line ← perform (Ask question); mret (is_yes line).
Definition codeWithheld : CLI unit := complain Withheld.
Definition pairingClient (c : Client) : Client := mkClient (BaseURL c) (Token c) (seconds 60).

(** ** Status and lists *)
Record nodeStatus := mkNodeStatus { ns_Role : string; ns_PrimaryAddr : string; ns_PrimaryNodeID : string; ns_NodeID : string; ns_LastSyncUnix : Z;
  ns_LastVersion : Z; ns_LastError : string; ns_Stale : bool }.
Definition nodeStatus0 : nodeStatus := mkNodeStatus "" "" "" "" 0 0 "" false.
Definition node_status_fields : list (Field nodeStatus) :=
  [field "role" ns_Role (fun v s => mkNodeStatus v (ns_PrimaryAddr s) (ns_PrimaryNodeID s) (ns_NodeID s) (ns_LastSyncUnix s) (ns_LastVersion s) (ns_LastError s) (ns_Stale s)) dec_string;
   field "primary_address" ns_PrimaryAddr (fun v s => mkNodeStatus (ns_Role s) v (ns_PrimaryNodeID s) (ns_NodeID s) (ns_LastSyncUnix s) (ns_LastVersion s) (ns_LastError s) (ns_Stale s)) dec_string;
   field "primary_node_id" ns_PrimaryNodeID (fun v s => mkNodeStatus (ns_Role s) (ns_PrimaryAddr s) v (ns_NodeID s) (ns_LastSyncUnix s) (ns_LastVersion s) (ns_LastError s) (ns_Stale s)) dec_string;
   field "node_id" ns_NodeID (fun v s => mkNodeStatus (ns_Role s) (ns_PrimaryAddr s) (ns_PrimaryNodeID s) v (ns_LastSyncUnix s) (ns_LastVersion s) (ns_LastError s) (ns_Stale s)) dec_string;
   field "last_sync_unix" ns_LastSyncUnix (fun v s => mkNodeStatus (ns_Role s) (ns_PrimaryAddr s) (ns_PrimaryNodeID s) (ns_NodeID s) v (ns_LastVersion s) (ns_LastError s) (ns_Stale s)) dec_int;
   field "last_version" ns_LastVersion (fun v s => mkNodeStatus (ns_Role s) (ns_PrimaryAddr s) (ns_PrimaryNodeID s) (ns_NodeID s) (ns_LastSyncUnix s) v (ns_LastError s) (ns_Stale s)) dec_int;
   field "last_error" ns_LastError (fun v s => mkNodeStatus (ns_Role s) (ns_PrimaryAddr s) (ns_PrimaryNodeID s) (ns_NodeID s) (ns_LastSyncUnix s) (ns_LastVersion s) v (ns_Stale s)) dec_string;
   field "stale" ns_Stale (fun v s => mkNodeStatus (ns_Role s) (ns_PrimaryAddr s) (ns_PrimaryNodeID s) (ns_NodeID s) (ns_LastSyncUnix s) (ns_LastVersion s) (ns_LastError s) v) dec_bool].
Definition get_status (c : Client) : CLI (result cli_error nodeStatus) := fetch c "GET" "/api/v1/replica/status" None (dec_struct node_status_fields) nodeStatus0.
Definition when_ (b : bool) (p : CLI unit) : CLI unit := if b then p else mret tt.
Definition printNodeStatus (st : nodeStatus) : CLI unit :=
  _ ← print [CStr "role"; CStr (ns_Role st)];
  _ ← when_ (negb (bool_decide (ns_NodeID st = ""))) (print [CStr "fingerprint"; CStr (ns_NodeID st)]);
  when_ (bool_decide (ns_Role st = "replica")) (
    _ ← print [CStr "follows"; CStr (ns_PrimaryAddr st)];
    _ ← print [CStr "last sync"; CTime (ns_LastSyncUnix st)];
    _ ← print [CStr "version"; CInt (ns_LastVersion st)];
    _ ← when_ (ns_Stale st) (print [CStr "stale"; CStr "yes"]);
    when_ (negb (bool_decide (ns_LastError st = ""))) (print [CStr "last error"; CStr (ns_LastError st)])).
Definition replicaStatus_ (c : Client) : CLI Z := or_fail (get_status c) (fun st => _ ← printNodeStatus st; mret 0).
Record replicaRow := mkReplicaRow { rw_NodeID : string; rw_Label : string; rw_LastSyncAt : Z; rw_Lag : Z; rw_Status : string }.
Definition replica_row_fields : list (Field replicaRow) :=
  [field "node_id" rw_NodeID (fun v r => mkReplicaRow v (rw_Label r) (rw_LastSyncAt r) (rw_Lag r) (rw_Status r)) dec_string;
   field "label" rw_Label (fun v r => mkReplicaRow (rw_NodeID r) v (rw_LastSyncAt r) (rw_Lag r) (rw_Status r)) dec_string;
   field "last_sync_at" rw_LastSyncAt (fun v r => mkReplicaRow (rw_NodeID r) (rw_Label r) v (rw_Lag r) (rw_Status r)) dec_int;
   field "lag" rw_Lag (fun v r => mkReplicaRow (rw_NodeID r) (rw_Label r) (rw_LastSyncAt r) v (rw_Status r)) dec_int;
   field "status" rw_Status (fun v r => mkReplicaRow (rw_NodeID r) (rw_Label r) (rw_LastSyncAt r) (rw_Lag r) v) dec_string].
Definition lagText (r : replicaRow) : string := if rw_LastSyncAt r =? 0 then "-" else itoa (rw_Lag r).
Definition replicas_reply : Decoder (Z * list replicaRow) :=
  dec_struct [field "config_version" fst (fun v p => (v, p.2)) dec_int;
    field "replicas" snd (fun v p => (p.1, v)) (dec_slice (mkReplicaRow "" "" 0 0 "") (dec_struct replica_row_fields))].
Definition replicaList (c : Client) : CLI Z :=
  or_fail (get_status c) (fun st =>
  if bool_decide (ns_Role st = "replica") then _ ← printNodeStatus st; mret 0
  else or_fail (fetch c "GET" "/api/v1/replicas" None replicas_reply (0, [])) (fun out =>
    _ ← each_ (fun r => print [CStr (rw_NodeID r); CStr (rw_Label r); CStr (rw_Status r); CStr "lag"; CStr (lagText r); CStr "last sync"; CTime (rw_LastSyncAt r)]) out.2;
    mret 0)).

(** ** Inviting *)
Definition invite_fields : list (Field (string * string * Z)) :=
  [field "code" (fun i => i.1.1) (fun v i => (v, i.1.2, i.2)) dec_string; field "node_id" (fun i => i.1.2) (fun v i => (i.1.1, v, i.2)) dec_string;
   field "expires_at" snd (fun v i => (i.1.1, i.1.2, v)) dec_int].
Definition replicaInvite (c : Client) : CLI Z :=
  or_fail (fetch c "POST" "/api/v1/replicas/invite" None (dec_struct invite_fields) ("", "", 0)) (fun i =>
  _ ← print [CStr "code"; CStr i.1.1]; _ ← print [CStr "fingerprint"; CStr i.1.2]; _ ← print [CStr "expires"; CTime i.2]; mret 0).

(** ** Joining *)
(** Only their number is read of the services and records. *)
Definition count_of (name : string) : Decoder Z := fun j n => Z.of_nat ∘ length <$> rows name tt [] j [].
Definition localSummary (c : Client) : CLI (result cli_error (option (Z * Z))) :=
  st ← fetch c "GET" "/api/v1/replica/status" None (one_string "role") "";
  match st with
  | Err e => mret (Err e)
  | Ok role =>
      if negb (bool_decide (role = "primary")) then mret (Ok None)
      else
        svcs ← fetch c "GET" "/api/v1/services" None (count_of "services") 0;
        match svcs with
        | Err e => mret (Err e)
        | Ok services =>
            recs ← fetch c "GET" "/api/v1/records" None (count_of "records") 0;
            mret (match recs with Err e => Err e | Ok records => Ok (Some (services, records)) end)
        end
  end.
Definition replace_question : string := "Continue?".
Definition discard_question (address : string) : string := "Discard this node's configuration and follow " +:+ address +:+ "?".
Definition match_question : string := "Do they match exactly?".
Definition promote_question : string := "Promote this node to primary?".
Definition confirmReplacement (c : Client) (address : string) (tty yes : bool) : CLI Z :=
  or_fail (localSummary c) (fun summary =>
  match summary with
  | None =>
      if yes || negb tty then mret 0
      else
        _ ← complain (Say "Joining replaces this node's configuration with the one on" [CStr address]);
        ok ← ask replace_question;
        if (ok : bool) then mret 0 else _ ← complain (Say "cancelled" []); mret 1
  | Some (services, records) =>
      _ ← complain (Say "This node is a primary. Its first pull discards everything it holds now" [CInt services; CInt records; CStr address]);
      if yes then mret 0
      else if negb tty then _ ← complain (Say "Pass --yes if that is what you want." []); mret 2
      else
        ok ← ask (discard_question address);
        if (ok : bool) then mret 0 else _ ← complain (Say "cancelled" []); mret 1
  end).
Definition join_body (address code fingerprint : string) : JSON := jmap (list_to_map [jstr "address" address; jstr "code" code; jstr "fingerprint" fingerprint]).
Definition join_answer (address : string) (out : result cli_error string) : CLI Z :=
  match out with
  | Ok id => _ ← print [CStr "paired with"; CStr id]; _ ← print [CStr "Set replication.primary to"; CStr address]; mret 0
  | Err (APIError code fld message) =>
      if bool_decide (code = "fingerprint_mismatch") then
        _ ← complain (Say "the peer that answered does not hold the key you confirmed" [CStr message]); _ ← codeWithheld; mret 1
      else fail (APIError code fld message)
  | Err e => fail e
  end.
(** What remains once a key is confirmed. *)
Definition join_confirmed (c : Client) (address code confirmed : string) (tty yes : bool) : CLI Z :=
  rc ← confirmReplacement c address tty yes;
  if negb (rc =? 0) then _ ← codeWithheld; mret rc
  else out ← fetch (pairingClient c) "POST" "/api/v1/replica/join" (Some (join_body address code confirmed)) (one_string "primary_node_id") ""; join_answer address out.
Definition replicaJoin (c : Client) (args : list string) (tty : bool) : CLI Z :=
  match args with
  | address :: code :: rest =>
      if starts_with_dash address || starts_with_dash code then usage "replica join"
      else with_flags [("fingerprint", FString); ("yes", FBool)] rest (fun set _ =>
        let yes := flag_bool set "yes" in
        let expected := normalizeFingerprint (flag_string set "fingerprint" "") in
        if bool_decide (expected = "") && negb tty then _ ← complain (Say "there is no terminal here to confirm the primary's fingerprint on." []); mret 2
        else or_fail (fetch (pairingClient c) "POST" "/api/v1/replica/pair/peek" (Some (jmap {[ "address" := JString address ]})) (one_string "fingerprint") "") (fun fp =>
          let presented := normalizeFingerprint fp in
          if bool_decide (presented = "") then fail (NoKey address)
          else if negb (bool_decide (expected = "")) then
            if negb (bool_decide (presented = expected)) then
              _ ← complain (Say "presented a fingerprint that is not the one you gave" [CStr address; CStr presented; CStr expected]); _ ← codeWithheld; mret 1
            else join_confirmed c address code expected tty yes
          else
            _ ← complain (Say "the node presents fingerprint" [CStr address; CStr presented]);
            ok ← ask match_question;
            if negb ok then _ ← complain (Say "fingerprint not confirmed" []); _ ← codeWithheld; mret 1
            else join_confirmed c address code presented tty yes))
  | _ => usage "replica join"
  end.

(** ** Promoting *)
Definition promote_fields : list (Field (bool * string)) := [field "promoted" fst (fun v p => (v, p.2)) dec_bool; field "role" snd (fun v p => (p.1, v)) dec_string].
Definition send_promote (c : Client) : CLI Z :=
  or_fail (fetch c "POST" "/api/v1/replica/promote" None (dec_struct promote_fields) (false, "")) (fun out =>
  if out.1 then done_ [CStr "this node is now the primary and accepts writes"] else done_ [CStr "nothing changed: this node is a"; CStr out.2]).
Definition replicaPromote (c : Client) (args : list string) (tty : bool) : CLI Z :=
  with_flags [("yes", FBool)] args (fun set rest =>
  if negb (bool_decide (rest = [])) then usage "replica promote"
  else if flag_bool set "yes" then send_promote c
  else
    _ ← complain (Say "The old primary must be demoted or rebuilt before it is switched back on" []);
    if negb tty then _ ← complain (Say "Pass --yes if that is what you want." []); mret 2
    else
      ok ← ask promote_question;
      if (ok : bool) then send_promote c else _ ← complain (Say "cancelled" []); mret 1).

Definition replicaCmd (tty : bool) (c : Client) (args : list string) : CLI Z :=
  match args with
  | [] => usage "replica"
  | sub :: rest =>
      if bool_decide (sub = "invite") then replicaInvite c
      else if bool_decide (sub = "list") then replicaList c
      else if bool_decide (sub = "status") then replicaStatus_ c
      else if bool_decide (sub = "join") then replicaJoin c rest tty
      else if bool_decide (sub = "promote") then replicaPromote c rest tty
      else if bool_decide (sub = "remove") then
        match rest with
        | [id] => or_fail (call c "DELETE" ("/api/v1/replicas/" +:+ id) None) (fun _ => done_ [CStr "removed replica"; CStr id])
        | _ => usage "replica remove"
        end
      else unknown "replica" sub
  end.
