(* ===== verification/CliMain.v ===== *)
(** * The commands, their dispatch and the binary
    ([internal/cli/cli.go], [cmd/kydns/main.go]) *)
From S2P Require Import Backup.
From S2P Require Import Prelude GoStr Json Config GoFlag Interact Cli CliRegistry CliServer CliReplica.

Record Command := mkCommand { cm_Name : string; cm_Summary : string; cm_Run : Client -> list string -> CLI Z }.
Definition Commands (tty : bool) : list Command :=
  [mkCommand "service" "manage services" serviceCmd; mkCommand "record" "manage records" recordCmd; mkCommand "view" "manage views" viewCmd;
   mkCommand "token" "manage API tokens" tokenCmd; mkCommand "blacklist" "manage domain filtering" blacklistCmd;
   mkCommand "settings" "view or change server settings" settingsCmd; mkCommand "dhcp" "show DHCP server state and current leases" dhcpCmd;
   mkCommand "replica" "manage replication and pairing" (replicaCmd tty); mkCommand "export" "write registry contents to YAML or JSON" exportCmd;
   mkCommand "import" "load registry contents from YAML or JSON" importCmd; mkCommand "backup-drill" "verify a sealed recovery capsule can be built" backupDrillCmd;
   mkCommand "export-capsule" "write a sealed recovery capsule" exportCapsuleCmd; mkCommand "deposit" "deposit a sealed capsule with KyRecovery" depositCmd;
   mkCommand "backup-pin-key" "pin the suite recovery public key by hand" backupPinKeyCmd; mkCommand "backup-unpair" "forget the KyRecovery URL and token" backupUnpairCmd;
   mkCommand "backup-schedule" "set the automatic backup interval" backupScheduleCmd].
Definition Lookup (tty : bool) (name : string) : option Command := List.find (fun c => bool_decide (cm_Name c = name)) (Commands tty).
Definition Run (Getenv : string -> string) (tty : bool) (args : list string) : CLI Z :=
  match args with
  | [] => _ ← complain (Say "a subcommand is required" []); mret 2
  | name :: args =>
      match Lookup tty name with
      | None => unknown "kydns" name
      | Some cmd => cm_Run cmd (NewClient Getenv) args
      end
  end.

(** ** The binary; [ReadUnverifiedManifest] gives the service name a capsule states *)
Section Main.
Context (Getenv : string -> string) (tty : bool) (version : string) (ReadUnverifiedManifest : string -> option string).
Definition default_config : string := "/etc/kydns/kydns.yaml".
(** The flag sets of the binary report to standard output. *)
Definition main_flags (fs : FlagSet) (args : list string) (k : gmap string FlagValue -> list string -> CLI Z) : CLI Z :=
  match FlagParse fs args ∅ with Ok (set, rest) => k set rest | Err e => _ ← print [CStr "flag error"]; mret 2 end.
Definition exit_of (ok : bool) : CLI Z := if ok then mret 0 else fail Other.
Definition restore_usage : CLI Z :=
  _ ← print [CStr "usage: kydns restore --capsule path --out directory"]; _ ← print [CStr "custodian shares are read from stdin, one per line"]; mret 2.
Definition restoreCmd (args : list string) : CLI Z :=
  match FlagParse [("capsule", FString); ("out", FString)] args ∅ with
  | Err _ => _ ← print [CStr "flag error"]; restore_usage
  | Ok (set, rest) =>
      let capsule := flag_string set "capsule" "" in
      let out := flag_string set "out" "" in
      if bool_decide (capsule = "") || bool_decide (out = "") || negb (bool_decide (rest = [])) then restore_usage
      else
        entries ← perform (DirEntries out);
        if (match entries with Some (S _) => true | _ => false end) then _ ← complain (Say "restore directory must be empty" []); mret 1
        else
          raw ← perform (ReadFile capsule);
          match raw with
          | None => fail NotRead
          | Some raw =>
              match ReadUnverifiedManifest raw with
              | None => fail Undecodable
              | Some service =>
                  if negb (bool_decide (service = ServiceName)) then _ ← complain (Say "capsule is for service" [CStr service; CStr ServiceName]); mret 1
                  else
                    shares ← perform ReadShares;
                    match shares with
                    | None => fail NotRead
                    | Some shares => ok ← perform (RestoreCapsule capsule out ServiceName shares); exit_of ok
                    end
              end
          end
  end.
Definition main (args : list string) : CLI Z :=
  match args with
  | [] => _ ← print [CStr "usage"]; mret 2
  | name :: rest =>
      if bool_decide (name = "serve") then
        main_flags [("config", FString)] rest (fun set _ => ok ← perform (Serve (flag_string set "config" default_config)); exit_of ok)
      else if bool_decide (name = "admin") then
        match rest with
        | sub :: rest =>
            if bool_decide (sub = "reset-password") then
              main_flags [("config", FString)] rest (fun set _ => ok ← perform (ResetAdmin (flag_string set "config" default_config)); exit_of ok)
            else _ ← print [CStr "usage: kydns admin reset-password [--config path]"]; mret 2
        | [] => _ ← print [CStr "usage: kydns admin reset-password [--config path]"]; mret 2
        end
      else if bool_decide (name = "version") then done_ [CStr version]
      else if bool_decide (name = "restore") then restoreCmd rest
      else match Lookup tty name with
      | Some _ => Run Getenv tty args
      | None => _ ← print [CStr "unknown command"; CStr name]; mret 2
      end
  end.
End Main.
