(* ===== verification/CliProps.v ===== *)
(** * What the commands do against any server

    Every statement is over all outcomes of a command, whatever the server answers and
    whoever types: where the requests go and what they carry, what an exit code means,
    and what was confirmed before a node gives up its configuration or its primary. *)
From S2P Require Import Backup.
From S2P Require Import Prelude GoStr Json Config GoFlag Interact Cli CliRegistry CliServer CliReplica CliMain.

(** ** Requests and the API's routes *)
(** The routes a command uses, as the API's table writes them; [CliApi] shows that each
    is a row of that table. *)
Definition cli_routes : list (string * list string) :=
  (fun r => (r.1, "api" :: "v1" :: r.2)) <$>
  [("GET", ["services"]); ("POST", ["services"]); ("PATCH", ["services"; "{id}"]); ("DELETE", ["services"; "{id}"]);
   ("GET", ["records"]); ("POST", ["records"]); ("DELETE", ["records"; "{id}"]); ("GET", ["views"]); ("POST", ["views"]); ("DELETE", ["views"; "{name}"]);
   ("GET", ["tokens"]); ("POST", ["tokens"]); ("DELETE", ["tokens"; "{id}"]); ("GET", ["export"]); ("POST", ["import"]); ("GET", ["leases"]); ("GET", ["dhcp"; "status"]);
   ("GET", ["blacklists"; "settings"]); ("PATCH", ["blacklists"; "settings"]); ("GET", ["blacklists"; "lists"]); ("POST", ["blacklists"; "lists"]);
   ("DELETE", ["blacklists"; "lists"; "{id}"]); ("POST", ["blacklists"; "lists"; "{id}"; "refresh"]); ("GET", ["blacklists"; "rules"; "{kind}"]);
   ("POST", ["blacklists"; "rules"; "{kind}"]); ("DELETE", ["blacklists"; "rules"; "{kind}"; "{id}"]); ("GET", ["blacklists"; "test"]);
   ("GET", ["settings"]); ("PATCH", ["settings"]); ("GET", ["replica"; "status"]); ("POST", ["replica"; "pair"; "peek"]); ("POST", ["replica"; "join"]);
   ("POST", ["replica"; "promote"]); ("POST", ["replicas"; "invite"]); ("GET", ["replicas"]); ("DELETE", ["replicas"; "{node_id}"]);
   ("POST", ["backup"; "drill"]); ("GET", ["backup"; "export-capsule"]); ("POST", ["backup"; "pin-key"]); ("DELETE", ["backup"; "pairing"]);
   ("PUT", ["backup"; "schedule"]); ("POST", ["backup"; "deposit"])].
(** A route with its holes filled, as segments and as the text of a path. *)
Fixpoint fill (pat xs : list string) : list string :=
  match pat with
  | [] => []
  | p :: pat => if HasPrefix p "{" then match xs with x :: xs => x :: fill pat xs | [] => p :: fill pat [] end else p :: fill pat xs
  end.
Fixpoint path_of (segs : list string) : string := match segs with [] => "" | [s] => "/" +:+ s | s :: segs => "/" +:+ s +:+ path_of segs end.
Definition query_keys : list string := ["?format="; "?mode="; "?name="].
Definition holes (pat : list string) : nat := length (List.filter (fun p => HasPrefix p "{") pat).

Section Any.
Context (c : Client).
Definition peek_url : string := BaseURL c +:+ "/api/v1/replica/pair/peek".
Definition join_url : string := BaseURL c +:+ "/api/v1/replica/join".
Definition promote_url : string := BaseURL c +:+ "/api/v1/replica/promote".
(** A request to the configured server, for a route of the API whose holes are
    arguments of the command, with the configured token or, where none is configured,
    none. *)
Definition well_sent (words : list string) (r : Request) : Prop :=
  (exists pat xs, (rq_Method r, pat) ∈ cli_routes /\ length xs = holes pat /\ xs ⊆ words /\
    (rq_URL r = BaseURL c +:+ path_of (fill pat xs) \/
     exists q v, q ∈ query_keys /\ v ∈ words /\ rq_URL r = BaseURL c +:+ path_of (fill pat xs) +:+ q +:+ v)) /\
  (rq_Authorization r = Some ("Bearer " +:+ Token c) \/ rq_Authorization r = None /\ Token c = "").
Definition sends_well (words : list string) (past : list (Event Ans)) (op : Op) : Prop := match op with Send r => well_sent words r | _ => True end.
(** The server accepted it; it changes nothing on the server. *)
Definition accepted (e : Event Ans) : Prop :=
  match ev_op e as op return Ans op -> Prop with Send _ => fun x => exists rep, x = Some rep /\ rp_StatusCode rep < 300 | _ => fun _ => True end (ev_ans e).
Definition mild (e : Event Ans) : Prop := match ev_op e with Send r => rq_Method r = "GET" \/ rq_URL r = peek_url | _ => True end.
Definition exit_tells (t : list (Event Ans)) (code : Z) : Prop := code = 0 /\ Forall accepted t \/ code = 1 \/ code = 2 /\ Forall mild t.

(** A program in a context where every request so far was accepted ([a]) or changed
    nothing ([m]). *)
Section Words.
Context (words : list string).
Definition spec (a m : bool) (p : CLI Z) : Prop := forall past, (a = true -> Forall accepted past) -> (m = true -> Forall mild past) -> wp (sends_well words) p past exit_tells.
Implicit Types (a m : bool).

Lemma spec_zero m : spec true m (mret 0).
Proof. intros past Ha _. left. auto. Qed.
Lemma spec_one a m : spec a m (mret 1).
Proof. by right; left. Qed.
Lemma spec_two a : spec a true (mret 2).
Proof. intros past _ Hm. right. right. auto. Qed.
Definition local (op : Op) : bool := match op with Send _ => false | _ => true end.
Lemma spec_local a m op (k : Ans op -> CLI Z) : local op = true -> (forall x, spec a m (k x)) -> spec a m (perform op ≫= k).
Proof.
  intros Hl H past Ha Hm. split; [by destruct op|]. intros x. apply H; intros E; apply Forall_app; (split; [by auto|]); constructor; try done; by destruct op.
Qed.
Lemma spec_complain a m x p : spec a m p -> spec a m (_ ← complain x; p).
Proof. intros H. by apply (spec_local a m (Complain x)). Qed.
Lemma spec_print a m x p : spec a m p -> spec a m (_ ← print x; p).
Proof. intros H. by apply (spec_local a m (Print x)). Qed.
Lemma spec_skip a m p : spec a m p -> spec a m (_ ← mret tt; p).
Proof. done. Qed.
Lemma spec_ask a m q (k : bool -> CLI Z) : (forall b, spec a m (k b)) -> spec a m (b ← ask q; k b).
Proof. intros H. apply (spec_local a m (Ask q) (fun line => k (is_yes line))); auto. Qed.
Lemma wp_mret_bind {A B} ok (a : A) (k : A -> CLI B) past Q : wp ok (k a) past Q -> wp ok (mret a ≫= k) past Q.
Proof. done. Qed.
(** A part that only prints. *)
Definition chatty (p : CLI unit) : Prop := forall a m k, spec a m k -> spec a m (_ ← p; k).
Lemma chatty_print l : chatty (print l).
Proof. intros a m k H. by apply spec_print. Qed.
Lemma chatty_skip : chatty (mret tt).
Proof. by intros a m k H. Qed.
Lemma spec_assoc a m (p : CLI unit) (q : CLI unit) k : chatty p -> chatty q -> spec a m k -> spec a m (_ ← (_ ← p; q); k).
Proof.
  intros Hp Hq Hk. intros past Ha Hm.
  assert (E : forall past, wp (sends_well words) (_ ← p; _ ← q; k) past exit_tells -> wp (sends_well words) (_ ← (_ ← p; q); k) past exit_tells).
  { clear. induction p as [x|op j IH]; intros past; [done|]. intros [H1 H2]. split; [done|]. intros x. apply IH, H2. }
  apply E, (Hp _ _ _ (Hq _ _ _ Hk)); auto.
Qed.
Lemma chatty_seq p q : chatty p -> chatty q -> chatty (_ ← p; q).
Proof. intros Hp Hq a m k H. by apply spec_assoc. Qed.
Lemma chatty_when b p : chatty p -> chatty (when_ b p).
Proof. intros H. destruct b; [done|apply chatty_skip]. Qed.
Lemma chatty_each {A} (f : A -> CLI unit) l : (forall x, chatty (f x)) -> chatty (each_ f l).
Proof. intros H. induction l as [|x l IH]; [apply chatty_skip|]. by apply chatty_seq. Qed.

Lemma spec_chatty a m p k : chatty p -> spec a m k -> spec a m (_ ← p; k).
Proof. intros H. apply H. Qed.
Lemma spec_usage a u : spec a true (usage u).
Proof. apply spec_complain, spec_two. Qed.
Lemma spec_unknown a u n : spec a true (unknown u n).
Proof. apply spec_complain, spec_two. Qed.
Lemma spec_fail a m e : spec a m (fail e).
Proof. apply spec_complain, spec_one. Qed.
Lemma spec_done m l : spec true m (done_ l).
Proof. apply spec_print, spec_zero. Qed.
Lemma spec_flags a m fs args k : (forall set rest, spec a true (k set rest)) -> spec a true (with_flags fs args k).
Proof. intros H. unfold with_flags. destruct (FlagParse _ _ _) as [[set rest]|e]; [apply H|apply spec_complain, spec_two]. Qed.

(** A call: what follows an error is unconstrained, what follows a success knows the
    request was accepted. *)
Definition mild_request (r : Request) : bool := bool_decide (rq_Method r = "GET") || bool_decide (rq_URL r = peek_url).
Lemma read_reply_ok {A} (dec : option (Decoder A)) zero r v : read_reply dec zero r = Ok v -> exists rep, r = Some rep /\ rp_StatusCode rep < 300.
Proof.
  destruct r as [rep|]; [|done]. cbn. intros H. exists rep. split; [done|]. destruct (Z.leb_spec 300 (rp_StatusCode rep)); [|lia].
  destruct (rp_json rep ≫= _) as [[[x y] z]|]; [by destruct (bool_decide _)|done].
Qed.
Lemma sent_snoc a m r rep past : rp_StatusCode rep < 300 -> (a = true -> Forall accepted past) -> (m = true -> Forall mild past) ->
  (a = true -> Forall accepted (past ++ [mkEvent (Send r) (Some rep)])) /\ (m && mild_request r = true -> Forall mild (past ++ [mkEvent (Send r) (Some rep)])).
Proof.
  intros L Ha Hm. split; [intros E|intros [E1 E2]%andb_true_iff]; (apply Forall_app; split; [by auto|]; constructor; [|done]).
  - by exists rep.
  - cbn. unfold mild_request in E2. apply orb_true_iff in E2 as [E2|E2]; bool_to_prop; auto.
Qed.
Definition only_accepted {A} (f : option Reply -> result cli_error A) : Prop := forall r v, f r = Ok v -> exists rep, r = Some rep /\ rp_StatusCode rep < 300.
Lemma plain_reply_ok : only_accepted plain_reply.
Proof. intros [rep|] v; [|done]. cbn. intros H. exists rep. split; [done|]. destruct (Z.leb_spec 300 (rp_StatusCode rep)); [done|lia]. Qed.
Lemma spec_send {A} a m r (f : option Reply -> result cli_error A) (k : A -> CLI Z) : well_sent words r -> only_accepted f ->
  (forall v, spec a (m && mild_request r) (k v)) -> spec a m (or_fail (x ← send r; mret (f x)) k).
Proof.
  intros Hw Hf Hk past Ha Hm. split; [exact Hw|]. intros x.
  change (wp (sends_well words) (match f x with Ok v => k v | Err e => fail e end) (past ++ [mkEvent (Send r) x]) exit_tells).
  destruct (f x) as [v|e] eqn:E; [|by apply (spec_fail false false)]. apply Hf in E as (rep & -> & L).
  destruct (sent_snoc a m r rep past L Ha Hm). by apply Hk.
Qed.
(** [r] is what the call sends. *)
Definition call_request (c' : Client) (method path : string) (body : option JSON) : Request :=
  mkRequest method (BaseURL c' +:+ path) (bearer c') (Some "application/json") (PJson <$> body) (Timeout c').
Lemma spec_call {A} a m c' method path body (dec : option (Decoder A)) zero (k : A -> CLI Z) : let r := call_request c' method path body in
  well_sent words r -> (forall v, spec a (m && mild_request r) (k v)) -> spec a m (or_fail (Do_ c' method path body dec zero) k).
Proof. intros r Hw Hk. apply (spec_send a m r (read_reply dec zero)); [done|intros x v; apply read_reply_ok|exact Hk]. Qed.
Lemma spec_weaken a m p : spec a false p -> spec a m p.
Proof. intros H past Ha Hm. by apply H. Qed.
End Words.
End Any.

(** ** Every command *)
Lemma bearer_sent c r : rq_Authorization r = bearer c -> rq_Authorization r = Some ("Bearer " +:+ Token c) \/ rq_Authorization r = None /\ Token c = "".
Proof. unfold bearer. case_bool_decide; auto. Qed.
Ltac query_url q := right; exists q; eexists; split; [by apply (bool_decide_unpack _); vm_compute|]; split; [|reflexivity]; set_solver.
Ltac same_url := first [left; reflexivity | solve [query_url "?format="] | solve [query_url "?mode="] | solve [query_url "?name="]].
Ltac route_ok := split; [by apply (bool_decide_unpack _); vm_compute|]; split; [reflexivity|]; split; [|same_url]; set_solver.
Ltac try_routes l :=
  match l with
  | (_, ?pat) :: ?l' =>
      let n := eval vm_compute in (holes pat) in
      first [ solve [exists pat; lazymatch n with 0%nat => exists (@nil string) | 1%nat => eexists [_] | _ => eexists [_; _] end; route_ok] | try_routes l' ]
  end.
Ltac sent := split; [let l := eval vm_compute in cli_routes in try_routes l | first [by apply bearer_sent | by left]].
Create HintDb cli.
#[export] Hint Resolve spec_usage spec_unknown spec_fail spec_done spec_zero spec_one spec_two chatty_print chatty_skip chatty_seq chatty_when chatty_each : cli.
Ltac cli := repeat first
  [ progress intros
  | solve [auto with cli]
  | apply spec_flags; [exact true..|]
  | apply spec_call; [sent|] | apply spec_send; [sent|apply plain_reply_ok|]
  | lazymatch goal with |- spec _ _ _ _ (_ ≫= _) =>
      first [apply spec_chatty; [solve [auto with cli]|] | apply spec_complain | apply spec_ask | apply spec_local; [reflexivity|]] end
  | match goal with |- context [if ?b then _ else _] => destruct b eqn:? | |- spec _ _ _ _ (match ?x with _ => _ end) => destruct x end ].
Section Commands.
Context (c : Client) (words : list string).
Abbreviation S := (spec c words true true).
Lemma pin_spec args : S (backupPinKeyCmd c args).
Proof. unfold backupPinKeyCmd. cli. Qed.
Lemma backup_spec args : S (backupDrillCmd c args) /\ S (backupUnpairCmd c args) /\ S (depositCmd c args) /\ S (backupScheduleCmd c args).
Proof. unfold backupDrillCmd, backupUnpairCmd, depositCmd, backupScheduleCmd. repeat split; cli. Qed.
Lemma chatty_service s : chatty c words (print_service s).
Proof. apply chatty_each. intros a. apply chatty_print. Qed.
Hint Resolve chatty_service : cli.
Lemma service_spec args : args ⊆ words -> S (serviceCmd c args).
Proof. intros Hw. unfold serviceCmd, service_add, service_update. cli. Qed.
Lemma record_spec args : args ⊆ words -> S (recordCmd c args).
Proof. intros Hw. unfold recordCmd. cli. Qed.
Lemma view_spec args : args ⊆ words -> S (viewCmd c args).
Proof. intros Hw. unfold viewCmd. cli. Qed.
Lemma token_spec args : args ⊆ words -> S (tokenCmd c args).
Proof. intros Hw. unfold tokenCmd. cli. Qed.
Definition own_words : list string := ["all"; "allow"; "deny"; "yaml"; "merge"; "replace"].
Lemma export_spec args : args ++ own_words ⊆ words -> S (exportCmd c args).
Proof. intros Hw. unfold own_words in Hw. unfold exportCmd. destruct args; cli. Qed.
Lemma import_spec args : args ++ own_words ⊆ words -> S (importCmd c args).
Proof. intros Hw. unfold own_words in Hw. unfold importCmd. cli. Qed.
Lemma capsule_spec args : S (exportCapsuleCmd c args).
Proof. unfold exportCapsuleCmd, Download. cli. Qed.

Lemma chatty_list l : chatty c words (print_list l).
Proof. apply chatty_print. Qed.
Lemma chatty_setting kv : chatty c words (print_setting kv).
Proof. unfold print_setting. destruct kv.2; apply chatty_print. Qed.
Hint Resolve chatty_list chatty_setting : cli.
Lemma lists_spec m : spec c words true m (blacklistList c).
Proof. unfold blacklistList. cli. Qed.
Lemma rules_spec kinds : kinds ⊆ words -> forall m, spec c words true m (blacklistRules c kinds).
Proof.
  induction kinds as [|kind kinds IH]; intros Hw m; cbn [blacklistRules]; [cli|]. assert (kind ∈ words) by set_solver.
  apply spec_call; [sent|]. intros out. apply spec_chatty; [apply chatty_each; intros; apply chatty_print|]. apply IH. set_solver.
Qed.
Hint Resolve lists_spec rules_spec : cli.
Lemma list_add_spec args : S (blacklistAdd c args).
Proof. unfold blacklistAdd. cli. Qed.
Hint Resolve list_add_spec : cli.
Lemma blacklist_spec args : args ++ own_words ⊆ words -> S (blacklistCmd c args).
Proof.
  intros Hw. unfold own_words in Hw. assert (args ⊆ words /\ "all" ∈ words /\ "allow" ∈ words /\ "deny" ∈ words) as (Hw1 & ? & ? & ?) by (clear -Hw; set_solver).
  clear Hw. unfold blacklistCmd, blacklistStatus. cli. apply rules_spec. destruct args as [|x [|y args]]; set_solver.
Qed.
Lemma settings_spec args : S (settingsCmd c args).
Proof. unfold settingsCmd, settingsGet, settingsSet. cli. Qed.
Lemma chatty_dhcp st : chatty c words (printDHCPStatus st).
Proof. unfold printDHCPStatus. destruct (bool_decide _); auto with cli. Qed.
Hint Resolve chatty_dhcp : cli.
Lemma dhcp_spec args : S (dhcpCmd c args).
Proof. unfold dhcpCmd, dhcpLeases, dhcpStatus. cli. Qed.

(** *** Replication *)
Lemma chatty_node st : chatty c words (printNodeStatus st).
Proof. unfold printNodeStatus. auto 12 with cli. Qed.
Hint Resolve chatty_node : cli.
(** The two kinds of log a read goes through. *)
Definition quiet (past : list (Event Ans)) : Prop := Forall accepted past /\ Forall (mild c) past.
Definition after_reads {A} (t : list (Event Ans)) (r : result cli_error A) : Prop := match r with Ok _ => quiet t | Err _ => True end.
Lemma wp_read {A} path (dec : Decoder A) zero past : quiet past -> well_sent c words (call_request c "GET" path None) ->
  wp (sends_well c words) (fetch c "GET" path None dec zero) past after_reads.
Proof.
  intros [Ha Hm] Hw. split; [exact Hw|]. intros x. change (after_reads (past ++ [mkEvent (Send (call_request c "GET" path None)) x]) (read_reply (Some dec) zero x)).
  destruct (read_reply _ _ _) as [v|e] eqn:E; [|done]. apply read_reply_ok in E as (rep & -> & L). 
  by destruct (sent_snoc c true true (call_request c "GET" path None) rep past L (fun _ => Ha) (fun _ => Hm)) as [H1 H2]; split; [apply H1|apply H2].
Qed.
Lemma wp_summary past : quiet past -> wp (sends_well c words) (localSummary c) past after_reads.
Proof.
  intros Hq. apply wp_bind. eapply wp_mono; [|apply wp_read; [done|sent]]. intros t [role|e] H; [|done]. cbn [after_reads] in H.
  destruct (negb _); [exact H|]. apply wp_bind. eapply wp_mono; [|apply wp_read; [done|sent]]. intros t2 [n|e] H2; [|done]. cbn [after_reads] in H2.
  apply wp_bind. eapply wp_mono; [|apply wp_read; [done|sent]]. by intros t3 [n'|e] H3.
Qed.
Lemma confirm_spec address tty yes : S (confirmReplacement c address tty yes).
Proof.
  intros past Ha Hm. apply wp_bind. eapply wp_mono; [|apply wp_summary; split; auto]. intros t [summary|e] H; [|by apply (spec_fail c words false false)].
  assert (K : S (match summary with None => if yes || negb tty then mret 0 else
        _ ← complain (Say "Joining replaces this node's configuration with the one on" [CStr address]);
        ok ← ask replace_question; if (ok : bool) then mret 0 else _ ← complain (Say "cancelled" []); mret 1
    | Some (services, records) =>
      _ ← complain (Say "This node is a primary. Its first pull discards everything it holds now" [CInt services; CInt records; CStr address]);
      if yes then mret 0 else if negb tty then _ ← complain (Say "Pass --yes if that is what you want." []); mret 2 else
        ok ← ask (discard_question address); if (ok : bool) then mret 0 else _ ← complain (Say "cancelled" []); mret 1 end)) by cli.
  destruct H. by apply K.
Qed.
Lemma join_confirmed_spec address code fp tty yes : S (join_confirmed c address code fp tty yes).
Proof.
  intros past Ha Hm. apply wp_bind. eapply wp_mono; [|by apply confirm_spec]. intros t rc H. destruct (Z.eqb_spec rc 0) as [->|N]; cbn [negb].
  - assert (Ht : Forall accepted t) by (destruct H as [[_ H]|[H|[H _]]]; done). revert Ht. clear.
    intros Ht. split; [split; [|by apply bearer_sent]; let l := eval vm_compute in cli_routes in try_routes l|]. intros x.
    match goal with |- wp _ _ (_ ++ [mkEvent (Send ?r) _]) _ =>
      change (wp (sends_well c words) (join_answer address (read_reply (Some (one_string "primary_node_id")) "" x)) (t ++ [mkEvent (Send r) x]) (exit_tells c)) end.
    unfold join_answer.
    destruct (read_reply _ _ x) as [id|e] eqn:E.
    + apply read_reply_ok in E as (rep & -> & L). refine ((_ : spec c words true false _) _ _ _); [cli| |done]. intros _. apply Forall_app. split; [done|]. constructor; [|done]. by exists rep.
    + refine ((_ : spec c words false false _) _ _ _); [unfold codeWithheld; destruct e; cli|done..].
  - refine ((_ : spec c words false (bool_decide (rc = 2)) _) _ _ _); [|done|intros E; bool_to_prop; destruct H as [[-> _]|[->|[_ H]]]; done].
    apply spec_complain. destruct H as [[-> _]|[->|[-> _]]]; [done|apply spec_one|apply spec_two].
Qed.
Hint Resolve join_confirmed_spec : cli.
Lemma join_spec args tty : S (replicaJoin c args tty).
Proof.
  unfold replicaJoin, codeWithheld. destruct args as [|address [|code rest]]; [cli..|]. destruct (_ || _); [cli|]. apply spec_flags; [exact true|].
  intros set _. destruct (_ && _); [cli|]. apply spec_call; [sent|]. intros fp.
  assert (Hmild : mild_request c (call_request (pairingClient c) "POST" "/api/v1/replica/pair/peek" (Some (jmap {["address" := JString address]}))) = true).
  { unfold mild_request. rewrite orb_true_iff. right. by apply bool_decide_eq_true_2. }
  rewrite Hmild. cbn [andb]. cli.
Qed.
Lemma replica_spec tty args : args ⊆ words -> S (replicaCmd tty c args).
Proof.
  intros Hw. unfold replicaCmd, replicaInvite, replicaList, replicaStatus_, get_status, replicaPromote, send_promote. cli; try by apply join_spec.
Qed.
End Commands.

(** *** All of them *)
Section AllCommands.
Context (Getenv : string -> string) (tty : bool).
Abbreviation c := (NewClient Getenv).
Lemma lookup_spec name args cmd : Lookup tty name = Some cmd -> spec c (args ++ own_words) true true (cm_Run cmd c args).
Proof.
  intros H. unfold Lookup in H. apply find_some in H as [H _]. apply list_elem_of_In in H.
  assert (Hw : args ⊆ args ++ own_words) by set_solver. pose proof (backup_spec c (args ++ own_words) args) as (B1 & B2 & B3 & B4).
  assert (Hv : args ++ own_words ⊆ args ++ own_words) by done.
  repeat (apply elem_of_cons in H as [->|H]; [cbn [cm_Run]; lazymatch goal with
    | |- spec _ _ _ _ (serviceCmd _ _) => by apply service_spec | |- spec _ _ _ _ (recordCmd _ _) => by apply record_spec
    | |- spec _ _ _ _ (viewCmd _ _) => by apply view_spec | |- spec _ _ _ _ (tokenCmd _ _) => by apply token_spec
    | |- spec _ _ _ _ (blacklistCmd _ _) => by apply blacklist_spec | |- spec _ _ _ _ (settingsCmd _ _) => apply settings_spec
    | |- spec _ _ _ _ (dhcpCmd _ _) => apply dhcp_spec | |- spec _ _ _ _ (replicaCmd _ _ _) => by apply replica_spec
    | |- spec _ _ _ _ (exportCmd _ _) => by apply export_spec | |- spec _ _ _ _ (importCmd _ _) => by apply import_spec
    | |- spec _ _ _ _ (exportCapsuleCmd _ _) => apply capsule_spec | |- spec _ _ _ _ (backupPinKeyCmd _ _) => apply pin_spec | |- _ => assumption end|]).
  by apply not_elem_of_nil in H.
Qed.
Lemma run_spec args : wp (sends_well c (args ++ own_words)) (Run Getenv tty args) [] (exit_tells c).
Proof.
  destruct args as [|name args]; cbn [Run]; [refine ((_ : spec c _ true true _) _ _ _); [cli|constructor..]|].
  destruct (Lookup tty name) as [cmd|] eqn:E; [|refine ((_ : spec c _ true true _) _ _ _); [cli|constructor..]].
  assert (Hs : spec c (args ++ own_words) true true (cm_Run cmd c args)) by (by eapply lookup_spec).
  assert (Hw : wp (sends_well c (args ++ own_words)) (cm_Run cmd c args) [] (exit_tells c)) by (apply Hs; constructor).
  assert (Hsub : args ++ own_words ⊆ (name :: args) ++ own_words) by (intros x Hx; cbn [app]; by right). clear Hs. generalize dependent ((name :: args) ++ own_words). intros all Hsub.
  revert Hw. apply wp_guard_mono. intros past op. destruct op; try done. intros [(pat & xs & H1 & H2 & H3 & H4) Ha]. split; [|done].
  exists pat, xs. split; [done|]. split; [done|]. split; [by etrans|]. destruct H4 as [H4|(q & v & Hq & Hv & H4)]; [by left|]. right. exists q, v. auto.
Qed.
End AllCommands.

(** C30: the exit code of every command tells what happened, whatever the server
    answers.  It is 0, 1 or 2; after 0 every request of the run was answered with
    success; 2, a usage error or a missing terminal, comes before anything was asked of
    the server but reads and the look at a primary's key. *)
Theorem exit_code_tells Getenv tty args t code : outcome (Run Getenv tty args) t code -> exit_tells (NewClient Getenv) t code.
Proof. apply wp_run with (1 := run_spec Getenv tty args). Qed.

(** ** A run *)
Definition ex_getenv (k : string) : string := if bool_decide (k = "KYDNS_TOKEN") then "kydns_0102" else "".
(** A server that answers by path, and an operator who says yes. *)
Definition ex_reply (r : Request) : Reply :=
  let ends x := HasSuffix (rq_URL r) x in
  let j := if ends "/pair/peek" then JObject [("fingerprint", JString "AB12")] else if ends "/replica/status" then JObject [("role", JString "primary")]
           else if ends "/replica/join" then JObject [("primary_node_id", JString "ab12")] else JObject [] in
  mkReply 200 "{}" (Some j).
Definition ex_answers (op : Op) (s : unit) : unit * Ans op :=
  match op with
  | Send r => (s, Some (ex_reply r)) | Ask _ => (s, Some "yes") | Stdin => (s, Some "") | ReadFile _ => (s, Some "raw") | WriteFile _ _ => (s, true) | Print _ => (s, tt)
  | Complain _ => (s, tt) | Serve _ => (s, true) | ResetAdmin _ => (s, true) | DirEntries _ => (s, None) | ReadShares => (s, Some ["share"]) | RestoreCapsule _ _ _ _ => (s, true)
  end.
Definition ex_join : list string := ["replica"; "join"; "192.0.2.7:8853"; "K7Q2"].
Definition ex_log (p : CLI Z) : list (Event Ans) := (run ex_answers p tt).1.2.
Lemma exit_code_tells_witness : let t := ex_log (Run ex_getenv true ex_join) in length t = 11%nat /\ exit_tells (NewClient ex_getenv) t 0.
Proof.
  split; [vm_compute; reflexivity|]. apply (exit_code_tells ex_getenv true ex_join).
  assert (E : (run ex_answers (Run ex_getenv true ex_join) tt).2 = 0) by (vm_compute; reflexivity). rewrite <- E. apply run_outcome.
Defined.
