(* ===== verification/CliConsent.v ===== *)
(** * What the operator agreed to before a node gives something up

    Joining sends the pairing code and ends a primary's rule over its own
    configuration; promoting ends a replica's.  Neither request leaves the command
    without what its prompts are there to get. *)
From S2P Require Import Backup.
From S2P Require Import Prelude GoStr Json Config GoFlag Interact Cli CliRegistry CliServer CliReplica CliMain CliProps.

Section Consent.
Context (c : Client) (tty : bool) (args : list string).
Implicit Types (past t : list (Event Ans)).
Definition status_url : string := BaseURL c +:+ "/api/v1/replica/status".
(** The operator answered yes to a question; a request was answered with a value. *)
Definition agreed (question : string) (e : Event Ans) : Prop :=
  match ev_op e as op return Ans op -> Prop with Ask q => fun line => q = question /\ is_yes line = true | _ => fun _ => False end (ev_ans e).
Definition told {A} (url : string) (body : option Payload) (dec : Decoder A) (zero : A) (P : A -> Prop) (e : Event Ans) : Prop :=
  match ev_op e as op return Ans op -> Prop with
  | Send r => fun x => rq_URL r = url /\ rq_body r = body /\ exists v, read_reply (Some dec) zero x = Ok v /\ P v
  | _ => fun _ => False
  end (ev_ans e).
Definition address_body (address : string) : option Payload := Some (PJson (jmap {[ "address" := JString address ]})).
(** The server reported this key for the address. *)
Definition presented (address fp : string) past : Prop :=
  Exists (told (peek_url c) (address_body address) (one_string "fingerprint") "" (fun k => normalizeFingerprint k = fp)) past.
Definition not_primary past : Prop := Exists (told status_url None (one_string "role") "" (fun role => role <> "primary")) past.
Definition key_confirmed (expected fp : string) past : Prop := expected = fp \/ expected = "" /\ tty = true /\ Exists (agreed match_question) past.
(** The configuration that is replaced: a primary's goes only with [--yes] or a yes at
    the terminal; another node's also where there is no terminal to ask on. *)
Definition loss_accepted (address : string) (yes : bool) past : Prop :=
  yes = true \/ tty = true /\ Exists (agreed (discard_question address)) past \/
  not_primary past /\ (tty = false \/ Exists (agreed replace_question) past).
Definition may_join past (r : Request) : Prop :=
  exists address code rest set more fp, args = "join" :: address :: code :: rest /\ FlagParse [("fingerprint", FString); ("yes", FBool)] rest ∅ = Ok (set, more) /\
    rq_body r = Some (PJson (join_body address code fp)) /\ fp <> "" /\ presented address fp past /\
    key_confirmed (normalizeFingerprint (flag_string set "fingerprint" "")) fp past /\ loss_accepted address (flag_bool set "yes") past.
Definition may_promote past : Prop :=
  exists rest set, args = "promote" :: rest /\ FlagParse [("yes", FBool)] rest ∅ = Ok (set, []) /\
    (flag_bool set "yes" = true \/ tty = true /\ Exists (agreed promote_question) past).
Definition consent past (op : Op) : Prop :=
  match op with
  | Send r =>
      (rq_URL r = join_url c -> may_join past r) /\ (rq_URL r = promote_url c -> may_promote past) /\
      (rq_URL r = join_url c \/ rq_body r = None \/ exists address, rq_body r = address_body address)
  | _ => True
  end.

(** ** Programs that ask for nothing of the kind *)
Definition calm {A} (p : CLI A) : Prop := forall past, wp consent p past (fun _ _ => True).
Lemma calm_ret {A} (a : A) : calm (mret a).
Proof. done. Qed.
Lemma calm_bind {A B} (p : CLI A) (k : A -> CLI B) : calm p -> (forall x, calm (k x)) -> calm (p ≫= k).
Proof. intros Hp Hk past. apply wp_bind. eapply wp_mono; [|apply Hp]. intros t x _. apply Hk. Qed.
Lemma calm_op op : (forall past, consent past op) -> calm (perform op).
Proof. intros H past. split; [apply H|done]. Qed.
Lemma calm_each {A} (f : A -> CLI unit) l : (forall x, calm (f x)) -> calm (each_ f l).
Proof. intros H. induction l as [|x l IH]; [apply calm_ret|]. by apply calm_bind. Qed.
Lemma base_inj x y z : x +:+ y = x +:+ z -> y = z.
Proof. induction x as [|b x IH]; [done|]. by intros [= H%IH]. Qed.
Definition plain_path (path : string) : Prop := path <> "/api/v1/replica/join" /\ path <> "/api/v1/replica/promote".
Lemma calm_call {A} c' method path (dec : option (Decoder A)) zero : BaseURL c' = BaseURL c -> plain_path path -> calm (Do_ c' method path None dec zero).
Proof.
  intros E [H1 H2] past. split; [|done]. cbn. rewrite E. split; [by intros X%base_inj|]. split; [by intros X%base_inj|]. by right; left.
Qed.
Lemma calm_fail e : calm (fail e).
Proof. apply calm_bind; [by apply calm_op|intros; apply calm_ret]. Qed.
Lemma calm_or_fail {A} (p : CLI (result cli_error A)) k : calm p -> (forall v, calm (k v)) -> calm (or_fail p k).
Proof. intros Hp Hk. apply calm_bind; [done|]. intros [v|e]; [apply Hk|apply calm_fail]. Qed.
Lemma calm_when b p : calm p -> calm (when_ b p).
Proof. by destruct b. Qed.
Ltac calm := repeat first [progress intros | apply calm_call; [reflexivity|split; [discriminate|discriminate]] | apply calm_ret | apply calm_or_fail | apply calm_each | apply calm_when | apply calm_bind
  | (apply calm_op; intros; exact I) | match goal with |- context [if ?b then _ else _] => destruct b eqn:? | |- calm (match ?x with _ => _ end) => destruct x end].
Lemma calm_status : calm (get_status c).
Proof. unfold get_status, fetch. calm. Qed.
Lemma calm_print st : calm (printNodeStatus st).
Proof. unfold printNodeStatus, print. calm. Qed.
Lemma calm_invite : calm (replicaInvite c).
Proof. unfold replicaInvite, fetch, print. calm. Qed.
Lemma calm_list : calm (replicaList c).
Proof. unfold replicaList. apply calm_or_fail; [apply calm_status|]. intros st. destruct (bool_decide _); [apply calm_bind; [apply calm_print|done]|]. unfold fetch, print. calm. Qed.
Lemma calm_remove id : calm (or_fail (call c "DELETE" ("/api/v1/replicas/" +:+ id) None) (fun _ => done_ [CStr "removed replica"; CStr id])).
Proof. unfold call, done_, print. calm. Qed.

(** ** The steps that ask *)
Definition extends past t : Prop := exists l, t = past ++ l.
Lemma extends_refl t : extends t t.
Proof. exists []. by rewrite app_nil_r. Qed.
Lemma extends_snoc past t e : extends past t -> extends past (t ++ [e]).
Proof. intros [l ->]. exists (l ++ [e]). by rewrite app_assoc. Qed.
Lemma exists_extends P past t : extends past t -> Exists P past -> Exists P t.
Proof. intros [l ->] H. apply Exists_app. by left. Qed.
Lemma exists_last (P : Event Ans -> Prop) past e : P e -> Exists P (past ++ [e]).
Proof. intros H. apply Exists_app. right. by constructor. Qed.
Hint Resolve extends_refl extends_snoc exists_extends exists_last : core.
Lemma extends_trans t1 t2 t3 : extends t1 t2 -> extends t2 t3 -> extends t1 t3.
Proof. intros [l1 ->] [l2 ->]. exists (l1 ++ l2). by rewrite app_assoc. Qed.

(** The role is read first; an error ends the join. *)
Definition summary_says past t (r : result cli_error (option (Z * Z))) : Prop := extends past t /\ (r = Ok None -> not_primary t).
Lemma wp_read_step {A} path (dec : Decoder A) zero past (Q : list (Event Ans) -> result cli_error A -> Prop) : plain_path path ->
  (forall x, Q (past ++ [mkEvent (Send (call_request c "GET" path None)) x]) (read_reply (Some dec) zero x)) -> wp consent (fetch c "GET" path None dec zero) past Q.
Proof.
  intros [H1 H2] HQ. split; [|exact HQ]. cbn. split; [by intros X%base_inj|]. split; [by intros X%base_inj|]. by right; left.
Qed.
Lemma wp_localSummary past : wp consent (localSummary c) past (summary_says past).
Proof.
  apply wp_bind. apply wp_read_step; [by split|]. intros x. destruct (read_reply _ _ x) as [role|e] eqn:E; [|by split; auto].
  case_bool_decide as R; cbn [negb]; cycle 1.
  { split; [auto|]. intros _. apply exists_last. cbn. repeat split; [done..|]. by exists role. }
  apply wp_bind. apply wp_read_step; [by split|]. intros x2. destruct (read_reply _ _ x2) as [n|e]; [|by split; auto].
  apply wp_bind. apply wp_read_step; [by split|]. intros x3. by destruct (read_reply _ _ x3) as [n'|e]; split; auto.
Qed.
Lemma wp_ask {A} q (k : bool -> CLI A) past Q : (forall line, (is_yes line = true -> agreed q (mkEvent (Ask q) line)) -> wp consent (k (is_yes line)) (past ++ [mkEvent (Ask q) line]) Q) ->
  wp consent (b ← ask q; k b) past Q.
Proof. intros H. split; [done|]. intros line. apply H. by cbn. Qed.
Lemma wp_say {A} m (k : CLI A) past Q : wp consent k (past ++ [mkEvent (Complain m) tt]) Q -> wp consent (_ ← complain m; k) past Q.
Proof. intros H. split; [done|]. by intros []. Qed.
Lemma wp_confirm address yes past : wp consent (confirmReplacement c address tty yes) past (fun t rc => extends past t /\ (rc = 0 -> loss_accepted address yes t)).
Proof.
  apply wp_bind. eapply wp_mono; [|apply wp_localSummary]. intros t [summary|e] [Ht Hn]; cycle 1.
  { split; [done|]. intros x. split; [auto|done]. }
  destruct summary as [[services records]|].
  - apply wp_say. unfold loss_accepted. destruct yes; [split; auto|]. destruct tty; cbn [negb]; [|apply wp_say; split; [auto|done]].
    apply wp_ask. intros line Hy. destruct (is_yes line); [split; [auto 6|]; intros _; right; left; auto|]. apply wp_say. split; [auto 6|done].
  - specialize (Hn eq_refl). unfold loss_accepted. destruct yes; cbn [orb]; [split; auto|]. destruct tty; cbn [negb]; [|split; auto].
    apply wp_say, wp_ask. intros line Hy. destruct (is_yes line); [split; [auto 6|]; intros _; right; right; unfold not_primary in *; eauto 8|]. apply wp_say. split; [auto 6|done].
Qed.
Lemma calm_join_answer address out : calm (join_answer address out).
Proof. unfold join_answer. destruct out as [id|e]; [unfold print; calm|]. destruct e; try apply calm_fail. unfold codeWithheld, complain. case_bool_decide; [calm|apply calm_fail]. Qed.
Lemma wp_join_confirmed address code rest set more fp past : args = "join" :: address :: code :: rest ->
  FlagParse [("fingerprint", FString); ("yes", FBool)] rest ∅ = Ok (set, more) -> fp <> "" -> presented address fp past ->
  key_confirmed (normalizeFingerprint (flag_string set "fingerprint" "")) fp past ->
  wp consent (join_confirmed c address code fp tty (flag_bool set "yes")) past (fun _ _ => True).
Proof.
  intros Ha Hf Hfp Hp Hk. apply wp_bind. eapply wp_mono; [|apply wp_confirm]. intros t rc [Ht Hl]. destruct (Z.eqb_spec rc 0) as [E|N]; cbn [negb].
  - specialize (Hl E). split.
    + split; [|split; [|by left]].
      * intros _. exists address, code, rest, set, more, fp. split; [done|]. split; [done|]. split; [done|]. split; [done|].
        split; [unfold presented in *; eauto|]. split; [|done]. destruct Hk as [Hk|(Hk & Hk2 & Hk3)]; [by left|right; eauto].
      * cbn. by intros X%base_inj.
    + intros x. apply calm_join_answer.
  - unfold codeWithheld, complain. by split.
Qed.
Lemma wp_join rest past : args = "join" :: rest -> wp consent (replicaJoin c rest tty) past (fun _ _ => True).
Proof.
  intros Ha. destruct rest as [|address [|code rest]]; [by repeat split..|]. unfold replicaJoin. destruct (_ || _); [by repeat split|]. unfold with_flags.
  destruct (FlagParse _ _ _) as [[set more]|e] eqn:F; [|by repeat split]. set (expected := normalizeFingerprint (flag_string set "fingerprint" "")) in *.
  destruct (bool_decide (expected = "") && negb tty) eqn:G; [by repeat split|]. split.
  { cbn. split; [by intros X%base_inj|]. split; [by intros X%base_inj|]. right. right. by exists address. }
  intros x. match goal with |- wp _ _ (_ ++ [?e]) _ => set (ev := e) end.
  match goal with |- wp _ (prog_mbind _ _ ?k _) _ _ => change (wp consent (k (read_reply (Some (one_string "fingerprint")) "" x)) (past ++ [ev]) (fun _ _ => True)) end. cbv beta.
  destruct (read_reply _ _ x) as [fp|e] eqn:E; [|apply calm_fail]. set (seen := normalizeFingerprint fp).
  assert (Hp : presented address seen (past ++ [ev])) by (apply exists_last; cbn; repeat split; by exists fp).
  destruct (bool_decide_reflect (seen = "")) as [Z0|Z0]; [apply calm_fail|]. destruct (bool_decide_reflect (expected = "")) as [X|X]; cbn [negb].
  - apply wp_say, wp_ask. intros line Hy. destruct (is_yes line) eqn:Y; cbn [negb]; [|by repeat split].
    eapply wp_join_confirmed; [done..| |]; [unfold presented in *; eauto|]. right. destruct tty; [auto|done].
  - destruct (bool_decide_reflect (seen = expected)) as [S|S]; cbn [negb]; [|by repeat split].
    eapply wp_join_confirmed; [done|done|done|by rewrite <- S|by left].
Qed.
Lemma wp_promote rest past : args = "promote" :: rest -> wp consent (replicaPromote c rest tty) past (fun _ _ => True).
Proof.
  intros Ha. unfold replicaPromote, with_flags. destruct (FlagParse _ _ _) as [[set more]|e] eqn:F; [|by repeat split].
  destruct (bool_decide_reflect (more = [])) as [->|N]; cbn [negb]; [|by repeat split].
  assert (Hs : forall past, (flag_bool set "yes" = true \/ tty = true /\ Exists (agreed promote_question) past) -> wp consent (send_promote c) past (fun _ _ => True)).
  { intros past' H. split; [|intros x; unfold read_reply]. { cbn. split; [by intros X%base_inj|]. split; [|by right; left]. intros _. by exists rest, set. }
    apply (calm_bind (mret (read_reply (Some (dec_struct promote_fields)) (false, "") x))); [apply calm_ret|]. intros [v|e]; [|apply calm_fail].
    unfold done_, print. destruct v.1; calm. }
  destruct (flag_bool set "yes") eqn:Y; [apply Hs; by left|]. apply wp_say. destruct tty; cbn [negb]; [|by repeat split].
  apply wp_ask. intros line Hy. destruct (is_yes line); [|by repeat split]. apply Hs. right. auto.
Qed.
End Consent.

(** C33: the two commands by which a node gives something up send their request only
    after consent.  A pairing code leaves in no request but the join itself, which
    carries the key that the server reported for that address, compared with the one
    passed as a flag or confirmed with a yes at a terminal.  A primary's configuration
    goes only with [--yes] or a yes at a terminal; a promotion too. *)
Theorem pairing_needs_consent c tty args t code t1 e t2 : outcome (replicaCmd tty c args) t code -> t = t1 ++ e :: t2 -> consent c tty args t1 (ev_op e).
Proof.
  intros Ho Ht. assert (H : wp (consent c tty args) (replicaCmd tty c args) [] (fun _ _ => True)); [|destruct (wp_outcome _ _ _ _ _ _ H Ho) as [_ G]; exact (G _ _ _ Ht)].
  destruct args as [|sub rest]; [by repeat split|]. unfold replicaCmd.
  case_bool_decide; [apply calm_invite|]. case_bool_decide; [apply calm_list|].
  case_bool_decide; [apply calm_or_fail; [apply calm_status|intros st; apply calm_bind; [apply calm_print|done]]|].
  case_bool_decide as E4; [subst; by apply wp_join|]. case_bool_decide as E5; [subst; by apply wp_promote|].
  case_bool_decide; [|by repeat split]. destruct rest as [|id [|? ?]]; [by repeat split|apply calm_remove|by repeat split].
Qed.

(** ** The binary *)
Section Binary.
Context (Getenv : string -> string) (tty : bool) (version : string) (ReadUnverifiedManifest : string -> option string).
Abbreviation main := (main Getenv tty version ReadUnverifiedManifest).
Definition answered (op : Op) (P : Ans op -> Prop) (e : Event Ans) : Prop := exists x, e = mkEvent op x /\ P x.
(** What comes before a custodian types a share, and before anything is restored. *)
Definition restore_ready (capsule out : string) (past : list (Event Ans)) : Prop :=
  Exists (answered (DirEntries out) (fun n => n = None \/ n = Some 0%nat)) past /\
  Exists (answered (ReadFile capsule) (fun raw => exists s, raw = Some s /\ ReadUnverifiedManifest s = Some Backup.ServiceName)) past.
Definition restore_named (args : list string) (capsule out : string) : Prop :=
  capsule <> "" /\ out <> "" /\ exists set, FlagParse [("capsule", FString); ("out", FString)] args ∅ = Ok (set, []) /\ flag_string set "capsule" "" = capsule /\ flag_string set "out" "" = out.
Definition restore_guard (args : list string) (past : list (Event Ans)) (op : Op) : Prop :=
  match op with
  | ReadShares => exists capsule out, restore_named args capsule out /\ restore_ready capsule out past
  | RestoreCapsule capsule out service shares => service = Backup.ServiceName /\ restore_named args capsule out /\ restore_ready capsule out past /\ Exists (answered ReadShares (fun s => s = Some shares)) past
  | _ => True
  end.
Lemma ready_snoc capsule out past e : restore_ready capsule out past -> restore_ready capsule out (past ++ [e]).
Proof. intros [H1 H2]. split; apply Exists_app; by left. Qed.
Lemma wp_restore args : wp (restore_guard args) (restoreCmd ReadUnverifiedManifest args) [] (fun _ _ => True).
Proof.
  unfold restoreCmd. destruct (FlagParse _ _ _) as [[set rest]|x] eqn:F; [|by repeat split]. set (capsule := flag_string set "capsule" "") in *. set (out := flag_string set "out" "") in *.
  destruct (_ || _) eqn:U; [by repeat split|]. apply orb_false_iff in U as [[U1 U2]%orb_false_iff U3]. bool_to_prop. subst rest.
  assert (Hnm : restore_named args capsule out) by (split; [done|]; split; [done|]; by exists set).
  split; [done|]. intros n. set (e1 := mkEvent (DirEntries out) n). cbn [prog_bind mret prog_mret].
  change (wp (restore_guard args) (if match n with Some (S _) => true | _ => false end then _ ← complain (Say "restore directory must be empty" []); mret 1 else
    raw ← perform (ReadFile capsule); match raw with None => fail NotRead | Some raw => match ReadUnverifiedManifest raw with None => fail Undecodable | Some service =>
      if negb (bool_decide (service = Backup.ServiceName)) then _ ← complain (Say "capsule is for service" [CStr service; CStr Backup.ServiceName]); mret 1 else
      shares ← perform ReadShares; match shares with None => fail NotRead | Some shares => ok ← perform (RestoreCapsule capsule out Backup.ServiceName shares); exit_of ok end end end) [e1] (fun _ _ => True)).
  assert (Hn : (match n with Some (S _) => true | _ => false end) = false -> n = None \/ n = Some 0%nat) by (destruct n as [[]|]; auto; done).
  destruct (match n with Some (S _) => true | _ => false end); [by repeat split|]. specialize (Hn eq_refl).
  split; [done|]. intros [raw|]; [|by repeat split]. set (e2 := mkEvent (ReadFile capsule) (Some raw)).
  change (wp (restore_guard args) (match ReadUnverifiedManifest raw with None => fail Undecodable | Some service =>
      if negb (bool_decide (service = Backup.ServiceName)) then _ ← complain (Say "capsule is for service" [CStr service; CStr Backup.ServiceName]); mret 1 else
      shares ← perform ReadShares; match shares with None => fail NotRead | Some shares => ok ← perform (RestoreCapsule capsule out Backup.ServiceName shares); exit_of ok end end) [e1; e2] (fun _ _ => True)).
  destruct (ReadUnverifiedManifest raw) as [service|] eqn:M; [|by repeat split]. destruct (bool_decide_reflect (service = Backup.ServiceName)) as [->|N]; cbn [negb]; [|by repeat split].
  assert (Hr : restore_ready capsule out [e1; e2]) by (split; [apply Exists_cons; left; by exists n|apply Exists_cons; right; apply Exists_cons; left; exists (Some raw); split; [done|by exists raw]]).
  split; [by exists capsule, out|]. intros [shares|]; [|by repeat split]. split.
  - split; [done|]. split; [done|]. split; [by apply (ready_snoc _ _ [e1; e2])|]. apply Exists_app. right. apply Exists_cons. left. by exists (Some shares).
  - intros [|]; by repeat split.
Qed.
End Binary.

(** a restore asks the custodians last.  Shares are read only when the command line
    held no stray word (so no share was typed there), the target directory is missing or
    empty, and the capsule could be read and states this service; and what is restored
    is that capsule, into that directory, with the shares that were read. *)
Theorem restore_asks_last Getenv tty version manifest args t code t1 e t2 :
  outcome (main Getenv tty version manifest ("restore" :: args)) t code -> t = t1 ++ e :: t2 -> restore_guard manifest args t1 (ev_op e).
Proof.
  intros Ho Ht. change (main Getenv tty version manifest ("restore" :: args)) with (restoreCmd manifest args) in Ho.
  destruct (wp_outcome _ _ _ _ _ _ (wp_restore manifest args) Ho) as [_ G]. exact (G _ _ _ Ht).
Qed.

(** every command of the table runs from the binary: none of the binary's own words
    hides it, and no two commands share a name. *)
Theorem binary_runs_every_command Getenv tty version manifest cmd args : cmd ∈ Commands tty ->
  main Getenv tty version manifest (cm_Name cmd :: args) = cm_Run cmd (NewClient Getenv) args.
Proof. intros H. unfold Commands in H. repeat (apply elem_of_cons in H as [->|H]; [reflexivity|]). by apply not_elem_of_nil in H. Qed.

(** ** A run *)
Definition ex_client : Client := NewClient ex_getenv.
(** Joining from a terminal: the primary's key is looked at, matched, the loss of this
    node's configuration accepted, and only then does the code go out. *)
Lemma pairing_needs_consent_witness : let p := replicaCmd true ex_client (tail ex_join) in
  exists t1 e t2, ex_log p = t1 ++ e :: t2 /\ length t1 = 8%nat /\
  (exists r, ev_op e = Send r /\ rq_URL r = join_url ex_client) /\ consent ex_client true (tail ex_join) t1 (ev_op e).
Proof.
  intros p. destruct (drop 8 (ex_log p)) as [|e t2] eqn:D; [vm_compute in D; discriminate|].
  assert (Ht : ex_log p = take 8 (ex_log p) ++ e :: t2) by (rewrite <- D; symmetry; apply take_drop).
  exists (take 8 (ex_log p)), e, t2. split; [exact Ht|]. split; [vm_compute; reflexivity|]. split.
  - assert (E : head (drop 8 (ex_log p)) = Some e) by (rewrite D; reflexivity). vm_compute in E. injection E as <-. eexists. split; reflexivity.
  - apply (pairing_needs_consent ex_client true (tail ex_join) (ex_log p) 0 _ e t2); [|exact Ht].
    assert (E : (run ex_answers p tt).2 = 0) by (vm_compute; reflexivity). rewrite <- E. apply run_outcome.
Defined.
Definition ex_restore : list string := ["--capsule"; "/tmp/a.kycap"; "--out=/srv/new"].
Lemma restore_asks_last_witness : let p := main ex_getenv true "dev" (fun _ => Some "KyDNS") ("restore" :: ex_restore) in
  exists t1 e t2, ex_log p = t1 ++ e :: t2 /\ ev_op e = ReadShares /\ restore_guard (fun _ => Some "KyDNS") ex_restore t1 (ev_op e).
Proof.
  intros p. destruct (drop 2 (ex_log p)) as [|e t2] eqn:D; [vm_compute in D; discriminate|].
  assert (Ht : ex_log p = take 2 (ex_log p) ++ e :: t2) by (rewrite <- D; symmetry; apply take_drop).
  exists (take 2 (ex_log p)), e, t2. split; [exact Ht|]. split.
  - assert (E : head (drop 2 (ex_log p)) = Some e) by (rewrite D; reflexivity). vm_compute in E. injection E as <-. reflexivity.
  - apply (restore_asks_last ex_getenv true "dev" (fun _ => Some "KyDNS") ex_restore (ex_log p) 0 _ e t2); [|exact Ht].
    assert (E : (run ex_answers p tt).2 = 0) by (vm_compute; reflexivity). rewrite <- E. apply run_outcome.
Defined.
Lemma binary_runs_every_command_witness : main ex_getenv true "dev" (fun _ => None) ["view"; "rm"; "home"] = viewCmd ex_client ["rm"; "home"].
Proof. apply (binary_runs_every_command ex_getenv true "dev" (fun _ => None) (mkCommand "view" "manage views" viewCmd) ["rm"; "home"]). do 2 right. left. Defined.
