(* ===== verification/CliApi.v ===== *)
(** * The command line against the admin API

    What [net/http] makes of the address a command puts together, and what that means
    for routing; then a change of settings from the words of the command to the rows of
    the server. *)
From S2P Require Import Backup.
From S2P Require Import Prelude GoStr PolicyName Policy PolicyService RegistryValidate Registry.
From S2P Require Import NetIP NetIPPrint Model Zone ZoneHolder Store StoreNode StoreProps DnsMsg DnsMetrics DnsCache DnsAuth DnsForward Upstream.
From S2P Require Import SettingsValidate Settings Ticker Health DhcpAlloc DhcpReserve DhcpServer ReplicaSync Replica Pairing Role DhcpRunner Live.
From S2P Require Import Json AdminDto AdminApi AdminApiProps Config GoFlag Interact Cli CliRegistry CliServer CliReplica CliMain CliProps.

(** ** Addresses *)
Fixpoint unescape (l : list ascii) : option (list ascii) :=
  match l with
  | [] => Some []
  | c :: t =>
      if bool_decide (c = "%"%char) then
        match t with
        | x :: y :: t => a ← hex_val x; b ← hex_val y; r ← unescape t; Some (chr (a * 16 + b) :: r)
        | _ => None
        end
      else r ← unescape t; Some (c :: r)
  end.
(** The bytes a path keeps as they are: [validEncoded] accepts them, and the percent
    sign. *)
Definition path_byte (c : ascii) : bool :=
  is_lower c || is_upper c || is_digit c || bool_decide (c ∈ ["-"; "_"; "."; "~"; "!"; "$"; "&"; "'"; "("; ")"; "*"; "+"; ","; "/"; ":"; ";"; "="; "@"; "["; "]"; "%"]%char).
Definition control_byte (c : ascii) : bool := (code c <? 32) || (code c =? 127).
(** The segments the server's mux sees.  A path that is validly encoded goes over the
    wire as it is and its segments are decoded one by one; another is decoded whole and
    encoded again, so a slash it escaped is one then. *)
Definition path_segments (p : list ascii) : option (list string) :=
  whole ← unescape p;
  segs ← (if forallb path_byte p then mapM (fun s => str <$> unescape s) (split_by (is_byte "/") p) else Some (str <$> split_by (is_byte "/") whole));
  match segs with first :: segs => if bool_decide (first = "") then Some segs else None | [] => None end.
Definition cut_at (c : ascii) (l : list ascii) : list ascii * option (list ascii) := match cut_byte c l with Some (a, b) => (a, Some b) | None => (l, None) end.
(** [http.NewRequest] and the server's parser: the path without its fragment, cut at
    the query.  [None] is an address that one of them refuses. *)
Definition request_target (path : string) : option (list string * option string) :=
  let '(whole, _) := cut_at "#" (bytes path) in
  let '(p, query) := cut_at "?" whole in
  if existsb control_byte (bytes path) || existsb (is_byte " ") (default [] query) then None
  else segs ← path_segments p; Some (segs, str <$> query).

(** ** Routing *)
(** An argument that stands for itself in a path. *)
Definition plain_byte (c : ascii) : bool := is_lower c || is_upper c || is_digit c || bool_decide (c ∈ ["-"; "_"; "."; "~"; ":"; "@"; "+"; ","]%char).
Definition plain (s : string) : bool := negb (bool_decide (s ∈ [""; "."; ".."])) && forallb plain_byte (bytes s).
Definition plain_query (s : string) : bool := forallb (fun c => negb (control_byte c) && negb (bool_decide (c ∈ [" "; "#"]%char))) (bytes s).
Definition route_table {H} (rs : list (Route H)) : list (string * list string) := (fun rt => (rt_Method rt, rt_pat rt)) <$> rs.

Lemma unescape_plain l : "%"%char ∉ l -> unescape l = Some l.
Proof. induction l as [|c l IH]; [done|]. intros [H1 H2]%not_elem_of_cons. cbn. rewrite bool_decide_false by done. by rewrite IH. Qed.
Lemma plain_path_byte c : plain_byte c = true -> path_byte c = true.
Proof. destruct c as [[][][][][][][][]]; vm_compute; congruence. Qed.
Lemma plain_no c x : plain_byte c = true -> x ∈ ["%"; "/"; "?"; "#"]%char -> c <> x.
Proof. intros Hc Hx ->. repeat (apply elem_of_cons in Hx as [->|Hx]; [by vm_compute in Hc|]). by apply not_elem_of_nil in Hx. Qed.
Lemma plain_no_control c : plain_byte c = true -> control_byte c = false.
Proof. destruct c as [[][][][][][][][]]; vm_compute; congruence. Qed.
Lemma path_bytes_cons s segs : bytes (path_of (s :: segs)) = "/"%char :: bytes s ++ bytes (path_of segs).
Proof. destruct segs; cbn [path_of]; rewrite !bytes_app; [by rewrite app_nil_r|done]. Qed.
Lemma split_none p l : (forall x, x ∈ l -> p x = false) -> split_by p l = [l].
Proof. induction l as [|x l IH]; intros H; [done|]. cbn. rewrite H by left. rewrite IH; [done|]. intros y Hy. apply H. by right. Qed.
Lemma split_cons p x l : p x = true -> split_by p (x :: l) = [] :: split_by p l.
Proof. intros H. apply (split_by_app p [] x l H). Qed.
Definition slashless (s : string) : Prop := "/"%char ∉ bytes s.
Lemma path_split segs : Forall slashless segs -> segs <> [] -> split_by (is_byte "/") (bytes (path_of segs)) = [] :: (bytes <$> segs).
Proof.
  induction segs as [|s segs IH]; intros Hs Hn; [done|]. inversion Hs as [|? ? H1 H2]; subst. rewrite path_bytes_cons.
  rewrite split_cons by by apply bool_decide_eq_true_2. cbn [fmap list_fmap]. f_equal.
  assert (Hone : split_by (is_byte "/") (bytes s) = [bytes s]) by (apply split_none; intros x Hx; apply bool_decide_eq_false_2; by intros ->).
  destruct segs as [|s2 segs]; [by rewrite app_nil_r|]. specialize (IH H2 ltac:(done)). rewrite path_bytes_cons in *.
  rewrite split_cons in IH by by apply bool_decide_eq_true_2. rewrite split_by_app by by apply bool_decide_eq_true_2. rewrite Hone. injection IH as ->. done.
Qed.
Lemma path_byte_in segs x : x ∈ bytes (path_of segs) -> x = "/"%char \/ exists s, s ∈ segs /\ x ∈ bytes s.
Proof.
  induction segs as [|s segs IH]; [by intros ?%not_elem_of_nil|]. rewrite path_bytes_cons. intros [->|H]%elem_of_cons; [by left|].
  apply elem_of_app in H as [H|H]; [right; exists s; split; [left|done]|]. destruct (IH H) as [->|(s' & H1 & H2)]; [by left|]. right. exists s'. split; [by right|done].
Qed.
Lemma mapM_decoded (l : list string) : Forall (fun s => "%"%char ∉ bytes s) l -> mapM (fun s => str <$> unescape s) (bytes <$> l) = Some l.
Proof. induction 1 as [|s l H _ IH]; [done|]. cbn. rewrite unescape_plain by done. cbn. rewrite str_bytes. cbn in IH. by rewrite IH. Qed.
Lemma plain_bytes s x : plain s = true -> x ∈ bytes s -> plain_byte x = true.
Proof. unfold plain. intros [_ H]%andb_true_iff Hx. by apply (proj1 (forallb_forall _ _) H), list_elem_of_In. Qed.
(** A path of plain segments arrives as those segments, with its query if it is one. *)
Lemma target_plain segs (query : option string) : Forall (fun s => plain s = true) segs -> segs <> [] -> Forall (fun q => plain_query q = true) (option_list query) ->
  request_target (path_of segs +:+ match query with Some q => "?" +:+ q | None => "" end) = Some (segs, query).
Proof.
  intros Hs Hn Hq. rewrite Forall_forall in Hs.
  assert (Hb : forall x, x ∈ bytes (path_of segs) -> x = "/"%char \/ plain_byte x = true) by (intros x [->|(s & H1 & H2)]%path_byte_in; [by left|right; eapply plain_bytes; eauto]).
  assert (Hno : forall x, x ∈ ["%"; "?"; "#"]%char -> x ∉ bytes (path_of segs)).
  { intros x Hx [->|Hp]%Hb; [repeat (apply elem_of_cons in Hx as [Hx|Hx]; [done|]); by apply not_elem_of_nil in Hx|]. eapply plain_no; [exact Hp| |done]. set_solver. }
  assert (Hseg : path_segments (bytes (path_of segs)) = Some segs).
  { unfold path_segments. rewrite unescape_plain by (apply Hno; set_solver). cbn [mbind option_bind].
    replace (forallb path_byte _) with true.
    - rewrite path_split; [|apply Forall_forall; intros s H Hc; destruct (plain_no _ "/" (plain_bytes s _ (Hs s H) Hc)); [set_solver|done]|done].
      cbn [mapM]. rewrite mapM_decoded; [done|]. apply Forall_forall. intros s H Hc. destruct (plain_no _ "%" (plain_bytes s _ (Hs s H) Hc)); [set_solver|done].
    - symmetry. apply forallb_forall. intros x [->|Hx]%list_elem_of_In%Hb; [done|by apply plain_path_byte]. }
  assert (Hc : existsb control_byte (bytes (path_of segs)) = false).
  { apply not_true_iff_false. intros (x & H1%list_elem_of_In & H2)%existsb_exists. destruct (Hb x H1) as [->|Hx]; [done|]. by rewrite plain_no_control in H2. }
  unfold request_target, cut_at. destruct query as [q|].
  - cbn in Hq. inversion Hq as [|? ? Hq' _]; subst. unfold plain_query in Hq'. rewrite forallb_forall in Hq'.
    assert (Hcq : forall x, x ∈ bytes q -> control_byte x = false /\ x <> " "%char /\ x <> "#"%char).
    { intros x Hx%list_elem_of_In. specialize (Hq' x Hx). apply andb_true_iff in Hq' as [H1 H2]. bool_to_prop. split; [done|]. split; intros ->; set_solver. }
    rewrite bytes_app. change (bytes ("?" +:+ q)) with ("?"%char :: bytes q).
    destruct (cut_byte "#" _) as [[a b]|] eqn:E.
    { apply cut_byte_some in E as [E _]. exfalso. assert (H : "#"%char ∈ bytes (path_of segs) ++ "?"%char :: bytes q) by (rewrite E; set_solver).
      apply elem_of_app in H as [H|[H|H]%elem_of_cons]; [by apply (Hno "#"%char); [set_solver|]|done|]. by apply Hcq in H as (_ & _ & ?). }
    assert (E2 : cut_byte "?" (bytes (path_of segs) ++ "?"%char :: bytes q) = Some (bytes (path_of segs), bytes q)) by (apply cut_byte_some; split; [done|apply Hno; set_solver]).
    rewrite E2. unfold default, id. rewrite existsb_app, Hc. cbn [existsb orb]. change (control_byte "?") with false. cbn [orb].
    replace (existsb control_byte (bytes q)) with false by (symmetry; apply not_true_iff_false; intros (x & H1%list_elem_of_In & H2)%existsb_exists; destruct (Hcq x H1); congruence).
    replace (existsb (is_byte " ") (bytes q)) with false by (symmetry; apply not_true_iff_false; intros (x & H1%list_elem_of_In & H2)%existsb_exists; apply bool_decide_eq_true in H2; by destruct (Hcq x H1) as (_ & ? & _)).
    cbn [orb]. rewrite Hseg. cbn. by rewrite str_bytes.
  - rewrite bytes_app, app_nil_r. rewrite (proj2 (cut_byte_none "#" _)) by (apply Hno; set_solver). rewrite (proj2 (cut_byte_none "?" _)) by (apply Hno; set_solver).
    unfold default. cbn [existsb id]. rewrite Hc. cbn [orb]. by rewrite Hseg.
Qed.

Lemma holes_cons p pat : holes (p :: pat) = if HasPrefix p "{" then S (holes pat) else holes pat.
Proof. unfold holes. cbn [List.filter]. by destruct (HasPrefix p "{"). Qed.
Lemma fill_plain pat xs : Forall (fun p => HasPrefix p "{" = true \/ plain p = true) pat -> length xs = holes pat -> Forall (fun x => plain x = true) xs ->
  Forall (fun s => plain s = true) (fill pat xs).
Proof.
  revert xs. induction pat as [|p pat IH]; intros xs Hp Hl Hx; [constructor|]. inversion Hp as [|? ? Hp1 Hp2]; subst. rewrite holes_cons in Hl. cbn [fill].
  destruct (HasPrefix p "{") eqn:P.
  - destruct xs as [|x xs]; [done|]. inversion Hx; subst. constructor; [done|]. apply IH; [done|by injection Hl|done].
  - constructor; [by destruct Hp1|]. by apply IH.
Qed.
Lemma match_fill pat xs : length xs = holes pat -> Forall (fun x => plain x = true) xs -> match_pat pat (fill pat xs) = Some xs.
Proof.
  revert xs. induction pat as [|p pat IH]; intros xs Hl Hx; [by destruct xs|]. rewrite holes_cons in Hl. cbn [fill].
  destruct (HasPrefix p "{") eqn:P.
  - destruct xs as [|x xs]; [done|]. inversion Hx as [|? ? Hx1 Hx2]; subst. cbn [match_pat]. rewrite P. rewrite bool_decide_false by by intros ->.
    rewrite IH; [done|by injection Hl|done].
  - cbn [match_pat]. rewrite P, bool_decide_true by done. by apply IH.
Qed.
Lemma find_route_some {H} (rs : list (Route H)) m pat segs args : (m, pat) ∈ route_table rs -> match_pat pat segs = Some args -> is_Some (find_route m segs rs).
Proof.
  intros Hin Hm. unfold route_table in Hin. apply list_elem_of_fmap in Hin as (rt & E & Hrt). injection E as -> ->. unfold find_route.
  apply head_is_Some. intros Hnil. assert (Hx : (rt_handler rt, args) ∈ omap (fun rt0 => if method_match (rt_Method rt0) (rt_Method rt) then (fun a => (rt_handler rt0, a)) <$> match_pat (rt_pat rt0) segs else None) rs).
  { apply list_elem_of_omap. exists rt. split; [done|]. unfold method_match. rewrite bool_decide_true by done. cbn. by rewrite Hm. }
  rewrite Hnil in Hx. by apply not_elem_of_nil in Hx.
Qed.
Lemma cli_routes_plain r : r ∈ cli_routes -> r.2 <> [] /\ Forall (fun p => HasPrefix p "{" = true \/ plain p = true) r.2.
Proof.
  assert (H : Forall (fun r => r.2 <> [] /\ Forall (fun p => HasPrefix p "{" = true \/ plain p = true) r.2) cli_routes) by (apply (bool_decide_unpack _); vm_compute; exact I).
  rewrite Forall_forall in H. apply H.
Qed.

Section Api.
Context (backup_handler : string -> ApiRequest -> DB -> gmap string string * Response).
Context (url_Parse : string -> option ParsedURL) (LookupPort : string -> option Z).
Context (IsDomainName : string -> bool) (SplitDomainName : string -> list string).
Context (Fqdn : string -> string) (sha256 : list ascii -> list Z).
Context (toASCII : string -> option string) (list_url : string -> option PolicyService.URL) (manifest : Manifest).
Abbreviation routes := (routes backup_handler url_Parse LookupPort IsDomainName SplitDomainName Fqdn sha256 toASCII list_url manifest).
Lemma cli_routes_served api r : r ∈ cli_routes -> r ∈ route_table (routes api).
Proof.
  assert (H : cli_routes ⊆ route_table (routes api)); [|apply H]. unfold route_table. cbn [fmap list_fmap AdminApi.routes rt_Method rt_pat v1].
  apply (bool_decide_unpack (cli_routes ⊆ _)). vm_compute. exact I.
Qed.
(** Where a request of the command line ends up. *)
Definition reaches (api : API) (c : Client) (r : Request) : Prop :=
  exists path segs query, rq_URL r = BaseURL c +:+ path /\ request_target path = Some (segs, query) /\ is_Some (find_route (rq_Method r) segs (routes api)).
Lemma plain_is_query s : plain s = true -> plain_query s = true.
Proof.
  intros H. apply forallb_forall. intros x Hx%list_elem_of_In. pose proof (plain_bytes s x H Hx) as Hp. apply andb_true_iff. split; [by rewrite plain_no_control|].
  apply negb_true_iff, bool_decide_eq_false_2. intros Hc. repeat (apply elem_of_cons in Hc as [->|Hc]; [by vm_compute in Hp|]). by apply not_elem_of_nil in Hc.
Qed.
Lemma own_words_plain w : w ∈ own_words -> plain w = true.
Proof. assert (H : Forall (fun w => plain w = true) own_words) by (apply (bool_decide_unpack _); vm_compute; exact I). rewrite Forall_forall in H. apply H. Qed.
Lemma well_sent_reaches api c words r : well_sent c words r -> (forall w, w ∈ words -> plain w = true) -> reaches api c r.
Proof.
  intros [(pat & xs & Hr & Hl & Hx & Hu) _] Hw. destruct (cli_routes_plain _ Hr) as [Hn Hp]. cbn [snd] in *.
  assert (Hxs : Forall (fun x => plain x = true) xs) by (apply Forall_forall; intros x H; apply Hw, Hx, H).
  assert (Hf : fill pat xs <> []) by (destruct pat as [|p pat]; [done|]; cbn [fill]; destruct (HasPrefix p "{"); [by destruct xs|done]).
  pose proof (fill_plain pat xs Hp Hl Hxs) as Hs. pose proof (find_route_some _ _ _ _ _ (cli_routes_served api _ Hr) (match_fill pat xs Hl Hxs)) as Hroute.
  destruct Hu as [Hu|(q & v & Hq & Hv & Hu)].
  - pose proof (target_plain (fill pat xs) None Hs Hf (Forall_nil_2 _)) as Ht. cbn in Ht.
    exists (path_of (fill pat xs)), (fill pat xs), None. split; [done|]. split; [|done]. rewrite <- Ht. f_equal. apply bytes_inj. by rewrite bytes_app, app_nil_r.
  - assert (exists q', q = "?" +:+ q' /\ plain_query q' = true) as (q' & -> & Hq').
    { unfold query_keys in Hq. repeat (apply elem_of_cons in Hq as [->|Hq]; [eexists; split; [reflexivity|by vm_compute]|]). by apply not_elem_of_nil in Hq. }
    assert (Hqv : plain_query (q' +:+ v) = true).
    { unfold plain_query in *. rewrite bytes_app, forallb_app, Hq'. apply plain_is_query, Hw, Hv. }
    pose proof (target_plain (fill pat xs) (Some (q' +:+ v)) Hs Hf ltac:(by constructor)) as Ht. eexists _, _, _. split; [exact Hu|]. split; [exact Ht|done].
Qed.

Lemma cli_routes_prefix r : r ∈ cli_routes -> exists p pat, r.2 = "api" :: "v1" :: p :: pat.
Proof.
  intros H. unfold cli_routes in H. apply list_elem_of_fmap in H as ([m pat] & -> & H). cbn [snd]. assert (Hn : Forall (fun r : string * list string => r.2 <> []) [(m, pat)] -> exists p pat', pat = p :: pat').
  { intros Hf. inversion Hf; subst. destruct pat as [|p pat]; [done|by exists p, pat]. }
  destruct Hn as (p & pat' & ->); [|by exists p, pat']. constructor; [|done]. cbn.
  repeat (apply elem_of_cons in H as [H|H]; [by injection H as -> ->|]). by apply not_elem_of_nil in H.
Qed.
Lemma app_empty (s : string) : s +:+ "" = s.
Proof. apply bytes_inj. by rewrite bytes_app, app_nil_r. Qed.
Lemma path_slash s segs : exists y, path_of (s :: segs) = "/" +:+ y.
Proof. destruct segs; by eexists. Qed.
Lemma path_prefix p pat xs q : HasPrefix (path_of (fill ("api" :: "v1" :: p :: pat) xs) +:+ q) "/api/v1/" = true.
Proof.
  change (fill ("api" :: "v1" :: p :: pat) xs) with ("api" :: "v1" :: fill (p :: pat) xs).
  assert (exists s segs, fill (p :: pat) xs = s :: segs) as (s & segs & ->) by (cbn [fill]; destruct (HasPrefix p "{"); [destruct xs|]; by eexists _, _).
  destruct (path_slash s segs) as [y Hy]. apply HasPrefix_spec. exists (y +:+ q).
  change (path_of ("api" :: "v1" :: s :: segs)) with ("/" +:+ "api" +:+ "/" +:+ "v1" +:+ path_of (s :: segs)). rewrite Hy. done.
Qed.

(** a command speaks to the configured server only, with the configured token
    only, and when its arguments stand for themselves in a path every request it makes
    is routed: the address arrives as its segments, and the API's table has a route for
    it under its method. *)
Theorem command_requests_are_routed Getenv tty args t code e r : let c := NewClient Getenv in
  outcome (Run Getenv tty args) t code -> e ∈ t -> ev_op e = Send r ->
  (rq_Authorization r = Some ("Bearer " +:+ Token c) \/ rq_Authorization r = None /\ Token c = "") /\
  (exists path, rq_URL r = BaseURL c +:+ path /\ HasPrefix path "/api/v1/" = true) /\
  (Forall (fun a => plain a = true) args -> forall api, reaches api c r).
Proof.
  intros c Ho (t1 & t2 & ->)%list_elem_of_split He. destruct (wp_outcome _ _ _ _ _ _ (run_spec Getenv tty args) Ho) as [_ G].
  specialize (G t1 e t2 eq_refl). rewrite He in G. cbn [sends_well] in G. pose proof G as [(pat & xs & Hr & _ & _ & Hu) Ha]. split; [done|]. split.
  - destruct (cli_routes_prefix _ Hr) as (p & pat' & E). cbn [snd] in E. subst pat. destruct Hu as [Hu|(q & v & _ & _ & Hu)]; (eexists; split; [exact Hu|]); [|apply path_prefix].
    pose proof (path_prefix p pat' xs "") as X. by rewrite app_empty in X.
  - intros Hp api. apply (well_sent_reaches api c (args ++ own_words) r G). intros w [Hw|Hw]%elem_of_app; [by rewrite Forall_forall in Hp; apply Hp|by apply own_words_plain].
Qed.
End Api.

(** ** A run *)
Definition ex_view_rm : list string := ["view"; "rm"; "home"].
Lemma command_requests_are_routed_witness : exists e r, e ∈ ex_log (Run ex_getenv true ex_view_rm) /\ ev_op e = Send r /\
  rq_Authorization r = Some "Bearer kydns_0102" /\
  reaches ex_backup ex_url_parse ex_lookup ex_IsDomainName ex_names.2 ex_Fqdn ex_sha Some (fun _ => None) ex_builtins ex_api (NewClient ex_getenv) r.
Proof.
  assert (Hin : exists e r, e ∈ ex_log (Run ex_getenv true ex_view_rm) /\ ev_op e = Send r) by (eexists _, _; split; [vm_compute; left|reflexivity]).
  destruct Hin as (e & r & Hin & Hr).
  assert (Ho : outcome (Run ex_getenv true ex_view_rm) (ex_log (Run ex_getenv true ex_view_rm)) (run ex_answers (Run ex_getenv true ex_view_rm) tt).2) by apply run_outcome.
  destruct (command_requests_are_routed ex_backup ex_url_parse ex_lookup ex_IsDomainName ex_names.2 ex_Fqdn ex_sha Some (fun _ => None) ex_builtins
    ex_getenv true ex_view_rm _ _ e r Ho Hin Hr) as ([Ha|[_ Ha]] & _ & H); [|vm_compute in Ha; discriminate].
  exists e, r. split; [exact Hin|]. split; [exact Hr|]. split; [exact Ha|]. apply H. repeat constructor.
Defined.

(** ** Two ways a word is not taken as it is *)
(** A word after the view makes [record add] drop the view: the record is added to
    every view, and no usage error is given. *)
Lemma stray_word_drops_view name type value view stray more : record_body name type value (view :: stray :: more) = record_body name type value [].
Proof. reflexivity. Qed.
(** An argument is not escaped in a path: what follows a hash or a question mark does
    not reach the server, and the command acts on what is left. *)
Lemma unescaped_argument_is_cut :
  request_target ("/api/v1/records/" +:+ "5#6") = Some (["api"; "v1"; "records"; "5"], None) /\
  request_target ("/api/v1/views/" +:+ "home?x") = Some (["api"; "v1"; "views"; "home"], Some "x").
Proof. split; vm_compute; reflexivity. Qed.
