(* ===== verification/CliSettings.v ===== *)
(** * A change of settings, from the words of the command to the rows of the server

    The command line's table of kinds agrees with the server's wire form: whatever
    [kydns settings set] accepts, the server decodes, and what it saves is what was
    typed and nothing else. *)
From S2P Require Import Backup.
From S2P Require Import Prelude GoStr PolicyName Policy PolicyService RegistryValidate Registry.
From S2P Require Import NetIP NetIPPrint Model Zone ZoneHolder Store StoreNode StoreProps DnsMsg DnsMetrics DnsCache DnsAuth DnsForward Upstream.
From S2P Require Import SettingsValidate Settings Ticker Health DhcpAlloc DhcpReserve DhcpServer ReplicaSync Replica Pairing Role DhcpRunner Live.
From S2P Require Import Json AdminDto AdminApi AdminApiProps Config GoFlag Interact Cli CliRegistry CliServer CliReplica CliMain CliProps CliApi.

(** ** The two tables agree *)
Definition wire_kind (key : string) : option SettingKind := if bool_decide (key = "confirm_public") then Some KString else setting_kind key.
Definition of_kind (k : SettingKind) (j : JSON) : Prop :=
  match k with
  | KString => exists s, j = JString s
  | KList => exists l, j = enc_strings l
  | KBool => exists b, j = JBool b
  | KInt => exists n, j = JInt n /\ is_int64 n = true
  end.
Definition typed (body : gmap string JSON) : Prop := forall key j, body !! key = Some j -> exists k, wire_kind key = Some k /\ of_kind k j.
Lemma ParseInt_int64 s n : ParseInt s = Some n -> is_int64 n = true.
Proof.
  unfold ParseInt, is_int64.
  assert (go : forall (neg : bool) l, match l with [] => None | _ => match dec_digits 0 l with None => None | Some n0 =>
      let v := if neg then - n0 else n0 in if (- 2 ^ 63 <=? v) && (v <? 2 ^ 63) then Some v else None end end = Some n -> (- 2 ^ 63 <=? n) && (n <? 2 ^ 63) = true).
  { intros neg l. destruct l; [done|]. destruct (dec_digits _ _); [|done]. cbv zeta. destruct (_ && _) eqn:E; [|done]. by intros [= <-]. }
  destruct (bytes s) as [|c l]; [done|]. intros H. destruct c as [[][][][][][][][]]; match type of H with context [dec_digits 0 ?l'] => first [exact (go false l' H)|exact (go true l' H)] end.
Qed.
Lemma setting_value_kind k raw j : setting_value k raw = Some j -> of_kind k j.
Proof.
  destruct k; cbn; [by intros [= <-]; eexists|by intros [= <-]; eexists|..]; destruct (_ raw) as [v|] eqn:E; cbn; try done; intros [= <-]; [by eexists|].
  exists v. split; [done|]. by apply ParseInt_int64 in E.
Qed.
Lemma settings_body_typed n args body body' : (length args <= n)%nat -> typed body -> settings_body args body = Ok body' -> typed body'.
Proof.
  revert args body. induction n as [|n IH]; intros [|arg args] body Hn Ht H; cbn in Hn; [by injection H as <-|lia|by injection H as <-|]. cbn [settings_body] in H.
  assert (Hset : forall key j k, wire_kind key = Some k -> of_kind k j -> typed (<[key := j]> body)).
  { intros key j k Hk Hj key' j' [[<- <-]|[_ Hl]]%lookup_insert_Some; [by exists k|by apply Ht]. }
  case_bool_decide as C.
  - destruct args as [|cidr args]; [done|]. eapply (IH args); [cbn in *; lia| |exact H]. by apply (Hset _ _ KString); [|eexists].
  - destruct (cut_assignment arg) as [[k raw]|]; [|done]. destruct (setting_kind k) as [kind|] eqn:K; [|done]. destruct (setting_value kind raw) as [v|] eqn:V; [|by destruct kind].
    eapply (IH args); [lia| |exact H]. apply (Hset _ _ kind); [|by eapply setting_value_kind]. unfold wire_kind. case_bool_decide as E; [|done]. subst k. vm_compute in K. done.
Qed.
(** Every key of the table is the exact name of a field that takes its kind. *)
Definition takes (key : string) (k : SettingKind) : Prop := forall j d, of_kind k j -> is_Some (put_key settings_fields (key, j) d).
Lemma kinds_taken : Forall (fun x => takes x.1 x.2) (("confirm_public", KString) :: settingsKinds).
Proof.
  assert (HS : forall key, (forall s d, is_Some (put_key settings_fields (key, JString s) d)) -> takes key KString) by (intros key H j d [s ->]; apply H).
  assert (HL : forall key, (forall l d, is_Some (put_key settings_fields (key, enc_strings l) d)) -> takes key KList) by (intros key H j d [l ->]; apply H).
  assert (HB : forall key, (forall b d, is_Some (put_key settings_fields (key, JBool b) d)) -> takes key KBool) by (intros key H j d [b ->]; apply H).
  assert (HI : forall key, (forall n d, is_int64 n = true -> is_Some (put_key settings_fields (key, JInt n) d)) -> takes key KInt) by (intros key H j d (n & -> & Hn); by apply H).
  unfold settingsKinds. repeat (apply Forall_cons; split; [cbn [fst snd]; first [apply HS | apply HL | apply HB | apply HI]; intros x d|]); try apply Forall_nil_2;
    (try intros Hn; eexists; lazy -[enc_strings dec_slice dec_string is_int64]; rewrite ?dec_strings, ?Hn; reflexivity).
Qed.
Lemma kind_taken key k : wire_kind key = Some k -> takes key k.
Proof.
  pose proof kinds_taken as [Hc Hs]%Forall_cons. unfold wire_kind. case_bool_decide as E; [by intros [= <-]; subst key|].
  unfold setting_kind. destruct (List.find _ settingsKinds) as [[key' k']|] eqn:F; [|done]. cbn. intros [= <-].
  apply find_some in F as [F1 F2]. bool_to_prop. cbn in F2. subst key'. rewrite Forall_forall in Hs. apply (Hs (key, k')). by apply list_elem_of_In.
Qed.
Lemma put_typed kvs d : Forall (fun kv => exists k, wire_kind kv.1 = Some k /\ of_kind k kv.2) kvs -> is_Some (put_keys settings_fields kvs d).
Proof.
  revert d. induction kvs as [|[key j] kvs IH]; intros d H; [by eexists|]. apply Forall_cons in H as [(k & Hk & Hj) H]. cbn [put_keys].
  destruct (kind_taken key k Hk j d Hj) as [d' E]. rewrite E. by apply IH.
Qed.
Lemma map_keys_perm m : map_keys m ≡ₚ map_to_list m.
Proof. apply merge_sort_Permutation. Qed.
Lemma map_keys_lookup m key j : (key, j) ∈ map_keys m <-> m !! key = Some j.
Proof. rewrite map_keys_perm. apply elem_of_map_to_list. Qed.
Lemma map_keys_nodup m : NoDup (map_keys m).*1.
Proof. rewrite map_keys_perm. apply NoDup_fst_map_to_list. Qed.

(** ** What is saved *)
Definition kind_names : list string := "confirm_public" :: settingsKinds.*1.
Lemma wire_kind_name key k : wire_kind key = Some k -> key ∈ kind_names.
Proof.
  unfold wire_kind, kind_names. case_bool_decide as E; [subst key; by left|]. unfold setting_kind. destruct (List.find _ _) as [[key' k']|] eqn:F; [|done]. intros _. right.
  apply find_some in F as [F1 F2]. bool_to_prop. cbn in F2. subst key'. apply list_elem_of_fmap. exists (key, k'). split; [done|]. by apply list_elem_of_In.
Qed.
Lemma kind_names_exact key : key ∈ kind_names -> field_of settings_fields key = Some key.
Proof.
  assert (H : Forall (fun key => field_of settings_fields key = Some key) kind_names).
  { unfold kind_names. cbn [settingsKinds fmap list_fmap fst]. repeat (apply Forall_cons; split; [vm_compute; reflexivity|]). apply Forall_nil_2. }
  rewrite Forall_forall in H. apply H.
Qed.
Lemma typed_names m : typed m -> forall key, key ∈ (map_keys m).*1 -> key ∈ kind_names.
Proof. intros H key ([key' j] & -> & Hin)%list_elem_of_fmap. cbn. apply map_keys_lookup in Hin. destruct (H _ _ Hin) as (k & Hk & _). by eapply wire_kind_name. Qed.
Lemma names_omap (l : list string) : (forall key, key ∈ l -> key ∈ kind_names) -> omap (field_of settings_fields) l = l.
Proof. induction l as [|key l IH]; intros H; [done|]. cbn. rewrite kind_names_exact by (apply H; by left). f_equal. apply IH. intros k Hk. apply H. by right. Qed.
Lemma value_of_typed m key : typed m -> value_of settings_fields key (map_keys m) = m !! key.
Proof.
  intros H. unfold value_of. destruct (List.find _ (map_keys m)) as [[key' j]|] eqn:F.
  - apply find_some in F as [F1%list_elem_of_In F2]. bool_to_prop. cbn in F2. pose proof (typed_names m H key') as Hn.
    rewrite kind_names_exact in F2 by (apply Hn, list_elem_of_fmap; by exists (key', j)). injection F2 as ->. by apply map_keys_lookup in F1.
  - destruct (m !! key) as [j|] eqn:E; [|done]. exfalso. apply map_keys_lookup in E as Hin. apply list_elem_of_In in Hin. pose proof (find_none _ _ F _ Hin) as N. cbn in N. bool_to_prop.
    apply N, kind_names_exact. destruct (H _ _ E) as (k & Hk & _). by eapply wire_kind_name.
Qed.
(** Each setting is what was typed for it, or what it was. *)
Definition saved {B} (m : gmap string JSON) (d d' : settingsDTO) (key : string) (dec : Decoder B) (get : settingsDTO -> B) : Prop :=
  match m !! key with Some j => dec j (get d) = Some (get d') | None => get d' = get d end.
Definition settings_saved (m : gmap string JSON) (d d' : settingsDTO) : Prop :=
  let r {B} (get : Settings -> B) := fun d : settingsDTO => get (st_row d) in
  let s k := @saved string m d d' k dec_string in let l k := @saved (list string) m d d' k (dec_slice "" dec_string) in
  let b k := @saved bool m d d' k dec_bool in let i k := @saved Z m d d' k dec_int in
  (s "private_domain" (r PrivateDomain) /\ l "reverse_zones" (r ReverseZones) /\ l "upstreams" (r Upstreams) /\ l "allow_query" (r AllowQuery) /\
   b "allow_tailscale" (r AllowTailscale) /\ i "ttl" (r TTL) /\ i "cache_min_ttl" (r CacheMinTTL) /\ i "cache_max_ttl" (r CacheMaxTTL) /\
   i "negative_max_ttl" (r NegativeMaxTTL) /\ i "cache_entries" (r CacheEntries) /\ b "log_queries" (r LogQueries) /\ b "log_client_ip" (r LogClientIP) /\
   s "dhcp_lease_file" (r DHCPLeaseFile)) /\
  (i "discovery_interval" (r DiscoveryInterval) /\ i "health_interval" (r HealthInterval) /\ i "health_timeout" (r HealthTimeout) /\ i "health_workers" (r HealthWorkers) /\
   b "dhcp_enabled" (r DHCPEnabled) /\ s "dhcp_interface" (r DHCPInterface) /\ s "dhcp_range_start" (r DHCPRangeStart) /\ s "dhcp_range_end" (r DHCPRangeEnd) /\
   s "dhcp_gateway" (r DHCPGateway) /\ i "dhcp_lease_seconds" (r DHCPLeaseSeconds) /\ s "dhcp_secondary_dns" (r DHCPSecondaryDNS) /\ b "dhcp_allow_foreign" (r DHCPAllowForeign) /\
   s "confirm_public" st_confirm_public).
Lemma saved_merge {B} m d d' key (dec : Decoder B) get : typed m -> only settings_fields key get -> puts settings_fields key dec get ->
  put_keys settings_fields (map_keys m) d = Some d' -> saved m d d' key dec get.
Proof.
  intros Ht Ho Hp H. pose proof (put_keys_merge _ _ dec get (map_keys m) Ho Hp d d') as G. unfold given in G. rewrite value_of_typed in G by done.
  unfold saved. apply G; [|done]. rewrite names_omap by by apply typed_names. apply map_keys_nodup.
Qed.
Lemma settings_patch m d d' : typed m -> put_keys settings_fields (map_keys m) d = Some d' -> settings_saved m d d'.
Proof.
  intros Ht H. unfold settings_saved. repeat split; (apply saved_merge; [done| |
    repeat (apply puts_cons; [try done; intros _ j x x' Hf; apply field_put in Hf as (v & Hf & ->); exact Hf|]); by intros f Hf%not_elem_of_nil|done]);
    repeat (apply only_cons; [try (by intros []); intros _ j x x' Hf; apply field_put in Hf as (v & _ & ->); reflexivity|]); by intros f Hf%not_elem_of_nil.
Qed.

(** ** What an operator means by the words *)
(** The words of the command, and what they name: [key=raw] up to the first equals sign,
    and the flag with the word behind it. *)
Inductive Word := Assign (key raw : string) | Confirm (cidr : string).
Inductive words : list string -> list Word -> Prop :=
  | words_end : words [] []
  | words_confirm cidr args ws : words args ws -> words ("--confirm-public" :: cidr :: args) (Confirm cidr :: ws)
  | words_assign key raw args ws : "="%char ∉ bytes key -> words args ws -> words ((key +:+ "=" +:+ raw) :: args) (Assign key raw :: ws).
(** The last word counts. *)
Definition typed_for (key : string) (ws : list Word) : option string :=
  last (omap (fun w => match w with Assign k raw => if bool_decide (k = key) then Some raw else None | Confirm _ => None end) ws).
Definition confirmed (ws : list Word) : option string := last (omap (fun w => match w with Confirm cidr => Some cidr | Assign _ _ => None end) ws).
(** What a word says as a text, a truth value, a number and a list. *)
Definition says_text (raw v : string) : Prop := v = raw.
Definition says_bool (raw : string) (b : bool) : Prop :=
  if b then raw = "1" \/ raw = "t" \/ raw = "T" \/ raw = "true" \/ raw = "TRUE" \/ raw = "True"
  else raw = "0" \/ raw = "f" \/ raw = "F" \/ raw = "false" \/ raw = "FALSE" \/ raw = "False".
(** [n] in decimal: the digits of [ds], most significant first. *)
Definition decimal (l : list ascii) (n : Z) : Prop :=
  l <> [] /\ exists ds, Forall2 (fun c d => code c = 48 + d /\ 0 <= d <= 9) l ds /\ n = foldl (fun a d => 10 * a + d) 0 ds.
Definition says_int (raw : string) (n : Z) : Prop :=
  - 2 ^ 63 <= n < 2 ^ 63 /\
  (decimal (bytes raw) n \/ (exists l, bytes raw = "+"%char :: l /\ decimal l n) \/ exists l, bytes raw = "-"%char :: l /\ decimal l (- n)).
Definition says_list (raw : string) (l : list string) : Prop :=
  exists parts, raw = GoStr.Join parts "," /\ (forall p, p ∈ parts -> ","%char ∉ bytes p) /\ l = filter (fun p => p <> "") (TrimSpace <$> parts).
Definition becomes {B} (says : string -> B -> Prop) (typed : option string) (old new : B) : Prop :=
  match typed with Some raw => says raw new | None => new = old end.
(** Each of the settings is what was typed for it, or what it was. *)
Definition as_typed (ws : list Word) (v v' : Settings) : Prop :=
  let text k (get : Settings -> string) := becomes says_text (typed_for k ws) (get v) (get v') in
  let flag k (get : Settings -> bool) := becomes says_bool (typed_for k ws) (get v) (get v') in
  let num k (get : Settings -> Z) := becomes says_int (typed_for k ws) (get v) (get v') in
  let lst k (get : Settings -> list string) := becomes says_list (typed_for k ws) (get v) (get v') in
  (text "private_domain" PrivateDomain /\ lst "reverse_zones" ReverseZones /\ lst "upstreams" Upstreams /\ lst "allow_query" AllowQuery /\
   flag "allow_tailscale" AllowTailscale /\ num "ttl" TTL /\ num "cache_min_ttl" CacheMinTTL /\ num "cache_max_ttl" CacheMaxTTL /\
   num "negative_max_ttl" NegativeMaxTTL /\ num "cache_entries" CacheEntries /\ flag "log_queries" LogQueries /\ flag "log_client_ip" LogClientIP /\
   text "dhcp_lease_file" DHCPLeaseFile) /\
  (num "discovery_interval" DiscoveryInterval /\ num "health_interval" HealthInterval /\ num "health_timeout" HealthTimeout /\ num "health_workers" HealthWorkers /\
   flag "dhcp_enabled" DHCPEnabled /\ text "dhcp_interface" DHCPInterface /\ text "dhcp_range_start" DHCPRangeStart /\ text "dhcp_range_end" DHCPRangeEnd /\
   text "dhcp_gateway" DHCPGateway /\ num "dhcp_lease_seconds" DHCPLeaseSeconds /\ text "dhcp_secondary_dns" DHCPSecondaryDNS /\ flag "dhcp_allow_foreign" DHCPAllowForeign).

(** ** The command reads the words that way *)
Lemma digits_decimal l : forall acc n, dec_digits acc l = Some n ->
  exists ds, Forall2 (fun c d => code c = 48 + d /\ 0 <= d <= 9) l ds /\ n = foldl (fun a d => 10 * a + d) acc ds.
Proof.
  induction l as [|c l IH]; intros acc n; cbn [dec_digits]; [intros [= <-]; by exists []|]. destruct (is_digit c) eqn:D; [|done].
  intros (ds & H & ->)%IH. exists (digit_val c :: ds). split; [|cbn; do 2 f_equal; lia]. constructor; [|done].
  unfold is_digit, in_range in D. apply andb_prop in D as [D1 D2]. unfold digit_val. change (code "0") with 48 in D1. change (code "9") with 57 in D2. lia.
Qed.
Lemma Atoi_says raw n : Atoi raw = Some n -> says_int raw n.
Proof.
  intros H. split; [apply ParseInt_int64 in H; unfold is_int64 in H; lia|]. unfold Atoi, ParseInt in H.
  assert (go : forall (neg : bool) l, match l with [] => None | _ => match dec_digits 0 l with None => None | Some n0 =>
      let v := if neg then - n0 else n0 in if (- 2 ^ 63 <=? v) && (v <? 2 ^ 63) then Some v else None end end = Some n -> decimal l (if neg then - n else n)).
  { intros neg l. destruct l as [|c l]; [done|]. destruct (dec_digits 0 (c :: l)) as [n0|] eqn:D; [|done]. cbv zeta. destruct (_ && _); [|done]. intros [= <-].
    apply digits_decimal in D as (ds & D & ->). split; [done|]. exists ds. split; [exact D|]. destruct neg; lia. }
  destruct (bytes raw) as [|c l]; [done|].
  destruct c as [[][][][][][][][]]; match type of H with context [dec_digits 0 ?l'] => first
    [left; exact (go false l' H)|right; left; exists l'; split; [reflexivity|exact (go false l' H)]|right; right; exists l'; split; [reflexivity|exact (go true l' H)]] end.
Qed.
Lemma split_says raw : says_list raw (filter (fun p => p <> "") (TrimSpace <$> Split raw ",")).
Proof.
  exists (Split raw ","). split; [symmetry; exact (Join_Split raw ",")|]. split; [|done]. intros p (l & -> & Hl)%list_elem_of_fmap Hc.
  rewrite bytes_str in Hc. eapply split_by_pieces in Hc; [|exact Hl]. unfold is_byte in Hc. by rewrite bool_decide_true in Hc.
Qed.
Definition in_body (body0 body : gmap string JSON) (key : string) (typed : option string) : Prop :=
  match typed with Some raw => exists k j, setting_kind key = Some k /\ setting_value k raw = Some j /\ body !! key = Some j | None => body !! key = body0 !! key end.
Lemma body_words n args body body' : (length args <= n)%nat -> settings_body args body = Ok body' -> exists ws, words args ws /\
  (forall key, key <> "confirm_public" -> in_body body body' key (typed_for key ws)) /\
  body' !! "confirm_public" = match confirmed ws with Some cidr => Some (JString cidr) | None => body !! "confirm_public" end.
Proof.
  revert args body. induction n as [|n IH]; intros [|arg args] body Hn H; cbn in Hn; [|lia| |];
    [injection H as <-; exists []; split; [constructor|by split]..|]. cbn [settings_body] in H. case_bool_decide as C.
  - subst arg. destruct args as [|cidr args]; [done|]. apply (IH args) in H as (ws & W & H1 & H2); [|cbn in *; lia]. exists (Confirm cidr :: ws). split; [by constructor|]. split.
    + intros key N. specialize (H1 key N). change (typed_for key (Confirm cidr :: ws)) with (typed_for key ws). unfold in_body in *. destruct (typed_for key ws); [done|]. by rewrite lookup_insert_ne in H1.
    + rewrite H2. change (confirmed (Confirm cidr :: ws)) with (last (cidr :: omap (fun w => match w with Confirm x => Some x | Assign _ _ => None end) ws)).
      rewrite last_cons. fold (confirmed ws). destruct (confirmed ws); [done|]. by rewrite lookup_insert_eq.
  - destruct (cut_assignment arg) as [[k raw]|] eqn:A; [|done]. destruct (setting_kind k) as [kind|] eqn:K; [|done].
    destruct (setting_value kind raw) as [v|] eqn:V; [|by destruct kind]. apply (IH args) in H as (ws & W & H1 & H2); [|lia]. exists (Assign k raw :: ws).
    unfold cut_assignment in A. destruct (cut_byte "=" (bytes arg)) as [[a b]|] eqn:B; [|done]. injection A as <- <-. apply cut_byte_some in B as [B1 B2]. split; [|split].
    + assert (E : arg = str a +:+ "=" +:+ str b) by (apply bytes_inj; by rewrite !bytes_app, !bytes_str, B1). rewrite E. constructor; [by rewrite bytes_str|done].
    + intros key N. specialize (H1 key N). unfold typed_for, in_body in *. cbn [omap list_omap]. case_bool_decide as E; [|destruct (last _); [done|by rewrite lookup_insert_ne in H1]].
      rewrite last_cons. destruct (last (omap _ ws)) as [r|]; [done|]. exists kind, v. subst key. split; [done|]. split; [done|]. by rewrite H1, lookup_insert_eq.
    + rewrite H2. change (confirmed (Assign (str a) (str b) :: ws)) with (confirmed ws). destruct (confirmed ws); [done|]. rewrite lookup_insert_ne; [done|]. intros E. rewrite E in K. vm_compute in K. done.
Qed.
(** One setting: what the server decodes from the body is what the word says. *)
Definition read_as {B} (k : SettingKind) (dec : Decoder B) (says : string -> B -> Prop) : Prop :=
  forall raw j old new, setting_value k raw = Some j -> dec j old = Some new -> says raw new.
Lemma read_text : read_as KString dec_string says_text.
Proof. intros raw j old new [= <-] [= <-]. done. Qed.
Lemma read_list : read_as KList (dec_slice "" dec_string) says_list.
Proof. intros raw j old new [= <-]. rewrite dec_strings. intros [= <-]. apply split_says. Qed.
Lemma read_bool : read_as KBool dec_bool says_bool.
Proof.
  intros raw j old new H. cbn in H. unfold ParseBool in H. destruct (bool_decide_reflect (raw ∈ ["1"; "t"; "T"; "true"; "TRUE"; "True"])) as [E|_].
  - injection H as <-. intros [= <-]. cbn. rewrite !elem_of_cons, elem_of_nil in E. naive_solver.
  - destruct (bool_decide_reflect (raw ∈ ["0"; "f"; "F"; "false"; "FALSE"; "False"])) as [E|_]; [|done]. injection H as <-. intros [= <-]. cbn.
    rewrite !elem_of_cons, elem_of_nil in E. naive_solver.
Qed.
Lemma read_int : read_as KInt dec_int says_int.
Proof. intros raw j old new H. cbn in H. destruct (Atoi raw) as [n|] eqn:E; [|done]. injection H as <-. cbn. destruct (is_int64 n); [|done]. intros [= <-]. by apply Atoi_says. Qed.
Lemma becomes_typed {B} k (dec : Decoder B) says body d d' ws key get : read_as k dec says -> in_body ∅ body key (typed_for key ws) -> setting_kind key = Some k ->
  saved body d d' key dec get -> becomes says (typed_for key ws) (get d) (get d').
Proof.
  intros R I K. unfold saved, becomes, in_body in *. destruct (typed_for key ws) as [raw|].
  - destruct I as (k' & j & K' & V & ->). assert (k' = k) as -> by congruence. intros D. by eapply R.
  - rewrite lookup_empty in I. by rewrite I.
Qed.
Lemma saved_as_typed ws body d d' : (forall key, key <> "confirm_public" -> in_body ∅ body key (typed_for key ws)) -> settings_saved body d d' ->
  as_typed ws (st_row d) (st_row d').
Proof.
  intros I [H1 H2].
  assert (T : forall key (get : Settings -> string), key <> "confirm_public" -> setting_kind key = Some KString -> saved body d d' key dec_string (fun d => get (st_row d)) ->
    becomes says_text (typed_for key ws) (get (st_row d)) (get (st_row d'))) by (intros key get N K S; exact (becomes_typed _ _ _ _ _ _ _ _ _ read_text (I key N) K S)).
  assert (L : forall key (get : Settings -> list string), key <> "confirm_public" -> setting_kind key = Some KList -> saved body d d' key (dec_slice "" dec_string) (fun d => get (st_row d)) ->
    becomes says_list (typed_for key ws) (get (st_row d)) (get (st_row d'))) by (intros key get N K S; exact (becomes_typed _ _ _ _ _ _ _ _ _ read_list (I key N) K S)).
  assert (F : forall key (get : Settings -> bool), key <> "confirm_public" -> setting_kind key = Some KBool -> saved body d d' key dec_bool (fun d => get (st_row d)) ->
    becomes says_bool (typed_for key ws) (get (st_row d)) (get (st_row d'))) by (intros key get N K S; exact (becomes_typed _ _ _ _ _ _ _ _ _ read_bool (I key N) K S)).
  assert (Z : forall key (get : Settings -> Z), key <> "confirm_public" -> setting_kind key = Some KInt -> saved body d d' key dec_int (fun d => get (st_row d)) ->
    becomes says_int (typed_for key ws) (get (st_row d)) (get (st_row d'))) by (intros key get N K S; exact (becomes_typed _ _ _ _ _ _ _ _ _ read_int (I key N) K S)).
  unfold as_typed. cbv zeta in *. destruct H1 as (A1 & A2 & A3 & A4 & A5 & A6 & A7 & A8 & A9 & A10 & A11 & A12 & A13), H2 as (B1 & B2 & B3 & B4 & B5 & B6 & B7 & B8 & B9 & B10 & B11 & B12 & _).
  split; split_and!; (apply T || apply L || apply F || apply Z); try assumption; try (vm_compute; reflexivity); discriminate.
Qed.
Lemma saved_confirm ws body d d' : body !! "confirm_public" = match confirmed ws with Some cidr => Some (JString cidr) | None => None end -> settings_saved body d d' ->
  st_confirm_public d' = default (st_confirm_public d) (confirmed ws).
Proof. intros E [_ (_ & _ & _ & _ & _ & _ & _ & _ & _ & _ & _ & _ & H)]. unfold saved in H. rewrite E in H. destruct (confirmed ws); [by injection H|exact H]. Qed.

(** ** The commands against the modelled server *)
(** The operator's desk: the node that is served, the lines typed, what standard input
    holds, the files. *)
Record Desk := mkDesk { dk_world : ApiWorld; dk_lines : list string; dk_stdin : option string; dk_files : gmap string string }.
Section Served.
Context (backup_handler : string -> ApiRequest -> DB -> gmap string string * Response).
Context (url_Parse : string -> option ParsedURL) (LookupPort : string -> option Z).
Context (IsDomainName : string -> bool) (SplitDomainName : string -> list string).
Context (Fqdn : string -> string) (sha256 : list ascii -> list Z).
Context (toASCII : string -> option string) (list_url : string -> option PolicyService.URL) (manifest : Manifest).
Abbreviation ApiHandler := (ApiHandler backup_handler url_Parse LookupPort IsDomainName SplitDomainName Fqdn sha256 toASCII list_url manifest).
Abbreviation settings_Set := (settings_Set url_Parse LookupPort IsDomainName SplitDomainName Fqdn).
(** The text of bodies: of a JSON value, of an error, and of the bodies that the API
    model keeps structured; what an import body decodes to.  A redirect
    is not followed. *)
Context (render : JSON -> string) (message : string -> string -> string) (other_body : Response -> Z * string * option JSON) (document : string -> option transfer).
Context (api : API) (e : Env) (c : Client).

Definition unplus (b : ascii) : ascii := if bool_decide (b = "+"%char) then " "%char else b.
Definition query_of (q : option string) : list (string * string) :=
  match q with
  | None => []
  | Some q => omap (fun kv => let '(k, v) := cut_at "=" kv in k' ← unescape (unplus <$> k); v' ← unescape (unplus <$> default [] v); Some (str k', str v')) (split_by (is_byte "&") (bytes q))
  end.
Definition api_request (r : Request) : option ApiRequest :=
  '(segs, query) ← request_target (TrimPrefix (rq_URL r) (BaseURL c));
  Some (mkApiRequest (rq_Method r) segs (forallb (fun s => negb (bool_decide (s ∈ [""; "."; ".."]))) segs) (default "" (rq_Authorization r)) (query_of query)
    match rq_body r with
    | None => mkBody true None None
    | Some (PJson j) => mkBody true (Some j) None
    | Some (PRaw s) => mkBody true None (document s)
    end).
(** [writeErr]'s body: an empty field is left out. *)
Definition error_json (code fld msg : string) : JSON := JObject [("error", JObject ([("code", JString code); ("message", JString msg)] ++ opt_string "field" fld))].
Definition reply_of (resp : Response) : Reply :=
  match resp with
  | RErr status code fld => let j := error_json code fld (message code fld) in mkReply status (render j) (Some j)
  | RJson status j => mkReply status (render j) (Some j)
  | RNoContent => mkReply 204 "" None
  | RNotFound => mkReply 404 "404 page not found" None
  | RMethodNotAllowed => mkReply 405 "Method Not Allowed" None
  | r => let '(status, text, j) := other_body r in mkReply status text j
  end.
Definition desk_env (op : Op) (d : Desk) : Desk * Ans op :=
  match op with
  | Send r =>
      match api_request r with
      | None => (d, None)
      | Some r => let '(w, resp) := ApiHandler api e r (dk_world d) in (mkDesk w (dk_lines d) (dk_stdin d) (dk_files d), Some (reply_of resp))
      end
  | Ask _ => match dk_lines d with l :: ls => (mkDesk (dk_world d) ls (dk_stdin d) (dk_files d), Some l) | [] => (d, None) end
  | Stdin => (d, dk_stdin d)
  | ReadFile path => (d, dk_files d !! path)
  | WriteFile path data => (mkDesk (dk_world d) (dk_lines d) (dk_stdin d) (<[path := data]> (dk_files d)), true)
  | Print _ => (d, tt) | Complain _ => (d, tt)
  | Serve _ => (d, false) | ResetAdmin _ => (d, false) | DirEntries _ => (d, None) | ReadShares => (d, None) | RestoreCapsule _ _ _ _ => (d, false)
  end.

(** The request [settings set] sends, as the server reads it. *)
Definition patch_request (body : gmap string JSON) : ApiRequest :=
  mkApiRequest "PATCH" ["api"; "v1"; "settings"] true (default "" (bearer c)) [] (mkBody true (Some (jmap body)) None).
Lemma TrimPrefix_app p x : TrimPrefix (p +:+ x) p = x.
Proof. unfold TrimPrefix. rewrite HasPrefix_app. apply bytes_inj. rewrite bytes_str, bytes_app. unfold len. by rewrite drop_app_length. Qed.
Lemma settings_target : request_target "/api/v1/settings" = Some (["api"; "v1"; "settings"], None).
Proof. vm_compute. reflexivity. Qed.
Lemma settings_request body : api_request (call_request c "PATCH" "/api/v1/settings" (Some (jmap body))) = Some (patch_request body).
Proof. unfold api_request, call_request. cbn [rq_URL]. rewrite TrimPrefix_app, settings_target. reflexivity. Qed.
Lemma run_call {S A} (env : forall op, S -> S * Ans op) c' method path body (dec : option (Decoder A)) zero (k : A -> CLI Z) s :
  run env (or_fail (Do_ c' method path body dec zero) k) s =
    let r := call_request c' method path body in
    let '(s, x) := env (Send r) s in
    let '(s, t, a) := run env (match read_reply dec zero x with Ok v => k v | Err e => fail e end) s in (s, mkEvent (Send r) x :: t, a).
Proof. reflexivity. Qed.
Abbreviation auth_w body w := (authenticated sha256 e (patch_request body) w).
Lemma settings_route body w : ApiHandler api e (patch_request body) w = auth sha256 (patchSettings url_Parse LookupPort IsDomainName SplitDomainName Fqdn api) e (patch_request body) [] w.
Proof. reflexivity. Qed.
Lemma refusal_status err : match writeRegistryErr err with RErr s _ _ => 300 <= s | _ => False end.
Proof. destruct err as [| []|]; cbn; lia. Qed.
Lemma refusal_status_set err : match writeSettingsErr err with RErr s _ _ => 300 <= s | _ => False end.
Proof. destruct err as [[]| | | |]; try exact (refusal_status _); cbn; lia. Qed.
Lemma rejected resp {A} (dec : option (Decoder A)) zero v : match resp with RErr s _ _ => 300 <= s | _ => False end -> read_reply dec zero (Some (reply_of resp)) <> Ok v.
Proof. destruct resp; try done. intros L H. apply read_reply_ok in H as (rep & [= <-] & H). cbn in H. lia. Qed.
Lemma patch_accepted body w w' resp : patchSettings url_Parse LookupPort IsDomainName SplitDomainName Fqdn api e (patch_request body) [] w = (w', resp) ->
  match resp with RErr s _ _ => 300 <= s | _ => False end \/
  exists cur d2, Get (nd_sw (aw_node w)) = Ok cur /\ dec_struct settings_fields (jmap body) (toSettingsDTO cur) = Some d2 /\ settings_Set e (st_row d2) (st_confirm_public d2) w = (w', Ok tt).
Proof.
  unfold patchSettings. destruct (negb _); [intros [= <- <-]; left; cbn; lia|]. destruct (Get _) as [cur|x]; [|intros [= <- <-]; left; apply refusal_status].
  unfold decode, bodyBytes, unmarshal, patch_request. cbn [ar_body bo_readable bo_json rbind mbind option_bind answer].
  destruct (dec_struct settings_fields (jmap body) (toSettingsDTO cur)) as [d2|] eqn:D; cbn [answer]; [|intros [= <- <-]; left; cbn; lia].
  rewrite from_settings. destruct (settings_Set _ _ _ _) as [w1 [[]|x]] eqn:S; [|intros [= <- <-]; left; apply refusal_status_set].
  destruct (Get (nd_sw (aw_node w1))) as [out|x]; [|intros [= <- <-]; left; apply refusal_status]. intros [= <- <-]. right. by exists cur, d2.
Qed.

(** C22: a run of [kydns settings set] that exits with 0 has saved what was typed.  Its
    words are assignments [key=value] and confirmations, nothing else; the server was
    given its current settings with, for every key typed, the value the last word for
    it says (a text as it stands, a truth value, a decimal number of 64 bits, the
    trimmed parts between commas that are not empty), every other setting as it was,
    and as the confirmation of a public range the last one typed or none; and it took
    them. *)
Theorem typed_settings_are_saved args d d' t : run desk_env (settingsCmd c ("set" :: args)) d = (d', t, 0) ->
  exists ws w cur v, words args ws /\ auth_w ∅ (dk_world d) = (w, true) /\ Get (nd_sw (aw_node w)) = Ok cur /\
    as_typed ws cur v /\ settings_Set e v (default "" (confirmed ws)) w = (dk_world d', Ok tt).
Proof.
  change (settingsCmd c ("set" :: args)) with (settingsSet c args). unfold settingsSet. destruct args as [|arg args]; [done|].
  destruct (settings_body (arg :: args) ∅) as [body|x] eqn:B; [|done]. unfold fetch. rewrite run_call. cbv zeta. cbn [desk_env].
  rewrite settings_request, settings_route. unfold auth. destruct (authenticated _ _ _ _) as [w [|]] eqn:A; cycle 1.
  { intros H. by destruct (read_reply _ _ _) eqn:R; [apply rejected in R|]. }
  destruct (patchSettings _ _ _ _ _ _ _ _ _ _) as [w' resp] eqn:P. intros H. apply patch_accepted in P as [P|(cur & d2 & Hc & Hd & Hs)].
  { by destruct (read_reply _ _ _) eqn:R; [apply rejected in R|]. }
  destruct (body_words _ _ ∅ _ (Nat.le_refl _) B) as (ws & W & W1 & W2). rewrite lookup_empty in W2.
  assert (S : settings_saved body (toSettingsDTO cur) d2) by (apply settings_patch; [|exact Hd]; eapply (settings_body_typed _ _ ∅); [done| |exact B]; by intros ?? ?%lookup_empty_Some).
  exists ws, w, cur, (st_row d2). split; [exact W|]. split; [done|]. split; [done|]. split; [pose proof (saved_as_typed _ _ _ _ W1 S) as T; by rewrite to_settings in T|].
  pose proof (saved_confirm _ _ _ _ W2 S) as C. rewrite to_settings in C. cbn [st_confirm_public] in C. rewrite <- C, Hs. do 2 f_equal. destruct (read_reply _ _ _); cbn in H; by injection H as <-.
Qed.
End Served.

(** what [kydns settings set] accepts is well formed on the wire: the server's
    decoder takes the body it sends over any current settings, so a value typed with
    the wrong kind is refused before anything is sent. *)
Theorem settings_words_fit_the_wire args body : settings_body args ∅ = Ok body -> forall d, is_Some (dec_struct settings_fields (jmap body) d).
Proof.
  intros H d. apply put_typed. assert (Ht : typed body) by (eapply (settings_body_typed _ _ ∅); [done| |exact H]; by intros ?? ?%lookup_empty_Some).
  apply Forall_forall. intros [key j] Hin. apply map_keys_lookup in Hin. exact (Ht key j Hin).
Qed.

(** ** A run on the booted node of [AdminApiProps] *)
Definition ex_cli : Client := mkClient "http://127.0.0.1:8053" ex_token (seconds 10).
Definition ex_desk : Desk := mkDesk (ex_api_world RolePrimary) [] None ∅.
Abbreviation ex_desk_env := (desk_env ex_backup ex_url_parse ex_lookup ex_IsDomainName ex_names.2 ex_Fqdn ex_sha Some (fun _ => None) ex_builtins
  (fun _ => "{}") (fun _ _ => "refused") (fun _ => (200, "", None)) (fun _ => None) ex_api ex_env ex_cli).
Definition ex_words : list string := ["ttl=120"; "log_queries=true"; "ttl=300"].
Lemma ex_words_read ws : words ex_words ws -> ws = [Assign "ttl" "120"; Assign "log_queries" "true"; Assign "ttl" "300"].
Proof.
  assert (A : forall key raw k r : string, "="%char ∉ bytes key -> "="%char ∉ bytes k -> key +:+ "=" +:+ raw = k +:+ "=" +:+ r -> key = k /\ raw = r).
  { intros key raw k r H1 H2 E. apply (f_equal bytes) in E. rewrite !bytes_app in E. change (bytes "=") with ["="%char] in E. cbn [app] in E.
    assert (E1 : cut_byte "=" (bytes key ++ "="%char :: bytes raw) = Some (bytes key, bytes raw)) by by apply cut_byte_some.
    assert (E2 : cut_byte "=" (bytes k ++ "="%char :: bytes r) = Some (bytes k, bytes r)) by by apply cut_byte_some.
    rewrite E in E1. rewrite E1 in E2. injection E2 as F1 F2. split; by apply bytes_inj. }
  assert (N : "="%char ∉ bytes "ttl" /\ "="%char ∉ bytes "log_queries") by (split; by apply (bool_decide_unpack _)). destruct N as [N1 N2].
  unfold ex_words. inversion 1 as [| |k1 r1 a1 w1 D1 W1 E1]; subst. apply (A k1 r1 "ttl" "120" D1 N1) in E1 as [-> ->].
  inversion W1 as [| |k2 r2 a2 w2 D2 W2 E2]; subst. apply (A k2 r2 "log_queries" "true" D2 N2) in E2 as [-> ->].
  inversion W2 as [| |k3 r3 a3 w3 D3 W3 E3]; subst. apply (A k3 r3 "ttl" "300" D3 N1) in E3 as [-> ->]. by inversion W3.
Qed.
Lemma typed_settings_are_saved_witness : let d' := (run ex_desk_env (settingsCmd ex_cli ("set" :: ex_words)) ex_desk).1.1 in
  exists w cur v, Get (nd_sw (aw_node w)) = Ok cur /\ says_int "300" (TTL v) /\ CacheEntries v = CacheEntries cur /\
    TTL <$> ok_opt (Get (nd_sw (aw_node (dk_world d')))) = Some 300.
Proof.
  intros d'. destruct (run ex_desk_env (settingsCmd ex_cli ("set" :: ex_words)) ex_desk) as [[d1 t] code] eqn:E.
  assert (Ec : code = 0) by (pose proof (f_equal snd E) as X; cbn [snd] in X; rewrite <- X; vm_compute; reflexivity). subst code.
  destruct (typed_settings_are_saved ex_backup ex_url_parse ex_lookup ex_IsDomainName ex_names.2 ex_Fqdn ex_sha Some (fun _ => None) ex_builtins
    (fun _ => "{}") (fun _ _ => "refused") (fun _ => (200, "", None)) (fun _ => None) ex_api ex_env ex_cli ex_words ex_desk d1 t E) as (ws & w & cur & v & Hw & _ & Hg & Hs & _).
  exists w, cur, v. split; [exact Hg|]. apply ex_words_read in Hw. subst ws. destruct Hs as [(_ & _ & _ & _ & _ & H1 & _ & _ & _ & H2 & _) _].
  split; [exact H1|]. split; [exact H2|]. unfold d'. rewrite <- E. vm_compute. reflexivity.
Defined.
Lemma settings_words_fit_the_wire_witness : let args := ["upstreams=tls://9.9.9.9, 1.1.1.1"; "--confirm-public"; "0.0.0.0/0"; "ttl=60"] in
  exists body, settings_body args ∅ = Ok body /\ is_Some (dec_struct settings_fields (jmap body) (toSettingsDTO settings0)).
Proof. intros args. eexists. split; [vm_compute; reflexivity|]. apply (settings_words_fit_the_wire args). vm_compute. reflexivity. Defined.
