(* ===== verification/StoreOpen.v ===== *)
(** * Opening the database: the schema and its migrations ([internal/store/store.go])

    The schema and the migrations are data, as the statements of the two constants, and
    run on a catalogue of tables with their rows.  A transaction commits whole or not at
    all, so [Open] is a function of the catalogue.  Constraints on rows are the subject
    of [StoreWf]; here are names, defaults and what SQLite checks when a statement of
    the schema runs. *)
From S2P Require Import Prelude GoStr.

(** ** Statements *)
Inductive SqlType := INTEGER | TEXT.
Inductive Value := VNull | VInteger (z : Z) | VText (s : string).
#[export] Instance Value_eq_dec : EqDecision Value.
Proof. solve_decision. Defined.
(** [DNow] is the default [(unixepoch())]; a column with none is given when a row is. *)
Inductive Default := DNone | DValue (v : Value) | DNow.
Record Column := mkColumn { c_Name : string; c_Type : SqlType; c_NotNull : bool; c_Default : Default }.
Inductive Stmt :=
  | CreateTable (name : string) (cols : list Column)
  | CreateIndex (name table : string) (unique : bool) (cols : list string)
  | CreateTrigger (name table : string) (watched : list string)
  | InsertOrIgnore (table : string) (row : list (string * Value))
  | AddColumn (table : string) (col : Column).
Definition text (name : string) : Column := mkColumn name TEXT true DNone.
Definition text_default (name s : string) : Column := mkColumn name TEXT true (DValue (VText s)).
Definition int (name : string) : Column := mkColumn name INTEGER true DNone.
Definition int_default (name : string) (z : Z) : Column := mkColumn name INTEGER true (DValue (VInteger z)).
Definition nullable_text (name : string) : Column := mkColumn name TEXT false DNone.
Definition created_at : Column := mkColumn "created_at" INTEGER true DNow.
Definition id_column : Column := mkColumn "id" INTEGER true DNone.

(** ** [schema] *)
Definition schema_registry : list Stmt :=
  [CreateTable "views" [text "name"; created_at]; CreateTable "view_subnets" [text "view_name"; text "cidr"];
   CreateIndex "idx_view_subnets_cidr" "view_subnets" true ["cidr"];
   CreateTable "services" [id_column; text "name"; text_default "check_url" ""; int_default "check_insecure" 0; text_default "proxy_address" "";
     int_default "route_via_proxy" 0; text_default "mac" ""; created_at];
   CreateTable "service_addresses" [id_column; int "service_id"; text "address"; nullable_text "view_name"];
   CreateTable "aliases" [id_column; int "service_id"; text "name"];
   CreateTable "records" [id_column; text "name"; text "type"; text "value"; nullable_text "view_name"]].
Definition schema_local : list Stmt :=
  [CreateTable "tokens" [id_column; text "label"; text "hash"; created_at; int_default "last_used_at" 0];
   CreateTable "local_settings" [text "key"; text "value"];
   CreateTable "audit_events" [id_column; text "actor"; text "action"; text_default "resource" ""; text_default "details" ""; text_default "ip" ""; text "outcome"; created_at];
   CreateIndex "idx_audit_events_created_at" "audit_events" false ["created_at"];
   CreateTable "admin" [id_column; text "password_hash"; text_default "sso_sub" ""; text_default "sso_username" ""; text_default "sso_email" ""; int_default "sso_linked_at" 0;
     mkColumn "updated_at" INTEGER true DNow];
   CreateTable "sso_settings" [id_column; int_default "enabled" 0; text_default "issuer_url" ""; text_default "client_id" "kydns"; text_default "client_secret" ""];
   InsertOrIgnore "sso_settings" [("id", VInteger 1); ("enabled", VInteger 0); ("issuer_url", VText "https://auth.urlxl.com"); ("client_id", VText "kydns"); ("client_secret", VText "")]].
Definition schema_blacklist : list Stmt :=
  [CreateTable "blacklist_settings" [id_column; int_default "enabled" 1; int_default "block_ttl" 60];
   InsertOrIgnore "blacklist_settings" [("id", VInteger 1); ("enabled", VInteger 1); ("block_ttl", VInteger 60)];
   CreateTable "blacklist_lists" [id_column; text "name"; text "url"; text_default "format" "domains"; text_default "description" ""; int_default "enabled" 1;
     int_default "builtin" 0; int_default "interval_seconds" 86400; int_default "last_attempt_at" 0; int_default "last_ok_at" 0; text_default "last_error" "";
     text_default "etag" ""; text_default "last_modified" ""; int_default "entry_count" 0; int_default "skipped_count" 0; text_default "snapshot" ""];
   CreateTable "blacklist_rules" [id_column; text "kind"; text "domain"]].
Definition schema_settings : list Stmt :=
  [CreateTable "settings" [id_column; text "private_domain"; text "reverse_zones"; text "upstreams"; text "allow_query"; int "allow_tailscale"; int "ttl"; int "cache_min_ttl";
     int "cache_max_ttl"; int "negative_max_ttl"; int "cache_entries"; int "log_queries"; int "log_client_ip"; text "dhcp_lease_file"; int "discovery_interval";
     int "health_interval"; int "health_timeout"; int "health_workers"; int_default "dhcp_enabled" 0; text_default "dhcp_interface" ""; text_default "dhcp_range_start" "";
     text_default "dhcp_range_end" ""; text_default "dhcp_gateway" ""; int_default "dhcp_lease_seconds" 86400; text_default "dhcp_secondary_dns" ""; int_default "dhcp_allow_foreign" 0];
   CreateTable "dhcp_leases" [text "mac"; text "ip"; text "hostname"; int "expires_at"; int "last_seen"];
   CreateTable "config_version" [id_column; int_default "version" 0];
   InsertOrIgnore "config_version" [("id", VInteger 1); ("version", VInteger 0)]].
(** Every trigger adds one to the version; [watched] are the columns of its [WHEN],
    none when it has none. *)
Definition schema_triggers : list Stmt :=
  [CreateTrigger "cv_views_i" "views" []; CreateTrigger "cv_views_d" "views" []; CreateTrigger "cv_view_subnets_i" "view_subnets" []; CreateTrigger "cv_view_subnets_d" "view_subnets" [];
   CreateTrigger "cv_services_i" "services" []; CreateTrigger "cv_services_u" "services" []; CreateTrigger "cv_services_d" "services" [];
   CreateTrigger "cv_service_addresses_i" "service_addresses" []; CreateTrigger "cv_service_addresses_u" "service_addresses" []; CreateTrigger "cv_service_addresses_d" "service_addresses" [];
   CreateTrigger "cv_aliases_i" "aliases" []; CreateTrigger "cv_aliases_d" "aliases" []; CreateTrigger "cv_records_i" "records" []; CreateTrigger "cv_records_u" "records" [];
   CreateTrigger "cv_records_d" "records" []; CreateTrigger "cv_blacklist_settings_u" "blacklist_settings" []; CreateTrigger "cv_blacklist_rules_i" "blacklist_rules" [];
   CreateTrigger "cv_blacklist_rules_u" "blacklist_rules" []; CreateTrigger "cv_blacklist_rules_d" "blacklist_rules" []; CreateTrigger "cv_blacklist_lists_i" "blacklist_lists" [];
   CreateTrigger "cv_blacklist_lists_d" "blacklist_lists" [];
   CreateTrigger "cv_blacklist_lists_u" "blacklist_lists" ["name"; "url"; "format"; "description"; "enabled"; "builtin"; "interval_seconds"];
   CreateTrigger "cv_settings_i" "settings" [];
   CreateTrigger "cv_settings_u" "settings" ["private_domain"; "reverse_zones"; "upstreams"; "allow_query"; "allow_tailscale"; "ttl"; "cache_min_ttl"; "cache_max_ttl";
     "negative_max_ttl"; "cache_entries"; "health_interval"; "health_timeout"; "health_workers"]].
Definition schema_replication : list Stmt :=
  [CreateTable "peers" [text "node_id"; text_default "label" ""; text_default "address" ""; int_default "paired_at" 0; int_default "last_sync_at" 0; int_default "last_version" 0];
   CreateTable "replica_state" [id_column; text_default "primary_node_id" ""; int_default "last_version" 0];
   InsertOrIgnore "replica_state" [("id", VInteger 1)]; CreateTable "promotion" [id_column; int "promoted_at"]].
Definition schema : list Stmt := schema_registry ++ schema_local ++ schema_blacklist ++ schema_settings ++ schema_triggers ++ schema_replication.

(** ** [migrations], each cut into its statements *)
Definition migrations : list (list Stmt) :=
  [[AddColumn "services" (text_default "proxy_address" ""); AddColumn "services" (int_default "route_via_proxy" 0)];
   [CreateTable "settings" [id_column; text "private_domain"; text "reverse_zones"; text "upstreams"; text "allow_query"; int "allow_tailscale"; int "ttl"; int "cache_min_ttl";
     int "cache_max_ttl"; int "negative_max_ttl"; int "cache_entries"; int "log_queries"; int "log_client_ip"; text "dhcp_lease_file"; int "discovery_interval";
     int "health_interval"; int "health_timeout"; int "health_workers"]];
   [AddColumn "admin" (text_default "sso_sub" ""); AddColumn "admin" (text_default "sso_username" ""); AddColumn "admin" (text_default "sso_email" "");
    AddColumn "admin" (int_default "sso_linked_at" 0);
    CreateTable "sso_settings" [id_column; int_default "enabled" 0; text_default "issuer_url" ""; text_default "client_id" "kydns"; text_default "client_secret" ""];
    InsertOrIgnore "sso_settings" [("id", VInteger 1); ("enabled", VInteger 0); ("issuer_url", VText "https://auth.urlxl.com"); ("client_id", VText "kydns"); ("client_secret", VText "")]];
   [AddColumn "settings" (int_default "dhcp_enabled" 0); AddColumn "settings" (text_default "dhcp_interface" ""); AddColumn "settings" (text_default "dhcp_range_start" "");
    AddColumn "settings" (text_default "dhcp_range_end" ""); AddColumn "settings" (text_default "dhcp_gateway" ""); AddColumn "settings" (int_default "dhcp_lease_seconds" 86400);
    AddColumn "settings" (text_default "dhcp_secondary_dns" ""); CreateTable "dhcp_leases" [text "mac"; text "ip"; text "hostname"; int "expires_at"; int "last_seen"]];
   [AddColumn "settings" (int_default "dhcp_allow_foreign" 0)];
   [AddColumn "services" (text_default "mac" "")]].

(** ** Running a statement *)
Abbreviation Row := (gmap string Value).
Record Table := mkTable { t_Columns : list Column; t_Rows : list Row }.
Definition names (t : Table) : list string := c_Name <$> t_Columns t.
(** An index or a trigger is the statement that created it. *)
Record Catalog := mkCatalog { ct_tables : gmap string Table; ct_objects : gmap string Stmt; ct_user_version : Z }.
Inductive sql_error := DuplicateColumn | NoSuchTable | NoSuchColumn | NullDefault | NotUnique.
Definition with_table (name : string) (t : Table) (db : Catalog) : Catalog := mkCatalog (<[name := t]> (ct_tables db)) (ct_objects db) (ct_user_version db).
Definition with_object (name : string) (s : Stmt) (db : Catalog) : Catalog := mkCatalog (ct_tables db) (<[name := s]> (ct_objects db)) (ct_user_version db).
Definition set_user_version (v : Z) (db : Catalog) : Catalog := mkCatalog (ct_tables db) (ct_objects db) v.
Definition default_value (c : Column) : Value := match c_Default c with DValue v => v | _ => VNull end.
Definition key_of (cols : list string) (r : Row) : list (option Value) := (fun c => r !! c) <$> cols.
Definition exec (s : Stmt) (db : Catalog) : result sql_error Catalog :=
  match s with
  | CreateTable name cols => match ct_tables db !! name with Some _ => Ok db | None => Ok (with_table name (mkTable cols []) db) end
  | CreateIndex name table unique cols =>
      if bool_decide (is_Some (ct_objects db !! name)) then Ok db
      else match ct_tables db !! table with
      | None => Err NoSuchTable
      | Some t =>
          if negb (bool_decide (cols ⊆ names t)) then Err NoSuchColumn
          else if unique && negb (bool_decide (NoDup (key_of cols <$> t_Rows t))) then Err NotUnique else Ok (with_object name s db)
      end
  | CreateTrigger name table _ =>
      if bool_decide (is_Some (ct_objects db !! name)) then Ok db
      else match ct_tables db !! table with None => Err NoSuchTable | Some _ => Ok (with_object name s db) end
  | InsertOrIgnore table row =>
      match ct_tables db !! table with
      | None => Err NoSuchTable
      | Some t =>
          if negb (bool_decide (row.*1 ⊆ names t)) then Err NoSuchColumn
          else
            let r : Row := list_to_map row in
            if existsb (fun r' => bool_decide (r' !! "id" = r !! "id")) (t_Rows t) then Ok db
            else Ok (with_table table (mkTable (t_Columns t) (t_Rows t ++ [r ∪ list_to_map ((fun c => (c_Name c, default_value c)) <$> t_Columns t)])) db)
      end
  | AddColumn table c =>
      match ct_tables db !! table with
      | None => Err NoSuchTable
      | Some t =>
          if bool_decide (c_Name c ∈ names t) then Err DuplicateColumn
          else if c_NotNull c && bool_decide (default_value c = VNull) then Err NullDefault
          else Ok (with_table table (mkTable (t_Columns t ++ [c]) ((fun r => <[c_Name c := default_value c]> r) <$> t_Rows t)) db)
      end
  end.
Fixpoint exec_all (l : list Stmt) (db : Catalog) : result sql_error Catalog :=
  match l with [] => Ok db | s :: l => db <-? exec s db ;; exec_all l db end.
(** A migration's statement may find its column there already. *)
Definition exec_tolerant (s : Stmt) (db : Catalog) : result sql_error Catalog :=
  match exec s db with Err DuplicateColumn => Ok db | r => r end.
Fixpoint exec_migration (l : list Stmt) (db : Catalog) : result sql_error Catalog :=
  match l with [] => Ok db | s :: l => db <-? exec_tolerant s db ;; exec_migration l db end.
Definition latest : Z := Z.of_nat (length migrations).
Definition migrate (freshDB : bool) (db : Catalog) : result sql_error Catalog :=
  let version := if freshDB then latest else ct_user_version db in
  if latest <=? version then (if negb freshDB then Ok db else Ok (set_user_version latest db))
  else
    db <-? exec_migration (concat (drop (Z.to_nat version) migrations)) db ;;
    Ok (set_user_version latest db).
(** [Open]: what the transaction commits, or the database as it was. *)
Definition Open (db : Catalog) : Catalog * option sql_error :=
  let fresh := bool_decide (ct_tables db !! "services" = None) in
  match (db1 <-? exec_all schema db ;; migrate fresh db1) with Ok db' => (db', None) | Err e => (db, Some e) end.
Definition empty_catalog : Catalog := mkCatalog ∅ ∅ 0.


(** ** What a run keeps *)
(** Tables, columns, rows and objects stay; a table may gain columns, where the rows it
    had hold the column's default, and rows at its end. *)
Definition table_grows (t t' : Table) : Prop :=
  exists new old more, t_Columns t' = t_Columns t ++ new /\ t_Rows t' = old ++ more /\
    Forall2 (fun r r' : Row => r ⊆ r' /\ forall c, c ∈ new -> r' !! c_Name c = Some (default_value c)) (t_Rows t) old.
Lemma table_grows_names t t' : table_grows t t' -> names t ⊆ names t'.
Proof. intros (new & _ & _ & E & _). unfold names. rewrite E, fmap_app. set_solver. Qed.
Lemma table_grows_rows t t' : table_grows t t' -> exists old more, t_Rows t' = old ++ more /\ Forall2 (fun r r' : Row => r ⊆ r') (t_Rows t) old.
Proof. intros (new & old & more & _ & E & F). exists old, more. split; [done|]. eapply Forall2_impl; [exact F|]. by intros r r' [H _]. Qed.
Definition grows (db db' : Catalog) : Prop :=
  (forall name t, ct_tables db !! name = Some t -> exists t', ct_tables db' !! name = Some t' /\ table_grows t t') /\ ct_objects db ⊆ ct_objects db'.
Lemma table_grows_refl t : table_grows t t.
Proof.
  exists [], (t_Rows t), []. rewrite !app_nil_r. split; [done|]. split; [done|]. apply Forall_Forall2_diag, Forall_forall. intros r _. split; [done|]. by intros c ?%not_elem_of_nil.
Qed.
Lemma Forall2_then {A B C} (P : A -> B -> Prop) (Q : B -> C -> Prop) (R : A -> C -> Prop) l1 l2 l3 :
  (forall x y z, P x y -> Q y z -> R x z) -> Forall2 P l1 l2 -> Forall2 Q l2 l3 -> Forall2 R l1 l3.
Proof. intros H F. revert l3. induction F as [|x y l1 l2 Hp F IH]; intros l3 G; inversion G; subst; constructor; eauto. Qed.
Lemma table_grows_trans t1 t2 t3 : table_grows t1 t2 -> table_grows t2 t3 -> table_grows t1 t3.
Proof.
  intros (n1 & o1 & m1 & C1 & E1 & F1) (n2 & o2 & m2 & C2 & E2 & F2). rewrite E1 in F2. apply Forall2_app_inv_l in F2 as (k1 & k2 & F3 & F4 & ->).
  exists (n1 ++ n2), k1, (k2 ++ m2). split; [by rewrite C2, C1, app_assoc|]. split; [by rewrite E2, app_assoc|].
  eapply Forall2_then; [|exact F1|exact F3]. intros r r1 r2 [S1 D1] [S2 D2]. split; [by etrans|]. intros c [H|H]%elem_of_app; [exact (lookup_weaken _ _ _ _ (D1 c H) S2)|by apply D2].
Qed.
Lemma grows_refl db : grows db db.
Proof. split; [|done]. intros name t H. exists t. split; [done|apply table_grows_refl]. Qed.
Lemma grows_trans db1 db2 db3 : grows db1 db2 -> grows db2 db3 -> grows db1 db3.
Proof.
  intros [T1 O1] [T2 O2]. split; [|by etrans]. intros name t H. destruct (T1 _ _ H) as (t2 & H2 & G2). destruct (T2 _ _ H2) as (t3 & H3 & G3).
  exists t3. split; [done|]. by eapply table_grows_trans.
Qed.
Lemma grows_with_table db name t' : (forall t, ct_tables db !! name = Some t -> table_grows t t') -> grows db (with_table name t' db).
Proof.
  intros H. split; [|done]. intros name' t Ht. cbn. destruct (decide (name' = name)) as [->|N].
  - exists t'. rewrite lookup_insert_eq. auto.
  - exists t. rewrite lookup_insert_ne by done. split; [done|apply table_grows_refl].
Qed.
(** Every row has a value for each column of its table and nothing else. *)
Definition shaped (db : Catalog) : Prop := forall name t r, ct_tables db !! name = Some t -> r ∈ t_Rows t -> dom r = list_to_set (C := gset string) (names t).
Definition has_table (db : Catalog) (name : string) : Prop := is_Some (ct_tables db !! name).
Lemma grows_has db db' name : grows db db' -> has_table db name -> has_table db' name.
Proof. intros [T _] [t H]. destruct (T _ _ H) as (t' & H' & _). by exists t'. Qed.

Lemma exec_grows s db db' : shaped db -> exec s db = Ok db' -> grows db db'.
Proof.
  intros Hs H. destruct s as [name cols|name table u cols|name table w|table row|table c]; cbn in H.
  - destruct (ct_tables db !! name) as [t|] eqn:E; injection H as <-; [apply grows_refl|]. apply grows_with_table. by rewrite E.
  - case_bool_decide; [injection H as <-; apply grows_refl|]. destruct (ct_tables db !! table); [|done]. case_if; [done|]. case_if; [done|]. injection H as <-.
    split; [|apply insert_subseteq; by apply eq_None_not_Some]. intros n t' Ht. exists t'. split; [done|apply table_grows_refl].
  - case_bool_decide; [injection H as <-; apply grows_refl|]. destruct (ct_tables db !! table); [|done]. injection H as <-.
    split; [|apply insert_subseteq; by apply eq_None_not_Some]. intros n t' Ht. exists t'. split; [done|apply table_grows_refl].
  - destruct (ct_tables db !! table) as [t|] eqn:E; [|done]. case_if; [done|]. case_if; injection H as <-; [apply grows_refl|]. apply grows_with_table.
    rewrite E. intros ? [= <-]. eexists [], (t_Rows t), _. rewrite app_nil_r. split; [done|]. split; [done|]. apply Forall_Forall2_diag, Forall_forall. intros r _. split; [done|]. by intros c ?%not_elem_of_nil.
  - destruct (ct_tables db !! table) as [t|] eqn:E; [|done]. case_bool_decide as C; [done|]. case_if; [done|]. injection H as <-. apply grows_with_table. rewrite E. intros ? [= <-].
    eexists [c], _, []. split; [done|]. split; [by rewrite app_nil_r|]. apply Forall2_fmap_r, Forall_Forall2_diag, Forall_forall. intros r Hr. split.
    + apply insert_subseteq, (not_elem_of_dom (D:=gset string)). rewrite (Hs _ _ _ E Hr). by rewrite elem_of_list_to_set.
    + intros c' ->%list_elem_of_singleton. apply lookup_insert_eq.
Qed.

Lemma exec_shaped s db db' : (forall table row, s = InsertOrIgnore table row -> NoDup row.*1) -> shaped db -> exec s db = Ok db' -> shaped db'.
Proof.
  intros Hins Hs H.
  assert (Hput : forall name t', (forall r, r ∈ t_Rows t' -> dom r = list_to_set (C := gset string) (names t')) -> shaped (with_table name t' db)).
  { intros name t' Ht n t r Hn Hr. cbn in Hn. destruct (decide (n = name)) as [->|N]; [rewrite lookup_insert_eq in Hn; injection Hn as <-; by apply Ht|].
    rewrite lookup_insert_ne in Hn by done. by eapply Hs. }
  destruct s as [name cols|name table u cols|name table w|table row|table c]; cbn in H.
  - destruct (ct_tables db !! name) as [t|] eqn:E; injection H as <-; [done|]. apply Hput. by intros r Hr%not_elem_of_nil.
  - case_bool_decide; [by injection H as <-|]. destruct (ct_tables db !! table); [|done]. case_if; [done|]. case_if; [done|]. by injection H as <-.
  - case_bool_decide; [by injection H as <-|]. destruct (ct_tables db !! table); [|done]. by injection H as <-.
  - destruct (ct_tables db !! table) as [t|] eqn:E; [|done]. destruct (bool_decide_reflect (row.*1 ⊆ names t)) as [C|C]; cbn [negb] in H; [|done].
    case_if; injection H as <-; [done|]. apply Hput. cbn. intros r [Hr|Hr]%elem_of_app; [by eapply Hs|]. apply list_elem_of_singleton in Hr as ->.
    rewrite dom_union_L, !dom_list_to_map_L, <- list_fmap_compose. unfold names in *. cbn.
    apply set_eq. intros x. rewrite elem_of_union, !elem_of_list_to_set. split; [intros [Hx|Hx]; [by apply C|exact Hx]|by right].
  - destruct (ct_tables db !! table) as [t|] eqn:E; [|done]. case_bool_decide as C; [done|]. case_if; [done|]. injection H as <-. apply Hput. cbn.
    intros r (r0 & -> & Hr)%list_elem_of_fmap. rewrite dom_insert_L, (Hs _ _ _ E Hr). unfold names. cbn. rewrite fmap_app, list_to_set_app_L. cbn. set_solver.
Qed.

(** ** Statements that have nothing left to do *)
Definition target (s : Stmt) : string := match s with CreateTable n _ => n | CreateIndex _ t _ _ | CreateTrigger _ t _ | InsertOrIgnore t _ | AddColumn t _ => t end.
Definition settled (s : Stmt) (db : Catalog) : Prop :=
  match s with
  | CreateTable n _ => has_table db n
  | CreateIndex n _ _ _ | CreateTrigger n _ _ => is_Some (ct_objects db !! n)
  | InsertOrIgnore table row => exists t r v, ct_tables db !! table = Some t /\ row.*1 ⊆ names t /\ r ∈ t_Rows t /\ r !! "id" = Some v /\ (list_to_map row : Row) !! "id" = Some v
  | AddColumn table c => exists t, ct_tables db !! table = Some t /\ c_Name c ∈ names t
  end.
Lemma settled_grows s db db' : grows db db' -> settled s db -> settled s db'.
Proof.
  intros G. pose proof G as [T O]. destruct s as [n cols|n table u cols|n table w|table row|table c]; cbn.
  - by apply grows_has.
  - intros [b Hb]. exists b. exact (lookup_weaken _ _ _ _ Hb O).
  - intros [b Hb]. exists b. exact (lookup_weaken _ _ _ _ Hb O).
  - intros (t & r & v & Ht & Hc & Hr & Hv & Hid). destruct (T _ _ Ht) as (t' & Ht' & G'). pose proof (table_grows_names _ _ G') as Hn. destruct (table_grows_rows _ _ G') as (old & more & E & F).
    apply list_elem_of_lookup in Hr as [i Hi]. destruct (Forall2_lookup_l _ _ _ _ _ F Hi) as (r' & Hi' & Hsub).
    exists t', r', v. split; [done|]. split; [by etrans|]. split; [rewrite E; apply elem_of_app; left; apply list_elem_of_lookup; by exists i|]. split; [exact (lookup_weaken _ _ _ _ Hv Hsub)|done].
  - intros (t & Ht & Hc). destruct (T _ _ Ht) as (t' & Ht' & Hn%table_grows_names). exists t'. split; [done|by apply Hn].
Qed.
Lemma settled_exec s db : settled s db -> exec_tolerant s db = Ok db /\ ((forall t c, s <> AddColumn t c) -> exec s db = Ok db).
Proof.
  assert (K : forall r, r = Ok db -> (match r with Err DuplicateColumn => Ok db | r => r end = Ok db) /\ r = Ok db) by (by intros ? ->).
  unfold exec_tolerant. destruct s as [n cols|n table u cols|n table w|table row|table c]; cbn.
  - intros [t Ht]. rewrite Ht. auto.
  - intros H. rewrite bool_decide_true by done. auto.
  - intros H. rewrite bool_decide_true by done. auto.
  - intros (t & r & v & Ht & Hc & Hr & Hv & Hid). rewrite Ht, bool_decide_true by done. cbn. rewrite (proj2 (existsb_exists _ _)); [auto|].
    exists r. split; [by apply list_elem_of_In|]. apply bool_decide_eq_true. by rewrite Hv, Hid.
  - intros (t & Ht & Hc). rewrite Ht, bool_decide_true by done. split; [done|]. intros H. by destruct (H table c).
Qed.

(** ** What an older database may lack *)
Definition schema_tables : list (string * list string) := omap (fun s => match s with CreateTable n cols => Some (n, c_Name <$> cols) | _ => None end) schema.
Definition added (l : list Stmt) : list (string * string) := omap (fun s => match s with AddColumn t c => Some (t, c_Name c) | _ => None end) l.
Definition pending (v : nat) : list Stmt := concat (drop v migrations).
(** Every table of the schema that is there has its columns, but for those that
    migrations still to come add. *)
Definition lacks_only (l : list (string * string)) (db : Catalog) : Prop :=
  forall table cols t c, (table, cols) ∈ schema_tables -> ct_tables db !! table = Some t -> c ∈ cols -> c ∈ names t \/ (table, c) ∈ l.
Definition cidrs_distinct (db : Catalog) : Prop :=
  is_Some (ct_objects db !! "idx_view_subnets_cidr") \/ forall t, ct_tables db !! "view_subnets" = Some t -> NoDup (key_of ["cidr"] <$> t_Rows t).
Definition older (v : nat) (db : Catalog) : Prop := shaped db /\ lacks_only (added (pending v)) db /\ cidrs_distinct db.

(** The schema names only columns its tables have from the start. *)
Definition all_added : list (string * string) := added (pending 0).
Definition uses_base (table : string) (cols : list string) : Prop := Exists (fun tc : string * list string => tc.1 = table /\ Forall (fun c => c ∈ tc.2 /\ (table, c) ∉ all_added) cols) schema_tables.
Definition stmt_fits (s : Stmt) : Prop :=
  match s with
  | CreateTable n cols => (n, c_Name <$> cols) ∈ schema_tables
  | CreateIndex n table u cols => uses_base table cols /\ (u = true -> n = "idx_view_subnets_cidr" /\ table = "view_subnets" /\ cols = ["cidr"])
  | CreateTrigger n table w => True
  | InsertOrIgnore table row => uses_base table row.*1 /\ (list_to_map row : Row) !! "id" = Some (VInteger 1) /\ NoDup row.*1 /\ table <> "view_subnets"
  | AddColumn _ _ => False
  end.
#[export] Instance stmt_fits_dec s : Decision (stmt_fits s).
Proof. destruct s; unfold stmt_fits, uses_base; apply _. Defined.
Lemma schema_fits s : s ∈ schema -> stmt_fits s.
Proof. assert (H : Forall stmt_fits schema) by (apply (bool_decide_unpack _); vm_compute; exact I). rewrite Forall_forall in H. apply H. Qed.
Lemma pending_all v : added (pending v) ⊆ all_added.
Proof.
  unfold all_added, added, pending. intros x Hx. apply list_elem_of_omap in Hx as (s & Hs & E). apply list_elem_of_omap. exists s. split; [|done].
  assert (Hc : concat (drop 0 migrations) = concat (take v migrations) ++ concat (drop v migrations)) by (by rewrite <- concat_app, take_drop).
  rewrite Hc. apply elem_of_app. by right.
Qed.
Lemma base_columns v db table cols t : lacks_only (added (pending v)) db -> uses_base table cols -> ct_tables db !! table = Some t -> cols ⊆ names t.
Proof.
  intros Hl (tc & Hin & [<- Hf])%Exists_exists Ht c Hc. rewrite Forall_forall in Hf. destruct (Hf c Hc) as [Hc1 Hc2]. destruct tc as [n cs]. cbn in *.
  destruct (Hl _ _ _ _ Hin Ht Hc1) as [H|H]; [done|]. by apply pending_all in H.
Qed.

(** ** The schema runs *)
Lemma schema_tables_unique n cols cs : (n, cols) ∈ schema_tables -> (n, cs) ∈ schema_tables -> cols = cs.
Proof.
  assert (Hn : NoDup schema_tables.*1) by (apply (bool_decide_unpack _); vm_compute; exact I). intros H1 H2.
  apply list_elem_of_lookup in H1 as [i H1]. apply list_elem_of_lookup in H2 as [j H2].
  assert (i = j) as -> by (eapply (NoDup_lookup _ _ _ n Hn); by rewrite list_lookup_fmap, ?H1, ?H2). congruence.
Qed.
Lemma exec_older v s db db' : s ∈ schema -> older v db -> exec s db = Ok db' -> older v db'.
Proof.
  intros Hin (Hs & Hl & Hc) H. pose proof (schema_fits s Hin) as Hf. pose proof (exec_grows s db db' Hs H) as [_ GO]. split; [|split].
  - eapply exec_shaped; [|exact Hs|exact H]. intros table row ->. by destruct Hf as (_ & _ & ? & _).
  - destruct s as [n cols|n table u cols|n table w|table row|table c]; cbn in H, Hf.
    + destruct (ct_tables db !! n) as [t|] eqn:E; injection H as <-; [done|]. intros table cs t c Hin' Ht Hc'. cbn in Ht.
      destruct (decide (table = n)) as [->|N]; [|rewrite lookup_insert_ne in Ht by done; by eapply Hl].
      rewrite lookup_insert_eq in Ht. injection Ht as <-. left. unfold names. cbn [t_Columns]. by rewrite (schema_tables_unique _ _ _ Hf Hin').
    + case_bool_decide; [by injection H as <-|]. destruct (ct_tables db !! table); [|done]. case_if; [done|]. case_if; [done|]. by injection H as <-.
    + case_bool_decide; [by injection H as <-|]. destruct (ct_tables db !! table); [|done]. by injection H as <-.
    + destruct (ct_tables db !! table) as [t|] eqn:E; [|done]. case_if; [done|]. case_if; injection H as <-; [done|]. intros n cs t' c Hin' Ht Hc'. cbn in Ht.
      destruct (decide (n = table)) as [->|N]; [rewrite lookup_insert_eq in Ht; injection Ht as <-; exact (Hl _ _ t _ Hin' E Hc')|rewrite lookup_insert_ne in Ht by done; by eapply Hl].
    + done.
  - destruct Hc as [[b Hc]|Hc]; [left; exists b; exact (lookup_weaken _ _ _ _ Hc GO)|]. destruct s as [n cols|n table u cols|n table w|table row|table c]; cbn in H, Hf.
    + destruct (ct_tables db !! n) as [t|] eqn:E; injection H as <-; [by right|]. right. cbn. intros t Ht.
      destruct (decide ("view_subnets" = n)) as [<-|N]; [rewrite lookup_insert_eq in Ht; injection Ht as <-; constructor|rewrite lookup_insert_ne in Ht by done; by apply Hc].
    + right. case_bool_decide; [by injection H as <-|]. destruct (ct_tables db !! table); [|done]. case_if; [done|]. case_if; [done|]. by injection H as <-.
    + right. case_bool_decide; [by injection H as <-|]. destruct (ct_tables db !! table); [|done]. by injection H as <-.
    + right. destruct Hf as (_ & _ & _ & Hf). destruct (ct_tables db !! table) as [t|] eqn:E; [|done]. case_if; [done|]. case_if; injection H as <-; [done|]. cbn. intros t' Ht.
      rewrite lookup_insert_ne in Ht by done. by apply Hc.
    + done.
Qed.
Lemma exec_schema v s db : s ∈ schema -> older v db -> (match s with CreateTable _ _ => True | _ => has_table db (target s) end) -> exists db', exec s db = Ok db' /\ settled s db'.
Proof.
  intros Hin (Hs & Hl & Hc) Ht. pose proof (schema_fits s Hin) as Hf. destruct s as [n cols|n table u cols|n table w|table row|table c]; cbn in Hf, Ht |- *.
  - unfold has_table. destruct (ct_tables db !! n) as [t|] eqn:E; (eexists; split; [reflexivity|]); [by exists t|]. cbn. rewrite lookup_insert_eq. by eexists.
  - case_bool_decide; [by eexists|]. destruct Ht as [t Ht]. rewrite Ht. destruct Hf as [Hb Hu]. rewrite bool_decide_true by (by eapply base_columns). cbn [negb].
    destruct u; cbn [andb].
    + destruct (Hu eq_refl) as (-> & -> & ->). destruct Hc as [Hc|Hc]; [done|]. rewrite bool_decide_true by (by apply Hc). eexists. split; [reflexivity|]. cbn. rewrite lookup_insert_eq. by eexists.
    + eexists. split; [reflexivity|]. cbn. rewrite lookup_insert_eq. by eexists.
  - case_bool_decide; [by eexists|]. destruct Ht as [t Ht]. rewrite Ht. eexists. split; [reflexivity|]. cbn. rewrite lookup_insert_eq. by eexists.
  - destruct Ht as [t Ht]. rewrite Ht. destruct Hf as (Hb & Hid & Hnd & _). assert (Hsub : row.*1 ⊆ names t) by (by eapply base_columns). rewrite bool_decide_true by done. cbn [negb].
    destruct (existsb _ (t_Rows t)) eqn:X; (eexists; split; [reflexivity|]).
    + apply existsb_exists in X as (r & Hr & X). apply bool_decide_eq_true in X. exists t, r, (VInteger 1). rewrite X, Hid. repeat split; try done. by apply list_elem_of_In.
    + eexists _, _, (VInteger 1). cbn. rewrite lookup_insert_eq. split; [reflexivity|]. split; [done|]. split; [apply elem_of_app; right; by left|]. split; [|done].
      by apply lookup_union_Some_l.
  - done.
Qed.
(** Each statement comes after the one that makes its table. *)
Fixpoint ordered (seen : list string) (l : list Stmt) : bool :=
  match l with [] => true | s :: l => (match s with CreateTable _ _ => true | _ => bool_decide (target s ∈ seen) end) && ordered (target s :: seen) l end.
Lemma schema_run v l seen db : l ⊆ schema -> ordered seen l = true -> (forall n, n ∈ seen -> has_table db n) -> older v db ->
  exists db', exec_all l db = Ok db' /\ grows db db' /\ older v db' /\ forall s, s ∈ l -> settled s db'.
Proof.
  revert seen db. induction l as [|s l IH]; intros seen db Hin Ho Hseen Hold.
  { exists db. split; [done|]. split; [apply grows_refl|]. split; [done|]. by intros s ?%not_elem_of_nil. }
  cbn in Ho. apply andb_true_iff in Ho as [Ho1 Ho2]. assert (Hs : s ∈ schema) by (apply Hin; left).
  destruct (exec_schema v s db Hs Hold) as (db1 & E & D); [destruct s; try done; apply Hseen; by apply bool_decide_eq_true in Ho1|].
  assert (G : grows db db1) by (eapply exec_grows; [apply Hold|exact E]).
  destruct (IH (target s :: seen) db1) as (db' & E' & G' & Hold' & D'); [intros x Hx; apply Hin; by right|done| |by eapply exec_older|].
  { intros n [->|Hn]%elem_of_cons; [|by eapply grows_has, Hseen]. destruct s; cbn in *; try exact D.
    - eapply grows_has; [exact G|]. apply Hseen. by apply bool_decide_eq_true in Ho1.
    - eapply grows_has; [exact G|]. apply Hseen. by apply bool_decide_eq_true in Ho1.
    - destruct D as (t & _ & _ & D & _). by exists t.
    - destruct D as (t & D & _). by exists t. }
  exists db'. cbn. rewrite E. cbn. split; [done|]. split; [by eapply grows_trans|]. split; [done|]. intros s' [->|H]%elem_of_cons; [by eapply settled_grows|by apply D'].
Qed.

(** ** The migrations run *)
Definition complete (db : Catalog) : Prop := forall s, s ∈ schema -> settled s db.
Definition migration_fits (s : Stmt) : Prop :=
  match s with
  | CreateTable n _ => n ∈ schema_tables.*1
  | InsertOrIgnore table row => Exists (fun s => match s with InsertOrIgnore t r => t = table /\ r = row | _ => False end) schema
  | AddColumn table c => table ∈ schema_tables.*1 /\ (c_NotNull c = true -> default_value c <> VNull)
  | _ => False
  end.
#[export] Instance migration_fits_dec s : Decision (migration_fits s).
Proof.
  destruct s as [n cols| | |table row|table c]; unfold migration_fits; try apply _. apply Exists_dec. intros s. destruct s; try (by right; intros []); apply _.
Defined.
Lemma migrations_fit v s : s ∈ pending v -> migration_fits s.
Proof.
  assert (H : Forall migration_fits (pending 0)) by (apply (bool_decide_unpack _); vm_compute; exact I). rewrite Forall_forall in H. intros Hs. apply H. unfold pending in *.
  assert (Hc : concat (drop 0 migrations) = concat (take v migrations) ++ concat (drop v migrations)) by (by rewrite <- concat_app, take_drop). rewrite Hc. apply elem_of_app. by right.
Qed.
Lemma complete_grows db db' : grows db db' -> complete db -> complete db'.
Proof. intros G H s Hs. eapply settled_grows; [exact G|by apply H]. Qed.
Lemma complete_table db n : complete db -> n ∈ schema_tables.*1 -> has_table db n.
Proof.
  intros H ([n' cols] & -> & Hin)%list_elem_of_fmap. unfold schema_tables in Hin. apply list_elem_of_omap in Hin as (s & Hs & E).
  pose proof (H s Hs) as D. destruct s; try done. by injection E as <- <-.
Qed.
Lemma exec_migration_step v s db : s ∈ pending v -> complete db -> shaped db -> exists db', exec_tolerant s db = Ok db' /\ grows db db' /\ shaped db' /\ settled s db'.
Proof.
  intros Hs Hc Hsh. pose proof (migrations_fit v s Hs) as Hf.
  assert (K : settled s db -> exists db', exec_tolerant s db = Ok db' /\ grows db db' /\ shaped db' /\ settled s db').
  { intros D. exists db. destruct (settled_exec s db D) as [E _]. split; [done|]. split; [apply grows_refl|done]. }
  destruct s as [n cols| | |table row|table c]; cbn [migration_fits] in Hf; try done.
  - apply K. by apply complete_table.
  - apply K. apply Exists_exists in Hf as (s & Hin & Hf). destruct s; try done. destruct Hf as [-> ->]. by apply Hc.
  - destruct Hf as [Ht Hn]. destruct (complete_table db table Hc Ht) as [t E]. destruct (decide (c_Name c ∈ names t)) as [C|C]; [apply K; by exists t|].
    assert (X : exec (AddColumn table c) db = Ok (with_table table (mkTable (t_Columns t ++ [c]) ((fun r : Row => <[c_Name c := default_value c]> r) <$> t_Rows t)) db)).
    { cbn. rewrite E, bool_decide_false by done. destruct (c_NotNull c); [|done]. cbn. rewrite bool_decide_false by by apply Hn. done. }
    eexists. unfold exec_tolerant. rewrite X. split; [reflexivity|]. split; [by eapply exec_grows|]. split; [eapply exec_shaped; [|exact Hsh|exact X]; by intros|].
    cbn. rewrite lookup_insert_eq. eexists. split; [reflexivity|]. unfold names. cbn. rewrite fmap_app. apply elem_of_app. right. by left.
Qed.
Lemma migration_run v l db : l ⊆ pending v -> complete db -> shaped db -> exists db', exec_migration l db = Ok db' /\ grows db db' /\ shaped db' /\ forall s, s ∈ l -> settled s db'.
Proof.
  revert db. induction l as [|s l IH]; intros db Hin Hc Hs; [exists db; split; [done|]; split; [apply grows_refl|]; split; [done|]; by intros s ?%not_elem_of_nil|].
  destruct (exec_migration_step v s db) as (db1 & E & G & S1 & D); [apply Hin; by left|done|done|].
  destruct (IH db1) as (db' & E' & G' & S' & D'); [intros x Hx; apply Hin; by right|by eapply complete_grows|done|].
  exists db'. cbn. rewrite E. cbn. split; [done|]. split; [by eapply grows_trans|]. split; [done|]. intros s' [->|H]%elem_of_cons; [by eapply settled_grows|by apply D'].
Qed.

(** ** Opening *)
Lemma exec_version s db db' : exec s db = Ok db' -> ct_user_version db = ct_user_version db'.
Proof.
  destruct s as [n cols|n table u cols|n table w|table row|table c]; cbn; intros H.
  - destruct (ct_tables db !! n); by injection H as <-.
  - case_bool_decide; [by injection H as <-|]. destruct (ct_tables db !! table); [|done]. case_if; [done|]. case_if; [done|]. by injection H as <-.
  - case_bool_decide; [by injection H as <-|]. destruct (ct_tables db !! table); [|done]. by injection H as <-.
  - destruct (ct_tables db !! table); [|done]. case_if; [done|]. case_if; by injection H as <-.
  - destruct (ct_tables db !! table); [|done]. case_bool_decide; [done|]. case_if; [done|]. by injection H as <-.
Qed.
Lemma exec_all_version l db db' : exec_all l db = Ok db' -> ct_user_version db = ct_user_version db'.
Proof.
  revert db. induction l as [|s l IH]; intros db H; [by injection H as <-|]. cbn in H. destruct (exec s db) as [db1|] eqn:E; [|done]. rewrite (exec_version _ _ _ E). by apply IH.
Qed.
(** The tables of the schema as the versions shipped them: the columns a table had from
    its first version, and those it has had since a later one.  This is the history of
    the program's databases, written down apart from the migrations. *)
Definition first_columns : list (string * list string) :=
  [("views", ["name"; "created_at"]); ("view_subnets", ["view_name"; "cidr"]); ("services", ["id"; "name"; "check_url"; "check_insecure"; "created_at"]);
   ("service_addresses", ["id"; "service_id"; "address"; "view_name"]); ("aliases", ["id"; "service_id"; "name"]); ("records", ["id"; "name"; "type"; "value"; "view_name"]);
   ("tokens", ["id"; "label"; "hash"; "created_at"; "last_used_at"]); ("local_settings", ["key"; "value"]);
   ("audit_events", ["id"; "actor"; "action"; "resource"; "details"; "ip"; "outcome"; "created_at"]); ("admin", ["id"; "password_hash"; "updated_at"]);
   ("sso_settings", ["id"; "enabled"; "issuer_url"; "client_id"; "client_secret"]); ("blacklist_settings", ["id"; "enabled"; "block_ttl"]);
   ("blacklist_lists", ["id"; "name"; "url"; "format"; "description"; "enabled"; "builtin"; "interval_seconds"; "last_attempt_at"; "last_ok_at"; "last_error"; "etag";
     "last_modified"; "entry_count"; "skipped_count"; "snapshot"]); ("blacklist_rules", ["id"; "kind"; "domain"]);
   ("settings", ["id"; "private_domain"; "reverse_zones"; "upstreams"; "allow_query"; "allow_tailscale"; "ttl"; "cache_min_ttl"; "cache_max_ttl"; "negative_max_ttl";
     "cache_entries"; "log_queries"; "log_client_ip"; "dhcp_lease_file"; "discovery_interval"; "health_interval"; "health_timeout"; "health_workers"]);
   ("dhcp_leases", ["mac"; "ip"; "hostname"; "expires_at"; "last_seen"]); ("config_version", ["id"; "version"]);
   ("peers", ["node_id"; "label"; "address"; "paired_at"; "last_sync_at"; "last_version"]); ("replica_state", ["id"; "primary_node_id"; "last_version"]);
   ("promotion", ["id"; "promoted_at"])].
Definition later_columns : list (nat * (string * list string)) :=
  [(1, ("services", ["proxy_address"; "route_via_proxy"])); (3, ("admin", ["sso_sub"; "sso_username"; "sso_email"; "sso_linked_at"]));
   (4, ("settings", ["dhcp_enabled"; "dhcp_interface"; "dhcp_range_start"; "dhcp_range_end"; "dhcp_gateway"; "dhcp_lease_seconds"; "dhcp_secondary_dns"]));
   (5, ("settings", ["dhcp_allow_foreign"])); (6, ("services", ["mac"]))]%nat.
Definition shipped (v : nat) : list (string * list string) := first_columns ++ (snd <$> filter (fun x => (x.1 <= v)%nat) later_columns).
(** A database that version [v] left behind: a services table, and every table of the
    schema that is there with the columns it had in that version. *)
Definition of_version (v : nat) (db : Catalog) : Prop :=
  has_table db "services" /\ ct_user_version db = Z.of_nat v /\ shaped db /\ cidrs_distinct db /\
  forall table cols t, (table, cols) ∈ shipped v -> ct_tables db !! table = Some t -> cols ⊆ names t.
(** Column by column, the schema is what some version shipped; what [v] did not ship
    yet, the migrations it has not run add. *)
Definition accounted_column (v : nat) (table c : string) : Prop := Exists (fun tc : string * list string => tc.1 = table /\ c ∈ tc.2) (shipped v) \/ (table, c) ∈ added (pending v).
#[export] Instance accounted_column_dec v table c : Decision (accounted_column v table c).
Proof. unfold accounted_column. apply _. Defined.
Lemma shipped_grows v w : (v <= w)%nat -> shipped v ⊆ shipped w.
Proof.
  intros H x [Hx|Hx]%elem_of_app; apply elem_of_app; [by left|right]. apply list_elem_of_fmap in Hx as (y & -> & Hy). apply list_elem_of_filter in Hy as [Hy1 Hy2].
  apply list_elem_of_fmap. exists y. split; [done|]. apply list_elem_of_filter. split; [lia|done].
Qed.
Lemma schema_accounted v table cols c : (table, cols) ∈ schema_tables -> c ∈ cols -> accounted_column v table c.
Proof.
  assert (H : forall w, (w <= 6)%nat -> Forall (fun tc : string * list string => Forall (accounted_column w tc.1) tc.2) schema_tables).
  { intros w Hw. do 7 (destruct w as [|w]; [apply (bool_decide_unpack _); vm_compute; exact I|]). lia. }
  intros Hin Hc. destruct (decide (v <= 6)%nat) as [L|L].
  - specialize (H v L). rewrite Forall_forall in H. specialize (H _ Hin). rewrite Forall_forall in H. by apply H.
  - specialize (H 6%nat (le_n 6)). rewrite Forall_forall in H. specialize (H _ Hin). rewrite Forall_forall in H. destruct (H c Hc) as [E|E]; [|by apply not_elem_of_nil in E].
    left. apply Exists_exists in E as (tc & E & P). apply Exists_exists. exists tc. split; [|done]. eapply (shipped_grows 6); [lia|done].
Qed.
Lemma of_version_older v db : of_version v db -> older v db.
Proof.
  intros (_ & _ & Hs & Hc & Hcols). split; [done|]. split; [|done]. intros table cols t c Hin Ht Hcol. destruct (schema_accounted v table cols c Hin Hcol) as [E|E]; [left|by right].
  apply Exists_exists in E as ([n cs] & E & <- & P). by apply (Hcols _ _ _ E Ht).
Qed.
(** ** Indexes and triggers *)
(** [IF NOT EXISTS] keeps an object that is there, whatever its body; one that is made
    is made as the schema says. *)
Definition object_name (s : Stmt) : option string := match s with CreateIndex n _ _ _ | CreateTrigger n _ _ => Some n | _ => None end.
Definition objects_from (l : list Stmt) (db db' : Catalog) : Prop :=
  forall n b, ct_objects db' !! n = Some b -> ct_objects db !! n = Some b \/ b ∈ l /\ object_name b = Some n.
Lemma objects_from_refl l db : objects_from l db db.
Proof. by left. Qed.
Lemma objects_from_trans l db1 db2 db3 : objects_from l db1 db2 -> objects_from l db2 db3 -> objects_from l db1 db3.
Proof. intros H1 H2 n b H. destruct (H2 n b H) as [H'|H']; [by apply H1|by right]. Qed.
Lemma exec_objects l s db db' : s ∈ l \/ object_name s = None -> exec s db = Ok db' -> objects_from l db db'.
Proof.
  intros Hl H. destruct s as [n cols|n table u cols|n table w|table row|table c]; cbn in H, Hl.
  - destruct (ct_tables db !! n); injection H as <-; (intros ? ? Hb; left; exact Hb).
  - case_bool_decide; [injection H as <-; (intros ? ? Hb; left; exact Hb)|]. destruct (ct_tables db !! table); [|done]. case_if; [done|]. case_if; [done|]. injection H as <-.
    intros n' b Hb. cbn in Hb. apply lookup_insert_Some in Hb as [[<- <-]|[_ Hb]]; [right|by left]. destruct Hl as [Hl|Hl]; done.
  - case_bool_decide; [injection H as <-; (intros ? ? Hb; left; exact Hb)|]. destruct (ct_tables db !! table); [|done]. injection H as <-.
    intros n' b Hb. cbn in Hb. apply lookup_insert_Some in Hb as [[<- <-]|[_ Hb]]; [right|by left]. destruct Hl as [Hl|Hl]; done.
  - destruct (ct_tables db !! table); [|done]. case_if; [done|]. case_if; injection H as <-; (intros ? ? Hb; left; exact Hb).
  - destruct (ct_tables db !! table); [|done]. case_bool_decide; [done|]. case_if; [done|]. injection H as <-. (intros ? ? Hb; left; exact Hb).
Qed.
Lemma exec_all_objects l l' db db' : l ⊆ l' -> exec_all l db = Ok db' -> objects_from l' db db'.
Proof.
  revert db. induction l as [|s l IH]; intros db Hl H; [injection H as <-; apply objects_from_refl|]. cbn in H. destruct (exec s db) as [db1|] eqn:E; [|done]. cbn in H.
  eapply objects_from_trans; [eapply exec_objects; [left; apply Hl; by left|exact E]|]. apply IH; [|done]. intros x Hx. apply Hl. by right.
Qed.
Lemma exec_migration_objects v l l' db db' : l ⊆ pending v -> exec_migration l db = Ok db' -> objects_from l' db db'.
Proof.
  revert db. induction l as [|s l IH]; intros db Hl H; [injection H as <-; apply objects_from_refl|]. cbn in H.
  assert (N : object_name s = None) by (pose proof (migrations_fit v s (Hl s ltac:(by left))) as F; by destruct s).
  assert (T : forall db1, exec_tolerant s db = Ok db1 -> objects_from l' db db1).
  { intros db1. unfold exec_tolerant. destruct (exec s db) as [d|x] eqn:E; [intros [= <-]; eapply exec_objects; [by right|exact E]|]. destruct x; try done. intros [= <-]. apply objects_from_refl. }
  destruct (exec_tolerant s db) as [db1|] eqn:E; [|done]. cbn in H. eapply objects_from_trans; [by apply T|]. apply IH; [|done]. intros x Hx. apply Hl. by right.
Qed.
(** Every index and trigger of the schema is there, made now or found. *)
Definition objects_made (db db' : Catalog) : Prop :=
  forall s n, s ∈ schema -> object_name s = Some n -> ct_objects db' !! n = Some (default s (ct_objects db !! n)).
Lemma schema_objects_unique s s' n : s ∈ schema -> s' ∈ schema -> object_name s = Some n -> object_name s' = Some n -> s = s'.
Proof.
  assert (H : NoDup (omap object_name schema)) by (apply (bool_decide_unpack _); vm_compute; exact I). revert H. generalize schema. intros l. induction l as [|x l IH]; [by intros _ ?%not_elem_of_nil|].
  assert (E : forall y, y ∈ l -> object_name y = Some n -> n ∈ omap object_name l) by (intros y Hy Hn; apply list_elem_of_omap; by exists y).
  cbn [omap list_omap]. intros H [->|H1]%elem_of_cons [->|H2]%elem_of_cons N1 N2; [done|..].
  - rewrite N1 in H. apply NoDup_cons in H as [H _]. destruct H. by eapply E.
  - rewrite N2 in H. apply NoDup_cons in H as [H _]. destruct H. by eapply E.
  - apply IH; try done. destruct (object_name x); [by apply NoDup_cons in H as [_ H]|done].
Qed.
Lemma objects_made_from db db' : grows db db' -> complete db' -> objects_from schema db db' -> objects_made db db'.
Proof.
  intros [_ O] C F s n Hs Hn. assert (D : is_Some (ct_objects db' !! n)) by (pose proof (C s Hs) as D; destruct s; try done; by injection Hn as <-).
  destruct D as [b Hb]. destruct (ct_objects db !! n) as [b0|] eqn:E; [cbn; exact (lookup_weaken _ _ _ _ E O)|]. cbn. destruct (F n b Hb) as [F'|[F1 F2]]; [congruence|].
  rewrite Hb. f_equal. by eapply schema_objects_unique.
Qed.
(** Every table has its columns, every index and trigger is there, every single row. *)
Definition up_to_date (db : Catalog) : Prop :=
  complete db /\ forall table cols, (table, cols) ∈ schema_tables -> exists t, ct_tables db !! table = Some t /\ cols ⊆ names t.
Lemma version_grows db v : grows db (set_user_version v db).
Proof. exact (grows_refl db). Qed.
Lemma complete_columns v db : complete db -> lacks_only (added (pending v)) db -> (forall s, s ∈ pending v -> settled s db) -> up_to_date db.
Proof.
  intros Hc Hl Hp. split; [done|]. intros table cols Hin. destruct (complete_table db table Hc) as [t Ht]; [apply list_elem_of_fmap; by exists (table, cols)|].
  exists t. split; [done|]. intros c Hcol. destruct (Hl _ _ _ _ Hin Ht Hcol) as [H|H]; [done|]. unfold added in H. apply list_elem_of_omap in H as (s & Hs & E).
  pose proof (Hp s Hs) as D. destruct s as [| | | |table' c']; try done. injection E as <- <-. destruct D as (t' & Ht' & D). by simplify_eq.
Qed.
Lemma lacks_grows l db db' : complete db -> grows db db' -> lacks_only l db -> lacks_only l db'.
Proof.
  intros Hc [G _] Hl table cols t c Hin Ht Hcol. destruct (complete_table db table Hc) as [t0 Ht0]; [apply list_elem_of_fmap; by exists (table, cols)|].
  destruct (G _ _ Ht0) as (t1 & Ht1 & Hn%table_grows_names). simplify_eq. destruct (Hl _ _ _ _ Hin Ht0 Hcol) as [H|H]; [left; by apply Hn|by right].
Qed.
Lemma pending_none v : (length migrations <= v)%nat -> pending v = [].
Proof. intros H. unfold pending. by rewrite drop_ge. Qed.
Lemma open_lemma v db : of_version v db -> exists db', Open db = (db', None) /\ grows db db' /\ shaped db' /\ up_to_date db' /\ objects_made db db' /\
  ct_user_version db' = Z.max (Z.of_nat v) latest.
Proof.
  intros H. pose proof (of_version_older v db H) as Hold. destruct H as (Hsv & Hv & _). destruct (schema_run v schema [] db) as (db1 & E1 & G1 & O1 & D1); [done|vm_compute; reflexivity|by intros n ?%not_elem_of_nil|done|].
  assert (C1 : complete db1) by exact D1.
  assert (V1 : ct_user_version db1 = Z.of_nat v) by (rewrite <- Hv; symmetry; eapply exec_all_version; exact E1).
  unfold Open. rewrite bool_decide_false by (destruct Hsv as [t ->]; done). rewrite E1. cbn [rbind]. unfold migrate. rewrite V1. cbn [negb].
  destruct (Z.leb_spec latest (Z.of_nat v)) as [L|L].
  - exists db1. split; [done|]. split; [done|]. split; [apply O1|]. split; [|split; [|lia]]; [|apply objects_made_from; [done|done|by eapply exec_all_objects]]. eapply (complete_columns v); [done|apply O1|].
    rewrite pending_none by (unfold latest in L; lia). by intros s ?%not_elem_of_nil.
  - rewrite Nat2Z.id. destruct (migration_run v (pending v) db1) as (db2 & E2 & G2 & S2 & D2); [done|done|apply O1|]. fold (pending v). rewrite E2. cbn [rbind].
    eexists. split; [reflexivity|]. split; [eapply grows_trans; [exact G1|exact G2]|]. split; [exact S2|]. split; [|split; [|cbn; lia]]; cycle 1.
    { apply (objects_made_from db db2); [by eapply grows_trans|exact (complete_grows db1 db2 G2 C1)|].
      eapply objects_from_trans; [by eapply exec_all_objects|by eapply exec_migration_objects]. }
    apply (complete_columns v); [exact (complete_grows db1 db2 G2 C1)|exact (lacks_grows _ db1 db2 C1 G2 (proj1 (proj2 O1)))|exact D2].
Qed.
Lemma reopen_lemma db : up_to_date db -> latest <= ct_user_version db -> Open db = (db, None).
Proof.
  intros [Hc _] Hv. assert (E : forall l, l ⊆ schema -> exec_all l db = Ok db).
  { induction l as [|s l IH]; intros Hl; [done|]. cbn. assert (Hs : s ∈ schema) by (apply Hl; by left). destruct (settled_exec s db (Hc s Hs)) as [_ X].
    rewrite X; [cbn; apply IH; intros x Hx; apply Hl; by right|]. intros t c ->. exact (schema_fits _ Hs). }
  assert (Hsv : has_table db "services").
  { apply complete_table; [done|]. apply (bool_decide_unpack _). vm_compute. exact I. }
  unfold Open. rewrite bool_decide_false by (destruct Hsv as [t ->]; done). rewrite E by done. cbn [rbind]. unfold migrate. by rewrite (proj2 (Z.leb_le _ _)).
Qed.
Lemma fresh_lemma db : ct_tables db !! "services" = None -> older (length migrations) db -> exists db', Open db = (db', None) /\ up_to_date db' /\ ct_user_version db' = latest.
Proof.
  intros Hs Hold. destruct (schema_run (length migrations) schema [] db) as (db1 & E1 & G1 & O1 & D1); [done|vm_compute; reflexivity|by intros n ?%not_elem_of_nil|done|].
  unfold Open. rewrite bool_decide_true by done. rewrite E1. cbn [rbind]. unfold migrate. rewrite Z.leb_refl. eexists. split; [reflexivity|]. split; [|done].
  apply (complete_columns (length migrations)); [exact D1|exact (proj1 (proj2 O1))|]. rewrite pending_none by done. by intros s ?%not_elem_of_nil.
Qed.

(** C40: opening a database that an earlier version left behind never fails and
    completes it.  Whatever tables it has, each with the columns its version shipped, it
    ends with every table of the schema, every column of each and every single row; each
    table keeps its columns and its rows in order, each row its values, with the
    declared default in a column it gains; and an index or trigger that was missing is
    the schema's, while one that was there stays as it was. *)
Theorem upgrade_keeps_and_completes v db : of_version v db ->
  exists db', Open db = (db', None) /\ grows db db' /\ shaped db' /\ up_to_date db' /\ objects_made db db' /\ ct_user_version db' = Z.max (Z.of_nat v) latest.
Proof. apply open_lemma. Qed.

(** a second open changes nothing, after an upgrade as after the creation of a
    database; a version newer than this program knows is left as it is. *)
Theorem reopen_changes_nothing v db : of_version v db \/ (ct_tables db !! "services" = None /\ older (length migrations) db) ->
  (Open db).2 = None /\ Open (Open db).1 = ((Open db).1, None).
Proof.
  intros [H|[Hn Ho]].
  - destruct (open_lemma v db H) as (db' & -> & _ & _ & Hu & _ & Hv). split; [done|]. apply reopen_lemma; [done|]. cbn [fst]. lia.
  - destruct (fresh_lemma db Hn Ho) as (db' & -> & Hu & Hv). split; [done|]. apply reopen_lemma; [done|]. cbn [fst]. lia.
Qed.

(** ** A database of the first version *)
Definition old_service : Row := list_to_map [("id", VInteger 1); ("name", VText "nas"); ("check_url", VText ""); ("check_insecure", VInteger 0); ("created_at", VInteger 7)].
Definition old_catalog : Catalog :=
  mkCatalog {[ "services" := mkTable [id_column; text "name"; text_default "check_url" ""; int_default "check_insecure" 0; created_at] [old_service] ]} ∅ 0.
Lemma old_catalog_version : of_version 0 old_catalog.
Proof.
  split; [by eexists|]. split; [done|]. split; [|split; [right|]].
  - intros name t r Ht Hr. cbn in Ht. apply lookup_singleton_Some in Ht as [<- <-]. apply list_elem_of_singleton in Hr as ->. apply (bool_decide_unpack _). vm_compute. exact I.
  - intros t Ht. cbn in Ht. by apply lookup_singleton_Some in Ht as [? _].
  - intros table cols t Hin Ht. cbn in Ht. apply lookup_singleton_Some in Ht as [<- <-].
    assert (H : Forall (fun tc : string * list string => tc.1 = "services" -> tc.2 ⊆ names (mkTable [id_column; text "name"; text_default "check_url" ""; int_default "check_insecure" 0; created_at] [old_service]))
      (shipped 0)) by (apply (bool_decide_unpack _); vm_compute; exact I).
    rewrite Forall_forall in H. by apply (H _ Hin).
Qed.
Lemma upgrade_keeps_and_completes_witness : exists db' t r, Open old_catalog = (db', None) /\ ct_tables db' !! "services" = Some t /\ r ∈ t_Rows t /\
  old_service ⊆ r /\ (r !! "mac" = Some (VText "")) /\ ct_objects db' !! "cv_views_i" = Some (CreateTrigger "cv_views_i" "views" []) /\ ct_user_version db' = 6.
Proof.
  destruct (upgrade_keeps_and_completes 0 old_catalog old_catalog_version) as (db' & E & [G _] & _ & _ & O & V). exists db'.
  destruct (G "services" _ (lookup_singleton_eq _ _)) as (t & Ht & Gt). destruct (table_grows_rows _ _ Gt) as (old & more & Eo & F). inversion F as [|? r ? rest Hr Hrest]; subst. exists t, r.
  split; [exact E|]. split; [exact Ht|]. split; [rewrite Eo; left|]. split; [exact Hr|]. split; [|split; [|rewrite V; reflexivity]].
  - assert (Eo' : (t ← ct_tables (Open old_catalog).1 !! "services"; head (t_Rows t)) = Some r) by (rewrite E; cbn [fst]; rewrite Ht; cbn; by rewrite Eo).
    assert (X : (t ← ct_tables (Open old_catalog).1 !! "services"; r ← head (t_Rows t); r !! "mac") = Some (VText "")) by (vm_compute; reflexivity).
    destruct (ct_tables (Open old_catalog).1 !! "services") as [t'|]; [|discriminate]. cbn in Eo', X. rewrite Eo' in X. exact X.
  - rewrite (O (CreateTrigger "cv_views_i" "views" []) "cv_views_i"); [reflexivity| |reflexivity]. unfold schema. rewrite !elem_of_app. do 4 right. left. left.
Defined.
Lemma reopen_changes_nothing_witness : (Open old_catalog).2 = None /\ (Open empty_catalog).2 = None /\ Open (Open empty_catalog).1 = ((Open empty_catalog).1, None).
Proof.
  split; [apply (reopen_changes_nothing 0 old_catalog); left; exact old_catalog_version|]. apply (reopen_changes_nothing 0 empty_catalog). right. split; [reflexivity|].
  split; [by intros name t r Ht|]. split; [by intros table cols t c _ Ht|]. right. by intros t Ht.
Defined.
