(* ===== verification/DhcpHost.v ===== *)
(** * The host under the DHCP server: interfaces, ARP and the rogue probe

    The parts of [internal/dhcpd/iface.go], [probe.go] and [rogue.go] that read the
    host, over what the kernel answers: [Inspect] and [Qualifies] over the interface
    table and two files, [InUse] over the ARP table, and the probe for other servers
    as an interaction program over its socket.  [host_of] is the [Host] that
    [DhcpRunner] builds listeners on.  The last part runs the probe of a bound
    listener against that same listener. *)
From S2P Require Import Prelude GoStr NetIP Model Store StoreNode DhcpAlloc DhcpReserve DhcpServer DhcpRunner Interact.

(** ** netip's classes of IPv6 addresses *)
Definition v6u16 (u : Z) : Z := Z.shiftr u 112.
Definition IsGlobalUnicast6 (u : Z) : bool :=
  negb (u =? 0) && negb (u =? 1) && negb (Z.land (v6u16 u) 65280 =? 65280) && negb (Z.land (v6u16 u) 65472 =? 65152).
Definition IsPrivate6 (u : Z) : bool := Z.land (v6u16 u) 65024 =? 64512.

(** ** iface.go *)
(** An address of an interface: a [net.IPNet], as its bytes and the length of its
    mask, or some other kind of address. *)
Definition NetAddr : Type := option (list Z * Z).
Record Nic := mkNic { nic_up : bool; nic_loopback : bool; nic_Addrs : option (list NetAddr) }.
Inductive host_error := NoSuchInterface (name : string) | NoAddresses (name : string) | NoIPv4 (name : string) | IsDown (name : string) | IsLoopback (name : string) | ErrNotSupported.
(** What the host answers: [net.InterfaceByName] and [os.ReadFile]. *)
Record Kernel := mkKernel { InterfaceByName : string -> option Nic; ReadFile : string -> option string }.

Section Kernel.
Context (k : Kernel).
Definition defaultGateway : option Addr := b ← ReadFile k "/proc/net/route"; parseProcRoute b.
(** One address of the loop of [Inspect]. *)
Definition inspect1 (info : IfaceInfo) (a : NetAddr) : IfaceInfo :=
  match (n ← a; addr ← AddrFromSlice n.1; Some (Addr.Unmap addr, n.2)) with
  | Some (Addr4 u, ones) =>
      if Addr.IsValid (if_Addr info) then info
      else mkIface (if_Name info) (Addr4 u) (Pfx.Masked (Pfx.PrefixFrom (Addr4 u) ones)) (if_Gateway info) (if_HasGlobalIPv6 info)
  | Some (Addr6 u _, _) =>
      if IsGlobalUnicast6 u && negb (IsPrivate6 u) then mkIface (if_Name info) (if_Addr info) (if_Subnet info) (if_Gateway info) true else info
  | _ => info
  end.
Definition Inspect (name : string) : result host_error IfaceInfo :=
  match InterfaceByName k name with
  | None => Err (NoSuchInterface name)
  | Some ifi =>
      match nic_Addrs ifi with
      | None => Err (NoAddresses name)
      | Some addrs =>
          let info := foldl inspect1 (mkIface name AddrZero Pfx.zero AddrZero false) addrs in
          if negb (Addr.IsValid (if_Addr info)) then Err (NoIPv4 name)
          else Ok (match defaultGateway with
                   | Some gw => mkIface (if_Name info) (if_Addr info) (if_Subnet info) gw (if_HasGlobalIPv6 info)
                   | None => info
                   end)
      end
  end.
Definition isVeth (name : string) : bool :=
  match ReadFile k ("/sys/class/net/" +:+ name +:+ "/uevent") with Some b => ueventIsVeth b | None => false end.
Definition Qualifies (name : string) : option host_error :=
  match InterfaceByName k name with
  | None => Some (NoSuchInterface name)
  | Some ifi =>
      if negb (nic_up ifi) then Some (IsDown name)
      else if nic_loopback ifi then Some (IsLoopback name)
      else if isVeth name then Some ErrNotSupported
      else match Inspect name with Err e => Some e | Ok _ => None end
  end.
End Kernel.

(** ** probe.go *)
Record Prober := mkProber { pb_iface : string; pb_budget : Z }.
Definition NewProber (iface : string) (budget : Z) : Prober := mkProber iface (if budget <=? 0 then 100000000 else budget).
(** [arp ip t] is [/proc/net/arp] once [ip] was nudged and [t] nanoseconds have
    passed; an unreadable table says nothing is in use. *)
Definition InUse (arp : Addr -> Z -> option string) (p : Prober) (ip : Addr) : bool :=
  match arp ip (pb_budget p) with Some b => bool_decide (ip ∈ parseARPTable b (pb_iface p)) | None => false end.

(** ** rogue.go: the probe *)
(** The DISCOVER [dhcpv4.NewDiscovery] builds, and a datagram: its bytes and the UDP
    address it came from, if it came from one. *)
Record Discover := mkDiscover { dc_xid : Z; dc_mac : list Z; dc_broadcast : bool }.
Definition Datagram : Type := list Z * option Addr.
(** [Drain] is every [ReadFrom] of [readReplies] until the one that fails, which the
    deadline on the socket makes happen. *)
Inductive SockOp :=
  | RandRead (n : Z) | NewXID | Dial (iface : string) | Ignore (xid : Z) | Restore (xid : Z) | Now
  | SetDeadline (t : Z) | WriteTo (d : Discover) (to_ : Addr) (port : Z) | Drain | CloseConn.
Definition SockAns (op : SockOp) : Type :=
  match op with
  | RandRead _ => option (list Z) | NewXID => option Z | Dial _ => bool | Ignore _ => unit | Restore _ => unit | Now => Z
  | SetDeadline _ => bool | WriteTo _ _ _ => bool | Drain => list Datagram | CloseConn => unit
  end.
Abbreviation Sock := (Prog SockAns).
Abbreviation sock := (@perform SockOp SockAns).
Inductive probe_error := ProbeMac | ProbePacket | ProbeSocket | ProbeDeadline | ProbeSend.

(** [dhcpv4.FromBytes]: the transaction and what the probe reads of the message. *)
Record Message := mkMessage { msg_xid : Z; msg_offer : bool; msg_server : list Z; msg_yours : list Z }.
Section Probe.
Context (FromBytes : list Z -> option Message).
Definition probe_buf : nat := 1500.
Definition read1 (xid : Z) (d : Datagram) : option probe_reply :=
  m ← FromBytes (take probe_buf d.1);
  if bool_decide (msg_xid m = xid) then Some (mkProbeReply (msg_offer m) (msg_server m) (msg_yours m) (Addr.Unmap (default AddrZero d.2))) else None.
Definition readReplies (xid : Z) (ds : list Datagram) : list probe_reply := omap (read1 xid) ds.
(** [defer]: [fin] is performed whatever [p] returns. *)
Definition deferred {A} (fin : SockOp) (p : Sock A) : Sock A := r ← p; _ ← sock fin; Return r.
Definition probe_deadline (ctx : option Z) (now wait : Z) : Z :=
  match ctx with Some d => if d <? now + wait then d else now + wait | None => now + wait end.
Definition probe_exchange (ctx : option Z) (wait : Z) (d : Discover) : Sock (result probe_error (list Foreign)) :=
  now ← sock Now;
  ok ← sock (SetDeadline (probe_deadline ctx now wait));
  if negb ok then Return (Err ProbeDeadline) else
  ok ← sock (WriteTo d (Addr4 4294967295) 67);
  if negb ok then Return (Err ProbeSend) else
  ds ← sock Drain;
  Return (Ok (collectForeign (readReplies (dc_xid d) ds))).
Definition newProbeDiscovery (mac : list Z) : Sock (option Discover) :=
  xid ← sock NewXID; Return (match xid : option Z with Some xid => Some (mkDiscover xid mac true) | None => None end).
Definition detectForeign (ctx : option Z) (wait : Z) (iface : string) (ignore : bool) : Sock (result probe_error (list Foreign)) :=
  b ← sock (RandRead 6);
  match b with
  | None => Return (Err ProbeMac)
  | Some b =>
      d ← newProbeDiscovery (probeMAC b);
      match d with
      | None => Return (Err ProbePacket)
      | Some d =>
          ok ← sock (Dial iface);
          if negb ok then Return (Err ProbeSocket) else
          deferred CloseConn
            (if ignore then _ ← sock (Ignore (dc_xid d)); deferred (Restore (dc_xid d)) (probe_exchange ctx wait d) else probe_exchange ctx wait d)
      end
  end.
Definition DetectForeign (ctx : option Z) (iface : string) (wait : Z) := detectForeign ctx wait iface false.
Definition ProbeForeign (ctx : option Z) (iface : string) (wait : Z) := detectForeign ctx wait iface true.

(** ** The host of [DhcpRunner] *)
Definition foreignProbeWait : Z := seconds 2.
Definition build_timeout : Z := seconds 5.
Context {S : Type} (env : forall op, S -> S * SockAns op) (text : host_error + probe_error -> string).
Definition host_of (k : Kernel) (s : S) (bind : Listener -> option string) (now : Z) : Host :=
  mkHost (fun name => (fun e => text (inl e)) <$> Qualifies k name)
    (fun name => match Inspect k name with Ok i => Ok i | Err e => Err (text (inl e)) end)
    (fun name => match (run env (DetectForeign (Some (now + build_timeout)) name foreignProbeWait) s).2 with Ok l => Ok l | Err e => Err (text (inr e)) end)
    bind now.
End Probe.


(** ** Lemmas: the interface *)
Definition is_byte_z (b : Z) : Prop := 0 <= b < 256.
Lemma be_value_bound l : Forall is_byte_z l -> 0 <= be_value l < 256 ^ Z.of_nat (length l).
Proof.
  unfold be_value. induction l as [|b l IH] using rev_ind; [cbn; lia|]. rewrite Forall_app, Forall_singleton. intros [H Hb].
  rewrite foldl_app, length_app. cbn [foldl length]. specialize (IH H). unfold is_byte_z in Hb.
  rewrite Nat2Z.inj_add, Z.pow_add_r by lia. change (256 ^ Z.of_nat 1) with 256. nia.
Qed.
(** An address of the kernel's table: bytes, and a mask no longer than the address. *)
Definition net_addr (a : NetAddr) : option (Addr * Z) := n ← a; addr ← AddrFromSlice n.1; Some (Addr.Unmap addr, n.2).
Definition net_addr_ok (a : NetAddr) : Prop :=
  match a with Some (ip, ones) => Forall is_byte_z ip /\ forall addr, AddrFromSlice ip = Some addr -> 0 <= ones <= Addr.BitLen (Addr.Unmap addr) | None => True end.
Definition kernel_ok (k : Kernel) : Prop := forall name nic addrs, InterfaceByName k name = Some nic -> nic_Addrs nic = Some addrs -> Forall net_addr_ok addrs.
Definition net4 (a : NetAddr) : option (Z * Z) := match net_addr a with Some (Addr4 u, ones) => Some (u, ones) | _ => None end.
Definition global6 (a : NetAddr) : bool := match net_addr a with Some (Addr6 u _, _) => IsGlobalUnicast6 u && negb (IsPrivate6 u) | _ => false end.
Lemma inspect_fold addrs info : let info' := foldl inspect1 info addrs in
  if_Name info' = if_Name info /\ if_Gateway info' = if_Gateway info /\ if_HasGlobalIPv6 info' = if_HasGlobalIPv6 info || existsb global6 addrs /\
  (if_Addr info', if_Subnet info') = (if Addr.IsValid (if_Addr info) then (if_Addr info, if_Subnet info) else
    match head (omap net4 addrs) with Some (u, ones) => (Addr4 u, Pfx.Masked (Pfx.PrefixFrom (Addr4 u) ones)) | None => (if_Addr info, if_Subnet info) end).
Proof.
  revert info. induction addrs as [|a addrs IH]; intros info; [cbn; rewrite orb_false_r; by destruct (Addr.IsValid _)|].
  specialize (IH (inspect1 info a)). cbv zeta in IH |- *. destruct IH as (H1 & H2 & H3 & H4). change (foldl inspect1 info (a :: addrs)) with (foldl inspect1 (inspect1 info a) addrs).
  rewrite H1, H2, H3, H4. cbn [existsb]. rewrite omap_cons. unfold inspect1. fold (net_addr a). unfold net4 at 2, global6 at 2.
  destruct (net_addr a) as [[[|u|u z] ones]|]; [done| | |done].
  - destruct (Addr.IsValid (if_Addr info)) eqn:V; cbn; [rewrite V|]; done.
  - destruct (_ && _); cbn [if_Name if_Gateway if_HasGlobalIPv6 if_Addr if_Subnet]; [by rewrite orb_true_r|done].
Qed.
Lemma net4_ok a u ones : net_addr_ok a -> net4 a = Some (u, ones) -> 0 <= u < 2 ^ 32 /\ 0 <= ones <= 32.
Proof.
  unfold net4, net_addr. destruct a as [[ip n]|]; [|done]. intros [Hb Ho]. cbn [mbind option_bind fst snd]. destruct (AddrFromSlice ip) as [addr|] eqn:E; [|done].
  specialize (Ho _ eq_refl). cbn [mbind option_bind]. destruct (Addr.Unmap addr) as [|v|] eqn:U; try done. intros [= <- <-]. split; [|exact Ho].
  unfold AddrFromSlice in E. pose proof (be_value_bound ip Hb) as B. destruct (length ip =? 4)%nat eqn:L4.
  - apply Nat.eqb_eq in L4. rewrite L4 in B. injection E as <-. cbn in U. injection U as <-. change (256 ^ Z.of_nat 4) with (2 ^ 32) in B. exact B.
  - destruct (length ip =? 16)%nat; [|done]. injection E as <-. cbn [Addr.Unmap] in U. destruct (_ =? _); [|done]. injection U as <-. apply Z.mod_pos_bound. lia.
Qed.
Lemma prefix_of_host u ones : 0 <= u < 2 ^ 32 -> 0 <= ones <= 32 -> prefix_wf (Pfx.PrefixFrom (Addr4 u) ones) /\ Pfx.Contains (Pfx.PrefixFrom (Addr4 u) ones) (Addr4 u) = true.
Proof.
  intros Hu Ho. unfold Pfx.PrefixFrom. cbn [Addr.WithZone Addr.IsValid Addr.BitLen andb]. replace ((0 <=? ones) && (ones <=? 32)) with true by (symmetry; apply andb_true_iff; rewrite !Z.leb_le; lia).
  split; [repeat split; cbn; lia|]. unfold Pfx.Contains, Pfx.IsValid. cbn. rewrite Z.lxor_nilpotent, Z.shiftr_0_l. replace (0 <=? ones) with true by (symmetry; apply Z.leb_le; lia). done.
Qed.

(** [Inspect] reads the interface: its first IPv4 address and that address's subnet,
    the host's default gateway, and whether some address is a public IPv6 one. *)
Theorem inspect_reads k name info : Inspect k name = Ok info <->
  exists nic addrs u ones, InterfaceByName k name = Some nic /\ nic_Addrs nic = Some addrs /\ head (omap net4 addrs) = Some (u, ones) /\
    info = mkIface name (Addr4 u) (Pfx.Masked (Pfx.PrefixFrom (Addr4 u) ones)) (default AddrZero (defaultGateway k)) (existsb global6 addrs).
Proof.
  unfold Inspect. destruct (InterfaceByName k name) as [nic|]; [|split; [done|by intros (?&?&?&?&?&_)]].
  destruct (nic_Addrs nic) as [addrs|] eqn:Ea; [|split; [done|intros (?&?&?&?&[= <-]&?&_); congruence]].
  destruct (inspect_fold addrs (mkIface name AddrZero Pfx.zero AddrZero false)) as (H1 & H2 & H3 & H4). destruct (foldl inspect1 _ _) as [n a s g b]. cbn in H1, H2, H3, H4 |- *. subst n g b.
  destruct (head (omap net4 addrs)) as [[u ones]|] eqn:Eh; injection H4 as -> ->; cbn [Addr.IsValid negb].
  - split.
    + intros [= <-]. exists nic, addrs, u, ones. split; [done|]. split; [done|]. split; [done|]. by destruct (defaultGateway k).
    + intros (nic' & addrs' & u' & ones' & [= <-] & E' & Eh' & ->). rewrite Ea in E'. injection E' as <-. rewrite Eh in Eh'. injection Eh' as <- <-. by destruct (defaultGateway k).
  - split; [done|]. intros (nic' & addrs' & u' & ones' & [= <-] & E' & Eh' & _). rewrite Ea in E'. injection E' as <-. congruence.
Qed.
Lemma inspected k name info : kernel_ok k -> Inspect k name = Ok info ->
  prefix_wf (if_Subnet info) /\ Pfx.Masked (if_Subnet info) = if_Subnet info /\ Pfx.Contains (if_Subnet info) (if_Addr info) = true /\ v4 (if_Addr info).
Proof.
  intros Hk (nic & addrs & u & ones & Hn & Ha & Hh & ->)%inspect_reads. cbn [if_Subnet if_Addr].
  assert (Hok : 0 <= u < 2 ^ 32 /\ 0 <= ones <= 32).
  { specialize (Hk _ _ _ Hn Ha). rewrite Forall_forall in Hk. assert ((u, ones) ∈ omap net4 addrs) as (a & Hin & E)%list_elem_of_omap by (destruct (omap net4 addrs); [done|]; injection Hh as ->; by left).
    exact (net4_ok a u ones (Hk a Hin) E). }
  destruct (prefix_of_host u ones) as [W C]; [lia..|]. split; [by apply Masked_prefix_wf|]. split; [by apply Masked_idemp|]. split; [by rewrite Contains_Masked|]. exists u. split; [done|lia].
Qed.
Lemma qualifies_ok k name : Qualifies k name = None <->
  exists nic info, InterfaceByName k name = Some nic /\ nic_up nic = true /\ nic_loopback nic = false /\ isVeth k name = false /\ Inspect k name = Ok info.
Proof.
  unfold Qualifies. destruct (InterfaceByName k name) as [nic|] eqn:E; [|split; [done|by intros (?&?&?&_)]]. split.
  - destruct (nic_up nic) eqn:U; [|done]. destruct (nic_loopback nic) eqn:L; [done|]. destruct (isVeth k name) eqn:V; [done|]. destruct (Inspect k name) as [info|] eqn:I; [|done]. by exists nic, info.
  - intros (nic' & info & [= <-] & -> & -> & -> & ->). done.
Qed.

(** ** Lemmas: the probe *)
Definition sets_ignore (op : SockOp) : bool := match op with Ignore _ | Restore _ => true | _ => false end.
Lemma probe_deadline_bound ctx now wait : probe_deadline ctx now wait <= now + wait /\ forall d, ctx = Some d -> probe_deadline ctx now wait <= d.
Proof. unfold probe_deadline. destruct ctx as [d|]; [|split; [lia|done]]. destruct (Z.ltb_spec d (now + wait)); (split; [lia|]; intros ? [= <-]; lia). Qed.
Definition probe_guard (ctx : option Z) (wait : Z) (ign : bool) (past : list (Event SockAns)) (op : SockOp) : Prop :=
  match op with
  | WriteTo d a p => a = Addr4 4294967295 /\ p = 67 /\ dc_broadcast d = true /\ (exists b, mkEvent (RandRead 6) (Some b) ∈ past /\ dc_mac d = probeMAC b) /\
      List.filter sets_ignore (map ev_op past) = if ign then [Ignore (dc_xid d)] else []
  | Drain => exists now t, mkEvent Now now ∈ past /\ mkEvent (SetDeadline t) true ∈ past /\ t <= now + wait /\ forall d, ctx = Some d -> t <= d
  | _ => True
  end.
Definition probe_post (ign : bool) (t : list (Event SockAns)) (r : result probe_error (list Foreign)) (FromBytes : list Z -> option Message) : Prop :=
  (forall i, mkEvent (Dial i) true ∈ t -> last (map ev_op t) = Some CloseConn) /\
  (List.filter sets_ignore (map ev_op t) = [] \/ ign = true /\ exists xid, List.filter sets_ignore (map ev_op t) = [Ignore xid; Restore xid]) /\
  match r with
  | Ok found => exists d a p ds, mkEvent (WriteTo d a p) true ∈ t /\ mkEvent Drain ds ∈ t /\ found = collectForeign (readReplies FromBytes (dc_xid d) ds)
  | Err _ => True
  end.
Lemma filter_snoc_ops past (op : SockOp) (x : SockAns op) : List.filter sets_ignore (map ev_op (past ++ [mkEvent op x])) = List.filter sets_ignore (map ev_op past) ++ (if sets_ignore op then [op] else []).
Proof. by rewrite map_app, List.filter_app. Qed.
Lemma elem_snoc (past : list (Event SockAns)) e e' : e ∈ past ++ [e'] <-> e ∈ past \/ e = e'.
Proof. rewrite elem_of_app, list_elem_of_singleton. done. Qed.
Ltac in_log := first [assumption | apply list_elem_of_here | apply list_elem_of_further; in_log | apply elem_snoc; first [by right | left; in_log]].

Section Discipline.
Context (FromBytes : list Z -> option Message) (ctx : option Z) (wait : Z).
Lemma probe_exchange_wp (ign : bool) d (past : list (Event SockAns)) (b : list Z) : mkEvent (RandRead 6) (Some b) ∈ past -> dc_mac d = probeMAC b -> dc_broadcast d = true ->
  List.filter sets_ignore (map ev_op past) = (if ign then [Ignore (dc_xid d)] else []) ->
  wp (probe_guard ctx wait ign) (probe_exchange FromBytes ctx wait d) past (fun t r => List.filter sets_ignore (map ev_op t) = (if ign then [Ignore (dc_xid d)] else []) /\
    match r with Ok found => exists d a p ds, mkEvent (WriteTo d a p) true ∈ t /\ mkEvent Drain ds ∈ t /\ found = collectForeign (readReplies FromBytes (dc_xid d) ds) | Err _ => True end).
Proof.
  intros Hb Hm Hc Hf. cbn. split; [done|]. intros now. split; [done|]. intros [|]; cbn [wp negb]; [|by rewrite !filter_snoc_ops, Hf; destruct ign].
  split. { split; [done|]. split; [done|]. split; [done|]. split; [exists b; split; [in_log|done]|]. by rewrite !filter_snoc_ops, Hf; destruct ign. }
  intros [|]; cbn [wp negb]; [|by rewrite !filter_snoc_ops, Hf; destruct ign].
  destruct (probe_deadline_bound ctx now wait) as [D1 D2].
  split; [exists now, (probe_deadline ctx now wait); split; [in_log|]; split; [in_log|]; done|].
  intros ds. split; [by rewrite !filter_snoc_ops, Hf; destruct ign|]. exists d, (Addr4 4294967295), 67, ds. split; [in_log|]. split; [in_log|done].
Qed.
Definition dialled (e : Event SockAns) : bool := match ev_op e as op return SockAns op -> bool with Dial _ => fun ok => ok | _ => fun _ => false end (ev_ans e).
Lemma detectForeign_wp iface ign : wp (probe_guard ctx wait ign) (detectForeign FromBytes ctx wait iface ign) [] (fun t r => probe_post ign t r FromBytes).
Proof.
  unfold detectForeign, newProbeDiscovery, probe_post. cbn -[probe_exchange deferred]. split; [done|]. intros [b|]; cbn [wp]; cycle 1.
  { split; [|by split; [left|]]. intros i Hi%list_elem_of_singleton%(f_equal dialled). done. }
  split; [done|]. intros [xid|]; cbn [wp prog_bind]; cycle 1.
  { split; [|by split; [left|]]. intros i Hi. by repeat first [apply elem_snoc in Hi as [Hi|Hi%(f_equal dialled)] | apply list_elem_of_singleton, (f_equal dialled) in Hi]. }
  split; [done|]. intros [|]; cbn [wp prog_bind negb]; cycle 1.
  { split; [|by split; [left|]]. intros i Hi. by repeat first [apply elem_snoc in Hi as [Hi|Hi%(f_equal dialled)] | apply list_elem_of_singleton, (f_equal dialled) in Hi]. }
  set (d := mkDiscover xid (probeMAC b) true). destruct ign; unfold deferred at 1; apply wp_bind.
  - cbn [wp]. split; [done|]. intros []. unfold deferred. apply wp_bind. eapply wp_mono; [|apply (probe_exchange_wp true d _ b); [in_log|done..]].
    intros t r [Hf Hr]. split; [done|]. intros []. split; [done|]. intros [].
    split; [intros i _; rewrite map_app; apply last_snoc|]. split.
    { right. split; [done|]. exists xid. by rewrite !filter_snoc_ops, Hf. }
    destruct r as [found|]; [|done]. destruct Hr as (d' & a & p & ds & H1 & H2 & H3). exists d', a, p, ds. split; [in_log|]. split; [in_log|done].
  - eapply wp_mono; [|apply (probe_exchange_wp false d _ b); [in_log|done..]]. intros t r [Hf Hr]. split; [done|]. intros [].
    split; [intros i _; rewrite map_app; apply last_snoc|]. split; [left; by rewrite filter_snoc_ops, Hf|].
    destruct r as [found|]; [|done]. destruct Hr as (d' & a & p & ds & H1 & H2 & H3). exists d', a, p, ds. split; [in_log|]. split; [in_log|done].
Qed.
End Discipline.

(** every run of the probe, whatever the socket does: the DISCOVER is broadcast on
    port 67 from the random local address with the broadcast flag set, and the probe of
    a bound listener has told that listener its transaction before; it listens no longer
    than it was asked to and than its caller allows; an opened socket is closed, and a
    registered transaction released, on every path, failures included. *)
Theorem probe_discipline FromBytes ctx wait iface ign t r : outcome (detectForeign FromBytes ctx wait iface ign) t r ->
  (forall t1 e t2, t = t1 ++ e :: t2 -> probe_guard ctx wait ign t1 (ev_op e)) /\ probe_post ign t r FromBytes.
Proof. intros H. destruct (wp_outcome _ _ [] _ t r (detectForeign_wp FromBytes ctx wait iface ign) H) as [HQ HG]. by split. Qed.

(** [DhcpRunner] on this host: a listener that was built serves an interface that is
    up, is no loopback and no container's veth; it presents itself with the
    interface's own address, which lies in the subnet it serves, as do both ends of
    its range; and where the rogue check ran and other servers are not allowed, every
    OFFER the probe read carried no identity at all. *)
Theorem listener_on_its_segment FromBytes {S} (env : forall op, S -> S * SockAns op) text k s bind now v probe id l : kernel_ok k ->
  build (host_of FromBytes env text k s bind now) v probe id = Ok l ->
  (exists nic, InterfaceByName k (DHCPInterface v) = Some nic /\ nic_up nic = true /\ nic_loopback nic = false /\ isVeth k (DHCPInterface v) = false) /\
  (exists info, Inspect k (DHCPInterface v) = Ok info /\ o_Iface (ln_opts l) = if_Addr info /\ ln_subnet l = if_Subnet info) /\
  v4 (o_Iface (ln_opts l)) /\ prefix_wf (ln_subnet l) /\ Pfx.Contains (ln_subnet l) (o_Iface (ln_opts l)) = true /\
  Pfx.Contains (ln_subnet l) (cf_Start (o_Cfg (ln_opts l))) = true /\ Pfx.Contains (ln_subnet l) (cf_End (o_Cfg (ln_opts l))) = true /\
  (probe = true -> DHCPAllowForeign v = false -> exists d a p ds, let t := (run env (DetectForeign FromBytes (Some (now + build_timeout)) (DHCPInterface v) foreignProbeWait) s).1.2 in
    mkEvent (WriteTo d a p) true ∈ t /\ mkEvent Drain ds ∈ t /\
    forall r, r ∈ readReplies FromBytes (dc_xid d) ds -> pr_offer r = true -> Addr.IsValid (foreign_id r) = false).
Proof.
  intros Hk (info & Hq & Hi & Ha & Hp)%build_ok. cbn [host_of h_qualifies h_inspect h_detect] in Hq, Hi, Hp.
  assert (Hq' : Qualifies k (DHCPInterface v) = None) by (destruct (Qualifies _ _); done). apply qualifies_ok in Hq' as (nic & info' & Hn & Hu & Hl & Hv & Hi'). rewrite Hi' in Hi. injection Hi as ->.
  destruct (inspected _ _ _ Hk Hi') as (W1 & W2 & W3 & W4). destruct (assemble_parts _ _ _ _ Ha) as (_ & Es & _ & _ & C1 & C2).
  assert (Eo : o_Iface (ln_opts l) = if_Addr info).
  { unfold assemble in Ha. apply rbind_ok in Ha as ([[a b] g] & _ & Ha). cbn in Ha. by apply rbind_ok in Ha as (dns & _ & [= <-]). }
  split; [by exists nic|]. split; [by exists info|]. rewrite Eo, Es. split; [done|]. split; [done|]. split; [done|]. split; [done|]. split; [done|].
  intros Ep Ef. destruct (Hp Ep) as [?|Hd]; [congruence|]. pose proof (run_outcome env (DetectForeign FromBytes (Some (now + build_timeout)) (DHCPInterface v) foreignProbeWait) s) as Ho.
  destruct (run env _ s) as [[s' t] [found|e]]; cbn [fst snd] in *; [|done]. injection Hd as ->.
  apply (wp_run _ _ _ _ _ (detectForeign_wp FromBytes _ _ _ _)) in Ho as (_ & _ & (d & a & p & ds & H1 & H2 & H3)).
  exists d, a, p, ds. split; [done|]. split; [done|]. intros r Hr Hof. destruct (Addr.IsValid (foreign_id r)) eqn:V; [|done].
  destruct (foreign_servers_listed_once (readReplies FromBytes (dc_xid d) ds)) as [_ Hin]. rewrite <- H3 in Hin. exfalso. apply (not_elem_of_nil (foreign_id r)). apply Hin. by exists r.
Qed.

(** ** The probe of a bound listener on its own segment *)
Section Segment.
Context {S E : Type} {LS : LeaseStore S E} (o : Options) (FromBytes : list Z -> option Message).
(** [answers]: the socket's and the library's; [air i]: what the listener handles
    before the probe's [i]-th operation; [arrive]: what reaches the probe's socket when
    the listener has sent [l] since it was opened, other servers' datagrams ([inl]) and
    the listener's own ([inr], as [wire] puts them on the wire) in any order. *)
Context (answers : forall op, SockAns op) (air : nat -> list event)
  (arrive : list (Packet * list Modifier) -> list (Datagram + Packet * list Modifier)) (wire : Packet * list Modifier -> Datagram).
Record Segment := mkSegment { sg_world : World S; sg_clock : nat; sg_since : nat }.
Definition hear (x : Datagram + Packet * list Modifier) : Datagram := match x with inl d => d | inr p => wire p end.
Definition foreign_datagrams (l : list (Datagram + Packet * list Modifier)) : list Datagram := omap (fun x => match x with inl d => Some d | inr _ => None end) l.
Definition seg_env (op : SockOp) (s : Segment) : Segment * SockAns op :=
  let w := foldl (estep o) (sg_world s) (air (sg_clock s)) in
  let s := mkSegment w (Datatypes.S (sg_clock s)) (sg_since s) in
  match op with
  | Dial i => (mkSegment w (sg_clock s) (length (w_sent w)), answers (Dial i))
  | Ignore xid => (mkSegment (ignoreXID xid w) (sg_clock s) (sg_since s), tt)
  | Restore xid => (mkSegment (unignoreXID xid w) (sg_clock s) (sg_since s), tt)
  | Drain => (s, map hear (arrive (drop (sg_since s) (w_sent w))))
  | op => (s, answers op)
  end.

Context (xid : Z) (Hxid : answers NewXID = Some xid).
(** The listener stays up and nobody else releases this transaction; no client picks
    it in the gap before the probe registers it; a reply carries the transaction of
    the packet it answers; only what was sent arrives. *)
Context (Hair : forall i e, e ∈ air i -> e <> EvUnignore xid /\ forall t, e <> EvRestart t).
Context (Hgap : forall now inUse m, EvPacket now inUse m ∈ air 3 -> p_xid m <> xid).
Context (Hwire : forall x m, FromBytes (take probe_buf (wire x).1) = Some m -> msg_xid m = p_xid x.1).
Context (Harrive : forall l x, inr x ∈ arrive l -> x ∈ l).

Lemma gap_unanswered (h : list event) (w : World S) : (forall e, e ∈ h -> forall t, e <> EvRestart t) -> (forall now inUse m, EvPacket now inUse m ∈ h -> p_xid m <> xid) ->
  exists l, w_sent (foldl (estep o) w h) = w_sent w ++ l /\ forall x, x ∈ l -> p_xid x.1 <> xid.
Proof.
  intros Hr Hm. apply (foldl_inv (fun w' => exists l, w_sent w' = w_sent w ++ l /\ forall x, x ∈ l -> p_xid x.1 <> xid)).
  - intros w1 e (l & Hl & Hx) He. destruct e as [now inUse m|svcs|x|x|t]; cbn [estep]; [|by exists l..|by destruct (Hr _ He t)].
    destruct (handle_sent o now inUse m w1) as [_ (l' & -> & Hl')]. exists (l ++ l'). rewrite Hl, (assoc_L (++)). split; [done|].
    intros x [?|Hin]%elem_of_app; [by apply Hx|]. destruct (Hl' x Hin) as [-> _]. by apply (Hm now inUse).
  - exists []. split; [by rewrite app_nil_r|]. by intros x ?%not_elem_of_nil.
Qed.
Lemma own_answers_unread l : (forall x, x ∈ l -> p_xid x.1 <> xid) -> readReplies FromBytes xid (map hear (arrive l)) = readReplies FromBytes xid (foreign_datagrams (arrive l)).
Proof.
  intros Hl. pose proof (Harrive l) as Ha. unfold readReplies, foreign_datagrams. induction (arrive l) as [|[d|x] xs IH]; [done| |]; cbn [map hear].
  - rewrite !omap_cons. destruct (read1 FromBytes xid d); rewrite IH; auto; intros y Hy; apply Ha; by right.
  - rewrite !omap_cons. assert (R : read1 FromBytes xid (wire x) = None).
    { unfold read1. destruct (FromBytes (take probe_buf (wire x).1)) as [m|] eqn:F; [|done]. cbn. rewrite bool_decide_false; [done|]. rewrite (Hwire _ _ F). apply Hl, Ha. by left. }
    rewrite R. apply IH. intros y Hy. apply Ha. by right.
Qed.

(** C39: while a listener is bound, its periodic probe reports the other servers of the
    segment and nothing else: whatever packets the listener handles meanwhile, the
    probe's own DISCOVER among them, and in whatever order answers arrive, the result
    is the one the other servers' datagrams alone would give. *)
Theorem bound_probe_reports_others ctx iface wait w s' t found :
  run seg_env (ProbeForeign FromBytes ctx iface wait) (mkSegment w 0 0) = (s', t, Ok found) ->
  exists sent, (forall x, x ∈ sent -> p_xid x.1 <> xid) /\ mkEvent Drain (map hear (arrive sent)) ∈ t /\
    found = collectForeign (readReplies FromBytes xid (foreign_datagrams (arrive sent))).
Proof.
  unfold ProbeForeign, detectForeign, newProbeDiscovery. cbn -[foldl]. destruct (answers (RandRead 6)) as [b|]; [|done]. cbn -[foldl]. rewrite Hxid. cbn -[foldl].
  destruct (answers (Dial iface)); [|done]. cbn -[foldl].
  destruct (answers (SetDeadline _)); [|done]. cbn -[foldl]. destruct (answers (WriteTo _ _ _)); [|done]. cbn -[foldl].
  set (w2 := foldl (estep o) _ (air 2)). set (w3 := foldl (estep o) w2 (air 3)). set (sent := drop (length (w_sent w2)) _).
  assert (Hs : forall x, x ∈ sent -> p_xid x.1 <> xid).
  { destruct (gap_unanswered (air 3) w2) as (l1 & E1 & H1); [intros e He; apply (Hair 3 e He)|exact Hgap|].
    subst sent. rewrite <- !foldl_app. destruct (own_probe_unanswered o xid (air 4 ++ air 5 ++ air 6 ++ air 7) w3) as (l2 & E2 & H2).
    - intros e. rewrite !elem_of_app. intros [He|[He|[He|He]]]; exact (Hair _ _ He).
    - fold w3 in E1. rewrite E2, E1, <- (assoc_L (++)), drop_app_length. intros x [Hx|Hx]%elem_of_app; [by apply H1|by apply H2]. }
  intros [= _ <- <-]. exists sent. split; [done|]. split; [in_log|]. by rewrite own_answers_unread.
Qed.

(** the periodic probe leaves the listener as it met it: whatever fails on the way,
    afterwards no transaction is ignored that was not before, so a client that later
    picks the probe's identifier is served. *)
Theorem probe_leaves_listener_open ctx iface wait w : xid ∉ w_ignored w -> (forall i, EvIgnore xid ∉ air i) ->
  xid ∉ w_ignored (sg_world (run seg_env (ProbeForeign FromBytes ctx iface wait) (mkSegment w 0 0)).1.1).
Proof.
  clear Hgap Hwire Harrive. intros Hw Hi. assert (K : forall i w, xid ∉ w_ignored w -> xid ∉ w_ignored (foldl (estep o) w (air i))).
  { intros i w1 H1. apply (foldl_inv (fun w' => xid ∉ w_ignored w')); [|done]. intros w2 e H2 He. destruct e as [now inUse m|svcs|x|x|t]; cbn [estep].
    - by rewrite (proj1 (handle_sent o now inUse m w2)).
    - done.
    - cbn. intros [Hx%elem_of_singleton|?]%elem_of_union; [|done]. subst x. by apply (Hi i).
    - cbn. intros [? _]%elem_of_difference. done.
    - by destruct (proj2 (Hair _ _ He) t). }
  assert (U : forall w : World S, xid ∉ w_ignored (unignoreXID xid w)) by (intros w1; cbn; set_solver).
  unfold ProbeForeign, detectForeign, newProbeDiscovery. cbn -[foldl]. destruct (answers (RandRead 6)) as [b|]; cbn -[foldl]; [|auto]. rewrite Hxid. cbn -[foldl].
  destruct (answers (Dial iface)); cbn -[foldl]; [|auto].
  destruct (answers (SetDeadline _)); cbn -[foldl]; [|auto]. destruct (answers (WriteTo _ _ _)); cbn -[foldl]; auto 10.
Qed.
End Segment.

(** ** Concrete runs *)
Definition ex_kernel : Kernel := mkKernel
  (fun name => if bool_decide (name = "eth0") then Some (mkNic true false (Some [Some ([0; 0; 0; 0; 0; 0; 0; 0; 0; 0; 255; 255; 192; 168; 1; 1], 24);
     Some ([32; 1; 13; 184; 0; 0; 0; 0; 0; 0; 0; 0; 0; 0; 0; 1], 64); None])) else None)
  (fun path => if bool_decide (path = "/proc/net/route")
     then Some ("Iface Destination Gateway Flags" +:+ String (chr 10) "" +:+ "eth0 00000000 FE01A8C0 0003") else None).
Lemma ex_kernel_ok : kernel_ok ex_kernel.
Proof.
  intros name nic addrs. cbn. case_bool_decide; [|done]. intros [= <-] [= <-]. rewrite !Forall_cons, Forall_nil. unfold net_addr_ok, is_byte_z.
  split; [|split; [|done]]; (split; [rewrite !Forall_cons, Forall_nil; lia|]); intros addr [= <-]; vm_compute; split; discriminate.
Qed.
Example inspected_eth0 : Inspect ex_kernel "eth0" = Ok (mkIface "eth0" (Addr4 3232235777) (mkPrefix (Addr4 3232235776) 24) (Addr4 3232236030) true).
Proof. vm_compute. reflexivity. Qed.
(** A toy encoding: transaction, type, server and offered address. *)
Definition ex_FromBytes (l : list Z) : option Message :=
  match l with
  | x :: k :: s1 :: s2 :: s3 :: s4 :: ys => Some (mkMessage x (k =? 2) [s1; s2; s3; s4] ys)
  | _ => None
  end.
Definition ex_wire (x : Packet * list Modifier) : Datagram := ([p_xid x.1; 2; 192; 168; 1; 1; 192; 168; 1; 2], Some (Addr4 3232235777)).
Definition ex_dnsmasq : Datagram := ([7; 2; 192; 168; 1; 1; 192; 168; 1; 99], Some (Addr4 3232235777)).
Definition ex_answers (op : SockOp) : SockAns op :=
  match op return SockAns op with
  | RandRead _ => Some [1; 2; 3; 4; 5; 6] | NewXID => Some 7 | Dial _ => true | Ignore _ => tt | Restore _ => tt | Now => 0
  | SetDeadline _ => true | WriteTo _ _ _ => true | Drain => [ex_dnsmasq] | CloseConn => tt
  end.
Definition ex_air (i : nat) : list event := if (i =? 7)%nat then [EvPacket 0 nobody (disc 7 mac1); EvPacket 0 nobody (disc 8 mac2)] else [].
Definition ex_arrive (l : list (Packet * list Modifier)) : list (Datagram + Packet * list Modifier) := map inr l ++ [inl ex_dnsmasq].
Abbreviation ex_seg_env := (seg_env opts1 ex_answers ex_air ex_arrive ex_wire).
Definition ex_segment : Segment (S := DB) := mkSegment (boot opts1 db0) 0 0.
Lemma ex_air_quiet i e : e ∈ ex_air i -> exists m, e = EvPacket 0 nobody m.
Proof. unfold ex_air. destruct (i =? 7)%nat; [|by intros ?%not_elem_of_nil]. rewrite !elem_of_cons. intros [->|[->|?%not_elem_of_nil]]; [eauto..|done]. Qed.
(** A server sharing the host answers with the listener's own address; the bound
    probe names it, the plain probe would have heard the listener first. *)
Lemma bound_probe_reports_others_witness :
  let r := run ex_seg_env (ProbeForeign ex_FromBytes None "eth0" 2) ex_segment in
  r.2 = Ok [mkForeign (Addr4 3232235777) (Addr4 3232235875)] /\
  exists sent, [mkForeign (Addr4 3232235777) (Addr4 3232235875)] = collectForeign (readReplies ex_FromBytes 7 (foreign_datagrams (ex_arrive sent))).
Proof.
  intros r. assert (Er : r.2 = Ok [mkForeign (Addr4 3232235777) (Addr4 3232235875)]) by (vm_compute; reflexivity). split; [exact Er|].
  destruct r as [[s' t] found] eqn:E. cbn in Er. subst found. unfold r, ex_segment in E.
  destruct (bound_probe_reports_others opts1 ex_FromBytes ex_answers ex_air ex_arrive ex_wire 7 eq_refl) with (5 := E) as (sent & _ & Hd & Hf).
  - intros i e (m & ->)%ex_air_quiet. split; [discriminate|]. intros t0. discriminate.
  - intros now inUse m H. destruct (not_elem_of_nil _ H).
  - intros x m. cbn. by intros [= <-].
  - intros l x. unfold ex_arrive. intros [H|[=]%list_elem_of_singleton]%elem_of_app. rewrite list_elem_of_In, in_map_iff in H. destruct H as (y & [= ->] & H). by apply list_elem_of_In.
  - by exists sent.
Defined.
Lemma bound_probe_reads_both : let r := run ex_seg_env (ProbeForeign ex_FromBytes None "eth0" 2) ex_segment in
  length (w_sent (sg_world r.1.1)) = 1%nat /\ p_xid ∘ fst <$> w_sent (sg_world r.1.1) = [8].
Proof. vm_compute. done. Qed.
(** The start-time probe registers nothing; against a bound listener it names the
    listener's own offer and hides the other server behind it. *)
Lemma plain_probe_hears_the_listener :
  (run (seg_env opts1 ex_answers (fun i => ex_air (Datatypes.S i)) ex_arrive ex_wire) (DetectForeign ex_FromBytes None "eth0" 2) ex_segment).2 = Ok [mkForeign (Addr4 3232235777) (Addr4 3232235778)] /\
  collectForeign (readReplies ex_FromBytes 7 [ex_dnsmasq]) = [mkForeign (Addr4 3232235777) (Addr4 3232235875)].
Proof. vm_compute. done. Qed.
Lemma probe_leaves_listener_open_witness :
  7 ∉ w_ignored (sg_world (run (seg_env opts1 (fun op => match op return SockAns op with WriteTo _ _ _ => false | op => ex_answers op end) ex_air ex_arrive ex_wire)
    (ProbeForeign ex_FromBytes None "eth0" 2) ex_segment).1.1).
Proof.
  unfold ex_segment. apply (probe_leaves_listener_open opts1 ex_FromBytes _ ex_air ex_arrive ex_wire 7 eq_refl).
  - intros i e (m & ->)%ex_air_quiet. split; [discriminate|]. intros t0. discriminate.
  - apply not_elem_of_empty.
  - intros i (m & [=])%ex_air_quiet.
Defined.
Lemma probe_discipline_witness : let t := (run ex_seg_env (ProbeForeign ex_FromBytes (Some 1) "eth0" 2) ex_segment).1.2 in
  (forall t1 e t2, t = t1 ++ e :: t2 -> probe_guard (Some 1) 2 true t1 (ev_op e)) /\ last (map ev_op t) = Some CloseConn /\ List.filter sets_ignore (map ev_op t) = [Ignore 7; Restore 7].
Proof.
  intros t. pose proof (run_outcome ex_seg_env (ProbeForeign ex_FromBytes (Some 1) "eth0" 2) ex_segment) as Ho.
  destruct (probe_discipline ex_FromBytes (Some 1) 2 "eth0" true _ _ Ho) as [HG _]. split; [exact HG|]. split; vm_compute; reflexivity.
Defined.
Definition ex_quiet_env (op : SockOp) (s : unit) : unit * SockAns op := (s, match op return SockAns op with Drain => [] | op => ex_answers op end).
Abbreviation ex_real_host := (host_of ex_FromBytes ex_quiet_env (fun _ => "refused") ex_kernel tt (fun _ => None) 0).
Lemma listener_on_its_segment_witness : exists l, build ex_real_host ex_dhcp true 5 = Ok l /\ o_Iface (ln_opts l) = Addr4 3232235777 /\ Pfx.Contains (ln_subnet l) (o_Iface (ln_opts l)) = true.
Proof.
  destruct (build ex_real_host ex_dhcp true 5) as [l|e] eqn:E; [|vm_compute in E; discriminate E]. exists l. split; [done|].
  destruct (listener_on_its_segment ex_FromBytes ex_quiet_env _ ex_kernel tt _ 0 ex_dhcp true 5 l ex_kernel_ok E) as (_ & (info & Hi & Ho & _) & _ & _ & Hc & _).
  split; [|exact Hc]. rewrite Ho. vm_compute in Hi. by injection Hi as <-.
Defined.
